(* ===== verification/_CoqProject ===== *)
-Q . S2P
Prelude.v
KList.v
KListSpec.v
KListSort.v
Mem.v
Bitmap.v
CString.v
Arith64.v
CStdlib.v
Sched.v
SchedInv.v
SchedStep.v
SchedWake.v
SchedBoot.v
SchedSleep.v
SchedProps.v
Hash.v
HashSpec.v
Words.v
Vaddr.v
Palloc.v
Pagedir.v
PagedirSpec.v
Malloc.v
MallocSpec.v
MallocProps.v
MallocRefine.v
Device.v
Block.v
Fs.v
FsInode.v
FsLocks.v
Directory.v
FsMap.v
FsDir.v
FsCore.v
FsOps.v
FsInv.v
FsSteps.v
FsRefine.v
FsClient.v
FsMount.v
Stdio.v
StdioSpec.v
Syscall.v
SyscallSpec.v
Process.v
ProcessInv.v
ProcessStep.v
ProcessProps.v
ProcessHist.v
Args.v
Loader.v
LoaderSpec.v
LoaderProps.v
Console.v
Partition.v
Input.v
Ustar.v
Boot.v
