(* ===== verification/Prelude.v ===== *)
(** * Verification of the Pintos kernel (pintos-main/)

    The program is a teaching kernel for the i386: threads with locks and
    semaphores, a page allocator and a block allocator on top of it, page
    directories, a file system on a block device, and processes that are
    loaded from files and call the kernel through interrupt 0x30.  This
    library models its parts in the order in which they use each other, and
    proves for each what its callers rely on.

    ** How the code is modelled

    A C function is a Rocq function of the same name.  A routine that works on
    state is a function from a state to an outcome and a new state ([M]
    below); the outcomes other than a result are a failed assertion or panic,
    an access to memory that is not there, a trap, waiting for ever, and
    running out of fuel ([err]).  [wp] is total correctness: a theorem of the
    form [wp m Q s] says that [m] returns, and with what.  Integers are [Z],
    wrapped to their width wherever the C code can wrap ([u32], [s32], ...).
    Memory is a finite map from addresses to bytes ([Mem]), for the parts
    whose correctness depends on the layout of bytes; the lists of list.c are
    a heap of links ([KList]), and other parts use the sequences these lists
    are proved to implement.  A loop whose length is not a number in the code
    has fuel: the number of mapped bytes for loops that walk through memory,
    the number of elements for loops over lists, 2^20 for the pages of a
    segment, which is the number of pages of the address space.  The theorems
    show that the fuel is never used up.

    Code that is not modelled is a parameter: the hardware disk is an array of
    sectors, [Device] and [Allocator] are the interfaces the file system has
    to its device and to [malloc].  [Block] is an instance of the first; the
    only promise of the second that is used is that live objects do not
    overlap and, in [Roomy], that memory does not run out.

    ** The parts

    Libraries.
    - [KList], [KListSpec], [KListSort]: lib/kernel/list.c.  The pointer code
      refines sequences; the merge sort ends, and is stable when
      "not less" is transitive.
    - [Bitmap]: lib/kernel/bitmap.c.  Words and masks against arrays of bits.
    - [Hash], [HashSpec]: lib/kernel/hash.c.  A table is a set of elements.
    - [CString], [CStdlib], [Arith64]: lib/string.c, lib/stdlib.c and ctype.h,
      lib/arithmetic.c.  Every routine against a function on lists or numbers.
    - [Mem], [Words]: memory, words in it, and parts of states.

    Threads: threads/thread.c, synch.c, interrupt.c, devices/timer.c.
    - [Sched]: the state of the kernel and the routines, cut at the points
      where another thread may run; a machine that steps the running thread or
      takes a timer interrupt.
    - [SchedInv], [SchedStep], [SchedWake], [SchedBoot], [SchedSleep]: the
      invariant and its preservation by every step from boot on.
    - [SchedProps]: no assertion fails, the lists of threads are consistent,
      locks exclude, sleepers wake on time, queues are served in order.

    Memory: threads/vaddr.h, pte.h, palloc.c, malloc.c, userprog/pagedir.c.
    - [Vaddr], [Palloc], [Pagedir], [PagedirSpec]: pools of pages, and page
      tables as words in them.
    - [Malloc], [MallocSpec], [MallocProps], [MallocRefine]: the block
      allocator refines a heap of disjoint blocks with contents.

    File system: devices/block.c, partition.c, filesys/*.c.
    - [Device], [Block]: devices, roles, partitions.
    - [Fs], [Directory]: inodes, files, the free map; directories and the
      operations of filesys.c.
    - [FsInode], [FsMap], [FsDir], [FsCore], [FsOps], [FsInv], [FsSteps]: what
      each routine does to files, the free map and the names, and the
      invariant of the file system.
    - [FsRefine]: the operations refine an abstract file system;
      [FsClient]: the same in the form its clients use.
    - [FsMount]: formatting, and finding the files again after a restart.
    - [FsLocks]: readers and writers of an inode under every interleaving.

    Processes: userprog/syscall.c, process.c.
    - [Syscall], [SyscallSpec]: the handler refines a specification of the
      calls on files, the keyboard and the console and of [exit] with its
      message, and ends a process that passes a bad pointer.
    - [Process], [ProcessInv], [ProcessStep], [ProcessProps]: execute, wait
      and exit between parents and children, under every interleaving;
      [ProcessHist]: what wait returns, over the history of a run.
    - [Args]: the command line on the stack of a new process.
    - [Loader], [LoaderSpec], [LoaderProps]: the ELF loader builds exactly the
      pages the file describes, whatever the file contains.

    Output, input and archives: lib/stdio.c, lib/kernel/console.c,
    devices/partition.c, intq.c, input.c, kbd.c, lib/ustar.c.
    - [Stdio], [StdioSpec]: [printf] and its relatives; the text of a format
      does not depend on where it goes, integers are printed as the flags,
      width and precision say, buffers are not overrun, and printing always ends.
    - [Console]: the recursive lock of the console; messages of different
      threads do not mix.
    - [Partition]: the scan of a partition table.
    - [Input]: the interrupt queue, the buffer of keys and the keyboard; the
      characters typed reach their reader in order and no wake-up is lost.
    - [Ustar]: headers of archives, written and read in the byte memory.

    Start-up: [Boot] models [paging_init] of threads/init.c; run after
    [palloc_init] with enough pages for the kernel pool it maps the physical
    memory.

    The one function here whose fuel can run out is
    [Partition.read_partition_table]: its recursion need not end
    ([extended_diverges]).

    ** What the theorems show

    The numbered statements (C1, C2, ...) are the main results.  They are of
    four groups: refinement of an abstract specification (file system, system
    calls, block allocator, lists, hash tables, loader), invariants and safety
    of the interleaved parts (threads, locks, inode locks, processes), exact
    functional behaviour of the library routines and of the operations on
    pages, and behaviour at restart and on errors.  A statement with
    hypotheses is followed, here or in a later file, by a [_witness] that
    applies it to a concrete state.  Where modelling showed that the code does
    not do what it means to, a lemma gives a concrete run (for example
    [failed_load_hangs], [wait_twice], [free_limit_wraps], [calloc_undersized], [seek_bad_fd],
    [two_readers_panic], [extended_scan_loops]).

    ** What is not modelled

    The boot path (loader.S, start.S, and init.c but for [paging_init]), the
    context switch and the interrupt stubs (assembly); the drivers, which talk to hardware ports
    (ide.c, serial.c, vga.c, pit.c, rtc.c, speaker.c, shutdown.c); debugging
    output and the messages of most routines; the set-up of descriptor tables
    (gdt.c, tss.c, most of interrupt.c); the registration and messages of
    exceptions; fsutil.c; random.c; the priority scheduler, which the code does
    not have; the programs and library that run in user mode, and the host
    tools. *)

From stdpp Require Export base tactics numbers list gmap fin_maps sorting.
From Stdlib Require Export ZArith Lia.

#[export] Set Default Goal Selector "!".

(** ** Outcomes of C code

    A kernel routine either returns, or stops the kernel: a failed [ASSERT],
    [PANIC] or [NOT_REACHED] ends in [debug_panic] ([EPanic]); an access to an
    address that holds no object faults ([EFault]); a division by zero or a
    quotient that does not fit traps ([ETrap]).  [EBlock] is the outcome of a
    sequential routine that would sleep for ever (a lock nobody will release).
    [EFuel] is produced only by the model, when a loop is given fewer steps than
    it needs; the theorems show that it never is. *)
Inductive err := EPanic | EFault | ETrap | EBlock | EFuel.

Inductive res (A : Type) :=
  | Ok (a : A)
  | Err (e : err).
Arguments Ok {A} a.
Arguments Err {A} e.

#[export] Instance err_eq_dec : EqDecision err.
Proof. solve_decision. Defined.

Declare Scope pintos_scope.
Delimit Scope pintos_scope with pintos.

Definition rbind {A B} (m : res A) (k : A -> res B) : res B :=
  match m with Ok a => k a | Err e => Err e end.

Notation "'let?' x := m 'in' k" := (rbind m (fun x => k))
  (at level 10, x pattern, m at level 100, k at level 200)
  : pintos_scope.

(** ** State and errors: the monad of kernel routines *)

Definition M (S A : Type) : Type := S -> res (A * S).

Section monad.
Context {S : Type}.

Definition ret {A} (a : A) : M S A := fun s => Ok (a, s).
Definition bind {A B} (m : M S A) (k : A -> M S B) : M S B :=
  fun s => match m s with Ok (a, s') => k a s' | Err e => Err e end.
Definition fail {A} (e : err) : M S A := fun _ => Err e.
Definition get : M S S := fun s => Ok (s, s).
Definition gets {A} (f : S -> A) : M S A := fun s => Ok (f s, s).
Definition modify (f : S -> S) : M S unit := fun s => Ok (tt, f s).
(** [ASSERT (b)]: lib/debug.h. *)
Definition assert (b : bool) : M S unit := if b then ret tt else fail EPanic.
Definition lift_res {A} (r : res A) : M S A :=
  fun s => match r with Ok a => Ok (a, s) | Err e => Err e end.
End monad.

Notation "'let!' x := m 'in' k" := (bind m (fun x => k))
  (at level 10, x pattern, m at level 100, k at level 200)
  : pintos_scope.
Notation "'do!' m 'in' k" := (bind m (fun _ => k))
  (at level 10, m at level 100, k at level 200)
  : pintos_scope.
Open Scope pintos_scope.

(** Total correctness: [wp m Q s] holds when [m] started in [s] returns, and
    its result and final state satisfy [Q]. *)
Definition wp {S A} (m : M S A) (Q : A -> S -> Prop) (s : S) : Prop :=
  match m s with Ok (a, s') => Q a s' | Err _ => False end.

Create HintDb wpdb.

Section wp.
Context {S : Type}.
Implicit Types s : S.

Lemma wp_mono {A} (m : M S A) (Q Q' : A -> S -> Prop) s :
  wp m Q s -> (forall a s', Q a s' -> Q' a s') -> wp m Q' s.
Proof. unfold wp. destruct (m s) as [[a s']|]; auto. Qed.

Lemma wp_and {A} (m : M S A) (Q R : A -> S -> Prop) s :
  wp m Q s -> wp m R s -> wp m (fun a s' => Q a s' /\ R a s') s.
Proof. unfold wp. destruct (m s) as [[a s']|]; [done|by intros []]. Qed.

Lemma wp_ok {A} (m : M S A) Q s :
  wp m Q s <-> exists a s', m s = Ok (a, s') /\ Q a s'.
Proof.
  unfold wp. destruct (m s) as [[a s']|e].
  - split; [eauto|]. intros (?&?&[= -> ->]&?). done.
  - split; [done|]. by intros (?&?&?&?).
Qed.

Lemma wp_bind {A B} (m : M S A) (k : A -> M S B) Q s :
  wp (bind m k) Q s <-> wp m (fun a => wp (k a) Q) s.
Proof. unfold wp, bind. by destruct (m s) as [[]|]. Qed.

Lemma wp_assoc_do {A B C} (m : M S A) (k1 : M S B) (k2 : M S C) Q s :
  wp (do! m in k1) (fun _ s' => wp k2 Q s') s -> wp (do! m in do! k1 in k2) Q s.
Proof.
  unfold wp, bind. destruct (m s) as [[? ?]|?]; [|done]. by destruct (k1 _) as [[? ?]|?].
Qed.

Lemma wp_ret {A} (a : A) Q s : wp (ret a) Q s <-> Q a s.
Proof. done. Qed.

Lemma wp_gets {A} (f : S -> A) Q s : wp (gets f) Q s <-> Q (f s) s.
Proof. done. Qed.

Lemma wp_get Q s : wp get Q s <-> Q s s.
Proof. done. Qed.

Lemma wp_modify f Q s : wp (modify f) Q s <-> Q tt (f s).
Proof. done. Qed.

Lemma wp_assert b Q s : wp (assert b) Q s <-> b = true /\ Q tt s.
Proof. unfold wp, assert. destruct b; cbn; naive_solver. Qed.

Lemma wp_lift {A} (r : res A) Q s :
  wp (lift_res r) Q s <-> exists a, r = Ok a /\ Q a s.
Proof.
  unfold wp, lift_res. destruct r; cbn; [|naive_solver].
  split; [eauto|]. by intros (?&[= ->]&?).
Qed.

Lemma bind_ok {A B} (m : M S A) (k : A -> M S B) s a s' :
  m s = Ok (a, s') -> bind m k s = k a s'.
Proof. unfold bind. by intros ->. Qed.

Lemma bind_err {A B} (m : M S A) (k : A -> M S B) s e :
  m s = Err e -> bind m k s = Err e.
Proof. unfold bind. by intros ->. Qed.
End wp.

(** Symbolic execution of the primitive steps. *)
Ltac wp_go :=
  repeat lazymatch goal with
  | |- wp (bind _ _) _ _ => apply wp_bind
  | |- wp (gets _) _ _ => apply wp_gets
  | |- wp get _ _ => apply wp_get
  | |- wp (modify _) _ _ => apply wp_modify
  | |- wp (ret _) _ _ => apply wp_ret
  | |- wp (assert _) _ _ => apply wp_assert; split
  end.

(** A counted loop: the body runs for [i], [i + 1], ..., [n] times in all. *)
Fixpoint for_ {S} (n : nat) (i : Z) (body : Z -> M S unit) : M S unit :=
  match n with
  | O => ret tt
  | Datatypes.S n' => do! body i in for_ n' (i + 1)%Z body
  end.

Lemma wp_for {S} (Inv : Z -> S -> Prop) n i body s :
  (forall j s, (i <= j < i + Z.of_nat n)%Z -> Inv j s -> wp (body j) (fun _ s' => Inv (j + 1)%Z s') s) ->
  Inv i s -> wp (for_ n i body) (fun _ s' => Inv (i + Z.of_nat n)%Z s') s.
Proof.
  revert i s. induction n as [|n IH]; intros i s Hb Hi; cbn [for_].
  { by rewrite Z.add_0_r. }
  apply wp_bind. eapply wp_mono; [apply Hb; [lia|done]|]. intros [] s' Hs'.
  eapply wp_mono; [apply (IH (i + 1)%Z s'); [|done]|].
  - intros j s2 Hj. apply Hb. lia.
  - intros [] s2. by replace (i + 1 + Z.of_nat n)%Z with (i + Z.of_nat (Datatypes.S n))%Z by lia.
Qed.

(** ** Machine integers *)

(** 32-bit addresses. *)
Abbreviation ptr := Z.
Abbreviation NULL := 0%Z.

Local Open Scope Z_scope.

Definition wrapu (w x : Z) : Z := x mod 2 ^ w.
Definition wraps (w x : Z) : Z :=
  let u := x mod 2 ^ w in if u <? 2 ^ (w - 1) then u else u - 2 ^ w.

Abbreviation u8 := (wrapu 8).
Abbreviation u16 := (wrapu 16).
Abbreviation u32 := (wrapu 32).
Abbreviation u64 := (wrapu 64).
Abbreviation s32 := (wraps 32).
Abbreviation s64 := (wraps 64).
Abbreviation UINT_MAX := 4294967295%Z.
Abbreviation INT_MAX := 2147483647%Z.
Abbreviation INT_MIN := (-2147483648)%Z.

Definition in_u (w x : Z) : Prop := (0 <= x < 2 ^ w)%Z.
Definition in_s (w x : Z) : Prop := (- 2 ^ (w - 1) <= x < 2 ^ (w - 1))%Z.

Create HintDb intdb.

Section ints.

Lemma wrapu_small w x : in_u w x -> wrapu w x = x.
Proof. apply Z.mod_small. Qed.

Lemma wrapu_in w x : 0 <= w -> in_u w (wrapu w x).
Proof. intros. apply Z.mod_pos_bound. lia. Qed.

Lemma wraps_small w x : 0 < w -> in_s w x -> wraps w x = x.
Proof.
  unfold in_s, wraps. intros Hw H.
  assert (Hp : 2 ^ w = 2 * 2 ^ (w - 1)) by (rewrite <- Z.pow_succ_r by lia; f_equal; lia).
  assert (0 < 2 ^ (w - 1)) by lia.
  destruct (Z.ltb_spec (x mod 2 ^ w) (2 ^ (w - 1))) as [Hl|Hl].
  - destruct (Z.le_gt_cases 0 x); [apply Z.mod_small; lia|].
    rewrite <- (Z.mod_unique x (2 ^ w) (-1) (x + 2 ^ w)) in Hl; lia.
  - destruct (Z.le_gt_cases 0 x); [rewrite Z.mod_small in Hl by lia; lia|].
    rewrite <- (Z.mod_unique x (2 ^ w) (-1) (x + 2 ^ w)); lia.
Qed.

Lemma wraps_in w x : 0 < w -> in_s w (wraps w x).
Proof.
  unfold in_s, wraps. intros Hw.
  assert (Hp : 2 ^ w = 2 * 2 ^ (w - 1)) by (rewrite <- Z.pow_succ_r by lia; f_equal; lia).
  pose proof (Z.mod_pos_bound x (2 ^ w) ltac:(lia)).
  destruct (Z.ltb_spec (x mod 2 ^ w) (2 ^ (w - 1))); lia.
Qed.

Lemma wraps_mod w x : wraps w x mod 2 ^ w = x mod 2 ^ w.
Proof.
  unfold wraps. destruct (_ <? _); [apply Zmod_mod|].
  destruct (Z.eq_dec (2 ^ w) 0) as [->|]; [by rewrite !Zmod_0_r, Z.sub_0_r|].
  replace (x mod 2 ^ w - 2 ^ w) with (x mod 2 ^ w + (-1) * 2 ^ w) by lia.
  by rewrite Z_mod_plus_full, Zmod_mod.
Qed.

Lemma wraps_eq w x y : x mod 2 ^ w = y mod 2 ^ w -> wraps w x = wraps w y.
Proof. unfold wraps. by intros ->. Qed.
End ints.
#[export] Hint Resolve wrapu_in wraps_in : intdb.

(** Lia with division and remainder by numerals. *)
Ltac zlia := Z.to_euclidean_division_equations; lia.

(** ** Lists *)

Definition hd_or {A} (d : A) (l : list A) : A :=
  match l with [] => d | x :: _ => x end.

Fixpoint last_or {A} (d : A) (l : list A) : A :=
  match l with [] => d | x :: l' => last_or x l' end.

Create HintDb listdb.

Section lists.
Context {A : Type}.
Implicit Types (x d : A) (l : list A).

Lemma hd_or_app d l1 l2 : hd_or d (l1 ++ l2) = hd_or (hd_or d l2) l1.
Proof. by destruct l1. Qed.

Lemma last_or_app d l1 l2 : last_or d (l1 ++ l2) = last_or (last_or d l1) l2.
Proof. revert d. induction l1; simpl; auto. Qed.

Lemma last_or_snoc d l x : last_or d (l ++ [x]) = x.
Proof. by rewrite last_or_app. Qed.

Lemma hd_or_in d l : l <> [] -> hd_or d l ∈ l.
Proof. destruct l; [done|]. intros _. set_solver. Qed.

Lemma last_or_in d l : l <> [] -> last_or d l ∈ l.
Proof.
  destruct l as [|x l _] using rev_ind; [done|].
  intros _. rewrite last_or_snoc. set_solver.
Qed.

Lemma last_or_cases d l : last_or d l = d \/ last_or d l ∈ l.
Proof. destruct l; [by left|right]. by apply last_or_in. Qed.

Lemma hd_or_cases d l : hd_or d l = d \/ hd_or d l ∈ l.
Proof. destruct l; [by left|right]. set_solver. Qed.

Lemma hd_or_reverse d l : hd_or d (reverse l) = last_or d l.
Proof.
  destruct l as [|x l _] using rev_ind; [done|].
  rewrite reverse_app, last_or_snoc. done.
Qed.

Lemma last_or_reverse d l : last_or d (reverse l) = hd_or d l.
Proof. destruct l; [done|]. by rewrite reverse_cons, last_or_snoc. Qed.
End lists.
#[export] Hint Rewrite @hd_or_app @last_or_app @last_or_snoc @hd_or_reverse
  @last_or_reverse @app_nil_r : listdb.

(** ** Filters that keep nothing or everything *)

Lemma filter_none {A} (P : A -> Prop) `{!forall x, Decision (P x)} (l : list A) : (forall x, x ∈ l -> ~ P x) -> filter P l = [].
Proof.
  induction l as [|x l IH]; intros Hx; [done|]. rewrite filter_cons_False by (apply Hx; set_solver). apply IH. set_solver.
Qed.

Lemma filter_all {A} (P : A -> Prop) `{!forall x, Decision (P x)} (l : list A) : (forall x, x ∈ l -> P x) -> filter P l = l.
Proof.
  induction l as [|x l IH]; intros Hx; [done|]. rewrite filter_cons_True by (apply Hx; set_solver). f_equal. apply IH. set_solver.
Qed.

Lemma filter_ext_in {A} (P Q : A -> Prop) `{!forall x, Decision (P x), !forall x, Decision (Q x)} (l : list A) :
  (forall x, x ∈ l -> P x <-> Q x) -> filter P l = filter Q l.
Proof.
  induction l as [|x l IH]; intros Hx; [done|]. rewrite !filter_cons, IH by (intros; apply Hx; by right).
  destruct (Hx x ltac:(by left)). repeat case_decide; (done || tauto).
Qed.
