(* ===== verification/KList.v ===== *)
(** * lib/kernel/list.c: intrusive doubly linked lists

    The heap maps the address of a [struct list_elem] to its two links; a
    [struct list] at address [l] has its [head] at [l] and its [tail] behind
    it.  Every routine of list.c that does not compare elements is here, at the level of the
    pointer assignments the C code makes; the ordered routines are in
    KListSort.v.  [list_at h l es] says that the list at [l] holds exactly the
    elements [es], in that order, and the theorems show that the routines
    implement the obvious operations on [es] and touch nothing else. *)

From S2P Require Import Prelude.
Local Open Scope Z_scope.

Module KList.


(** struct list_elem (list.h). *)
Record list_elem := Elem { prev : ptr; next : ptr }.

Abbreviation heap := (gmap Z list_elem).

(** struct list (list.h): two consecutive list elements of two 32-bit
    pointers each. *)
Definition head_of (l : ptr) : ptr := l.
Definition tail_of (l : ptr) : ptr := l + 8.

Definition load (p : ptr) : M heap list_elem :=
  fun h => match h !! p with Some e => Ok (e, h) | None => Err EFault end.
Definition upd (f : list_elem -> list_elem) (p : ptr) (h : heap) : heap := alter f p h.
Definition with_prev (v : ptr) (e : list_elem) : list_elem := Elem v (next e).
Definition with_next (v : ptr) (e : list_elem) : list_elem := Elem (prev e) v.

(** [p->prev], [p->next], [p->prev = v], [p->next = v]. *)
Definition get_prev (p : ptr) : M heap ptr := let! e := load p in ret (prev e).
Definition get_next (p : ptr) : M heap ptr := let! e := load p in ret (next e).
Definition set_prev (p v : ptr) : M heap unit :=
  do! load p in modify (upd (with_prev v) p).
Definition set_next (p v : ptr) : M heap unit :=
  do! load p in modify (upd (with_next v) p).

Definition orM (a b : M heap bool) : M heap bool :=
  let! x := a in if x then ret true else b.
Definition assertM (c : M heap bool) : M heap unit := let! b := c in assert b.

Definition is_head (elem : ptr) : M heap bool :=
  if elem =? NULL then ret false
  else let! e := load elem in ret ((prev e =? NULL) && negb (next e =? NULL)).

Definition is_interior (elem : ptr) : M heap bool :=
  if elem =? NULL then ret false
  else let! e := load elem in ret (negb (prev e =? NULL) && negb (next e =? NULL)).

Definition is_tail (elem : ptr) : M heap bool :=
  if elem =? NULL then ret false
  else let! e := load elem in ret (negb (prev e =? NULL) && (next e =? NULL)).

Definition list_init (l : ptr) : M heap unit :=
  do! assert (negb (l =? NULL)) in
  do! set_prev (head_of l) NULL in
  do! set_next (head_of l) (tail_of l) in
  do! set_prev (tail_of l) (head_of l) in
  set_next (tail_of l) NULL.

Definition list_begin (l : ptr) : M heap ptr :=
  do! assert (negb (l =? NULL)) in get_next (head_of l).

Definition list_next (elem : ptr) : M heap ptr :=
  do! assertM (orM (is_head elem) (is_interior elem)) in get_next elem.

Definition list_end (l : ptr) : M heap ptr :=
  do! assert (negb (l =? NULL)) in ret (tail_of l).

Definition list_rbegin (l : ptr) : M heap ptr :=
  do! assert (negb (l =? NULL)) in get_prev (tail_of l).

Definition list_prev (elem : ptr) : M heap ptr :=
  do! assertM (orM (is_interior elem) (is_tail elem)) in get_prev elem.

Definition list_rend (l : ptr) : M heap ptr :=
  do! assert (negb (l =? NULL)) in ret (head_of l).

Definition list_head (l : ptr) : M heap ptr :=
  do! assert (negb (l =? NULL)) in ret (head_of l).

Definition list_tail (l : ptr) : M heap ptr :=
  do! assert (negb (l =? NULL)) in ret (tail_of l).

Definition list_insert (before elem : ptr) : M heap unit :=
  do! assertM (orM (is_interior before) (is_tail before)) in
  do! assert (negb (elem =? NULL)) in
  let! bp := get_prev before in
  do! set_prev elem bp in
  do! set_next elem before in
  let! bp' := get_prev before in
  do! set_next bp' elem in
  set_prev before elem.

Definition list_splice (before first last : ptr) : M heap unit :=
  do! assertM (orM (is_interior before) (is_tail before)) in
  if first =? last then ret tt else
  let! last := list_prev last in
  do! assertM (is_interior first) in
  do! assertM (is_interior last) in
  (* Cleanly remove FIRST...LAST from its current list. *)
  let! fp := get_prev first in let! ln := get_next last in
  do! set_next fp ln in
  let! ln' := get_next last in let! fp' := get_prev first in
  do! set_prev ln' fp' in
  (* Splice FIRST...LAST into new list. *)
  let! bp := get_prev before in
  do! set_prev first bp in
  do! set_next last before in
  let! bp' := get_prev before in
  do! set_next bp' first in
  set_prev before last.

Definition list_push_front (l elem : ptr) : M heap unit :=
  let! b := list_begin l in list_insert b elem.

Definition list_push_back (l elem : ptr) : M heap unit :=
  let! e := list_end l in list_insert e elem.

Definition list_remove (elem : ptr) : M heap ptr :=
  do! assertM (is_interior elem) in
  let! ep := get_prev elem in let! en := get_next elem in
  do! set_next ep en in
  let! en' := get_next elem in let! ep' := get_prev elem in
  do! set_prev en' ep' in
  get_next elem.

Definition list_empty (l : ptr) : M heap bool :=
  let! b := list_begin l in let! e := list_end l in ret (b =? e).

Definition list_front (l : ptr) : M heap ptr :=
  do! assertM (let! b := list_empty l in ret (negb b)) in
  get_next (head_of l).

Definition list_back (l : ptr) : M heap ptr :=
  do! assertM (let! b := list_empty l in ret (negb b)) in
  get_prev (tail_of l).

Definition list_pop_front (l : ptr) : M heap ptr :=
  let! front := list_front l in
  do! list_remove front in ret front.

Definition list_pop_back (l : ptr) : M heap ptr :=
  let! back := list_back l in
  do! list_remove back in ret back.

(** A loop over list elements visits each mapped element at most once, so the
    number of mapped elements bounds its iterations. *)
Definition fuel_of (h : heap) : nat := S (size h).

Fixpoint size_loop (fuel : nat) (l e : ptr) (cnt : Z) : M heap Z :=
  match fuel with
  | O => fail EFuel
  | S f =>
      let! en := list_end l in
      if e =? en then ret cnt
      else let! e' := list_next e in size_loop f l e' (u32 (cnt + 1))
  end.

Definition list_size (l : ptr) : M heap Z :=
  let! e := list_begin l in
  let! fuel := gets fuel_of in
  size_loop fuel l e 0.

(** An lvalue of type [struct list_elem *] inside an element. *)
Inductive field := FPrev (p : ptr) | FNext (p : ptr).
Definition read (f : field) : M heap ptr :=
  match f with FPrev p => get_prev p | FNext p => get_next p end.
Definition write (f : field) (v : ptr) : M heap unit :=
  match f with FPrev p => set_prev p v | FNext p => set_next p v end.

Definition swap (a b : field) : M heap unit :=
  let! t := read a in
  let! vb := read b in
  do! write a vb in
  write b t.

Fixpoint reverse_loop (fuel : nat) (l e : ptr) : M heap unit :=
  match fuel with
  | O => fail EFuel
  | S f =>
      let! en := list_end l in
      if e =? en then ret tt
      else
        do! swap (FPrev e) (FNext e) in
        let! e' := get_prev e in
        reverse_loop f l e'
  end.

Definition list_reverse (l : ptr) : M heap unit :=
  let! b := list_empty l in
  if b then ret tt
  else
    let! e := list_begin l in
    let! fuel := gets fuel_of in
    do! reverse_loop fuel l e in
    do! swap (FNext (head_of l)) (FPrev (tail_of l)) in
    let! hn := get_next (head_of l) in
    let! tp := get_prev (tail_of l) in
    swap (FPrev hn) (FNext tp).

(** ** What a list represents *)

(** [chain h pv c nx]: the elements [c] are linked to each other in order, the
    first one back to [pv] and the last one on to [nx]. *)
Fixpoint chain (h : heap) (pv : ptr) (c : list ptr) (nx : ptr) : Prop :=
  match c with
  | [] => True
  | x :: c' => h !! x = Some (Elem pv (hd_or nx c')) /\ chain h x c' nx
  end.

#[export] Instance list_elem_eq_dec : EqDecision list_elem.
Proof. solve_decision. Defined.

#[export] Instance chain_dec h pv c nx : Decision (chain h pv c nx).
Proof. revert pv. induction c as [|x c IH]; intros pv; simpl; apply _. Defined.

(** A complete node sequence, head and tail included. *)
Definition dlist (h : heap) (c : list ptr) : Prop :=
  chain h NULL c NULL /\ NoDup c /\ NULL ∉ c.

Definition nodes (l : ptr) (es : list ptr) : list ptr := head_of l :: es ++ [tail_of l].

(** The list at [l] holds the elements [es]. *)
Definition list_at (h : heap) (l : ptr) (es : list ptr) : Prop := dlist h (nodes l es).

#[export] Instance list_at_dec h l es : Decision (list_at h l es).
Proof. unfold list_at, dlist. apply _. Defined.

(** Only the elements in [c] changed, and none appeared or vanished. *)
Definition only_touches (c : list ptr) (h h' : heap) : Prop :=
  dom h' = dom h /\ forall p, p ∉ c -> h' !! p = h !! p.

Section chain.
Implicit Types (h : heap) (c : list ptr) (p x v pv nx : ptr).

Lemma chain_app h pv c1 c2 nx :
  chain h pv (c1 ++ c2) nx <->
  chain h pv c1 (hd_or nx c2) /\ chain h (last_or pv c1) c2 nx.
Proof.
  revert pv. induction c1 as [|x c1 IH]; intros pv; simpl; [naive_solver|].
  rewrite IH, hd_or_app. naive_solver.
Qed.

Lemma chain_ext h h' pv c nx :
  (forall p, p ∈ c -> h' !! p = h !! p) -> chain h pv c nx -> chain h' pv c nx.
Proof.
  revert pv. induction c as [|x c IH]; intros pv Hext; simpl; [done|].
  intros [Hx Hc]. split; [rewrite Hext; set_solver|].
  apply IH; [|done]. intros p Hp. apply Hext. set_solver.
Qed.

Lemma lookup_upd h f p : upd f p h !! p = f <$> h !! p.
Proof. apply lookup_alter_eq. Qed.

Lemma lookup_upd_ne h f p q : p <> q -> upd f p h !! q = h !! q.
Proof. apply lookup_alter_ne. Qed.

Lemma dom_upd h f p : dom (upd f p h) = dom h.
Proof. apply dom_alter_L. Qed.

Lemma chain_frame h f p pv c nx :
  p ∉ c -> chain h pv c nx -> chain (upd f p h) pv c nx.
Proof.
  intros Hp. apply chain_ext. intros q Hq. apply lookup_upd_ne. set_solver.
Qed.

Lemma chain_set_first h pv x c nx v :
  x ∉ c -> chain h pv (x :: c) nx -> chain (upd (with_prev v) x h) v (x :: c) nx.
Proof.
  intros Hx [Hl Hc]. split; [by rewrite lookup_upd, Hl|].
  by apply chain_frame.
Qed.

Lemma chain_set_last h pv c x nx v :
  x ∉ c -> chain h pv (c ++ [x]) nx -> chain (upd (with_next v) x h) pv (c ++ [x]) v.
Proof.
  intros Hx. rewrite !chain_app. simpl. intros (Hc&Hl&_).
  split_and!; [by apply chain_frame|by rewrite lookup_upd, Hl|done].
Qed.

Lemma dlist_lookup h c1 x c2 :
  dlist h (c1 ++ x :: c2) -> h !! x = Some (Elem (last_or NULL c1) (hd_or NULL c2)).
Proof. intros (Hc&_&_). apply chain_app in Hc as [_ [? _]]. done. Qed.

Lemma dlist_mapped h c x : dlist h c -> x ∈ c -> is_Some (h !! x).
Proof.
  intros Hd (c1&c2&->)%list_elem_of_split. apply dlist_lookup in Hd. eauto.
Qed.

Lemma dlist_ext h h' c : (forall p, p ∈ c -> h' !! p = h !! p) -> dlist h c -> dlist h' c.
Proof. intros ? (?&?&?). split_and!; [by eapply chain_ext|done..]. Qed.

Lemma only_touches_refl c h : only_touches c h h.
Proof. by split. Qed.

Lemma only_touches_upd c h h' f p :
  p ∈ c -> only_touches c h h' -> only_touches c h (upd f p h').
Proof.
  intros Hp [Hd Ho]. split; [by rewrite dom_upd|].
  intros q Hq. rewrite lookup_upd_ne by set_solver. by apply Ho.
Qed.

Lemma only_touches_trans c c1 c2 h1 h2 h3 :
  only_touches c1 h1 h2 -> only_touches c2 h2 h3 -> c1 ⊆ c -> c2 ⊆ c ->
  only_touches c h1 h3.
Proof.
  intros [Hd1 Ho1] [Hd2 Ho2] ??. split; [congruence|].
  intros p Hp. rewrite Ho2, Ho1; set_solver.
Qed.

Lemma only_touches_mono c c' h h' : c ⊆ c' -> only_touches c h h' -> only_touches c' h h'.
Proof. intros ? [? Ho]. split; [done|]. intros p ?. apply Ho. set_solver. Qed.

(** A list that shares no element with what was touched is unchanged. *)
Lemma dlist_frame c c' h h' : only_touches c h h' -> c ## c' -> dlist h c' -> dlist h' c'.
Proof. intros [_ Ho] ?. apply dlist_ext. intros p ?. apply Ho. set_solver. Qed.

Lemma only_touches_size c h h' : only_touches c h h' -> size h' = size h.
Proof. intros [Hd _]. by rewrite <- !size_dom, Hd. Qed.

Lemma dlist_length h c : dlist h c -> (length c <= size h)%nat.
Proof.
  intros Hd. rewrite <- size_dom.
  rewrite <- (size_list_to_set (C := gset Z) c) by apply Hd.
  apply subseteq_size. intros x Hx.
  apply elem_of_dom. eapply dlist_mapped; [done|]. set_solver.
Qed.

Lemma last_or_null c x : NULL ∉ x :: c -> last_or x c <> NULL.
Proof.
  intros Hn E. apply Hn. rewrite <- E.
  destruct (last_or_cases x c) as [->|]; [left|by right].
Qed.
End chain.

(** ** Rules for the single reads and writes *)

Section rules.
Implicit Types (h : heap) (p v : ptr).

Lemma wp_load h p e Q : h !! p = Some e -> Q e h -> wp (load p) Q h.
Proof. unfold wp, load. by intros ->. Qed.

Lemma wp_get_prev h p e Q : h !! p = Some e -> Q (prev e) h -> wp (get_prev p) Q h.
Proof. intros. unfold get_prev. apply wp_bind. by eapply wp_load. Qed.

Lemma wp_get_next h p e Q : h !! p = Some e -> Q (next e) h -> wp (get_next p) Q h.
Proof. intros. unfold get_next. apply wp_bind. by eapply wp_load. Qed.

Lemma wp_set_prev h p v Q :
  is_Some (h !! p) -> Q tt (upd (with_prev v) p h) -> wp (set_prev p v) Q h.
Proof. intros [e He] ?. unfold set_prev. apply wp_bind. by eapply wp_load. Qed.

Lemma wp_set_next h p v Q :
  is_Some (h !! p) -> Q tt (upd (with_next v) p h) -> wp (set_next p v) Q h.
Proof. intros [e He] ?. unfold set_next. apply wp_bind. by eapply wp_load. Qed.

Lemma is_Some_upd h f p q : is_Some (h !! q) -> is_Some (upd f p h !! q).
Proof. rewrite <- !elem_of_dom, dom_upd. done. Qed.

Lemma wp_is_interior h p e Q :
  p <> NULL -> h !! p = Some e ->
  Q (negb (prev e =? NULL) && negb (next e =? NULL)) h -> wp (is_interior p) Q h.
Proof.
  intros Hp He HQ. unfold is_interior. apply Z.eqb_neq in Hp as ->.
  apply wp_bind. by eapply wp_load.
Qed.

Lemma wp_is_head h p e Q :
  p <> NULL -> h !! p = Some e ->
  Q ((prev e =? NULL) && negb (next e =? NULL)) h -> wp (is_head p) Q h.
Proof.
  intros Hp He HQ. unfold is_head. apply Z.eqb_neq in Hp as ->.
  apply wp_bind. by eapply wp_load.
Qed.

Lemma wp_is_tail h p e Q :
  p <> NULL -> h !! p = Some e ->
  Q (negb (prev e =? NULL) && (next e =? NULL)) h -> wp (is_tail p) Q h.
Proof.
  intros Hp He HQ. unfold is_tail. apply Z.eqb_neq in Hp as ->.
  apply wp_bind. by eapply wp_load.
Qed.

Lemma wp_assertM h (c : M heap bool) Q :
  wp c (fun b h' => b = true /\ Q tt h') h -> wp (assertM c) Q h.
Proof.
  intros Hc. unfold assertM. apply wp_bind.
  eapply wp_mono; [exact Hc|]. intros b h' [-> ?]. done.
Qed.

(** [ASSERT (is_interior (p))] on an element with both links set. *)
Lemma wp_assert_interior h p e Q :
  p <> NULL -> h !! p = Some e -> prev e <> NULL -> next e <> NULL ->
  Q tt h -> wp (assertM (is_interior p)) Q h.
Proof.
  intros Hp He Hpr Hnx HQ. apply wp_assertM. eapply wp_is_interior; [done..|].
  apply Z.eqb_neq in Hpr as ->. apply Z.eqb_neq in Hnx as ->. done.
Qed.

(** [ASSERT (is_interior (p) || is_tail (p))]: anything with a predecessor. *)
Lemma wp_assert_not_head h p e Q :
  p <> NULL -> h !! p = Some e -> prev e <> NULL ->
  Q tt h -> wp (assertM (orM (is_interior p) (is_tail p))) Q h.
Proof.
  intros Hp He Hpr HQ. apply wp_assertM. unfold orM. apply wp_bind.
  eapply wp_is_interior; [done..|]. apply Z.eqb_neq in Hpr. rewrite Hpr.
  destruct (next e =? NULL) eqn:Hn; [|done].
  eapply wp_is_tail; [done..|]. rewrite Hpr, Hn. done.
Qed.

(** [ASSERT (is_head (p) || is_interior (p))]: anything with a successor. *)
Lemma wp_assert_not_tail h p e Q :
  p <> NULL -> h !! p = Some e -> next e <> NULL ->
  Q tt h -> wp (assertM (orM (is_head p) (is_interior p))) Q h.
Proof.
  intros Hp He Hnx HQ. apply wp_assertM. unfold orM. apply wp_bind.
  eapply wp_is_head; [done..|]. apply Z.eqb_neq in Hnx. rewrite Hnx.
  destruct (prev e =? NULL) eqn:Hn; [done|].
  eapply wp_is_interior; [done..|]. rewrite Hnx, Hn. done.
Qed.
End rules.

(** Resolve the value of an element after a sequence of updates. *)
Ltac upd_lookup :=
  repeat first
    [ rewrite lookup_upd
    | rewrite lookup_upd_ne by first [assumption | by apply not_eq_sym | set_solver] ];
  try (eassumption || reflexivity).

(** Split a goal about a chain over an append, and a NoDup hypothesis. *)
Ltac dl_destruct H :=
  let Hc := fresh "Hch" in let Hn := fresh "Hnd" in let Hz := fresh "Hnull" in
  destruct H as (Hc&Hn&Hz).

Section insert_remove.
Implicit Types (h : heap) (c es : list ptr).

Lemma wp_list_insert h c1 c2 e :
  dlist h (c1 ++ c2) -> c1 <> [] -> c2 <> [] ->
  e ∉ c1 ++ c2 -> e <> NULL -> is_Some (h !! e) ->
  wp (list_insert (hd_or NULL c2) e)
    (fun _ h' => dlist h' (c1 ++ e :: c2) /\ only_touches (c1 ++ e :: c2) h h') h.
Proof.
  intros Hd Hc1 Hc2 He Hnz [ee Hee].
  destruct c2 as [|b c2]; [done|]. destruct c1 as [|p c1 _] using rev_ind; [done|].
  clear Hc1 Hc2. pose proof (dlist_lookup _ _ _ _ Hd) as Hb. rewrite last_or_snoc in Hb.
  rewrite <- app_assoc in Hd. simpl in Hd.
  pose proof (dlist_lookup _ _ _ _ Hd) as Hp. simpl in Hp.
  dl_destruct Hd. rewrite NoDup_app in Hnd. destruct Hnd as (Hn1&Hdis&Hn2).
  apply NoDup_cons in Hn2 as [Hpn [Hbn Hn2]%NoDup_cons].
  assert (p <> NULL /\ b <> NULL) as [Hp0 Hb0] by (split; intros ->; set_solver).
  assert (e <> p /\ e <> b /\ p <> b) as (Hep&Heb&Hpb) by set_solver.
  unfold list_insert. apply wp_bind. simpl.
  eapply wp_assert_not_head; [done..|]. apply wp_bind, wp_assert.
  split; [by apply negb_true_iff, Z.eqb_neq|].
  apply wp_bind. eapply wp_get_prev; [done|]. simpl.
  apply wp_bind, wp_set_prev; [eauto|].
  apply wp_bind, wp_set_next; [by apply is_Some_upd; eauto|].
  apply wp_bind. eapply wp_get_prev; [upd_lookup|]. simpl.
  apply wp_bind, wp_set_next; [do 2 apply is_Some_upd; eauto|].
  apply wp_set_prev; [do 3 apply is_Some_upd; eauto|].
  split.
  - apply chain_app in Hch as [Hch1 [_ Hch2]]. split_and!.
    + rewrite chain_app. simpl. rewrite last_or_snoc. split_and!.
      * apply chain_frame; [set_solver|]. eapply chain_set_last; [set_solver|].
        do 2 (apply chain_frame; [set_solver|]). rewrite chain_app. simpl.
        split; [exact Hch1|]. split; [exact Hp|done].
      * upd_lookup. by rewrite Hee.
      * upd_lookup. by rewrite Hb.
      * destruct Hch2 as [_ Hch2]. do 4 (apply chain_frame; [set_solver|]). done.
    + rewrite <- app_assoc. simpl. apply NoDup_app. split_and!; [done|set_solver|].
      repeat (apply NoDup_cons; split); set_solver.
    + set_solver.
  - repeat (apply only_touches_upd; [set_solver|]). apply only_touches_refl.
Qed.

Lemma wp_list_remove_core h c1 p e b c2 :
  dlist h (c1 ++ p :: e :: b :: c2) ->
  wp (list_remove e)
    (fun r h' => r = b /\ dlist h' (c1 ++ p :: b :: c2) /\ h' !! e = h !! e /\
                 only_touches (c1 ++ p :: b :: c2) h h') h.
Proof.
  intros Hd. dl_destruct Hd. apply chain_app in Hch as [Hch1 Hch2].
  simpl in Hch1, Hch2. destruct Hch2 as (Hp&He&Hb&Hch2).
  pose proof Hnd as Hnd'. rewrite NoDup_app, !NoDup_cons in Hnd.
  destruct Hnd as (Hn1&Hdis&Hpn&Hen&Hbn&Hn2).
  assert (e <> NULL /\ p <> NULL /\ b <> NULL) as (He0&Hp0&Hb0)
    by (split_and!; intros ->; set_solver).
  assert (e <> p /\ e <> b /\ p <> b) as (Hep&Heb&Hpb) by set_solver.
  unfold list_remove. apply wp_bind. eapply wp_assert_interior; [done..|].
  apply wp_bind. eapply wp_get_prev; [done|]. simpl.
  apply wp_bind. eapply wp_get_next; [done|]. simpl.
  apply wp_bind, wp_set_next; [eauto|].
  apply wp_bind. eapply wp_get_next; [upd_lookup|]. simpl.
  apply wp_bind. eapply wp_get_prev; [upd_lookup|]. simpl.
  apply wp_bind, wp_set_prev; [apply is_Some_upd; eauto|].
  eapply wp_get_next; [upd_lookup|]. simpl.
  split_and!; [done| |upd_lookup|].
  - split_and!.
    + rewrite chain_app. simpl. split_and!.
      * do 2 (apply chain_frame; [set_solver|]). done.
      * upd_lookup. by rewrite Hp.
      * upd_lookup. by rewrite Hb.
      * do 2 (apply chain_frame; [set_solver|]). done.
    + eapply sublist_NoDup; [exact Hnd'|].
      apply sublist_app; [done|]. apply sublist_skip, sublist_cons. done.
    + set_solver.
  - repeat (apply only_touches_upd; [set_solver|]). apply only_touches_refl.
Qed.

Lemma wp_list_remove h c1 e c2 :
  dlist h (c1 ++ e :: c2) -> c1 <> [] -> c2 <> [] ->
  wp (list_remove e)
    (fun r h' => r = hd_or NULL c2 /\ dlist h' (c1 ++ c2) /\ h' !! e = h !! e /\
                 only_touches (c1 ++ c2) h h') h.
Proof.
  intros Hd Hc1 Hc2. destruct c2 as [|b c2]; [done|].
  destruct c1 as [|p c1 _] using rev_ind; [done|].
  rewrite <- app_assoc in Hd. rewrite <- app_assoc.
  by apply wp_list_remove_core.
Qed.
End insert_remove.

(** ** Forward and backward links separately

    [list_splice] rewires three forward and three backward links, some of them
    possibly in the same element, so it is easier to follow one field at a
    time. *)

Definition hprev (h : heap) (p : ptr) : option ptr := prev <$> h !! p.
Definition hnext (h : heap) (p : ptr) : option ptr := next <$> h !! p.

Fixpoint fwd (h : heap) (c : list ptr) (nx : ptr) : Prop :=
  match c with [] => True | x :: c' => hnext h x = Some (hd_or nx c') /\ fwd h c' nx end.
Fixpoint bwd (h : heap) (pv : ptr) (c : list ptr) : Prop :=
  match c with [] => True | x :: c' => hprev h x = Some pv /\ bwd h x c' end.

Section fields.
Implicit Types (h : heap) (c : list ptr) (p x v pv nx : ptr).

Lemma chain_fwd_bwd h pv c nx : chain h pv c nx <-> fwd h c nx /\ bwd h pv c.
Proof.
  revert pv. induction c as [|x c IH]; intros pv; simpl; [done|].
  rewrite IH. unfold hnext, hprev. split.
  - intros (Hx&?&?). by rewrite Hx.
  - intros ((Hx&?)&Hy&?). destruct (h !! x) as [[]|]; simplify_eq/=. done.
Qed.

Lemma hprev_set_next h p v x : hprev (upd (with_next v) p h) x = hprev h x.
Proof.
  unfold hprev. destruct (decide (p = x)) as [->|]; [|by rewrite lookup_upd_ne].
  rewrite lookup_upd. by destruct (h !! x).
Qed.

Lemma hnext_set_prev h p v x : hnext (upd (with_prev v) p h) x = hnext h x.
Proof.
  unfold hnext. destruct (decide (p = x)) as [->|]; [|by rewrite lookup_upd_ne].
  rewrite lookup_upd. by destruct (h !! x).
Qed.

Lemma hprev_set_prev h p v x :
  is_Some (h !! x) ->
  hprev (upd (with_prev v) p h) x = if decide (p = x) then Some v else hprev h x.
Proof.
  intros [e He]. unfold hprev. destruct (decide (p = x)) as [->|]; [|by rewrite lookup_upd_ne].
  by rewrite lookup_upd, He.
Qed.

Lemma hnext_set_next h p v x :
  is_Some (h !! x) ->
  hnext (upd (with_next v) p h) x = if decide (p = x) then Some v else hnext h x.
Proof.
  intros [e He]. unfold hnext. destruct (decide (p = x)) as [->|]; [|by rewrite lookup_upd_ne].
  by rewrite lookup_upd, He.
Qed.

Lemma fwd_ext h h' c nx : (forall x, x ∈ c -> hnext h' x = hnext h x) -> fwd h c nx -> fwd h' c nx.
Proof.
  induction c as [|x c IH]; simpl; [done|]. intros Hx [? ?].
  split; [rewrite Hx; set_solver|]. apply IH; [|done]. set_solver.
Qed.

Lemma bwd_ext h h' pv c : (forall x, x ∈ c -> hprev h' x = hprev h x) -> bwd h pv c -> bwd h' pv c.
Proof.
  revert pv. induction c as [|x c IH]; intros pv; simpl; [done|]. intros Hx [? ?].
  split; [rewrite Hx; set_solver|]. apply IH; [|done]. set_solver.
Qed.

Lemma fwd_app h c1 c2 nx : fwd h (c1 ++ c2) nx <-> fwd h c1 (hd_or nx c2) /\ fwd h c2 nx.
Proof. induction c1 as [|x c1 IH]; simpl; [naive_solver|]. rewrite IH, hd_or_app. naive_solver. Qed.

Lemma bwd_app h pv c1 c2 : bwd h pv (c1 ++ c2) <-> bwd h pv c1 /\ bwd h (last_or pv c1) c2.
Proof. revert pv. induction c1 as [|x c1 IH]; intros pv; simpl; [naive_solver|]. rewrite IH. naive_solver. Qed.

Lemma hnext_mapped h p v : hnext h p = Some v -> is_Some (h !! p).
Proof. unfold hnext. destruct (h !! p); [eauto|done]. Qed.
Lemma hprev_mapped h p v : hprev h p = Some v -> is_Some (h !! p).
Proof. unfold hprev. destruct (h !! p); [eauto|done]. Qed.

Lemma fwd_set_next_frame h p v c nx : p ∉ c -> fwd h c nx -> fwd (upd (with_next v) p h) c nx.
Proof.
  intros Hp. apply fwd_ext. intros x Hx. unfold hnext. rewrite lookup_upd_ne; set_solver.
Qed.
Lemma fwd_set_prev h p v c nx : fwd h c nx -> fwd (upd (with_prev v) p h) c nx.
Proof. apply fwd_ext. intros x _. apply hnext_set_prev. Qed.
Lemma bwd_set_prev_frame h p v c pv : p ∉ c -> bwd h pv c -> bwd (upd (with_prev v) p h) pv c.
Proof.
  intros Hp. apply bwd_ext. intros x Hx. unfold hprev. rewrite lookup_upd_ne; set_solver.
Qed.
Lemma bwd_set_next h p v c pv : bwd h pv c -> bwd (upd (with_next v) p h) pv c.
Proof. apply bwd_ext. intros x _. apply hprev_set_next. Qed.

Lemma fwd_retarget h d c nx v l :
  l = last_or d c -> c <> [] -> NoDup c -> fwd h c nx -> fwd (upd (with_next v) l h) c v.
Proof.
  intros ->. destruct c as [|x c _] using rev_ind; [done|]. intros _.
  rewrite last_or_snoc, NoDup_app, !fwd_app. simpl. intros (_&Hd&_) (Hc&Hx&_).
  split_and!; [|by rewrite hnext_set_next, decide_True by eauto using hnext_mapped|done].
  apply fwd_set_next_frame; [set_solver|done].
Qed.

Lemma bwd_retarget h pv d c v f :
  f = hd_or d c -> c <> [] -> NoDup c -> bwd h pv c -> bwd (upd (with_prev v) f h) v c.
Proof.
  intros ->. destruct c as [|x c]; [done|]. intros _. rewrite NoDup_cons. simpl. intros [? _] [Hx Hc].
  split; [by rewrite hprev_set_prev, decide_True by eauto using hprev_mapped|].
  by apply bwd_set_prev_frame.
Qed.

Lemma wp_get_prev' h p v Q : hprev h p = Some v -> Q v h -> wp (get_prev p) Q h.
Proof. unfold hprev. intros (e&?&->)%fmap_Some_1 ?. by eapply wp_get_prev. Qed.
Lemma wp_get_next' h p v Q : hnext h p = Some v -> Q v h -> wp (get_next p) Q h.
Proof. unfold hnext. intros (e&?&->)%fmap_Some_1 ?. by eapply wp_get_next. Qed.

(** The six assignments of [list_splice]. *)
Lemma wp_list_splice_raw h before first lst n p q :
  before <> NULL -> first <> NULL -> lst <> NULL -> n <> NULL ->
  p <> NULL -> q <> NULL ->
  hprev h before = Some q -> hprev h first = Some p -> is_Some (hnext h first) ->
  hnext h first <> Some NULL -> hnext h lst = Some n -> is_Some (hprev h lst) ->
  hprev h lst <> Some NULL -> hprev h n = Some lst ->
  is_Some (h !! p) -> is_Some (h !! q) ->
  n <> before -> first <> n -> lst <> p -> n <> first ->
  wp (list_splice before first n)
    (fun _ h' => h' = upd (with_prev lst) before (upd (with_next first) q
                      (upd (with_next before) lst (upd (with_prev q) first
                      (upd (with_prev p) n (upd (with_next n) p h)))))) h.
Proof.
  intros Hb0 Hf0 Hl0 Hn0 Hp0 Hq0 Hb Hf [fn Hfn] Hfn0 Hl [lp Hlp] Hlp0 Hn Hp Hq Hnb Hfn' Hlp' Hnf.
  assert (forall x, is_Some (hprev h x) -> exists e, h !! x = Some e /\ hprev h x = Some (prev e)
            /\ hnext h x = Some (next e)) as Hex.
  { intros x [v Hv]. unfold hprev, hnext in *. destruct (h !! x) as [e|]; [|done]. eauto. }
  destruct (Hex before) as (be&Hbe&Hb1&_); [eauto|].
  destruct (Hex first) as (fe&Hfe&Hf1&Hf2); [eauto|].
  destruct (Hex lst) as (le&Hle&Hl1&Hl2); [eauto|].
  destruct (Hex n) as (ne&Hne&Hn1&_); [eauto|].
  unfold list_splice. apply wp_bind. eapply wp_assert_not_head; [done|done|congruence|].
  rewrite (proj2 (Z.eqb_neq first n)) by done.
  unfold list_prev. apply wp_bind, wp_bind.
  eapply wp_assert_not_head; [done|done|congruence|].
  eapply wp_get_prev'; [exact Hn|].
  apply wp_bind. eapply wp_assert_interior; [done|done|congruence|congruence|].
  apply wp_bind. eapply wp_assert_interior; [done|done|congruence|congruence|].
  apply wp_bind. eapply wp_get_prev'; [exact Hf|].
  apply wp_bind. eapply wp_get_next'; [exact Hl|].
  apply wp_bind, wp_set_next; [done|].
  apply wp_bind. eapply wp_get_next'.
  { rewrite hnext_set_next, decide_False by eauto. exact Hl. }
  apply wp_bind. eapply wp_get_prev'; [rewrite hprev_set_next; exact Hf|].
  apply wp_bind, wp_set_prev; [apply is_Some_upd; eauto|].
  apply wp_bind. eapply wp_get_prev'.
  { rewrite hprev_set_prev, decide_False by (try apply is_Some_upd; eauto).
    rewrite hprev_set_next. exact Hb. }
  apply wp_bind, wp_set_prev; [do 2 apply is_Some_upd; eauto|].
  apply wp_bind, wp_set_next; [do 3 apply is_Some_upd; eauto|].
  apply wp_bind.
  destruct (decide (before = first)) as [->|Hbf].
  - eapply wp_get_prev'.
    { rewrite hprev_set_next, hprev_set_prev, decide_True by (try do 2 apply is_Some_upd; eauto). done. }
    apply wp_bind, wp_set_next; [do 4 apply is_Some_upd; eauto|].
    apply wp_set_prev; [do 5 apply is_Some_upd; eauto|]. done.
  - eapply wp_get_prev'.
    { rewrite hprev_set_next, hprev_set_prev, decide_False by (try do 2 apply is_Some_upd; eauto).
      rewrite hprev_set_prev, decide_False by (try apply is_Some_upd; eauto).
      rewrite hprev_set_next. exact Hb. }
    apply wp_bind, wp_set_next; [do 4 apply is_Some_upd; eauto|].
    apply wp_set_prev; [do 5 apply is_Some_upd; eauto|]. done.
Qed.
End fields.

Section splice.
Implicit Types (h : heap) (c : list ptr) (d : ptr).

Lemma bwd_first h pv c d : c <> [] -> bwd h pv c -> hprev h (hd_or d c) = Some pv.
Proof. destruct c; [done|]. by intros _ [? _]. Qed.

Lemma fwd_last h c nx d : c <> [] -> fwd h c nx -> hnext h (last_or d c) = Some nx.
Proof.
  destruct c as [|x c _] using rev_ind; [done|]. intros _.
  rewrite fwd_app, last_or_snoc. simpl. naive_solver.
Qed.

Lemma fwd_nonnull h c nx x :
  nx <> NULL -> NULL ∉ c -> fwd h c nx -> x ∈ c ->
  is_Some (hnext h x) /\ hnext h x <> Some NULL.
Proof.
  intros Hnx. induction c as [|y c IH]; [set_solver|].
  intros Hn [Hy Hc] [->|Hx]%elem_of_cons; [|apply IH; set_solver].
  rewrite Hy. split; [eauto|]. intros [= E].
  destruct (hd_or_cases nx c) as [E'|Hin]; [congruence|]. rewrite E in Hin. set_solver.
Qed.

Lemma bwd_nonnull h pv c x :
  pv <> NULL -> NULL ∉ c -> bwd h pv c -> x ∈ c ->
  is_Some (hprev h x) /\ hprev h x <> Some NULL.
Proof.
  revert pv. induction c as [|y c IH]; intros pv Hpv; [set_solver|].
  intros Hn [Hy Hc] [->|Hx]%elem_of_cons.
  - rewrite Hy. split; [eauto|congruence].
  - apply (IH y); [|set_solver|done|done]. intros ->. set_solver.
Qed.

Lemma hd_or_not_null c : c <> [] -> NULL ∉ c -> hd_or NULL c <> NULL.
Proof. intros Hc Hn E. apply Hn. rewrite <- E. by apply hd_or_in. Qed.
Lemma last_or_not_null c : c <> [] -> NULL ∉ c -> last_or NULL c <> NULL.
Proof. intros Hc Hn E. apply Hn. rewrite <- E. by apply last_or_in. Qed.

Lemma last_or_irrel {A} (d d' : A) (c : list A) : c <> [] -> last_or d c = last_or d' c.
Proof. by destruct c. Qed.

Lemma hd_or_irrel {A} (d d' : A) (c : list A) : c <> [] -> hd_or d c = hd_or d' c.
Proof. by destruct c. Qed.

Lemma NoDup_app_disj {A} (c1 c2 : list A) : NoDup (c1 ++ c2) -> c1 ## c2.
Proof. rewrite NoDup_app. intros (_&Hx&_) x ??. naive_solver. Qed.

Lemma disj_in {A} (c1 c2 : list A) x : c1 ## c2 -> x ∈ c1 -> x ∉ c2.
Proof. intros Hd ? ?. by eapply Hd. Qed.

Lemma disj_in' {A} (c1 c2 : list A) x : c2 ## c1 -> x ∈ c1 -> x ∉ c2.
Proof. intros Hd ? ?. by eapply Hd. Qed.

Lemma disj_ne {A} (c1 c2 : list A) x y : c1 ## c2 -> x ∈ c1 -> y ∈ c2 -> x <> y.
Proof. intros Hd ? ? ->. by eapply Hd. Qed.

Lemma disj_sub {A} (c1 c2 c3 : list A) : c1 ## c2 -> c3 ⊆ c2 -> c3 ## c1.
Proof. intros Hd Hs x ? ?. eapply Hd; [done|]. by apply Hs. Qed.

Lemma disj_cons {A} (c1 c2 : list A) x : c1 ## c2 -> x ∉ c1 -> (x :: c2) ## c1.
Proof. set_solver. Qed.
End splice.

(** Moving a segment [sg] back to an earlier place of the same list. *)
Section splice_within.
Context (h : heap) (d1 d2 sg c2 : list ptr).
Hypothesis Hd : dlist h (d1 ++ d2 ++ sg ++ c2).
Hypothesis Hd1 : d1 <> [].
Hypothesis Hd2 : d2 <> [].
Hypothesis Hsg : sg <> [].
Hypothesis Hc2 : c2 <> [].

Let b := hd_or NULL d2.
Let f := hd_or NULL sg.
Let n := hd_or NULL c2.
Let q := last_or NULL d1.
Let p := last_or NULL d2.
Let t := last_or NULL sg.

Let spliced : heap :=
  upd (with_prev t) b (upd (with_next f) q (upd (with_next b) t (upd (with_prev q) f
    (upd (with_prev p) n (upd (with_next n) p h))))).

Lemma within_fwd : fwd h d1 b /\ fwd h d2 f /\ fwd h sg n /\ fwd h c2 NULL.
Proof.
  destruct Hd as (Hch&_&_). apply chain_fwd_bwd in Hch as [Hf _].
  rewrite !fwd_app, !hd_or_app in Hf. unfold b, f, n.
  rewrite (hd_or_irrel _ NULL d2), (hd_or_irrel _ NULL sg) in Hf by done. naive_solver.
Qed.

Lemma within_bwd : bwd h NULL d1 /\ bwd h q d2 /\ bwd h p sg /\ bwd h t c2.
Proof.
  destruct Hd as (Hch&_&_). apply chain_fwd_bwd in Hch as [_ Hb].
  rewrite !bwd_app in Hb. unfold q, p, t.
  rewrite (last_or_irrel _ NULL d2), (last_or_irrel _ NULL sg) in Hb by done. naive_solver.
Qed.

Lemma within_ends : b ∈ d2 /\ f ∈ sg /\ n ∈ c2 /\ q ∈ d1 /\ p ∈ d2 /\ t ∈ sg.
Proof. split_and!; (by apply hd_or_in) || by apply last_or_in. Qed.

Lemma within_apart :
  (d1 ## d2 /\ d1 ## sg /\ d1 ## c2) /\ (d2 ## sg /\ d2 ## c2) /\ sg ## c2.
Proof.
  destruct Hd as (_&Hn&_).
  pose proof (NoDup_app_disj _ _ Hn) as A1. apply NoDup_app in Hn as (_&_&Hn).
  pose proof (NoDup_app_disj _ _ Hn) as A2. apply NoDup_app in Hn as (_&_&Hn).
  pose proof (NoDup_app_disj _ _ Hn) as A3. clear -A1 A2 A3. set_solver.
Qed.

Lemma within_nodup : NoDup d1 /\ NoDup d2 /\ NoDup sg /\ NoDup c2.
Proof. destruct Hd as (_&Hn&_). rewrite !NoDup_app in Hn. naive_solver. Qed.

Ltac within_facts :=
  destruct within_fwd as (Hf1&Hf2&Hf3&Hf4), within_bwd as (Hb1&Hb2&Hb3&Hb4),
    within_ends as (Ib&If&In&Iq&Ip&It),
    within_apart as ((A12&A13&A14)&(A23&A24)&A34),
    within_nodup as (N1&N2&N3&N4).
Ltac apart :=
  first [ eapply disj_in; [|eassumption]; assumption
        | eapply disj_in'; [|eassumption]; assumption
        | eapply disj_ne; [|eassumption..]; assumption
        | apply not_eq_sym; eapply disj_ne; [|eassumption..]; assumption ].

Lemma within_fwd_after : fwd spliced (d1 ++ sg ++ d2 ++ c2) NULL.
Proof.
  within_facts. unfold spliced. rewrite !fwd_app, !hd_or_app.
  rewrite (hd_or_irrel _ NULL d2), (hd_or_irrel _ NULL sg) by done.
  fold b f n. split_and!; apply fwd_set_prev.
  - eapply (fwd_retarget _ NULL); [done..|]. apply fwd_set_next_frame; [apart|].
    do 2 apply fwd_set_prev. apply fwd_set_next_frame; [apart|exact Hf1].
  - apply fwd_set_next_frame; [apart|]. eapply (fwd_retarget _ NULL); [done..|].
    do 2 apply fwd_set_prev. apply fwd_set_next_frame; [apart|exact Hf3].
  - do 2 (apply fwd_set_next_frame; [apart|]). do 2 apply fwd_set_prev.
    by eapply (fwd_retarget _ NULL).
  - do 2 (apply fwd_set_next_frame; [apart|]). do 2 apply fwd_set_prev.
    apply fwd_set_next_frame; [apart|done].
Qed.

Lemma within_bwd_after : bwd spliced NULL (d1 ++ sg ++ d2 ++ c2).
Proof.
  within_facts. unfold spliced. rewrite !bwd_app.
  rewrite (last_or_irrel _ NULL d2), (last_or_irrel _ NULL sg) by done.
  fold q p t. split_and!.
  - apply bwd_set_prev_frame; [apart|]. do 2 apply bwd_set_next.
    do 2 (apply bwd_set_prev_frame; [apart|]). by apply bwd_set_next.
  - apply bwd_set_prev_frame; [apart|]. do 2 apply bwd_set_next.
    eapply (bwd_retarget _ _ NULL); [done..|].
    apply bwd_set_prev_frame; [apart|]. apply bwd_set_next. exact Hb3.
  - eapply (bwd_retarget _ _ NULL); [done..|]. do 2 apply bwd_set_next.
    do 2 (apply bwd_set_prev_frame; [apart|]). apply bwd_set_next. exact Hb2.
  - apply bwd_set_prev_frame; [apart|]. do 2 apply bwd_set_next.
    apply bwd_set_prev_frame; [apart|].
    eapply (bwd_retarget _ _ NULL); [done..|]. apply bwd_set_next. exact Hb4.
Qed.

Lemma within_null : NULL ∉ d1 /\ NULL ∉ d2 /\ NULL ∉ sg /\ NULL ∉ c2.
Proof. destruct Hd as (_&_&Hz). clear -Hz. set_solver. Qed.

Lemma wp_list_splice_within :
  wp (list_splice b f n)
    (fun _ h' => dlist h' (d1 ++ sg ++ d2 ++ c2) /\
                 only_touches (d1 ++ sg ++ d2 ++ c2) h h') h.
Proof.
  within_facts. destruct within_null as (Z1&Z2&Z3&Z4).
  assert (p <> NULL) as Hp0 by by apply last_or_not_null.
  assert (n <> NULL) as Hn0 by by apply hd_or_not_null.
  eapply wp_mono.
  { apply (wp_list_splice_raw h b f t n p q); try done.
    all: try (by apply hd_or_not_null); try (by apply last_or_not_null); try apart.
    all: try (by apply bwd_first); try (by apply fwd_last).
    1,2: by apply (fwd_nonnull h sg n f).
    1,2: by apply (bwd_nonnull h p sg t).
    - eapply hnext_mapped, (fwd_last _ _ _ _ Hd2 Hf2).
    - eapply hnext_mapped, (fwd_last _ _ _ _ Hd1 Hf1). }
  intros [] h' ->. split; [split_and!|].
  - apply chain_fwd_bwd. split; [exact within_fwd_after|exact within_bwd_after].
  - destruct Hd as (_&Hn&_). eapply NoDup_Permutation_proper; [|exact Hn].
    apply Permutation_app_head. rewrite !app_assoc.
    apply Permutation_app_tail, Permutation_app_comm.
  - clear -Z1 Z2 Z3 Z4. set_solver.
  - repeat (apply only_touches_upd; [clear -Ib If In Iq Ip It; set_solver|]).
    apply only_touches_refl.
Qed.
End splice_within.

(** ** Reading a list *)

Section reads.
Implicit Types (h : heap) (l e : ptr) (es c : list ptr).

Lemma wp_eq {A} (m : M heap A) v h (Q : A -> heap -> Prop) : m h = Ok (v, h) -> Q v h -> wp m Q h.
Proof. unfold wp. by intros ->. Qed.

Lemma list_at_ends h l es : list_at h l es -> l <> NULL /\ tail_of l <> NULL /\ l <> tail_of l.
Proof.
  intros (_&_&Hz). unfold nodes, head_of in Hz. split_and!; [| |unfold tail_of; lia];
    intros E; apply Hz; rewrite <- E; set_solver.
Qed.

Lemma assert_nonnull h l : l <> NULL -> assert (negb (l =? NULL)) h = Ok (tt, h).
Proof. intros Hl%Z.eqb_neq. by rewrite Hl. Qed.

Lemma list_begin_eq h l es : list_at h l es -> list_begin l h = Ok (hd_or (tail_of l) es, h).
Proof.
  intros Hl. pose proof (list_at_ends _ _ _ Hl) as (H0&_&_).
  unfold list_begin. rewrite (bind_ok _ _ _ _ _ (assert_nonnull _ _ H0)).
  pose proof (dlist_lookup h [] _ _ Hl) as Hh. unfold get_next, bind, load. rewrite Hh.
  cbn. by rewrite hd_or_app.
Qed.

Lemma list_end_eq h l es : list_at h l es -> list_end l h = Ok (tail_of l, h).
Proof.
  intros Hl. pose proof (list_at_ends _ _ _ Hl) as (H0&_&_).
  unfold list_end. by rewrite (bind_ok _ _ _ _ _ (assert_nonnull _ _ H0)).
Qed.

Lemma wp_pure_assert h (m : M heap unit) : wp m (fun _ h' => h' = h) h -> m h = Ok (tt, h).
Proof. intros (a&h'&->&->)%wp_ok. by destruct a. Qed.

Lemma dlist_next h c1 x c2 :
  dlist h (c1 ++ x :: c2) -> c2 <> [] -> list_next x h = Ok (hd_or NULL c2, h).
Proof.
  intros Hd Hc2. pose proof (dlist_lookup _ _ _ _ Hd) as Hx. destruct Hd as (_&_&Hz).
  unfold list_next. erewrite bind_ok; [by unfold get_next, bind, load; rewrite Hx|].
  apply wp_pure_assert. eapply wp_assert_not_tail; [|exact Hx| |done].
  - intros ->. set_solver.
  - simpl. apply hd_or_not_null; [done|set_solver].
Qed.

Lemma dlist_prev h c1 x c2 :
  dlist h (c1 ++ x :: c2) -> c1 <> [] -> list_prev x h = Ok (last_or NULL c1, h).
Proof.
  intros Hd Hc1. pose proof (dlist_lookup _ _ _ _ Hd) as Hx. destruct Hd as (_&_&Hz).
  unfold list_prev. erewrite bind_ok; [by unfold get_prev, bind, load; rewrite Hx|].
  apply wp_pure_assert. eapply wp_assert_not_head; [|exact Hx| |done].
  - intros ->. set_solver.
  - simpl. apply last_or_not_null; [done|set_solver].
Qed.

Lemma nodes_app l es1 es2 : nodes l (es1 ++ es2) = (head_of l :: es1) ++ es2 ++ [tail_of l].
Proof. unfold nodes. by rewrite <- app_assoc. Qed.

Lemma list_next_eq h l es1 x es2 :
  list_at h l (es1 ++ x :: es2) -> list_next x h = Ok (hd_or (tail_of l) es2, h).
Proof.
  unfold list_at. rewrite nodes_app. simpl. intros Hd.
  rewrite (dlist_next h (head_of l :: es1) x (es2 ++ [tail_of l])); [|done|by destruct es2].
  by rewrite hd_or_app.
Qed.

Lemma list_prev_eq h l es1 x es2 :
  list_at h l (es1 ++ x :: es2) -> list_prev x h = Ok (last_or (head_of l) es1, h).
Proof.
  unfold list_at. rewrite nodes_app. simpl. intros Hd.
  by rewrite (dlist_prev h (head_of l :: es1) x (es2 ++ [tail_of l])).
Qed.

Lemma list_empty_eq h l es : list_at h l es -> list_empty l h = Ok (bool_decide (es = []), h).
Proof.
  intros Hl. unfold list_empty.
  rewrite (bind_ok _ _ _ _ _ (list_begin_eq _ _ _ Hl)).
  rewrite (bind_ok _ _ _ _ _ (list_end_eq _ _ _ Hl)). unfold ret. do 2 f_equal.
  destruct es as [|x es]; [by rewrite Z.eqb_refl|].
  apply Z.eqb_neq. simpl. destruct Hl as (_&Hn&_). unfold nodes in Hn.
  rewrite !NoDup_cons, NoDup_app in Hn. set_solver.
Qed.

Lemma list_at_first h l e es :
  list_at h l (e :: es) -> list_front l h = Ok (e, h).
Proof.
  intros Hl. unfold list_front. erewrite bind_ok.
  2:{ unfold assertM. erewrite bind_ok.
      2:{ rewrite (bind_ok _ _ _ _ _ (list_empty_eq _ _ _ Hl)). reflexivity. }
      reflexivity. }
  pose proof (dlist_lookup h [] _ _ Hl) as Hh. unfold get_next, bind, load. by rewrite Hh.
Qed.

Lemma list_at_last h l e es :
  list_at h l (es ++ [e]) -> list_back l h = Ok (e, h).
Proof.
  intros Hl. unfold list_back. erewrite bind_ok.
  2:{ unfold assertM. erewrite bind_ok.
      2:{ rewrite (bind_ok _ _ _ _ _ (list_empty_eq _ _ _ Hl)). reflexivity. }
      rewrite bool_decide_false; [reflexivity|by destruct es]. }
  pose proof (dlist_lookup h (head_of l :: es ++ [e]) (tail_of l) [] Hl) as Hh.
  unfold get_prev, bind, load. rewrite Hh. simpl. by rewrite last_or_snoc.
Qed.

(** The panics of the accessors on an empty list. *)
Lemma list_front_empty h l : list_at h l [] -> list_front l h = Err EPanic.
Proof.
  intros Hl. unfold list_front. apply bind_err. unfold assertM.
  erewrite bind_ok; [|rewrite (bind_ok _ _ _ _ _ (list_empty_eq _ _ _ Hl)); reflexivity].
  reflexivity.
Qed.

Lemma list_back_empty h l : list_at h l [] -> list_back l h = Err EPanic.
Proof.
  intros Hl. unfold list_back. apply bind_err. unfold assertM.
  erewrite bind_ok; [|rewrite (bind_ok _ _ _ _ _ (list_empty_eq _ _ _ Hl)); reflexivity].
  reflexivity.
Qed.

(** The element reached after [es1] is the tail only when nothing is left. *)
Lemma at_end_spec h l es1 es2 :
  list_at h l (es1 ++ es2) -> (hd_or (tail_of l) es2 =? tail_of l) = bool_decide (es2 = []).
Proof.
  intros (_&Hn&_). destruct es2 as [|x es2]; [apply Z.eqb_refl|].
  rewrite bool_decide_false by done. apply Z.eqb_neq. simpl. intros ->.
  unfold nodes in Hn. rewrite NoDup_cons, NoDup_app in Hn. set_solver.
Qed.

Lemma list_at_fuel h l es1 es2 : list_at h l (es1 ++ es2) -> (length es2 < fuel_of h)%nat.
Proof.
  intros Hl%dlist_length. unfold nodes, fuel_of in *.
  rewrite !length_cons, !length_app in Hl. lia.
Qed.

Lemma size_loop_eq fuel h l es1 es2 cnt :
  list_at h l (es1 ++ es2) -> (length es2 < fuel)%nat -> in_u 32 cnt ->
  size_loop fuel l (hd_or (tail_of l) es2) cnt h = Ok (u32 (cnt + Z.of_nat (length es2)), h).
Proof.
  revert es1 es2 cnt. induction fuel as [|fuel IH]; intros es1 es2 cnt Hl Hf Hc; [lia|].
  cbn [size_loop]. rewrite (bind_ok _ _ _ _ _ (list_end_eq _ _ _ Hl)).
  rewrite (at_end_spec _ _ _ _ Hl). destruct es2 as [|x es2].
  - unfold ret. simpl. by rewrite Z.add_0_r, wrapu_small.
  - rewrite bool_decide_false by done. simpl hd_or.
    rewrite (bind_ok _ _ _ _ _ (list_next_eq _ _ _ _ _ Hl)).
    rewrite (cons_middle x), app_assoc in Hl.
    rewrite IH with (es1 := es1 ++ [x]); [|done|simpl in *; lia|by apply wrapu_in].
    do 2 f_equal. unfold wrapu. rewrite Zplus_mod_idemp_l. simpl length. f_equal. lia.
Qed.

Lemma list_size_eq h l es : list_at h l es -> list_size l h = Ok (u32 (Z.of_nat (length es)), h).
Proof.
  intros Hl. unfold list_size. rewrite (bind_ok _ _ _ _ _ (list_begin_eq _ _ _ Hl)).
  change (size_loop (fuel_of h) l (hd_or (tail_of l) es) 0 h = Ok (u32 (Z.of_nat (length es)), h)).
  rewrite (size_loop_eq _ _ _ []); [done|done| |done].
  by apply (list_at_fuel _ _ []) in Hl.
Qed.
End reads.

(** ** Reversal *)

Section reverse.
Implicit Types (h : heap) (l e x v pv nx : ptr) (es c : list ptr).

Definition flip_elem (e : list_elem) : list_elem := Elem (next e) (prev e).

Definition fread h (f : field) : option ptr :=
  match f with FPrev p => hprev h p | FNext p => hnext h p end.
Definition fupd (f : field) v h : heap :=
  match f with FPrev p => upd (with_prev v) p h | FNext p => upd (with_next v) p h end.

Lemma wp_swap h a b va vb Q :
  fread h a = Some va -> fread h b = Some vb ->
  Q tt (fupd b va (fupd a vb h)) -> wp (swap a b) Q h.
Proof.
  intros Ha Hb HQ. unfold swap. apply wp_bind.
  assert (forall f v R, fread h f = Some v -> R v h -> wp (read f) R h) as Hr.
  { intros [q|q] v R Hf HR; simpl in *; [by eapply wp_get_prev'|by eapply wp_get_next']. }
  assert (forall f f' u v w R, fread h f = Some u -> R tt (fupd f v (fupd f' w h)) ->
            wp (write f v) R (fupd f' w h)) as Hw'.
  { intros [q|q] [r|r] u v w R Hf HR; simpl in *.
    1,2: apply wp_set_prev; [by eapply is_Some_upd, hprev_mapped|done].
    all: apply wp_set_next; [by eapply is_Some_upd, hnext_mapped|done]. }
  assert (forall f u v R, fread h f = Some u -> R tt (fupd f v h) -> wp (write f v) R h) as Hw.
  { intros [q|q] u v R Hf HR; simpl in *.
    1: apply wp_set_prev; [by eapply hprev_mapped|done].
    apply wp_set_next; [by eapply hnext_mapped|done]. }
  eapply Hr; [exact Ha|]. apply wp_bind. eapply Hr; [exact Hb|].
  apply wp_bind. eapply Hw; [exact Ha|]. by eapply Hw'.
Qed.

Lemma chain_flip h h' pv c nx :
  (forall x, x ∈ c -> h' !! x = flip_elem <$> h !! x) ->
  chain h pv c nx -> chain h' nx (reverse c) pv.
Proof.
  revert pv. induction c as [|x c IH]; intros pv Hx; simpl; [done|]. intros [Hl Hc].
  rewrite reverse_cons, chain_app. simpl. split; [apply IH; set_solver|].
  rewrite last_or_reverse. split; [|done].
  rewrite Hx by set_solver. by rewrite Hl.
Qed.

(** The loop flips the links of every element it visits and no other. *)
Lemma wp_reverse_loop fuel h l es pv :
  l <> NULL -> chain h pv es (tail_of l) -> NoDup es -> tail_of l ∉ es -> (length es < fuel)%nat ->
  wp (reverse_loop fuel l (hd_or (tail_of l) es))
    (fun _ h' => dom h' = dom h /\
       forall x, h' !! x = if decide (x ∈ es) then flip_elem <$> h !! x else h !! x) h.
Proof.
  intros Hl0. revert h es pv. induction fuel as [|fuel IH]; intros h es pv Hc Hnd Ht Hf; [lia|].
  cbn [reverse_loop]. apply wp_bind.
  eapply wp_eq; [unfold list_end; by rewrite (bind_ok _ _ _ _ _ (assert_nonnull _ _ Hl0))|].
  destruct es as [|x es]; simpl hd_or.
  { rewrite Z.eqb_refl. split; [done|]. intros y. case_decide; [set_solver|done]. }
  rewrite (proj2 (Z.eqb_neq x (tail_of l))) by (intros ->; set_solver).
  destruct Hc as [Hx Hc]. apply NoDup_cons in Hnd as [Hxe Hnd].
  apply wp_bind. eapply wp_swap; simpl.
  1: by unfold hprev; rewrite Hx.
  1: by unfold hnext; rewrite Hx.
  set (h1 := upd (with_next pv) x (upd (with_prev (hd_or (tail_of l) es)) x h)).
  assert (h1 !! x = Some (Elem (hd_or (tail_of l) es) pv)) as Hx1.
  { unfold h1. by rewrite !lookup_upd, Hx. }
  assert (forall y, y <> x -> h1 !! y = h !! y) as Hy1.
  { intros y Hy. unfold h1. by rewrite !lookup_upd_ne. }
  apply wp_bind. eapply wp_get_prev; [exact Hx1|]. simpl.
  eapply wp_mono.
  { apply (IH h1 es x); [|done|set_solver|simpl in *; lia].
    eapply chain_ext; [|exact Hc]. intros y Hy. apply Hy1. set_solver. }
  intros _ h' [Hdom Hlk]. split; [by rewrite Hdom; unfold h1; rewrite !dom_upd|].
  intros y. rewrite Hlk. destruct (decide (y = x)) as [->|Hyx].
  - rewrite decide_False, decide_True, Hx1, Hx by set_solver. done.
  - rewrite Hy1 by done. destruct (decide (y ∈ es)).
    + rewrite decide_True by set_solver. done.
    + rewrite decide_False by set_solver. done.
Qed.

Lemma list_at_parts h l es :
  list_at h l es <->
  h !! head_of l = Some (Elem NULL (hd_or (tail_of l) es)) /\
  chain h (head_of l) es (tail_of l) /\
  h !! tail_of l = Some (Elem (last_or (head_of l) es) NULL) /\
  NoDup (nodes l es) /\ NULL ∉ nodes l es.
Proof.
  unfold list_at, dlist. unfold nodes at 1. cbn [chain].
  rewrite chain_app, hd_or_app. simpl. naive_solver.
Qed.

Lemma nodes_nodup l es :
  NoDup (nodes l es) <->
  NoDup es /\ head_of l ∉ es /\ tail_of l ∉ es /\ head_of l <> tail_of l.
Proof.
  unfold nodes. rewrite NoDup_cons, NoDup_app. split.
  - intros (Hh&Hn&Hx&_). split_and!; [done|set_solver..].
  - intros (Hn&Hh&Ht&Hne). split_and!; [set_solver|done|set_solver|apply NoDup_singleton].
Qed.

(** The four assignments after the loop reconnect the sentinels. *)
Lemma wp_reverse_relink h l c :
  c <> [] -> h !! head_of l = Some (Elem NULL (last_or NULL c)) ->
  h !! tail_of l = Some (Elem (hd_or NULL c) NULL) ->
  chain h (tail_of l) c (head_of l) -> NoDup (nodes l c) -> NULL ∉ nodes l c ->
  wp (do! swap (FNext (head_of l)) (FPrev (tail_of l)) in
      let! hn := get_next (head_of l) in
      let! tp := get_prev (tail_of l) in
      swap (FPrev hn) (FNext tp))
    (fun _ h' => list_at h' l c /\ only_touches (nodes l c) h h') h.
Proof.
  intros Hne Hh Ht Hc Hnd Hz. pose proof (proj1 (nodes_nodup _ _) Hnd) as (Hn&Hhc&Htc&Hht).
  apply wp_bind. eapply wp_swap; simpl.
  1: by unfold hnext; rewrite Hh.
  1: by unfold hprev; rewrite Ht.
  set (f := hd_or NULL c) in *. set (t := last_or NULL c) in *. simpl.
  assert (f ∈ c) as If by by apply hd_or_in. assert (t ∈ c) as It by by apply last_or_in.
  assert (f <> head_of l /\ t <> head_of l /\ f <> tail_of l /\ t <> tail_of l)
    as (Nfh&Nth&Nft&Ntt) by (split_and!; congruence).
  set (h2 := upd (with_prev t) (tail_of l) (upd (with_next f) (head_of l) h)).
  assert (h2 !! head_of l = Some (Elem NULL f)) as Hh2.
  { unfold h2. by rewrite lookup_upd_ne, lookup_upd, Hh. }
  assert (h2 !! tail_of l = Some (Elem t NULL)) as Ht2.
  { unfold h2. by rewrite lookup_upd, lookup_upd_ne, Ht. }
  assert (chain h2 (tail_of l) c (head_of l)) as [Hf2 Hb2]%chain_fwd_bwd
    by (unfold h2; by do 2 (apply chain_frame; [done|])).
  apply wp_bind. eapply wp_get_next; [exact Hh2|].
  apply wp_bind. eapply wp_get_prev; [exact Ht2|]. simpl.
  eapply wp_swap; simpl.
  1: exact (bwd_first h2 _ _ NULL Hne Hb2).
  1: exact (fwd_last h2 _ _ NULL Hne Hf2).
  split.
  - apply list_at_parts. rewrite (hd_or_irrel _ NULL), (last_or_irrel _ NULL) by done.
    split_and!; [| | |done|done].
    + by rewrite !lookup_upd_ne.
    + apply chain_fwd_bwd. split.
      * eapply (fwd_retarget _ NULL); [done..|]. by apply fwd_set_prev.
      * apply bwd_set_next. by eapply (bwd_retarget _ _ NULL).
    + by rewrite !lookup_upd_ne.
  - unfold h2, nodes. clear -If It.
    repeat (apply only_touches_upd; [set_solver|]). apply only_touches_refl.
Qed.

Lemma wp_list_reverse h l es :
  list_at h l es ->
  wp (list_reverse l)
    (fun _ h' => list_at h' l (reverse es) /\ only_touches (nodes l es) h h') h.
Proof.
  intros Hl. unfold list_reverse. apply wp_bind. eapply wp_eq; [by apply list_empty_eq|].
  destruct (decide (es = [])) as [->|Hne].
  { split; [done|apply only_touches_refl]. }
  rewrite bool_decide_false by done. pose proof (list_at_ends _ _ _ Hl) as (H0&_&_).
  apply wp_bind. eapply wp_eq; [by apply list_begin_eq|].
  apply wp_bind, wp_gets. apply wp_bind.
  pose proof (list_at_fuel h l [] es Hl) as Hfu.
  apply list_at_parts in Hl as (Hh&Hc&Ht&Hnd&Hz).
  pose proof (proj1 (nodes_nodup _ _) Hnd) as (Hn&Hhe&Hte&Hht).
  eapply wp_mono; [by eapply wp_reverse_loop|]. intros _ h1 [Hdom Hlk].
  assert (nodes l (reverse es) ≡ₚ nodes l es) as Hperm.
  { unfold nodes. by rewrite reverse_Permutation. }
  eapply wp_mono.
  - apply (wp_reverse_relink h1 l (reverse es)).
    + intros E%(f_equal reverse). by rewrite reverse_involutive in E.
    + rewrite Hlk, decide_False, Hh, last_or_reverse by done. do 2 f_equal. by apply hd_or_irrel.
    + rewrite Hlk, decide_False, Ht, hd_or_reverse by done. do 2 f_equal. by apply last_or_irrel.
    + eapply chain_flip; [|exact Hc]. intros x Hx. by rewrite Hlk, decide_True.
    + by rewrite Hperm.
    + by rewrite Hperm.
  - intros _ h' [Hl' [Hd' Ho']]. split; [done|]. split; [by rewrite Hd'|].
    intros x Hx. rewrite Ho' by (by rewrite Hperm). rewrite Hlk.
    rewrite decide_False; [done|]. unfold nodes in Hx. set_solver.
Qed.
End reverse.

End KList.
