(* ===== verification/KListSpec.v ===== *)
(** * The kernel list as an abstract sequence

    [spec] gives each operation of list.c its meaning on the sequence of
    elements a list holds; [list_ops_refine] shows that any run of operations the
    specification allows is carried out by the pointer code, with the same
    results, without a failed assertion, and touching only the list and the
    elements that may be put in it.  The other components model a [struct list]
    by the Rocq list of its elements on the strength of this theorem. *)

From S2P Require Import Prelude KList.
Import KList.
Local Open Scope Z_scope.

Module KListSpec.

(** ** Each operation on its own *)

Section ops.
Implicit Types (h : heap) (l e b : ptr) (es : list ptr).

Lemma wp_list_init h l :
  l <> NULL -> tail_of l <> NULL -> is_Some (h !! head_of l) -> is_Some (h !! tail_of l) ->
  wp (list_init l) (fun _ h' => list_at h' l [] /\ only_touches (nodes l []) h h') h.
Proof.
  intros Hl Ht [eh Hh] [et Het].
  assert (head_of l <> tail_of l) as Hne by (unfold head_of, tail_of; lia).
  unfold list_init. apply wp_bind. eapply wp_eq; [by apply assert_nonnull|].
  apply wp_bind, wp_set_prev; [eauto|].
  apply wp_bind, wp_set_next; [apply is_Some_upd; eauto|].
  apply wp_bind, wp_set_prev; [do 2 apply is_Some_upd; eauto|].
  apply wp_set_next; [do 3 apply is_Some_upd; eauto|]. split.
  - apply list_at_parts. simpl. split_and!; [| done | | |].
    + by rewrite !lookup_upd_ne, !lookup_upd, Hh by done.
    + by rewrite !lookup_upd, !lookup_upd_ne, Het by done.
    + apply nodes_nodup. split_and!; [apply NoDup_nil_2|set_solver..|done].
    + unfold nodes, head_of. set_solver.
  - unfold nodes. repeat (apply only_touches_upd; [set_solver|]). apply only_touches_refl.
Qed.

Lemma wp_list_push_back h l es e :
  list_at h l es -> e ∉ nodes l es -> e <> NULL -> is_Some (h !! e) ->
  wp (list_push_back l e)
    (fun _ h' => list_at h' l (es ++ [e]) /\ only_touches (e :: nodes l es) h h') h.
Proof.
  intros Hl He H0 Hm. unfold list_push_back. apply wp_bind.
  eapply wp_eq; [by eapply list_end_eq|].
  eapply wp_mono; [apply (wp_list_insert h (head_of l :: es) [tail_of l] e); done|].
  intros _ h' [Hl' Ho]. unfold list_at, nodes. rewrite <- app_assoc. split; [done|].
  eapply only_touches_mono; [|exact Ho]. set_solver.
Qed.

Lemma wp_list_push_front h l es e :
  list_at h l es -> e ∉ nodes l es -> e <> NULL -> is_Some (h !! e) ->
  wp (list_push_front l e)
    (fun _ h' => list_at h' l (e :: es) /\ only_touches (e :: nodes l es) h h') h.
Proof.
  intros Hl He H0 Hm. unfold list_push_front. apply wp_bind.
  eapply wp_eq; [by apply list_begin_eq|].
  replace (hd_or (tail_of l) es) with (hd_or NULL (es ++ [tail_of l])) by apply hd_or_app.
  eapply wp_mono; [apply (wp_list_insert h [head_of l] (es ++ [tail_of l]) e); try done; by destruct es|].
  intros _ h' [Hl' Ho]. split; [done|].
  eapply only_touches_mono; [|exact Ho]. unfold nodes. set_solver.
Qed.

Lemma wp_list_insert_before h l es1 b es2 e :
  list_at h l (es1 ++ b :: es2) -> e ∉ nodes l (es1 ++ b :: es2) -> e <> NULL -> is_Some (h !! e) ->
  wp (list_insert b e)
    (fun _ h' => list_at h' l (es1 ++ e :: b :: es2) /\
                 only_touches (e :: nodes l (es1 ++ b :: es2)) h h') h.
Proof.
  intros Hl He H0 Hm. unfold list_at in Hl. rewrite nodes_app in Hl, He. simpl app in He.
  eapply wp_mono; [apply (wp_list_insert h (head_of l :: es1) (b :: es2 ++ [tail_of l]) e); done|].
  intros _ h' [Hl' Ho]. unfold list_at. rewrite nodes_app. split; [done|].
  eapply only_touches_mono; [|exact Ho]. rewrite nodes_app. set_solver.
Qed.

Lemma wp_list_remove_at h l es1 e es2 :
  list_at h l (es1 ++ e :: es2) ->
  wp (list_remove e)
    (fun r h' => r = hd_or (tail_of l) es2 /\ list_at h' l (es1 ++ es2) /\ h' !! e = h !! e /\
                 only_touches (nodes l (es1 ++ es2)) h h') h.
Proof.
  intros Hl. unfold list_at in Hl. rewrite nodes_app in Hl.
  eapply wp_mono; [apply (wp_list_remove h (head_of l :: es1) e (es2 ++ [tail_of l])); try done; by destruct es2|].
  intros r h' (->&Hl'&He&Ho). unfold list_at. rewrite nodes_app, hd_or_app. done.
Qed.

Lemma wp_list_pop_front h l e es :
  list_at h l (e :: es) ->
  wp (list_pop_front l)
    (fun r h' => r = e /\ list_at h' l es /\ h' !! e = h !! e /\ only_touches (nodes l es) h h') h.
Proof.
  intros Hl. unfold list_pop_front. apply wp_bind. eapply wp_eq; [by eapply list_at_first|].
  apply wp_bind. eapply wp_mono; [by apply (wp_list_remove_at h l [])|].
  intros r h' (_&?&?&?). done.
Qed.

Lemma wp_list_pop_back h l e es :
  list_at h l (es ++ [e]) ->
  wp (list_pop_back l)
    (fun r h' => r = e /\ list_at h' l es /\ h' !! e = h !! e /\ only_touches (nodes l es) h h') h.
Proof.
  intros Hl. unfold list_pop_back. apply wp_bind. eapply wp_eq; [by eapply list_at_last|].
  apply wp_bind. eapply wp_mono; [by apply (wp_list_remove_at h l es e [])|].
  intros r h' (_&?&?&?). rewrite app_nil_r in *. done.
Qed.
End ops.

(** ** The specification *)

Inductive lop :=
  | LPushFront (e : ptr) | LPushBack (e : ptr) | LInsert (before e : ptr)
  | LRemove (e : ptr) | LPopFront | LPopBack
  | LFront | LBack | LSize | LEmpty | LReverse.

Inductive lout := OUnit | OElem (p : ptr) | OSize (n : Z) | OBool (b : bool).

(** The code of each operation. *)
Definition impl (l : ptr) (op : lop) : M heap lout :=
  match op with
  | LPushFront e => do! list_push_front l e in ret OUnit
  | LPushBack e => do! list_push_back l e in ret OUnit
  | LInsert b e => do! list_insert b e in ret OUnit
  | LRemove e => let! r := list_remove e in ret (OElem r)
  | LPopFront => let! r := list_pop_front l in ret (OElem r)
  | LPopBack => let! r := list_pop_back l in ret (OElem r)
  | LFront => let! r := list_front l in ret (OElem r)
  | LBack => let! r := list_back l in ret (OElem r)
  | LSize => let! n := list_size l in ret (OSize n)
  | LEmpty => let! b := list_empty l in ret (OBool b)
  | LReverse => do! list_reverse l in ret OUnit
  end.

Fixpoint impl_run (l : ptr) (ops : list lop) : M heap (list lout) :=
  match ops with
  | [] => ret []
  | op :: ops' => let! o := impl l op in let! os := impl_run l ops' in ret (o :: os)
  end.

(** Split a sequence around the first occurrence of [x]. *)
Fixpoint break (x : ptr) (es : list ptr) : option (list ptr * list ptr) :=
  match es with
  | [] => None
  | y :: es' => if decide (x = y) then Some ([], es')
                else match break x es' with Some (a, b) => Some (y :: a, b) | None => None end
  end.

(** What each operation does to the sequence of elements, [None] where list.h
    forbids the call: inserting an element that is already in the list or is
    not one of the elements [pool] of the client, removing or inserting before
    an element that is not in the list, taking from an empty list. *)
Definition spec (pool : list ptr) (l : ptr) (op : lop) (es : list ptr) : option (lout * list ptr) :=
  let may_add e := bool_decide (e ∈ pool) && negb (bool_decide (e ∈ es)) in
  match op with
  | LPushFront e => if may_add e then Some (OUnit, e :: es) else None
  | LPushBack e => if may_add e then Some (OUnit, es ++ [e]) else None
  | LInsert b e =>
      if may_add e then
        match break b es with Some (xs, ys) => Some (OUnit, xs ++ e :: b :: ys) | None => None end
      else None
  | LRemove e =>
      match break e es with
      | Some (xs, ys) => Some (OElem (hd_or (tail_of l) ys), xs ++ ys) | None => None end
  | LPopFront => match es with e :: es' => Some (OElem e, es') | [] => None end
  | LPopBack => match reverse es with e :: r => Some (OElem e, reverse r) | [] => None end
  | LFront => match es with e :: _ => Some (OElem e, es) | [] => None end
  | LBack => match reverse es with e :: _ => Some (OElem e, es) | [] => None end
  | LSize => Some (OSize (u32 (Z.of_nat (length es))), es)
  | LEmpty => Some (OBool (bool_decide (es = [])), es)
  | LReverse => Some (OUnit, reverse es)
  end.

Fixpoint spec_run (pool : list ptr) (l : ptr) (ops : list lop) (es : list ptr)
    : option (list lout * list ptr) :=
  match ops with
  | [] => Some ([], es)
  | op :: ops' =>
      match spec pool l op es with
      | Some (o, es1) =>
          match spec_run pool l ops' es1 with
          | Some (os, es2) => Some (o :: os, es2) | None => None end
      | None => None
      end
  end.

(** The client's elements are real memory, disjoint from the list itself. *)
Definition pool_ok (pool : list ptr) (h : heap) (l : ptr) : Prop :=
  forall e, e ∈ pool -> e <> NULL /\ is_Some (h !! e) /\ e <> head_of l /\ e <> tail_of l.

Section refine.
Implicit Types (h : heap) (l e b : ptr) (es pool : list ptr).

Lemma break_spec x es xs ys : break x es = Some (xs, ys) -> es = xs ++ x :: ys.
Proof.
  revert xs ys. induction es as [|y es IH]; intros xs ys; simpl; [done|].
  case_decide as Hxy; [intros [= <- <-]; by subst|].
  destruct (break x es) as [[a c]|]; [|done]. intros [= <- <-]. simpl. f_equal. by apply IH.
Qed.

Lemma pool_ok_step pool h h' l c :
  only_touches c h h' -> pool_ok pool h l -> pool_ok pool h' l.
Proof.
  intros [Hd _] Hp e (?&?&?&?)%Hp. split_and!; try done. by rewrite <- elem_of_dom, Hd, elem_of_dom.
Qed.

Lemma may_add_spec pool h l es e :
  pool_ok pool h l ->
  bool_decide (e ∈ pool) && negb (bool_decide (e ∈ es)) = true ->
  e ∈ pool /\ e ∉ nodes l es /\ e <> NULL /\ is_Some (h !! e).
Proof.
  intros Hp [He%bool_decide_eq_true Hn%negb_true_iff%bool_decide_eq_false]%andb_true_iff.
  destruct (Hp e He) as (?&?&?&?). unfold nodes. split_and!; [done| |done|done]. set_solver.
Qed.

Definition frame_of (pool : list ptr) (l : ptr) : list ptr := head_of l :: tail_of l :: pool.

(** One operation: the code does what the specification says. *)
Lemma impl_refines pool h l op es o es' :
  list_at h l es -> pool_ok pool h l -> es ⊆ pool -> spec pool l op es = Some (o, es') ->
  wp (impl l op)
    (fun r h' => r = o /\ list_at h' l es' /\ es' ⊆ pool /\ only_touches (frame_of pool l) h h') h.
Proof.
  intros Hl Hp Hin Hs.
  assert (forall c h', only_touches c h h' -> c ⊆ frame_of pool l -> only_touches (frame_of pool l) h h')
    as Hfr by (intros; by eapply only_touches_mono).
  destruct op as [e|e|b e|e| | | | | | |]; cbn [spec impl] in *.
  - destruct (bool_decide (e ∈ pool) && _) eqn:Hadd; simplify_eq.
    apply (may_add_spec _ h l) in Hadd as (?&?&?&?); [|done].
    apply wp_bind. eapply wp_mono; [by apply wp_list_push_front|]. intros [] h' [? ?].
    split_and!; [done|done|set_solver|]. eapply Hfr; [done|]. unfold nodes, frame_of. set_solver.
  - destruct (bool_decide (e ∈ pool) && _) eqn:Hadd; simplify_eq.
    apply (may_add_spec _ h l) in Hadd as (?&?&?&?); [|done].
    apply wp_bind. eapply wp_mono; [by apply wp_list_push_back|]. intros [] h' [? ?].
    split_and!; [done|done|set_solver|]. eapply Hfr; [done|]. unfold nodes, frame_of. set_solver.
  - destruct (bool_decide (e ∈ pool) && _) eqn:Hadd; [|done].
    destruct (break b es) as [[xs ys]|] eqn:Hb; simplify_eq. apply break_spec in Hb as ->.
    apply (may_add_spec _ h l) in Hadd as (?&?&?&?); [|done].
    apply wp_bind. eapply wp_mono; [by apply wp_list_insert_before|]. intros [] h' [? ?].
    split_and!; [done|done|set_solver|]. eapply Hfr; [done|]. unfold nodes, frame_of. set_solver.
  - destruct (break e es) as [[xs ys]|] eqn:Hb; simplify_eq. apply break_spec in Hb as ->.
    apply wp_bind. eapply wp_mono; [by apply wp_list_remove_at|]. intros r h' (->&?&_&?).
    split_and!; [done|done|set_solver|]. eapply Hfr; [done|]. unfold nodes, frame_of. set_solver.
  - destruct es as [|e es]; simplify_eq.
    apply wp_bind. eapply wp_mono; [by apply wp_list_pop_front|]. intros r h' (->&?&_&?).
    split_and!; [done|done|set_solver|]. eapply Hfr; [done|]. unfold nodes, frame_of. set_solver.
  - destruct (reverse es) as [|e r] eqn:Hr; simplify_eq.
    apply (f_equal reverse) in Hr. rewrite reverse_involutive, reverse_cons in Hr. subst es.
    apply wp_bind. eapply wp_mono; [by apply wp_list_pop_back|]. intros x h' (->&?&_&?).
    split_and!; [done|done|set_solver|]. eapply Hfr; [done|]. unfold nodes, frame_of. set_solver.
  - destruct es as [|e es]; simplify_eq. apply wp_bind.
    eapply wp_eq; [by eapply list_at_first|]. split_and!; [done..|apply only_touches_refl].
  - destruct (reverse es) as [|e r] eqn:Hr; simplify_eq.
    apply (f_equal reverse) in Hr. rewrite reverse_involutive, reverse_cons in Hr. subst es'.
    apply wp_bind. eapply wp_eq; [by eapply list_at_last|]. split_and!; [done..|apply only_touches_refl].
  - simplify_eq. apply wp_bind. eapply wp_eq; [by apply list_size_eq|].
    split_and!; [done..|apply only_touches_refl].
  - simplify_eq. apply wp_bind. eapply wp_eq; [by apply list_empty_eq|].
    split_and!; [done..|apply only_touches_refl].
  - simplify_eq. apply wp_bind. eapply wp_mono; [by apply wp_list_reverse|]. intros [] h' [? ?].
    split_and!; [done|done|intros x; rewrite elem_of_reverse; apply Hin|].
    eapply Hfr; [done|]. unfold nodes, frame_of. set_solver.
Qed.
End refine.

(** C17. Any sequence of list operations that the specification allows runs on
    the pointers without a failed assertion or a wild access, returns what the
    specification returns, leaves a well-formed list holding exactly the
    specified elements in the specified order, and changes no memory but the
    list's two sentinels and the client's elements. *)
Theorem list_ops_refine pool h l ops es os es' :
  list_at h l es -> pool_ok pool h l -> es ⊆ pool -> spec_run pool l ops es = Some (os, es') ->
  wp (impl_run l ops)
    (fun r h' => r = os /\ list_at h' l es' /\ only_touches (frame_of pool l) h h') h.
Proof.
  revert h es os. induction ops as [|op ops IH]; intros h es os Hl Hp Hin Hs; simpl in *.
  - simplify_eq. split_and!; [done|done|apply only_touches_refl].
  - destruct (spec pool l op es) as [[o es1]|] eqn:Hs1; [|done].
    destruct (spec_run pool l ops es1) as [[os2 es2]|] eqn:Hs2; simplify_eq.
    apply wp_bind. eapply wp_mono; [by eapply (impl_refines pool)|].
    intros r h1 (->&Hl1&Hin1&Ho1). apply wp_bind.
    eapply wp_mono; [eapply IH; [done|by eapply pool_ok_step|done|done]|].
    intros r h2 (->&Hl2&Ho2). split_and!; [done|done|].
    by eapply only_touches_trans.
Qed.

(** A list at 100 (tail at 108) and three elements; the run exercises
    every kind of update. *)
Definition demo_heap : heap :=
  list_to_map [(100, Elem 0 108); (108, Elem 100 0); (4, Elem 7 7); (12, Elem 0 0); (20, Elem 9 5)].
Definition demo_ops : list lop :=
  [LPushBack 4; LPushFront 12; LInsert 4 20; LReverse; LSize; LRemove 20; LPopBack; LEmpty; LFront].

Lemma list_ops_refine_witness :
  wp (impl_run 100 demo_ops)
    (fun r h' => r = [OUnit; OUnit; OUnit; OUnit; OSize 3; OElem 12; OElem 12; OBool false; OElem 4] /\
                 list_at h' 100 [4] /\ only_touches (frame_of [4; 12; 20] 100) demo_heap h') demo_heap.
Proof.
  apply (list_ops_refine [4; 12; 20] demo_heap 100 demo_ops [] _ [4]).
  - split_and!; [vm_compute; done| |].
    + apply nodes_nodup. split_and!; [apply NoDup_nil_2|apply not_elem_of_nil..|done].
    + vm_compute. intros H. repeat (inversion H as [|? ? ? H']; subst; clear H; rename H' into H).
  - intros e He. repeat (apply elem_of_cons in He as [->|He]; [split_and!; [done|vm_compute; eauto|done|done]|]).
    by apply not_elem_of_nil in He.
  - intros e He. by apply not_elem_of_nil in He.
  - vm_compute. reflexivity.
Defined.

End KListSpec.
