(* ===== verification/KListSort.v ===== *)
(** * lib/kernel/list.c: the operations on ordered lists

    [list_sort] is a natural merge sort done in place by relinking: each pass
    finds two adjacent nondecreasing runs and splices the elements of the second
    into the first.  Also here: [list_insert_ordered], [list_unique], [list_max]
    and [list_min].  The client's comparison [less(a, b, aux)] is a pure function
    of the two elements. *)

From S2P Require Import Prelude KList KListSpec.
Import KList KListSpec.
Local Open Scope Z_scope.

Module KListSort.

Section code.
Variable less : ptr -> ptr -> bool.

Fixpoint is_sorted_loop (fuel : nat) (a b : ptr) : M heap bool :=
  match fuel with
  | O => fail EFuel
  | S f =>
      let! a := list_next a in
      if a =? b then ret true
      else
        let! p := list_prev a in
        if less a p then ret false else is_sorted_loop f a b
  end.

Definition is_sorted (a b : ptr) : M heap bool :=
  if a =? b then ret true
  else let! fuel := gets fuel_of in is_sorted_loop fuel a b.

Fixpoint run_loop (fuel : nat) (a b : ptr) : M heap ptr :=
  match fuel with
  | O => fail EFuel
  | S f =>
      let! a := list_next a in
      if a =? b then ret a
      else
        let! p := list_prev a in
        if less a p then ret a else run_loop f a b
  end.

Definition find_end_of_run (a b : ptr) : M heap ptr :=
  do! assert (negb (a =? NULL)) in
  do! assert (negb (b =? NULL)) in
  do! assert (negb (a =? b)) in
  let! fuel := gets fuel_of in
  run_loop fuel a b.

Fixpoint merge_loop (fuel : nat) (a0 a1b0 b1 : ptr) : M heap unit :=
  match fuel with
  | O => fail EFuel
  | S f =>
      if negb (a0 =? a1b0) && negb (a1b0 =? b1) then
        if negb (less a1b0 a0) then
          let! a0 := list_next a0 in merge_loop f a0 a1b0 b1
        else
          let! a1b0 := list_next a1b0 in
          let! first := list_prev a1b0 in
          do! list_splice a0 first a1b0 in
          merge_loop f a0 a1b0 b1
      else ret tt
  end.

Definition inplace_merge (a0 a1b0 b1 : ptr) : M heap unit :=
  do! assert (negb (a0 =? NULL)) in
  do! assert (negb (a1b0 =? NULL)) in
  do! assert (negb (b1 =? NULL)) in
  do! assertM (is_sorted a0 a1b0) in
  do! assertM (is_sorted a1b0 b1) in
  let! fuel := gets fuel_of in
  merge_loop fuel a0 a1b0 b1.

(** The [for] loop of one pass; returns [output_run_cnt]. *)
Fixpoint pass_loop (fuel : nat) (l a0 : ptr) (output_run_cnt : Z) : M heap Z :=
  match fuel with
  | O => fail EFuel
  | S f =>
      let! en := list_end l in
      if a0 =? en then ret output_run_cnt
      else
        let output_run_cnt := u32 (output_run_cnt + 1) in
        let! en := list_end l in
        let! a1b0 := find_end_of_run a0 en in
        let! en := list_end l in
        if a1b0 =? en then ret output_run_cnt
        else
          let! en := list_end l in
          let! b1 := find_end_of_run a1b0 en in
          do! inplace_merge a0 a1b0 b1 in
          pass_loop f l b1 output_run_cnt
  end.

(** The [do ... while (output_run_cnt > 1)] loop. *)
Fixpoint sort_loop (fuel : nat) (l : ptr) : M heap unit :=
  match fuel with
  | O => fail EFuel
  | S f =>
      let! a0 := list_begin l in
      let! pf := gets fuel_of in
      let! output_run_cnt := pass_loop pf l a0 0 in
      if 1 <? output_run_cnt then sort_loop f l else ret tt
  end.

Definition list_sort (l : ptr) : M heap unit :=
  do! assert (negb (l =? NULL)) in
  let! fuel := gets fuel_of in
  do! sort_loop fuel l in
  assertM (let! b := list_begin l in let! e := list_end l in is_sorted b e).

Fixpoint ordered_loop (fuel : nat) (l elem e : ptr) : M heap ptr :=
  match fuel with
  | O => fail EFuel
  | S f =>
      let! en := list_end l in
      if e =? en then ret e
      else if less elem e then ret e
      else let! e := list_next e in ordered_loop f l elem e
  end.

Definition list_insert_ordered (l elem : ptr) : M heap unit :=
  do! assert (negb (l =? NULL)) in
  do! assert (negb (elem =? NULL)) in
  let! e := list_begin l in
  let! fuel := gets fuel_of in
  let! e := ordered_loop fuel l elem e in
  list_insert e elem.

Fixpoint unique_loop (fuel : nat) (l duplicates elem : ptr) : M heap unit :=
  match fuel with
  | O => fail EFuel
  | S f =>
      let! next := list_next elem in
      let! en := list_end l in
      if next =? en then ret tt
      else if negb (less elem next) && negb (less next elem) then
        do! list_remove next in
        do! (if negb (duplicates =? NULL) then list_push_back duplicates next else ret tt) in
        unique_loop f l duplicates elem
      else unique_loop f l duplicates next
  end.

Definition list_unique (l duplicates : ptr) : M heap unit :=
  do! assert (negb (l =? NULL)) in
  let! b := list_empty l in
  if b then ret tt
  else
    let! elem := list_begin l in
    let! fuel := gets fuel_of in
    unique_loop fuel l duplicates elem.

Fixpoint max_loop (fuel : nat) (l max e : ptr) : M heap ptr :=
  match fuel with
  | O => fail EFuel
  | S f =>
      let! en := list_end l in
      if e =? en then ret max
      else
        let max := if less max e then e else max in
        let! e := list_next e in max_loop f l max e
  end.

Definition list_max (l : ptr) : M heap ptr :=
  let! max := list_begin l in
  let! en := list_end l in
  if negb (max =? en) then
    let! e := list_next max in
    let! fuel := gets fuel_of in
    max_loop fuel l max e
  else ret max.

Fixpoint min_loop (fuel : nat) (l min e : ptr) : M heap ptr :=
  match fuel with
  | O => fail EFuel
  | S f =>
      let! en := list_end l in
      if e =? en then ret min
      else
        let min := if less e min then e else min in
        let! e := list_next e in min_loop f l min e
  end.

Definition list_min (l : ptr) : M heap ptr :=
  let! min := list_begin l in
  let! en := list_end l in
  if negb (min =? en) then
    let! e := list_next min in
    let! fuel := gets fuel_of in
    min_loop fuel l min e
  else ret min.
End code.

(** ** The same computations on sequences *)

(** [list_less_func] must not say of two elements that each is less than the
    other. *)
Class Asym (less : ptr -> ptr -> bool) : Prop :=
  less_asym : forall a b, less a b = true -> less b a = false.

(** [nless x y]: [x] may stand before [y] in a nondecreasing list. *)
Definition nless (less : ptr -> ptr -> bool) (x y : ptr) : Prop := less y x = false.

#[export] Instance nless_dec less x y : Decision (nless less x y).
Proof. unfold nless. apply _. Defined.

#[export] Instance nless_total less `{!Asym less} : Total (nless less).
Proof.
  intros x y. unfold nless. destruct (less y x) eqn:E; [right|by left].
  by apply less_asym.
Qed.

Section spec.
Variable less : ptr -> ptr -> bool.
Implicit Types (es u v c seg : list ptr) (a b x y : ptr).

Fixpoint srt es : bool :=
  match es with
  | x :: ((y :: _) as r) => negb (less y x) && srt r
  | _ => true
  end.

(** The maximal nondecreasing run starting at [a], and what follows it. *)
Fixpoint run_of a seg : list ptr * list ptr :=
  match seg with
  | [] => ([a], [])
  | y :: r => if less y a then ([a], seg) else let '(u, v) := run_of y r in (a :: u, v)
  end.

(** Number of maximal runs. *)
Fixpoint descents a seg : nat :=
  match seg with [] => O | y :: r => (if less y a then 1 else 0) + descents y r end.
Definition runs es : nat := match es with [] => O | a :: r => S (descents a r) end.

(** One pass: merge adjacent runs two by two; also counts the runs written. *)
Fixpoint pass (fuel : nat) es : list ptr * nat :=
  match fuel, es with
  | S f, a :: r =>
      let '(u, v) := run_of a r in
      match v with
      | [] => (u, 1%nat)
      | b :: r' =>
          let '(w, z) := run_of b r' in
          let '(es', n) := pass f z in (list_merge (nless less) u w ++ es', S n)
      end
  | _, _ => ([], O)
  end.

Fixpoint insert_sorted x es : list ptr :=
  match es with
  | [] => [x]
  | y :: r => if less x y then x :: es else y :: insert_sorted x r
  end.

(** Elements none of which is less than another keep their order. *)
Definition stable es es' : Prop := forall f : ptr -> bool,
  (forall x y, f x = true -> f y = true -> less x y = false) -> List.filter f es' = List.filter f es.

(** The survivors of [list_unique] after [a], and the elements removed. *)
Fixpoint uniq a seg : list ptr * list ptr :=
  match seg with
  | [] => ([], [])
  | y :: r =>
      if negb (less a y) && negb (less y a) then let '(k, d) := uniq a r in (k, y :: d)
      else let '(k, d) := uniq y r in (y :: k, d)
  end.
End spec.

Section spec_facts.
Variable less : ptr -> ptr -> bool.
Implicit Types (es u v c seg : list ptr) (a b x y : ptr).

Abbreviation R := (nless less).

Lemma srt_Sorted es : srt less es = true <-> Sorted R es.
Proof.
  induction es as [|x [|y r] IH]; simpl.
  - split; [constructor|done].
  - split; [|done]. intros _. by repeat constructor.
  - rewrite andb_true_iff, negb_true_iff, IH. split.
    + intros [? ?]. constructor; [done|]. by constructor.
    + intros Hs. inversion Hs as [|? ? Hs' Hd]; subst. inversion Hd; subst. done.
Qed.

Lemma run_of_app a seg u v : run_of less a seg = (u, v) -> a :: seg = u ++ v.
Proof.
  revert a u v. induction seg as [|y r IH]; intros a u v; simpl; [by intros [= <- <-]|].
  destruct (less y a); [by intros [= <- <-]|].
  destruct (run_of less y r) as [u' v'] eqn:E. intros [= <- <-]. simpl. f_equal. by apply IH.
Qed.

Lemma run_of_head a seg u v : run_of less a seg = (u, v) -> exists u', u = a :: u'.
Proof.
  destruct seg as [|y r]; simpl; [intros [= <- <-]; eauto|].
  destruct (less y a); [intros [= <- <-]; eauto|].
  destruct (run_of less y r). intros [= <- <-]. eauto.
Qed.

Lemma run_of_sorted a seg u v : run_of less a seg = (u, v) -> Sorted R u.
Proof.
  rewrite <- srt_Sorted. revert a u v.
  induction seg as [|y r IH]; intros a u v; simpl; [by intros [= <- <-]|].
  destruct (less y a) eqn:El; [by intros [= <- <-]|].
  destruct (run_of less y r) as [u' v'] eqn:E. intros [= <- <-].
  destruct (run_of_head _ _ _ _ E) as [u'' ->]. simpl. rewrite El. by apply (IH y _ _ E).
Qed.

Lemma run_of_descents a seg u v :
  run_of less a seg = (u, v) -> descents less a seg = runs less v.
Proof.
  revert a u v. induction seg as [|y r IH]; intros a u v; simpl; [by intros [= <- <-]|].
  destruct (less y a) eqn:El; [by intros [= <- <-]|].
  destruct (run_of less y r) as [u' v'] eqn:E. intros [= <- <-]. by eapply IH.
Qed.

Lemma runs_sorted es : Sorted R es -> (runs less es <= 1)%nat.
Proof.
  rewrite <- srt_Sorted. destruct es as [|a r]; simpl; [lia|].
  assert (srt less (a :: r) = true -> descents less a r = O) as Hd.
  { revert a. induction r as [|y r IH]; intros a; [done|].
    cbn [srt descents]. rewrite andb_true_iff, negb_true_iff. intros [-> Hs]. by rewrite IH. }
  intros Hs. rewrite Hd by done. lia.
Qed.

Lemma runs_app xs ys : (runs less (xs ++ ys) <= runs less xs + runs less ys)%nat.
Proof.
  destruct xs as [|a xs]; [simpl; lia|]. simpl. revert a.
  induction xs as [|x xs IH]; intros a.
  - destruct ys as [|y ys]; simpl; [lia|]. destruct (less y a); lia.
  - simpl. specialize (IH x). lia.
Qed.

Lemma runs_length es : (runs less es <= length es)%nat.
Proof.
  destruct es as [|a r]; simpl; [lia|]. revert a.
  induction r as [|y r IH]; intros a; simpl; [lia|]. specialize (IH y). destruct (less y a); lia.
Qed.

Section with_order.
Context `{!Asym less}.

Lemma merge_sorted u w : Sorted R u -> Sorted R w -> Sorted R (list_merge R u w).
Proof. intros. apply Sorted_list_merge; [apply _|done|done]. Qed.

(** What one pass achieves: the same elements; the number of runs counted is
    at most half of those there were, rounded up, and at least those that are left. *)
Lemma pass_spec fuel es es' n :
  (length es <= fuel)%nat -> pass less fuel es = (es', n) ->
  es' ≡ₚ es /\ (runs less es' <= n)%nat /\ (2 * n <= runs less es + 1)%nat /\
  (n <= 1 -> Sorted R es')%nat.
Proof.
  revert es es' n. induction fuel as [|fuel IH]; intros [|a r] es' n Hf; simpl in Hf; try lia;
    cbn [pass]; try (intros [= <- <-]; split_and!; simpl; (done || lia || constructor)).
  destruct (run_of less a r) as [u v] eqn:Eu.
  pose proof (run_of_app _ _ _ _ Eu) as Ha. pose proof (run_of_sorted _ _ _ _ Eu) as Hu.
  pose proof (run_of_descents _ _ _ _ Eu) as Hdu. destruct v as [|b r'].
  - intros [= <- <-]. rewrite app_nil_r in Ha. rewrite Ha.
    split_and!; [done|by apply runs_sorted| |done]. rewrite <- Ha. simpl. lia.
  - destruct (run_of less b r') as [w z] eqn:Ew.
    pose proof (run_of_app _ _ _ _ Ew) as Hb. pose proof (run_of_sorted _ _ _ _ Ew) as Hw.
    pose proof (run_of_descents _ _ _ _ Ew) as Hdw.
    destruct (run_of_head _ _ _ _ Ew) as [w' Ew'].
    assert (length z <= fuel)%nat as Hz.
    { apply (f_equal length) in Ha, Hb. rewrite length_app in Ha, Hb. subst w.
      destruct (run_of_head _ _ _ _ Eu) as [u' ->]. simpl in *. lia. }
    destruct (pass less fuel z) as [es1 n1] eqn:Ep. intros [= <- <-].
    destruct (IH _ _ _ Hz Ep) as (Hp&Hr&Hc&Hs).
    pose proof (merge_sorted _ _ Hu Hw) as Hm. split_and!.
    + rewrite Ha, Hb, merge_Permutation, Hp. by rewrite app_assoc.
    + pose proof (runs_sorted _ Hm). pose proof (runs_app (list_merge R u w) es1). lia.
    + simpl. rewrite Hdu. simpl. rewrite Hdw. lia.
    + intros Hn. destruct es1; [by rewrite app_nil_r|simpl in Hr; lia].
Qed.

(** The merge prefers the first run on ties. *)
Lemma merge_stable `{!Transitive R} f u w :
  (forall x y, f x = true -> f y = true -> less x y = false) -> Sorted R u ->
  List.filter f (list_merge R u w) = List.filter f u ++ List.filter f w.
Proof.
  intros Hf Hu%Sorted_StronglySorted; [|done]. revert w. induction Hu as [|a u Hu IHu Ha]; intros w; [by rewrite list_merge_nil_l|].
  induction w as [|b w IHw]; [by rewrite list_merge_nil_r, app_nil_r|]. rewrite list_merge_cons. case_decide as Hab.
  - cbn [List.filter]. rewrite (IHu (b :: w)). by destruct (f a).
  - cbn [List.filter] in IHw |- *. destruct (f b) eqn:Eb; [|exact IHw].
    assert (forall y, y ∈ a :: u -> f y = false) as Hnone.
    { intros y Hy. destruct (f y) eqn:Ey; [|done]. destruct Hab. transitivity y; [|by apply Hf].
      apply elem_of_cons in Hy as [->|Hy]; [by apply Hf|]. rewrite Forall_forall in Ha. by apply Ha. }
    assert (List.filter f (a :: u) = []) as E.
    { clear -Hnone. induction (a :: u) as [|y l IH]; [done|]. cbn. rewrite Hnone by (by left). apply IH. intros z Hz. apply Hnone. by right. }
    cbn [List.filter] in E. rewrite E in IHw |- *. cbn [app] in *. by rewrite IHw.
Qed.

Lemma pass_stable `{!Transitive R} fuel es : (length es <= fuel)%nat -> stable less es (pass less fuel es).1.
Proof.
  revert es. induction fuel as [|fuel IH]; intros [|a r] Hl f Hf; try done; [simpl in Hl; lia|]. cbn [pass].
  destruct (run_of less a r) as [u v] eqn:Eu. rewrite (run_of_app _ _ _ _ Eu). pose proof (run_of_app _ _ _ _ Eu) as Ha.
  destruct v as [|b r']; [by rewrite app_nil_r|]. destruct (run_of less b r') as [w z] eqn:Ew. pose proof (run_of_app _ _ _ _ Ew) as Hb.
  assert (length z <= fuel)%nat as Hz.
  { destruct (run_of_head _ _ _ _ Eu) as [u' ->], (run_of_head _ _ _ _ Ew) as [w' ->].
    apply (f_equal length) in Ha, Hb. rewrite length_app in Ha, Hb. simpl in *. lia. }
  specialize (IH z Hz f Hf). destruct (pass less fuel z) as [es1 n1]. cbn [fst] in *.
  rewrite Hb, !List.filter_app, (merge_stable f u w Hf (run_of_sorted _ _ _ _ Eu)), IH. by rewrite app_assoc.
Qed.

Lemma insert_sorted_perm x es : insert_sorted less x es ≡ₚ x :: es.
Proof.
  induction es as [|y r IH]; simpl; [done|]. destruct (less x y); [done|].
  rewrite IH. by constructor.
Qed.

Lemma insert_sorted_sorted x es : Sorted R es -> Sorted R (insert_sorted less x es).
Proof.
  rewrite <- !srt_Sorted. induction es as [|y r IH]; [done|].
  intros Hs. simpl. destruct (less x y) eqn:E.
  - simpl. rewrite (less_asym _ _ E). done.
  - destruct r as [|z r]; simpl; [by rewrite E|].
    cbn [srt] in Hs. apply andb_true_iff in Hs as [Hyz Hs]. specialize (IH Hs).
    cbn [insert_sorted] in IH |- *. destruct (less x z); simpl in *; rewrite ?E, ?Hyz; done.
Qed.
End with_order.
End spec_facts.

(** ** The pointer code computes them *)

Section code_facts.
Variable less : ptr -> ptr -> bool.
Implicit Types (h : heap) (es u v c seg : list ptr) (a b x y : ptr).

Abbreviation R := (nless less).

Lemma dlist_shift h c1 a c2 : dlist h (c1 ++ a :: c2) <-> dlist h ((c1 ++ [a]) ++ c2).
Proof. by rewrite <- app_assoc. Qed.

Lemma next_pair h c1 a y c2 : dlist h (c1 ++ a :: y :: c2) -> list_next a h = Ok (y, h).
Proof. intros Hd. by rewrite (dlist_next h c1 a (y :: c2)). Qed.

Lemma prev_pair h c1 a y c2 : dlist h (c1 ++ a :: y :: c2) -> list_prev y h = Ok (a, h).
Proof.
  rewrite dlist_shift. intros Hd. rewrite (dlist_prev h (c1 ++ [a]) y c2); [|done|by destruct c1].
  by rewrite last_or_snoc.
Qed.

Lemma dlist_ne h c1 x c2 y c3 : dlist h (c1 ++ x :: c2 ++ y :: c3) -> (x =? y) = false.
Proof.
  intros (_&Hn&_). apply Z.eqb_neq. intros ->.
  apply NoDup_app in Hn as (_&_&Hn). apply NoDup_cons in Hn as [Hy _]. set_solver.
Qed.

Lemma dlist_fuel h c1 seg c2 : dlist h (c1 ++ seg ++ c2) -> (length seg < fuel_of h)%nat.
Proof. intros Hd%dlist_length. rewrite !length_app in Hd. unfold fuel_of. lia. Qed.

Lemma is_sorted_loop_eq fuel h c1 a seg b c2 :
  dlist h (c1 ++ a :: seg ++ b :: c2) -> (length seg < fuel)%nat ->
  is_sorted_loop less fuel a b h = Ok (srt less (a :: seg), h).
Proof.
  revert c1 a seg. induction fuel as [|fuel IH]; intros c1 a seg Hd Hf; [lia|].
  cbn [is_sorted_loop]. destruct seg as [|y r].
  - rewrite (bind_ok _ _ _ _ _ (next_pair _ _ _ _ _ Hd)). by rewrite Z.eqb_refl.
  - rewrite (bind_ok _ _ _ _ _ (next_pair _ _ _ _ _ Hd)).
    pose proof (prev_pair _ _ _ _ _ Hd) as Hp. apply dlist_shift in Hd.
    rewrite (dlist_ne _ _ _ _ _ _ Hd), (bind_ok _ _ _ _ _ Hp).
    cbn [srt]. destruct (less y a); [done|]. rewrite (IH _ _ _ Hd); [done|simpl in *; lia].
Qed.

Lemma is_sorted_eq h c1 seg b c2 :
  dlist h (c1 ++ seg ++ b :: c2) -> is_sorted less (hd_or b seg) b h = Ok (srt less seg, h).
Proof.
  intros Hd. unfold is_sorted. destruct seg as [|a seg]; cbn [hd_or]; [by rewrite Z.eqb_refl|].
  rewrite (dlist_ne _ _ _ _ _ _ Hd).
  change (is_sorted_loop less (fuel_of h) a b h = Ok (srt less (a :: seg), h)).
  eapply is_sorted_loop_eq; [exact Hd|]. apply dlist_fuel in Hd. simpl in Hd. lia.
Qed.

Lemma run_loop_eq fuel h c1 a seg b c2 :
  dlist h (c1 ++ a :: seg ++ b :: c2) -> (length seg < fuel)%nat ->
  run_loop less fuel a b h = Ok (hd_or b (run_of less a seg).2, h).
Proof.
  revert c1 a seg. induction fuel as [|fuel IH]; intros c1 a seg Hd Hf; [lia|].
  cbn [run_loop]. destruct seg as [|y r].
  - rewrite (bind_ok _ _ _ _ _ (next_pair _ _ _ _ _ Hd)). by rewrite Z.eqb_refl.
  - rewrite (bind_ok _ _ _ _ _ (next_pair _ _ _ _ _ Hd)).
    pose proof (prev_pair _ _ _ _ _ Hd) as Hp. apply dlist_shift in Hd.
    rewrite (dlist_ne _ _ _ _ _ _ Hd), (bind_ok _ _ _ _ _ Hp).
    cbn [run_of]. destruct (less y a); [done|].
    rewrite (IH _ _ _ Hd); [by destruct (run_of less y r)|simpl in *; lia].
Qed.

Lemma dlist_nonnull h c1 x c2 : dlist h (c1 ++ x :: c2) -> x <> NULL.
Proof. intros (_&_&Hz) ->. set_solver. Qed.

Lemma find_end_of_run_eq h c1 a seg b c2 :
  dlist h (c1 ++ a :: seg ++ b :: c2) ->
  find_end_of_run less a b h = Ok (hd_or b (run_of less a seg).2, h).
Proof.
  intros Hd. unfold find_end_of_run.
  rewrite (bind_ok _ _ _ _ _ (assert_nonnull _ _ (dlist_nonnull _ _ _ _ Hd))).
  pose proof Hd as Hd'. rewrite app_comm_cons, app_assoc in Hd'.
  rewrite (bind_ok _ _ _ _ _ (assert_nonnull _ _ (dlist_nonnull _ _ _ _ Hd'))).
  rewrite (dlist_ne _ _ _ _ _ _ Hd). simpl.
  change (run_loop less (fuel_of h) a b h = Ok (hd_or b (run_of less a seg).2, h)).
  eapply run_loop_eq; [exact Hd|].
  apply (dlist_fuel h c1 (a :: seg)) in Hd. simpl in Hd. lia.
Qed.

(** Merging two adjacent ranges in place. *)
Lemma wp_merge_loop fuel h c1 u w b1 c2 :
  dlist h (c1 ++ u ++ w ++ b1 :: c2) -> c1 <> [] -> (length u + length w < fuel)%nat ->
  wp (merge_loop less fuel (hd_or (hd_or b1 w) u) (hd_or b1 w) b1)
    (fun _ h' => dlist h' (c1 ++ list_merge R u w ++ b1 :: c2) /\
                 only_touches (c1 ++ u ++ w ++ b1 :: c2) h h') h.
Proof.
  revert h c1 u w. induction fuel as [|fuel IH]; intros h c1 u w Hd Hc1 Hf; [lia|].
  cbn [merge_loop]. destruct u as [|a u].
  { cbn [hd_or]. rewrite Z.eqb_refl. simpl. rewrite list_merge_nil_l.
    split; [done|apply only_touches_refl]. }
  destruct w as [|b w].
  { cbn [hd_or]. rewrite Z.eqb_refl, andb_false_r. rewrite list_merge_nil_r.
    split; [done|apply only_touches_refl]. }
  cbn [hd_or]. rewrite (dlist_ne h c1 a u b (w ++ b1 :: c2) Hd).
  pose proof Hd as Hd'. rewrite app_assoc in Hd'.
  rewrite (dlist_ne h (c1 ++ a :: u) b w b1 c2 Hd'). simpl andb. cbv iota.
  rewrite list_merge_cons. destruct (less b a) eqn:El; simpl negb; cbv iota.
  - (* the element of the second run goes first: splice it before [a0] *)
    rewrite decide_False by (unfold nless; congruence).
    assert (w ++ b1 :: c2 = hd_or b1 w :: tail (w ++ b1 :: c2)) as Ew by by destruct w.
    apply wp_bind. eapply wp_eq.
    { apply (dlist_next h (c1 ++ a :: u) b (w ++ b1 :: c2) Hd'). by destruct w. }
    rewrite hd_or_app. cbn [hd_or]. apply wp_bind. eapply wp_eq.
    { rewrite <- app_comm_cons, Ew in Hd'. apply (prev_pair _ _ _ _ _ Hd'). }
    apply wp_bind. eapply wp_mono.
    { pose proof (wp_list_splice_within h c1 (a :: u) [b] (w ++ b1 :: c2)) as Hsp.
      rewrite hd_or_app in Hsp. apply Hsp; [exact Hd|done|done|done|by destruct w]. }
    intros _ h1 [Hd1 Ho1]. simpl in Hd1. rewrite dlist_shift in Hd1.
    eapply wp_mono; [apply (IH h1 (c1 ++ [b]) (a :: u) w Hd1); [by destruct c1|simpl in *; lia]|].
    intros _ h2 [Hd2 Ho2]. split; [by rewrite <- app_assoc in Hd2|].
    eapply only_touches_trans; [exact Ho1|exact Ho2|set_solver..].
  - (* the element of the first run stays *)
    rewrite decide_True by done. apply wp_bind.
    assert (u ++ (b :: w) ++ b1 :: c2 = hd_or b u :: tail (u ++ (b :: w) ++ b1 :: c2)) as Eu by by destruct u.
    eapply wp_eq; [rewrite <- app_comm_cons, Eu in Hd; apply (next_pair _ _ _ _ _ Hd)|].
    simpl in Hd. rewrite dlist_shift in Hd.
    eapply wp_mono; [apply (IH h (c1 ++ [a]) u (b :: w) Hd); [by destruct c1|simpl in *; lia]|].
    intros _ h2 [Hd2 Ho2]. split; [by rewrite <- app_assoc in Hd2|].
    eapply only_touches_mono; [|exact Ho2]. set_solver.
Qed.

Lemma wp_inplace_merge h c1 a u b w b1 c2 :
  dlist h (c1 ++ (a :: u) ++ (b :: w) ++ b1 :: c2) -> c1 <> [] ->
  Sorted R (a :: u) -> Sorted R (b :: w) ->
  wp (inplace_merge less a b b1)
    (fun _ h' => dlist h' (c1 ++ list_merge R (a :: u) (b :: w) ++ b1 :: c2) /\
                 only_touches (c1 ++ (a :: u) ++ (b :: w) ++ b1 :: c2) h h') h.
Proof.
  intros Hd Hc1 Hu%srt_Sorted Hw%srt_Sorted. unfold inplace_merge.
  pose proof Hd as Hd2. rewrite app_assoc in Hd2. pose proof Hd2 as Hd3. rewrite app_assoc in Hd3.
  apply wp_bind. eapply wp_eq; [by eapply assert_nonnull, dlist_nonnull|].
  apply wp_bind. eapply wp_eq; [by eapply assert_nonnull, dlist_nonnull|].
  apply wp_bind. eapply wp_eq; [by eapply assert_nonnull, dlist_nonnull|].
  apply wp_bind, wp_assertM. eapply wp_eq; [apply (is_sorted_eq h c1 (a :: u) b (w ++ b1 :: c2) Hd)|].
  split; [done|].
  apply wp_bind, wp_assertM. eapply wp_eq; [apply (is_sorted_eq h _ (b :: w) b1 c2 Hd2)|].
  split; [done|].
  apply wp_bind, wp_gets. apply (wp_merge_loop _ h c1 (a :: u) (b :: w) b1 c2); [done..|].
  apply dlist_length in Hd. rewrite !length_app in Hd. unfold fuel_of. simpl in *. lia.
Qed.

Lemma list_end_nonnull h l : l <> NULL -> list_end l h = Ok (tail_of l, h).
Proof. intros Hl. unfold list_end. by rewrite (bind_ok _ _ _ _ _ (assert_nonnull _ _ Hl)). Qed.

Lemma hd_tail_eq h c1 x rest t : dlist h (c1 ++ (x :: rest) ++ [t]) -> (x =? t) = false.
Proof. intros Hd. by eapply (dlist_ne h c1 x rest t []). Qed.

Lemma wp_pass_loop fuel h l c1 rest cnt :
  l <> NULL -> dlist h (c1 ++ rest ++ [tail_of l]) -> c1 <> [] -> (length rest < fuel)%nat ->
  in_u 32 cnt ->
  wp (pass_loop less fuel l (hd_or (tail_of l) rest) cnt)
    (fun n h' => n = u32 (cnt + Z.of_nat (pass less fuel rest).2) /\
                 dlist h' (c1 ++ (pass less fuel rest).1 ++ [tail_of l]) /\
                 only_touches (c1 ++ rest ++ [tail_of l]) h h') h.
Proof.
  intros Hl0. revert h c1 rest cnt.
  induction fuel as [|fuel IH]; intros h c1 rest cnt Hd Hc1 Hf Hcnt; [lia|].
  cbn [pass_loop pass]. apply wp_bind. eapply wp_eq; [by apply list_end_nonnull|].
  destruct rest as [|a r]; cbn [hd_or].
  { rewrite Z.eqb_refl. split_and!; [|done|apply only_touches_refl].
    simpl. by rewrite Z.add_0_r, wrapu_small. }
  rewrite (hd_tail_eq _ _ _ _ _ Hd).
  apply wp_bind. eapply wp_eq; [by apply list_end_nonnull|].
  apply wp_bind. eapply wp_eq; [by apply (find_end_of_run_eq h c1 a r (tail_of l) [])|].
  destruct (run_of less a r) as [u v] eqn:Eu. cbn [snd].
  pose proof (run_of_app _ _ _ _ _ Eu) as Ha. pose proof (run_of_sorted _ _ _ _ _ Eu) as Hu.
  apply wp_bind. eapply wp_eq; [by apply list_end_nonnull|].
  rewrite Ha, <- app_assoc in Hd. destruct v as [|b r']; cbn [hd_or].
  { rewrite Z.eqb_refl. cbn [fst snd]. rewrite Ha, <- app_assoc.
    split_and!; [done|done|apply only_touches_refl]. }
  pose proof Hd as Hd2. rewrite app_assoc in Hd2. rewrite (hd_tail_eq _ _ _ _ _ Hd2).
  apply wp_bind. eapply wp_eq; [by apply list_end_nonnull|].
  apply wp_bind. eapply wp_eq; [by apply (find_end_of_run_eq h (c1 ++ u) b r' (tail_of l) [])|].
  destruct (run_of less b r') as [w z] eqn:Ew. cbn [snd].
  pose proof (run_of_app _ _ _ _ _ Ew) as Hb. pose proof (run_of_sorted _ _ _ _ _ Ew) as Hw.
  destruct (run_of_head _ _ _ _ _ Eu) as [u' Hu']. destruct (run_of_head _ _ _ _ _ Ew) as [w' Hw'].
  subst u w. rewrite Hb in Hd, Ha. rewrite <- app_assoc in Hd.
  assert (z ++ [tail_of l] = hd_or (tail_of l) z :: tail (z ++ [tail_of l])) as Ez by by destruct z.
  apply wp_bind. eapply wp_mono.
  { apply (wp_inplace_merge h c1 a u' b w' (hd_or (tail_of l) z) (tail (z ++ [tail_of l])));
      [|done|done|done]. by rewrite <- Ez. }
  intros _ h1 [Hd1 Ho1]. rewrite <- !Ez in *. rewrite app_assoc in Hd1.
  eapply wp_mono.
  { apply (IH h1 _ z _ Hd1); [by destruct c1| |by apply wrapu_in].
    apply (f_equal length) in Ha. rewrite !length_app in Ha. simpl in *. lia. }
  intros n h2 (->&Hd3&Ho2). destruct (pass less fuel z) as [es' k] eqn:Ep. cbn [fst snd] in *.
  split_and!.
  - unfold wrapu. rewrite Zplus_mod_idemp_l. f_equal. lia.
  - by rewrite <- !app_assoc in Hd3 |- *.
  - assert (forall x, x ∈ list_merge R (a :: u') (b :: w') -> x ∈ (a :: u') ++ b :: w') as Hm.
    { intros x. by rewrite merge_Permutation. }
    rewrite Ha. eapply only_touches_trans; [exact Ho1|exact Ho2|set_solver|set_solver].
Qed.

Section with_order.
Context `{!Asym less}.

Lemma wp_sort_loop fuel h l es :
  list_at h l es -> (runs less es < fuel)%nat -> Z.of_nat (length es) < 2 ^ 32 ->
  wp (sort_loop less fuel l)
    (fun _ h' => exists es', list_at h' l es' /\ es' ≡ₚ es /\ Sorted R es' /\ (Transitive R -> stable less es es') /\
                             only_touches (nodes l es) h h') h.
Proof.
  revert h es. induction fuel as [|fuel IH]; intros h es Hl Hf Hlen; [lia|].
  pose proof (list_at_ends _ _ _ Hl) as (Hl0&_&_).
  cbn [sort_loop]. apply wp_bind. eapply wp_eq; [by apply list_begin_eq|].
  apply wp_bind, wp_gets, wp_bind.
  pose proof (list_at_fuel h l [] es Hl) as Hfu.
  eapply wp_mono; [apply (wp_pass_loop _ h l [head_of l] es 0); done|].
  destruct (pass less (fuel_of h) es) as [es1 k] eqn:Ep. cbn [fst snd].
  destruct (pass_spec less _ _ _ _ (Nat.lt_le_incl _ _ Hfu) Ep) as (Hp&Hr&Hk&Hs).
  assert (Transitive R -> stable less es es1) as Hst.
  { intros Ht. pose proof (pass_stable less _ es (Nat.lt_le_incl _ _ Hfu)) as H. by rewrite Ep in H. }
  pose proof (runs_length less es). intros n h1 (->&Hd1&Ho1).
  rewrite Z.add_0_l, wrapu_small by (unfold in_u; lia).
  change (list_at h1 l es1) in Hd1. change ([head_of l] ++ es ++ [tail_of l]) with (nodes l es) in Ho1.
  assert (nodes l es1 ⊆ nodes l es) as Hsub by (intros x; unfold nodes; by rewrite Hp).
  destruct (Z.ltb_spec 1 (Z.of_nat k)) as [Hk1|Hk1].
  - eapply wp_mono; [apply (IH h1 es1 Hd1); [lia|by rewrite Hp]|].
    intros _ h2 (es2&Hl2&Hp2&Hs2&Hst2&Ho2). exists es2.
    split_and!; [done|by rewrite Hp2|done| |by eapply only_touches_trans].
    intros Ht f Htie. rewrite (Hst2 Ht f Htie). by apply Hst.
  - exists es1. split_and!; [done|done|apply Hs; lia|exact Hst|done].
Qed.

Lemma wp_list_sort h l es :
  list_at h l es -> Z.of_nat (length es) < 2 ^ 32 ->
  wp (list_sort less l)
    (fun _ h' => exists es', list_at h' l es' /\ es' ≡ₚ es /\ Sorted R es' /\ (Transitive R -> stable less es es') /\
                             only_touches (nodes l es) h h') h.
Proof.
  intros Hl Hlen. pose proof (list_at_ends _ _ _ Hl) as (Hl0&_&_).
  unfold list_sort. apply wp_bind. eapply wp_eq; [by apply assert_nonnull|].
  apply wp_bind, wp_gets, wp_bind. eapply wp_mono.
  { apply (wp_sort_loop _ h l es Hl); [|done].
    pose proof (list_at_fuel h l [] es Hl). pose proof (runs_length less es). lia. }
  intros _ h1 (es1&Hl1&Hp&Hs&Hst&Ho). apply wp_assertM, wp_bind.
  eapply wp_eq; [by apply list_begin_eq|]. apply wp_bind. eapply wp_eq; [by eapply list_end_eq|].
  eapply wp_eq; [by eapply (is_sorted_eq h1 [head_of l] es1 (tail_of l) [])|].
  split; [by apply srt_Sorted|]. by exists es1.
Qed.
End with_order.

Lemma ordered_loop_eq fuel h l x es1 es2 :
  list_at h l (es1 ++ es2) -> (length es2 < fuel)%nat ->
  exists es3 es4, es2 = es3 ++ es4 /\ insert_sorted less x es2 = es3 ++ x :: es4 /\
    ordered_loop less fuel l x (hd_or (tail_of l) es2) h = Ok (hd_or (tail_of l) es4, h).
Proof.
  revert es1 es2. induction fuel as [|fuel IH]; intros es1 es2 Hl Hf; [lia|].
  cbn [ordered_loop]. rewrite (bind_ok _ _ _ _ _ (list_end_eq _ _ _ Hl)), (at_end_spec _ _ _ _ Hl).
  destruct es2 as [|y r]; [exists [], []; done|]. rewrite bool_decide_false by done. cbn [hd_or].
  cbn [insert_sorted]. destruct (less x y) eqn:E; [exists [], (y :: r); done|].
  rewrite (bind_ok _ _ _ _ _ (list_next_eq _ _ _ _ _ Hl)).
  rewrite (cons_middle y), app_assoc in Hl.
  destruct (IH _ _ Hl) as (es3&es4&->&->&->); [simpl in *; lia|]. by exists (y :: es3), es4.
Qed.

Lemma wp_list_insert_ordered h l es e :
  list_at h l es -> e ∉ nodes l es -> e <> NULL -> is_Some (h !! e) ->
  wp (list_insert_ordered less l e)
    (fun _ h' => list_at h' l (insert_sorted less e es) /\ only_touches (e :: nodes l es) h h') h.
Proof.
  intros Hl He H0 Hm. pose proof (list_at_ends _ _ _ Hl) as (Hl0&_&_).
  unfold list_insert_ordered.
  apply wp_bind. eapply wp_eq; [by apply assert_nonnull|].
  apply wp_bind. eapply wp_eq; [by apply assert_nonnull|].
  apply wp_bind. eapply wp_eq; [by apply list_begin_eq|]. apply wp_bind, wp_gets.
  destruct (ordered_loop_eq (fuel_of h) h l e [] es Hl) as (es3&es4&->&Hi&Hlp).
  { by apply (list_at_fuel h l []). }
  apply wp_bind. eapply wp_eq; [exact Hlp|]. rewrite Hi.
  unfold list_at in *. rewrite nodes_app in *.
  replace (hd_or (tail_of l) es4) with (hd_or NULL (es4 ++ [tail_of l])) by apply hd_or_app.
  eapply wp_mono; [apply (wp_list_insert h (head_of l :: es3) (es4 ++ [tail_of l]) e); try done; by destruct es4|].
  intros _ h' [Hd' Ho']. split; [done|]. eapply only_touches_mono; [|exact Ho']. set_solver.
Qed.

(** The list of duplicates, if the caller gave one, is a list of its own. *)
Definition dups_at (h : heap) (d : ptr) (ds : list ptr) (l : ptr) (es : list ptr) : Prop :=
  d = NULL \/ (list_at h d ds /\ nodes d ds ## nodes l es).

Definition dups_nodes (d : ptr) (ds : list ptr) : list ptr :=
  if decide (d = NULL) then [] else nodes d ds.

(** One duplicate is moved from the list to the list of duplicates. *)
Lemma wp_drop_dup h l d ds es1 y es2 :
  list_at h l (es1 ++ y :: es2) -> dups_at h d ds l (es1 ++ y :: es2) ->
  wp (do! list_remove y in (if negb (d =? NULL) then list_push_back d y else ret tt))
    (fun _ h' => list_at h' l (es1 ++ es2) /\ dups_at h' d (ds ++ [y]) l (es1 ++ es2) /\
       only_touches (nodes l (es1 ++ y :: es2) ++ dups_nodes d ds) h h') h.
Proof.
  intros Hl Hd. unfold dups_nodes. apply wp_bind. eapply wp_mono; [by apply wp_list_remove_at|].
  intros _ h1 (_&Hl1&Hy&Ho1).
  assert (y ∉ nodes l (es1 ++ es2)) as Hyn.
  { destruct Hl as (_&Hnd&_). rewrite nodes_app in *. clear -Hnd.
    rewrite <- (app_comm_cons es2), <- (Permutation_middle (head_of l :: es1)) in Hnd.
    by apply NoDup_cons in Hnd as [? _]. }
  assert (nodes l (es1 ++ es2) ⊆ nodes l (es1 ++ y :: es2)) as Hsub.
  { rewrite !nodes_app. clear. set_solver. }
  assert (y ∈ nodes l (es1 ++ y :: es2)) as Hyin by (rewrite nodes_app; set_solver).
  destruct Hd as [->|[Hd Hdis]].
  { simpl. apply wp_ret. split_and!; [done|by left|]. eapply only_touches_mono; [|exact Ho1].
    clear -Hsub. set_solver. }
  pose proof (list_at_ends _ _ _ Hd) as (Hd0&_&_).
  rewrite decide_False, (proj2 (Z.eqb_neq _ _) Hd0) by done. cbn [negb].
  assert (list_at h1 d ds) as Hd1.
  { eapply (dlist_frame _ (nodes d ds)); [exact Ho1| |exact Hd]. by eapply disj_sub. }
  eapply wp_mono.
  - apply (wp_list_push_back _ _ _ _ Hd1); [by eapply disj_in'| |].
    + destruct Hl as (_&_&Hz). clear -Hz Hyin. naive_solver.
    + rewrite Hy. eapply dlist_mapped; [exact Hl|exact Hyin].
  - intros _ h2 [Hd2 Ho2]. pose proof (disj_sub _ _ _ Hdis Hsub) as Hdis'. split_and!.
    + eapply (dlist_frame _ (nodes l (es1 ++ es2))); [exact Ho2| |exact Hl1].
      by apply disj_cons.
    + right. split; [done|]. intros x Hx. apply (disj_cons _ _ _ Hdis' Hyn). unfold nodes in *.
      clear -Hx. set_solver.
    + eapply only_touches_trans; [exact Ho1|exact Ho2| |]; clear -Hsub Hyin; set_solver.
Qed.

Lemma wp_unique_loop fuel h l d ds es1 a rest :
  list_at h l (es1 ++ a :: rest) -> dups_at h d ds l (es1 ++ a :: rest) ->
  (length rest < fuel)%nat ->
  wp (unique_loop less fuel l d a)
    (fun _ h' => list_at h' l (es1 ++ a :: (uniq less a rest).1) /\
       dups_at h' d (ds ++ (uniq less a rest).2) l (es1 ++ a :: (uniq less a rest).1) /\
       only_touches (nodes l (es1 ++ a :: rest) ++ dups_nodes d ds) h h') h.
Proof.
  revert h ds es1 a rest. induction fuel as [|fuel IH]; intros h ds es1 a rest Hl Hd Hf; [lia|].
  cbn [unique_loop]. apply wp_bind. eapply wp_eq; [by eapply list_next_eq|].
  apply wp_bind. eapply wp_eq; [by eapply list_end_eq|].
  pose proof Hl as Hl'. rewrite (cons_middle a), app_assoc in Hl'. rewrite (at_end_spec _ _ _ _ Hl').
  destruct rest as [|y r]; cbn [uniq fst snd hd_or].
  { apply wp_ret. rewrite app_nil_r. split_and!; [done..|apply only_touches_refl]. }
  rewrite bool_decide_false by done. destruct (negb (less a y) && negb (less y a)) eqn:E.
  - apply wp_assoc_do. eapply wp_mono; [apply (wp_drop_dup h l d ds (es1 ++ [a]) y r)|].
    { by rewrite <- app_assoc. } { by rewrite <- app_assoc. }
    rewrite <- !app_assoc. cbn [app]. intros [] h1 (Hl1&Hd1&Ho1).
    eapply wp_mono; [apply (IH h1 (ds ++ [y]) es1 a r Hl1 Hd1); simpl in *; lia|].
    destruct (uniq less a r) as [k du]. cbn [fst snd]. rewrite <- app_assoc.
    intros _ h2 (Hl2&Hd2&Ho2). split_and!; [done..|].
    eapply only_touches_trans; [exact Ho1|exact Ho2|done|].
    unfold dups_nodes, nodes. case_decide; clear; set_solver.
  - rewrite (cons_middle a) in Hl, Hd. rewrite app_assoc in Hl, Hd.
    eapply wp_mono; [apply (IH h ds (es1 ++ [a]) y r Hl Hd); simpl in *; lia|].
    destruct (uniq less y r) as [k du]. cbn [fst snd]. rewrite <- !app_assoc. done.
Qed.

Lemma wp_list_unique h l d ds es :
  list_at h l es -> dups_at h d ds l es ->
  wp (list_unique less l d)
    (fun _ h' => exists k u,
       match es with [] => k = [] /\ u = [] | a :: r => (k, u) = (a :: (uniq less a r).1, (uniq less a r).2) end /\
       list_at h' l k /\ dups_at h' d (ds ++ u) l k /\
       only_touches (nodes l es ++ dups_nodes d ds) h h') h.
Proof.
  intros Hl Hd. pose proof (list_at_ends _ _ _ Hl) as (Hl0&_&_). unfold list_unique.
  apply wp_bind. eapply wp_eq; [by apply assert_nonnull|].
  apply wp_bind. eapply wp_eq; [by apply list_empty_eq|]. destruct es as [|a r].
  { rewrite bool_decide_true by done. apply wp_ret. exists [], []. rewrite app_nil_r.
    split_and!; [done..|apply only_touches_refl]. }
  rewrite bool_decide_false by done.
  apply wp_bind. eapply wp_eq; [by apply list_begin_eq|]. apply wp_bind, wp_gets. cbn [hd_or].
  eapply wp_mono; [apply (wp_unique_loop (fuel_of h) h l d ds [] a r Hl Hd)|].
  - apply (list_at_fuel h l [a] r Hl).
  - intros _ h' (?&?&?). eexists _, _. split_and!; [reflexivity|done..].
Qed.

Lemma max_loop_eq fuel h l m es1 es2 :
  list_at h l (es1 ++ es2) -> (length es2 < fuel)%nat ->
  max_loop less fuel l m (hd_or (tail_of l) es2) h =
    Ok (fold_left (fun m e => if less m e then e else m) es2 m, h).
Proof.
  revert m es1 es2. induction fuel as [|fuel IH]; intros m es1 es2 Hl Hf; [lia|].
  cbn [max_loop]. rewrite (bind_ok _ _ _ _ _ (list_end_eq _ _ _ Hl)), (at_end_spec _ _ _ _ Hl).
  destruct es2 as [|y r]; [done|]. rewrite bool_decide_false by done. cbn [hd_or fold_left].
  rewrite (bind_ok _ _ _ _ _ (list_next_eq _ _ _ _ _ Hl)).
  rewrite (cons_middle y), app_assoc in Hl. apply (IH _ _ _ Hl). simpl in Hf. lia.
Qed.

Lemma min_loop_eq fuel h l m es1 es2 :
  list_at h l (es1 ++ es2) -> (length es2 < fuel)%nat ->
  min_loop less fuel l m (hd_or (tail_of l) es2) h =
    Ok (fold_left (fun m e => if less e m then e else m) es2 m, h).
Proof.
  revert m es1 es2. induction fuel as [|fuel IH]; intros m es1 es2 Hl Hf; [lia|].
  cbn [min_loop]. rewrite (bind_ok _ _ _ _ _ (list_end_eq _ _ _ Hl)), (at_end_spec _ _ _ _ Hl).
  destruct es2 as [|y r]; [done|]. rewrite bool_decide_false by done. cbn [hd_or fold_left].
  rewrite (bind_ok _ _ _ _ _ (list_next_eq _ _ _ _ _ Hl)).
  rewrite (cons_middle y), app_assoc in Hl. apply (IH _ _ _ Hl). simpl in Hf. lia.
Qed.

Lemma list_max_eq h l es :
  list_at h l es ->
  list_max less l h =
    Ok (match es with
        | [] => tail_of l
        | a :: r => fold_left (fun m e => if less m e then e else m) r a
        end, h).
Proof.
  intros Hl. pose proof (list_at_ends _ _ _ Hl) as (Hl0&_&_). unfold list_max.
  rewrite (bind_ok _ _ _ _ _ (list_begin_eq _ _ _ Hl)), (bind_ok _ _ _ _ _ (list_end_eq _ _ _ Hl)).
  rewrite (at_end_spec _ _ [] _ Hl). destruct es as [|a r]; [done|].
  rewrite bool_decide_false by done. cbn [negb hd_or].
  rewrite (bind_ok _ _ _ _ _ (list_next_eq _ _ [] _ _ Hl)).
  apply (max_loop_eq (fuel_of h) h l a [a] r Hl), (list_at_fuel h l [a] r Hl).
Qed.

Lemma list_min_eq h l es :
  list_at h l es ->
  list_min less l h =
    Ok (match es with
        | [] => tail_of l
        | a :: r => fold_left (fun m e => if less e m then e else m) r a
        end, h).
Proof.
  intros Hl. pose proof (list_at_ends _ _ _ Hl) as (Hl0&_&_). unfold list_min.
  rewrite (bind_ok _ _ _ _ _ (list_begin_eq _ _ _ Hl)), (bind_ok _ _ _ _ _ (list_end_eq _ _ _ Hl)).
  rewrite (at_end_spec _ _ [] _ Hl). destruct es as [|a r]; [done|].
  rewrite bool_decide_false by done. cbn [negb hd_or].
  rewrite (bind_ok _ _ _ _ _ (list_next_eq _ _ [] _ _ Hl)).
  apply (min_loop_eq (fuel_of h) h l a [a] r Hl), (list_at_fuel h l [a] r Hl).
Qed.
End code_facts.

(** ** Facts on the sequences *)

Section selection.
Variable less : ptr -> ptr -> bool.
Implicit Types (es k u : list ptr) (a b x y m : ptr).

(** Neither is less than the other. *)
Definition equiv a b : bool := negb (less a b) && negb (less b a).

(** No two neighbours are equal, starting after [a]. *)
Fixpoint distinct_from a es : bool :=
  match es with [] => true | y :: r => negb (equiv a y) && distinct_from y r end.

Lemma uniq_perm a es : (uniq less a es).1 ++ (uniq less a es).2 ≡ₚ es.
Proof.
  revert a. induction es as [|y r IH]; intros a; [done|]. simpl.
  destruct (_ && _); [specialize (IH a)|specialize (IH y)]; destruct (uniq _ _ r) as [k u]; simpl in *.
  - by rewrite <- Permutation_middle, IH.
  - by rewrite IH.
Qed.

Lemma uniq_distinct a es : distinct_from a (uniq less a es).1 = true.
Proof.
  revert a. induction es as [|y r IH]; intros a; [done|]. simpl.
  destruct (_ && _) eqn:E; [specialize (IH a)|specialize (IH y)]; destruct (uniq _ _ r) as [k u];
    simpl in *; [done|]. unfold equiv. by rewrite E.
Qed.

Lemma uniq_removed a es y : y ∈ (uniq less a es).2 -> exists x, x ∈ a :: (uniq less a es).1 /\ equiv x y = true.
Proof.
  revert a. induction es as [|z r IH]; intros a; simpl; [set_solver|].
  destruct (_ && _) eqn:E; [specialize (IH a)|specialize (IH z)]; destruct (uniq _ _ r) as [k u];
    simpl in *; [|set_solver].
  intros [->|?]%elem_of_cons; [exists a; set_solver|set_solver].
Qed.

(** [m] is the first greatest element of [es]. *)
Definition first_max es m : Prop :=
  exists es1 es2, es = es1 ++ m :: es2 /\
    (forall x, x ∈ es1 -> less x m = true) /\ (forall x, x ∈ es2 -> less m x = false).

Lemma fold_max_spec es0 m es :
  Asym less -> Transitive (nless less) -> first_max es0 m ->
  first_max (es0 ++ es) (fold_left (fun m e => if less m e then e else m) es m).
Proof.
  intros Ha Ht. revert es0 m. induction es as [|e es IH]; intros es0 m Hm; simpl; [by rewrite app_nil_r|].
  rewrite (cons_middle e), app_assoc. apply IH. destruct Hm as (es1&es2&->&H1&H2).
  assert (forall x, nless less x m -> less m e = true -> less x e = true) as Hup.
  { intros x Hx He. destruct (less x e) eqn:E; [done|].
    assert (nless less e m) as Hn by (by transitivity x). unfold nless in Hn. congruence. }
  destruct (less m e) eqn:E.
  - exists (es1 ++ m :: es2), []. split_and!; [done| |set_solver].
    intros x [Hx|[->|Hx]%elem_of_cons]%elem_of_app; [|done|by apply Hup; [apply H2|]].
    apply Hup; [|done]. unfold nless. by apply less_asym, H1.
  - exists es1, (es2 ++ [e]). split_and!; [by rewrite <- app_assoc|done|set_solver].
Qed.
End selection.

(** The opposite order: a minimum is a maximum of it. *)
Definition flip_less (less : ptr -> ptr -> bool) (a b : ptr) : bool := less b a.

Lemma flip_asym less : Asym less -> Asym (flip_less less).
Proof. intros Ha a b H. by apply Ha. Qed.

Lemma flip_trans less : Transitive (nless less) -> Transitive (nless (flip_less less)).
Proof. intros Ht a b c H1 H2. by apply (Ht c b a). Qed.

Lemma first_max_single less a : first_max less [a] a.
Proof. exists [], []. split_and!; [done|set_solver..]. Qed.

(** ** The properties *)

(** C16. [list_sort] terminates without a failed assertion on every list whose
    length fits a [size_t]: the list then holds the same elements in
    nondecreasing order and no other memory is changed.  When "not less" is
    transitive, every earlier element may precede every later one, and the sort
    is stable: elements none of which is less than another stay in their order. *)
Theorem list_sort_correct less h l es :
  Asym less -> list_at h l es -> Z.of_nat (length es) < 2 ^ 32 ->
  wp (list_sort less l)
    (fun _ h' => exists es', list_at h' l es' /\ es' ≡ₚ es /\ Sorted (nless less) es' /\
                  (Transitive (nless less) -> StronglySorted (nless less) es' /\ stable less es es') /\
                  only_touches (nodes l es) h h') h.
Proof.
  intros Ha Hl Hlen. eapply wp_mono; [by apply wp_list_sort|].
  intros _ h' (es'&?&?&?&?&?). exists es'. split_and!; try done.
  intros Htr. split; [by apply Sorted_StronglySorted|auto].
Qed.

(** [list_insert_ordered] puts the element into a list so that the result
    holds the old elements and the new one, and is in order if the list was. *)
Theorem list_insert_ordered_correct less h l es e :
  Asym less -> list_at h l es -> e ∉ nodes l es -> e <> NULL -> is_Some (h !! e) ->
  wp (list_insert_ordered less l e)
    (fun _ h' => exists es', list_at h' l es' /\ es' ≡ₚ e :: es /\
                  (Sorted (nless less) es -> Sorted (nless less) es') /\
                  only_touches (e :: nodes l es) h h') h.
Proof.
  intros Ha Hl He H0 Hm. eapply wp_mono; [by apply wp_list_insert_ordered|].
  intros _ h' [Hl' Ho]. exists (insert_sorted less e es).
  split_and!; [done|apply insert_sorted_perm|by apply insert_sorted_sorted|done].
Qed.

(** [list_unique] splits a list into the elements it keeps and those it
    appends, in order, to the list of duplicates when one is given: nothing is
    lost, no two neighbours kept are equal, and each element removed equals
    one that is kept. *)
Theorem list_unique_correct less h l d ds es :
  list_at h l es -> dups_at h d ds l es ->
  wp (list_unique less l d)
    (fun _ h' => exists k u, list_at h' l k /\ dups_at h' d (ds ++ u) l k /\ k ++ u ≡ₚ es /\
       match k with [] => es = [] | a :: r => distinct_from less a r = true end /\
       (forall y, y ∈ u -> exists x, x ∈ k /\ equiv less x y = true) /\
       only_touches (nodes l es ++ dups_nodes d ds) h h') h.
Proof.
  intros Hl Hd. eapply wp_mono; [by apply wp_list_unique|].
  intros _ h' (k&u&Hk&Hl'&Hd'&Ho). exists k, u. destruct es as [|a r]; simplify_eq.
  - destruct Hk as [-> ->]. split_and!; try done. set_solver.
  - split_and!; try done; [by simpl; rewrite uniq_perm|apply uniq_distinct|apply uniq_removed].
Qed.

(** [list_max] and [list_min] return the first greatest and the first
    least element of a nonempty list, the tail of an empty one, and leave the
    memory alone. *)
Theorem list_max_min_correct less h l es :
  Asym less -> Transitive (nless less) -> list_at h l es ->
  exists mx mn, list_max less l h = Ok (mx, h) /\ list_min less l h = Ok (mn, h) /\
    match es with
    | [] => mx = tail_of l /\ mn = tail_of l
    | _ => first_max less es mx /\ first_max (flip_less less) es mn
    end.
Proof.
  intros Ha Ht Hl. rewrite (list_max_eq _ _ _ _ Hl), (list_min_eq _ _ _ _ Hl).
  eexists _, _. split_and!; [done|done|]. destruct es as [|a r]; [done|].
  split; [by apply (fold_max_spec _ [a]), first_max_single|].
  apply (fold_max_spec (flip_less less) [a]); [by apply flip_asym|by apply flip_trans|].
  apply first_max_single.
Qed.

(** ** Witnesses *)

(** A list at 100 with four elements in no order, one not in the list, and a
    second, empty list at 200; elements are compared by address, in tens. *)
Definition sort_heap : heap :=
  list_to_map [(100, Elem 0 12); (12, Elem 100 40); (40, Elem 12 4); (4, Elem 40 44); (44, Elem 4 108);
               (108, Elem 44 0); (20, Elem 9 9); (200, Elem 0 208); (208, Elem 200 0)].
Definition tens (a b : ptr) : bool := a / 10 <? b / 10.

Lemma tens_asym : Asym tens.
Proof. intros a b. unfold tens. rewrite Z.ltb_lt, Z.ltb_ge. lia. Qed.

Lemma tens_trans : Transitive (nless tens).
Proof. intros a b c. unfold nless, tens. rewrite !Z.ltb_ge. lia. Qed.

Lemma list_sort_correct_witness :
  wp (list_sort tens 100)
    (fun _ h' => exists es', list_at h' 100 es' /\ es' ≡ₚ [12; 40; 4; 44] /\ Sorted (nless tens) es' /\
                  (Transitive (nless tens) -> StronglySorted (nless tens) es' /\ stable tens [12; 40; 4; 44] es') /\
                  only_touches (nodes 100 [12; 40; 4; 44]) sort_heap h') sort_heap.
Proof.
  apply (list_sort_correct tens sort_heap 100 [12; 40; 4; 44]); [exact tens_asym| |done].
  apply (bool_decide_unpack _). vm_compute. exact I.
Defined.

Lemma list_insert_ordered_correct_witness :
  wp (list_insert_ordered tens 100 20)
    (fun _ h' => exists es', list_at h' 100 es' /\ es' ≡ₚ [20; 12; 40; 4; 44] /\
                  (Sorted (nless tens) [12; 40; 4; 44] -> Sorted (nless tens) es') /\
                  only_touches (20 :: nodes 100 [12; 40; 4; 44]) sort_heap h') sort_heap.
Proof.
  apply (list_insert_ordered_correct tens sort_heap 100 [12; 40; 4; 44] 20);
    [exact tens_asym|apply (bool_decide_unpack _); vm_compute; exact I..|done|].
  vm_compute. eauto.
Defined.

Lemma list_unique_correct_witness :
  wp (list_unique tens 100 200)
    (fun _ h' => exists k u, list_at h' 100 k /\ dups_at h' 200 ([] ++ u) 100 k /\ k ++ u ≡ₚ [12; 40; 4; 44] /\
       match k with [] => [12; 40; 4; 44] = [] | a :: r => distinct_from tens a r = true end /\
       (forall y, y ∈ u -> exists x, x ∈ k /\ equiv tens x y = true) /\
       only_touches (nodes 100 [12; 40; 4; 44] ++ dups_nodes 200 []) sort_heap h') sort_heap.
Proof.
  apply (list_unique_correct tens sort_heap 100 200 [] [12; 40; 4; 44]).
  - apply (bool_decide_unpack _). vm_compute. exact I.
  - right. split; [apply (bool_decide_unpack _); vm_compute; exact I|].
    unfold nodes, head_of, tail_of. simpl. set_solver by lia.
Defined.

Lemma list_max_min_correct_witness :
  exists mx mn, list_max tens 100 sort_heap = Ok (mx, sort_heap) /\
    list_min tens 100 sort_heap = Ok (mn, sort_heap) /\
    first_max tens [12; 40; 4; 44] mx /\ first_max (flip_less tens) [12; 40; 4; 44] mn.
Proof.
  apply (list_max_min_correct tens sort_heap 100 [12; 40; 4; 44] tens_asym tens_trans).
  apply (bool_decide_unpack _). vm_compute. exact I.
Defined.

End KListSort.
