(* ===== verification/Mem.v ===== *)
(** * Byte memory

    The memory a C routine works on: a finite map from addresses to bytes.
    An access outside the map is a fault.  [bytes_at] says what a block of
    memory holds, [str_at] that a null-terminated string is there, and
    [write] is the memory after a block was stored. *)

From S2P Require Import Prelude.
Local Open Scope Z_scope.

Module Mem.

Abbreviation mem := (gmap Z Z).

Definition load (p : ptr) : M mem Z :=
  fun m => match m !! p with Some b => Ok (b, m) | None => Err EFault end.
Definition store (p : ptr) (b : Z) : M mem unit :=
  fun m => match m !! p with Some _ => Ok (tt, <[p := u8 b]> m) | None => Err EFault end.

(** Steps enough for any loop that walks through distinct mapped bytes. *)
Definition fuel_of (m : mem) : nat := S (size m).

Fixpoint bytes_at (m : mem) (p : ptr) (bs : list Z) : Prop :=
  match bs with
  | [] => True
  | b :: bs' => m !! p = Some b /\ in_u 8 b /\ bytes_at m (p + 1) bs'
  end.

Fixpoint str_at (m : mem) (p : ptr) (s : list Z) : Prop :=
  match s with
  | [] => m !! p = Some 0
  | c :: s' => m !! p = Some c /\ 0 < c < 256 /\ str_at m (p + 1) s'
  end.

Fixpoint write (m : mem) (p : ptr) (bs : list Z) : mem :=
  match bs with [] => m | b :: bs' => write (<[p := b]> m) (p + 1) bs' end.

(** All [n] bytes from [p] on exist. *)
Definition mapped (m : mem) (p n : Z) : Prop := forall q, p <= q < p + n -> is_Some (m !! q).

Abbreviation zlen l := (Z.of_nat (length l)).

(** Addresses are 32 bits wide and nothing is at address 0. *)
Definition mem_ok (m : mem) : Prop := map_Forall (fun p _ => 0 < p < 2 ^ 32) m.

#[export] Instance mem_ok_dec m : Decision (mem_ok m).
Proof. unfold mem_ok. apply _. Defined.

#[export] Instance bytes_at_dec m p bs : Decision (bytes_at m p bs).
Proof. revert p. induction bs as [|b bs IH]; intros p; simpl; unfold in_u; apply _. Defined.
#[export] Instance str_at_dec m p s : Decision (str_at m p s).
Proof. revert p. induction s as [|c s IH]; intros p; simpl; apply _. Defined.

Section facts.
Implicit Types (m : mem) (p q : ptr) (bs s : list Z) (b c : Z).

Lemma load_eq m p b : m !! p = Some b -> load p m = Ok (b, m).
Proof. unfold load. by intros ->. Qed.

Lemma store_eq m p b : is_Some (m !! p) -> in_u 8 b -> store p b m = Ok (tt, <[p := b]> m).
Proof. unfold store. intros [x ->] ?. by rewrite wrapu_small. Qed.

Lemma bytes_at_app m p bs1 bs2 :
  bytes_at m p (bs1 ++ bs2) <-> bytes_at m p bs1 /\ bytes_at m (p + zlen bs1) bs2.
Proof.
  revert p. induction bs1 as [|b bs1 IH]; intros p; simpl; [rewrite Z.add_0_r; naive_solver|].
  rewrite IH. replace (p + 1 + zlen bs1) with (p + Z.of_nat (S (length bs1))) by lia. naive_solver.
Qed.

Lemma bytes_at_lookup m p bs :
  bytes_at m p bs <->
  forall i b, bs !! i = Some b -> m !! (p + Z.of_nat i) = Some b /\ in_u 8 b.
Proof.
  revert p. induction bs as [|b bs IH]; intros p; simpl; [naive_solver|]. rewrite IH. split.
  - intros (?&?&Hr) [|i] c Hi; simpl in Hi; [simplify_eq; by rewrite Z.add_0_r|].
    replace (p + Z.of_nat (S i)) with (p + 1 + Z.of_nat i) by lia. by apply Hr.
  - intros H. destruct (H 0%nat b eq_refl) as [H0 ?]. rewrite Z.add_0_r in H0. split_and!; [done..|].
    intros i c Hi. replace (p + 1 + Z.of_nat i) with (p + Z.of_nat (S i)) by lia. by apply H.
Qed.

Lemma bytes_at_mapped m p bs : bytes_at m p bs -> mapped m p (zlen bs).
Proof.
  intros Hb q Hq. destruct (lookup_lt_is_Some_2 bs (Z.to_nat (q - p))) as [b Hl]; [lia|].
  destruct (proj1 (bytes_at_lookup m p bs) Hb _ _ Hl) as [Hb' _].
  replace (p + Z.of_nat (Z.to_nat (q - p))) with q in Hb' by lia. eauto.
Qed.

(** What is at an address depends on the bytes there alone. *)
Lemma bytes_at_ext m m' p bs :
  (forall q, p <= q < p + zlen bs -> m' !! q = m !! q) -> bytes_at m p bs -> bytes_at m' p bs.
Proof.
  intros He Hb. rewrite bytes_at_lookup in *. intros i b Hi. rewrite He; [by apply Hb|].
  apply lookup_lt_Some in Hi. lia.
Qed.

Lemma str_bytes m p s : str_at m p s <-> bytes_at m p (s ++ [0]) /\ 0 ∉ s.
Proof.
  revert p. induction s as [|c s IH]; intros p; simpl.
  - split; [intros ?; split; [split_and!; [done|unfold in_u; lia|done]|set_solver]|naive_solver].
  - rewrite IH. unfold in_u. split.
    + intros (?&?&?&?). split_and!; [done|lia..|done|]. apply not_elem_of_cons. split; [lia|done].
    + intros ((?&?&?)&[? ?]%not_elem_of_cons). split_and!; (done || lia).
Qed.

Lemma str_at_app m p s1 s2 : str_at m p (s1 ++ s2) -> str_at m (p + zlen s1) s2.
Proof.
  revert p. induction s1 as [|c s1 IH]; intros p; simpl; [by rewrite Z.add_0_r|].
  intros (_&_&?%IH). by replace (p + Z.of_nat (S (length s1))) with (p + 1 + zlen s1) by lia.
Qed.

Lemma str_at_drop m p s k : str_at m p s -> (k <= length s)%nat -> str_at m (p + Z.of_nat k) (drop k s).
Proof.
  intros Hs Hk. rewrite <- (take_drop k s) in Hs. apply str_at_app in Hs. rewrite length_take in Hs.
  by replace (k `min` length s)%nat with k in Hs by lia.
Qed.

Lemma str_at_mapped m p s q : str_at m p s -> p <= q <= p + zlen s -> is_Some (m !! q).
Proof. intros [Hb%bytes_at_mapped _]%str_bytes ?. apply Hb. rewrite length_app. simpl. lia. Qed.

Lemma mapped_fuel m p n : mapped m p (Z.of_nat n) -> (n < fuel_of m)%nat.
Proof.
  intros Hm. unfold fuel_of. rewrite <- size_dom.
  assert (n = size (list_to_set (seqZ p (Z.of_nat n)) : gset Z)) as ->.
  { rewrite size_list_to_set by apply NoDup_seqZ. rewrite length_seqZ. lia. }
  apply Nat.lt_succ_r, subseteq_size. intros q. rewrite elem_of_list_to_set, elem_of_seqZ.
  intros ?. by apply elem_of_dom, Hm.
Qed.

Lemma str_at_fuel m p s : str_at m p s -> (S (length s) < fuel_of m)%nat.
Proof.
  intros [Hb _]%str_bytes. apply bytes_at_mapped in Hb. rewrite length_app in Hb.
  apply (mapped_fuel m p). by replace (S (length s)) with (length s + length [0%Z])%nat by (simpl; lia).
Qed.

Lemma str_at_inj m p s1 s2 : str_at m p s1 -> str_at m p s2 -> s1 = s2.
Proof.
  revert p s2. induction s1 as [|c s1 IH]; intros p [|c2 s2]; simpl; [done|naive_solver lia..|].
  intros (?&?&?) (?&?&?). simplify_eq. f_equal. by eapply IH.
Qed.

Lemma lookup_write m p bs q :
  write m p bs !! q =
    if decide (p <= q < p + zlen bs) then bs !! Z.to_nat (q - p) else m !! q.
Proof.
  revert m p. induction bs as [|b bs IH]; intros m p; simpl; [by rewrite decide_False by lia|].
  rewrite IH. destruct (decide (p = q)) as [->|Hne].
  - rewrite decide_False, lookup_insert_eq, decide_True by lia. by rewrite Z.sub_diag.
  - rewrite lookup_insert_ne by done. repeat case_decide; try lia; [|done].
    by replace (Z.to_nat (q - p)) with (S (Z.to_nat (q - (p + 1)))) by lia.
Qed.

Lemma write_snoc m p bs b : write m p (bs ++ [b]) = write (<[p + zlen bs := b]> m) p bs.
Proof.
  apply map_eq. intros q. rewrite !lookup_write, length_app. simpl. repeat case_decide; try lia.
  - by rewrite lookup_app_l by lia.
  - rewrite lookup_app_r by lia. replace q with (p + zlen bs) by lia.
    rewrite lookup_insert_eq. by replace (_ - _)%nat with 0%nat by lia.
  - by rewrite lookup_insert_ne by lia.
Qed.

Lemma write_bytes_at m p bs : Forall (in_u 8) bs -> bytes_at (write m p bs) p bs.
Proof.
  intros Hf. apply bytes_at_lookup. intros i b Hi. pose proof (lookup_lt_Some _ _ _ Hi).
  rewrite lookup_write, decide_True by lia. replace (Z.to_nat _) with i by lia.
  split; [done|]. by eapply Forall_lookup_1 in Hi.
Qed.

(** A block that a store does not reach is as before. *)
Lemma write_frame m p bs q bs' :
  p + zlen bs <= q \/ q + zlen bs' <= p -> bytes_at m q bs' -> bytes_at (write m p bs) q bs'.
Proof. intros ?. apply bytes_at_ext. intros x ?. rewrite lookup_write, decide_False by lia. done. Qed.

Lemma insert_frame m p b q bs :
  p < q \/ q + zlen bs <= p -> bytes_at m q bs -> bytes_at (<[p := b]> m) q bs.
Proof. intros ?. apply bytes_at_ext. intros x ?. by rewrite lookup_insert_ne by lia. Qed.

Lemma write_mapped m p bs q n : mapped m q n -> mapped (write m p bs) q n.
Proof.
  intros Hm x Hx. rewrite lookup_write. case_decide; [apply lookup_lt_is_Some_2; lia|by apply Hm].
Qed.

Lemma write_app m p bs1 bs2 : write m p (bs1 ++ bs2) = write (write m p bs1) (p + zlen bs1) bs2.
Proof.
  revert m p. induction bs1 as [|b bs1 IH]; intros m p; simpl; [by rewrite Z.add_0_r|].
  rewrite IH. f_equal. lia.
Qed.

Lemma bytes_at_in_u m p bs : bytes_at m p bs -> Forall (in_u 8) bs.
Proof. revert p. induction bs; intros p; simpl; [constructor|]. intros (?&?&?). constructor; eauto. Qed.

Lemma mem_ok_lookup m p : mem_ok m -> is_Some (m !! p) -> 0 < p < 2 ^ 32.
Proof. intros Hm [b Hb]. by apply (Hm _ _ Hb). Qed.

Lemma mem_ok_str m p s : mem_ok m -> str_at m p s -> 0 < p /\ p + zlen s < 2 ^ 32.
Proof.
  intros Hm Hs. split.
  - apply (mem_ok_lookup m); [done|]. destruct s; simpl in Hs; naive_solver.
  - rewrite <- (app_nil_r s) in Hs. apply str_at_app in Hs. simpl in Hs.
    by apply (mem_ok_lookup m); [|exists 0].
Qed.

Lemma mem_ok_insert m p b : mem_ok m -> is_Some (m !! p) -> mem_ok (<[p := b]> m).
Proof. intros Hm Hp. apply map_Forall_insert_2; [by eapply mem_ok_lookup|done]. Qed.

Lemma str_at_ext m m' p s :
  (forall q, p <= q <= p + zlen s -> m' !! q = m !! q) -> str_at m p s -> str_at m' p s.
Proof.
  rewrite !str_bytes. intros He [? ?]. split; [|done]. eapply bytes_at_ext; [|done].
  intros q. rewrite length_app. simpl. intros ?. apply He. lia.
Qed.
End facts.

End Mem.
