(* ===== verification/Bitmap.v ===== *)
(** * Bitmaps: lib/kernel/bitmap.c

    A bitmap is an array of 32-bit words ([elem_type] is [unsigned long] on
    the i386) with a bit count.  The operations work on words with masks, as
    the code does; [bit] reads a bitmap as the array of bits it stands for,
    and the theorems state every operation on that array. *)

From S2P Require Import Prelude.
Local Open Scope Z_scope.

Module Bitmap.

(** ** The code *)

Definition ELEM_BITS : Z := 32.
Definition BITMAP_ERROR : Z := UINT_MAX.

Record bitmap := Bm { bit_cnt : Z; bits : list Z }.

Definition elem_idx (bit_idx : Z) : Z := bit_idx / ELEM_BITS.
Definition bit_mask (bit_idx : Z) : Z := u32 (Z.shiftl 1 (bit_idx mod ELEM_BITS)).
Definition elem_cnt (bit_cnt : Z) : Z := u32 (bit_cnt + ELEM_BITS - 1) / ELEM_BITS.
Definition byte_cnt (bit_cnt : Z) : Z := u32 (4 * elem_cnt bit_cnt).
Definition last_mask (b : bitmap) : Z :=
  let last_bits := bit_cnt b mod ELEM_BITS in
  if negb (last_bits =? 0) then u32 (Z.shiftl 1 last_bits - 1) else u32 (-1).

(** [b->bits[idx]], with a fault outside the array. *)
Definition word (idx : Z) : M bitmap Z :=
  fun b => match bits b !! Z.to_nat idx with Some w => Ok (w, b) | None => Err EFault end.
Definition set_word (idx w : Z) : M bitmap unit :=
  do! word idx in modify (fun b => Bm (bit_cnt b) (<[Z.to_nat idx := w]> (bits b))).

Definition bitmap_size : M bitmap Z := gets bit_cnt.

Definition bitmap_mark (bit_idx : Z) : M bitmap unit :=
  let idx := elem_idx bit_idx in
  let mask := bit_mask bit_idx in
  let! w := word idx in set_word idx (Z.lor w mask).

Definition bitmap_reset (bit_idx : Z) : M bitmap unit :=
  let idx := elem_idx bit_idx in
  let mask := bit_mask bit_idx in
  let! w := word idx in set_word idx (Z.land w (u32 (Z.lnot mask))).

Definition bitmap_flip (bit_idx : Z) : M bitmap unit :=
  let idx := elem_idx bit_idx in
  let mask := bit_mask bit_idx in
  let! w := word idx in set_word idx (Z.lxor w mask).

Definition bitmap_set (idx : Z) (value : bool) : M bitmap unit :=
  let! n := gets bit_cnt in
  do! assert (idx <? n) in
  if value then bitmap_mark idx else bitmap_reset idx.

Definition bitmap_test (idx : Z) : M bitmap bool :=
  let! n := gets bit_cnt in
  do! assert (idx <? n) in
  let! w := word (elem_idx idx) in
  ret (negb (Z.land w (bit_mask idx) =? 0)).

Definition bitmap_set_multiple (start cnt : Z) (value : bool) : M bitmap unit :=
  let! n := gets bit_cnt in
  do! assert (start <=? n) in
  do! assert (u32 (start + cnt) <=? n) in
  for_ (Z.to_nat cnt) 0 (fun i => bitmap_set (u32 (start + i)) value).

Definition bitmap_set_all (value : bool) : M bitmap unit :=
  let! n := bitmap_size in bitmap_set_multiple 0 n value.

(** The loop of [bitmap_count], [n] iterations from [i] on. *)
Fixpoint count_loop (n : nat) (start i value_cnt : Z) (value : bool) : M bitmap Z :=
  match n with
  | O => ret value_cnt
  | S n' =>
      let! t := bitmap_test (u32 (start + i)) in
      count_loop n' start (i + 1) (if Bool.eqb t value then u32 (value_cnt + 1) else value_cnt) value
  end.

Definition bitmap_count (start cnt : Z) (value : bool) : M bitmap Z :=
  let! n := gets bit_cnt in
  do! assert (start <=? n) in
  do! assert (u32 (start + cnt) <=? n) in
  count_loop (Z.to_nat cnt) start 0 0 value.

Fixpoint contains_loop (n : nat) (start i : Z) (value : bool) : M bitmap bool :=
  match n with
  | O => ret false
  | S n' =>
      let! t := bitmap_test (u32 (start + i)) in
      if Bool.eqb t value then ret true else contains_loop n' start (i + 1) value
  end.

Definition bitmap_contains (start cnt : Z) (value : bool) : M bitmap bool :=
  let! n := gets bit_cnt in
  do! assert (start <=? n) in
  do! assert (u32 (start + cnt) <=? n) in
  contains_loop (Z.to_nat cnt) start 0 value.

Definition bitmap_any (start cnt : Z) : M bitmap bool := bitmap_contains start cnt true.
Definition bitmap_none (start cnt : Z) : M bitmap bool :=
  let! r := bitmap_contains start cnt true in ret (negb r).
Definition bitmap_all (start cnt : Z) : M bitmap bool :=
  let! r := bitmap_contains start cnt false in ret (negb r).

(** The loop of [bitmap_scan]: [i] counts up to [last] and wraps around. *)
Fixpoint scan_loop (fuel : nat) (i last cnt : Z) (value : bool) : M bitmap Z :=
  match fuel with
  | O => fail EFuel
  | S f =>
      if i <=? last then
        let! c := bitmap_contains i cnt (negb value) in
        if negb c then ret i else scan_loop f (u32 (i + 1)) last cnt value
      else ret BITMAP_ERROR
  end.

Definition bitmap_scan (start cnt : Z) (value : bool) : M bitmap Z :=
  let! n := gets bit_cnt in
  do! assert (start <=? n) in
  if cnt <=? n then
    let last := u32 (n - cnt) in
    scan_loop (S (S (Z.to_nat n))) start last cnt value
  else ret BITMAP_ERROR.

Definition bitmap_scan_and_flip (start cnt : Z) (value : bool) : M bitmap Z :=
  let! idx := bitmap_scan start cnt value in
  do! (if negb (idx =? BITMAP_ERROR) then bitmap_set_multiple idx cnt (negb value) else ret tt) in
  ret idx.

(** [bitmap_create]: [storage n] is what [malloc] returns for the array of
    [n] bytes (its words hold whatever was there), [b_ok] whether the
    [struct bitmap] itself could be allocated. *)
Definition bitmap_create (b_ok : bool) (storage : Z -> option (list Z)) (bit_cnt : Z) : res (option bitmap) :=
  if b_ok then
    match storage (byte_cnt bit_cnt) with
    | Some ws =>
        match bitmap_set_all false (Bm bit_cnt ws) with Ok (_, b) => Ok (Some b) | Err e => Err e end
    | None =>
        if bit_cnt =? 0 then
          match bitmap_set_all false (Bm bit_cnt []) with Ok (_, b) => Ok (Some b) | Err e => Err e end
        else Ok None
    end
  else Ok None.

(** sizeof (struct bitmap) is 8. *)
Definition bitmap_buf_size (bit_cnt : Z) : Z := u32 (8 + byte_cnt bit_cnt).

(** [bitmap_create_in_buf]: [ws] are the words of the block after the
    [struct bitmap] at its start. *)
Definition bitmap_create_in_buf (bit_cnt : Z) (ws : list Z) (block_size : Z) : res bitmap :=
  if bitmap_buf_size bit_cnt <=? block_size then
    match bitmap_set_all false (Bm bit_cnt ws) with Ok (_, b) => Ok b | Err e => Err e end
  else Err EPanic.

Definition bitmap_file_size (b : bitmap) : Z := byte_cnt (bit_cnt b).

(** ** The bits a bitmap stands for *)

Definition bit (b : bitmap) (i : Z) : bool :=
  match bits b !! Z.to_nat (i / 32) with Some w => Z.testbit w (i mod 32) | None => false end.

Record wf (b : bitmap) : Prop := Wf {
  wf_cnt : 0 <= bit_cnt b <= 2 ^ 32 - 32;
  wf_len : Z.of_nat (length (bits b)) = elem_cnt (bit_cnt b);
  wf_words : Forall (in_u 32) (bits b) }.

(** [cnt] bits from [i] on all have the value [v]. *)
Definition group (b : bitmap) (v : bool) (i cnt : Z) : Prop :=
  forall j, i <= j < i + cnt -> bit b j = v.

(** ** Words and bits *)

Section facts.
Implicit Types (b : bitmap) (i j n w : Z) (v : bool).

Lemma wf_lookup b i : wf b -> 0 <= i < bit_cnt b -> exists w, bits b !! Z.to_nat (i / 32) = Some w /\ in_u 32 w.
Proof.
  intros [Hc Hl Hw] Hi. destruct (lookup_lt_is_Some_2 (bits b) (Z.to_nat (i / 32))) as [w Hk].
  { unfold elem_cnt, ELEM_BITS in Hl. rewrite wrapu_small in Hl by (unfold in_u; lia). zlia. }
  exists w. split; [done|]. by eapply Forall_lookup_1 in Hk.
Qed.

Lemma bit_mask_eq i : 0 <= i -> bit_mask i = 2 ^ (i mod 32).
Proof.
  intros. unfold bit_mask, ELEM_BITS. pose proof (Z.mod_pos_bound i 32 ltac:(lia)).
  rewrite Z.shiftl_1_l. apply wrapu_small. split; [lia|]. apply Z.pow_lt_mono_r; lia.
Qed.

Lemma test_mask w i : 0 <= i -> negb (Z.land w (bit_mask i) =? 0) = Z.testbit w (i mod 32).
Proof.
  intros Hi. rewrite bit_mask_eq by done. pose proof (Z.mod_pos_bound i 32 ltac:(lia)).
  destruct (Z.testbit w (i mod 32)) eqn:E.
  - apply negb_true_iff, Z.eqb_neq. intros Hz. apply (f_equal (fun z => Z.testbit z (i mod 32))) in Hz.
    rewrite Z.land_spec, E, Z.pow2_bits_true, Z.bits_0 in Hz by lia. done.
  - apply negb_false_iff, Z.eqb_eq, Z.bits_inj'. intros k Hk. rewrite Z.land_spec, Z.bits_0.
    destruct (decide (k = i mod 32)) as [->|]; [by rewrite E|].
    rewrite Z.pow2_bits_false by lia. apply andb_false_r.
Qed.

Lemma in_u_bits w : (0 <= w /\ forall k, 32 <= k -> Z.testbit w k = false) <-> in_u 32 w.
Proof.
  unfold in_u. split.
  - intros [H0 Hk]. split; [done|]. destruct (Z.eq_dec w 0) as [->|]; [lia|].
    apply Z.log2_lt_pow2; [lia|]. apply Z.nle_gt. intros Hl.
    specialize (Hk _ Hl). rewrite Z.bit_log2 in Hk by lia. done.
  - intros H. split; [lia|]. intros k Hk. rewrite <- (Z.mod_small w (2 ^ 32)) by lia.
    by apply Z.mod_pow2_bits_high.
Qed.

(** What a word operation does to the bits: it changes bit [i] to [f] of it. *)
Lemma wp_word_op b i (g : Z -> Z) (f : bool -> bool) :
  wf b -> 0 <= i < bit_cnt b ->
  (forall w, in_u 32 w -> in_u 32 (g w)) ->
  (forall w k, in_u 32 w -> 0 <= k < 32 ->
     Z.testbit (g w) k = if k =? i mod 32 then f (Z.testbit w k) else Z.testbit w k) ->
  wp (let! w := word (elem_idx i) in set_word (elem_idx i) (g w))
    (fun _ b' => wf b' /\ bit_cnt b' = bit_cnt b /\
       forall j, 0 <= j -> bit b' j = if j =? i then f (bit b i) else bit b j) b.
Proof.
  intros Hwf Hi Hg Hf. destruct (wf_lookup b i Hwf Hi) as (w&Hw&Hin).
  unfold wp, bind, set_word, word, elem_idx, ELEM_BITS, bind. rewrite !Hw. cbn.
  split_and!; [|done|].
  - destruct Hwf as [Hc Hl Hws]. split; cbn; [done|by rewrite length_insert|].
    apply Forall_insert; auto.
  - intros j Hj. unfold bit. cbn. destruct (Z.eqb_spec j i) as [->|Hne].
    + rewrite list_lookup_insert_eq, Hw by (by eapply lookup_lt_Some).
      rewrite Hf, Z.eqb_refl by (done || apply Z.mod_pos_bound; lia). done.
    + destruct (decide (j / 32 = i / 32)) as [E|E].
      * rewrite E, list_lookup_insert_eq, Hw by (by eapply lookup_lt_Some).
        rewrite Hf by (done || apply Z.mod_pos_bound; lia).
        destruct (Z.eqb_spec (j mod 32) (i mod 32)); [zlia|done].
      * rewrite list_lookup_insert_ne; [done|]. zlia.
Qed.

(** What a bitmap holds after bit [i] was set to [v]; the count is kept. *)
Definition bit_set b i v b' : Prop :=
  wf b' /\ bit_cnt b' = bit_cnt b /\ forall j, 0 <= j -> bit b' j = if j =? i then v else bit b j.

Lemma wp_bitmap_mark b i : wf b -> 0 <= i < bit_cnt b -> wp (bitmap_mark i) (fun _ => bit_set b i true) b.
Proof.
  intros Hwf Hi. unfold bitmap_mark.
  pose proof (Z.mod_pos_bound i 32 ltac:(lia)).
  apply (wp_word_op b i (fun w => Z.lor w (bit_mask i)) (fun _ => true) Hwf Hi).
  - intros w Hw. rewrite bit_mask_eq by lia. apply in_u_bits in Hw as [H0 Hk]. apply in_u_bits.
    split; [apply Z.lor_nonneg; lia|]. intros k ?.
    by rewrite Z.lor_spec, Hk, Z.pow2_bits_false by lia.
  - intros w k _ Hk. rewrite bit_mask_eq, Z.lor_spec, Z.pow2_bits_eqb by lia.
    rewrite Z.eqb_sym. destruct (k =? i mod 32); [apply orb_true_r|apply orb_false_r].
Qed.

Lemma wp_bitmap_reset b i : wf b -> 0 <= i < bit_cnt b -> wp (bitmap_reset i) (fun _ => bit_set b i false) b.
Proof.
  intros Hwf Hi. unfold bitmap_reset.
  pose proof (Z.mod_pos_bound i 32 ltac:(lia)).
  apply (wp_word_op b i (fun w => Z.land w (u32 (Z.lnot (bit_mask i)))) (fun _ => false) Hwf Hi).
  - intros w Hw. apply in_u_bits in Hw as [H0 Hk]. apply in_u_bits.
    split; [apply Z.land_nonneg; lia|]. intros k ?. by rewrite Z.land_spec, Hk by lia.
  - intros w k _ Hk. unfold wrapu.
    rewrite Z.land_spec, Z.mod_pow2_bits_low, Z.lnot_spec, bit_mask_eq, Z.pow2_bits_eqb by lia.
    rewrite Z.eqb_sym. destruct (k =? i mod 32); [apply andb_false_r|apply andb_true_r].
Qed.

Lemma wp_bitmap_flip b i :
  wf b -> 0 <= i < bit_cnt b -> wp (bitmap_flip i) (fun _ => bit_set b i (negb (bit b i))) b.
Proof.
  intros Hwf Hi. unfold bitmap_flip.
  pose proof (Z.mod_pos_bound i 32 ltac:(lia)).
  apply (wp_word_op b i (fun w => Z.lxor w (bit_mask i)) negb Hwf Hi).
  - intros w Hw. rewrite bit_mask_eq by lia. apply in_u_bits in Hw as [H0 Hk]. apply in_u_bits.
    split; [apply Z.lxor_nonneg; lia|]. intros k ?.
    by rewrite Z.lxor_spec, Hk, Z.pow2_bits_false by lia.
  - intros w k _ Hk. rewrite bit_mask_eq, Z.lxor_spec, Z.pow2_bits_eqb by lia.
    rewrite Z.eqb_sym. by destruct (Z.testbit w k), (k =? i mod 32).
Qed.

Lemma wp_bitmap_set b i v : wf b -> 0 <= i < bit_cnt b -> wp (bitmap_set i v) (fun _ => bit_set b i v) b.
Proof.
  intros Hwf Hi. unfold bitmap_set. wp_go; [lia|].
  destruct v; [by apply wp_bitmap_mark|by apply wp_bitmap_reset].
Qed.

Lemma bitmap_test_eq b i : wf b -> 0 <= i < bit_cnt b -> bitmap_test i b = Ok (bit b i, b).
Proof.
  intros Hwf Hi. destruct (wf_lookup b i Hwf Hi) as (w&Hw&_).
  unfold bitmap_test, bind, gets, assert, word, elem_idx, ELEM_BITS, bit.
  rewrite (proj2 (Z.ltb_lt _ _)) by lia. cbn. rewrite Hw. unfold ret.
  by rewrite test_mask by lia.
Qed.

(** The checks at the start of the operations on groups of bits pass. *)
Lemma group_checks {A} b start cnt (k : M bitmap A) :
  0 <= start -> 0 <= cnt -> start + cnt <= bit_cnt b -> wf b ->
  (let! n := gets bit_cnt in do! assert (start <=? n) in do! assert (u32 (start + cnt) <=? n) in k) b = k b.
Proof.
  intros ??? [Hc _ _]. unfold bind, gets, assert.
  rewrite wrapu_small by (unfold in_u; lia). by rewrite !(proj2 (Z.leb_le _ _)) by lia.
Qed.

(** The bits in [start, start + cnt) are [v], the others as before. *)
Definition group_set b start cnt v b' : Prop :=
  wf b' /\ bit_cnt b' = bit_cnt b /\
  forall j, 0 <= j -> bit b' j = if (start <=? j) && (j <? start + cnt) then v else bit b j.

Lemma wp_bitmap_set_multiple b start cnt v :
  wf b -> 0 <= start -> 0 <= cnt -> start + cnt <= bit_cnt b ->
  wp (bitmap_set_multiple start cnt v) (fun _ => group_set b start cnt v) b.
Proof.
  intros Hwf ???. pose proof (wf_cnt _ Hwf). unfold wp, bitmap_set_multiple. rewrite group_checks by done.
  change (wp (for_ (Z.to_nat cnt) 0 (fun i => bitmap_set (u32 (start + i)) v)) (fun _ => group_set b start cnt v) b).
  eapply wp_mono; [apply (wp_for (fun i b' => group_set b start i v b'))|].
  - intros i b' Hi (Hwf'&Hc'&Hb'). rewrite wrapu_small by (unfold in_u; lia).
    eapply wp_mono; [apply wp_bitmap_set; [done|lia]|]. intros _ b2 (Hwf2&Hc2&Hb2).
    split_and!; [done|lia|]. intros j Hj. rewrite Hb2, Hb' by lia.
    destruct (Z.eqb_spec j (start + i)), (Z.leb_spec start j), (Z.ltb_spec j (start + i)),
      (Z.ltb_spec j (start + (i + 1))); cbn; (done || lia).
  - split_and!; [done|done|]. intros j _. destruct (Z.leb_spec start j), (Z.ltb_spec j (start + 0)); cbn; (done || lia).
  - intros [] b'. by rewrite Z.add_0_l, Z2Nat.id by lia.
Qed.

(** How many of the [n] bits from [i] on have the value [v]. *)
Definition bits_equal b v i n : Z :=
  Z.of_nat (length (filter (fun j => bit b j = v) (seqZ i n))).

Lemma bits_equal_cons b v i n :
  0 < n -> bits_equal b v i n = (if Bool.eqb (bit b i) v then 1 else 0) + bits_equal b v (i + 1) (n - 1).
Proof.
  intros Hn. unfold bits_equal. rewrite seqZ_cons by done. rewrite filter_cons.
  replace (Z.succ i) with (i + 1) by lia. replace (Z.pred n) with (n - 1) by lia.
  destruct (Bool.eqb_spec (bit b i) v); [rewrite decide_True by done|rewrite decide_False by done];
    rewrite ?length_cons; lia.
Qed.

Lemma bits_equal_bound b v i n : 0 <= n -> 0 <= bits_equal b v i n <= n.
Proof.
  intros. unfold bits_equal.
  pose proof (length_filter (fun j => bit b j = v) (seqZ i n)). rewrite length_seqZ in *. lia.
Qed.

Lemma count_loop_eq b (n : nat) start i c v :
  wf b -> 0 <= start -> 0 <= i -> start + i + Z.of_nat n <= bit_cnt b -> 0 <= c <= i ->
  count_loop n start i c v b = Ok (c + bits_equal b v (start + i) (Z.of_nat n), b).
Proof.
  intros Hwf. pose proof (wf_cnt _ Hwf). revert i c. induction n as [|n IH]; intros i c ? ? ? ?.
  { cbn. unfold bits_equal. cbn. rewrite Z.add_0_r. done. }
  cbn [count_loop]. rewrite wrapu_small by (unfold in_u; lia).
  rewrite (bind_ok _ _ _ _ _ (bitmap_test_eq b (start + i) Hwf ltac:(lia))).
  rewrite bits_equal_cons by lia. replace (Z.of_nat (S n) - 1) with (Z.of_nat n) by lia.
  replace (start + i + 1) with (start + (i + 1)) by lia.
  destruct (Bool.eqb (bit b (start + i)) v); [rewrite wrapu_small by (unfold in_u; lia)|];
    rewrite IH by lia; do 2 f_equal; lia.
Qed.

Lemma bitmap_count_eq b start cnt v :
  wf b -> 0 <= start -> 0 <= cnt -> start + cnt <= bit_cnt b ->
  bitmap_count start cnt v b = Ok (bits_equal b v start cnt, b).
Proof.
  intros Hwf ???. unfold bitmap_count. rewrite group_checks by done.
  rewrite count_loop_eq by (done || lia). by rewrite Z.add_0_r, Z2Nat.id by lia.
Qed.

Lemma contains_loop_eq b (n : nat) start i v :
  wf b -> 0 <= start -> 0 <= i -> start + i + Z.of_nat n <= bit_cnt b ->
  exists r, contains_loop n start i v b = Ok (r, b) /\
    (if r then exists j, start + i <= j < start + i + Z.of_nat n /\ bit b j = v
     else group b (negb v) (start + i) (Z.of_nat n)).
Proof.
  intros Hwf. pose proof (wf_cnt _ Hwf). revert i. induction n as [|n IH]; intros i ? ? ?.
  { exists false. split; [done|]. intros j ?. lia. }
  cbn [contains_loop]. rewrite wrapu_small by (unfold in_u; lia).
  rewrite (bind_ok _ _ _ _ _ (bitmap_test_eq b (start + i) Hwf ltac:(lia))).
  destruct (Bool.eqb_spec (bit b (start + i)) v) as [E|E].
  { exists true. split; [done|]. exists (start + i). split; [lia|done]. }
  destruct (IH (i + 1)) as (r&->&Hr); [lia..|]. exists r. split; [done|]. destruct r.
  - destruct Hr as (j&?&?). exists j. split; [lia|done].
  - intros j Hj. destruct (decide (j = start + i)) as [->|].
    + by destruct (bit b (start + i)), v.
    + apply Hr. lia.
Qed.

Lemma bitmap_contains_eq b start cnt v :
  wf b -> 0 <= start -> 0 <= cnt -> start + cnt <= bit_cnt b ->
  exists r, bitmap_contains start cnt v b = Ok (r, b) /\
    (if r then exists j, start <= j < start + cnt /\ bit b j = v else group b (negb v) start cnt).
Proof.
  intros Hwf ???. unfold bitmap_contains. rewrite group_checks by done.
  destruct (contains_loop_eq b (Z.to_nat cnt) start 0 v Hwf) as (r&->&Hr); [lia..|].
  rewrite Z.add_0_r, Z2Nat.id in Hr by lia. eauto.
Qed.

(** [i] is where a scan from [start] for [cnt] bits equal to [v] ends. *)
Definition scan_result b start cnt v i : Prop :=
  (start <= i /\ i + cnt <= bit_cnt b /\ group b v i cnt /\
     forall k, start <= k < i -> ~ group b v k cnt)
  \/ (i = BITMAP_ERROR /\ forall k, start <= k -> k + cnt <= bit_cnt b -> ~ group b v k cnt).

Lemma scan_loop_eq b fuel start i cnt v :
  wf b -> 0 <= start <= i -> 0 <= cnt <= bit_cnt b ->
  (bit_cnt b - cnt - i + 1 < Z.of_nat fuel) -> (0 < fuel)%nat ->
  (forall k, start <= k < i -> ~ group b v k cnt) ->
  exists r, scan_loop fuel i (bit_cnt b - cnt) cnt v b = Ok (r, b) /\ scan_result b start cnt v r.
Proof.
  intros Hwf. pose proof (wf_cnt _ Hwf). revert i. induction fuel as [|fuel IH]; intros i ? ? ? ? Hno; [lia|].
  cbn [scan_loop]. destruct (Z.leb_spec i (bit_cnt b - cnt)).
  - destruct (bitmap_contains_eq b i cnt (negb v) Hwf) as (r&Hr&Hres); [lia..|].
    rewrite (bind_ok _ _ _ _ _ Hr). destruct r; cbn [negb].
    + rewrite wrapu_small by (unfold in_u; lia). apply IH; [lia..|].
      intros k Hk. destruct (decide (k = i)) as [->|]; [|apply Hno; lia].
      destruct Hres as (j&Hj&Hb). intros Hg. rewrite Hg in Hb by done. by destruct v.
    + rewrite negb_involutive in Hres. exists i. split; [done|]. left. split_and!; [lia..|done|done].
  - exists BITMAP_ERROR. split; [done|]. right. split; [done|]. intros k ? ?. apply Hno. lia.
Qed.

Lemma bitmap_scan_eq b start cnt v :
  wf b -> 0 <= start <= bit_cnt b -> 0 <= cnt ->
  exists i, bitmap_scan start cnt v b = Ok (i, b) /\ scan_result b start cnt v i.
Proof.
  intros Hwf ??. pose proof (wf_cnt _ Hwf). unfold bitmap_scan, bind, gets, assert.
  rewrite (proj2 (Z.leb_le _ _)) by lia. cbn [fst snd]. destruct (Z.leb_spec cnt (bit_cnt b)).
  - rewrite (wrapu_small _ (bit_cnt b - cnt)) by (unfold in_u; lia).
    apply scan_loop_eq; done || lia.
  - exists BITMAP_ERROR. split; [done|]. right. split; [done|]. lia.
Qed.
Lemma scan_and_flip_eq b start cnt value :
  wf b -> 0 <= start <= bit_cnt b -> 0 <= cnt ->
  exists idx b', bitmap_scan_and_flip start cnt value b = Ok (idx, b') /\
    ((idx <> BITMAP_ERROR /\ start <= idx /\ idx + cnt <= bit_cnt b /\ group b value idx cnt /\
        (forall k, start <= k < idx -> ~ group b value k cnt) /\ group_set b idx cnt (negb value) b')
     \/ (idx = BITMAP_ERROR /\ b' = b /\
         forall k, start <= k -> k + cnt <= bit_cnt b -> ~ group b value k cnt)).
Proof.
  intros Hwf ??. pose proof (wf_cnt _ Hwf).
  destruct (bitmap_scan_eq b start cnt value) as (i&Hs&Hr); [done..|].
  unfold bitmap_scan_and_flip. rewrite (bind_ok _ _ _ _ _ Hs). destruct Hr as [(?&?&Hg&Hno)|[-> Hno]].
  - assert (i <> BITMAP_ERROR) as Hne by (unfold BITMAP_ERROR; lia). rewrite (proj2 (Z.eqb_neq _ _) Hne).
    destruct (proj1 (wp_ok _ _ _) (wp_bitmap_set_multiple b i cnt (negb value) Hwf ltac:(lia) ltac:(lia) ltac:(lia)))
      as ([]&b'&He&Hset).
    cbn [negb]. rewrite (bind_ok _ _ _ _ _ He). exists i, b'. split; [done|]. left. split_and!; done.
  - rewrite Z.eqb_refl. exists BITMAP_ERROR, b. split; [done|]. by right.
Qed.
End facts.

(** ** The properties *)

(** C27. For [cnt] above zero, [bitmap_scan_and_flip] finds the first group of
    [cnt] bits equal to [value] at or after [start] and flips exactly those
    bits; when there is no such group it returns [BITMAP_ERROR] and changes
    nothing.  (For zero the comment and the code differ, see
    [scan_and_flip_zero].) *)
Theorem bitmap_scan_and_flip_correct b start cnt value :
  wf b -> 0 <= start <= bit_cnt b -> 0 < cnt ->
  exists idx b', bitmap_scan_and_flip start cnt value b = Ok (idx, b') /\
    ((idx <> BITMAP_ERROR /\ start <= idx /\ idx + cnt <= bit_cnt b /\ group b value idx cnt /\
        (forall k, start <= k < idx -> ~ group b value k cnt) /\ group_set b idx cnt (negb value) b')
     \/ (idx = BITMAP_ERROR /\ b' = b /\
         forall k, start <= k -> k + cnt <= bit_cnt b -> ~ group b value k cnt)).
Proof. intros ???. apply scan_and_flip_eq; [done|done|lia]. Qed.

(** Setting, marking, resetting and flipping a bit, or setting a group of
    bits, changes exactly the bits named, and keeps the bitmap well formed. *)
Theorem bitmap_update_correct b i cnt v :
  wf b -> 0 <= i < bit_cnt b -> 0 <= cnt -> i + cnt <= bit_cnt b ->
  wp (bitmap_set i v) (fun _ => bit_set b i v) b /\
  wp (bitmap_mark i) (fun _ => bit_set b i true) b /\
  wp (bitmap_reset i) (fun _ => bit_set b i false) b /\
  wp (bitmap_flip i) (fun _ => bit_set b i (negb (bit b i))) b /\
  wp (bitmap_set_multiple i cnt v) (fun _ => group_set b i cnt v) b /\
  wp (bitmap_set_all v) (fun _ => group_set b 0 (bit_cnt b) v) b.
Proof.
  intros. split_and!; [by apply wp_bitmap_set|by apply wp_bitmap_mark|by apply wp_bitmap_reset
    |by apply wp_bitmap_flip|apply wp_bitmap_set_multiple; (done || lia)|].
  unfold bitmap_set_all, bitmap_size. wp_go. apply wp_bitmap_set_multiple; (done || lia).
Qed.

(** The queries: testing a bit, counting the bits of a group with a value,
    and whether any, none or all bits of a group are set. *)
Theorem bitmap_query_correct b start cnt v :
  wf b -> 0 <= start -> 0 <= cnt -> start + cnt <= bit_cnt b ->
  (forall i, 0 <= i < bit_cnt b -> bitmap_test i b = Ok (bit b i, b)) /\
  bitmap_count start cnt v b = Ok (bits_equal b v start cnt, b) /\
  (exists r, bitmap_any start cnt b = Ok (r, b) /\ (r = true <-> ~ group b false start cnt)) /\
  (exists r, bitmap_none start cnt b = Ok (r, b) /\ (r = true <-> group b false start cnt)) /\
  (exists r, bitmap_all start cnt b = Ok (r, b) /\ (r = true <-> group b true start cnt)).
Proof.
  intros Hwf ???. split_and!; [by intros; apply bitmap_test_eq|by apply bitmap_count_eq|..].
  all: unfold bitmap_any, bitmap_none, bitmap_all.
  - destruct (bitmap_contains_eq b start cnt true) as ([]&->&Hr); [done..| |]; eexists; split; try done.
    split; [|done]. intros _ Hg. destruct Hr as (j&?&?). rewrite Hg in * by done. done.
  - destruct (bitmap_contains_eq b start cnt true) as ([]&He&Hr); [done..| |];
      rewrite (bind_ok _ _ _ _ _ He); eexists; split; try done.
    split; [done|]. intros Hg. destruct Hr as (j&?&?). rewrite Hg in * by done. done.
  - destruct (bitmap_contains_eq b start cnt false) as ([]&He&Hr); [done..| |];
      rewrite (bind_ok _ _ _ _ _ He); eexists; split; try done.
    split; [done|]. intros Hg. destruct Hr as (j&?&?). rewrite Hg in * by done. done.
Qed.

(** The comment of [bitmap_scan_and_flip] says that it returns 0 when [cnt]
    is zero; the code returns [start]. *)
Lemma scan_and_flip_zero : exists b, wf b /\ bitmap_scan_and_flip 5 0 true b = Ok (5, b).
Proof.
  exists (Bm 40 [0; 0]). split; [|reflexivity]. split; cbn; [lia|reflexivity|].
  repeat constructor; unfold in_u; lia.
Qed.

(** ** Witnesses *)

(** 40 bits in two words: bits 0, 2, 33 and 34 are set. *)
Definition demo_bitmap : bitmap := Bm 40 [5; 6].

Lemma demo_bitmap_wf : wf demo_bitmap.
Proof. split; cbn; [lia|reflexivity|repeat constructor; unfold in_u; lia]. Qed.

Lemma bitmap_scan_and_flip_correct_witness :
  exists idx b', bitmap_scan_and_flip 1 30 false demo_bitmap = Ok (idx, b') /\
    ((idx <> BITMAP_ERROR /\ 1 <= idx /\ idx + 30 <= 40 /\ group demo_bitmap false idx 30 /\
        (forall k, 1 <= k < idx -> ~ group demo_bitmap false k 30) /\ group_set demo_bitmap idx 30 true b')
     \/ (idx = BITMAP_ERROR /\ b' = demo_bitmap /\
         forall k, 1 <= k -> k + 30 <= 40 -> ~ group demo_bitmap false k 30)).
Proof. apply (bitmap_scan_and_flip_correct demo_bitmap 1 30 false demo_bitmap_wf); cbn; lia. Defined.

Lemma bitmap_update_correct_witness :
  wp (bitmap_set 33 false) (fun _ => bit_set demo_bitmap 33 false) demo_bitmap.
Proof. exact (proj1 (bitmap_update_correct demo_bitmap 33 2 false demo_bitmap_wf ltac:(cbn; lia) ltac:(lia) ltac:(cbn; lia))). Defined.

Lemma bitmap_query_correct_witness : bitmap_count 1 39 true demo_bitmap = Ok (bits_equal demo_bitmap true 1 39, demo_bitmap).
Proof. exact (proj1 (proj2 (bitmap_query_correct demo_bitmap 1 39 true demo_bitmap_wf ltac:(lia) ltac:(lia) ltac:(cbn; lia)))). Defined.

End Bitmap.
