(* ===== verification/CString.v ===== *)
(** * Memory and string routines: lib/string.c

    Every routine of string.c, on the byte memory of [Mem].  Loops over a
    [size_t] count down that count; loops that run to the end of a string have
    the number of mapped bytes as fuel, which the theorems show to be enough. *)

From S2P Require Import Prelude.
From S2P Require Import Mem.
Import Mem.
Local Open Scope Z_scope.

Module CString.

(** ** The code *)

(** [while (size-- > 0) *dst++ = *src++;], the final [dst]. *)
Fixpoint copy_up (size : nat) (dst src : ptr) : M mem ptr :=
  match size with
  | O => ret dst
  | S n => let! b := load src in do! store dst b in copy_up n (dst + 1) (src + 1)
  end.

(** [while (size-- > 0) *--dst = *--src;], the final [dst]. *)
Fixpoint copy_down (size : nat) (dst src : ptr) : M mem ptr :=
  match size with
  | O => ret dst
  | S n => let! b := load (src - 1) in do! store (dst - 1) b in copy_down n (dst - 1) (src - 1)
  end.

Definition memcpy (dst_ src_ : ptr) (size : Z) : M mem ptr :=
  do! assert (negb (dst_ =? NULL) || (size =? 0)) in
  do! assert (negb (src_ =? NULL) || (size =? 0)) in
  do! copy_up (Z.to_nat size) dst_ src_ in
  ret dst_.

Definition memmove (dst_ src_ : ptr) (size : Z) : M mem ptr :=
  do! assert (negb (dst_ =? NULL) || (size =? 0)) in
  do! assert (negb (src_ =? NULL) || (size =? 0)) in
  if dst_ <? src_ then copy_up (Z.to_nat size) dst_ src_
  else copy_down (Z.to_nat size) (dst_ + size) (src_ + size).

Fixpoint memcmp_loop (size : nat) (a b : ptr) : M mem Z :=
  match size with
  | O => ret 0
  | S n =>
      let! x := load a in let! y := load b in
      if negb (x =? y) then ret (if y <? x then 1 else -1) else memcmp_loop n (a + 1) (b + 1)
  end.

Definition memcmp (a_ b_ : ptr) (size : Z) : M mem Z :=
  do! assert (negb (a_ =? NULL) || (size =? 0)) in
  do! assert (negb (b_ =? NULL) || (size =? 0)) in
  memcmp_loop (Z.to_nat size) a_ b_.

Fixpoint strcmp_loop (fuel : nat) (a b : ptr) : M mem Z :=
  match fuel with
  | O => fail EFuel
  | S f =>
      let! x := load a in let! y := load b in
      if negb (x =? 0) && (x =? y) then strcmp_loop f (a + 1) (b + 1)
      else ret (if x <? y then -1 else if y <? x then 1 else 0)
  end.

Definition strcmp (a_ b_ : ptr) : M mem Z :=
  do! assert (negb (a_ =? NULL)) in
  do! assert (negb (b_ =? NULL)) in
  let! fuel := gets fuel_of in strcmp_loop fuel a_ b_.

Fixpoint memchr_loop (size : nat) (block : ptr) (ch : Z) : M mem ptr :=
  match size with
  | O => ret NULL
  | S n => let! x := load block in if x =? ch then ret block else memchr_loop n (block + 1) ch
  end.

Definition memchr (block_ : ptr) (ch_ size : Z) : M mem ptr :=
  let ch := u8 ch_ in
  do! assert (negb (block_ =? NULL) || (size =? 0)) in
  memchr_loop (Z.to_nat size) block_ ch.

Fixpoint strchr_loop (fuel : nat) (string : ptr) (c : Z) : M mem ptr :=
  match fuel with
  | O => fail EFuel
  | S f =>
      let! x := load string in
      if x =? c then ret string
      else if x =? 0 then ret NULL
      else strchr_loop f (string + 1) c
  end.

(** A [char] holds the low byte of its value; bytes are compared as such. *)
Definition strchr (string : ptr) (c_ : Z) : M mem ptr :=
  let c := u8 c_ in
  do! assert (negb (string =? NULL)) in
  let! fuel := gets fuel_of in strchr_loop fuel string c.

Fixpoint strcspn_loop (fuel : nat) (string stop : ptr) (length : Z) : M mem Z :=
  match fuel with
  | O => fail EFuel
  | S f =>
      let! x := load (string + length) in
      if negb (x =? 0) then
        let! r := strchr stop x in
        if negb (r =? NULL) then ret length else strcspn_loop f string stop (u32 (length + 1))
      else ret length
  end.

Definition strcspn (string stop : ptr) : M mem Z :=
  let! fuel := gets fuel_of in strcspn_loop fuel string stop 0.

Fixpoint strpbrk_loop (fuel : nat) (string stop : ptr) : M mem ptr :=
  match fuel with
  | O => fail EFuel
  | S f =>
      let! x := load string in
      if negb (x =? 0) then
        let! r := strchr stop x in
        if negb (r =? NULL) then ret string else strpbrk_loop f (string + 1) stop
      else ret NULL
  end.

Definition strpbrk (string stop : ptr) : M mem ptr :=
  let! fuel := gets fuel_of in strpbrk_loop fuel string stop.

Fixpoint strrchr_loop (fuel : nat) (string p : ptr) (c : Z) : M mem ptr :=
  match fuel with
  | O => fail EFuel
  | S f =>
      let! x := load string in
      if negb (x =? 0) then strrchr_loop f (string + 1) (if x =? c then string else p) c
      else ret p
  end.

Definition strrchr (string : ptr) (c_ : Z) : M mem ptr :=
  let c := u8 c_ in
  let! fuel := gets fuel_of in strrchr_loop fuel string NULL c.

Fixpoint strspn_loop (fuel : nat) (string skip : ptr) (length : Z) : M mem Z :=
  match fuel with
  | O => fail EFuel
  | S f =>
      let! x := load (string + length) in
      if negb (x =? 0) then
        let! r := strchr skip x in
        if r =? NULL then ret length else strspn_loop f string skip (u32 (length + 1))
      else ret length
  end.

Definition strspn (string skip : ptr) : M mem Z :=
  let! fuel := gets fuel_of in strspn_loop fuel string skip 0.

Fixpoint strlen_loop (fuel : nat) (p : ptr) : M mem ptr :=
  match fuel with
  | O => fail EFuel
  | S f => let! x := load p in if negb (x =? 0) then strlen_loop f (p + 1) else ret p
  end.

Definition strlen (string : ptr) : M mem Z :=
  do! assert (negb (string =? NULL)) in
  let! fuel := gets fuel_of in
  let! p := strlen_loop fuel string in
  ret (u32 (p - string)).

Fixpoint strnlen_loop (fuel : nat) (string : ptr) (maxlen length : Z) : M mem Z :=
  match fuel with
  | O => fail EFuel
  | S f =>
      let! x := load (string + length) in
      if negb (x =? 0) && (length <? maxlen) then strnlen_loop f string maxlen (u32 (length + 1))
      else ret length
  end.

Definition strnlen (string : ptr) (maxlen : Z) : M mem Z :=
  let! fuel := gets fuel_of in strnlen_loop fuel string maxlen 0.

(** The loop of [strstr]: [n] candidate positions from [i] on. *)
Fixpoint strstr_loop (n : nat) (haystack needle : ptr) (needle_len i : Z) : M mem ptr :=
  match n with
  | O => ret NULL
  | S n' =>
      let! r := memcmp (haystack + i) needle needle_len in
      if r =? 0 then ret (haystack + i) else strstr_loop n' haystack needle needle_len (i + 1)
  end.

Definition strstr (haystack needle : ptr) : M mem ptr :=
  let! haystack_len := strlen haystack in
  let! needle_len := strlen needle in
  if needle_len <=? haystack_len then
    strstr_loop (S (Z.to_nat (haystack_len - needle_len))) haystack needle needle_len 0
  else ret NULL.

(** The first loop of [strtok_r]: [None] when the end of the string is met,
    with the position where that happens. *)
Fixpoint skip_delims (fuel : nat) (s delimiters : ptr) : M mem (option ptr * ptr) :=
  match fuel with
  | O => fail EFuel
  | S f =>
      let! x := load s in
      let! r := strchr delimiters x in
      if negb (r =? NULL) then
        if x =? 0 then ret (None, s) else skip_delims f (s + 1) delimiters
      else ret (Some s, s)
  end.

Fixpoint skip_token (fuel : nat) (s delimiters : ptr) : M mem ptr :=
  match fuel with
  | O => fail EFuel
  | S f =>
      let! x := load s in
      let! r := strchr delimiters x in
      if r =? NULL then skip_token f (s + 1) delimiters else ret s
  end.

(** [save] is the value of [*save_ptr]; the result has its new value. *)
Definition strtok_r (s delimiters save : ptr) : M mem (ptr * ptr) :=
  do! assert (negb (delimiters =? NULL)) in
  let s := if s =? NULL then save else s in
  do! assert (negb (s =? NULL)) in
  let! fuel := gets fuel_of in
  let! start := skip_delims fuel s delimiters in
  match start with
  | (None, s) => ret (NULL, s)
  | (Some token, _) =>
      let! s := skip_token fuel token delimiters in
      let! x := load s in
      if negb (x =? 0) then do! store s 0 in ret (token, s + 1)
      else ret (token, s)
  end.

(** The loop a caller of [strtok_r] runs, as its comment shows it: all the
    tokens, in order. *)
Fixpoint tokenize (fuel : nat) (s delimiters save : ptr) : M mem (list ptr) :=
  match fuel with
  | O => fail EFuel
  | S f =>
      let! r := strtok_r s delimiters save in
      let '(token, save) := r in
      if token =? NULL then ret []
      else let! ts := tokenize f NULL delimiters save in ret (token :: ts)
  end.

Fixpoint set_up (size : nat) (dst : ptr) (value : Z) : M mem unit :=
  match size with O => ret tt | S n => do! store dst value in set_up n (dst + 1) value end.

Definition memset (dst_ : ptr) (value size : Z) : M mem ptr :=
  do! assert (negb (dst_ =? NULL) || (size =? 0)) in
  do! set_up (Z.to_nat size) dst_ value in
  ret dst_.

Definition strlcpy (dst src : ptr) (size : Z) : M mem Z :=
  do! assert (negb (dst =? NULL)) in
  do! assert (negb (src =? NULL)) in
  let! src_len := strlen src in
  do! (if 0 <? size then
         let dst_len := u32 (size - 1) in
         let dst_len := if src_len <? dst_len then src_len else dst_len in
         do! memcpy dst src dst_len in
         store (dst + dst_len) 0
       else ret tt) in
  ret src_len.

Definition strlcat (dst src : ptr) (size : Z) : M mem Z :=
  do! assert (negb (dst =? NULL)) in
  do! assert (negb (src =? NULL)) in
  let! src_len := strlen src in
  let! dst_len := strlen dst in
  do! (if (0 <? size) && (dst_len <? size) then
         let copy_cnt := u32 (size - dst_len - 1) in
         let copy_cnt := if src_len <? copy_cnt then src_len else copy_cnt in
         do! memcpy (dst + dst_len) src copy_cnt in
         store (dst + dst_len + copy_cnt) 0
       else ret tt) in
  ret (u32 (src_len + dst_len)).

(** ** The same on sequences of characters *)

(** The first difference decides; the end of a string counts as a zero. *)
Fixpoint lex (a b : list Z) : Z :=
  match a, b with
  | [], [] => 0
  | [], _ => -1
  | _, [] => 1
  | x :: a', y :: b' => if x <? y then -1 else if y <? x then 1 else lex a' b'
  end.

(** How many characters come before the first one that satisfies [P]. *)
Fixpoint before (P : Z -> bool) (s : list Z) : nat :=
  match s with [] => 0 | c :: s' => if P c then 0 else S (before P s') end.

Definition in_set (set : list Z) (c : Z) : bool := bool_decide (c ∈ set).

(** The maximal runs of characters outside [ds]; [cur] is the run at hand. *)
Definition flush (cur : list Z) : list (list Z) := match cur with [] => [] | _ => [cur] end.
Fixpoint words (ds cur s : list Z) : list (list Z) :=
  match s with
  | [] => flush cur
  | c :: s' => if in_set ds c then flush cur ++ words ds [] s' else words ds (cur ++ [c]) s'
  end.

(** ** Blocks *)

Section facts.
Implicit Types (m : mem) (p q dst src : ptr) (bs s : list Z) (c : Z).

Lemma copy_up_eq m dst src bs :
  bytes_at m src bs -> mapped m dst (zlen bs) -> dst <= src \/ src + zlen bs <= dst ->
  copy_up (length bs) dst src m = Ok (dst + zlen bs, write m dst bs).
Proof.
  revert m dst src. induction bs as [|b bs IH]; intros m dst src Hb Hm Hd; simpl in *.
  { by rewrite Z.add_0_r. }
  destruct Hb as (Hl&Hu&Hb). rewrite (bind_ok _ _ _ _ _ (load_eq _ _ _ Hl)).
  rewrite (bind_ok _ _ _ _ _ (store_eq _ dst b (Hm dst ltac:(lia)) Hu)).
  rewrite IH; [f_equal; f_equal; lia| |intros q Hq; apply lookup_insert_is_Some'; right; apply Hm; lia|lia].
  apply insert_frame; [lia|done].
Qed.

Lemma copy_down_eq m dst src bs :
  bytes_at m src bs -> mapped m dst (zlen bs) -> src <= dst \/ dst + zlen bs <= src ->
  copy_down (length bs) (dst + zlen bs) (src + zlen bs) m = Ok (dst, write m dst bs).
Proof.
  revert m. induction bs as [|b bs IH] using rev_ind; intros m Hb Hm Hd.
  { simpl. by rewrite Z.add_0_r. }
  rewrite length_app in *. simpl in *. rewrite Nat.add_1_r in *. cbn [copy_down].
  apply bytes_at_app in Hb as [Hb (Hl&Hu&_)].
  replace (src + Z.of_nat (S (length bs)) - 1) with (src + zlen bs) by lia.
  replace (dst + Z.of_nat (S (length bs)) - 1) with (dst + zlen bs) by lia.
  rewrite (bind_ok _ _ _ _ _ (load_eq _ _ _ Hl)).
  rewrite (bind_ok _ _ _ _ _ (store_eq _ (dst + zlen bs) b (Hm (dst + zlen bs) ltac:(lia)) Hu)).
  rewrite IH, write_snoc; [done| |intros q Hq; apply lookup_insert_is_Some'; right; apply Hm; lia|lia].
  apply insert_frame; [lia|done].
Qed.

Lemma set_up_eq m dst v n :
  mapped m dst (Z.of_nat n) -> set_up n dst v m = Ok (tt, write m dst (replicate n (u8 v))).
Proof.
  revert m dst. induction n as [|n IH]; intros m dst Hm; [done|]. cbn [set_up replicate write].
  destruct (Hm dst ltac:(lia)) as [x Hx].
  assert (store dst v m = Ok (tt, <[dst := u8 v]> m)) as Hs by (unfold store; by rewrite Hx).
  rewrite (bind_ok _ _ _ _ _ Hs). apply IH.
  intros q Hq. apply lookup_insert_is_Some'. right. apply Hm. lia.
Qed.

(** The null-pointer checks of the block routines. *)
Lemma block_check {A} m p n (k : M mem A) :
  mem_ok m -> (0 < n -> is_Some (m !! p)) -> 0 <= n ->
  (do! assert (negb (p =? NULL) || (n =? 0)) in k) m = k m.
Proof.
  intros Hm Hp ?. unfold bind, assert. destruct (Z.eqb_spec n 0); [by rewrite orb_true_r|].
  destruct (Z.eqb_spec p NULL) as [->|]; [|done]. apply mem_ok_lookup in Hp; [lia|done|lia].
Qed.

Lemma ptr_check {A} m p (k : M mem A) : 0 < p -> (do! assert (negb (p =? NULL)) in k) m = k m.
Proof. intros. unfold bind, assert. by rewrite (proj2 (Z.eqb_neq _ _)) by lia. Qed.

Lemma mapped_head m p n : mapped m p n -> 0 < n -> is_Some (m !! p).
Proof. intros Hm ?. apply Hm. lia. Qed.

Lemma memcpy_eq m dst src bs :
  mem_ok m -> bytes_at m src bs -> mapped m dst (zlen bs) -> dst <= src \/ src + zlen bs <= dst ->
  memcpy dst src (zlen bs) m = Ok (dst, write m dst bs).
Proof.
  intros Hm Hb Hd Ho. unfold memcpy. pose proof (bytes_at_mapped _ _ _ Hb).
  rewrite !block_check by (done || lia || (intros; by eapply mapped_head)).
  rewrite Nat2Z.id. by rewrite (bind_ok _ _ _ _ _ (copy_up_eq _ _ _ _ Hb Hd Ho)).
Qed.

Lemma memmove_eq m dst src bs :
  mem_ok m -> bytes_at m src bs -> mapped m dst (zlen bs) ->
  memmove dst src (zlen bs) m = Ok (if dst <? src then dst + zlen bs else dst, write m dst bs).
Proof.
  intros Hm Hb Hd. unfold memmove. pose proof (bytes_at_mapped _ _ _ Hb).
  rewrite !block_check by (done || lia || (intros; by eapply mapped_head)). rewrite Nat2Z.id.
  destruct (Z.ltb_spec dst src); [apply copy_up_eq|apply copy_down_eq]; (done || lia).
Qed.

Lemma memset_eq m dst v n :
  mem_ok m -> mapped m dst n -> 0 <= n ->
  memset dst v n m = Ok (dst, write m dst (replicate (Z.to_nat n) (u8 v))).
Proof.
  intros Hm Hd ?. unfold memset. rewrite block_check by (done || lia || (intros; by eapply mapped_head)).
  assert (mapped m dst (Z.of_nat (Z.to_nat n))) as Hd' by (by rewrite Z2Nat.id).
  by rewrite (bind_ok _ _ _ _ _ (set_up_eq m dst v _ Hd')).
Qed.

Lemma memcmp_eq m p q a b :
  mem_ok m -> bytes_at m p a -> bytes_at m q b -> length a = length b ->
  memcmp p q (zlen a) m = Ok (lex a b, m).
Proof.
  intros Hm Ha Hb Hl. unfold memcmp. pose proof (bytes_at_mapped _ _ _ Ha).
  assert (mapped m q (zlen a)) by (rewrite Hl; by apply bytes_at_mapped).
  rewrite !block_check by (done || lia || (intros; by eapply mapped_head)). rewrite Nat2Z.id.
  clear Hm H H0. revert p q b Ha Hb Hl. induction a as [|x a IH]; intros p q [|y b] Ha Hb Hl; try done.
  destruct Ha as (Hx&_&Ha), Hb as (Hy&_&Hb). cbn [length memcmp_loop lex].
  rewrite (bind_ok _ _ _ _ _ (load_eq _ _ _ Hx)), (bind_ok _ _ _ _ _ (load_eq _ _ _ Hy)).
  destruct (Z.ltb_spec x y), (Z.ltb_spec y x), (Z.eqb_spec x y); try lia; try done. cbn [negb].
  apply IH; [done..|by injection Hl].
Qed.

Lemma memchr_eq m p bs c :
  mem_ok m -> bytes_at m p bs ->
  memchr p c (zlen bs) m =
    Ok (let i := before (Z.eqb (u8 c)) bs in if decide (i < length bs)%nat then p + Z.of_nat i else NULL, m).
Proof.
  intros Hm Hb. unfold memchr. pose proof (bytes_at_mapped _ _ _ Hb).
  rewrite !block_check by (done || lia || (intros; by eapply mapped_head)). rewrite Nat2Z.id.
  clear Hm H. revert p Hb. induction bs as [|x bs IH]; intros p Hb; [done|]. destruct Hb as (Hx&_&Hb).
  cbn [length memchr_loop before]. rewrite (bind_ok _ _ _ _ _ (load_eq _ _ _ Hx)).
  rewrite Z.eqb_sym. destruct (Z.eqb_spec (u8 c) x).
  - rewrite decide_True by lia. by rewrite Z.add_0_r.
  - rewrite IH by done. cbn. repeat case_decide; try lia; do 2 f_equal; lia.
Qed.

(** ** Strings *)

Lemma strlen_loop_eq m p s fuel :
  str_at m p s -> (length s < fuel)%nat -> strlen_loop fuel p m = Ok (p + zlen s, m).
Proof.
  revert p fuel. induction s as [|x s IH]; intros p [|fuel] Hs Hf; simpl in Hf; try lia; cbn [strlen_loop].
  - rewrite (bind_ok _ _ _ _ _ (load_eq _ _ _ Hs)). simpl. by rewrite Z.add_0_r.
  - destruct Hs as (Hx&?&Hs). rewrite (bind_ok _ _ _ _ _ (load_eq _ _ _ Hx)).
    rewrite (proj2 (Z.eqb_neq x 0)) by lia. cbn [negb]. rewrite IH by (done || lia). do 2 f_equal. simpl. lia.
Qed.

Lemma strlen_eq m p s : mem_ok m -> str_at m p s -> strlen p m = Ok (zlen s, m).
Proof.
  intros Hm Hs. destruct (mem_ok_str _ _ _ Hm Hs). unfold strlen. rewrite ptr_check by lia.
  pose proof (str_at_fuel _ _ _ Hs). rewrite (bind_ok _ _ _ (fuel_of m) m) by done.
  rewrite (bind_ok _ _ _ _ _ (strlen_loop_eq _ _ _ (fuel_of m) Hs ltac:(lia))).
  unfold ret. rewrite wrapu_small by (unfold in_u; lia). do 2 f_equal. lia.
Qed.

Lemma strcmp_eq m p q a b :
  mem_ok m -> str_at m p a -> str_at m q b -> strcmp p q m = Ok (lex a b, m).
Proof.
  intros Hm Ha Hb. pose proof (mem_ok_str _ _ _ Hm Ha). pose proof (mem_ok_str _ _ _ Hm Hb).
  unfold strcmp. rewrite !ptr_check by lia. rewrite (bind_ok _ _ _ (fuel_of m) m) by done.
  pose proof (str_at_fuel _ _ _ Ha) as Hf. revert Hf. generalize (fuel_of m) as fuel. clear - Ha Hb.
  revert p q b Ha Hb. induction a as [|x a IH]; intros p q b Ha Hb [|fuel] Hf; simpl in Hf; try lia; cbn [strcmp_loop].
  - rewrite (bind_ok _ _ _ _ _ (load_eq _ _ _ Ha)). destruct b as [|y b].
    + by rewrite (bind_ok _ _ _ _ _ (load_eq _ _ _ Hb)).
    + destruct Hb as (Hy&?&_). rewrite (bind_ok _ _ _ _ _ (load_eq _ _ _ Hy)). cbn [Z.eqb negb andb].
      by rewrite (proj2 (Z.ltb_lt 0 y)) by lia.
  - destruct Ha as (Hx&?&Ha). rewrite (bind_ok _ _ _ _ _ (load_eq _ _ _ Hx)).
    rewrite (proj2 (Z.eqb_neq x 0)) by lia. destruct b as [|y b].
    + rewrite (bind_ok _ _ _ _ _ (load_eq _ _ _ Hb)), (proj2 (Z.eqb_neq x 0)) by lia. cbn [negb andb lex].
      by rewrite (proj2 (Z.ltb_ge x 0)), (proj2 (Z.ltb_lt 0 x)) by lia.
    + destruct Hb as (Hy&?&Hb). rewrite (bind_ok _ _ _ _ _ (load_eq _ _ _ Hy)). cbn [negb andb lex].
      destruct (Z.eqb_spec x y) as [->|]; [rewrite Z.ltb_irrefl; apply IH; (done || lia)|].
      by destruct (Z.ltb_spec x y), (Z.ltb_spec y x); try lia.
Qed.

Lemma lex_zero a b : lex a b = 0 <-> a = b.
Proof.
  revert b. induction a as [|x a IH]; intros [|y b]; simpl; try done.
  destruct (Z.ltb_spec x y), (Z.ltb_spec y x); try (split; [done|intros; simplify_eq; lia]).
  rewrite IH. assert (x = y) as -> by lia. naive_solver.
Qed.

Lemma strchr_eq m p s c :
  mem_ok m -> str_at m p s ->
  strchr p c m =
    Ok (let i := before (Z.eqb (u8 c)) s in
        if decide (i < length s)%nat then p + Z.of_nat i
        else if u8 c =? 0 then p + zlen s else NULL, m).
Proof.
  intros Hm Hs. pose proof (mem_ok_str _ _ _ Hm Hs).
  unfold strchr. rewrite !ptr_check by lia. rewrite (bind_ok _ _ _ (fuel_of m) m) by done.
  pose proof (str_at_fuel _ _ _ Hs) as Hf. revert Hf. generalize (fuel_of m) as fuel. clear - Hs.
  revert p Hs. induction s as [|x s IH]; intros p Hs [|fuel] Hf; simpl in Hf; try lia; cbn [strchr_loop before].
  - rewrite (bind_ok _ _ _ _ _ (load_eq _ _ _ Hs)), Z.eqb_sym. simpl. rewrite Z.add_0_r. by destruct (u8 c =? 0).
  - destruct Hs as (Hx&?&Hs). rewrite (bind_ok _ _ _ _ _ (load_eq _ _ _ Hx)), Z.eqb_sym.
    rewrite (proj2 (Z.eqb_neq x 0)) by lia. destruct (Z.eqb_spec (u8 c) x).
    + rewrite decide_True by (simpl; lia). by rewrite Z.add_0_r.
    + rewrite IH by (done || lia). cbn. repeat case_decide; simpl in *; try lia; do 2 f_equal; [lia|].
      destruct (u8 c =? 0); [lia|done].
Qed.

Lemma before_in_set c s : (before (Z.eqb c) s < length s)%nat <-> c ∈ s.
Proof.
  induction s as [|x s IH]; simpl; [split; [lia|set_solver]|].
  destruct (Z.eqb_spec c x); rewrite elem_of_cons; [split; [by left|lia]|].
  rewrite <- IH. split; [intros; right; lia|intros [?|?]; [done|lia]].
Qed.

(** [strchr] as a test for membership, as the other routines use it. *)
Lemma strchr_set m d ds x :
  mem_ok m -> str_at m d ds -> in_u 8 x ->
  exists r, strchr d x m = Ok (r, m) /\ (r =? NULL) = negb (in_set ds x || (x =? 0)).
Proof.
  intros Hm Hs Hx. pose proof (mem_ok_str _ _ _ Hm Hs). rewrite (strchr_eq _ _ _ _ Hm Hs).
  rewrite wrapu_small by done. eexists. split; [done|]. unfold in_set. cbv zeta.
  case_decide as Hd; rewrite before_in_set in Hd.
  - rewrite bool_decide_true by done. apply Z.eqb_neq. lia.
  - rewrite bool_decide_false by done. destruct (Z.eqb_spec x 0); cbn; [apply Z.eqb_neq; lia|done].
Qed.

Lemma strrchr_loop_eq m p s c fuel r :
  str_at m p s -> (length s < fuel)%nat ->
  strrchr_loop fuel p r c m =
    Ok (let i := before (Z.eqb c) (reverse s) in
        if decide (i < length s)%nat then p + zlen s - 1 - Z.of_nat i else r, m).
Proof.
  revert p fuel r. induction s as [|x s IH]; intros p [|fuel] r Hs Hf; simpl in Hf; try lia; cbn [strrchr_loop].
  - rewrite (bind_ok _ _ _ _ _ (load_eq _ _ _ Hs)). done.
  - destruct Hs as (Hx&?&Hs). rewrite (bind_ok _ _ _ _ _ (load_eq _ _ _ Hx)).
    rewrite (proj2 (Z.eqb_neq x 0)) by lia. cbn [negb]. rewrite IH by (done || lia). cbv zeta.
    rewrite reverse_cons.
    assert (forall l, before (Z.eqb c) (l ++ [x]) =
              if decide (before (Z.eqb c) l < length l)%nat then before (Z.eqb c) l
              else (length l + (if (c =? x)%Z then 0 else 1))%nat) as Hb.
    { clear. induction l as [|y l IH]; simpl; [by destruct (c =? x)|]. destruct (c =? y); [done|].
      rewrite IH. repeat case_decide; lia. }
    rewrite Hb, length_reverse. rewrite (Z.eqb_sym x). cbn [length].
    destruct (c =? x); repeat case_decide; try lia; do 2 f_equal; lia.
Qed.

Lemma strrchr_eq m p s c :
  str_at m p s ->
  strrchr p c m =
    Ok (let i := before (Z.eqb (u8 c)) (reverse s) in
        if decide (i < length s)%nat then p + zlen s - 1 - Z.of_nat i else NULL, m).
Proof.
  intros Hs. unfold strrchr. rewrite (bind_ok _ _ _ (fuel_of m) m) by done.
  apply strrchr_loop_eq; [done|]. apply str_at_fuel in Hs. lia.
Qed.

Lemma strcspn_loop_eq m p d ds s1 s2 fuel :
  mem_ok m -> str_at m d ds -> str_at m p (s1 ++ s2) -> (length s2 < fuel)%nat ->
  strcspn_loop fuel p d (zlen s1) m = Ok (zlen s1 + Z.of_nat (before (in_set ds) s2), m).
Proof.
  intros Hm Hd. revert s1 fuel. induction s2 as [|x s2 IH]; intros s1 [|fuel] Hs Hf; simpl in Hf; try lia;
    pose proof (mem_ok_str _ _ _ Hm Hs) as [? Hlen]; pose proof (str_at_app _ _ _ _ Hs) as Hx; cbn [strcspn_loop].
  - rewrite (bind_ok _ _ _ _ _ (load_eq _ _ _ Hx)). simpl. by rewrite Z.add_0_r.
  - destruct Hx as (Hx&?&_). rewrite (bind_ok _ _ _ _ _ (load_eq _ _ _ Hx)).
    rewrite (proj2 (Z.eqb_neq x 0)) by lia. cbn [negb].
    destruct (strchr_set m d ds x Hm Hd) as (r&Hr&Hz); [unfold in_u; lia|].
    rewrite (bind_ok _ _ _ _ _ Hr), Hz, (proj2 (Z.eqb_neq x 0)), orb_false_r, negb_involutive by lia.
    cbn [before]. destruct (in_set ds x); [by rewrite Z.add_0_r|].
    rewrite length_app in Hlen. rewrite wrapu_small by (unfold in_u; simpl in Hlen; lia).
    rewrite (cons_middle x), app_assoc in Hs. specialize (IH (s1 ++ [x]) fuel Hs ltac:(lia)).
    rewrite length_app in IH. replace (zlen s1 + 1) with (Z.of_nat (length s1 + length [x])) by (simpl; lia).
    rewrite IH. do 2 f_equal. simpl. lia.
Qed.

Lemma strspn_loop_eq m p d ds s1 s2 fuel :
  mem_ok m -> str_at m d ds -> str_at m p (s1 ++ s2) -> (length s2 < fuel)%nat ->
  strspn_loop fuel p d (zlen s1) m =
    Ok (zlen s1 + Z.of_nat (before (fun c => negb (in_set ds c)) s2), m).
Proof.
  intros Hm Hd. revert s1 fuel. induction s2 as [|x s2 IH]; intros s1 [|fuel] Hs Hf; simpl in Hf; try lia;
    pose proof (mem_ok_str _ _ _ Hm Hs) as [? Hlen]; pose proof (str_at_app _ _ _ _ Hs) as Hx; cbn [strspn_loop].
  - rewrite (bind_ok _ _ _ _ _ (load_eq _ _ _ Hx)). simpl. by rewrite Z.add_0_r.
  - destruct Hx as (Hx&?&_). rewrite (bind_ok _ _ _ _ _ (load_eq _ _ _ Hx)).
    rewrite (proj2 (Z.eqb_neq x 0)) by lia. cbn [negb].
    destruct (strchr_set m d ds x Hm Hd) as (r&Hr&Hz); [unfold in_u; lia|].
    rewrite (bind_ok _ _ _ _ _ Hr), Hz, (proj2 (Z.eqb_neq x 0)), orb_false_r by lia.
    cbn [before]. destruct (in_set ds x); cbn [negb]; [|by rewrite Z.add_0_r].
    rewrite length_app in Hlen. rewrite wrapu_small by (unfold in_u; simpl in Hlen; lia).
    rewrite (cons_middle x), app_assoc in Hs. specialize (IH (s1 ++ [x]) fuel Hs ltac:(lia)).
    rewrite length_app in IH. replace (zlen s1 + 1) with (Z.of_nat (length s1 + length [x])) by (simpl; lia).
    rewrite IH. do 2 f_equal. simpl. lia.
Qed.

Lemma span_eq m p d ds s :
  mem_ok m -> str_at m d ds -> str_at m p s ->
  strcspn p d m = Ok (Z.of_nat (before (in_set ds) s), m) /\
  strspn p d m = Ok (Z.of_nat (before (fun c => negb (in_set ds c)) s), m).
Proof.
  intros Hm Hd Hs. unfold strcspn, strspn. rewrite !(bind_ok _ _ _ (fuel_of m) m) by done.
  pose proof (str_at_fuel _ _ _ Hs).
  rewrite (strcspn_loop_eq m p d ds [] s), (strspn_loop_eq m p d ds [] s) by (done || lia). done.
Qed.

Lemma strpbrk_eq m p d ds s :
  mem_ok m -> str_at m d ds -> str_at m p s ->
  strpbrk p d m =
    Ok (let i := before (in_set ds) s in if decide (i < length s)%nat then p + Z.of_nat i else NULL, m).
Proof.
  intros Hm Hd Hs. unfold strpbrk. rewrite (bind_ok _ _ _ (fuel_of m) m) by done.
  pose proof (str_at_fuel _ _ _ Hs) as Hf. revert Hf. generalize (fuel_of m) as fuel.
  revert p Hs. induction s as [|x s IH]; intros p Hs [|fuel] Hf; simpl in Hf; try lia; cbn [strpbrk_loop before].
  - by rewrite (bind_ok _ _ _ _ _ (load_eq _ _ _ Hs)).
  - destruct Hs as (Hx&?&Hs). rewrite (bind_ok _ _ _ _ _ (load_eq _ _ _ Hx)).
    rewrite (proj2 (Z.eqb_neq x 0)) by lia. cbn [negb].
    destruct (strchr_set m d ds x Hm Hd) as (r&Hr&Hz); [unfold in_u; lia|].
    rewrite (bind_ok _ _ _ _ _ Hr), Hz, (proj2 (Z.eqb_neq x 0)), orb_false_r, negb_involutive by lia.
    destruct (in_set ds x).
    + rewrite decide_True by (simpl; lia). by rewrite Z.add_0_r.
    + rewrite IH by (done || lia). cbn. repeat case_decide; simpl in *; try lia; do 2 f_equal; lia.
Qed.

Lemma strnlen_loop_eq m p s1 s2 maxlen fuel :
  mem_ok m -> str_at m p (s1 ++ s2) -> (length s2 < fuel)%nat -> zlen s1 <= maxlen ->
  strnlen_loop fuel p maxlen (zlen s1) m = Ok (Z.min (zlen (s1 ++ s2)) maxlen, m).
Proof.
  intros Hm. revert s1 fuel. induction s2 as [|x s2 IH]; intros s1 [|fuel] Hs Hf Hn; simpl in Hf; try lia;
    pose proof (mem_ok_str _ _ _ Hm Hs) as [? Hlen]; pose proof (str_at_app _ _ _ _ Hs) as Hx; cbn [strnlen_loop].
  - rewrite (bind_ok _ _ _ _ _ (load_eq _ _ _ Hx)). rewrite app_nil_r. cbn. unfold ret. do 2 f_equal. lia.
  - destruct Hx as (Hx&?&_). rewrite (bind_ok _ _ _ _ _ (load_eq _ _ _ Hx)).
    rewrite (proj2 (Z.eqb_neq x 0)) by lia. cbn [negb andb]. rewrite length_app in Hlen. cbn [length] in Hlen.
    destruct (Z.ltb_spec (zlen s1) maxlen).
    + rewrite wrapu_small by (unfold in_u; lia).
      rewrite (cons_middle x), app_assoc in Hs |- *. specialize (IH (s1 ++ [x]) fuel Hs ltac:(lia)).
      rewrite length_app in IH at 1 2. replace (zlen s1 + 1) with (Z.of_nat (length s1 + length [x])) by (simpl; lia).
      apply IH. simpl. lia.
    + unfold ret. do 2 f_equal. rewrite length_app. simpl. lia.
Qed.

Lemma strnlen_eq m p s maxlen :
  mem_ok m -> str_at m p s -> 0 <= maxlen -> strnlen p maxlen m = Ok (Z.min (zlen s) maxlen, m).
Proof.
  intros Hm Hs ?. unfold strnlen. rewrite (bind_ok _ _ _ (fuel_of m) m) by done.
  pose proof (str_at_fuel _ _ _ Hs). apply (strnlen_loop_eq m p [] s maxlen); (done || simpl; lia).
Qed.

Definition occurs (needle s : list Z) (i : nat) : Prop :=
  (i + length needle <= length s)%nat /\ take (length needle) (drop i s) = needle.

Lemma str_sub m p s i n :
  str_at m p s -> (i + n <= length s)%nat -> bytes_at m (p + Z.of_nat i) (take n (drop i s)).
Proof.
  intros [Hb _]%str_bytes ?. rewrite <- (take_drop i s), <- (take_drop n (drop i s)) in Hb.
  rewrite <- !app_assoc in Hb. apply bytes_at_app in Hb as [_ Hb]. rewrite length_take in Hb.
  apply bytes_at_app in Hb as [Hb _]. by replace (i `min` length s)%nat with i in Hb by lia.
Qed.

Lemma strstr_loop_eq m p q s t n i :
  mem_ok m -> str_at m p s -> str_at m q t -> (i + n = S (length s - length t))%nat -> (length t <= length s)%nat ->
  (forall k, (k < i)%nat -> ~ occurs t s k) ->
  exists r, strstr_loop n p q (zlen t) (Z.of_nat i) m = Ok (r, m) /\
    ((exists k, r = p + Z.of_nat k /\ occurs t s k /\ forall k', (k' < k)%nat -> ~ occurs t s k')
     \/ (r = NULL /\ forall k, ~ occurs t s k)).
Proof.
  intros Hm Hs Ht. revert i. induction n as [|n IH]; intros i Hi Hle Hno; cbn [strstr_loop].
  { exists NULL. split; [done|]. right. split; [done|]. intros k Hk. apply (Hno k); [destruct Hk; lia|done]. }
  pose proof (str_sub m p s i (length t) Hs ltac:(lia)) as Hsub.
  assert (length (take (length t) (drop i s)) = length t) as Hl by (rewrite length_take, length_drop; lia).
  pose proof (proj1 (proj1 (str_bytes _ _ _) Ht)) as Hbt. apply bytes_at_app in Hbt as [Hbt _].
  pose proof (memcmp_eq m (p + Z.of_nat i) q _ _ Hm Hsub Hbt Hl) as Hc. rewrite Hl in Hc.
  rewrite (bind_ok _ _ _ _ _ Hc). destruct (Z.eqb_spec (lex (take (length t) (drop i s)) t) 0) as [E|E];
    rewrite lex_zero in E.
  - eexists. split; [done|]. left. exists i. split_and!; [done|split; [lia|done]|done].
  - replace (Z.of_nat i + 1) with (Z.of_nat (S i)) by lia. apply IH; [lia|done|].
    intros k Hk. destruct (decide (k = i)) as [->|]; [by intros [? ?]|apply Hno; lia].
Qed.

Lemma strstr_eq m p q s t :
  mem_ok m -> str_at m p s -> str_at m q t ->
  exists r, strstr p q m = Ok (r, m) /\
    ((exists k, r = p + Z.of_nat k /\ occurs t s k /\ forall k', (k' < k)%nat -> ~ occurs t s k')
     \/ (r = NULL /\ forall k, ~ occurs t s k)).
Proof.
  intros Hm Hs Ht. unfold strstr.
  rewrite (bind_ok _ _ _ _ _ (strlen_eq _ _ _ Hm Hs)), (bind_ok _ _ _ _ _ (strlen_eq _ _ _ Hm Ht)).
  destruct (Z.leb_spec (zlen t) (zlen s)).
  - change 0 with (Z.of_nat 0). apply strstr_loop_eq; try done; lia.
  - exists NULL. split; [done|]. right. split; [done|]. intros k [? _]. lia.
Qed.

(** What [strlcpy] and [strlcat] store: as much of [s] as [n] bytes hold
    together with the terminator. *)
Definition clipped (s : list Z) (n : nat) : list Z := take (n - 1) s ++ [0].

Lemma copy_clipped m dst src s n :
  mem_ok m -> str_at m src s -> (0 < n)%nat -> mapped m dst (zlen (clipped s n)) ->
  dst + zlen (clipped s n) <= src \/ src + zlen s < dst ->
  (do! memcpy dst src (zlen (take (n - 1) s)) in store (dst + zlen (take (n - 1) s)) 0) m
    = Ok (tt, write m dst (clipped s n)).
Proof.
  intros Hm Hs Hn Hd Ho. unfold clipped in *. rewrite length_app in *. cbn [length] in *.
  pose proof (proj1 (proj1 (str_bytes _ _ _) Hs)) as Hb. rewrite <- (take_drop (n - 1) s), <- app_assoc in Hb.
  apply bytes_at_app in Hb as [Hb _].
  erewrite bind_ok; [|apply memcpy_eq; [done|exact Hb|intros q Hq; apply Hd; lia|]].
  - rewrite store_eq, write_app; [done| |unfold in_u; lia].
    rewrite lookup_write, decide_False by lia. apply Hd. lia.
  - pose proof (length_take s (n - 1)). lia.
Qed.

Lemma strlcpy_eq m dst src s size :
  mem_ok m -> str_at m src s -> in_u 32 size -> 0 < dst ->
  (0 < size -> mapped m dst (zlen (clipped s (Z.to_nat size))) /\
     (dst + zlen (clipped s (Z.to_nat size)) <= src \/ src + zlen s < dst)) ->
  strlcpy dst src size m =
    Ok (zlen s, if 0 <? size then write m dst (clipped s (Z.to_nat size)) else m).
Proof.
  intros Hm Hs Hu Hd0 Hd. pose proof (mem_ok_str _ _ _ Hm Hs). unfold in_u in Hu.
  unfold strlcpy. rewrite !ptr_check by lia. rewrite (bind_ok _ _ _ _ _ (strlen_eq _ _ _ Hm Hs)).
  destruct (Z.ltb_spec 0 size); [|done]. destruct Hd as [Hd Ho]; [lia|].
  rewrite wrapu_small by (unfold in_u; lia).
  replace (if zlen s <? size - 1 then zlen s else size - 1) with (zlen (take (Z.to_nat size - 1) s))
    by (rewrite length_take; destruct (Z.ltb_spec (zlen s) (size - 1)); lia).
  by rewrite (bind_ok _ _ _ _ _ (copy_clipped m dst src s (Z.to_nat size) Hm Hs ltac:(lia) Hd Ho)).
Qed.

Lemma strlcat_eq m dst src s t size :
  mem_ok m -> str_at m src s -> str_at m dst t -> in_u 32 size -> zlen s + zlen t < 2 ^ 32 ->
  (let n := Z.to_nat (size - zlen t) in let d := dst + zlen t in
   zlen t < size -> mapped m d (zlen (clipped s n)) /\ (d + zlen (clipped s n) <= src \/ src + zlen s < d)) ->
  strlcat dst src size m =
    Ok (zlen s + zlen t,
        if zlen t <? size then write m (dst + zlen t) (clipped s (Z.to_nat (size - zlen t))) else m).
Proof.
  intros Hm Hs Ht Hu Hl Hd. pose proof (mem_ok_str _ _ _ Hm Hs). pose proof (mem_ok_str _ _ _ Hm Ht).
  unfold in_u in Hu. unfold strlcat. rewrite !ptr_check by lia.
  rewrite (bind_ok _ _ _ _ _ (strlen_eq _ _ _ Hm Hs)), (bind_ok _ _ _ _ _ (strlen_eq _ _ _ Hm Ht)).
  rewrite (wrapu_small _ (zlen s + zlen t)) by (unfold in_u; lia).
  destruct (Z.ltb_spec (zlen t) size); [|by rewrite andb_false_r].
  rewrite (proj2 (Z.ltb_lt 0 size)) by lia. cbn [andb]. destruct Hd as [Hd Ho]; [lia|].
  rewrite wrapu_small by (unfold in_u; lia).
  replace (if zlen s <? size - zlen t - 1 then zlen s else size - zlen t - 1)
    with (zlen (take (Z.to_nat (size - zlen t) - 1) s))
    by (rewrite length_take; destruct (Z.ltb_spec (zlen s) (size - zlen t - 1)); lia).
  by rewrite (bind_ok _ _ _ _ _ (copy_clipped m _ src s (Z.to_nat (size - zlen t)) Hm Hs ltac:(lia) Hd Ho)).
Qed.

(** ** Tokens *)

Lemma skip_delims_eq m p d ds s fuel :
  mem_ok m -> str_at m d ds -> str_at m p s -> (length s < fuel)%nat ->
  skip_delims fuel p d m =
    Ok (let k := before (fun c => negb (in_set ds c)) s in
        let e := p + Z.of_nat k in (if decide (k < length s)%nat then Some e else None, e), m).
Proof.
  intros Hm Hd. revert p fuel. induction s as [|x s IH]; intros p [|fuel] Hs Hf; simpl in Hf; try lia;
    cbn [skip_delims before].
  - destruct (strchr_set m d ds 0 Hm Hd) as (r&Hr&Hz); [unfold in_u; lia|].
    rewrite (bind_ok _ _ _ _ _ (load_eq _ _ _ Hs)), (bind_ok _ _ _ _ _ Hr), Hz, orb_true_r. simpl.
    by rewrite Z.add_0_r.
  - destruct Hs as (Hx&?&Hs). destruct (strchr_set m d ds x Hm Hd) as (r&Hr&Hz); [unfold in_u; lia|].
    rewrite (bind_ok _ _ _ _ _ (load_eq _ _ _ Hx)), (bind_ok _ _ _ _ _ Hr), Hz.
    rewrite (proj2 (Z.eqb_neq x 0)), orb_false_r, negb_involutive by lia.
    destruct (in_set ds x); cbn [negb].
    + rewrite IH by (done || lia). cbn. replace (p + 1 + Z.of_nat _) with
        (p + Z.of_nat (S (before (fun c => negb (in_set ds c)) s))) by lia.
      repeat case_decide; (done || lia).
    + rewrite decide_True by (simpl; lia). by rewrite Z.add_0_r.
Qed.

Lemma skip_token_eq m p d ds s fuel :
  mem_ok m -> str_at m d ds -> str_at m p s -> (length s < fuel)%nat ->
  skip_token fuel p d m = Ok (p + Z.of_nat (before (in_set ds) s), m).
Proof.
  intros Hm Hd. revert p fuel. induction s as [|x s IH]; intros p [|fuel] Hs Hf; simpl in Hf; try lia;
    cbn [skip_token before].
  - destruct (strchr_set m d ds 0 Hm Hd) as (r&Hr&Hz); [unfold in_u; lia|].
    rewrite (bind_ok _ _ _ _ _ (load_eq _ _ _ Hs)), (bind_ok _ _ _ _ _ Hr), Hz, orb_true_r. simpl.
    by rewrite Z.add_0_r.
  - destruct Hs as (Hx&?&Hs). destruct (strchr_set m d ds x Hm Hd) as (r&Hr&Hz); [unfold in_u; lia|].
    rewrite (bind_ok _ _ _ _ _ (load_eq _ _ _ Hx)), (bind_ok _ _ _ _ _ Hr), Hz.
    rewrite (proj2 (Z.eqb_neq x 0)), orb_false_r by lia.
    destruct (in_set ds x); cbn [negb]; [by rewrite Z.add_0_r|].
    rewrite IH by (done || lia). do 2 f_equal. lia.
Qed.

Lemma words_skip ds s : words ds [] s = words ds [] (drop (before (fun c => negb (in_set ds c)) s) s).
Proof. induction s as [|x s IH]; simpl; [done|]. destruct (in_set ds x) eqn:E; simpl; [done|by rewrite E]. Qed.

Lemma words_token ds cur s :
  let j := before (in_set ds) s in
  words ds cur s = flush (cur ++ take j s) ++ words ds [] (drop (S j) s).
Proof.
  revert cur. induction s as [|x s IH]; intros cur; cbn; [by rewrite !app_nil_r|].
  destruct (in_set ds x) eqn:E; cbn; [by rewrite app_nil_r|].
  rewrite IH. cbn. by rewrite <- app_assoc.
Qed.

Lemma before_le P s : (before P s <= length s)%nat.
Proof. induction s as [|x s IH]; simpl; [lia|]. destruct (P x); lia. Qed.

Lemma before_head P s : (before P s < length s)%nat -> exists c r, drop (before P s) s = c :: r /\ P c = true.
Proof.
  induction s as [|x s IH]; simpl; [lia|]. destruct (P x) eqn:E; [eauto|]. intros. apply IH. lia.
Qed.

Lemma strtok_r_eq m p d ds s save (st : ptr) :
  mem_ok m -> str_at m d ds -> str_at m st s -> st = (if p =? NULL then save else p) ->
  let k := before (fun c => negb (in_set ds c)) s in
  let j := before (in_set ds) (drop k s) in
  let token := st + Z.of_nat k in
  let e := token + Z.of_nat j in
  strtok_r p d save m =
    Ok (if decide (k < length s)%nat then
          if decide (k + j < length s)%nat then ((token, e + 1), <[e := 0]> m) else ((token, e), m)
        else ((NULL, st + zlen s), m)).
Proof.
  intros Hm Hd Hs Est k j token e. unfold strtok_r. rewrite <- Est.
  pose proof (mem_ok_str _ _ _ Hm Hd). pose proof (mem_ok_str _ _ _ Hm Hs) as [? ?].
  rewrite !ptr_check by lia. rewrite (bind_ok _ _ _ (fuel_of m) m) by done.
  pose proof (str_at_fuel _ _ _ Hs). pose proof (before_le (fun c => negb (in_set ds c)) s).
  rewrite (bind_ok _ _ _ _ _ (skip_delims_eq _ _ _ _ _ (fuel_of m) Hm Hd Hs ltac:(lia))). cbv zeta.
  fold k token in H1 |- *. case_decide; [|unfold ret; do 3 f_equal; unfold token; lia].
  pose proof (str_at_drop _ _ _ k Hs ltac:(lia)) as Hs2. fold token in Hs2.
  rewrite (bind_ok _ _ _ _ _ (skip_token_eq _ _ _ _ _ (fuel_of m) Hm Hd Hs2 ltac:(rewrite length_drop; lia))).
  pose proof (before_le (in_set ds) (drop k s)) as Hj.
  pose proof (str_at_drop _ _ _ _ Hs2 Hj) as Hs3. fold j e in Hj, Hs3 |- *. rewrite length_drop in Hj.
  case_decide.
  - destruct (before_head (in_set ds) (drop k s)) as (c&r&Hdr&_); [rewrite length_drop; fold j; lia|].
    fold j in Hdr. rewrite Hdr in Hs3. destruct Hs3 as (Hx&?&_).
    rewrite (bind_ok _ _ _ _ _ (load_eq _ _ _ Hx)), (proj2 (Z.eqb_neq c 0)) by lia. cbn [negb].
    by rewrite (bind_ok _ _ _ _ _ (store_eq m e 0 ltac:(eauto) ltac:(unfold in_u; lia))).
  - rewrite drop_ge in Hs3 by (rewrite length_drop; lia).
    by rewrite (bind_ok _ _ _ _ _ (load_eq _ _ _ Hs3)).
Qed.

(** A zero stored into a string ends it there. *)
Lemma str_at_cut m p s j :
  str_at m p s -> (j < length s)%nat -> str_at (<[p + Z.of_nat j := 0]> m) p (take j s).
Proof.
  revert p j. induction s as [|x s IH]; intros p j Hs Hj; simpl in Hj; [lia|]. destruct Hs as (Hx&?&Hs).
  destruct j as [|j]; cbn [take str_at]; [by rewrite Z.add_0_r, lookup_insert_eq|].
  rewrite lookup_insert_ne by lia. split_and!; [done|lia..|].
  replace (p + Z.of_nat (S j)) with (p + 1 + Z.of_nat j) by lia. apply IH; [done|lia].
Qed.

(** Only bytes of the string at [p] change. *)
Definition within (p : ptr) (s : list Z) (m m' : mem) : Prop :=
  dom m' = dom m /\ forall q, ~ (p <= q < p + zlen s) -> m' !! q = m !! q.

Lemma within_refl p s m : within p s m m.
Proof. by split. Qed.

(** One call of [strtok_r]: the first word, and where the search goes on. *)
Lemma strtok_step m p d ds s save st :
  mem_ok m -> str_at m d ds -> str_at m st s -> st = (if p =? NULL then save else p) ->
  match words ds [] s with
  | [] => strtok_r p d save m = Ok ((NULL, st + zlen s), m)
  | w :: ws => exists token save' s' m', strtok_r p d save m = Ok ((token, save'), m') /\ st <= token /\
      str_at m' token w /\ token + zlen w < save' + Z.of_nat (if decide (s' = []) then 1 else 0) /\
      str_at m' save' s' /\ words ds [] s' = ws /\ save' + zlen s' = st + zlen s /\ (length s' < length s)%nat /\ within st s m m'
  end.
Proof.
  intros Hm Hd Hs Es. pose proof (strtok_r_eq m p d ds s save st Hm Hd Hs Es) as Ht. cbv zeta in Ht.
  rewrite words_skip. set (k := before (fun c => negb (in_set ds c)) s) in *. set (j := before (in_set ds) (drop k s)) in *.
  pose proof (before_le (fun c => negb (in_set ds c)) s) as Hk. fold k in Hk. case_decide as Hkl; [|by rewrite drop_ge by lia].
  destruct (before_head (fun c => negb (in_set ds c)) s Hkl) as (c&r&Hdr&Hc). fold k in Hdr. rewrite words_token. fold j. cbn [app].
  assert (exists j', j = S j') as [j' Ej]. { unfold j. rewrite Hdr. simpl. apply negb_true_iff in Hc. rewrite Hc. eauto. }
  assert (flush (take j (drop k s)) = [take j (drop k s)]) as -> by (rewrite Hdr, Ej; done). cbn [app].
  pose proof (str_at_drop _ _ _ k Hs Hk) as Hs2. pose proof (before_le (in_set ds) (drop k s)) as Hj. fold j in Hj. rewrite length_drop in Hj.
  case_decide as Hjl; (eexists _, _, (drop (S j) (drop k s)), _; split; [exact Ht|]; split; [lia|]).
  - split; [apply str_at_cut; [done|rewrite length_drop; lia]|]. split_and!.
    + rewrite length_take, length_drop. lia.
    + eapply str_at_ext; [intros q ?; by rewrite lookup_insert_ne by lia|].
      replace (_ + 1) with (st + Z.of_nat k + Z.of_nat (S j)) by lia. apply str_at_drop; [done|]. rewrite length_drop. lia.
    + done.
    + rewrite !length_drop. lia.
    + rewrite !length_drop. lia.
    + split; [apply dom_insert_lookup_L, (str_at_mapped _ _ _ _ Hs); lia|]. intros q Hq. by rewrite lookup_insert_ne by lia.
  - assert (j = length (drop k s)) as Ejl by (rewrite length_drop; lia). rewrite (take_ge (drop k s)), (drop_ge (drop k s)) by lia.
    split; [done|]. split_and!; [rewrite decide_True by done; lia| |done|simpl; rewrite Ejl, length_drop; lia|simpl; lia|apply within_refl].
    rewrite Ejl. by replace [] with (drop (length (drop k s)) (drop k s)) by (by rewrite drop_ge); apply str_at_drop.
Qed.

(** Stores after the token do not reach it. *)
Lemma token_kept m m' token w save s : str_at m token w -> token + zlen w < save + Z.of_nat (if decide (s = []) then 1 else 0) ->
  (forall q, token <= q <= token + zlen w -> q < save \/ s = [] -> m' !! q = m !! q) -> str_at m' token w.
Proof. intros Hw Hl Hq. eapply str_at_ext; [|exact Hw]. intros q ?. apply Hq; [done|]. case_decide; [by right|left; lia]. Qed.

Lemma tokenize_eq fuel m p d ds s save st :
  mem_ok m -> str_at m d ds -> str_at m st s -> st = (if p =? NULL then save else p) ->
  d + zlen ds < st \/ st + zlen s < d -> (length s < fuel)%nat ->
  exists ts m', tokenize fuel p d save m = Ok (ts, m') /\
    Forall2 (str_at m') ts (words ds [] s) /\ within st s m m'.
Proof.
  revert m p s save st. induction fuel as [|fuel IH]; intros m p s save st Hm Hd Hs Es Hdj Hf; [lia|].
  pose proof (mem_ok_str _ _ _ Hm Hs). pose proof (strtok_step m p d ds s save st Hm Hd Hs Es) as Ht. cbn [tokenize].
  destruct (words ds [] s) as [|w ws].
  { rewrite (bind_ok _ _ _ _ _ Ht). exists [], m. split_and!; [done|constructor|apply within_refl]. }
  destruct Ht as (token&save'&s'&m1&Ht&Hst&Hw&Hl&Hs'&Hws&Hend&Hlen&Hdom&Hin). rewrite (bind_ok _ _ _ _ _ Ht), (proj2 (Z.eqb_neq _ NULL)) by lia.
  assert (st <= save') by (case_decide; lia).
  destruct (IH m1 NULL s' save' save') as (ts&m'&He&Hts&Hdom'&Hin'); try done.
  - intros q b Hb. apply (mem_ok_lookup m); [done|]. apply elem_of_dom. rewrite <- Hdom. by eapply elem_of_dom_2.
  - eapply str_at_ext; [|exact Hd]. intros q ?. apply Hin. lia.
  - lia.
  - lia.
  - rewrite (bind_ok _ _ _ _ _ He). eexists _, m'. split; [done|]. split.
    + constructor; [|by rewrite <- Hws]. eapply token_kept; [exact Hw|exact Hl|]. intros q _ Hq. apply Hin'. destruct Hq as [?| ->]; simpl; lia.
    + split; [by rewrite Hdom'|]. intros q Hq. rewrite Hin' by lia. apply Hin. lia.
Qed.
End facts.

(** ** The properties *)

(** [memmove] moves a block correctly however source and destination
    overlap, [memcpy] does so when the destination does not start inside the
    source, [memset] fills a block; no other byte changes.  [memcpy] and
    [memset] return the destination, [memmove] only when the destination does
    not come before the source: in the other case it returns its end. *)
Theorem block_ops_correct m dst src bs v :
  mem_ok m -> bytes_at m src bs -> mapped m dst (zlen bs) ->
  memmove dst src (zlen bs) m = Ok (if dst <? src then dst + zlen bs else dst, write m dst bs) /\
  bytes_at (write m dst bs) dst bs /\
  (forall q, ~ (dst <= q < dst + zlen bs) -> write m dst bs !! q = m !! q) /\
  (dst <= src \/ src + zlen bs <= dst -> memcpy dst src (zlen bs) m = Ok (dst, write m dst bs)) /\
  memset dst v (zlen bs) m = Ok (dst, write m dst (replicate (length bs) (u8 v))).
Proof.
  intros Hm Hb Hd. split_and!.
  - by apply memmove_eq.
  - apply write_bytes_at. by eapply bytes_at_in_u.
  - intros q Hq. by rewrite lookup_write, decide_False.
  - intros. by apply memcpy_eq.
  - rewrite memset_eq by (done || lia). by rewrite Nat2Z.id.
Qed.

(** C29. Calling [strtok_r] until it returns a null pointer yields, in order,
    exactly the maximal runs of non-delimiters of the string, each as a string
    of its own in the final memory; no byte outside the string changes. *)
Theorem strtok_r_tokens m p d s ds save :
  mem_ok m -> str_at m p s -> str_at m d ds -> d + zlen ds < p \/ p + zlen s < d ->
  exists ts m', tokenize (S (length s)) p d save m = Ok (ts, m') /\
    Forall2 (str_at m') ts (words ds [] s) /\ within p s m m'.
Proof.
  intros Hm Hs Hd Hdj. apply tokenize_eq; try done; [|lia].
  pose proof (mem_ok_str _ _ _ Hm Hs). by rewrite (proj2 (Z.eqb_neq _ _)) by lia.
Qed.

(** [strlcpy] and [strlcat] never store more than [size] bytes from the
    start of the buffer, always leave it terminated (unless [size] is 0 or, for
    [strlcat], the string there fills it), and return the length of the
    untruncated result. *)
Theorem strlcpy_strlcat_correct m dst src s t size :
  mem_ok m -> str_at m src s -> str_at m dst t -> in_u 32 size -> zlen t < size -> zlen s + zlen t < 2 ^ 32 ->
  mapped m dst size -> dst + size <= src \/ src + zlen s < dst ->
  (exists m', strlcpy dst src size m = Ok (zlen s, m') /\
     str_at m' dst (take (Z.to_nat size - 1) s) /\
     forall q, ~ (dst <= q < dst + size) -> m' !! q = m !! q) /\
  (exists m', strlcat dst src size m = Ok (zlen s + zlen t, m') /\
     str_at m' dst (t ++ take (Z.to_nat (size - zlen t) - 1) s) /\
     forall q, ~ (dst <= q < dst + size) -> m' !! q = m !! q).
Proof.
  intros Hm Hs Ht Hu Hsz Hl Hd Ho. pose proof (mem_ok_str _ _ _ Hm Ht).
  assert (forall n, (0 < n)%nat -> zlen (clipped s n) <= Z.of_nat n) as Hc
    by (intros n ?; unfold clipped; rewrite length_app, length_take; simpl; lia).
  pose proof (proj1 (str_bytes _ _ _) Hs) as [Hbs Hz].
  pose proof (proj1 (str_bytes _ _ _) Ht) as [Hbt Hzt]. apply bytes_at_app in Hbt as [Hbt _].
  assert (forall n, 0 ∉ take n s) as Hzn by (intros n Hn; apply Hz; rewrite <- (take_drop n s); set_solver).
  assert (forall n, Forall (in_u 8) (clipped s n)) as Hu8.
  { intros n. apply bytes_at_in_u in Hbs. apply Forall_app in Hbs as [? ?]. apply Forall_app. split; [by apply Forall_take|done]. }
  split.
  - specialize (Hc (Z.to_nat size) ltac:(lia)). eexists. rewrite (strlcpy_eq m dst src s size); [|done|done|done|lia|].
    + rewrite (proj2 (Z.ltb_lt 0 size)) by lia. split_and!; [done| |].
      * apply str_bytes. split; [apply (write_bytes_at m dst (clipped s (Z.to_nat size))), Hu8|done].
      * intros q Hq. rewrite lookup_write, decide_False by lia. done.
    + intros _. split; [intros q ?; apply Hd; lia|lia].
  - specialize (Hc (Z.to_nat (size - zlen t)) ltac:(lia)). eexists.
    rewrite (strlcat_eq m dst src s t size); [|done..|].
    + rewrite (proj2 (Z.ltb_lt _ size)) by lia. split_and!; [done| |].
      * apply str_bytes. rewrite <- app_assoc. split; [|set_solver]. apply bytes_at_app.
        split; [apply write_frame; [lia|done]|apply (write_bytes_at m _ (clipped s (Z.to_nat (size - zlen t)))), Hu8].
      * intros q Hq. rewrite lookup_write, decide_False by lia. done.
    + intros n d ?. subst n d. split; [intros q ?; apply Hd; lia|lia].
Qed.

(** The queries on strings: length (bounded or not), comparison (zero
    exactly for equal strings), first and last occurrence of a character,
    length of the initial part inside or outside a set, first character of a
    set, first occurrence of a string.  None changes the memory. *)
Theorem string_queries_correct m p q s t c n :
  mem_ok m -> str_at m p s -> str_at m q t -> 0 <= n ->
  strlen p m = Ok (zlen s, m) /\
  strnlen p n m = Ok (Z.min (zlen s) n, m) /\
  strcmp p q m = Ok (lex s t, m) /\ (lex s t = 0 <-> s = t) /\
  strchr p c m = Ok (let i := before (Z.eqb (u8 c)) s in
    if decide (i < length s)%nat then p + Z.of_nat i else if u8 c =? 0 then p + zlen s else NULL, m) /\
  strrchr p c m = Ok (let i := before (Z.eqb (u8 c)) (reverse s) in
    if decide (i < length s)%nat then p + zlen s - 1 - Z.of_nat i else NULL, m) /\
  strcspn p q m = Ok (Z.of_nat (before (in_set t) s), m) /\
  strspn p q m = Ok (Z.of_nat (before (fun c => negb (in_set t c)) s), m) /\
  strpbrk p q m = Ok (let i := before (in_set t) s in
    if decide (i < length s)%nat then p + Z.of_nat i else NULL, m) /\
  exists r, strstr p q m = Ok (r, m) /\
    ((exists k, r = p + Z.of_nat k /\ occurs t s k /\ forall k', (k' < k)%nat -> ~ occurs t s k')
     \/ (r = NULL /\ forall k, ~ occurs t s k)).
Proof.
  intros Hm Hs Ht Hn. destruct (span_eq m p q t s Hm Ht Hs) as [-> ->].
  split_and!; [by apply strlen_eq|by apply strnlen_eq|by apply strcmp_eq|apply lex_zero
    |by apply strchr_eq|by apply strrchr_eq|done|done|by apply strpbrk_eq|by apply strstr_eq].
Qed.

(** ** Witnesses *)

(** "ab  c" at 10 and " " at 30, with room at 50. *)
Definition demo_mem : mem :=
  write (write (write ∅ 10 [97; 98; 32; 32; 99; 0]) 30 [32; 0]) 50 [120; 0; 7; 7; 7; 7].

Lemma demo_mem_ok : mem_ok demo_mem.
Proof. apply (bool_decide_unpack _). vm_compute. exact I. Qed.

Lemma demo_room : mapped demo_mem 50 6.
Proof. apply (bytes_at_mapped _ _ [120; 0; 7; 7; 7; 7]), (bool_decide_unpack _). vm_compute. exact I. Qed.

Lemma block_ops_correct_witness :
  memmove 50 10 5 demo_mem = Ok (50, write demo_mem 50 [97; 98; 32; 32; 99]).
Proof.
  refine (proj1 (block_ops_correct demo_mem 50 10 [97; 98; 32; 32; 99] 0 demo_mem_ok _ _)).
  - apply (bool_decide_unpack _). vm_compute. exact I.
  - intros q Hq. apply demo_room. simpl in Hq. lia.
Defined.

Lemma strtok_r_tokens_witness :
  exists ts m', tokenize 6 10 30 0 demo_mem = Ok (ts, m') /\
    Forall2 (str_at m') ts [[97; 98]; [99]] /\ within 10 [97; 98; 32; 32; 99] demo_mem m'.
Proof.
  apply (strtok_r_tokens demo_mem 10 30 [97; 98; 32; 32; 99] [32] 0 demo_mem_ok); [..|simpl; lia];
    apply (bool_decide_unpack _); vm_compute; exact I.
Defined.

Lemma strlcpy_strlcat_correct_witness :
  exists m', strlcpy 50 10 4 demo_mem = Ok (5, m') /\ str_at m' 50 [97; 98; 32] /\
     forall q, ~ (50 <= q < 50 + 4) -> m' !! q = demo_mem !! q.
Proof.
  refine (proj1 (strlcpy_strlcat_correct demo_mem 50 10 [97; 98; 32; 32; 99] [120] 4 demo_mem_ok _ _ _ _ _ _ _));
    [apply (bool_decide_unpack _); vm_compute; exact I..|unfold in_u; lia|simpl; lia|simpl; lia| |simpl; lia].
  intros q Hq. apply demo_room. lia.
Defined.

Lemma string_queries_correct_witness : strlen 10 demo_mem = Ok (5, demo_mem).
Proof.
  refine (proj1 (string_queries_correct demo_mem 10 30 [97; 98; 32; 32; 99] [32] 98 3 demo_mem_ok _ _ _));
    [apply (bool_decide_unpack _); vm_compute; exact I..|lia].
Defined.

End CString.
