(* ===== verification/Arith64.v ===== *)
(** * 64-bit division: lib/arithmetic.c

    The routines GCC calls for 64-bit division on a 32-bit machine.  A
    division traps when the divisor is zero or, for the DIVL instruction, when
    the quotient does not fit in 32 bits; the theorems show that the second
    never happens here. *)

From S2P Require Import Prelude.
Local Open Scope Z_scope.

Module Arith64.

(** ** The code *)

(** The DIVL instruction on [n], in two registers, and [d]. *)
Definition divl (n d : Z) : res Z :=
  let n1 := u32 (Z.shiftr n 32) in
  let n0 := u32 n in
  if d =? 0 then Err ETrap
  else let q := (n1 * 2 ^ 32 + n0) / d in if q <? 2 ^ 32 then Ok q else Err ETrap.

(** 32-bit [/] and [%]. *)
Definition udiv32 (a b : Z) : res Z := if b =? 0 then Err ETrap else Ok (a / b).
Definition umod32 (a b : Z) : res Z := if b =? 0 then Err ETrap else Ok (a mod b).

Definition nlz (x : Z) : Z :=
  let n := 0 in
  let '(n, x) := if x <=? 0x0000FFFF then (n + 16, u32 (Z.shiftl x 16)) else (n, x) in
  let '(n, x) := if x <=? 0x00FFFFFF then (n + 8, u32 (Z.shiftl x 8)) else (n, x) in
  let '(n, x) := if x <=? 0x0FFFFFFF then (n + 4, u32 (Z.shiftl x 4)) else (n, x) in
  let '(n, x) := if x <=? 0x3FFFFFFF then (n + 2, u32 (Z.shiftl x 2)) else (n, x) in
  if x <=? 0x7FFFFFFF then n + 1 else n.

Definition udiv64 (n d : Z) : res Z :=
  if Z.shiftr d 32 =? 0 then
    let b := u64 (Z.shiftl 1 32) in
    let n1 := u32 (Z.shiftr n 32) in
    let n0 := u32 n in
    let d0 := u32 d in
    let? r := umod32 n1 d0 in
    let? q := divl (u64 (b * r + n0)) d0 in
    let? q1 := udiv32 n1 d0 in
    Ok (u64 (q + u64 (b * q1)))
  else if n <? d then Ok 0
  else
    let d1 := u32 (Z.shiftr d 32) in
    let s := nlz d1 in
    let? q := divl (Z.shiftr n 1) (u32 (Z.shiftr (u64 (Z.shiftl d s)) 32)) in
    let q := Z.shiftr q (31 - s) in
    Ok (if u64 (n - u64 (u64 (q - 1) * d)) <? d then u64 (q - 1) else q).

Definition umod64 (n d : Z) : res Z :=
  let? q := udiv64 n d in Ok (u32 (u64 (n - u64 (d * q)))).

(** Signed arithmetic wraps around. *)
Definition sdiv64 (n d : Z) : res Z :=
  let n_abs := if 0 <=? n then u64 n else u64 (- u64 n) in
  let d_abs := if 0 <=? d then u64 d else u64 (- u64 d) in
  let? q_abs := udiv64 n_abs d_abs in
  Ok (if Bool.eqb (n <? 0) (d <? 0) then s64 q_abs else s64 (- s64 q_abs)).

Definition smod64 (n d : Z) : res Z :=
  let? q := sdiv64 n d in Ok (s32 (s64 (n - s64 (d * q)))).

Definition __divdi3 (n d : Z) : res Z := sdiv64 n d.
Definition __moddi3 (n d : Z) : res Z := smod64 n d.
Definition __udivdi3 (n d : Z) : res Z := udiv64 n d.
Definition __umoddi3 (n d : Z) : res Z := umod64 n d.

(** ** Leading zeros *)

(** One step of [nlz]: [x] is [x0] shifted left by [n]. *)
Lemma nlz_step x0 n x k lim :
  0 <= n -> 0 < k -> x = x0 * 2 ^ n -> 2 ^ (32 - 2 * k) <= x < 2 ^ 32 -> lim = 2 ^ (32 - k) - 1 -> 2 * k <= 32 ->
  let '(n', x') := if x <=? lim then (n + k, u32 (Z.shiftl x k)) else (n, x) in
  n <= n' <= n + k /\ x' = x0 * 2 ^ n' /\ 2 ^ (32 - k) <= x' < 2 ^ 32.
Proof.
  intros Hn Hk -> Hx -> Hk2. destruct (Z.leb_spec (x0 * 2 ^ n) (2 ^ (32 - k) - 1)); [|split_and!; lia].
  assert (2 ^ (32 - k) * 2 ^ k = 2 ^ 32) as E1 by (rewrite <- Z.pow_add_r by lia; f_equal; lia).
  assert (2 ^ (32 - 2 * k) * 2 ^ k = 2 ^ (32 - k)) as E2 by (rewrite <- Z.pow_add_r by lia; f_equal; lia).
  assert (0 < 2 ^ k) by lia. rewrite Z.shiftl_mul_pow2 by lia. rewrite wrapu_small by (unfold in_u; nia).
  split_and!; [lia|lia|rewrite <- Z.mul_assoc, <- Z.pow_add_r by lia; done|nia|nia].
Qed.

Lemma nlz_spec x : 0 < x < 2 ^ 32 -> 0 <= nlz x <= 31 /\ 2 ^ 31 <= x * 2 ^ nlz x < 2 ^ 32.
Proof.
  intros Hx. unfold nlz.
  pose proof (nlz_step x 0 x 16 0xFFFF ltac:(lia) ltac:(lia) ltac:(lia) ltac:(lia) eq_refl ltac:(lia)) as S1.
  destruct (if x <=? 0xFFFF then _ else _) as [n1 x1]. destruct S1 as (?&E1&?).
  pose proof (nlz_step x n1 x1 8 0xFFFFFF ltac:(lia) ltac:(lia) E1 ltac:(lia) eq_refl ltac:(lia)) as S2.
  destruct (if x1 <=? 0xFFFFFF then _ else _) as [n2 x2]. destruct S2 as (?&E2&?).
  pose proof (nlz_step x n2 x2 4 0xFFFFFFF ltac:(lia) ltac:(lia) E2 ltac:(lia) eq_refl ltac:(lia)) as S3.
  destruct (if x2 <=? 0xFFFFFFF then _ else _) as [n3 x3]. destruct S3 as (?&E3&?).
  pose proof (nlz_step x n3 x3 2 0x3FFFFFFF ltac:(lia) ltac:(lia) E3 ltac:(lia) eq_refl ltac:(lia)) as S4.
  destruct (if x3 <=? 0x3FFFFFFF then _ else _) as [n4 x4]. destruct S4 as (?&E4&?).
  destruct (Z.leb_spec x4 0x7FFFFFFF).
  - replace (x * 2 ^ (n4 + 1)) with (2 * x4) by (rewrite E4, Z.pow_add_r by lia; lia). lia.
  - rewrite <- E4. lia.
Qed.

(** ** Unsigned division *)

Lemma hi_lo n : 0 <= n < 2 ^ 64 -> u32 (Z.shiftr n 32) = n / 2 ^ 32 /\ u32 n = n mod 2 ^ 32.
Proof.
  intros. rewrite Z.shiftr_div_pow2 by lia. split; [|done]. apply wrapu_small. unfold in_u.
  split; [apply Z.div_pos; lia|apply Z.div_lt_upper_bound; lia].
Qed.

Lemma divl_eq n d : 0 <= n < 2 ^ 64 -> 0 < d -> n / d < 2 ^ 32 -> divl n d = Ok (n / d).
Proof.
  intros Hn Hd Hq. unfold divl. destruct (hi_lo n Hn) as [-> ->]. rewrite (proj2 (Z.eqb_neq d 0)) by lia.
  replace (n / 2 ^ 32 * 2 ^ 32 + n mod 2 ^ 32) with n by (rewrite Z.mul_comm; apply Z.div_mod; lia).
  by rewrite (proj2 (Z.ltb_lt _ _)).
Qed.

Lemma udiv64_small n d : 0 <= n < 2 ^ 64 -> 0 < d < 2 ^ 32 -> udiv64 n d = Ok (n / d).
Proof.
  intros Hn Hd. unfold udiv64. rewrite Z.shiftr_div_pow2, Z.div_small by lia.
  destruct (hi_lo n Hn) as [-> ->]. change (u64 (Z.shiftl 1 32)) with (2 ^ 32). cbn [Z.eqb].
  rewrite (wrapu_small 32 d) by (unfold in_u; lia).
  unfold umod32, udiv32. rewrite (proj2 (Z.eqb_neq d 0)) by lia. cbn [rbind].
  set (n1 := n / 2 ^ 32). set (n0 := n mod 2 ^ 32).
  assert (n = 2 ^ 32 * n1 + n0) as En by (apply Z.div_mod; lia).
  pose proof (Z.mod_pos_bound n (2 ^ 32) ltac:(lia)) as Hn0. fold n0 in Hn0.
  pose proof (Z.mod_pos_bound n1 d ltac:(lia)) as Hr. pose proof (Z.div_mod n1 d ltac:(lia)) as E1.
  assert (0 <= n1 < 2 ^ 32) as Hn1 by lia.
  assert (0 <= n1 / d <= n1) by (split; [apply Z.div_pos; lia|apply Z.div_le_upper_bound; nia]).
  assert (n / d = (2 ^ 32 * (n1 mod d) + n0) / d + 2 ^ 32 * (n1 / d)) as Eq.
  { rewrite <- Z.div_add by lia. f_equal. lia. }
  assert (0 <= (2 ^ 32 * (n1 mod d) + n0) / d < 2 ^ 32) as Hq
    by (split; [apply Z.div_pos; lia|apply Z.div_lt_upper_bound; lia]).
  assert (n / d < 2 ^ 64) by (apply Z.div_lt_upper_bound; nia).
  rewrite (wrapu_small 64 (2 ^ 32 * (n1 mod d) + n0)) by (unfold in_u; nia).
  rewrite divl_eq by nia. cbn [rbind].
  rewrite (wrapu_small 64 (2 ^ 32 * (n1 / d))) by (unfold in_u; lia). rewrite <- Eq.
  rewrite wrapu_small; [done|]. unfold in_u. split; [apply Z.div_pos; lia|lia].
Qed.

(** The quotient by a divisor whose low bits were dropped is at most one too
    large. *)
Lemma quot_estimate n v a e :
  0 <= n < 2 ^ 64 -> 2 ^ 31 <= v -> 2 <= a -> 0 <= e < a ->
  n / (v * a + e) <= n / (v * a) <= n / (v * a + e) + 1.
Proof.
  intros Hn Hv Ha He. set (D := v * a). assert (0 < D) by nia. split.
  { apply Z.div_le_compat_l; lia. }
  pose proof (Z.div_mod n (D + e) ltac:(lia)) as E1. pose proof (Z.mod_pos_bound n (D + e) ltac:(lia)).
  pose proof (Z.div_mod n D ltac:(lia)) as E2. pose proof (Z.mod_pos_bound n D ltac:(lia)).
  set (q := n / (D + e)) in *. set (q' := n / D) in *.
  assert (n * e < (D + e) * D) as Hne.
  { assert (2 ^ 31 * a <= D) by nia. assert (n * e <= (2 ^ 64 - 1) * (a - 1)) by nia.
    assert (2 ^ 62 * (a * a) <= (D + e) * D) by nia.
    assert (4 * (a - 1) <= a * a) by (clear -Ha; nia). lia. }
  destruct (Z.le_gt_cases q' (q + 1)); [done|]. exfalso.
  assert ((q + 2) * D <= n) by nia.
  assert ((q + 2) * D * (D + e) <= n * (D + e)) by (apply Z.mul_le_mono_nonneg_r; lia).
  assert ((q + 1) * (D + e) * D < n * D) as Hlt by lia. apply Z.mul_lt_mono_pos_r in Hlt; lia.
Qed.

(** The correction at the end of [udiv64] undoes an estimate one too large. *)
Lemma fix_estimate n d q :
  0 <= n < 2 ^ 64 -> 2 ^ 32 <= d <= n -> n / d <= q <= n / d + 1 ->
  (if u64 (n - u64 (u64 (q - 1) * d)) <? d then u64 (q - 1) else q) = n / d.
Proof.
  intros Hn Hd Hq. pose proof (Z.div_mod n d ltac:(lia)) as E. pose proof (Z.mod_pos_bound n d ltac:(lia)).
  set (k := n / d) in *. assert (1 <= k) by (apply Z.div_le_lower_bound; lia).
  assert (k < 2 ^ 32) by nia.
  rewrite (wrapu_small 64 (q - 1)) by (unfold in_u; lia).
  assert (0 <= (q - 1) * d <= n) by nia.
  rewrite (wrapu_small 64 ((q - 1) * d)) by (unfold in_u; lia).
  rewrite (wrapu_small 64 (n - _)) by (unfold in_u; lia).
  destruct (Z.ltb_spec (n - (q - 1) * d) d); nia.
Qed.

Lemma udiv64_big n d : 0 <= n < 2 ^ 64 -> 2 ^ 32 <= d < 2 ^ 64 -> udiv64 n d = Ok (n / d).
Proof.
  intros Hn Hd. unfold udiv64.
  assert (0 < d / 2 ^ 32 < 2 ^ 32) as Hd1 by (split; [apply Z.div_str_pos|apply Z.div_lt_upper_bound]; lia).
  destruct (hi_lo d ltac:(lia)) as [-> _]. rewrite !(Z.shiftr_div_pow2 d) by lia.
  rewrite (proj2 (Z.eqb_neq (d / 2 ^ 32) 0)) by lia.
  destruct (Z.ltb_spec n d); [by rewrite Z.div_small by lia|].
  destruct (nlz_spec _ Hd1) as [Hs Hnorm]. set (s := nlz (d / 2 ^ 32)) in *.
  set (a := 2 ^ (32 - s)). set (p := 2 ^ s) in *.
  assert (p * a = 2 ^ 32) as Epa by (unfold p, a; rewrite <- Z.pow_add_r by lia; f_equal; lia).
  assert (2 <= a) as Ha by (unfold a; change 2 with (2 ^ 1) at 1; apply Z.pow_le_mono_r; lia).
  assert (0 < p) as Hp by (unfold p; lia).
  pose proof (Z.div_mod d (2 ^ 32) ltac:(lia)) as Ed. pose proof (Z.mod_pos_bound d (2 ^ 32) ltac:(lia)).
  assert (d / 2 ^ 32 < a) as Hda by (apply (Z.mul_lt_mono_pos_r p); lia).
  assert (2 ^ 31 * a <= d / 2 ^ 32 * (p * a)) as Hlo by (rewrite Z.mul_assoc; apply Z.mul_le_mono_nonneg_r; lia).
  rewrite Epa in Hlo. assert (2 ^ 31 * a <= d < 2 ^ 32 * a) as Hdb by lia.
  assert (d * p < 2 ^ 32 * a * p) as Hdp by (apply Z.mul_lt_mono_pos_r; lia).
  rewrite <- Z.mul_assoc, (Z.mul_comm a p), Epa in Hdp. assert (0 <= d * p) by (apply Z.mul_nonneg_nonneg; lia).
  rewrite Z.shiftl_mul_pow2 by lia. fold p. rewrite (wrapu_small 64 (d * p)) by (unfold in_u; lia).
  rewrite (Z.shiftr_div_pow2 (d * p)), <- Epa, Z.mul_comm, Z.div_mul_cancel_l by lia.
  pose proof (Z.div_mod d a ltac:(lia)) as Ea. pose proof (Z.mod_pos_bound d a ltac:(lia)).
  set (v := d / a) in *. assert (2 ^ 31 <= v < 2 ^ 32) as Hv.
  { unfold v. split; [apply Z.div_le_lower_bound|apply Z.div_lt_upper_bound]; lia. }
  rewrite (wrapu_small 32 v) by (unfold in_u; lia). rewrite Z.shiftr_div_pow2 by lia. change (2 ^ 1) with 2.
  assert (0 <= n / 2 < 2 ^ 63) by (split; [apply Z.div_pos|apply Z.div_lt_upper_bound]; lia).
  rewrite divl_eq; [|lia|lia|apply Z.div_lt_upper_bound; nia]. cbn [rbind].
  rewrite Z.shiftr_div_pow2, !Z.div_div by lia.
  replace (2 * (v * 2 ^ (31 - s))) with (v * a)
    by (unfold a; replace (32 - s) with (Z.succ (31 - s)) by lia; rewrite Z.pow_succ_r by lia; lia).
  f_equal. apply fix_estimate; [lia|lia|]. rewrite (Z.mul_comm a v) in Ea.
  pose proof (quot_estimate n v a (d mod a) ltac:(lia) ltac:(lia) ltac:(lia) ltac:(lia)) as Hest. by rewrite <- Ea in Hest.
Qed.

Lemma udiv64_eq n d : in_u 64 n -> in_u 64 d -> d <> 0 -> udiv64 n d = Ok (n / d).
Proof.
  unfold in_u. intros. destruct (Z.lt_ge_cases d (2 ^ 32)); [apply udiv64_small|apply udiv64_big]; lia.
Qed.

(** ** The properties *)

(** C30. Unsigned 64-bit division is exact, and traps only on a zero divisor. *)
Theorem udivdi3_correct n d :
  in_u 64 n -> in_u 64 d -> __udivdi3 n d = if d =? 0 then Err ETrap else Ok (n / d).
Proof.
  intros Hn Hd. unfold __udivdi3. destruct (Z.eqb_spec d 0) as [->|]; [done|]. by apply udiv64_eq.
Qed.

(** The absolute values [sdiv64] computes. *)
Lemma abs64 n : in_s 64 n -> (if 0 <=? n then u64 n else u64 (- u64 n)) = Z.abs n.
Proof.
  unfold in_s. intros Hn. change (64 - 1) with 63 in Hn. destruct (Z.leb_spec 0 n).
  - rewrite wrapu_small by (unfold in_u; lia). lia.
  - assert (u64 n = n + 2 ^ 64) as ->
      by (unfold wrapu; symmetry; apply (Z.mod_unique n (2 ^ 64) (-1)); lia).
    unfold wrapu. rewrite <- (Z.mod_unique (- (n + 2 ^ 64)) (2 ^ 64) (-1) (- n)); lia.
Qed.

Lemma quot_abs n d :
  d <> 0 -> Z.quot n d = if Bool.eqb (n <? 0) (d <? 0) then Z.abs n / Z.abs d else - (Z.abs n / Z.abs d).
Proof.
  intros. rewrite Z.quot_div by done.
  destruct (Z.ltb_spec n 0), (Z.ltb_spec d 0); cbn [Bool.eqb];
    rewrite ?(Z.sgn_neg n), ?(Z.sgn_neg d), ?(Z.sgn_pos d) by lia; try lia;
    (destruct (Z.eq_dec n 0) as [->|]; [by rewrite Z.abs_0, Z.div_0_l by lia|rewrite Z.sgn_pos by lia; lia]).
Qed.

(** Signed 64-bit division truncates towards zero; the one quotient that
    does not fit, that of the least number by -1, wraps around. *)
Theorem divdi3_correct n d :
  in_s 64 n -> in_s 64 d -> __divdi3 n d = if d =? 0 then Err ETrap else Ok (s64 (Z.quot n d)).
Proof.
  intros Hn Hd. unfold __divdi3, sdiv64. rewrite !abs64 by done.
  destruct (Z.eqb_spec d 0) as [->|]; [done|]. unfold in_s in *. change (64 - 1) with 63 in *.
  rewrite udiv64_eq by (unfold in_u; lia). cbn [rbind]. rewrite quot_abs by done.
  assert (0 <= Z.abs n / Z.abs d <= 2 ^ 63) as Hq
    by (split; [apply Z.div_pos|apply Z.div_le_upper_bound]; nia).
  set (q := Z.abs n / Z.abs d) in *. destruct (Bool.eqb _ _); [done|]. f_equal.
  destruct (Z.eq_dec q (2 ^ 63)) as [->|]; [done|]. by rewrite (wraps_small 64 q) by (unfold in_s; lia).
Qed.

(** The remainders are correct only up to 32 bits: [umod64] and [smod64]
    are declared to return 32-bit integers, and [__umoddi3] and [__moddi3]
    return what is left of the remainder. *)
Theorem moddi3_truncated n d :
  in_s 64 n -> in_s 64 d -> d <> 0 -> 0 <= n -> 0 < d ->
  __umoddi3 n d = Ok (u32 (n mod d)) /\ __moddi3 n d = Ok (s32 (n mod d)).
Proof.
  intros Hn Hd Hd0 Hn' Hd'. pose proof (Z.div_mod n d Hd0). pose proof (Z.mod_pos_bound n d Hd').
  assert (0 <= n / d) by (by apply Z.div_pos). assert (0 <= d * (n / d) <= n) by nia.
  unfold in_s in *. change (64 - 1) with 63 in *. split.
  - unfold __umoddi3, umod64. rewrite udiv64_eq by (done || unfold in_u; lia). cbn [rbind].
    rewrite (wrapu_small 64 (d * _)), (wrapu_small 64) by (unfold in_u; lia). do 2 f_equal. lia.
  - unfold __moddi3, smod64, sdiv64. rewrite !abs64, udiv64_eq by (unfold in_s, in_u; lia).
    rewrite !Z.abs_eq, !(proj2 (Z.ltb_ge _ _)) by lia. cbn [rbind Bool.eqb].
    assert (n / d <= n) by nia.
    rewrite (wraps_small 64 (n / d)), (wraps_small 64 (d * _)), (wraps_small 64 (n - _)) by (unfold in_s; lia). do 2 f_equal. lia.
Qed.

(** A remainder that needs more than 32 bits comes out wrong. *)
Lemma umoddi3_wrong : __umoddi3 (2 ^ 32) (2 ^ 33) = Ok 0 /\ (2 ^ 32) mod (2 ^ 33) = 2 ^ 32.
Proof. split; reflexivity. Qed.

(** ** Witnesses *)

Lemma udivdi3_correct_witness : __udivdi3 (2 ^ 63 + 12345) (2 ^ 35 + 7) = Ok ((2 ^ 63 + 12345) / (2 ^ 35 + 7)).
Proof. apply (udivdi3_correct (2 ^ 63 + 12345) (2 ^ 35 + 7)); unfold in_u; lia. Defined.

Lemma divdi3_correct_witness : __divdi3 (- 2 ^ 63) (-1) = Ok (s64 (2 ^ 63)).
Proof. apply (divdi3_correct (- 2 ^ 63) (-1)); unfold in_s; lia. Defined.

Lemma moddi3_truncated_witness : __umoddi3 (2 ^ 40 + 5) (2 ^ 39) = Ok (u32 ((2 ^ 40 + 5) mod 2 ^ 39)).
Proof.
  refine (proj1 (moddi3_truncated (2 ^ 40 + 5) (2 ^ 39) _ _ _ _ _)); (unfold in_s; lia).
Defined.

End Arith64.
