(* ===== verification/CStdlib.v ===== *)
(** * Sorting, searching and number parsing: lib/stdlib.c

    [sort] is a heap sort of an array of [cnt] elements of [size] bytes each,
    here a list of blocks of bytes, with elements counted from 1 as in the
    code.  [compare] is the caller's comparison function: it depends on the
    contents of the two elements alone. *)

From S2P Require Import Prelude.
From S2P Require Import Mem.
Import Mem.
Local Open Scope Z_scope.

Module CStdlib.

(** ** lib/ctype.h *)

Definition islower (c : Z) : bool := (97 <=? c) && (c <=? 122).
Definition isupper (c : Z) : bool := (65 <=? c) && (c <=? 90).
Definition isalpha (c : Z) : bool := islower c || isupper c.
Definition isdigit (c : Z) : bool := (48 <=? c) && (c <=? 57).
Definition isalnum (c : Z) : bool := isalpha c || isdigit c.
Definition isspace (c : Z) : bool :=
  (c =? 32) || (c =? 12) || (c =? 10) || (c =? 13) || (c =? 9) || (c =? 11).
Definition tolower (c : Z) : Z := if isupper c then c - 65 + 97 else c.
Definition toupper (c : Z) : Z := if islower c then c - 97 + 65 else c.

(** ** atoi *)

Fixpoint skip_space (fuel : nat) (s : ptr) : M mem ptr :=
  match fuel with
  | O => fail EFuel
  | S f => let! c := load s in if isspace c then skip_space f (s + 1) else ret s
  end.

(** A [char] is signed, but no digit is above 127. *)
Fixpoint digits_loop (fuel : nat) (s : ptr) (value : Z) : M mem Z :=
  match fuel with
  | O => fail EFuel
  | S f =>
      let! c := load s in
      if isdigit c then digits_loop f (s + 1) (s32 (s32 (value * 10) - (c - 48))) else ret value
  end.

Definition atoi (s : ptr) : M mem Z :=
  do! assert (negb (s =? NULL)) in
  let! fuel := gets fuel_of in
  let! s := skip_space fuel s in
  let! c := load s in
  let '(negative, s) :=
    if c =? 43 then (false, s + 1) else if c =? 45 then (true, s + 1) else (false, s) in
  let! value := digits_loop fuel s 0 in
  ret (if negb negative then s32 (- value) else value).

(** ** sort *)

Abbreviation block := (list Z).
Abbreviation blocks := (list block).

Definition get_byte (k i : Z) : M blocks Z :=
  fun a => match a !! Z.to_nat (k - 1) ≫= (fun b => b !! Z.to_nat i) with
           | Some v => Ok (v, a)
           | None => Err EFault
           end.
Definition get_block (k : Z) : M blocks block :=
  fun a => match a !! Z.to_nat (k - 1) with Some b => Ok (b, a) | None => Err EFault end.
Definition set_byte (k i v : Z) : M blocks unit :=
  let! b := get_block k in
  do! get_byte k i in
  modify (fun a => <[Z.to_nat (k - 1) := <[Z.to_nat i := v]> b]> a).

Section code.
Variable compare : block -> block -> Z.
Variable size : Z.

Definition do_swap (a_idx b_idx : Z) : M blocks unit :=
  for_ (Z.to_nat size) 0 (fun i =>
    let! t := get_byte a_idx i in
    let! v := get_byte b_idx i in
    do! set_byte a_idx i v in
    set_byte b_idx i t).

Definition do_compare (a_idx b_idx : Z) : M blocks Z :=
  let! a := get_block a_idx in
  let! b := get_block b_idx in
  ret (compare a b).

Fixpoint heapify_loop (fuel : nat) (i cnt : Z) : M blocks unit :=
  match fuel with
  | O => fail EFuel
  | S f =>
      let left := u32 (2 * i) in
      let right := u32 (2 * i + 1) in
      let! max :=
        (if left <=? cnt then let! c := do_compare left i in ret (if 0 <? c then left else i)
         else ret i) in
      let! max :=
        (if right <=? cnt then let! c := do_compare right max in ret (if 0 <? c then right else max)
         else ret max) in
      if max =? i then ret tt
      else do! do_swap i max in heapify_loop f max cnt
  end.

Definition heapify (i cnt : Z) : M blocks unit := heapify_loop (S (Z.to_nat cnt)) i cnt.

(** [for (i = cnt / 2; i > 0; i--) heapify (array, i, cnt, ...)] *)
Fixpoint build_heap (i : nat) (cnt : Z) : M blocks unit :=
  match i with O => ret tt | S i' => do! heapify (Z.of_nat i) cnt in build_heap i' cnt end.

(** [for (i = cnt; i > 1; i--) ...] *)
Fixpoint sort_heap (i : nat) : M blocks unit :=
  match i with
  | S (S _ as i') =>
      do! do_swap 1 (Z.of_nat i) in
      do! heapify 1 (Z.of_nat i') in
      sort_heap i'
  | _ => ret tt
  end.

Definition sort (cnt : Z) : M blocks unit :=
  do! assert (0 <? size) in
  do! build_heap (Z.to_nat (cnt / 2)) cnt in
  sort_heap (Z.to_nat cnt).

(** [binary_search] with byte pointers [first] and [last]; the element at a
    pointer is the block it is the start of. *)
Fixpoint search_loop (fuel : nat) (key : block) (array first last : ptr) : M blocks ptr :=
  match fuel with
  | O => fail EFuel
  | S f =>
      if first <? last then
        let range := (last - first) / size in
        let middle := first + (range / 2) * size in
        let! m := get_block ((middle - array) / size + 1) in
        let cmp := compare key m in
        if cmp <? 0 then search_loop f key array first middle
        else if 0 <? cmp then search_loop f key array (middle + size) last
        else ret middle
      else ret NULL
  end.

Definition binary_search (key : block) (array cnt : Z) : M blocks ptr :=
  search_loop (S (Z.to_nat cnt)) key array array (array + u32 (size * cnt)).
End code.

(** [qsort] and [bsearch] pass their comparison through [compare_thunk]. *)
Definition compare_thunk (compare : block -> block -> Z) (a b : block) : Z := compare a b.
Definition qsort (compare : block -> block -> Z) (cnt size : Z) : M blocks unit :=
  sort (compare_thunk compare) size cnt.
Definition bsearch (compare : block -> block -> Z) (key : block) (array cnt size : Z) : M blocks ptr :=
  binary_search (compare_thunk compare) size key array cnt.

(** ** Swapping *)

Definition swap {A} `{Inhabited A} (l : list A) (i j : nat) : list A := <[i := l !!! j]> (<[j := l !!! i]> l).

Section swap_facts.
Context {A : Type} `{Inhabited A}.
Implicit Types l : list A.

Lemma length_swap l i j : length (swap l i j) = length l.
Proof. unfold swap. by rewrite !length_insert. Qed.

Lemma swap_lookup l i j k :
  (i < length l)%nat -> (j < length l)%nat ->
  swap l i j !!! k = if decide (k = i) then l !!! j else if decide (k = j) then l !!! i else l !!! k.
Proof.
  intros. unfold swap. repeat case_decide; subst.
  - by rewrite list_lookup_total_insert_eq by (by rewrite length_insert).
  - rewrite list_lookup_total_insert_ne by done. by rewrite list_lookup_total_insert_eq.
  - by rewrite !list_lookup_total_insert_ne by done.
Qed.

Lemma insert_perm l i x y : l !! i = Some x -> x :: <[i := y]> l ≡ₚ y :: l.
Proof.
  intros Hi. pose proof (lookup_lt_Some _ _ _ Hi). rewrite insert_take_drop by done.
  rewrite <- (take_drop_middle l i x Hi) at 3. rewrite <- !Permutation_middle. apply perm_swap.
Qed.

Lemma swap_perm l i j : (i < length l)%nat -> (j < length l)%nat -> swap l i j ≡ₚ l.
Proof.
  intros Hi Hj. unfold swap. pose proof (list_lookup_lookup_total_lt l i Hi) as Ei.
  pose proof (list_lookup_lookup_total_lt l j Hj) as Ej. destruct (decide (i = j)) as [->|Hne].
  { by rewrite list_insert_insert_eq, list_insert_id. }
  apply (Permutation_cons_inv (a := l !!! i)). rewrite insert_perm; [by apply insert_perm|].
  by rewrite list_lookup_insert_ne.
Qed.

Lemma swap_take l i j n :
  (i < n)%nat -> (j < n)%nat -> (n <= length l)%nat ->
  take n (swap l i j) ≡ₚ take n l /\ drop n (swap l i j) = drop n l.
Proof.
  intros. unfold swap. rewrite !drop_insert_lt, !take_insert_lt by lia. split; [|done].
  assert (forall k, (k < n)%nat -> l !!! k = take n l !!! k) as Ht
    by (intros; by rewrite !list_lookup_total_alt, lookup_take_lt).
  rewrite (Ht i), (Ht j) by done.
  apply swap_perm; rewrite length_take; lia.
Qed.
End swap_facts.

(** [a] is [cnt] elements of [size] bytes. *)
Definition array_ok (size : Z) (a : blocks) : Prop := Forall (fun b => Z.of_nat (length b) = size) a.

(** The element with 1-based index [k]. *)
Definition elem (a : blocks) (k : Z) : block := a !!! Z.to_nat (k - 1).

(** A [strcmp]-type comparison function of an order: swapping the arguments
    swaps the sign, and "at most" is transitive. *)
Class CmpOrder (compare : block -> block -> Z) : Prop := {
  cmp_gt x y : 0 < compare x y -> compare y x <= 0;
  cmp_trans x y z : compare x y <= 0 -> compare y z <= 0 -> compare x z <= 0 }.

Section sort_facts.
Variable compare : block -> block -> Z.
Variable size : Z.
Implicit Types (a : blocks) (i j k n cnt lo : Z).

Lemma get_block_eq a k : 1 <= k <= zlen a -> get_block k a = Ok (elem a k, a).
Proof.
  intros. unfold get_block, elem. by rewrite list_lookup_lookup_total_lt by lia.
Qed.

Lemma do_compare_eq a i j :
  1 <= i <= zlen a -> 1 <= j <= zlen a -> do_compare compare i j a = Ok (compare (elem a i) (elem a j), a).
Proof.
  intros. unfold do_compare. by rewrite (bind_ok _ _ _ _ _ (get_block_eq a i ltac:(done))),
    (bind_ok _ _ _ _ _ (get_block_eq a j ltac:(done))).
Qed.

(** After [n] bytes the elements have exchanged their first [n] bytes. *)
Definition mixed (n : nat) (x y : block) : block := take n y ++ drop n x.

Definition swapped_upto (a : blocks) i j (n : nat) : blocks :=
  <[Z.to_nat (i - 1) := mixed n (elem a i) (elem a j)]>
    (<[Z.to_nat (j - 1) := mixed n (elem a j) (elem a i)]> a).

Lemma mixed_step (n : nat) (x y : block) v :
  length x = length y -> y !! n = Some v -> <[n := v]> (mixed n x y) = mixed (S n) x y.
Proof.
  intros Hl Hv. pose proof (lookup_lt_Some _ _ _ Hv). unfold mixed.
  rewrite insert_app_r_alt by (rewrite length_take; lia). rewrite length_take.
  replace (n - n `min` length y)%nat with 0%nat by lia.
  rewrite (take_S_r _ _ _ Hv), <- app_assoc. f_equal. simpl.
  destruct (lookup_lt_is_Some_2 x n) as [u Hu]; [lia|]. by rewrite (drop_S _ _ _ Hu).
Qed.

Lemma mixed_lookup (n : nat) (x y : block) : length x = length y -> mixed n x y !! n = x !! n.
Proof.
  intros Hl. unfold mixed. destruct (decide (n < length y)%nat).
  - rewrite lookup_app_r by (rewrite length_take; lia). rewrite length_take, lookup_drop. f_equal. lia.
  - rewrite take_ge, drop_ge, app_nil_r, !lookup_ge_None_2 by lia. done.
Qed.

Lemma get_byte_eq a k i b v :
  a !! Z.to_nat (k - 1) = Some b -> b !! Z.to_nat i = Some v -> get_byte k i a = Ok (v, a).
Proof. unfold get_byte. intros -> Hb. cbn. by rewrite Hb. Qed.

Lemma set_byte_eq a k i b u v :
  a !! Z.to_nat (k - 1) = Some b -> b !! Z.to_nat i = Some u ->
  set_byte k i v a = Ok (tt, <[Z.to_nat (k - 1) := <[Z.to_nat i := v]> b]> a).
Proof.
  intros Ha Hb. unfold set_byte, get_block, get_byte, bind. rewrite !Ha. cbn. by rewrite Hb.
Qed.

(** One byte more. *)
Lemma swap_byte a i j (n : nat) :
  1 <= i <= zlen a -> 1 <= j <= zlen a -> i <> j -> length (elem a i) = length (elem a j) ->
  (n < length (elem a i))%nat ->
  (let! t := get_byte i (Z.of_nat n) in
   let! v := get_byte j (Z.of_nat n) in
   do! set_byte i (Z.of_nat n) v in
   set_byte j (Z.of_nat n) t) (swapped_upto a i j n) = Ok (tt, swapped_upto a i j (S n)).
Proof.
  intros Hi Hj Hij Hl Hn. set (x := elem a i) in *. set (y := elem a j) in *.
  set (i' := Z.to_nat (i - 1)). set (j' := Z.to_nat (j - 1)).
  assert (swapped_upto a i j n !! i' = Some (mixed n x y)) as E1.
  { unfold swapped_upto. rewrite list_lookup_insert_eq; [done|]. rewrite length_insert. lia. }
  assert (swapped_upto a i j n !! j' = Some (mixed n y x)) as E2.
  { unfold swapped_upto. rewrite list_lookup_insert_ne by lia. rewrite list_lookup_insert_eq; [done|lia]. }
  destruct (lookup_lt_is_Some_2 x n) as [t Ht]; [lia|]. destruct (lookup_lt_is_Some_2 y n) as [v Hv]; [lia|].
  assert (mixed n x y !! Z.to_nat (Z.of_nat n) = Some t) as L1 by (by rewrite Nat2Z.id, mixed_lookup).
  assert (mixed n y x !! Z.to_nat (Z.of_nat n) = Some v) as L2 by (by rewrite Nat2Z.id, mixed_lookup).
  rewrite (bind_ok _ _ _ _ _ (get_byte_eq _ _ _ _ _ E1 L1)), (bind_ok _ _ _ _ _ (get_byte_eq _ _ _ _ _ E2 L2)).
  rewrite (bind_ok _ _ _ _ _ (set_byte_eq _ _ _ _ _ v E1 L1)).
  rewrite (set_byte_eq _ j _ (mixed n y x) v t); [|rewrite list_lookup_insert_ne by lia; exact E2|exact L2].
  rewrite !Nat2Z.id, !mixed_step by done. unfold swapped_upto. fold x y i' j'.
  rewrite list_insert_insert_eq, (list_insert_insert_ne _ j' i') by lia.
  by rewrite (list_insert_insert_eq _ j').
Qed.

Lemma elem_length a k : array_ok size a -> 1 <= k <= zlen a -> Z.of_nat (length (elem a k)) = size.
Proof.
  intros Ha Hk. unfold array_ok in Ha. rewrite Forall_lookup in Ha. eapply Ha.
  apply list_lookup_lookup_total_lt. lia.
Qed.

Lemma do_swap_eq a i j :
  array_ok size a -> 1 <= i <= zlen a -> 1 <= j <= zlen a -> i <> j ->
  do_swap size i j a = Ok (tt, swap a (Z.to_nat (i - 1)) (Z.to_nat (j - 1))).
Proof.
  intros Ha Hi Hj Hij. pose proof (elem_length a i Ha Hi). pose proof (elem_length a j Ha Hj).
  assert (wp (do_swap size i j) (fun _ a' => a' = swapped_upto a i j (Z.to_nat size)) a) as Hwp.
  { unfold do_swap. eapply wp_mono; [apply (wp_for (fun n a' => a' = swapped_upto a i j (Z.to_nat n)))|].
    - intros n a' Hn ->. remember (Z.to_nat n) as k eqn:Ek. assert (n = Z.of_nat k) as -> by lia.
      unfold wp. rewrite swap_byte by lia. f_equal. lia.
    - unfold swapped_upto, mixed. cbn [take drop app].
      rewrite (list_insert_id a), list_insert_id; [done|..]; apply list_lookup_lookup_total_lt; lia.
    - intros [] a' ->. f_equal. lia. }
  apply wp_ok in Hwp as ([]&a'&->&->). do 2 f_equal. unfold swapped_upto, mixed, swap.
  rewrite !take_ge, !drop_ge, !app_nil_r by lia. done.
Qed.

Context `{!CmpOrder compare}.

Definition le (x y : block) : Prop := compare x y <= 0.

Lemma le_refl x : le x x.
Proof. unfold le. destruct (Z.lt_ge_cases 0 (compare x x)) as [H|H]; [by apply cmp_gt|done]. Qed.

Lemma le_trans x y z : le x y -> le y z -> le x z.
Proof. apply cmp_trans. Qed.

(** Every element below a parent numbered [lo] or more, except below [ex],
    is at most its parent. *)
Definition heap a lo cnt ex : Prop :=
  forall k, 2 * lo <= k <= cnt -> k / 2 <> ex -> le (elem a k) (elem a (k / 2)).

(** The first [cnt] elements were rearranged, the rest left alone. *)
Definition rearranged a cnt a' : Prop :=
  array_ok size a' /\ length a' = length a /\
  take (Z.to_nat cnt) a' ≡ₚ take (Z.to_nat cnt) a /\ drop (Z.to_nat cnt) a' = drop (Z.to_nat cnt) a.

Lemma rearranged_refl a cnt : array_ok size a -> rearranged a cnt a.
Proof. intros. unfold rearranged. split_and!; done. Qed.

Lemma rearranged_trans a1 a2 a3 cnt : rearranged a1 cnt a2 -> rearranged a2 cnt a3 -> rearranged a1 cnt a3.
Proof. intros (?&?&?&?) (?&?&?&?). unfold rearranged. split_and!; [done|lia|by etrans|congruence]. Qed.

Lemma rearranged_swap a cnt i j :
  array_ok size a -> 1 <= i <= cnt -> 1 <= j <= cnt -> cnt <= zlen a ->
  rearranged a cnt (swap a (Z.to_nat (i - 1)) (Z.to_nat (j - 1))).
Proof.
  intros Ha Hi Hj Hc. destruct (swap_take a (Z.to_nat (i - 1)) (Z.to_nat (j - 1)) (Z.to_nat cnt)); [lia..|].
  unfold rearranged. split_and!; [|apply length_swap|done|done]. unfold array_ok. rewrite swap_perm by lia. done.
Qed.

Lemma elem_swap a i j k :
  1 <= i <= zlen a -> 1 <= j <= zlen a -> 1 <= k ->
  elem (swap a (Z.to_nat (i - 1)) (Z.to_nat (j - 1))) k =
    if k =? i then elem a j else if k =? j then elem a i else elem a k.
Proof.
  intros. unfold elem. rewrite swap_lookup by lia.
  destruct (Z.eqb_spec k i), (Z.eqb_spec k j); repeat case_decide; try done; lia.
Qed.

(** [m] is the position of the greatest of element [i] and its children. *)
Definition greatest a i cnt m : Prop :=
  (m = i \/ (m / 2 = i /\ m <= cnt)) /\ le (elem a i) (elem a m) /\
  forall k, k / 2 = i -> k <= cnt -> le (elem a k) (elem a m).

Lemma pick_eq a c m cnt :
  1 <= m <= cnt -> 1 <= c -> cnt <= zlen a ->
  exists m', (if c <=? cnt then let! r := do_compare compare c m in ret (if 0 <? r then c else m) else ret m) a
               = Ok (m', a) /\
    (m' = m \/ (m' = c /\ c <= cnt)) /\ le (elem a m) (elem a m') /\ (c <= cnt -> le (elem a c) (elem a m')).
Proof.
  intros. destruct (Z.leb_spec c cnt).
  - rewrite (bind_ok _ _ _ _ _ (do_compare_eq a c m ltac:(lia) ltac:(lia))).
    destruct (Z.ltb_spec 0 (compare (elem a c) (elem a m))); eexists; (split; [reflexivity|]).
    + split_and!; [by right|by apply cmp_gt|intros _; apply le_refl].
    + split_and!; [by left|apply le_refl|done].
  - eexists. split; [reflexivity|]. split_and!; [by left|apply le_refl|lia].
Qed.

Lemma sift_hole a i m lo cnt :
  1 <= lo <= i -> i <= cnt -> cnt <= zlen a -> greatest a i cnt m -> m <> i ->
  heap a lo cnt i ->
  (forall k, k / 2 = i -> k <= cnt -> 2 * lo <= i -> le (elem a k) (elem a (i / 2))) ->
  let a' := swap a (Z.to_nat (i - 1)) (Z.to_nat (m - 1)) in
  heap a' lo cnt m /\
  (forall k, k / 2 = m -> k <= cnt -> 2 * lo <= m -> le (elem a' k) (elem a' (m / 2))).
Proof.
  intros Hlo Hi Hc (Hm&Him&Hch) Hne Hh Hup a'. destruct Hm as [?|[Hm Hmc]]; [lia|].
  assert (1 <= m <= zlen a) by zlia. assert (i < m) by zlia.
  assert (forall k, 1 <= k -> elem a' k = if k =? i then elem a m else if k =? m then elem a i else elem a k) as He
    by (intros; apply elem_swap; lia).
  split.
  - intros k Hk Hkm. assert (1 <= k / 2 < k) by zlia. rewrite !He by lia.
    destruct (Z.eqb_spec k i), (Z.eqb_spec (k / 2) i), (Z.eqb_spec k m), (Z.eqb_spec (k / 2) m); subst; try lia; try done.
    + apply Hup; (done || lia).
    + apply Hch; (done || lia).
    + apply Hh; (done || lia).
  - intros k Hk Hkc Hlm. assert (m < k) by zlia. rewrite !He by zlia. rewrite Hm, Z.eqb_refl.
    destruct (Z.eqb_spec k i), (Z.eqb_spec k m); try lia. rewrite <- Hk. apply Hh; zlia.
Qed.

Lemma wp_heapify_loop fuel a i lo cnt :
  array_ok size a -> 1 <= lo <= i -> i <= cnt -> cnt <= zlen a -> zlen a < 2 ^ 31 -> cnt - i < Z.of_nat fuel ->
  heap a lo cnt i ->
  (forall k, k / 2 = i -> k <= cnt -> 2 * lo <= i -> le (elem a k) (elem a (i / 2))) ->
  wp (heapify_loop compare size fuel i cnt) (fun _ a' => heap a' lo cnt 0 /\ rearranged a cnt a') a.
Proof.
  revert a i. induction fuel as [|fuel IH]; intros a i Ha Hlo Hi Hc Hb Hf Hh Hup; [lia|].
  cbn [heapify_loop]. rewrite !wrapu_small by (unfold in_u; lia).
  destruct (pick_eq a (2 * i) i cnt) as (m1&E1&Hm1&Hle1&Hl1); [lia..|].
  destruct (pick_eq a (2 * i + 1) m1 cnt) as (m&E2&Hm2&Hle2&Hr2); [lia..|].
  apply wp_bind. unfold wp at 1. rewrite E1. apply wp_bind. unfold wp at 1. rewrite E2.
  assert (greatest a i cnt m) as Hg.
  { split_and!; [destruct Hm1 as [->|[-> ?]], Hm2 as [->|[-> ?]]; [by left|right; zlia..]|by eapply le_trans|].
    intros k Hk Hkc. assert (k = 2 * i \/ k = 2 * i + 1) as [->| ->] by zlia; [eapply le_trans; eauto|auto]. }
  destruct (Z.eqb_spec m i) as [->|Hne].
  - apply wp_ret. split; [|by apply rearranged_refl]. intros k Hk _.
    destruct (decide (k / 2 = i)) as [Hki|Hki]; [rewrite Hki; apply Hg; (done || lia)|by apply Hh].
  - destruct (sift_hole a i m lo cnt) as [Hh' Hup']; [done..|].
    destruct Hg as ([?|[Hm Hmc]]&_&_); [lia|]. assert (i < m) by zlia.
    apply wp_bind. unfold wp at 1. rewrite do_swap_eq by (done || lia).
    pose proof (rearranged_swap a cnt i m Ha ltac:(lia) ltac:(lia) Hc) as Hr.
    pose proof (length_swap a (Z.to_nat (i - 1)) (Z.to_nat (m - 1))) as Hls.
    eapply wp_mono; [apply IH; try done; try apply Hr; rewrite ?Hls; lia|].
    intros [] a'' [? ?]. split; [done|by eapply rearranged_trans].
Qed.

Lemma rearranged_low a cnt a' j :
  rearranged a cnt a' -> cnt <= zlen a -> 1 <= j <= cnt -> exists j', 1 <= j' <= cnt /\ elem a' j = elem a j'.
Proof.
  intros (_&Hl&Hp&_) Hc Hj. assert (elem a' j ∈ take (Z.to_nat cnt) a) as Hin.
  { rewrite <- Hp. apply list_elem_of_lookup. exists (Z.to_nat (j - 1)).
    rewrite lookup_take_lt by lia. apply list_lookup_lookup_total_lt. lia. }
  apply list_elem_of_lookup in Hin as [n Hn]. pose proof (lookup_lt_Some _ _ _ Hn) as Hlt.
  rewrite length_take in Hlt. rewrite lookup_take_lt in Hn by lia.
  exists (Z.of_nat n + 1). split; [lia|]. unfold elem at 2.
  replace (Z.to_nat _) with n by lia. by rewrite list_lookup_total_alt, Hn.
Qed.

Lemma rearranged_high a cnt a' j : rearranged a cnt a' -> 0 <= cnt < j -> elem a' j = elem a j.
Proof.
  intros (_&_&_&Hd) Hj. unfold elem.
  replace (Z.to_nat (j - 1)) with (Z.to_nat cnt + (Z.to_nat (j - 1) - Z.to_nat cnt))%nat by lia.
  by rewrite !list_lookup_total_alt, <- !lookup_drop, Hd.
Qed.

Lemma wp_build_heap (n : nat) a cnt :
  array_ok size a -> 0 <= cnt <= zlen a -> zlen a < 2 ^ 31 -> Z.of_nat n <= cnt ->
  heap a (Z.of_nat n + 1) cnt 0 ->
  wp (build_heap compare size n cnt) (fun _ a' => heap a' 1 cnt 0 /\ rearranged a cnt a') a.
Proof.
  revert a. induction n as [|n IH]; intros a Ha Hc Hb Hn Hh; cbn [build_heap].
  { apply wp_ret. split; [done|by apply rearranged_refl]. }
  apply wp_bind. eapply wp_mono.
  - apply (wp_heapify_loop _ a (Z.of_nat (S n)) (Z.of_nat (S n)) cnt); try done; try lia.
    intros k Hk Hki. apply Hh; zlia.
  - intros [] a1 [Hh1 Hr1]. pose proof Hr1 as (Ha1&Hl1&_&_).
    eapply wp_mono; [apply IH; try done; try lia|].
    + intros k Hk Hk0. apply Hh1; lia.
    + intros [] a2 [? ?]. split; [done|by eapply rearranged_trans].
Qed.

Lemma heap_root a cnt k : heap a 1 cnt 0 -> 1 <= k <= cnt -> le (elem a k) (elem a 1).
Proof.
  intros Hh [H1 H2]. revert k H1 H2.
  apply (Zlt_lower_bound_ind (fun k => k <= cnt -> le (elem a k) (elem a 1)) 1). intros k IH Hk Hc. destruct (decide (k = 1)) as [->|]; [apply le_refl|].
  eapply le_trans; [apply Hh; zlia|]. apply IH; zlia.
Qed.

(** The elements after the first [n] are in order, and no earlier element is
    greater than any of them. *)
Definition ordered a n : Prop :=
  forall j k, 1 <= j <= k -> n < k <= zlen a -> le (elem a j) (elem a k).

Lemma sort_heap_step a n a2 :
  array_ok size a -> 2 <= n <= zlen a -> heap a 1 n 0 -> ordered a n ->
  rearranged (swap a (Z.to_nat (1 - 1)) (Z.to_nat (n - 1))) (n - 1) a2 -> ordered a2 (n - 1).
Proof.
  intros Ha Hn Hh Ho Hr. pose proof (length_swap a (Z.to_nat (1 - 1)) (Z.to_nat (n - 1))) as Hls.
  set (a1 := swap a (Z.to_nat (1 - 1)) (Z.to_nat (n - 1))) in *. pose proof Hr as (_&Hl&_).
  assert (forall k, 1 <= k -> elem a1 k = if k =? 1 then elem a n else if k =? n then elem a 1 else elem a k) as He
    by (intros; apply elem_swap; lia).
  assert (forall j, 1 <= j <= n -> exists j', 1 <= j' <= n /\ elem a2 j = elem a j') as Hlow.
  { intros j Hj. assert (exists k, 1 <= k <= n /\ elem a2 j = elem a1 k) as (k&Hk&->).
    { destruct (decide (j = n)) as [->|]; [exists n; split; [lia|apply (rearranged_high _ (n - 1)); [done|lia]]|].
      destruct (rearranged_low _ _ _ j Hr) as (j'&?&->); [lia..|]. exists j'. split; [lia|done]. }
    rewrite He by lia. destruct (k =? 1); [|destruct (k =? n)]; eexists; (split; [|reflexivity]); lia. }
  intros j k Hj Hk. rewrite (rearranged_high _ (n - 1) _ k Hr), (He k) by lia.
  rewrite (proj2 (Z.eqb_neq k 1)) by lia. destruct (Z.eqb_spec k n) as [->|].
  - destruct (Hlow j) as (j'&?&->); [lia|]. by apply (heap_root a n).
  - destruct (decide (j <= n)).
    + destruct (Hlow j) as (j'&?&->); [lia|]. apply Ho; lia.
    + rewrite (rearranged_high _ (n - 1) _ j Hr), (He j) by lia.
      rewrite (proj2 (Z.eqb_neq j 1)), (proj2 (Z.eqb_neq j n)) by lia. apply Ho; lia.
Qed.

Lemma wp_sort_heap (n : nat) a :
  array_ok size a -> zlen a < 2 ^ 31 -> Z.of_nat n <= zlen a -> heap a 1 (Z.of_nat n) 0 -> ordered a (Z.of_nat n) ->
  wp (sort_heap compare size n) (fun _ a' => ordered a' 1 /\ a' ≡ₚ a) a.
Proof.
  revert a. induction n as [|n IH]; intros a Ha Hb Hn Hh Ho; [by apply wp_ret; split; [intros j k ? ?; apply Ho; lia|]|].
  destruct n as [|n]; [by apply wp_ret; split; [intros j k ? ?; apply Ho; lia|]|].
  cbn [sort_heap]. set (m := S n) in *. apply wp_bind. unfold wp at 1.
  rewrite do_swap_eq by (done || lia). set (a1 := swap _ _ _).
  pose proof (rearranged_swap a (zlen a) 1 (Z.of_nat (S m)) Ha ltac:(lia) ltac:(lia) ltac:(lia)) as (Ha1&Hl1&Hp1&_).
  fold a1 in Ha1, Hl1, Hp1. rewrite !firstn_all2 in Hp1 by lia.
  assert (forall k, 1 <= k -> elem a1 k = if k =? 1 then elem a (Z.of_nat (S m)) else
            if k =? Z.of_nat (S m) then elem a 1 else elem a k) as He by (intros; apply elem_swap; lia).
  apply wp_bind. eapply wp_mono.
  - apply (wp_heapify_loop _ a1 1 1 (Z.of_nat m)); try done; try lia.
    intros k Hk Hk1. rewrite !He by zlia. rewrite !(proj2 (Z.eqb_neq _ 1)), !(proj2 (Z.eqb_neq _ (Z.of_nat (S m)))) by zlia.
    apply Hh; zlia.
  - intros [] a2 [Hh2 Hr2]. pose proof Hr2 as (Ha2&Hl2&Hp2&Hd2).
    assert (a2 ≡ₚ a1) as Hp12 by (rewrite <- (take_drop (Z.to_nat (Z.of_nat m)) a2), Hp2, Hd2, take_drop; done).
    eapply wp_mono; [apply IH; try done; try lia|].
    + replace (Z.of_nat m) with (Z.of_nat (S m) - 1) by lia. apply (sort_heap_step a); try done; [lia|].
      by replace (Z.of_nat m) with (Z.of_nat (S m) - 1) in Hr2 by lia.
    + intros [] a3 [? Hp3]. split; [done|]. by rewrite Hp3, Hp12.
Qed.
End sort_facts.

(** ** The properties *)

(** C28. [sort] (and so [qsort]) terminates with the elements rearranged so
    that each is at most every later one, for any comparison function that is
    an order. *)
Theorem sort_correct compare size a :
  CmpOrder compare -> 0 < size -> array_ok size a -> zlen a < 2 ^ 31 ->
  wp (qsort compare (zlen a) size)
    (fun _ a' => a' ≡ₚ a /\
       forall i j x y, (i < j)%nat -> a' !! i = Some x -> a' !! j = Some y -> compare x y <= 0) a.
Proof.
  intros Hcmp Hs Ha Hb. unfold qsort, sort. change (compare_thunk compare) with compare.
  apply wp_bind, wp_assert. split; [lia|]. apply wp_bind. eapply wp_mono.
  - apply (wp_build_heap compare size); try done; [lia|zlia|]. intros k Hk. zlia.
  - intros [] a1 [Hh1 (Ha1&Hl1&Hp1&_)]. rewrite !firstn_all2 in Hp1 by lia.
    assert (Z.of_nat (Z.to_nat (zlen a)) = zlen a) as En by lia.
    eapply wp_mono; [apply (wp_sort_heap compare size); rewrite ?En; try done; try lia|].
    + intros j k ? ?. lia.
    + intros [] a2 [Ho Hp2]. split; [by rewrite Hp2|]. intros i j x y Hij Hx Hy.
      pose proof (lookup_lt_Some _ _ _ Hy).
      assert (le compare (elem a2 (Z.of_nat i + 1)) (elem a2 (Z.of_nat j + 1))) as Hle by (apply Ho; lia).
      unfold le, elem in Hle. replace (Z.to_nat (Z.of_nat i + 1 - 1)) with i in Hle by lia.
      replace (Z.to_nat (Z.of_nat j + 1 - 1)) with j in Hle by lia.
      by rewrite !list_lookup_total_alt, Hx, Hy in Hle.
Qed.

(** The order that [binary_search] relies on: elements greater than the key
    come after all others, elements less than it before all others. *)
Definition key_sorted (compare : block -> block -> Z) (key : block) (a : blocks) : Prop :=
  forall i j x y, (i < j)%nat -> a !! i = Some x -> a !! j = Some y ->
    (compare key x < 0 -> compare key y < 0) /\ (0 < compare key y -> 0 < compare key x).

Lemma search_loop_ok compare size key a array fuel (lo hi : nat) :
  0 < size -> 0 < array -> key_sorted compare key a ->
  (lo <= hi)%nat -> (hi <= length a)%nat -> (hi - lo < fuel)%nat ->
  (forall i x, (i < lo)%nat -> a !! i = Some x -> compare key x <> 0) ->
  (forall i x, (hi <= i)%nat -> a !! i = Some x -> compare key x <> 0) ->
  wp (search_loop compare size fuel key array (array + Z.of_nat lo * size) (array + Z.of_nat hi * size))
    (fun r a' => a' = a /\
       ((exists i x, r = array + Z.of_nat i * size /\ a !! i = Some x /\ compare key x = 0)
        \/ (r = NULL /\ forall i x, a !! i = Some x -> compare key x <> 0))) a.
Proof.
  intros Hs Ha Hsort. revert lo hi. induction fuel as [|fuel IH]; intros lo hi Hlh Hhi Hf Hlo Hup; [lia|].
  cbn [search_loop]. destruct (Z.ltb_spec (array + Z.of_nat lo * size) (array + Z.of_nat hi * size)) as [Hlt|Hge].
  - assert (lo < hi)%nat by nia. set (mid := (lo + (hi - lo) / 2)%nat).
    assert ((hi - lo) / 2 < hi - lo)%nat by (apply Nat.div_lt; lia).
    replace ((array + Z.of_nat hi * size - (array + Z.of_nat lo * size)) / size) with (Z.of_nat (hi - lo))
      by (rewrite <- (Z.div_mul (Z.of_nat (hi - lo)) size) by lia; f_equal; lia).
    replace (array + Z.of_nat lo * size + Z.of_nat (hi - lo) / 2 * size) with (array + Z.of_nat mid * size)
      by (change 2 with (Z.of_nat 2); rewrite <- Nat2Z.inj_div; unfold mid; lia).
    replace ((array + Z.of_nat mid * size - array) / size) with (Z.of_nat mid)
      by (rewrite <- (Z.div_mul (Z.of_nat mid) size) at 1 by lia; f_equal; lia).
    destruct (lookup_lt_is_Some_2 a mid) as [m Hm]; [lia|].
    apply wp_bind. unfold wp at 1. rewrite get_block_eq by lia. unfold elem.
    replace (Z.to_nat (Z.of_nat mid + 1 - 1)) with mid by lia. rewrite list_lookup_total_alt, Hm. cbn.
    destruct (Z.ltb_spec (compare key m) 0); [|destruct (Z.ltb_spec 0 (compare key m))].
    + apply IH; try done; try lia. intros i x Hi Hx. destruct (decide (i = mid)) as [->|].
      * rewrite Hm in Hx. simplify_eq. lia.
      * destruct (Hsort mid i m x ltac:(lia) Hm Hx) as [? _]. lia.
    + replace (array + Z.of_nat mid * size + size) with (array + Z.of_nat (S mid) * size) by lia.
      apply IH; try done; try lia. intros i x Hi Hx. destruct (decide (i = mid)) as [->|].
      * rewrite Hm in Hx. simplify_eq. lia.
      * destruct (Hsort i mid x m ltac:(lia) Hx Hm) as [_ ?]. lia.
    + apply wp_ret. split; [done|]. left. exists mid, m. split_and!; [done|done|lia].
  - apply wp_ret. split; [done|]. right. split; [done|]. intros i x Hx.
    destruct (decide (i < lo)%nat); [by eapply Hlo|]. eapply Hup; [|done]. nia.
Qed.

(** [bsearch] terminates on a sorted array and returns the address of an
    element equal to the key, or a null pointer exactly when there is none. *)
Theorem bsearch_correct compare size key a array :
  0 < size -> 0 < array -> size * zlen a < 2 ^ 32 -> key_sorted compare key a ->
  wp (bsearch compare key array (zlen a) size)
    (fun r a' => a' = a /\
       ((exists i x, r = array + Z.of_nat i * size /\ a !! i = Some x /\ compare key x = 0)
        \/ (r = NULL /\ forall i x, a !! i = Some x -> compare key x <> 0))) a.
Proof.
  intros Hs Ha Hb Hsort. unfold bsearch, binary_search. change (compare_thunk compare) with compare.
  rewrite wrapu_small by (unfold in_u; nia). rewrite Nat2Z.id, Z.mul_comm.
  replace array with (array + Z.of_nat 0 * size) at 2 by lia.
  apply search_loop_ok; try done; try lia. intros i x Hi Hx. apply lookup_lt_Some in Hx. lia.
Qed.

(** *** atoi *)

Definition decimal (ds : list Z) : Z := fold_left (fun v d => v * 10 + (d - 48)) ds 0.

Definition first_not (P : Z -> bool) (s : list Z) : Prop := match s with [] => True | c :: _ => P c = false end.

Lemma skip_space_eq m p sp r fuel :
  str_at m p (sp ++ r) -> Forall (fun c => isspace c = true) sp -> first_not isspace r -> (length sp < fuel)%nat ->
  skip_space fuel p m = Ok (p + zlen sp, m).
Proof.
  revert p fuel. induction sp as [|c sp IH]; intros p [|fuel] Hs Hsp Hr Hf; simpl in Hf; try lia; cbn [skip_space].
  - rewrite Z.add_0_r. destruct r as [|c r]; [by rewrite (bind_ok _ _ _ _ _ (load_eq _ _ _ Hs))|].
    destruct Hs as (Hc&_). simpl in Hr. by rewrite (bind_ok _ _ _ _ _ (load_eq _ _ _ Hc)), Hr.
  - destruct Hs as (Hc&_&Hs). apply Forall_cons in Hsp as [E Hsp].
    rewrite (bind_ok _ _ _ _ _ (load_eq _ _ _ Hc)), E, IH by (done || lia). do 2 f_equal. simpl. lia.
Qed.

Lemma digits_loop_eq m p ds r fuel v :
  str_at m p (ds ++ r) -> Forall (fun c => isdigit c = true) ds -> first_not isdigit r -> (length ds < fuel)%nat ->
  digits_loop fuel p (s32 (- v)) m = Ok (s32 (- fold_left (fun v d => v * 10 + (d - 48)) ds v), m).
Proof.
  revert p fuel v. induction ds as [|c ds IH]; intros p [|fuel] v Hs Hsp Hr Hf; simpl in Hf; try lia; cbn [digits_loop].
  - destruct r as [|c r]; [by rewrite (bind_ok _ _ _ _ _ (load_eq _ _ _ Hs))|].
    destruct Hs as (Hc&_). simpl in Hr. by rewrite (bind_ok _ _ _ _ _ (load_eq _ _ _ Hc)), Hr.
  - destruct Hs as (Hc&_&Hs). apply Forall_cons in Hsp as [E Hsp].
    rewrite (bind_ok _ _ _ _ _ (load_eq _ _ _ Hc)), E.
    replace (s32 (s32 (s32 (- v) * 10) - (c - 48))) with (s32 (- (v * 10 + (c - 48)))); [apply IH; (done || lia)|].
    apply wraps_eq. rewrite <- (Zminus_mod_idemp_l (s32 _)), wraps_mod, Zminus_mod_idemp_l.
    rewrite <- Zminus_mod_idemp_l, <- Zmult_mod_idemp_l, wraps_mod, Zmult_mod_idemp_l, Zminus_mod_idemp_l. f_equal. lia.
Qed.

(** [atoi] skips white space, takes an optional sign and reads the digits
    up to the first character that is not one; the result is exact whenever
    the number fits in an [int], the least [int] included. *)
Theorem atoi_correct m p sp sign ds rest :
  mem_ok m -> str_at m p (sp ++ sign ++ ds ++ rest) ->
  Forall (fun c => isspace c = true) sp -> sign ∈ [[]; [43]; [45]] ->
  ds <> [] -> Forall (fun c => isdigit c = true) ds -> first_not isdigit rest ->
  let n := if decide (sign = [45]) then - decimal ds else decimal ds in
  atoi p m = Ok (s32 n, m) /\ (in_s 32 n -> atoi p m = Ok (n, m)).
Proof.
  intros Hm Hs Hsp Hsg Hds Hd Hr n.
  enough (atoi p m = Ok (s32 n, m)) as -> by (split; [done|]; intros; by rewrite wraps_small).
  pose proof (mem_ok_str _ _ _ Hm Hs). pose proof (str_at_fuel _ _ _ Hs) as Hf. rewrite !length_app in Hf.
  destruct ds as [|d ds]; [done|]. pose proof Hd as [Ed _]%Forall_cons. unfold isdigit in Ed.
  unfold atoi, bind at 1, assert. rewrite (proj2 (Z.eqb_neq _ _)) by lia. cbn [negb ret].
  rewrite (bind_ok _ _ _ (fuel_of m) m) by done.
  assert (first_not isspace (sign ++ (d :: ds) ++ rest)) as Hns.
  { assert (first_not isspace ((d :: ds) ++ rest)) by (simpl; unfold isspace; lia).
    repeat (apply elem_of_cons in Hsg as [->|Hsg]; [done|]). by apply not_elem_of_nil in Hsg. }
  rewrite (bind_ok _ _ _ _ _ (skip_space_eq _ _ _ _ (fuel_of m) Hs Hsp Hns ltac:(lia))).
  apply str_at_app in Hs. change 0 with (s32 (- 0)).
  assert (forall q, str_at m q ((d :: ds) ++ rest) ->
            digits_loop (fuel_of m) q (s32 (- 0)) m = Ok (s32 (- decimal (d :: ds)), m)) as Hdig
    by (intros; by apply (digits_loop_eq m q _ rest); [..|lia]).
  assert (s32 (- s32 (- decimal (d :: ds))) = s32 (decimal (d :: ds))) as Hneg.
  { apply wraps_eq. rewrite <- (Z.sub_0_l (s32 _)), <- Zminus_mod_idemp_r, wraps_mod, Zminus_mod_idemp_r. f_equal. lia. }
  repeat (apply elem_of_cons in Hsg as [->|Hsg]); [| | |by apply not_elem_of_nil in Hsg]; simpl app in Hs.
  - pose proof Hs as (Hc&_). rewrite (bind_ok _ _ _ _ _ (load_eq _ _ _ Hc)), !(proj2 (Z.eqb_neq d _)) by lia.
    rewrite (bind_ok _ _ _ _ _ (Hdig _ Hs)). unfold ret, n. cbn [negb]. by rewrite Hneg.
  - destruct Hs as (Hc&_&Hs). rewrite (bind_ok _ _ _ _ _ (load_eq _ _ _ Hc)). cbn [Z.eqb Pos.eqb].
    rewrite (bind_ok _ _ _ _ _ (Hdig _ Hs)). unfold ret, n. cbn [negb]. by rewrite Hneg.
  - destruct Hs as (Hc&_&Hs). rewrite (bind_ok _ _ _ _ _ (load_eq _ _ _ Hc)). cbn [Z.eqb Pos.eqb].
    rewrite (bind_ok _ _ _ _ _ (Hdig _ Hs)). done.
Qed.

(** ** Witnesses *)

(** One-byte and two-byte elements compared by their first byte. *)
Definition byte_cmp (x y : block) : Z := hd_or 0 x - hd_or 0 y.

Lemma byte_cmp_order : CmpOrder byte_cmp.
Proof. split; unfold byte_cmp; lia. Qed.

Definition demo_blocks : blocks := [[5; 1]; [2; 9]; [7; 7]; [2; 8]; [0; 0]].

Lemma sort_correct_witness :
  wp (qsort byte_cmp 5 2)
    (fun _ a' => a' ≡ₚ demo_blocks /\
       forall i j x y, (i < j)%nat -> a' !! i = Some x -> a' !! j = Some y -> byte_cmp x y <= 0) demo_blocks.
Proof.
  apply (sort_correct byte_cmp 2 demo_blocks byte_cmp_order); [lia|repeat constructor|reflexivity].
Defined.

Lemma bsearch_correct_witness :
  wp (bsearch byte_cmp [7; 0] 1000 3 2)
    (fun r a' => a' = [[1; 1]; [4; 4]; [7; 7]] /\
       ((exists i x, r = 1000 + Z.of_nat i * 2 /\ [[1; 1]; [4; 4]; [7; 7]] !! i = Some x /\ byte_cmp [7; 0] x = 0)
        \/ (r = NULL /\ forall i x, [[1; 1]; [4; 4]; [7; 7]] !! i = Some x -> byte_cmp [7; 0] x <> 0)))
    [[1; 1]; [4; 4]; [7; 7]].
Proof.
  apply (bsearch_correct byte_cmp 2 [7; 0] [[1; 1]; [4; 4]; [7; 7]] 1000); [lia|lia|reflexivity|].
  intros [|[|[|i]]] [|[|[|j]]] x y Hij Hx Hy; simpl in *; simplify_eq; try lia; unfold byte_cmp; simpl; lia.
Defined.

(** " -2147483648x" at 10. *)
Definition number_mem : mem := write ∅ 10 [32; 45; 50; 49; 52; 55; 52; 56; 51; 54; 52; 56; 120; 0].

Lemma atoi_correct_witness : atoi 10 number_mem = Ok (-2147483648, number_mem).
Proof.
  refine (proj2 (atoi_correct number_mem 10 [32] [45] [50; 49; 52; 55; 52; 56; 51; 54; 52; 56] [120] _ _ _ _ _ _ _) _).
  1-2: apply (bool_decide_unpack _); vm_compute; exact I.
  - repeat constructor.
  - set_solver.
  - done.
  - repeat constructor.
  - done.
  - vm_compute. split; [discriminate|reflexivity].
Defined.

End CStdlib.
