(* ===== verification/Sched.v ===== *)
(** * Threads, synchronisation and the timer: threads/thread.c, threads/synch.c,
      devices/timer.c, threads/interrupt.c

    A uniprocessor kernel.  The state [kernel] holds the thread structures,
    the run queue, the lists of all and of sleeping threads, the processor's
    interrupt flag, the clock and the synchronisation objects.  The lists are
    sequences of thread addresses: [KListSpec] and [KListSort] prove that the
    pointer code of list.c implements the operations used here.

    A thread's kernel stack is a list of [frame]s: what it still has to do,
    one frame for each piece of a C function that runs without a scheduling
    point.  A routine that may sleep leaves behind the frame at which it
    resumes: [sema_down] that finds the value zero leaves its loop, and finds
    it on its stack when it runs again.  [exec] runs the frame on top of the
    running thread's stack; [timer_tick] is a timer interrupt, possible when
    interrupts are on; the code of the threads themselves is arbitrary, the
    frame [FBody] from which any routine may be called.

    A synchronisation object exists from its initialisation on.  A null
    pointer in place of an object is not modelled, and [is_thread] holds of
    the addresses in [threads]. *)

From S2P Require Import Prelude.
From S2P Require Import KListSort.
Local Open Scope Z_scope.

Module Sched.

(** ** State *)

Inductive thread_status := THREAD_RUNNING | THREAD_READY | THREAD_BLOCKED | THREAD_DYING.

#[export] Instance thread_status_eq_dec : EqDecision thread_status.
Proof. solve_decision. Defined.

(** A semaphore is one of its own, the one inside a lock, or the one in the
    [struct semaphore_elem] on the stack of a thread in [cond_wait]. *)
Inductive sid := SSema (p : ptr) | SLock (l : ptr) | SWaiter (t : ptr).

#[export] Instance sid_eq_dec : EqDecision sid.
Proof. solve_decision. Defined.

#[export] Instance sid_countable : Countable sid.
Proof.
  refine (inj_countable' (fun s => match s with SSema p => inl p | SLock l => inr (inl l) | SWaiter t => inr (inr t) end)
    (fun x => match x with inl p => SSema p | inr (inl l) => SLock l | inr (inr t) => SWaiter t end) _).
  by intros [].
Defined.

Record semaphore := Sema { value : Z; waiters : list ptr }.

Inductive frame :=
  (** Calls. *)
  | FSemaDown (s : sid)
  | FSemaTryDown (s : sid)
  | FSemaUp (s : sid)
  | FLockAcquire (l : ptr)
  | FLockTryAcquire (l : ptr)
  | FLockRelease (l : ptr)
  | FCondWait (c l : ptr)
  | FCondSignal (c l : ptr)
  | FCondBroadcast (c l : ptr)
  | FYield
  | FSleep (n : Z)
  | FCreate (priority : Z) (idle_started : option sid)
  | FExit
  (** The rest of a call. *)
  | FDownLoop (s : sid) (old_level : bool)
  | FSetHolder (l : ptr)
  | FCondEnqueue (c w : ptr)
  | FSleepBlock
  | FNextTid (t : ptr)
  | FFinish (t : ptr) (idle_started : option sid)
  | FDie
  | FSetLevel (level : bool)
  | FEnable
  | FIret
  (** What a new thread runs. *)
  | FKernelThread
  | FBody
  | FIdle (idle_started : sid)
  | FIdleLoop
  | FHlt.

Record thread := Thread {
  tid : Z;
  status : thread_status;
  priority : Z;
  thread_sleep_time : Z;
  pagedir : Z;
  stack : list frame }.

Record kernel := Kernel {
  threads : gmap ptr thread;
  ready_list : list ptr;
  all_list : list ptr;
  sleeping_threads : list ptr;
  current : ptr;
  idle_thread : ptr;
  initial_thread : ptr;
  intr_level : bool;
  in_external_intr : bool;
  yield_on_return : bool;
  ticks : Z;
  thread_ticks : Z;
  idle_ticks : Z;
  kernel_ticks : Z;
  user_ticks : Z;
  next_tid : Z;
  thread_create_limit : Z;
  semas : gmap sid semaphore;
  holders : gmap ptr ptr;
  conds : gmap ptr (list ptr) }.

Abbreviation TIME_SLICE := 4.
Abbreviation PRI_MIN := 0.
Abbreviation PRI_DEFAULT := 31.
Abbreviation PRI_MAX := 63.
(** Addresses of the static lock of thread.c and of the semaphore in the
    frame of [thread_start]. *)
Abbreviation tid_lock := 1.
Abbreviation idle_started_sema := (SSema 1).

Definition set_threads (f : gmap ptr thread -> gmap ptr thread) (k : kernel) : kernel :=
  Kernel (f (threads k)) (ready_list k) (all_list k) (sleeping_threads k) (current k) (idle_thread k) (initial_thread k) (intr_level k) (in_external_intr k) (yield_on_return k) (ticks k) (thread_ticks k) (idle_ticks k) (kernel_ticks k) (user_ticks k) (next_tid k) (thread_create_limit k) (semas k) (holders k) (conds k).
Definition set_ready_list (f : list ptr -> list ptr) (k : kernel) : kernel :=
  Kernel (threads k) (f (ready_list k)) (all_list k) (sleeping_threads k) (current k) (idle_thread k) (initial_thread k) (intr_level k) (in_external_intr k) (yield_on_return k) (ticks k) (thread_ticks k) (idle_ticks k) (kernel_ticks k) (user_ticks k) (next_tid k) (thread_create_limit k) (semas k) (holders k) (conds k).
Definition set_all_list (f : list ptr -> list ptr) (k : kernel) : kernel :=
  Kernel (threads k) (ready_list k) (f (all_list k)) (sleeping_threads k) (current k) (idle_thread k) (initial_thread k) (intr_level k) (in_external_intr k) (yield_on_return k) (ticks k) (thread_ticks k) (idle_ticks k) (kernel_ticks k) (user_ticks k) (next_tid k) (thread_create_limit k) (semas k) (holders k) (conds k).
Definition set_sleeping_threads (f : list ptr -> list ptr) (k : kernel) : kernel :=
  Kernel (threads k) (ready_list k) (all_list k) (f (sleeping_threads k)) (current k) (idle_thread k) (initial_thread k) (intr_level k) (in_external_intr k) (yield_on_return k) (ticks k) (thread_ticks k) (idle_ticks k) (kernel_ticks k) (user_ticks k) (next_tid k) (thread_create_limit k) (semas k) (holders k) (conds k).
Definition set_current (f : ptr -> ptr) (k : kernel) : kernel :=
  Kernel (threads k) (ready_list k) (all_list k) (sleeping_threads k) (f (current k)) (idle_thread k) (initial_thread k) (intr_level k) (in_external_intr k) (yield_on_return k) (ticks k) (thread_ticks k) (idle_ticks k) (kernel_ticks k) (user_ticks k) (next_tid k) (thread_create_limit k) (semas k) (holders k) (conds k).
Definition set_idle_thread (f : ptr -> ptr) (k : kernel) : kernel :=
  Kernel (threads k) (ready_list k) (all_list k) (sleeping_threads k) (current k) (f (idle_thread k)) (initial_thread k) (intr_level k) (in_external_intr k) (yield_on_return k) (ticks k) (thread_ticks k) (idle_ticks k) (kernel_ticks k) (user_ticks k) (next_tid k) (thread_create_limit k) (semas k) (holders k) (conds k).
Definition set_initial_thread (f : ptr -> ptr) (k : kernel) : kernel :=
  Kernel (threads k) (ready_list k) (all_list k) (sleeping_threads k) (current k) (idle_thread k) (f (initial_thread k)) (intr_level k) (in_external_intr k) (yield_on_return k) (ticks k) (thread_ticks k) (idle_ticks k) (kernel_ticks k) (user_ticks k) (next_tid k) (thread_create_limit k) (semas k) (holders k) (conds k).
Definition set_intr_level (f : bool -> bool) (k : kernel) : kernel :=
  Kernel (threads k) (ready_list k) (all_list k) (sleeping_threads k) (current k) (idle_thread k) (initial_thread k) (f (intr_level k)) (in_external_intr k) (yield_on_return k) (ticks k) (thread_ticks k) (idle_ticks k) (kernel_ticks k) (user_ticks k) (next_tid k) (thread_create_limit k) (semas k) (holders k) (conds k).
Definition set_in_external_intr (f : bool -> bool) (k : kernel) : kernel :=
  Kernel (threads k) (ready_list k) (all_list k) (sleeping_threads k) (current k) (idle_thread k) (initial_thread k) (intr_level k) (f (in_external_intr k)) (yield_on_return k) (ticks k) (thread_ticks k) (idle_ticks k) (kernel_ticks k) (user_ticks k) (next_tid k) (thread_create_limit k) (semas k) (holders k) (conds k).
Definition set_yield_on_return (f : bool -> bool) (k : kernel) : kernel :=
  Kernel (threads k) (ready_list k) (all_list k) (sleeping_threads k) (current k) (idle_thread k) (initial_thread k) (intr_level k) (in_external_intr k) (f (yield_on_return k)) (ticks k) (thread_ticks k) (idle_ticks k) (kernel_ticks k) (user_ticks k) (next_tid k) (thread_create_limit k) (semas k) (holders k) (conds k).
Definition set_ticks (f : Z -> Z) (k : kernel) : kernel :=
  Kernel (threads k) (ready_list k) (all_list k) (sleeping_threads k) (current k) (idle_thread k) (initial_thread k) (intr_level k) (in_external_intr k) (yield_on_return k) (f (ticks k)) (thread_ticks k) (idle_ticks k) (kernel_ticks k) (user_ticks k) (next_tid k) (thread_create_limit k) (semas k) (holders k) (conds k).
Definition set_thread_ticks (f : Z -> Z) (k : kernel) : kernel :=
  Kernel (threads k) (ready_list k) (all_list k) (sleeping_threads k) (current k) (idle_thread k) (initial_thread k) (intr_level k) (in_external_intr k) (yield_on_return k) (ticks k) (f (thread_ticks k)) (idle_ticks k) (kernel_ticks k) (user_ticks k) (next_tid k) (thread_create_limit k) (semas k) (holders k) (conds k).
Definition set_idle_ticks (f : Z -> Z) (k : kernel) : kernel :=
  Kernel (threads k) (ready_list k) (all_list k) (sleeping_threads k) (current k) (idle_thread k) (initial_thread k) (intr_level k) (in_external_intr k) (yield_on_return k) (ticks k) (thread_ticks k) (f (idle_ticks k)) (kernel_ticks k) (user_ticks k) (next_tid k) (thread_create_limit k) (semas k) (holders k) (conds k).
Definition set_kernel_ticks (f : Z -> Z) (k : kernel) : kernel :=
  Kernel (threads k) (ready_list k) (all_list k) (sleeping_threads k) (current k) (idle_thread k) (initial_thread k) (intr_level k) (in_external_intr k) (yield_on_return k) (ticks k) (thread_ticks k) (idle_ticks k) (f (kernel_ticks k)) (user_ticks k) (next_tid k) (thread_create_limit k) (semas k) (holders k) (conds k).
Definition set_user_ticks (f : Z -> Z) (k : kernel) : kernel :=
  Kernel (threads k) (ready_list k) (all_list k) (sleeping_threads k) (current k) (idle_thread k) (initial_thread k) (intr_level k) (in_external_intr k) (yield_on_return k) (ticks k) (thread_ticks k) (idle_ticks k) (kernel_ticks k) (f (user_ticks k)) (next_tid k) (thread_create_limit k) (semas k) (holders k) (conds k).
Definition set_next_tid (f : Z -> Z) (k : kernel) : kernel :=
  Kernel (threads k) (ready_list k) (all_list k) (sleeping_threads k) (current k) (idle_thread k) (initial_thread k) (intr_level k) (in_external_intr k) (yield_on_return k) (ticks k) (thread_ticks k) (idle_ticks k) (kernel_ticks k) (user_ticks k) (f (next_tid k)) (thread_create_limit k) (semas k) (holders k) (conds k).
Definition set_thread_create_limit (f : Z -> Z) (k : kernel) : kernel :=
  Kernel (threads k) (ready_list k) (all_list k) (sleeping_threads k) (current k) (idle_thread k) (initial_thread k) (intr_level k) (in_external_intr k) (yield_on_return k) (ticks k) (thread_ticks k) (idle_ticks k) (kernel_ticks k) (user_ticks k) (next_tid k) (f (thread_create_limit k)) (semas k) (holders k) (conds k).
Definition set_semas (f : gmap sid semaphore -> gmap sid semaphore) (k : kernel) : kernel :=
  Kernel (threads k) (ready_list k) (all_list k) (sleeping_threads k) (current k) (idle_thread k) (initial_thread k) (intr_level k) (in_external_intr k) (yield_on_return k) (ticks k) (thread_ticks k) (idle_ticks k) (kernel_ticks k) (user_ticks k) (next_tid k) (thread_create_limit k) (f (semas k)) (holders k) (conds k).
Definition set_holders (f : gmap ptr ptr -> gmap ptr ptr) (k : kernel) : kernel :=
  Kernel (threads k) (ready_list k) (all_list k) (sleeping_threads k) (current k) (idle_thread k) (initial_thread k) (intr_level k) (in_external_intr k) (yield_on_return k) (ticks k) (thread_ticks k) (idle_ticks k) (kernel_ticks k) (user_ticks k) (next_tid k) (thread_create_limit k) (semas k) (f (holders k)) (conds k).
Definition set_conds (f : gmap ptr (list ptr) -> gmap ptr (list ptr)) (k : kernel) : kernel :=
  Kernel (threads k) (ready_list k) (all_list k) (sleeping_threads k) (current k) (idle_thread k) (initial_thread k) (intr_level k) (in_external_intr k) (yield_on_return k) (ticks k) (thread_ticks k) (idle_ticks k) (kernel_ticks k) (user_ticks k) (next_tid k) (thread_create_limit k) (semas k) (holders k) (f (conds k)).

Definition set_status (s : thread_status) (th : thread) : thread :=
  Thread (tid th) s (priority th) (thread_sleep_time th) (pagedir th) (stack th).
Definition set_tid (i : Z) (th : thread) : thread :=
  Thread i (status th) (priority th) (thread_sleep_time th) (pagedir th) (stack th).
Definition set_priority (p : Z) (th : thread) : thread :=
  Thread (tid th) (status th) p (thread_sleep_time th) (pagedir th) (stack th).
Definition set_sleep (n : Z) (th : thread) : thread :=
  Thread (tid th) (status th) (priority th) n (pagedir th) (stack th).
Definition set_stack (f : list frame -> list frame) (th : thread) : thread :=
  Thread (tid th) (status th) (priority th) (thread_sleep_time th) (pagedir th) (f (stack th)).

Definition upd_thread (t : ptr) (f : thread -> thread) : M kernel unit :=
  modify (set_threads (alter f t)).
Definition get_thread (t : ptr) : M kernel thread :=
  fun k => match threads k !! t with Some th => Ok (th, k) | None => Err EFault end.
Definition get_sema (s : sid) : M kernel semaphore :=
  fun k => match semas k !! s with Some sm => Ok (sm, k) | None => Err EFault end.
Definition put_sema (s : sid) (sm : semaphore) : M kernel unit := modify (set_semas (<[s := sm]>)).
Definition get_holder (l : ptr) : M kernel ptr :=
  fun k => match holders k !! l with Some h => Ok (h, k) | None => Err EFault end.
Definition put_holder (l h : ptr) : M kernel unit := modify (set_holders (<[l := h]>)).
Definition get_cond (c : ptr) : M kernel (list ptr) :=
  fun k => match conds k !! c with Some ws => Ok (ws, k) | None => Err EFault end.
Definition put_cond (c : ptr) (ws : list ptr) : M kernel unit := modify (set_conds (<[c := ws]>)).

(** Frames for the running thread to run next. *)
Definition push (fs : list frame) : M kernel unit :=
  let! cur := gets current in upd_thread cur (set_stack (app fs)).

(** ** threads/interrupt.c *)

Definition intr_get_level : M kernel bool := gets intr_level.
Definition intr_context : M kernel bool := gets in_external_intr.

Definition intr_enable : M kernel bool :=
  let! old_level := intr_get_level in
  let! c := intr_context in
  do! assert (negb c) in
  do! modify (set_intr_level (fun _ => true)) in
  ret old_level.

Definition intr_disable : M kernel bool :=
  let! old_level := intr_get_level in
  do! modify (set_intr_level (fun _ => false)) in
  ret old_level.

Definition intr_set_level (level : bool) : M kernel bool :=
  if level then intr_enable else intr_disable.

Definition intr_yield_on_return : M kernel unit :=
  let! c := intr_context in
  do! assert c in
  modify (set_yield_on_return (fun _ => true)).

(** ** threads/thread.c *)

Definition is_thread (t : ptr) : M kernel bool := gets (fun k => bool_decide (is_Some (threads k !! t))).

Definition running_thread : M kernel ptr := gets current.

Definition thread_current : M kernel ptr :=
  let! t := running_thread in
  let! b := is_thread t in
  do! assert b in
  let! th := get_thread t in
  do! assert (bool_decide (status th = THREAD_RUNNING)) in
  ret t.

Definition next_thread_to_run : M kernel ptr :=
  let! r := gets ready_list in
  match r with
  | [] => gets idle_thread
  | t :: r' => do! modify (set_ready_list (fun _ => r')) in ret t
  end.

(** [process_activate] loads the page tables of the new thread, which are not
    part of this state.  [palloc_free_page] takes the dead thread's page away. *)
Definition thread_schedule_tail (prev : ptr) : M kernel unit :=
  let! cur := running_thread in
  let! lv := intr_get_level in
  do! assert (negb lv) in
  do! upd_thread cur (set_status THREAD_RUNNING) in
  do! modify (set_thread_ticks (fun _ => 0)) in
  if negb (prev =? NULL) then
    let! p := get_thread prev in
    let! init := gets initial_thread in
    if bool_decide (status p = THREAD_DYING) && negb (prev =? init) then
      do! assert (negb (prev =? cur)) in
      modify (set_threads (delete prev))
    else ret tt
  else ret tt.

(** [switch_threads] continues on the stack of [next]; the thread it returns
    there is the one that was left. *)
Definition schedule : M kernel unit :=
  let! cur := running_thread in
  let! next := next_thread_to_run in
  let! lv := intr_get_level in
  do! assert (negb lv) in
  let! c := get_thread cur in
  do! assert (negb (bool_decide (status c = THREAD_RUNNING))) in
  let! b := is_thread next in
  do! assert b in
  if negb (cur =? next) then
    do! modify (set_current (fun _ => next)) in
    thread_schedule_tail cur
  else thread_schedule_tail NULL.

Definition thread_block : M kernel unit :=
  let! c := intr_context in
  do! assert (negb c) in
  let! lv := intr_get_level in
  do! assert (negb lv) in
  let! cur := thread_current in
  do! upd_thread cur (set_status THREAD_BLOCKED) in
  schedule.

Definition thread_unblock (t : ptr) : M kernel unit :=
  let! b := is_thread t in
  do! assert b in
  let! old_level := intr_disable in
  let! th := get_thread t in
  do! assert (bool_decide (status th = THREAD_BLOCKED)) in
  do! modify (set_ready_list (fun r => r ++ [t])) in
  do! upd_thread t (set_status THREAD_READY) in
  do! intr_set_level old_level in
  ret tt.

(** Up to the switch; the frame [FSetLevel] is the rest. *)
Definition thread_yield : M kernel unit :=
  let! cur := thread_current in
  let! c := intr_context in
  do! assert (negb c) in
  let! old_level := intr_disable in
  let! idle := gets idle_thread in
  do! (if negb (cur =? idle) then modify (set_ready_list (fun r => r ++ [cur])) else ret tt) in
  do! upd_thread cur (set_status THREAD_READY) in
  do! push [FSetLevel old_level] in
  schedule.

Definition thread_tick : M kernel unit :=
  let! t := thread_current in
  let! th := get_thread t in
  let! idle := gets idle_thread in
  do! (if t =? idle then modify (set_idle_ticks (fun n => s64 (n + 1)))
       else if negb (pagedir th =? NULL) then modify (set_user_ticks (fun n => s64 (n + 1)))
       else modify (set_kernel_ticks (fun n => s64 (n + 1)))) in
  do! modify (set_thread_ticks (fun n => u32 (n + 1))) in
  let! n := gets thread_ticks in
  if TIME_SLICE <=? n then intr_yield_on_return else ret tt.

Definition thread_set_priority (new_priority : Z) : M kernel unit :=
  let! cur := thread_current in upd_thread cur (set_priority new_priority).

Definition thread_get_priority : M kernel Z :=
  let! cur := thread_current in let! th := get_thread cur in ret (priority th).

(** The page is cleared; its stack is set up by [thread_create]. *)
Definition init_thread (t prio : Z) : M kernel unit :=
  do! assert (negb (t =? NULL)) in
  do! assert ((PRI_MIN <=? prio) && (prio <=? PRI_MAX)) in
  do! modify (set_threads (<[t := Thread 0 THREAD_BLOCKED prio 0 NULL []]>)) in
  let! old_level := intr_disable in
  do! modify (set_all_list (fun l => l ++ [t])) in
  do! intr_set_level old_level in
  ret tt.

Definition DEBUG_thread_create_simulate_fail : M kernel bool :=
  let! n := gets thread_create_limit in
  if n =? 0 then ret false
  else do! modify (set_thread_create_limit (fun n => s32 (n - 1))) in ret (s32 (n - 1) =? 0).

(** What a thread made by [thread_create] runs: [kernel_thread] with the
    thread's function, which is arbitrary or [idle]. *)
Definition thread_frames (idle_started : option sid) : list frame :=
  FKernelThread :: match idle_started with None => [FBody; FExit] | Some s => [FIdle s; FIdleLoop] end.

(** ** threads/synch.c *)

Definition sema_init (s : sid) (v : Z) : M kernel unit := put_sema s (Sema v []).

Definition sema_try_down (s : sid) : M kernel bool :=
  let! old_level := intr_disable in
  let! sm := get_sema s in
  let! success :=
    (if 0 <? value sm then do! put_sema s (Sema (u32 (value sm - 1)) (waiters sm)) in ret true
     else ret false) in
  do! intr_set_level old_level in
  ret success.

Definition sema_up (s : sid) : M kernel unit :=
  let! old_level := intr_disable in
  let! sm := get_sema s in
  do! (match waiters sm with
       | [] => ret tt
       | t :: ws => do! put_sema s (Sema (value sm) ws) in thread_unblock t
       end) in
  let! sm := get_sema s in
  do! put_sema s (Sema (u32 (value sm + 1)) (waiters sm)) in
  do! intr_set_level old_level in
  ret tt.

Definition lock_init (l : ptr) : M kernel unit :=
  do! put_holder l NULL in sema_init (SLock l) 1.

Definition lock_held_by_current_thread (l : ptr) : M kernel bool :=
  let! h := get_holder l in
  let! cur := thread_current in
  ret (h =? cur).

Definition cond_init (c : ptr) : M kernel unit := put_cond c [].

(** ** devices/timer.c *)

Definition timer_ticks : M kernel Z :=
  let! old_level := intr_disable in
  let! t := gets ticks in
  do! intr_set_level old_level in
  ret t.

Definition timer_elapsed (since : Z) : M kernel Z :=
  let! t := timer_ticks in ret (s64 (t - since)).

Definition sleep_time_of (k : kernel) (t : ptr) : Z :=
  match threads k !! t with Some th => thread_sleep_time th | None => 0 end.

Definition thread_sleep_time_comparator (k : kernel) (a b : ptr) : bool :=
  sleep_time_of k a <? sleep_time_of k b.

(** The loop of [timer_interrupt]. *)
Fixpoint wake_loop (fuel : nat) : M kernel unit :=
  match fuel with
  | O => fail EFuel
  | S f =>
      let! l := gets sleeping_threads in
      match l with
      | [] => ret tt
      | t :: l' =>
          let! th := get_thread t in
          let! now := gets ticks in
          if thread_sleep_time th <=? now then
            do! modify (set_sleeping_threads (fun _ => l')) in
            do! thread_unblock t in
            wake_loop f
          else ret tt
      end
  end.

Definition timer_interrupt : M kernel unit :=
  do! modify (set_ticks (fun n => s64 (n + 1))) in
  do! thread_tick in
  let! l := gets sleeping_threads in
  wake_loop (S (length l)).

(** [intr_handler] for the timer, entered through an interrupt gate and left
    by [iret], which sets the interrupt flag again. *)
Definition timer_tick : M kernel unit :=
  let! lv := intr_get_level in
  do! assert lv in
  do! modify (set_intr_level (fun _ => false)) in
  let! c := intr_context in
  do! assert (negb c) in
  do! modify (set_in_external_intr (fun _ => true)) in
  do! modify (set_yield_on_return (fun _ => false)) in
  do! timer_interrupt in
  let! lv := intr_get_level in
  do! assert (negb lv) in
  let! c := intr_context in
  do! assert c in
  do! modify (set_in_external_intr (fun _ => false)) in
  let! y := gets yield_on_return in
  if y then do! push [FIret] in thread_yield
  else modify (set_intr_level (fun _ => true)).

(** ** The pieces of the routines that may give up the processor

    Each runs without a scheduling point, or ends with one; the frames it
    pushes are the rest of the routine. *)

Definition sema_down (s : sid) : M kernel unit :=
  do! get_sema s in
  let! c := intr_context in
  do! assert (negb c) in
  let! old_level := intr_disable in
  push [FDownLoop s old_level].

(** The loop of [sema_down] and what follows it. *)
Definition sema_down_loop (s : sid) (old_level : bool) : M kernel unit :=
  let! sm := get_sema s in
  if value sm =? 0 then
    let! cur := thread_current in
    do! put_sema s (Sema (value sm) (waiters sm ++ [cur])) in
    do! push [FDownLoop s old_level] in
    thread_block
  else
    do! put_sema s (Sema (u32 (value sm - 1)) (waiters sm)) in
    do! intr_set_level old_level in
    ret tt.

Definition lock_acquire (l : ptr) : M kernel unit :=
  let! c := intr_context in
  do! assert (negb c) in
  let! h := lock_held_by_current_thread l in
  do! assert (negb h) in
  push [FSemaDown (SLock l); FSetHolder l].

Definition lock_set_holder (l : ptr) : M kernel unit :=
  let! cur := thread_current in put_holder l cur.

Definition lock_try_acquire (l : ptr) : M kernel unit :=
  let! h := lock_held_by_current_thread l in
  do! assert (negb h) in
  let! success := sema_try_down (SLock l) in
  if success then push [FSetHolder l] else ret tt.

Definition lock_release (l : ptr) : M kernel unit :=
  let! h := lock_held_by_current_thread l in
  do! assert h in
  do! put_holder l NULL in
  push [FSemaUp (SLock l)].

Definition cond_wait (c l : ptr) : M kernel unit :=
  let! ic := intr_context in
  do! assert (negb ic) in
  let! h := lock_held_by_current_thread l in
  do! assert h in
  let! cur := running_thread in
  do! sema_init (SWaiter cur) 0 in
  push [FCondEnqueue c cur; FLockRelease l; FSemaDown (SWaiter cur); FLockAcquire l].

Definition cond_enqueue (c w : ptr) : M kernel unit :=
  let! ws := get_cond c in put_cond c (ws ++ [w]).

Definition cond_signal (c l : ptr) : M kernel unit :=
  let! ic := intr_context in
  do! assert (negb ic) in
  let! h := lock_held_by_current_thread l in
  do! assert h in
  let! ws := get_cond c in
  match ws with
  | [] => ret tt
  | w :: ws' => do! put_cond c ws' in push [FSemaUp (SWaiter w)]
  end.

Definition cond_broadcast (c l : ptr) : M kernel unit :=
  let! ws := get_cond c in
  match ws with
  | [] => ret tt
  | _ => push [FCondSignal c l; FCondBroadcast c l]
  end.

(** [timer_sleep] until it switches interrupts off.  Reading the clock and
    storing the time to wake up are one piece: the thread is not among the
    sleepers yet, so that a tick between the two does what it does after them. *)
Definition timer_sleep (n : Z) : M kernel unit :=
  let! start := timer_ticks in
  let! t := thread_current in
  let! lv := intr_get_level in
  do! assert lv in
  do! upd_thread t (set_sleep (s32 (s64 (start + n)))) in
  push [FSleepBlock].

Definition timer_sleep_block : M kernel unit :=
  let! cur := running_thread in
  do! intr_disable in
  do! modify (fun k =>
        set_sleeping_threads (KListSort.insert_sorted (thread_sleep_time_comparator k) cur) k) in
  do! push [FEnable] in
  thread_block.

(** [page] is what [palloc_get_page] returns. *)
Definition thread_create (page : option ptr) (prio : Z) (idle_started : option sid) : M kernel unit :=
  let! sim := DEBUG_thread_create_simulate_fail in
  if sim then ret tt
  else
    match page with
    | None => ret tt
    | Some t =>
        do! init_thread t prio in
        push [FLockAcquire tid_lock; FNextTid t; FLockRelease tid_lock; FFinish t idle_started]
    end.

(** [allocate_tid] between its two calls. *)
Definition allocate_tid (t : ptr) : M kernel unit :=
  let! i := gets next_tid in
  do! modify (set_next_tid (fun i => s32 (i + 1))) in
  upd_thread t (set_tid i).

Definition thread_create_finish (t : ptr) (idle_started : option sid) : M kernel unit :=
  do! upd_thread t (set_stack (fun _ => thread_frames idle_started)) in
  thread_unblock t.

Definition kernel_thread : M kernel unit := do! intr_enable in ret tt.

(** [process_exit] concerns the process, not the thread system. *)
Definition thread_exit : M kernel unit :=
  let! c := intr_context in
  do! assert (negb c) in
  push [FDie].

Definition thread_exit_die : M kernel unit :=
  do! intr_disable in
  let! cur := thread_current in
  do! modify (set_all_list (filter (fun t => t <> cur))) in
  do! upd_thread cur (set_status THREAD_DYING) in
  schedule.

Definition idle (s : sid) : M kernel unit :=
  let! cur := thread_current in
  do! modify (set_idle_thread (fun _ => cur)) in
  push [FSemaUp s].

Definition idle_loop : M kernel unit :=
  do! intr_disable in
  do! push [FHlt; FIdleLoop] in
  thread_block.

Definition run (page : option ptr) (f : frame) : M kernel unit :=
  match f with
  | FSemaDown s => sema_down s
  | FDownLoop s old_level => sema_down_loop s old_level
  | FSemaTryDown s => do! sema_try_down s in ret tt
  | FSemaUp s => sema_up s
  | FLockAcquire l => lock_acquire l
  | FSetHolder l => lock_set_holder l
  | FLockTryAcquire l => lock_try_acquire l
  | FLockRelease l => lock_release l
  | FCondWait c l => cond_wait c l
  | FCondEnqueue c w => cond_enqueue c w
  | FCondSignal c l => cond_signal c l
  | FCondBroadcast c l => cond_broadcast c l
  | FYield => thread_yield
  | FSetLevel level => do! intr_set_level level in ret tt
  | FEnable => do! intr_enable in ret tt
  | FIret => modify (set_intr_level (fun _ => true))
  | FSleep n => timer_sleep n
  | FSleepBlock => timer_sleep_block
  | FCreate prio idle_started => thread_create page prio idle_started
  | FNextTid t => allocate_tid t
  | FFinish t idle_started => thread_create_finish t idle_started
  | FKernelThread => kernel_thread
  | FBody => ret tt
  | FExit => thread_exit
  | FDie => thread_exit_die
  | FIdle s => idle s
  | FIdleLoop => idle_loop
  | FHlt => modify (set_intr_level (fun _ => true))
  end.

Create HintDb frames.
#[export] Hint Unfold sema_down sema_down_loop lock_acquire lock_set_holder lock_try_acquire lock_release cond_wait
  cond_enqueue cond_signal cond_broadcast timer_sleep timer_sleep_block thread_create allocate_tid thread_create_finish
  kernel_thread thread_exit thread_exit_die idle idle_loop : frames.
(** The routine a frame stands for, unfolded. *)
Ltac run_frame := cbn [run]; autounfold with frames.

(** The running thread runs the frame on top of its stack. *)
Definition exec (page : option ptr) : M kernel unit :=
  let! cur := running_thread in
  let! th := get_thread cur in
  match stack th with
  | [] => fail EFault
  | f :: st => do! upd_thread cur (set_stack (fun _ => st)) in run page f
  end.

(** ** Starting up *)

(** The processor runs on the page [main], interrupts off. *)
Definition kernel0 (main : ptr) (limit : Z) : kernel :=
  Kernel ∅ [] [] [] main NULL NULL false false false 0 0 0 0 0 1 limit ∅ ∅ ∅.

Definition thread_init : M kernel unit :=
  let! lv := intr_get_level in
  do! assert (negb lv) in
  do! lock_init tid_lock in
  do! modify (set_ready_list (fun _ => [])) in
  do! modify (set_all_list (fun _ => [])) in
  let! t := running_thread in
  do! modify (set_initial_thread (fun _ => t)) in
  do! init_thread t PRI_DEFAULT in
  do! upd_thread t (set_status THREAD_RUNNING) in
  push [FLockAcquire tid_lock; FNextTid t; FLockRelease tid_lock].

Definition thread_start : M kernel unit :=
  do! sema_init idle_started_sema 0 in
  push [FCreate PRI_MIN (Some idle_started_sema); FEnable; FSemaDown idle_started_sema].

(** Run until the running thread has nothing left on its stack. *)
Fixpoint drain (fuel : nat) (page : option ptr) : M kernel unit :=
  match fuel with
  | O => fail EFuel
  | S f =>
      let! cur := running_thread in
      let! th := get_thread cur in
      match stack th with [] => ret tt | _ => do! exec page in drain f page end
  end.

(** [main] up to the return of [thread_start]; the rest is arbitrary. *)
Definition boot (idle_page : ptr) : M kernel unit :=
  do! thread_init in
  do! drain 20 None in
  do! thread_start in
  do! drain 40 (Some idle_page) in
  push [FBody; FExit].

(** ** What the machine can do *)

Definition top_is (k : kernel) (f : frame) : Prop :=
  exists th st, threads k !! current k = Some th /\ stack th = f :: st.

(** The rules a thread's own code keeps when it calls the kernel: it uses
    objects that exist, does not acquire a lock it holds, releases only a lock
    it holds, waits on and signals a condition only with the lock held. *)
Definition may_call (k : kernel) (f : frame) : Prop :=
  match f with
  | FSemaDown (SSema p) | FSemaUp (SSema p) | FSemaTryDown (SSema p) => is_Some (semas k !! SSema p)
  | FLockAcquire l | FLockTryAcquire l => l <> tid_lock /\ exists h, holders k !! l = Some h /\ h <> current k
  | FLockRelease l => l <> tid_lock /\ holders k !! l = Some (current k)
  | FCondWait c l | FCondSignal c l | FCondBroadcast c l =>
      l <> tid_lock /\ holders k !! l = Some (current k) /\ is_Some (conds k !! c)
  | FYield | FSleep _ | FExit => True
  | FCreate prio None => PRI_MIN <= prio <= PRI_MAX
  | _ => False
  end.

Inductive step (k : kernel) : kernel -> Prop :=
  | step_exec page k' :
      (forall t, page = Some t -> t <> NULL /\ threads k !! t = None) ->
      exec page k = Ok (tt, k') -> step k k'
  | step_tick k' :
      intr_level k = true -> timer_tick k = Ok (tt, k') -> step k k'
  | step_call f k' :
      top_is k FBody -> may_call k f -> push [f] k = Ok (tt, k') -> step k k'
  | step_sema_init p v k' :
      top_is k FBody -> semas k !! SSema p = None -> in_u 32 v ->
      sema_init (SSema p) v k = Ok (tt, k') -> step k k'
  | step_lock_init l k' :
      top_is k FBody -> holders k !! l = None -> lock_init l k = Ok (tt, k') -> step k k'
  | step_cond_init c k' :
      top_is k FBody -> conds k !! c = None -> cond_init c k = Ok (tt, k') -> step k k'.

Inductive reachable (k0 : kernel) : kernel -> Prop :=
  | reach_refl : reachable k0 k0
  | reach_step k k' : reachable k0 k -> step k k' -> reachable k0 k'.

End Sched.
