(* ===== verification/SchedInv.v ===== *)
(** * Invariants of the thread system

    What holds in every state the machine of [Sched] can reach: the lists and
    the thread states agree, every thread has a stack it can resume from with
    the interrupt level it expects, and each lock is free, held, or on its way
    between a thread and its semaphore, never two of these.  Every step
    preserves the invariant and no assertion of the kernel fails. *)

From S2P Require Import Prelude.
From S2P Require Import KListSort.
From S2P Require Import Sched.
Import Sched.
Local Open Scope Z_scope.

Module SchedInv.

(** ** Stacks *)

(** The interrupt level a frame needs, and the one it leaves. *)
Definition entry (f : frame) : bool :=
  match f with
  | FDownLoop _ _ | FSetLevel _ | FEnable | FIret | FKernelThread | FHlt => false
  | _ => true
  end.
Definition leave (f : frame) : bool :=
  match f with FDownLoop _ b | FSetLevel b => b | _ => true end.

(** Frames that never return, and what may be left below them. *)
Definition last_frame (f : frame) : bool :=
  match f with FExit | FDie | FIdleLoop => true | _ => false end.
Definition plain (st : list frame) : bool :=
  forallb (fun f => match f with FBody | FExit => true | _ => false end) st.

Definition is_body (f : frame) : bool := match f with FBody => true | _ => false end.

(** A stack that can run when the interrupt level is [lv]. *)
Fixpoint runs_at (lv : bool) (st : list frame) : bool :=
  match st with
  | [] => false
  | f :: st' =>
      Bool.eqb lv (entry f) &&
      (if last_frame f then plain st' else (negb (is_body f) || plain st') && runs_at (leave f) st')
  end.

(** The threads a stack is in the course of creating. *)
Definition creates (f : frame) : list ptr := match f with FFinish t _ => [t] | _ => [] end.
Definition creating (st : list frame) : list ptr := st ≫= creates.

(** A [sema_down] of a lock's semaphore is followed by taking the lock. *)
Definition takes (st : list frame) (l : ptr) : bool :=
  match st with FSetHolder l' :: _ => l' =? l | _ => false end.
Fixpoint downs_ok (st : list frame) : bool :=
  match st with
  | [] => true
  | f :: st' =>
      match f with FSemaDown (SLock l) | FDownLoop (SLock l) _ => takes st' l | _ => true end
      && downs_ok st'
  end.

(** How often a stack has taken lock [l] from its semaphore without being its
    holder yet, or not being it any more. *)
Definition weight1 (l : ptr) (f : frame) : Z :=
  match f with
  | FSetHolder l' => if l' =? l then 1 else 0
  | FSemaUp (SLock l') => if l' =? l then 1 else 0
  | FSemaDown (SLock l') | FDownLoop (SLock l') _ => if l' =? l then -1 else 0
  | _ => 0
  end.
Fixpoint weight (l : ptr) (st : list frame) : Z :=
  match st with [] => 0 | f :: st' => weight1 l f + weight l st' end.

(** The stack uses lock [l] correctly when its thread holds it ([h]) or not:
    the private lock of thread.c is never held by a thread's own code. *)
Fixpoint lock_ok (l : ptr) (h : bool) (st : list frame) : Prop :=
  match st with
  | [] => True
  | f :: st' =>
      match f with
      | FLockAcquire l' | FSetHolder l' => if l' =? l then h = false /\ lock_ok l true st' else lock_ok l h st'
      | FLockTryAcquire l' =>
          if l' =? l then h = false /\ lock_ok l true st' /\ lock_ok l false st' else lock_ok l h st'
      | FLockRelease l' => if l' =? l then h = true /\ lock_ok l false st' else lock_ok l h st'
      | FCondWait _ l' | FCondSignal _ l' | FCondBroadcast _ l' =>
          if l' =? l then h = true /\ lock_ok l true st' else lock_ok l h st'
      | FCreate _ _ => (l = tid_lock -> h = false) /\ lock_ok l h st'
      | FBody => (l = tid_lock -> h = false) /\ forall h', (l = tid_lock -> h' = false) -> lock_ok l h' st'
      | FExit | FDie => (l = tid_lock -> h = false) /\ lock_ok l h st'
      | _ => lock_ok l h st'
      end
  end.

(** The objects a frame names exist. *)
Definition frame_ok (k : kernel) (f : frame) : Prop :=
  match f with
  | FSemaDown s | FDownLoop s _ => is_Some (semas k !! s)
  | FSemaUp s => is_Some (semas k !! s) /\ forall l, s = SLock l -> is_Some (holders k !! l)
  | FSemaTryDown s => is_Some (semas k !! s) /\ exists p, s = SSema p
  | FLockAcquire l | FLockTryAcquire l | FLockRelease l | FSetHolder l => is_Some (holders k !! l)
  | FCondWait c l | FCondSignal c l | FCondBroadcast c l => is_Some (holders k !! l) /\ is_Some (conds k !! c)
  | FCondEnqueue c w => is_Some (conds k !! c) /\ is_Some (semas k !! SWaiter w)
  | FCreate prio i => PRI_MIN <= prio <= PRI_MAX /\ i = None
  | FFinish _ i => i = None
  | FIdle _ => False
  | _ => True
  end.

Definition idle_frame (f : frame) : bool :=
  match f with FIdleLoop | FHlt | FSetLevel _ | FIret => true | _ => false end.

Definition holds (k : kernel) (l t : ptr) : bool :=
  match holders k !! l with Some h => h =? t | None => false end.

(** ** The invariant

    [r] is the running thread, [None] between the moment it gave up the
    processor and the switch. *)

Record thread_inv (r : option ptr) (k : kernel) (t : ptr) (th : thread) : Prop := {
  t_running : status th = THREAD_RUNNING -> r = Some t;
  t_current : r = Some t -> status th = THREAD_RUNNING /\ runs_at (intr_level k) (stack th) = true;
  t_ready : status th = THREAD_READY -> runs_at false (stack th) = true /\ (t ∈ ready_list k \/ t = idle_thread k);
  t_blocked : status th = THREAD_BLOCKED ->
    (stack th = [] /\ holds k tid_lock t = false) \/ runs_at false (stack th) = true;
  t_all : t ∈ all_list k <-> status th <> THREAD_DYING;
  t_frames : Forall (frame_ok k) (stack th);
  t_locks : forall l, lock_ok l (holds k l t) (stack th);
  t_downs : downs_ok (stack th) = true;
  t_creating : forall c, c ∈ creating (stack th) ->
    exists thc, threads k !! c = Some thc /\ status thc = THREAD_BLOCKED /\ stack thc = [];
  t_creating_nodup : NoDup (creating (stack th));
  t_dying : status th = THREAD_DYING -> plain (stack th) = true /\ holds k tid_lock t = false;
  t_idle : t = idle_thread k -> status th <> THREAD_DYING /\ forallb idle_frame (stack th) = true /\ stack th <> [] }.

Definition blocked_at (k : kernel) (f : frame -> Prop) (t : ptr) : Prop :=
  exists th g st, threads k !! t = Some th /\ status th = THREAD_BLOCKED /\ stack th = g :: st /\ f g.

Record lists_inv (k : kernel) : Prop := {
  g_ready : forall t, t ∈ ready_list k ->
    t <> idle_thread k /\ exists th, threads k !! t = Some th /\ status th = THREAD_READY;
  g_ready_nodup : NoDup (ready_list k);
  g_wait : forall s sm, semas k !! s = Some sm ->
    in_u 32 (value sm) /\ NoDup (waiters sm) /\
    forall t, t ∈ waiters sm -> blocked_at k (fun f => exists b, f = FDownLoop s b) t;
  g_sleep : forall t, t ∈ sleeping_threads k -> blocked_at k (eq FEnable) t;
  g_sleep_nodup : NoDup (sleeping_threads k);
  g_all : forall t, t ∈ all_list k -> is_Some (threads k !! t);
  g_all_nodup : NoDup (all_list k);
  g_null : threads k !! NULL = None;
  g_intr : in_external_intr k = false;
  g_idle : is_Some (threads k !! idle_thread k);
  g_tid_lock : is_Some (holders k !! tid_lock) /\
    forall t, t <> NULL -> holds k tid_lock t = true -> is_Some (threads k !! t);
  g_waiter : forall c ws t, conds k !! c = Some ws -> t ∈ ws -> is_Some (semas k !! SWaiter t);
  g_creating : forall u v thu thv c, threads k !! u = Some thu -> threads k !! v = Some thv ->
    c ∈ creating (stack thu) -> c ∈ creating (stack thv) -> u = v }.

(** Where lock [l] is: with its semaphore (and then with no thread), or with
    exactly one thread. *)
Definition stk (k : kernel) (u : ptr) : list frame :=
  match threads k !! u with Some th => stack th | None => [] end.
Definition share (k : kernel) (l u : ptr) : Z :=
  weight l (stk k u) + (if holds k l u && negb (u =? NULL) then 1 else 0).
Definition lock_place (k : kernel) (l : ptr) : Prop :=
  exists sm, semas k !! SLock l = Some sm /\
    ((value sm = 1 /\ forall u, share k l u = 0) \/
     (value sm = 0 /\ exists o, share k l o = 1 /\ forall u, u <> o -> share k l u = 0)).

Record kinv (r : option ptr) (k : kernel) : Prop := {
  k_threads : forall t th, threads k !! t = Some th -> thread_inv r k t th;
  k_lists : lists_inv k;
  k_locks : forall l, is_Some (holders k !! l) -> lock_place k l }.

(** The state between steps. *)
Definition kwf (k : kernel) : Prop := is_Some (threads k !! current k) /\ kinv (Some (current k)) k.

(** ** What a change elsewhere leaves true *)

(** [k'] differs from [k] only in the threads [X], and objects do not vanish. *)
Record agrees (X : list ptr) (k k' : kernel) : Prop := {
  a_threads : forall u, u ∉ X -> threads k' !! u = threads k !! u;
  a_ready : forall u, u ∉ X -> u ∈ ready_list k -> u ∈ ready_list k';
  a_all : forall u, u ∉ X -> (u ∈ all_list k' <-> u ∈ all_list k);
  a_idle : idle_thread k' = idle_thread k;
  a_semas : forall s, is_Some (semas k !! s) -> is_Some (semas k' !! s);
  a_holders : forall l, is_Some (holders k !! l) -> is_Some (holders k' !! l);
  a_conds : forall c, is_Some (conds k !! c) -> is_Some (conds k' !! c);
  a_holds : forall l u, u ∉ X -> u <> NULL -> holds k' l u = holds k l u }.

Section frame_facts.
Implicit Types (k : kernel) (t u c : ptr) (th : thread) (st : list frame).

Lemma frame_ok_mono k k' f :
  (forall s, is_Some (semas k !! s) -> is_Some (semas k' !! s)) ->
  (forall l, is_Some (holders k !! l) -> is_Some (holders k' !! l)) ->
  (forall c, is_Some (conds k !! c) -> is_Some (conds k' !! c)) ->
  frame_ok k f -> frame_ok k' f.
Proof. intros ???. destruct f; simpl; naive_solver. Qed.

Lemma thread_inv_agrees X r r' k k' u th :
  agrees X k k' -> u ∉ X -> u <> NULL -> r <> Some u -> r' <> Some u ->
  (forall c thc, c ∈ creating (stack th) -> threads k !! c = Some thc ->
     status thc = THREAD_BLOCKED -> stack thc = [] ->
     exists thc', threads k' !! c = Some thc' /\ status thc' = THREAD_BLOCKED /\ stack thc' = []) ->
  thread_inv r k u th -> thread_inv r' k' u th.
Proof.
  intros [Ht Hr Ha Hi Hs Hh Hc Hho] Hu Hn Hr1 Hr2 Hcr [I1 I2 I3 I4 I5 I6 I7 I8 I9 I10 I12 I11].
  split; try done.
  - intros E. by destruct Hr1; apply I1.
  - intros E. destruct (I3 E) as [? [?| ->]]; (split; [done|]); [left; by apply Hr|right; by rewrite Hi].
  - by rewrite Hho.
  - rewrite Ha by done. done.
  - eapply Forall_impl; [exact I6|]. intros f. by apply frame_ok_mono.
  - intros l. by rewrite Hho.
  - intros c Hin. destruct (I9 c Hin) as (thc&?&?&?). by eapply Hcr.
  - by rewrite Hho.
  - rewrite Hi. done.
Qed.

Lemma downs_weight l st : downs_ok st = true -> 0 <= weight l st.
Proof.
  enough (downs_ok st = true -> 0 <= weight l st /\ (forall l', takes st l' = true -> l' = l -> 1 <= weight l st)) by naive_solver.
  induction st as [|f st IH]; simpl; [done|]. intros [Hf Hd]%andb_true_iff. destruct (IH Hd) as [Hw Ht].
  destruct f; try match goal with s : sid |- _ => destruct s as [?|l0|?] end; simpl in *;
    try (split; [lia|done]).
  - destruct (Z.eqb_spec l0 l); (split; [|done]); [specialize (Ht _ Hf)|]; lia.
  - destruct (Z.eqb_spec l0 l); (split; [lia|done]).
  - destruct (Z.eqb_spec l0 l); (split; [|done]); [specialize (Ht _ Hf)|]; lia.
  - destruct (Z.eqb_spec l0 l); (split; [lia|]); intros l' E ->; apply Z.eqb_eq in E; lia.
Qed.

Lemma weight_app l st1 st2 : weight l (st1 ++ st2) = weight l st1 + weight l st2.
Proof. induction st1 as [|f st1 IH]; simpl; [done|]. rewrite IH. lia. Qed.

Lemma creating_app st1 st2 : creating (st1 ++ st2) = creating st1 ++ creating st2.
Proof. unfold creating. by rewrite bind_app. Qed.

Lemma plain_weight l st : plain st = true -> weight l st = 0.
Proof. induction st as [|f st IH]; simpl; [done|]. intros [Hf Hp]%andb_true_iff. rewrite IH by done. by destruct f. Qed.

Lemma blocked_at_mono k k' f t :
  threads k' !! t = threads k !! t -> blocked_at k f t -> blocked_at k' f t.
Proof. intros E (th'&g&st&?&?&?&?). exists th', g, st. by rewrite E. Qed.
End frame_facts.

(** ** Steps that concern the running thread alone *)

(** The lists and the running thread are the same. *)
Definition same_sched (k k' : kernel) : Prop :=
  ready_list k' = ready_list k /\ all_list k' = all_list k /\ sleeping_threads k' = sleeping_threads k /\
  idle_thread k' = idle_thread k /\ current k' = current k /\ in_external_intr k' = in_external_intr k.

(** What the stack of the running thread must be like after its step. *)
Record stack_ok (k : kernel) (st0 st : list frame) : Prop := {
  s_runs : runs_at (intr_level k) st = true;
  s_frames : Forall (frame_ok k) st;
  s_locks : forall l, lock_ok l (holds k l (current k)) st;
  s_downs : downs_ok st = true;
  s_creating : sublist (creating st) (creating st0);
  s_idle : forallb idle_frame st0 = true -> forallb idle_frame st = true }.

(** How the synchronisation objects may change. *)
Record objects_ok (k k' : kernel) : Prop := {
  o_semas : forall s, is_Some (semas k !! s) -> is_Some (semas k' !! s);
  o_holders : forall l, is_Some (holders k !! l) -> is_Some (holders k' !! l);
  o_conds : forall c, is_Some (conds k !! c) -> is_Some (conds k' !! c);
  o_holds : forall l u, u <> current k -> u <> NULL -> holds k' l u = holds k l u;
  o_wait : forall s sm', semas k' !! s = Some sm' -> in_u 32 (value sm') /\
    (waiters sm' = [] \/ exists sm, semas k !! s = Some sm /\
       (waiters sm' = waiters sm \/ exists t, waiters sm = t :: waiters sm'));
  o_waiter : forall c ws t, conds k' !! c = Some ws -> t ∈ ws -> is_Some (semas k' !! SWaiter t) }.

Section local.
Context (k : kernel) (th : thread).
Hypothesis Hk : kwf k.
Hypothesis Hth : threads k !! current k = Some th.

Lemma kwf_cur : thread_inv (Some (current k)) k (current k) th.
Proof. destruct Hk as [_ [Ht _ _]]. by apply Ht. Qed.

Lemma kwf_status : status th = THREAD_RUNNING.
Proof. by apply (t_current _ _ _ _ kwf_cur). Qed.

Lemma kwf_cur_null : current k <> NULL.
Proof. intros E. destruct Hk as [_ [_ [] _]]. rewrite E in Hth. congruence. Qed.

Lemma blocked_ne f t : blocked_at k f t -> t <> current k.
Proof. intros (th'&g&st&E&Hb&_) ->. pose proof kwf_status. congruence. Qed.

Lemma local_agrees k' th' :
  threads k' = <[current k := th']> (threads k) -> same_sched k k' -> objects_ok k k' -> agrees [current k] k k'.
Proof.
  intros Et (Er&Ea&_&Ei&_&_) [? ? ? Ho _ _]. split; try done.
  - intros u Hu. rewrite Et, lookup_insert_ne; [done|]. set_solver.
  - intros u _. by rewrite Er.
  - intros u _. by rewrite Ea.
  - intros l u Hu ?. apply Ho; [set_solver|done].
Qed.

Lemma local_lists k' th' :
  threads k' = <[current k := th']> (threads k) -> status th' = THREAD_RUNNING ->
  same_sched k k' -> objects_ok k k' -> sublist (creating (stack th')) (creating (stack th)) -> lists_inv k'.
Proof.
  intros Et Hst (Er&Ea&Es&Ei&_&Ee) [? Hh ? Ho Hw Hwt] Hcr. pose proof kwf_status as Hrun.
  pose proof Hk as [_ [_ [G1 G2 G3 G4 G5 G6 G7 G8 G9 G10 [G11 G11'] G12 G13] _]].
  assert (forall f t, blocked_at k f t -> blocked_at k' f t) as Hb.
  { intros f t Hb. eapply blocked_at_mono; [|exact Hb]. rewrite Et, lookup_insert_ne; [done|].
    by apply blocked_ne in Hb. }
  assert (forall u, is_Some (threads k' !! u) <-> is_Some (threads k !! u)) as Hdom.
  { intros u. rewrite Et, lookup_insert_is_Some'. split; [intros [<-|?]; [by eexists|done]|by right]. }
  split; rewrite ?Er, ?Ea, ?Es, ?Ei, ?Ee; try done.
  - intros t Hin. destruct (G1 t Hin) as [? (tht&Ht&Hs)]. split; [done|]. exists tht. split; [|done].
    rewrite Et, lookup_insert_ne; [done|]. intros <-. congruence.
  - intros s sm' Hs. destruct (Hw s sm' Hs) as [? [->|(sm&Hsm&Hws)]].
    + split_and!; [done|apply NoDup_nil_2|set_solver].
    + destruct (G3 s sm Hsm) as (_&Hnd&?). destruct Hws as [->|[t Hws]]; [split_and!; [done|done|]; auto|].
      rewrite Hws in Hnd. apply NoDup_cons in Hnd as [_ ?]. split_and!; [done|done|].
      intros t' Ht'. apply Hb. rewrite Hws in *. set_solver.
  - auto.
  - intros t Hin. by apply Hdom, G6.
  - rewrite Et. apply lookup_insert_None. split; [done|]. apply kwf_cur_null.
  - by apply Hdom.
  - split; [by apply Hh|]. intros t Hn Hh'. apply Hdom. destruct (decide (t = current k)) as [->|]; [by eexists|].
    rewrite Ho in Hh' by done. auto.
  - intros u v thu thv c. rewrite Et, !lookup_insert_Some.
    assert (forall c, c ∈ creating (stack th') -> c ∈ creating (stack th)) by (intros ? Hc; by eapply elem_of_sublist).
    intros [[<- <-]|[? Hu]] [[<- <-]|[? Hv]] ? ?; [done|..]; eapply G13; eauto.
Qed.

Lemma local_kwf k' th' :
  threads k' = <[current k := th']> (threads k) -> status th' = THREAD_RUNNING ->
  same_sched k k' -> objects_ok k k' -> stack_ok k' (stack th) (stack th') ->
  (forall l, is_Some (holders k' !! l) -> lock_place k' l) -> kwf k'.
Proof.
  intros Et Hst Hsame Hobj [S1 S2 S3 S4 S5 S6] Hl. pose proof Hsame as (Er&Ea&_&Ei&Ec&_).
  pose proof kwf_cur as [I1 I2 I3 I4 I5 I6 I7 I8 I9 I10 _ I11].
  assert (forall c thc, threads k !! c = Some thc -> status thc = THREAD_BLOCKED ->
            threads k' !! c = Some thc) as Hbl.
  { intros c thc Hc Hb. rewrite Et, lookup_insert_ne; [done|]. intros <-. pose proof kwf_status. congruence. }
  split; [rewrite Ec, Et, lookup_insert_eq; by eexists|]. split; [|by eapply local_lists|done].
  intros t tht Ht. destruct (decide (t = current k)) as [->|Hne].
  - rewrite Et, lookup_insert_eq in Ht. injection Ht as <-. rewrite Ec in *.
    split; try done; try (intros E; rewrite Hst in E; discriminate E).
    + rewrite Ea, I5, Hst, kwf_status. done.
    + intros c Hc. apply (elem_of_sublist _ _ _ Hc) in S5 as Hc0. destruct (I9 c Hc0) as (thc&Hc1&Hc2&Hc3). eauto.
    + by eapply sublist_NoDup.
    + rewrite Ei. intros Hid. destruct (I11 Hid) as (_&Hif&_). split_and!; [by rewrite Hst|auto|].
      intros Hnil. by rewrite Hnil in S1.
  - pose proof Hk as [_ [Hts Hgl _]]. rewrite Et, lookup_insert_ne in Ht by done.
    eapply thread_inv_agrees; [by eapply local_agrees|set_solver|..|by apply Hts].
    + intros ->. pose proof (g_null _ Hgl). congruence.
    + congruence.
    + rewrite Ec. congruence.
    + intros c thc _ ? ? ?. eauto.
Qed.

(** A lock moves between its semaphore and the running thread: what one
    loses the other gets. *)
Lemma local_locks k' th' :
  threads k' = <[current k := th']> (threads k) -> downs_ok (stack th') = true ->
  (forall l u, u <> current k -> u <> NULL -> holds k' l u = holds k l u) ->
  (forall l, is_Some (holders k' !! l) -> is_Some (holders k !! l)) ->
  (forall l sm, semas k !! SLock l = Some sm ->
     exists sm', semas k' !! SLock l = Some sm' /\ 0 <= value sm' /\
       value sm' + weight l (stack th') + Z.b2z (holds k' l (current k)) =
       value sm + weight l (stack th) + Z.b2z (holds k l (current k))) ->
  forall l, is_Some (holders k' !! l) -> lock_place k' l.
Proof.
  intros Et Hd Hh Hdom Hv l Hl. pose proof Hk as [_ [_ Hli Hp]]. destruct (Hp l (Hdom l Hl)) as (sm&Hsm&Hpl).
  destruct (Hv l sm Hsm) as (sm'&Hsm'&Hv0&Hsum). exists sm'. split; [done|].
  pose proof kwf_cur_null as Hn. pose proof (downs_weight l _ Hd) as Hw.
  assert (share k' l (current k) = weight l (stack th') + Z.b2z (holds k' l (current k))) as Ec'.
  { unfold share, stk. rewrite Et, lookup_insert_eq, (proj2 (Z.eqb_neq _ _) Hn), andb_true_r. by destruct (holds _ _ _). }
  assert (share k l (current k) = weight l (stack th) + Z.b2z (holds k l (current k))) as Ec.
  { unfold share, stk. rewrite Hth, (proj2 (Z.eqb_neq _ _) Hn), andb_true_r. by destruct (holds _ _ _). }
  assert (forall u, u <> current k -> share k' l u = share k l u) as Eo.
  { intros u Hu. unfold share, stk. rewrite Et, lookup_insert_ne by done.
    destruct (decide (u = NULL)) as [->|]; [by rewrite !andb_false_r|]. by rewrite Hh. }
  assert (0 <= Z.b2z (holds k' l (current k))) by (destruct (holds _ _ _); simpl; lia).
  destruct Hpl as [[E1 Hall]|(E0&o&Ho&Hoth)].
  - specialize (Hall (current k)) as Hc. destruct (decide (value sm' = 1)).
    + left. split; [done|]. intros u. destruct (decide (u = current k)) as [->|]; [lia|]. by rewrite Eo.
    + right. split; [lia|]. exists (current k). split; [lia|]. intros u Hu. by rewrite Eo.
  - destruct (decide (o = current k)) as [->|Hne].
    + destruct (decide (value sm' = 0)).
      * right. split; [done|]. exists (current k). split; [lia|]. intros u Hu. rewrite Eo by done. auto.
      * left. split; [lia|]. intros u. destruct (decide (u = current k)) as [->|]; [lia|]. rewrite Eo by done. auto.
    + specialize (Hoth (current k)) as Hc. right. split; [lia|]. exists o. rewrite Eo by done. split; [done|].
      intros u Hu. destruct (decide (u = current k)) as [->|]; [lia|]. rewrite Eo by done. auto.
Qed.

Lemma objects_same k' :
  semas k' = semas k -> holders k' = holders k -> conds k' = conds k -> objects_ok k k'.
Proof.
  intros Es Eh Ec. destruct Hk as [_ [_ [] _]].
  split; unfold holds; rewrite ?Es, ?Eh, ?Ec; try done.
  intros s sm Hs. destruct (g_wait0 s sm Hs) as (?&_&_). split; [done|]. eauto 6.
Qed.

Lemma objects_sema k' s sm v ws :
  semas k !! s = Some sm -> semas k' = <[s := Sema v ws]> (semas k) -> holders k' = holders k -> conds k' = conds k ->
  in_u 32 v -> ws = waiters sm \/ (exists t, waiters sm = t :: ws) -> objects_ok k k'.
Proof.
  intros Hs Es Eh Ec Hv Hws. pose proof (k_lists _ _ (proj2 Hk)) as [].
  split; unfold holds; rewrite ?Es, ?Eh, ?Ec; try done.
  - intros s' ?. rewrite lookup_insert_is_Some'. by right.
  - intros s' sm'. rewrite lookup_insert_Some. intros [[<- <-]|[? Hs']]; cbn.
    + split; [done|]. right. exists sm. split; [done|]. destruct Hws as [-> | [t ->]]; eauto.
    + destruct (g_wait0 s' sm' Hs') as (?&_&_). split; [done|]. eauto 6.
  - intros c ws' t ? ?. rewrite lookup_insert_is_Some'. right. eauto.
Qed.

(** A fresh or reused semaphore is initialised. *)
Lemma objects_init k' s v :
  semas k' = <[s := Sema v []]> (semas k) -> holders k' = holders k -> conds k' = conds k ->
  in_u 32 v -> objects_ok k k'.
Proof.
  intros Es Eh Ec Hv. pose proof (k_lists _ _ (proj2 Hk)) as [].
  split; unfold holds; rewrite ?Es, ?Eh, ?Ec; try done.
  - intros s' ?. rewrite lookup_insert_is_Some'. by right.
  - intros s' sm'. rewrite lookup_insert_Some. intros [[<- <-]|[? Hs']]; cbn; [by split; [|left]|].
    destruct (g_wait0 s' sm' Hs') as (?&_&_). split; [done|]. eauto 6.
  - intros c ws' t ? ?. rewrite lookup_insert_is_Some'. right. eauto.
Qed.

Lemma objects_cond k' c ws :
  semas k' = semas k -> holders k' = holders k -> conds k' = <[c := ws]> (conds k) ->
  (forall t, t ∈ ws -> is_Some (semas k !! SWaiter t)) -> objects_ok k k'.
Proof.
  intros Es Eh Ec Hws. pose proof (k_lists _ _ (proj2 Hk)) as [].
  split; unfold holds; rewrite ?Es, ?Eh, ?Ec; try done.
  - intros c' ?. rewrite lookup_insert_is_Some'. by right.
  - intros s' sm' Hs'. destruct (g_wait0 s' sm' Hs') as (?&_&_). split; [done|]. eauto 6.
  - intros c' ws' t. rewrite lookup_insert_Some. intros [[<- <-]|[_ ?]]; eauto.
Qed.

Lemma objects_holder k' l h h' :
  semas k' = semas k -> conds k' = conds k -> holders k !! l = Some h -> holders k' = <[l := h']> (holders k) ->
  h = NULL \/ h = current k -> h' = NULL \/ h' = current k -> objects_ok k k'.
Proof.
  intros Es Ec Hh Eh H1 H2. pose proof (k_lists _ _ (proj2 Hk)) as [].
  split; rewrite ?Es, ?Eh, ?Ec; try done.
  - intros l' ?. rewrite lookup_insert_is_Some'. by right.
  - intros l' u Hu Hn. unfold holds. rewrite Eh. destruct (decide (l = l')) as [<-|]; [|by rewrite lookup_insert_ne].
    rewrite lookup_insert_eq, Hh. rewrite !(proj2 (Z.eqb_neq _ u)); [done|naive_solver..].
  - intros s' sm' Hs'. destruct (g_wait0 s' sm' Hs') as (?&_&_). split; [done|]. eauto 6.
Qed.
End local.

(** ** Symbolic execution *)

(** States are equal when their fields are. *)
Lemma kernel_ext k k' :
  threads k = threads k' ->
  ready_list k = ready_list k' ->
  all_list k = all_list k' ->
  sleeping_threads k = sleeping_threads k' ->
  current k = current k' ->
  idle_thread k = idle_thread k' ->
  initial_thread k = initial_thread k' ->
  intr_level k = intr_level k' ->
  in_external_intr k = in_external_intr k' ->
  yield_on_return k = yield_on_return k' ->
  ticks k = ticks k' ->
  thread_ticks k = thread_ticks k' ->
  idle_ticks k = idle_ticks k' ->
  kernel_ticks k = kernel_ticks k' ->
  user_ticks k = user_ticks k' ->
  next_tid k = next_tid k' ->
  thread_create_limit k = thread_create_limit k' ->
  semas k = semas k' ->
  holders k = holders k' ->
  conds k = conds k' ->
  k = k'.
Proof. destruct k, k'. cbn. intros. by subst. Qed.
Ltac kernel_eq := apply kernel_ext; cbn; try reflexivity.

Lemma alter_some {A} (m : gmap ptr A) i f x : m !! i = Some x -> alter f i m = <[i := f x]> m.
Proof. intros Hx. apply map_eq. intros j. destruct (decide (i = j)) as [->|]; by simplify_map_eq. Qed.

Section exec_rules.
Implicit Types (k : kernel) (th : thread).

Lemma wp_upd_thread t f Q k th :
  threads k !! t = Some th -> Q tt (set_threads (fun _ => <[t := f th]> (threads k)) k) -> wp (upd_thread t f) Q k.
Proof. intros Ht HQ. apply wp_modify. unfold set_threads in *. by rewrite (alter_some _ _ _ _ Ht). Qed.

Lemma wp_push fs Q k th :
  threads k !! current k = Some th ->
  Q tt (set_threads (fun _ => <[current k := set_stack (app fs) th]> (threads k)) k) -> wp (push fs) Q k.
Proof. intros Ht HQ. apply wp_bind, wp_gets. by eapply wp_upd_thread. Qed.

Lemma wp_get_thread t Q k th : threads k !! t = Some th -> Q th k -> wp (get_thread t) Q k.
Proof. unfold wp, get_thread. by intros ->. Qed.

Lemma wp_get_sema s Q k sm : semas k !! s = Some sm -> Q sm k -> wp (get_sema s) Q k.
Proof. unfold wp, get_sema. by intros ->. Qed.

Lemma wp_get_holder l Q k h : holders k !! l = Some h -> Q h k -> wp (get_holder l) Q k.
Proof. unfold wp, get_holder. by intros ->. Qed.

Lemma wp_get_cond c Q k ws : conds k !! c = Some ws -> Q ws k -> wp (get_cond c) Q k.
Proof. unfold wp, get_cond. by intros ->. Qed.

Lemma wp_thread_current Q k th :
  threads k !! current k = Some th -> status th = THREAD_RUNNING -> Q (current k) k -> wp thread_current Q k.
Proof.
  intros Ht Hs HQ. unfold thread_current, running_thread, is_thread. wp_go.
  - by rewrite bool_decide_true by (by eexists).
  - eapply wp_get_thread; [done|]. wp_go; [|done]. by rewrite bool_decide_true.
Qed.

Lemma wp_lock_held l Q k th h :
  holders k !! l = Some h -> threads k !! current k = Some th -> status th = THREAD_RUNNING ->
  Q (h =? current k) k -> wp (lock_held_by_current_thread l) Q k.
Proof.
  intros. unfold lock_held_by_current_thread. apply wp_bind. eapply wp_get_holder; [done|].
  apply wp_bind. eapply wp_thread_current; [done..|]. by apply wp_ret.
Qed.

Lemma wp_intr_set_level b (Q : bool -> kernel -> Prop) k :
  in_external_intr k = false -> (forall o, Q o (set_intr_level (fun _ => b) k)) -> wp (intr_set_level b) Q k.
Proof.
  intros Hc HQ. unfold intr_set_level, intr_enable, intr_disable, intr_get_level, intr_context.
  destruct b; wp_go; [by rewrite Hc|apply HQ..].
Qed.

Lemma wp_intr_disable (Q : bool -> kernel -> Prop) k :
  Q (intr_level k) (set_intr_level (fun _ => false) k) -> wp intr_disable Q k.
Proof. intros HQ. unfold intr_disable, intr_get_level. by wp_go. Qed.

Lemma wp_intr_context (Q : bool -> kernel -> Prop) k b :
  in_external_intr k = b -> Q b k -> wp intr_context Q k.
Proof. intros <- HQ. by apply wp_gets. Qed.

(** The frame is taken off the stack and run. *)
Lemma wp_exec page Q k th f st :
  threads k !! current k = Some th -> stack th = f :: st ->
  wp (run page f) Q (set_threads (fun _ => <[current k := set_stack (fun _ => st) th]> (threads k)) k) ->
  wp (exec page) Q k.
Proof.
  intros Ht Hs HQ. unfold exec, running_thread. apply wp_bind, wp_gets, wp_bind.
  eapply wp_get_thread; [done|]. rewrite Hs. apply wp_bind. by eapply wp_upd_thread.
Qed.
End exec_rules.

(** Facts that come with a stack that begins with [f]. *)
Record top_facts (k : kernel) (th : thread) (f : frame) (st : list frame) : Prop := {
  tf_runs : intr_level k = entry f /\
    (if last_frame f then plain st else (negb (is_body f) || plain st) && runs_at (leave f) st) = true;
  tf_frame : frame_ok k f;
  tf_frames : Forall (frame_ok k) st;
  tf_locks : forall l, lock_ok l (holds k l (current k)) (f :: st);
  tf_downs : downs_ok (f :: st) = true;
  tf_downs' : downs_ok st = true }.

Lemma kwf_top k th f st :
  kwf k -> threads k !! current k = Some th -> stack th = f :: st -> top_facts k th f st.
Proof.
  intros Hk Hth Hs. destruct (kwf_cur k th Hk Hth) as [_ I2 _ _ _ I6 I7 I8 _ _ _ _].
  destruct (I2 eq_refl) as [_ Hr]. rewrite Hs in *. cbn [runs_at] in Hr. apply andb_true_iff in Hr as [He Hr].
  apply Forall_cons in I6 as [? ?]. split; try done.
  - split; [|done]. by apply eqb_prop.
  - cbn in I8. by apply andb_true_iff in I8 as [_ ?].
Qed.

Ltac look := cbn; first [eassumption | rewrite lookup_insert_eq; reflexivity].
Ltac k_go :=
  repeat lazymatch goal with
  | |- wp (bind _ _) _ _ => apply wp_bind
  | |- wp (gets _) _ _ => apply wp_gets
  | |- wp running_thread _ _ => apply wp_gets
  | |- wp intr_get_level _ _ => apply wp_gets
  | |- wp (modify _) _ _ => apply wp_modify
  | |- wp (ret _) _ _ => apply wp_ret
  | |- wp (assert _) _ _ => apply wp_assert; split; [try done|]
  | |- wp (push _) _ _ => eapply wp_push; [look|]
  | |- wp (upd_thread _ _) _ _ => eapply wp_upd_thread; [look|]
  | |- wp (get_thread _) _ _ => eapply wp_get_thread; [look|]
  | |- wp thread_current _ _ => eapply wp_thread_current; [look|done|]
  | |- wp (lock_held_by_current_thread _) _ _ => eapply wp_lock_held; [look|look|done|]
  | |- wp (get_sema _) _ _ => eapply wp_get_sema; [look|]
  | |- wp (get_holder _) _ _ => eapply wp_get_holder; [look|]
  | |- wp (get_cond _) _ _ => eapply wp_get_cond; [look|]
  | |- wp (put_sema _ _) _ _ => apply wp_modify
  | |- wp (sema_init _ _) _ _ => apply wp_modify
  | |- wp (put_holder _ _) _ _ => apply wp_modify
  | |- wp (put_cond _ _) _ _ => apply wp_modify
  | |- wp intr_context _ _ => eapply wp_intr_context; [look|]
  | |- wp intr_disable _ _ => apply wp_intr_disable
  | |- wp (intr_set_level _) _ _ => apply wp_intr_set_level; [look|intros ?]
  end.

(** The result of a step that concerns the running thread alone: its new
    stack is [st']. *)
Ltac finish_local th st' :=
  eapply (local_kwf _ th ltac:(eassumption) ltac:(eassumption) _ (set_stack (fun _ => st') th));
  [cbn; rewrite ?insert_insert_eq; reflexivity|done|by split_and!|..].

(** The facts about the running thread and its top frame. *)
Ltac e_facts k th f st :=
  lazymatch goal with
  | Hk : kwf k, Hth : threads k !! current k = Some th, Hst : stack th = f :: st |- _ =>
      pose proof (kwf_status k th Hk Hth) as Hrun;
      pose proof (g_intr _ (k_lists _ _ (proj2 Hk))) as Hctx;
      destruct (kwf_top k th f st Hk Hth Hst) as [[Hlv Hr] Hf Hfs Hlk Hd Hd']
  end.

(** The new stack is as it must be; the locks did not move. *)
Ltac stack_tac :=
  lazymatch goal with Hst : stack ?th = _ |- stack_ok _ (stack ?th) _ =>
    split; cbn; rewrite ?Hst; cbn; rewrite ?Z.eqb_refl; try done; eauto;
    repeat (apply Forall_cons_2; [cbn; eauto|]); eauto
  end.
Ltac lock_sum Hst :=
  let l := fresh "l'" in
  let sm := fresh "sm'" in
  let Hsm := fresh "Hsm'" in
  intros l sm Hsm; exists sm; rewrite Hst; cbn;
  split_and!; [exact Hsm
              |lazymatch goal with Hk : kwf _ |- _ => by destruct (g_wait _ (k_lists _ _ (proj2 Hk)) _ _ Hsm) as [[? ?] _] end
              |unfold holds; cbn; first [lia|repeat case_match; lia]].
Ltac lock_tac :=
  lazymatch goal with Hst : stack ?th = _ |- _ =>
    eapply (local_locks _ th ltac:(eassumption) ltac:(eassumption));
    [cbn; rewrite ?insert_insert_eq; reflexivity|cbn; rewrite ?Z.eqb_refl; auto|done|done|lock_sum Hst]
  end.

Ltac e_start Ef :=
  lazymatch goal with
  | Hst : stack ?th = ?f :: ?st, Hk : kwf ?k |- _ =>
      e_facts k th f st; rewrite Ef in *; eapply wp_exec; [eassumption..|]; run_frame;
      repeat match goal with
             | H : intr_level _ = entry _ |- _ => cbn in H
             | H : (if last_frame _ then _ else _) = true |- _ => cbn in H
             | H : frame_ok _ _ |- _ => cbn in H
             end
  end.

Lemma holds_insert k k' l h l' u :
  holders k' = <[l := h]> (holders k) -> holds k' l' u = if decide (l' = l) then h =? u else holds k l' u.
Proof.
  intros E. unfold holds. rewrite E. case_decide; subst; [by rewrite lookup_insert_eq|by rewrite lookup_insert_ne].
Qed.

(** Only one thread has to do with a lock. *)
Lemma share_nonneg k l u : kwf k -> 0 <= share k l u.
Proof.
  intros [_ [Ht _ _]]. unfold share, stk. destruct (threads k !! u) as [th|] eqn:E.
  - pose proof (downs_weight l _ (t_downs _ _ _ _ (Ht u th E))). destruct (_ && _); lia.
  - simpl. destruct (_ && _); lia.
Qed.

Lemma lock_exclusive k l o :
  kwf k -> is_Some (holders k !! l) -> 1 <= share k l o ->
  exists sm, semas k !! SLock l = Some sm /\ value sm = 0 /\ share k l o = 1 /\ forall u, u <> o -> share k l u = 0.
Proof.
  intros Hk Hl Ho. destruct (k_locks _ _ (proj2 Hk) l Hl) as (sm&Hsm&[[_ Hall]|(Hv&o'&Ho'&Hoth)]).
  - rewrite Hall in Ho. lia.
  - destruct (decide (o = o')) as [->|Hne]; [eauto|]. rewrite Hoth in Ho by done. lia.
Qed.

Lemma holder_or_null k l h t :
  kwf k -> holders k !! l = Some h -> 1 <= weight l (stk k t) -> h = NULL.
Proof.
  intros Hk Hh Hw. destruct (decide (h = NULL)) as [|Hn]; [done|exfalso].
  assert (1 <= share k l t) as Hs by (unfold share; destruct (_ && _); lia).
  destruct (lock_exclusive k l t Hk ltac:(by eexists) Hs) as (sm&_&_&H1&Hoth).
  assert (holds k l h = true) as Hhh by (unfold holds; rewrite Hh; apply Z.eqb_refl).
  destruct (decide (h = t)) as [->|Hne].
  - unfold share in H1. rewrite Hhh, (proj2 (Z.eqb_neq _ _) Hn) in H1. simpl in H1. lia.
  - specialize (Hoth h Hne). unfold share in Hoth. rewrite Hhh, (proj2 (Z.eqb_neq _ _) Hn) in Hoth. simpl in Hoth.
    pose proof Hk as [_ [Ht _ _]]. unfold stk in Hoth. destruct (threads k !! h) as [th|] eqn:E; [|simpl in Hoth; lia].
    pose proof (downs_weight l _ (t_downs _ _ _ _ (Ht h th E))). lia.
Qed.

Section exec_local.
Context (page : option ptr) (k : kernel) (th : thread) (f : frame) (st : list frame).
Hypothesis Hk : kwf k.
Hypothesis Hth : threads k !! current k = Some th.
Hypothesis Hst : stack th = f :: st.

Lemma e_run : status th = THREAD_RUNNING.
Proof. exact (kwf_status k th Hk Hth). Qed.

Lemma e_top : top_facts k th f st.
Proof. exact (kwf_top k th f st Hk Hth Hst). Qed.

Lemma no_context : in_external_intr k = false.
Proof. exact (g_intr _ (k_lists _ _ (proj2 Hk))). Qed.

Lemma lock_sema l : is_Some (holders k !! l) -> is_Some (semas k !! SLock l).
Proof. intros Hl. destruct Hk as [_ [_ _ Hp]]. destruct (Hp l Hl) as (sm&?&_). by exists sm. Qed.

Lemma exec_sema_down s : f = FSemaDown s -> wp (exec page) (fun _ => kwf) k.
Proof.
  intros Ef. e_start Ef. destruct Hf as [sm Hsm]. k_go. cbn. rewrite Hlv.
  finish_local th (FDownLoop s true :: st); [by apply objects_same|stack_tac|lock_tac].
Qed.

(** The lock is held by the thread or not, as its stack says. *)
Lemma held_false l h st' : holders k !! l = Some h -> lock_ok l (holds k l (current k)) (FLockAcquire l :: st') -> (h =? current k) = false.
Proof. intros Hh. cbn. rewrite Z.eqb_refl. unfold holds. rewrite Hh. by intros [-> _]. Qed.

Lemma held_true l h st' : holders k !! l = Some h -> lock_ok l (holds k l (current k)) (FLockRelease l :: st') -> (h =? current k) = true.
Proof. intros Hh. cbn. rewrite Z.eqb_refl. unfold holds. rewrite Hh. by intros [-> _]. Qed.

Lemma exec_lock_acquire l : f = FLockAcquire l -> wp (exec page) (fun _ => kwf) k.
Proof.
  intros Ef. e_start Ef. destruct Hf as [h Hh]. pose proof (held_false l h st Hh (Hlk l)) as Hheld. k_go.
  { cbn. by rewrite Hheld. }
  pose proof (lock_sema l ltac:(eauto)).
  finish_local th (FSemaDown (SLock l) :: FSetHolder l :: st); [by apply objects_same|stack_tac|lock_tac].
  by rewrite Hlv.
Qed.

Lemma exec_set_level b : f = FSetLevel b -> wp (exec page) (fun _ => kwf) k.
Proof.
  intros Ef. e_start Ef. k_go. finish_local th st; [by apply objects_same|stack_tac|lock_tac].
Qed.

Lemma exec_enable : f = FEnable \/ f = FKernelThread -> wp (exec page) (fun _ => kwf) k.
Proof.
  intros [Ef|Ef]; e_start Ef; apply wp_bind; apply (wp_intr_set_level true); (done || intros _; apply wp_ret);
    finish_local th st; [by apply objects_same|stack_tac|lock_tac..|by apply objects_same|stack_tac|lock_tac].
Qed.

Lemma exec_iret : f = FIret \/ f = FHlt -> wp (exec page) (fun _ => kwf) k.
Proof.
  intros [Ef|Ef]; e_start Ef; k_go;
    finish_local th st; [by apply objects_same|stack_tac|lock_tac..|by apply objects_same|stack_tac|lock_tac].
Qed.

Lemma exec_body : f = FBody -> wp (exec page) (fun _ => kwf) k.
Proof.
  intros Ef. e_start Ef. apply andb_true_iff in Hr as [_ Hr]. k_go.
  finish_local th st; [by apply objects_same|stack_tac|lock_tac].
  - by rewrite Hlv.
  - intros l. destruct (Hlk l) as [? Hn]. by apply Hn.
Qed.

Lemma exec_exit : f = FExit -> wp (exec page) (fun _ => kwf) k.
Proof.
  intros Ef. e_start Ef. k_go. finish_local th (FDie :: st); [by apply objects_same|stack_tac|lock_tac].
  by rewrite Hlv.
Qed.

(** The rules of a semaphore whose value changes. *)
Lemma sema_lock_sum s sm v ws st0 st' :
  semas k !! s = Some sm -> 0 <= v ->
  (forall l, s = SLock l -> v + weight l st' = value sm + weight l st0) ->
  (forall l, s <> SLock l -> weight l st' = weight l st0) ->
  forall l sm0, semas k !! SLock l = Some sm0 ->
    exists sm', <[s := Sema v ws]> (semas k) !! SLock l = Some sm' /\ 0 <= value sm' /\
      value sm' + weight l st' + Z.b2z (holds k l (current k)) =
      value sm0 + weight l st0 + Z.b2z (holds k l (current k)).
Proof.
  intros Hs Hv Hw1 Hw2 l sm0 Hl. destruct (decide (s = SLock l)) as [->|Hne].
  - rewrite lookup_insert_eq. eexists. split_and!; [done|done|]. rewrite Hs in Hl. simplify_eq. cbn.
    specialize (Hw1 l eq_refl). lia.
  - rewrite lookup_insert_ne by done. exists sm0. specialize (Hw2 l Hne).
    pose proof (g_wait _ (k_lists _ _ (proj2 Hk)) _ _ Hl) as [[? ?] _]. split_and!; [done|done|lia].
Qed.

Lemma exec_down_take s b sm :
  f = FDownLoop s b -> semas k !! s = Some sm -> value sm <> 0 -> wp (exec page) (fun _ => kwf) k.
Proof.
  intros Ef Hsm Hv. e_start Ef.
  pose proof (g_wait _ (k_lists _ _ (proj2 Hk)) _ _ Hsm) as ([Hv0 Hv1]&_).
  apply wp_bind. eapply wp_get_sema; [done|]. rewrite (proj2 (Z.eqb_neq _ _) Hv). k_go.
  rewrite wrapu_small in * by (unfold in_u; lia).
  finish_local th st; [eapply objects_sema; try done; [unfold in_u; cbn; lia|by left]|stack_tac|].
  - rewrite Forall_forall in *. intros g Hg. eapply (frame_ok_mono k); try done; [|by apply Hfs].
    intros s' ?. cbn. rewrite lookup_insert_is_Some'. by right.
  - eapply (local_locks k th Hk Hth); [done|done|done|done|]. cbn.
    rewrite Hst. apply (sema_lock_sum s sm); [done|lia|..]; cbn.
    + intros l ->. cbn. rewrite Z.eqb_refl. lia.
    + intros l Hne. destruct s as [|l0|]; try done. destruct (Z.eqb_spec l0 l) as [->|]; [done|lia].
Qed.

Lemma exec_set_holder l : f = FSetHolder l -> wp (exec page) (fun _ => kwf) k.
Proof.
  intros Ef. e_start Ef. destruct Hf as [h Hh]. k_go. pose proof (kwf_cur_null k th Hk Hth) as Hn. cbn.
  assert (h = NULL) as ->.
  { apply (holder_or_null k l h (current k) Hk Hh). unfold stk. rewrite Hth, Hst. cbn. rewrite Z.eqb_refl.
    pose proof (downs_weight l _ Hd'). lia. }
  finish_local th st; [eapply objects_holder; try done; [by left|by right]|stack_tac|].
  - by rewrite Hlv.
  - rewrite Forall_forall in *. intros g Hg. eapply (frame_ok_mono k); try done; [|by apply Hfs].
    intros l' ?. cbn. rewrite lookup_insert_is_Some'. by right.
  - intros l'. erewrite (holds_insert k) by reflexivity. specialize (Hlk l'). cbn in Hlk.
    destruct (Z.eqb_spec l l') as [->|]; [rewrite decide_True, Z.eqb_refl by done; by destruct Hlk|].
    by rewrite decide_False by done.
  - eapply (local_locks k th Hk Hth); [done|done|..]; cbn.
    + intros l' u ? ?. erewrite (holds_insert k) by reflexivity. case_decide; [|done]. subst l'. unfold holds. rewrite Hh.
      by rewrite !(proj2 (Z.eqb_neq _ u)) by done.
    + intros l'. rewrite lookup_insert_is_Some'. by intros [<-|?]; [eexists|].
    + intros l' sm Hsm. exists sm. pose proof (g_wait _ (k_lists _ _ (proj2 Hk)) _ _ Hsm) as [[? ?] _].
      split_and!; [done|done|]. erewrite (holds_insert k) by reflexivity. rewrite Hst. cbn.
      destruct (Z.eqb_spec l l') as [->|]; [|rewrite decide_False by done; lia].
      rewrite decide_True, Z.eqb_refl by done. unfold holds. rewrite Hh, (proj2 (Z.eqb_neq NULL _)) by done.
      cbn. lia.
Qed.

Lemma exec_lock_release l : f = FLockRelease l -> wp (exec page) (fun _ => kwf) k.
Proof.
  intros Ef. e_start Ef. destruct Hf as [h Hh]. pose proof (held_true l h st Hh (Hlk l)) as Hheld. k_go.
  pose proof (kwf_cur_null k th Hk Hth) as Hn. apply Z.eqb_eq in Hheld as ->. cbn.
  pose proof (lock_sema l ltac:(eauto)) as Hsl.
  finish_local th (FSemaUp (SLock l) :: st); [eapply objects_holder; try done; [by right|by left]|stack_tac|].
  - by rewrite Hlv.
  - split; [done|]. intros l' [= <-]. rewrite lookup_insert_eq. by eexists.
  - rewrite Forall_forall in *. intros g Hg. eapply (frame_ok_mono k); try done; [|by apply Hfs].
    intros l' ?. cbn. rewrite lookup_insert_is_Some'. by right.
  - intros l'. erewrite (holds_insert k) by reflexivity. specialize (Hlk l'). cbn in Hlk.
    destruct (Z.eqb_spec l l') as [->|]; [|by rewrite decide_False by done].
    rewrite decide_True, (proj2 (Z.eqb_neq NULL _)) by done. by destruct Hlk.
  - eapply (local_locks k th Hk Hth); [cbn; by rewrite insert_insert_eq|done|..]; cbn.
    + intros l' u ? ?. erewrite (holds_insert k) by reflexivity. case_decide; [|done]. subst l'. unfold holds. rewrite Hh.
      by rewrite !(proj2 (Z.eqb_neq _ u)) by done.
    + intros l'. rewrite lookup_insert_is_Some'. by intros [<-|?]; [eexists|].
    + intros l' sm Hsm. exists sm. pose proof (g_wait _ (k_lists _ _ (proj2 Hk)) _ _ Hsm) as [[? ?] _].
      split_and!; [done|done|]. erewrite (holds_insert k) by reflexivity. rewrite Hst.
      destruct (decide (l' = l)) as [->|].
      * rewrite (proj2 (Z.eqb_neq NULL _)) by done. unfold holds. rewrite Hh, Z.eqb_refl.
        cbn. rewrite Z.eqb_refl. cbn. lia.
      * cbn. rewrite (proj2 (Z.eqb_neq l l')) by done. lia.
Qed.

Lemma frames_mono k' st' :
  (forall s, is_Some (semas k !! s) -> is_Some (semas k' !! s)) ->
  (forall l, is_Some (holders k !! l) -> is_Some (holders k' !! l)) ->
  (forall c, is_Some (conds k !! c) -> is_Some (conds k' !! c)) ->
  Forall (frame_ok k) st' -> Forall (frame_ok k') st'.
Proof. intros ??? H. eapply Forall_impl; [exact H|]. intros g. by apply frame_ok_mono. Qed.

Lemma insert_some {K A} `{Countable K} (m : gmap K A) i x : forall j, is_Some (m !! j) -> is_Some (<[i := x]> m !! j).
Proof. intros j ?. rewrite lookup_insert_is_Some'. by right. Qed.

Lemma lock_sum_same k' st' :
  (forall l, semas k' !! SLock l = semas k !! SLock l) -> holders k' = holders k ->
  (forall l, weight l st' = weight l (stack th)) ->
  forall l sm, semas k !! SLock l = Some sm ->
    exists sm', semas k' !! SLock l = Some sm' /\ 0 <= value sm' /\
      value sm' + weight l st' + Z.b2z (holds k' l (current k)) =
      value sm + weight l (stack th) + Z.b2z (holds k l (current k)).
Proof.
  intros Es Eh Hw l sm Hsm. exists sm. rewrite Es, Hw. unfold holds. rewrite Eh.
  pose proof (g_wait _ (k_lists _ _ (proj2 Hk)) _ _ Hsm) as [[? ?] _]. done.
Qed.

Lemma exec_try_down s : f = FSemaTryDown s -> wp (exec page) (fun _ => kwf) k.
Proof.
  intros Ef. e_start Ef. destruct Hf as [[sm Hsm] [p Ep]].
  pose proof (g_wait _ (k_lists _ _ (proj2 Hk)) _ _ Hsm) as ([Hv0 Hv1]&_).
  unfold sema_try_down. k_go. destruct (Z.ltb_spec 0 (value sm)); k_go; cbn; rewrite ?Hlv.
  - finish_local th st; [eapply objects_sema; try done; [apply wrapu_in; lia|by left]|stack_tac|].
    + by apply frames_mono; [apply insert_some|..].
    + eapply (local_locks k th Hk Hth); [done|done|done|done|]. apply lock_sum_same; [|done|by rewrite Hst].
      intros l. cbn. by rewrite lookup_insert_ne by (by subst).
  - finish_local th st; [by apply objects_same|stack_tac|lock_tac].
Qed.

Lemma exec_cond_enqueue c w : f = FCondEnqueue c w -> wp (exec page) (fun _ => kwf) k.
Proof.
  intros Ef. e_start Ef. destruct Hf as [[ws Hws] Hw]. k_go. cbn.
  finish_local th st; [eapply objects_cond; try done|stack_tac|lock_tac].
  - intros t [Ht|Ht]%elem_of_app; [by eapply (g_waiter _ (k_lists _ _ (proj2 Hk)))|].
    apply list_elem_of_singleton in Ht as ->. done.
  - by rewrite Hlv.
  - by apply frames_mono; [..|apply insert_some|].
Qed.

Lemma exec_cond_signal c l : f = FCondSignal c l -> wp (exec page) (fun _ => kwf) k.
Proof.
  intros Ef. e_start Ef. destruct Hf as [[h Hh] [ws Hws]].
  pose proof (held_true l h st Hh) as Hheld. specialize (Hlk l) as Hl1. cbn in Hheld, Hl1. rewrite Z.eqb_refl in Hheld, Hl1.
  k_go.
  { cbn. destruct Hl1 as [E _]. unfold holds in E. by rewrite Hh in E. }
  assert (forall l', lock_ok l' (holds k l' (current k)) st) as Hlk'.
  { intros l'. specialize (Hlk l'). cbn in Hlk. destruct (Z.eqb_spec l l') as [->|]; [|done]. destruct Hlk as [-> ?]. done. }
  destruct ws as [|w ws]; k_go; cbn.
  - finish_local th st; [by apply objects_same|stack_tac|lock_tac]. by rewrite Hlv.
  - pose proof (g_waiter _ (k_lists _ _ (proj2 Hk)) c _ w Hws ltac:(set_solver)).
    finish_local th (FSemaUp (SWaiter w) :: st); [eapply objects_cond; try done|stack_tac|lock_tac].
    + intros t Ht. eapply (g_waiter _ (k_lists _ _ (proj2 Hk)) c); [done|set_solver].
    + by rewrite Hlv.
    + by split.
    + by apply frames_mono; [..|apply insert_some|].
Qed.

Lemma exec_cond_broadcast c l : f = FCondBroadcast c l -> wp (exec page) (fun _ => kwf) k.
Proof.
  intros Ef. e_start Ef. destruct Hf as [[h Hh] [ws Hws]].
  assert (forall l', lock_ok l' (holds k l' (current k)) st /\ lock_ok l' (holds k l' (current k)) (FCondSignal c l :: FCondBroadcast c l :: st)) as Hlk'.
  { intros l'. specialize (Hlk l'). cbn in Hlk |- *. destruct (Z.eqb_spec l l') as [->|]; [|done]. destruct Hlk as [-> ?].
    by split_and!. }
  k_go. destruct ws as [|w ws]; k_go; cbn.
  - finish_local th st; [by apply objects_same|stack_tac|lock_tac]; [by rewrite Hlv|]. intros l'. apply Hlk'.
  - finish_local th (FCondSignal c l :: FCondBroadcast c l :: st); [by apply objects_same|stack_tac|lock_tac].
    + by rewrite Hlv.
    + intros l'. apply Hlk'.
Qed.

Lemma exec_sleep n : f = FSleep n -> wp (exec page) (fun _ => kwf) k.
Proof.
  intros Ef. e_start Ef. unfold timer_ticks. k_go. cbn.
  eapply (local_kwf k th Hk Hth _ (set_sleep (s32 (s64 (ticks k + n))) (set_stack (fun _ => FSleepBlock :: st) th)));
    [cbn; by rewrite !insert_insert_eq|done|by split_and!|by apply objects_same|stack_tac|].
  - by rewrite Hlv.
  - eapply (local_locks k th Hk Hth); [cbn; by rewrite !insert_insert_eq|done|done|done|].
    apply lock_sum_same; [done|done|]. intros l. by rewrite Hst.
Qed.
End exec_local.

End SchedInv.
