(* ===== verification/SchedStep.v ===== *)
(** * Steps of the thread system that switch threads

    The second half of the proof that every step preserves the invariant of
    [SchedInv]: the remaining frames of the running thread, giving up the
    processor and the switch to the next thread, waking a thread, creating and
    destroying one, and the timer interrupt. *)

From S2P Require Import Prelude.
From S2P Require Import KListSort.
From S2P Require Import Sched.
From S2P Require Import SchedInv.
Import Sched SchedInv.
Local Open Scope Z_scope.

Module SchedStep.

Section more_local.
Context (page : option ptr) (k : kernel) (th : thread) (f : frame) (st : list frame).
Hypothesis Hk : kwf k.
Hypothesis Hth : threads k !! current k = Some th.
Hypothesis Hst : stack th = f :: st.

Lemma exec_try_acquire l : f = FLockTryAcquire l -> wp (exec page) (fun _ => kwf) k.
Proof.
  intros Ef. e_start Ef. destruct Hf as [h Hh]. destruct (lock_sema k Hk l ltac:(eauto)) as [sm Hsm].
  specialize (Hlk l) as Hl1. cbn in Hl1. rewrite Z.eqb_refl in Hl1. destruct Hl1 as (Hheld&Hl1&Hl2).
  assert ((h =? current k) = false) as Hne by (unfold holds in Hheld; by rewrite Hh in Hheld).
  pose proof (g_wait _ (k_lists _ _ (proj2 Hk)) _ _ Hsm) as ([Hv0 Hv1]&_).
  assert (forall l', lock_ok l' (holds k l' (current k)) st /\ lock_ok l' (holds k l' (current k)) (FSetHolder l :: st)) as Hlk'.
  { intros l'. specialize (Hlk l'). cbn in Hlk |- *. destruct (Z.eqb_spec l l') as [El|]; [|done].
    rewrite <- El in *. rewrite Hheld. done. }
  k_go; [cbn; by rewrite Hne|]. unfold sema_try_down. k_go. destruct (Z.ltb_spec 0 (value sm)); k_go; cbn; rewrite ?Hlv.
  - rewrite wrapu_small by (unfold in_u; lia).
    finish_local th (FSetHolder l :: st); [eapply objects_sema; try done; [unfold in_u; cbn; lia|by left]|stack_tac|].
    + apply frames_mono with (k := k); try done. apply insert_some.
    + intros l'. apply Hlk'.
    + eapply (local_locks k th Hk Hth); [cbn; by rewrite insert_insert_eq|done|done|done|]. cbn.
      rewrite Hst. apply (sema_lock_sum k Hk (SLock l) sm (value sm - 1) _ (FLockTryAcquire l :: st) (FSetHolder l :: st));
        [done|lia|..]; cbn.
      * intros l' [= ->]. rewrite Z.eqb_refl. lia.
      * intros l' Hl'. destruct (Z.eqb_spec l l') as [->|]; [done|lia].
  - finish_local th st; [by apply objects_same|stack_tac|lock_tac]. intros l'. apply Hlk'.
Qed.

Lemma exec_cond_wait c l : f = FCondWait c l -> wp (exec page) (fun _ => kwf) k.
Proof.
  intros Ef. e_start Ef. destruct Hf as [[h Hh] Hc].
  specialize (Hlk l) as Hl1. cbn in Hl1. rewrite Z.eqb_refl in Hl1. destruct Hl1 as [Hheld Hl1].
  assert ((h =? current k) = true) as Hne by (unfold holds in Hheld; by rewrite Hh in Hheld).
  k_go. cbn. set (w := current k) in *.
  finish_local th (FCondEnqueue c w :: FLockRelease l :: FSemaDown (SWaiter w) :: FLockAcquire l :: st);
    [eapply objects_init; try done; unfold in_u; lia|stack_tac|].
  - by rewrite Hlv.
  - split; [done|]. rewrite lookup_insert_eq. by eexists.
  - rewrite lookup_insert_eq. by eexists.
  - apply frames_mono with (k := k); try done. apply insert_some.
  - intros l'. specialize (Hlk l'). cbn in Hlk. fold w in Hlk. destruct (Z.eqb_spec l l') as [->|]; [|done].
    destruct Hlk as [E ?]. split_and!; done.
  - eapply (local_locks k th Hk Hth); [cbn; by rewrite insert_insert_eq|done|done|done|].
    apply lock_sum_same; [done| |done|].
    + intros l'. cbn. by rewrite lookup_insert_ne.
    + intros l'. cbn. rewrite Hst. cbn. lia.
Qed.
End more_local.

(** ** Thread identifiers, priorities and sleep times do not matter *)

Definition alike (th th' : thread) : Prop := status th' = status th /\ stack th' = stack th.

Lemma kinv_alike r k T :
  kinv r k ->
  (forall u th', T !! u = Some th' -> exists th, threads k !! u = Some th /\ alike th th') ->
  (forall u th, threads k !! u = Some th -> exists th', T !! u = Some th' /\ alike th th') ->
  kinv r (set_threads (fun _ => T) k).
Proof.
  intros [Ht Hg Hl] H1 H2.
  assert (forall u, is_Some (threads k !! u) <-> is_Some (T !! u)) as Hd.
  { intros u. split; intros [x Hx]; [destruct (H2 u x Hx) as (?&?&?)|destruct (H1 u x Hx) as (?&?&?)]; eauto. }
  assert (forall f t, blocked_at k f t -> blocked_at (set_threads (fun _ => T) k) f t) as Hb.
  { intros f t (x&g&st&Hx&?&?&?). destruct (H2 t x Hx) as (x'&Hx'&Es&Est). exists x', g, st. cbn. by rewrite Es, Est. }
  split.
  - intros t th' Ht'. cbn in Ht'. destruct (H1 t th' Ht') as (th&Hth&Es&Est).
    destruct (Ht t th Hth) as [I1 I2 I3 I4 I5 I6 I7 I8 I9 I10 I12 I11].
    split; cbn; rewrite ?Es, ?Est; try done.
    intros c Hc. destruct (I9 c Hc) as (thc&Hc1&Hc2&Hc3). destruct (H2 c thc Hc1) as (thc'&Hc'&Es'&Est').
    exists thc'. by rewrite Es', Est'.
  - destruct Hg as [G1 G2 G3 G4 G5 G6 G7 G8 G9 G10 [G11 G11'] G12 G13]. split; cbn; try done.
    + intros t Hin. destruct (G1 t Hin) as [? (x&Hx&?)]. split; [done|].
      destruct (H2 t x Hx) as (x'&Hx'&Es&_). exists x'. by rewrite Es.
    + intros s sm Hs. destruct (G3 s sm Hs) as (?&?&?). split_and!; [done|done|]. eauto.
    + eauto.
    + intros t Hin. by apply Hd, G6.
    + destruct (T !! NULL) eqn:E; [|done]. destruct (H1 NULL _ E) as (?&?&_). congruence.
    + by apply Hd.
    + split; [done|]. intros t ? ?. by apply Hd, G11'.
    + intros u v thu thv c Hu Hv. destruct (H1 u thu Hu) as (xu&Hxu&_&->), (H1 v thv Hv) as (xv&Hxv&_&->). by eapply G13.
  - intros l Hl'. destruct (Hl l Hl') as (sm&Hsm&Hpl). exists sm. split; [done|].
    assert (forall u, share (set_threads (fun _ => T) k) l u = share k l u) as E.
    { intros u. unfold share, stk. cbn. destruct (T !! u) as [x'|] eqn:Ex.
      - destruct (H1 u x' Ex) as (x&->&_&->). done.
      - destruct (threads k !! u) as [x|] eqn:Ex'; [|done]. destruct (H2 u x Ex') as (?&?&_). congruence. }
    destruct Hpl as [[? ?]|(?&o&?&?)]; [left|right]; (split; [done|]).
    + intros u. by rewrite E.
    + exists o. rewrite E. split; [done|]. intros u ?. rewrite E. auto.
Qed.

Lemma kwf_alter k t g :
  kwf k -> (forall th, alike th (g th)) -> kwf (set_threads (alter g t) k).
Proof.
  intros [Hc Hk] Hg. split.
  - cbn. destruct Hc as [x Hx]. destruct (decide (t = current k)) as [->|].
    + rewrite lookup_alter_eq, Hx. by eexists.
    + rewrite lookup_alter_ne by done. by eexists.
  - change (set_threads (alter g t) k) with (set_threads (fun _ => alter g t (threads k)) k).
    apply kinv_alike; [done|..]; intros u x Hx; (destruct (decide (t = u)) as [->|]).
    + rewrite lookup_alter_eq in Hx. destruct (threads k !! u) as [y|]; [|done]. simplify_eq/=. eauto.
    + rewrite lookup_alter_ne in Hx by done. exists x. done.
    + rewrite lookup_alter_eq, Hx. simpl. eauto.
    + rewrite lookup_alter_ne by done. exists x. done.
Qed.

Lemma exec_next_tid page k th st t :
  kwf k -> threads k !! current k = Some th -> stack th = FNextTid t :: st -> wp (exec page) (fun _ => kwf) k.
Proof.
  intros Hk Hth Hst. e_facts k th (FNextTid t) st. eapply wp_exec; [done..|]. cbn in Hlv, Hr. run_frame. k_go. apply wp_modify.
  apply kwf_alter; [|done]. finish_local th st; [by apply objects_same|stack_tac|lock_tac].
  by rewrite Hlv.
Qed.

(** ** The switch *)

(** [next] runs: it leaves the front of the run queue, or is the idle thread
    when the queue is empty. *)
Definition switched (k : kernel) (next : ptr) (thn : thread) (r : list ptr) : kernel :=
  set_thread_ticks (fun _ => 0)
    (set_threads (fun _ => <[next := set_status THREAD_RUNNING thn]> (threads k))
       (set_current (fun _ => next) (set_ready_list (fun _ => r) k))).

Section switch.
Context (k : kernel) (next : ptr) (thn : thread) (r : list ptr).
Hypothesis Hk : kinv None k.
Hypothesis Hoff : intr_level k = false.
Hypothesis Hnext : threads k !! next = Some thn.
Hypothesis Hpick : (ready_list k = next :: r) \/ (ready_list k = [] /\ r = [] /\ next = idle_thread k).

Lemma next_runs : runs_at false (stack thn) = true /\ status thn <> THREAD_DYING.
Proof.
  pose proof (k_threads _ _ Hk _ _ Hnext) as [I1 _ I3 I4 _ _ _ _ _ _ _ I11].
  destruct Hpick as [Hr|(Hr&_&Hi)].
  - destruct (g_ready _ (k_lists _ _ Hk) next) as [_ (x&Hx&Hs)]; [rewrite Hr; set_solver|]. simplify_eq.
    split; [by apply I3|congruence].
  - destruct (I11 Hi) as (Hd&_&Hn). split; [|done]. destruct (status thn) eqn:E.
    + by specialize (I1 eq_refl).
    + by apply I3.
    + by destruct (I4 eq_refl) as [[? _]|?].
    + done.
Qed.

Lemma next_not_waiting f : (forall g, f g -> idle_frame g = false) -> ~ blocked_at k f next.
Proof.
  intros Hf (x&g&st&Hx&Hb&Hs&Hg). simplify_eq. destruct Hpick as [Hr|(_&_&Hi)].
  - destruct (g_ready _ (k_lists _ _ Hk) next) as [_ (x&Hx&?)]; [rewrite Hr; set_solver|]. simplify_eq. congruence.
  - destruct (t_idle _ _ _ _ (k_threads _ _ Hk _ _ Hnext) Hi) as (_&Hif&_). rewrite Hs in Hif. cbn in Hif.
    rewrite (Hf g Hg) in Hif. done.
Qed.

Lemma switched_lists : lists_inv (switched k next thn r).
Proof.
  destruct (k_lists _ _ Hk) as [G1 G2 G3 G4 G5 G6 G7 G8 G9 G10 [G11 G11'] G12 G13].
  assert (forall u, is_Some (<[next := set_status THREAD_RUNNING thn]> (threads k) !! u) <-> is_Some (threads k !! u)) as Hd.
  { intros u. rewrite lookup_insert_is_Some'. split; [intros [<-|?]; [by eexists|done]|by right]. }
  assert (forall f t, (forall g, f g -> idle_frame g = false) -> blocked_at k f t -> blocked_at (switched k next thn r) f t) as Hb.
  { intros f t Hf Hb. eapply blocked_at_mono; [|exact Hb]. cbn. rewrite lookup_insert_ne; [done|].
    intros <-. by apply (next_not_waiting f). }
  assert (forall t, t ∈ r -> t ∈ ready_list k /\ t <> next) as Hr.
  { intros t Ht. destruct Hpick as [E|(_&->&_)]; [|set_solver]. rewrite E in *. split; [set_solver|].
    apply NoDup_cons in G2 as [? _]. intros ->. done. }
  split; cbn; try done.
  - intros t Ht. destruct (Hr t Ht) as [Hin Hne]. destruct (G1 t Hin) as [? (x&?&?)]. split; [done|].
    exists x. by rewrite lookup_insert_ne.
  - destruct Hpick as [E|(_&->&_)]; [|apply NoDup_nil_2]. rewrite E in G2. by apply NoDup_cons in G2 as [_ ?].
  - intros s sm Hs. destruct (G3 s sm Hs) as (?&?&?). split_and!; [done|done|]. intros t Ht. apply Hb; [|auto].
    by intros g [b ->].
  - intros t Ht. apply Hb; [by intros g <-|auto].
  - intros t Ht. by apply Hd, G6.
  - apply lookup_insert_None. split; [done|]. intros ->. congruence.
  - by apply Hd.
  - split; [done|]. intros t ? ?. by apply Hd, G11'.
  - intros u v thu thv c. rewrite !lookup_insert_Some.
    intros [[<- <-]|[? Hu]] [[<- <-]|[? Hv]]; cbn; intros; [done|by eapply G13..].
Qed.

Lemma switched_kwf : kwf (switched k next thn r).
Proof.
  split; [cbn; rewrite lookup_insert_eq; by eexists|]. split; [|apply switched_lists|].
  - intros t th Ht. cbn in Ht. change (current (switched k next thn r)) with next.
    assert (forall c thc, threads k !! c = Some thc -> stack thc = [] -> threads (switched k next thn r) !! c = Some thc) as Hc.
    { intros c thc Hc He. cbn. rewrite lookup_insert_ne; [done|]. intros <-. simplify_eq.
      destruct next_runs as [Hr _]. by rewrite He in Hr. }
    destruct (decide (t = next)) as [->|Hne].
    + rewrite lookup_insert_eq in Ht. injection Ht as <-.
      pose proof (k_threads _ _ Hk _ _ Hnext) as [I1 I2 I3 I4 I5 I6 I7 I8 I9 I10 I12 I11].
      destruct next_runs as [Hruns Hnd]. split; cbn; try done.
      * intros _. split; [done|]. by rewrite Hoff.
      * rewrite I5. split; [done|]. intros _. done.
      * intros c Hin. destruct (I9 c Hin) as (thc&?&?&?). eauto.
      * intros Hi. destruct (I11 Hi) as (_&?&?). done.
    + rewrite lookup_insert_ne in Ht by done.
      eapply (thread_inv_agrees [next] None); [|set_solver|..|by apply (k_threads _ _ Hk)].
      * split; cbn; try done.
        -- intros u Hu. by rewrite lookup_insert_ne by set_solver.
        -- intros u Hu Hin. destruct Hpick as [E|(E&_&_)]; rewrite E in Hin; set_solver.
      * intros ->. pose proof (g_null _ (k_lists _ _ Hk)). congruence.
      * done.
      * congruence.
      * intros c thc _ ? ? ?. eauto.
  - intros l Hl. destruct (k_locks _ _ Hk l Hl) as (sm&Hsm&Hpl). exists sm. split; [done|].
    assert (forall u, share (switched k next thn r) l u = share k l u) as E.
    { intros u. unfold share, stk. cbn. destruct (decide (u = next)) as [->|].
      - by rewrite lookup_insert_eq, Hnext.
      - by rewrite lookup_insert_ne. }
    destruct Hpl as [[? ?]|(?&o&?&?)]; [left|right]; (split; [done|]).
    + intros u. by rewrite E.
    + exists o. rewrite E. split; [done|]. intros u ?. rewrite E. auto.
Qed.
End switch.

(** The page of a dead thread is freed. *)
Lemma kwf_delete k d thd :
  kwf k -> threads k !! d = Some thd -> status thd = THREAD_DYING -> d <> current k ->
  kwf (set_threads (delete d) k).
Proof.
  intros [Hc [Ht Hg Hl]] Hd Hs Hne. destruct (Ht d thd Hd) as [_ _ _ _ I5 _ _ _ _ _ I12 I11].
  destruct (I12 Hs) as [Hpl Htid].
  assert (forall u x, threads k !! u = Some x -> status x <> THREAD_DYING -> delete d (threads k) !! u = Some x) as Hk.
  { intros u x Hu Hx. rewrite lookup_delete_ne; [done|]. intros <-. congruence. }
  assert (forall f t, blocked_at k f t -> blocked_at (set_threads (delete d) k) f t) as Hb.
  { intros f t (x&g&st&Hx&Hb&?&?). exists x, g, st. split_and!; try done. apply Hk; [done|]. by rewrite Hb. }
  split; [cbn; by rewrite lookup_delete_ne|]. split.
  - intros t th Ht'. cbn in Ht'. apply lookup_delete_Some in Ht' as [Hdt Ht'].
    destruct (Ht t th Ht') as [J1 J2 J3 J4 J5 J6 J7 J8 J9 J10 J12 J11]. split; cbn; try done.
    intros c Hin. destruct (J9 c Hin) as (x&?&E&?). exists x. split_and!; try done. apply Hk; [done|]. by rewrite E.
  - destruct Hg as [G1 G2 G3 G4 G5 G6 G7 G8 G9 G10 [G11 G11'] G12 G13]. split; cbn; try done.
    + intros t Hin. destruct (G1 t Hin) as [? (x&?&E)]. split; [done|]. exists x. split; [|done].
      apply Hk; [done|]. by rewrite E.
    + intros s sm Hsm. destruct (G3 s sm Hsm) as (?&?&?). split_and!; [done|done|]. eauto.
    + eauto.
    + intros t Hin. rewrite lookup_delete_ne; [by apply G6|]. intros ->. by apply I5 in Hin.
    + by rewrite lookup_delete_None; right.
    + rewrite lookup_delete_ne; [done|]. intros E. by destruct (I11 E).
    + split; [done|]. intros t ? Hh. change (holds _ tid_lock t) with (holds k tid_lock t) in Hh.
      rewrite lookup_delete_ne; [by apply G11'|]. congruence.
    + intros u v thu thv c. rewrite !lookup_delete_Some. intros [_ ?] [_ ?]. by eapply G13.
  - intros l Hl'. destruct (Hl l Hl') as (sm&Hsm&Hp). exists sm. split; [done|].
    assert (forall u, share (set_threads (delete d) k) l u = share k l u) as E.
    { intros u. unfold share, stk. cbn. destruct (decide (u = d)) as [->|].
      - rewrite lookup_delete_eq, Hd. cbn. by rewrite plain_weight.
      - by rewrite lookup_delete_ne. }
    destruct Hp as [[? ?]|(?&o&?&?)]; [left|right]; (split; [done|]).
    + intros u. by rewrite E.
    + exists o. rewrite E. split; [done|]. intros u ?. rewrite E. auto.
Qed.

(** The scheduler takes the front of the run queue, or the idle thread. *)
Definition picks (k k' : kernel) : Prop :=
  match ready_list k with
  | [] => current k' = idle_thread k /\ ready_list k' = []
  | t :: r => current k' = t /\ ready_list k' = r
  end /\ semas k' = semas k.

Lemma schedule_ok k :
  kinv None k -> is_Some (threads k !! current k) -> intr_level k = false ->
  wp schedule (fun _ k' => kwf k' /\ picks k k') k.
Proof.
  intros Hk [thc Hc] Hoff.
  assert (exists next thn r, wp next_thread_to_run (fun n k' => n = next /\ k' = set_ready_list (fun _ => r) k) k /\
            threads k !! next = Some thn /\
            (ready_list k = next :: r \/ (ready_list k = [] /\ r = [] /\ next = idle_thread k)))
    as (next&thn&r&Hn&Hnext&Hpick).
  { destruct (ready_list k) as [|t r] eqn:E.
    - destruct (g_idle _ (k_lists _ _ Hk)) as [x Hx]. exists (idle_thread k), x, []. split_and!; [|done|naive_solver].
      unfold next_thread_to_run. apply wp_bind, wp_gets. rewrite E. apply wp_gets. split; [done|].
      rewrite <- E. by destruct k.
    - destruct (g_ready _ (k_lists _ _ Hk) t) as [_ (x&Hx&_)]; [rewrite E; set_solver|].
      exists t, x, r. split_and!; [|done|by left].
      unfold next_thread_to_run. apply wp_bind, wp_gets. rewrite E. apply wp_bind, wp_modify, wp_ret. done. }
  pose proof (switched_kwf k next thn r Hk Hoff Hnext Hpick) as Hsw.
  assert (forall k', ready_list k' = r -> current k' = next -> semas k' = semas k -> picks k k') as Hpk.
  { intros k' E1 E2 E3. unfold picks. rewrite E1, E2, E3. by destruct Hpick as [->|(->&->&->)]. }
  assert (status thc <> THREAD_RUNNING) as Hnr.
  { intros E. by specialize (t_running _ _ _ _ (k_threads _ _ Hk _ _ Hc) E). }
  unfold schedule. apply wp_bind, wp_gets, wp_bind. eapply wp_mono; [exact Hn|]. intros ? ? [-> ->].
  apply wp_bind, wp_gets, wp_bind, wp_assert. split; [cbn; by rewrite Hoff|].
  apply wp_bind. eapply wp_get_thread; [exact Hc|]. apply wp_bind, wp_assert. split; [by rewrite bool_decide_false|].
  apply wp_bind, wp_gets, wp_bind, wp_assert. split; [cbn; rewrite Hnext; by rewrite bool_decide_true by (by eexists)|].
  destruct (Z.eqb_spec (current k) next) as [E|Hne]; cbn [negb]; unfold thread_schedule_tail.
  - apply wp_bind, wp_gets, wp_bind, wp_gets, wp_bind, wp_assert. split; [cbn; by rewrite Hoff|].
    apply wp_bind. eapply wp_upd_thread; [cbn; by rewrite E|]. apply wp_bind, wp_modify, wp_ret.
    split; [|by apply Hpk]. subst next. eapply (eq_ind _ kwf Hsw). unfold switched. by destruct k.
  - apply wp_bind, wp_modify, wp_bind, wp_gets, wp_bind, wp_gets, wp_bind, wp_assert. split; [cbn; by rewrite Hoff|].
    apply wp_bind. eapply wp_upd_thread; [exact Hnext|]. apply wp_bind, wp_modify.
    destruct (Z.eqb_spec (current k) NULL) as [En|Hnn]; cbn [negb].
    { rewrite En in Hc. pose proof (g_null _ (k_lists _ _ Hk)). congruence. }
    apply wp_bind. eapply wp_get_thread; [cbn; by rewrite lookup_insert_ne|]. apply wp_bind, wp_gets.
    destruct (bool_decide _ && _) eqn:Edy; [|apply wp_ret; split; [done|by apply Hpk]].
    apply andb_true_iff in Edy as [Edy _]. apply bool_decide_eq_true in Edy.
    apply wp_bind, wp_assert. split; [cbn; by rewrite (proj2 (Z.eqb_neq _ _) Hne)|].
    apply wp_modify. split; [|by apply Hpk]. apply (kwf_delete (switched k next thn r) (current k) thc Hsw); [|done|done].
    cbn. by rewrite lookup_insert_ne.
Qed.

Lemma wp_kwf (m : M kernel unit) (R : unit -> kernel -> Prop) k :
  wp m (fun a k' => kwf k' /\ R a k') k -> wp m (fun _ => kwf) k.
Proof. intros H. eapply wp_mono; [exact H|]. by intros [] k' [? _]. Qed.

(** ** Giving up the processor *)

(** [k1] is [k] with the running thread parked: it has become [th1] and stands
    in at most one of the lists. *)
Record parked (k k1 : kernel) (th1 : thread) : Prop := {
  p_threads : threads k1 = <[current k := th1]> (threads k);
  p_current : current k1 = current k;
  p_idle : idle_thread k1 = idle_thread k;
  p_ext : in_external_intr k1 = in_external_intr k;
  p_holders : holders k1 = holders k;
  p_conds : conds k1 = conds k;
  p_status : status th1 <> THREAD_RUNNING;
  p_ready : ready_list k1 = ready_list k \/
    (ready_list k1 = ready_list k ++ [current k] /\ status th1 = THREAD_READY /\ current k <> idle_thread k);
  p_sleep : sleeping_threads k1 = sleeping_threads k \/
    (sleeping_threads k1 ≡ₚ current k :: sleeping_threads k /\ status th1 = THREAD_BLOCKED /\
     exists st, stack th1 = FEnable :: st);
  p_all : all_list k1 = all_list k \/ all_list k1 = filter (fun t => t <> current k) (all_list k);
  p_semas : forall s, is_Some (semas k !! s) -> is_Some (semas k1 !! s);
  p_wait : forall s sm1, semas k1 !! s = Some sm1 -> exists sm, semas k !! s = Some sm /\ value sm1 = value sm /\
    (waiters sm1 = waiters sm \/
     (waiters sm1 = waiters sm ++ [current k] /\ status th1 = THREAD_BLOCKED /\
      exists b st, stack th1 = FDownLoop s b :: st)) }.

Section park.
Context (k k1 : kernel) (th th1 : thread).
Hypothesis Hk : kwf k.
Hypothesis Hth : threads k !! current k = Some th.
Hypothesis Hp : parked k k1 th1.
Hypothesis Hcr : sublist (creating (stack th1)) (creating (stack th)).

Lemma cur_not_ready : current k ∉ ready_list k.
Proof.
  intros Hin. destruct (g_ready _ (k_lists _ _ (proj2 Hk)) _ Hin) as [_ (x&Hx&?)].
  pose proof (kwf_status k th Hk Hth). congruence.
Qed.

Lemma cur_not_blocked f : ~ blocked_at k f (current k).
Proof. intros (x&g&st&Hx&Hb&_). pose proof (kwf_status k th Hk Hth). congruence. Qed.

Lemma parked_blocked f t : blocked_at k f t -> blocked_at k1 f t.
Proof.
  intros Hb. eapply blocked_at_mono; [|exact Hb]. rewrite (p_threads _ _ _ Hp), lookup_insert_ne; [done|].
  intros <-. by apply cur_not_blocked in Hb.
Qed.

Lemma parked_cur f g st : status th1 = THREAD_BLOCKED -> stack th1 = g :: st -> f g -> blocked_at k1 f (current k).
Proof. intros. exists th1, g, st. by rewrite (p_threads _ _ _ Hp), lookup_insert_eq. Qed.

Lemma parked_lists : lists_inv k1.
Proof.
  destruct Hp as [Et Ec Ei Ee Eh Eco Hs Hr Hsl Ha Hse Hw].
  pose proof (k_lists _ _ (proj2 Hk)) as [G1 G2 G3 G4 G5 G6 G7 G8 G9 G10 [G11 G11'] G12 G13].
  pose proof (kwf_cur_null k th Hk Hth) as Hn. pose proof cur_not_ready as Hnr.
  assert (forall u, is_Some (threads k1 !! u) <-> is_Some (threads k !! u)) as Hd.
  { intros u. rewrite Et, lookup_insert_is_Some'. split; [intros [<-|?]; [by eexists|done]|by right]. }
  assert (forall l u, holds k1 l u = holds k l u) as Hh by (intros; unfold holds; by rewrite Eh).
  split; rewrite ?Ei, ?Ee, ?Eh, ?Eco; try done.
  - intros t Hin. assert (t ∈ ready_list k \/ (t = current k /\ status th1 = THREAD_READY /\ current k <> idle_thread k)) as [Hin'|(->&?&?)].
    { destruct Hr as [E|(E&?&?)]; rewrite E in Hin; [by left|]. apply elem_of_app in Hin as [?| ->%list_elem_of_singleton]; [by left|by right]. }
    + destruct (G1 t Hin') as [? (x&?&?)]. split; [done|]. exists x. rewrite Et, lookup_insert_ne; [done|]. by intros <-.
    + split; [done|]. exists th1. by rewrite Et, lookup_insert_eq.
  - destruct Hr as [->|(->&_&_)]; [done|]. apply NoDup_app. split_and!; [done| |apply NoDup_singleton].
    intros t Ht ->%list_elem_of_singleton. done.
  - intros s sm1 Hsm. destruct (Hw s sm1 Hsm) as (sm&Hs'&->&Hws). destruct (G3 s sm Hs') as (?&Hnd&Hbl).
    split; [done|]. destruct Hws as [->|(->&?&b&st&?)]; [split; [done|]; intros; by apply parked_blocked, Hbl|]. split.
    + apply NoDup_app. split_and!; [done| |apply NoDup_singleton]. intros t Ht ->%list_elem_of_singleton.
      by apply Hbl, cur_not_blocked in Ht.
    + intros t [Ht| ->%list_elem_of_singleton]%elem_of_app; [by apply parked_blocked, Hbl|]. eapply parked_cur; eauto.
  - intros t Ht. destruct Hsl as [E|(E&?&st&?)]; rewrite E in Ht; [by apply parked_blocked, G4|].
    apply elem_of_cons in Ht as [->|Ht]; [by eapply parked_cur|by apply parked_blocked, G4].
  - destruct Hsl as [->|(->&_)]; [done|]. apply NoDup_cons. split; [|done]. intros Ht. by apply G4, cur_not_blocked in Ht.
  - intros t Ht. apply Hd, G6. destruct Ha as [E|E]; rewrite E in Ht; [done|]. by apply list_elem_of_filter in Ht as [_ ?].
  - destruct Ha as [->| ->]; [done|by apply NoDup_filter].
  - rewrite Et. by apply lookup_insert_None.
  - by apply Hd.
  - split; [done|]. intros t ? Ht. apply Hd, G11'; [done|]. by rewrite Hh in Ht.
  - eauto.
  - intros u v thu thv c. rewrite Et, !lookup_insert_Some.
    assert (forall c, c ∈ creating (stack th1) -> c ∈ creating (stack th)) by (intros ? Hc; by eapply elem_of_sublist).
    intros [[<- <-]|[? Hu]] [[<- <-]|[? Hv]] ? ?; [done|..]; eapply G13; eauto.
Qed.

Lemma parked_kinv :
  (forall l, weight l (stack th1) = weight l (stack th)) ->
  thread_inv None k1 (current k) th1 -> kinv None k1.
Proof.
  intros Hwt Hcur. pose proof Hp as [Et Ec Ei Ee Eh Eco Hs Hr Hsl Ha Hse Hw]. split; [|apply parked_lists|].
  - intros t tht Ht. destruct (decide (t = current k)) as [->|Hne].
    { rewrite Et, lookup_insert_eq in Ht. by injection Ht as <-. }
    rewrite Et, lookup_insert_ne in Ht by done.
    eapply (thread_inv_agrees [current k] (Some (current k))); [|set_solver|..|by apply (k_threads _ _ (proj2 Hk))].
    + split; try done.
      * intros u Hu. rewrite Et, lookup_insert_ne; [done|]. set_solver.
      * intros u Hu Hin. destruct Hr as [->|(->&_)]; set_solver.
      * intros u Hu. destruct Ha as [->| ->]; [done|]. rewrite list_elem_of_filter. set_solver.
      * intros l. by rewrite Eh.
      * intros c. by rewrite Eco.
      * intros l u _ _. unfold holds. by rewrite Eh.
    + intros ->. pose proof (g_null _ (k_lists _ _ (proj2 Hk))). congruence.
    + congruence.
    + done.
    + intros c thc _ Hc Hb ?. exists thc. split_and!; try done. rewrite Et, lookup_insert_ne; [done|].
      intros <-. pose proof (kwf_status k th Hk Hth). congruence.
  - intros l Hl. rewrite Eh in Hl. destruct (k_locks _ _ (proj2 Hk) l Hl) as (sm&Hsm&Hpl).
    destruct (Hse (SLock l) ltac:(by eexists)) as [sm1 Hsm1]. exists sm1. split; [done|].
    destruct (Hw _ _ Hsm1) as (sm0&Hsm0&Hv&_). simplify_eq. rewrite Hv.
    assert (forall u, share k1 l u = share k l u) as E.
    { intros u. unfold share, holds, stk. rewrite Eh, Et. destruct (decide (u = current k)) as [->|].
      - by rewrite lookup_insert_eq, Hth, Hwt.
      - by rewrite lookup_insert_ne. }
    destruct Hpl as [[? ?]|(?&o&?&?)]; [left|right]; (split; [done|]).
    + intros u. by rewrite E.
    + exists o. rewrite E. split; [done|]. intros u ?. rewrite E. auto.
Qed.
End park.

(** A parked thread that can be resumed; the processor goes to another. *)
Lemma park_ok k k1 k2 th th1 :
  kwf k -> threads k !! current k = Some th -> parked k k1 th1 -> intr_level k1 = false ->
  (status th1 = THREAD_BLOCKED \/
   (status th1 = THREAD_READY /\ (current k ∈ ready_list k1 \/ current k = idle_thread k))) ->
  all_list k1 = all_list k -> stack_ok k1 (stack th) (stack th1) ->
  (forall l, weight l (stack th1) = weight l (stack th)) ->
  ready_list k2 = ready_list k1 -> idle_thread k2 = idle_thread k1 -> semas k2 = semas k1 ->
  wp schedule (fun _ k' => kwf k' /\ picks k2 k') k1.
Proof.
  intros Hk Hth Hp Hoff Hs Ha [S1 S2 S3 S4 S5 S6] Hw E1 E2 E3. unfold picks at 1. rewrite E1, E2, E3.
  pose proof (kwf_cur k th Hk Hth) as [I1 I2 I3 I4 I5 I6 I7 I8 I9 I10 I12 I11].
  pose proof (kwf_status k th Hk Hth) as Hrun.
  rewrite Hoff in S1. rewrite (p_current _ _ _ Hp) in S3.
  apply schedule_ok; [|rewrite (p_current _ _ _ Hp), (p_threads _ _ _ Hp), lookup_insert_eq; by eexists|done].
  eapply parked_kinv; try done. split; try done.
  - intros E. by destruct (p_status _ _ _ Hp).
  - intros E. split; [done|]. rewrite (p_idle _ _ _ Hp). destruct Hs as [?|[_ ?]]; [congruence|done].
  - intros _. by right.
  - rewrite Ha, I5, Hrun. destruct Hs as [->|[-> _]]; done.
  - intros c Hc. apply (elem_of_sublist _ _ _ Hc) in S5 as Hc0. destruct (I9 c Hc0) as (x&Hx&?&?). exists x. split_and!; try done.
    rewrite (p_threads _ _ _ Hp), lookup_insert_ne; [done|]. intros <-. congruence.
  - by eapply sublist_NoDup.
  - intros E. destruct Hs as [?|[? _]]; congruence.
  - rewrite (p_idle _ _ _ Hp). intros Hi. destruct (I11 Hi) as (_&?&_). split_and!.
    + destruct Hs as [->|[-> _]]; done.
    + auto.
    + intros E. by rewrite E in S1.
Qed.

Lemma park_kwf k k1 th th1 :
  kwf k -> threads k !! current k = Some th -> parked k k1 th1 -> intr_level k1 = false ->
  (status th1 = THREAD_BLOCKED \/
   (status th1 = THREAD_READY /\ (current k ∈ ready_list k1 \/ current k = idle_thread k))) ->
  all_list k1 = all_list k -> stack_ok k1 (stack th) (stack th1) ->
  (forall l, weight l (stack th1) = weight l (stack th)) ->
  wp schedule (fun _ => kwf) k1.
Proof. intros. eapply (wp_kwf _ (fun _ => picks k1)). by eapply (park_ok k k1 k1). Qed.

(** The checks of [thread_block] pass for a running thread. *)
Lemma wp_thread_block Q k th :
  threads k !! current k = Some th -> status th = THREAD_RUNNING -> in_external_intr k = false ->
  intr_level k = false ->
  wp schedule Q (set_threads (fun _ => <[current k := set_status THREAD_BLOCKED th]> (threads k)) k) ->
  wp thread_block Q k.
Proof.
  intros Ht Hr He Hl HQ. unfold thread_block. apply wp_bind. eapply wp_intr_context; [done|].
  apply wp_bind, wp_assert. split; [done|]. apply wp_bind, wp_gets, wp_bind, wp_assert. split; [by rewrite Hl|].
  apply wp_bind. eapply wp_thread_current; [done..|]. apply wp_bind. by eapply wp_upd_thread.
Qed.

Section exec_switch.
Context (page : option ptr) (k : kernel) (th : thread) (f : frame) (st : list frame).
Hypothesis Hk : kwf k.
Hypothesis Hth : threads k !! current k = Some th.
Hypothesis Hst : stack th = f :: st.

Lemma exec_down_block s b sm :
  f = FDownLoop s b -> semas k !! s = Some sm -> value sm = 0 ->
  wp (exec page) (fun _ k' => kwf k' /\ picks (set_semas (<[s := Sema 0 (waiters sm ++ [current k])]>) k) k') k.
Proof.
  intros Ef Hsm Hv. e_start Ef. apply wp_bind. eapply wp_get_sema; [done|]. rewrite Hv, Z.eqb_refl. k_go.
  eapply wp_thread_block; [look|done|done|done|].
  eapply (park_ok k _ _ th (set_status THREAD_BLOCKED (set_stack (fun _ => FDownLoop s b :: st) th)) Hk Hth);
    [| | | | | |cbn; reflexivity..]; try done.
  - split; try done; try (by left).
    + cbn. by rewrite !insert_insert_eq.
    + intros s'. cbn. apply insert_some.
    + intros s' sm1. cbn. rewrite lookup_insert_Some. intros [[<- <-]|[_ Hs']]; [|by exists sm1; auto].
      exists sm. split_and!; [done|by rewrite Hv|]. right. eauto.
  - by left.
  - split; cbn; try done; rewrite ?Hst; try done.
    + by rewrite Hlv.
    + constructor; [cbn; rewrite lookup_insert_is_Some'; right; by eexists|].
      apply frames_mono with (k := k); try done. apply insert_some.
  - cbn. rewrite Hst. done.
Qed.

Lemma exec_sleep_block : f = FSleepBlock -> wp (exec page) (fun _ => kwf) k.
Proof.
  intros Ef. e_start Ef. k_go. eapply wp_thread_block; [look|done|done|done|].
  eapply (park_kwf k _ th (set_status THREAD_BLOCKED (set_stack (fun _ => FEnable :: st) th)) Hk Hth); try done.
  - split; try done; try (by left).
    + cbn. by rewrite !insert_insert_eq.
    + right. split_and!; [cbn; apply KListSort.insert_sorted_perm|done|by eexists].
    + intros s' sm1 Hs'. exists sm1. auto.
  - by left.
  - split; cbn; try done; rewrite ?Hst; try done. by constructor.
  - cbn. rewrite Hst. done.
Qed.

Lemma exec_idle_loop : f = FIdleLoop -> wp (exec page) (fun _ => kwf) k.
Proof.
  intros Ef. e_start Ef. k_go. eapply wp_thread_block; [look|done|done|done|].
  eapply (park_kwf k _ th (set_status THREAD_BLOCKED (set_stack (fun _ => FHlt :: FIdleLoop :: st) th)) Hk Hth); try done.
  - split; try done; try (by left).
    + cbn. by rewrite !insert_insert_eq.
    + intros s' sm1 Hs'. exists sm1. auto.
  - by left.
  - split; cbn; try done; rewrite ?Hst; try done.
    + repeat constructor. done.
  - cbn. rewrite Hst. done.
Qed.
End exec_switch.

(** [thread_yield] from a state in which the running thread stands at [st0],
    with interrupts [lv]; [k] is the state with its stack [st] completed. *)
Lemma wp_thread_yield k k0 th st lv :
  kwf k -> threads k !! current k = Some th ->
  k0 = set_intr_level (fun _ => lv) (set_threads (fun _ => <[current k := set_stack (fun _ => st) th]> (threads k)) k) ->
  runs_at lv st = true -> Forall (frame_ok k) st -> (forall l, lock_ok l (holds k l (current k)) st) ->
  downs_ok st = true -> sublist (creating st) (creating (stack th)) ->
  (forallb idle_frame (stack th) = true -> forallb idle_frame st = true) ->
  (forall l, weight l st = weight l (stack th)) ->
  wp thread_yield (fun _ k' => kwf k' /\
    picks (set_ready_list (fun r => if current k =? idle_thread k then r else r ++ [current k]) k) k') k0.
Proof.
  intros Hk Hth -> Hr Hf Hlk Hd Hcr Hid Hw. pose proof (kwf_status k th Hk Hth) as Hrun.
  pose proof (g_intr _ (k_lists _ _ (proj2 Hk))) as Hctx.
  unfold thread_yield. k_go. cbn.
  destruct (Z.eqb_spec (current k) (idle_thread k)) as [Ei|Ei]; cbn [negb]; k_go;
  (eapply (park_ok k _ _ th (set_status THREAD_READY (set_stack (fun _ => FSetLevel lv :: st) th)) Hk Hth);
    [| | | | | |cbn; reflexivity..]); try done.
  - split; try done; try (by left).
    + cbn. by rewrite !insert_insert_eq.
    + intros s' sm1 Hs'. exists sm1. auto.
  - right. split; [done|]. by right.
  - split; cbn; try done. by constructor.
  - split; try done; try (by left).
    + cbn. by rewrite !insert_insert_eq.
    + by right.
    + intros s' sm1 Hs'. exists sm1. auto.
  - right. split; [done|]. left. cbn. set_solver.
  - split; cbn; try done. by constructor.
Qed.

End SchedStep.
