(* ===== verification/SchedWake.v ===== *)
(** * Waking, creating and ending threads, and the timer interrupt

    The last part of the proof that every step of the machine of [Sched]
    preserves the invariant of [SchedInv] and fails no assertion. *)

From S2P Require Import Prelude.
From S2P Require Import KListSort.
From S2P Require Import Sched.
From S2P Require Import SchedInv.
From S2P Require Import SchedStep.
Import Sched SchedInv SchedStep.
Local Open Scope Z_scope.

Module SchedWake.

(** ** A blocked thread becomes ready *)

(** Thread [t], blocked and in no list, gets the stack of [th']. *)
Record wakes (k : kernel) (t : ptr) (th th' : thread) : Prop := {
  w_thread : threads k !! t = Some th;
  w_blocked : status th = THREAD_BLOCKED;
  w_ready : status th' = THREAD_READY;
  w_idle : t <> idle_thread k;
  w_wait : forall s sm, semas k !! s = Some sm -> t ∉ waiters sm;
  w_sleep : t ∉ sleeping_threads k;
  w_created : forall u thu, threads k !! u = Some thu -> t ∉ creating (stack thu);
  w_runs : runs_at false (stack th') = true;
  w_frames : Forall (frame_ok k) (stack th');
  w_locks : forall l, lock_ok l (holds k l t) (stack th');
  w_downs : downs_ok (stack th') = true;
  w_creating : creating (stack th') = creating (stack th);
  w_weight : forall l, weight l (stack th') = weight l (stack th) }.

Definition woken (k : kernel) (t : ptr) (th' : thread) : kernel :=
  set_threads (fun _ => <[t := th']> (threads k)) (set_ready_list (fun r => r ++ [t]) k).

Section wake.
Context (k : kernel) (t : ptr) (th th' : thread).
Hypothesis Hk : kwf k.
Hypothesis Hw : wakes k t th th'.

Lemma wake_not_current : t <> current k.
Proof.
  intros ->. pose proof (kwf_status k th Hk (w_thread _ _ _ _ Hw)). pose proof (w_blocked _ _ _ _ Hw). congruence.
Qed.

Lemma woken_lists : lists_inv (woken k t th').
Proof.
  destruct Hw as [Ht Hb Hr Hi Hwa Hsl Hcd Hru Hfr Hlk Hdo Hcr _].
  pose proof (k_lists _ _ (proj2 Hk)) as [G1 G2 G3 G4 G5 G6 G7 G8 G9 G10 [G11 G11'] G12 G13].
  assert (forall u, is_Some (<[t := th']> (threads k) !! u) <-> is_Some (threads k !! u)) as Hd.
  { intros u. rewrite lookup_insert_is_Some'. split; [intros [<-|?]; [by eexists|done]|by right]. }
  assert (forall f u, u <> t -> blocked_at k f u -> blocked_at (woken k t th') f u) as Hbl.
  { intros f u Hu. apply blocked_at_mono. cbn. by rewrite lookup_insert_ne. }
  assert (t ∉ ready_list k) as Hnr by (intros Hin; destruct (G1 t Hin) as [_ (x&?&?)]; congruence).
  split; cbn; try done.
  - intros u [Hin| ->%list_elem_of_singleton]%elem_of_app.
    + destruct (G1 u Hin) as [? (x&?&?)]. split; [done|]. exists x. rewrite lookup_insert_ne; [done|]. by intros <-.
    + split; [done|]. exists th'. by rewrite lookup_insert_eq.
  - apply NoDup_app. split_and!; [done| |apply NoDup_singleton]. intros u Hu ->%list_elem_of_singleton. done.
  - intros s sm Hs. destruct (G3 s sm Hs) as (?&?&?). split_and!; [done|done|]. intros u Hu. apply Hbl; [|auto].
    intros ->. exact (Hwa _ _ Hs Hu).
  - intros u Hu. apply Hbl; [by intros ->|auto].
  - intros u Hu. by apply Hd, G6.
  - apply lookup_insert_None. split; [done|]. intros ->. congruence.
  - by apply Hd.
  - split; [done|]. intros u ? ?. by apply Hd, G11'.
  - intros u v thu thv c. rewrite !lookup_insert_Some.
    intros [[<- <-]|[? Hu]] [[<- <-]|[? Hv]]; rewrite ?Hcr; intros; [done|by eapply G13..].
Qed.

Lemma woken_kwf : kwf (woken k t th').
Proof.
  pose proof wake_not_current as Hne.
  pose proof Hw as [Ht Hb Hr Hi Hwa Hsl Hcd Hru Hfr Hlk Hdo Hcr Hwt].
  assert (forall u c thu thc, threads k !! u = Some thu -> c ∈ creating (stack thu) -> threads k !! c = Some thc ->
            threads (woken k t th') !! c = Some thc) as Hc.
  { intros u c thu thc Hu Hin Hc. cbn. rewrite lookup_insert_ne; [done|]. intros <-. exact (Hcd _ _ Hu Hin). }
  split; [cbn; rewrite lookup_insert_ne by done; exact (proj1 Hk)|]. split; [|apply woken_lists|].
  - intros u thu Hu. cbn in Hu. change (current (woken k t th')) with (current k).
    destruct (decide (u = t)) as [->|Hut].
    + rewrite lookup_insert_eq in Hu. injection Hu as <-.
      pose proof (k_threads _ _ (proj2 Hk) _ _ Ht) as [I1 I2 I3 I4 I5 I6 I7 I8 I9 I10 I12 I11].
      split; cbn; rewrite ?Hr; try done.
      * intros [= E]. done.
      * intros _. split; [done|]. left. set_solver.
      * rewrite I5, Hb. done.
      * rewrite Hcr. intros c Hin. destruct (I9 c Hin) as (x&?&?&?). eauto 6.
      * by rewrite Hcr.
    + rewrite lookup_insert_ne in Hu by done. pose proof (k_threads _ _ (proj2 Hk) _ _ Hu) as Hinv.
      pose proof Hinv as [I1 I2 I3 I4 I5 I6 I7 I8 I9 I10 I12 I11]. split; cbn; try done.
      * intros E. destruct (I3 E) as [? [?|?]]; (split; [done|]); [left; set_solver|by right].
      * intros c Hin. destruct (I9 c Hin) as (x&?&?&?). eauto 6.
  - intros l Hl. destruct (k_locks _ _ (proj2 Hk) l Hl) as (sm&Hsm&Hpl). exists sm. split; [done|].
    assert (forall u, share (woken k t th') l u = share k l u) as E.
    { intros u. unfold share, stk. cbn. destruct (decide (u = t)) as [->|].
      - by rewrite lookup_insert_eq, Ht, Hwt.
      - by rewrite lookup_insert_ne. }
    destruct Hpl as [[? ?]|(?&o&?&?)]; [left|right]; (split; [done|]).
    + intros u. by rewrite E.
    + exists o. rewrite E. split; [done|]. intros u ?. rewrite E. auto.
Qed.
End wake.

(** [thread_unblock] itself; an interrupt handler runs it with interrupts off. *)
Lemma wp_thread_unblock Q k t th :
  threads k !! t = Some th -> status th = THREAD_BLOCKED -> (intr_level k = true -> in_external_intr k = false) ->
  Q tt (woken k t (set_status THREAD_READY th)) -> wp (thread_unblock t) Q k.
Proof.
  intros Ht Hb Hi HQ. unfold thread_unblock, is_thread. k_go;
    [cbn; by rewrite Ht, bool_decide_true by (by eexists)|by rewrite bool_decide_true|]. cbn. destruct (intr_level k) eqn:E.
  - apply wp_bind, (wp_intr_set_level true); [by apply Hi|]. intros _. apply wp_ret.
    eapply (eq_ind _ (Q tt) HQ). by kernel_eq.
  - unfold intr_set_level. k_go.
    eapply (eq_ind _ (Q tt) HQ). by kernel_eq.
Qed.

(** A thread blocked at a frame in a list of waiting threads can be woken when
    it has left that list. *)
Lemma wakes_blocked k t th g st :
  kwf k -> threads k !! t = Some th -> status th = THREAD_BLOCKED -> stack th = g :: st -> idle_frame g = false ->
  (forall s sm, semas k !! s = Some sm -> t ∉ waiters sm) -> t ∉ sleeping_threads k ->
  wakes k t th (set_status THREAD_READY th).
Proof.
  intros Hk Ht Hb Hs Hg Hw Hsl. pose proof (k_threads _ _ (proj2 Hk) _ _ Ht) as [I1 I2 I3 I4 I5 I6 I7 I8 I9 I10 I12 I11].
  split; try done.
  - intros E. destruct (I11 E) as (_&Hif&_). rewrite Hs in Hif. cbn in Hif. by rewrite Hg in Hif.
  - intros u thu Hu Hin. destruct (t_creating _ _ _ _ (k_threads _ _ (proj2 Hk) _ _ Hu) _ Hin) as (x&Hx&_&He).
    simplify_eq. congruence.
  - destruct (I4 Hb) as [[E _]|?]; [congruence|done].
Qed.

(** ** A new thread *)

Section spawn.
Context (k : kernel) (c : ptr) (th thc : thread).
Hypothesis Hk : kwf k.
Hypothesis Hth : threads k !! current k = Some th.
Hypothesis Hfresh : threads k !! c = None.
Hypothesis Hnull : c <> NULL.
Hypothesis Hthc : status thc = THREAD_BLOCKED /\ stack thc = [].

Definition spawned : kernel :=
  set_all_list (fun l => l ++ [c]) (set_threads (<[c := thc]>) k).

Lemma fresh_not_created u thu : threads k !! u = Some thu -> c ∉ creating (stack thu).
Proof. intros Hu Hin. destruct (t_creating _ _ _ _ (k_threads _ _ (proj2 Hk) _ _ Hu) _ Hin) as (x&?&_). congruence. Qed.

Lemma spawned_lists : lists_inv spawned.
Proof.
  pose proof (k_lists _ _ (proj2 Hk)) as [G1 G2 G3 G4 G5 G6 G7 G8 G9 G10 [G11 G11'] G12 G13].
  destruct Hthc as [Hb He].
  assert (forall u x, threads k !! u = Some x -> <[c := thc]> (threads k) !! u = Some x) as Hd.
  { intros u x Hu. rewrite lookup_insert_ne; [done|]. congruence. }
  assert (forall f u, blocked_at k f u -> blocked_at spawned f u) as Hbl.
  { intros f u (x&g&st&?&?&?&?). exists x, g, st. cbn. auto. }
  split; cbn; try done.
  - intros u Hin. destruct (G1 u Hin) as [? (x&?&?)]. split; [done|]. exists x. auto.
  - intros s sm Hs. destruct (G3 s sm Hs) as (?&?&?). split_and!; auto.
  - auto.
  - intros u. rewrite elem_of_app, list_elem_of_singleton, lookup_insert_is_Some'. intros [?| ->]; [right; auto|by left].
  - apply NoDup_app. split_and!; [done| |apply NoDup_singleton]. intros u Hu ->%list_elem_of_singleton.
    destruct (G6 c Hu). congruence.
  - by apply lookup_insert_None.
  - destruct G10 as [x Hx]. exists x. auto.
  - split; [done|]. intros u ? Hu. destruct (G11' u ltac:(done) Hu) as [x Hx]. exists x. auto.
  - intros u v thu thv c0. rewrite !lookup_insert_Some.
    intros [[<- <-]|[? Hu]] [[<- <-]|[? Hv]]; rewrite ?He; intros E1 E2; try (by apply elem_of_nil in E1); try (by apply elem_of_nil in E2).
    by eapply G13.
Qed.

Lemma spawned_kwf : kwf spawned.
Proof.
  destruct Hthc as [Hb He].
  assert (forall u x, threads k !! u = Some x -> <[c := thc]> (threads k) !! u = Some x) as Hd.
  { intros u x Hu. rewrite lookup_insert_ne; [done|]. congruence. }
  assert (c <> current k) as Hne by congruence.
  split; [cbn; rewrite lookup_insert_ne by done; by eexists|]. split; [|apply spawned_lists|].
  - intros u thu Hu. cbn in Hu. change (current spawned) with (current k). apply lookup_insert_Some in Hu as [[<- <-]|[Hcu Hu]].
    + split; cbn; rewrite ?Hb, ?He; try done.
      * intros [= E]. done.
      * intros _. left. split; [done|]. destruct (holds _ _ _) eqn:E; [|done].
        destruct (proj2 (g_tid_lock _ (k_lists _ _ (proj2 Hk))) c Hnull E). congruence.
      * split; [done|]. intros _. set_solver.
      * intros x Hx. by apply elem_of_nil in Hx.
      * apply NoDup_nil_2.
      * intros E. pose proof (g_idle _ (k_lists _ _ (proj2 Hk))) as [x Hx]. congruence.
    + pose proof (k_threads _ _ (proj2 Hk) _ _ Hu) as [I1 I2 I3 I4 I5 I6 I7 I8 I9 I10 I12 I11]. split; cbn; try done.
      * rewrite elem_of_app, list_elem_of_singleton, I5. naive_solver.
      * intros x Hx. destruct (I9 x Hx) as (y&?&?&?). exists y. auto.
  - intros l Hl. destruct (k_locks _ _ (proj2 Hk) l Hl) as (sm&Hsm&Hpl). exists sm. split; [done|].
    assert (forall u, share spawned l u = share k l u) as E.
    { intros u. unfold share, stk. cbn. destruct (decide (u = c)) as [->|].
      - by rewrite lookup_insert_eq, Hfresh, He.
      - by rewrite lookup_insert_ne. }
    destruct Hpl as [[? ?]|(?&o&?&?)]; [left|right]; (split; [done|]).
    + intros u. by rewrite E.
    + exists o. rewrite E. split; [done|]. intros u ?. rewrite E. auto.
Qed.
End spawn.

(** The running thread takes over the creation of thread [c]. *)
Lemma adopt_kwf k th c thc fs :
  kwf k -> threads k !! current k = Some th -> threads k !! c = Some thc -> status thc = THREAD_BLOCKED ->
  stack thc = [] -> (forall u thu, threads k !! u = Some thu -> c ∉ creating (stack thu)) ->
  creating fs = [c] -> intr_level k = true -> runs_at true (fs ++ stack th) = true -> Forall (frame_ok k) fs ->
  (forall l, lock_ok l (holds k l (current k)) (fs ++ stack th)) -> downs_ok (fs ++ stack th) = true ->
  (forall l, weight l fs = 0) -> current k <> idle_thread k ->
  kwf (set_threads (fun _ => <[current k := set_stack (app fs) th]> (threads k)) k).
Proof.
  intros Hk Hth Hc Hcb Hcs Hnew Hfs Hlv Hru Hfr Hlk Hdo Hwt Hid.
  pose proof (kwf_status k th Hk Hth) as Hrun.
  pose proof (kwf_cur k th Hk Hth) as [I1 I2 I3 I4 I5 I6 I7 I8 I9 I10 I12 I11].
  assert (forall x y, threads k !! x = Some y -> status y = THREAD_BLOCKED ->
    <[current k := set_stack (app fs) th]> (threads k) !! x = Some y) as Hd.
  { intros x y Hx Hy. rewrite lookup_insert_ne; [done|]. congruence. }
  assert (forall x, x ∈ creating (fs ++ stack th) <-> x = c \/ x ∈ creating (stack th)) as Hcr.
  { intros x. rewrite creating_app, Hfs. set_solver. }
  split; [cbn; rewrite lookup_insert_eq; by eexists|]. split.
  - intros t tht Ht. cbn in Ht. apply lookup_insert_Some in Ht as [[<- <-]|[Hne Ht]].
    + split; cbn; rewrite ?Hrun; try done.
      * intros _. by rewrite Hlv.
      * by rewrite I5, Hrun.
      * by apply Forall_app.
      * intros x [->|Hx]%Hcr; [exists thc; auto|]. destruct (I9 x Hx) as (y&?&?&?). exists y. auto.
      * rewrite creating_app, Hfs. apply NoDup_cons. split; [by eapply Hnew|done].
    + pose proof (k_threads _ _ (proj2 Hk) _ _ Ht) as [J1 J2 J3 J4 J5 J6 J7 J8 J9 J10 J12 J11]. split; cbn; try done.
      intros x Hx. destruct (J9 x Hx) as (y&?&?&?). exists y. auto.
  - pose proof (local_lists k th Hk Hth (set_threads (fun _ => <[current k := th]> (threads k)) k) th) as HL.
    destruct HL as [G1 G2 G3 G4 G5 G6 G7 G8 G9 G10 [G11 G11'] G12 G13]; try done; [by apply objects_same|].
    cbn in *. rewrite insert_id in * by done.
    assert (forall f u, blocked_at (set_threads (fun _ => threads k) k) f u -> blocked_at
              (set_threads (fun _ => <[current k := set_stack (app fs) th]> (threads k)) k) f u) as Hbl.
    { intros f u (x&g&st&?&?&?&?). exists x, g, st. cbn. auto. }
    split; cbn; try done.
    + intros t Ht. destruct (G1 t Ht) as [? (x&?&?)]. split; [done|]. exists x. rewrite lookup_insert_ne; [done|]. congruence.
    + intros s sm Hs. destruct (G3 s sm Hs) as (?&?&?). split_and!; auto.
    + auto.
    + intros t Ht. apply lookup_insert_is_Some'. right. auto.
    + apply lookup_insert_None. split; [done|]. congruence.
    + apply lookup_insert_is_Some'. by right.
    + split; [done|]. intros t ? ?. apply lookup_insert_is_Some'. right. auto.
    + intros u v thu thv x. rewrite !lookup_insert_Some.
      intros [[<- <-]|[? Hu]] [[<- <-]|[? Hv]]; cbn; rewrite ?Hcr; intros Hx Hy; try done.
      * destruct Hx as [->|Hx]; [by destruct (Hnew v thv)|by eapply G13].
      * destruct Hy as [->|Hy]; [by destruct (Hnew u thu)|by eapply G13].
      * by eapply G13.
  - eapply (local_locks k th Hk Hth); [done|done|done|done|]. apply lock_sum_same; [done|done|done|].
    intros l. cbn. rewrite weight_app, Hwt. lia.
Qed.

(** ** The remaining frames *)

(** The counters are not part of the invariant. *)
Lemma kwf_irrel k k' :
  kwf k -> threads k' = threads k -> same_sched k k' -> intr_level k' = intr_level k ->
  semas k' = semas k -> holders k' = holders k -> conds k' = conds k -> kwf k'.
Proof.
  intros Hk Et Hsame El Es Eh Ec. pose proof Hk as [[th Hth] _].
  pose proof (kwf_cur k th Hk Hth) as [I1 I2 I3 I4 I5 I6 I7 I8 I9 I10 I12 I11].
  assert (threads k' = <[current k := th]> (threads k)) as Et' by (by rewrite insert_id).
  eapply (local_kwf k th Hk Hth k' th); try done.
  - by apply kwf_status in Hth.
  - by apply objects_same.
  - pose proof Hsame as (_&_&_&_&Hc&_). split; try done.
    + rewrite El. by apply I2.
    + eapply (frames_mono k); [..|exact I6]; intros ?; by rewrite ?Es, ?Eh, ?Ec.
    + intros l. unfold holds. rewrite Eh, Hc. apply I7.
  - eapply (local_locks k th Hk Hth k' th); try done.
    + intros l u _ _. unfold holds. by rewrite Eh.
    + intros l. by rewrite Eh.
    + by apply lock_sum_same; [|intros l; rewrite Es|..].
Qed.

Section exec_wake.
Context (page : option ptr) (k : kernel) (th : thread) (f : frame) (st : list frame).
Hypothesis Hk : kwf k.
Hypothesis Hth : threads k !! current k = Some th.
Hypothesis Hst : stack th = f :: st.

(** The state after [sema_up] but for the thread it wakes. *)
Definition upped (s : sid) (v : Z) (ws : list ptr) : kernel :=
  set_semas (<[s := Sema v ws]>) (set_threads (fun _ => <[current k := set_stack (fun _ => st) th]> (threads k)) k).

Lemma upped_kwf s sm ws :
  f = FSemaUp s -> semas k !! s = Some sm -> ws = waiters sm \/ (exists t, waiters sm = t :: ws) ->
  kwf (upped s (u32 (value sm + 1)) ws).
Proof.
  intros Ef Hsm Hws. e_facts k th f st. rewrite Ef in *. cbn in Hlv, Hr, Hf.
  pose proof (wrapu_in 32 (value sm + 1) ltac:(lia)) as Hin.
  assert (forall l, s = SLock l -> u32 (value sm + 1) + weight l st = value sm + weight l (stack th)) as Hlock.
  { intros l ->. rewrite Hst. cbn. rewrite Z.eqb_refl.
    destruct (k_locks _ _ (proj2 Hk) l (proj2 Hf l eq_refl)) as (sm'&Hsm'&Hpl).
    simplify_eq. assert (value sm = 0) as ->; [|rewrite wrapu_small by (unfold in_u; lia); lia].
    destruct Hpl as [[_ Hall]|[? _]]; [|done]. specialize (Hall (current k)).
    pose proof (downs_weight l _ Hd'). unfold share, stk in Hall. rewrite Hth, Hst in Hall. cbn in Hall.
    rewrite Z.eqb_refl in Hall. destruct (_ && _); lia. }
  unfold upped.
  eapply (local_kwf _ th Hk Hth _ (set_stack (fun _ => st) th)); [done|done|by split_and!|..].
  - eapply objects_sema; done.
  - stack_tac.
    + by rewrite Hlv.
    + apply frames_mono with (k := k); try done. apply insert_some.
  - eapply (local_locks k th Hk Hth); [done|done|done|done|]. cbn.
    apply (sema_lock_sum k Hk s sm); [done|destruct Hin; lia|done|].
    intros l Hne. rewrite Hst. cbn. destruct s as [|l0|]; try done. destruct (Z.eqb_spec l0 l) as [->|]; [done|lia].
Qed.

Lemma exec_sema_up s : f = FSemaUp s -> wp (exec page) (fun _ => kwf) k.
Proof.
  intros Ef. pose proof (upped_kwf s) as Hup. pose proof Ef as Ef'. e_start Ef. destruct Hf as [[sm Hsm] _].
  specialize (Hup sm) as Hup'. unfold upped in Hup'.
  pose proof (g_wait _ (k_lists _ _ (proj2 Hk)) _ _ Hsm) as (_&Hnd&Hbl).
  unfold sema_up. k_go. destruct (waiters sm) as [|t ws] eqn:Ew; k_go; cbn; rewrite ?Ew, ?Hlv.
  - specialize (Hup' [] Ef' Hsm ltac:(by left)). eapply (eq_ind _ kwf Hup').
    by kernel_eq.
  - specialize (Hup' ws Ef' Hsm ltac:(right; by exists t)).
    assert (t ∉ ws) as Hnt by (by apply NoDup_cons in Hnd as [? _]).
    destruct (Hbl t ltac:(set_solver)) as (tht&g&stt&Ht&Hb&Hs&[b ->]).
    assert (t <> current k) as Hne by congruence.
    eapply wp_thread_unblock; [cbn; by rewrite lookup_insert_ne|done|done|]. k_go. cbn.
    assert (kwf (woken (upped s (u32 (value sm + 1)) ws) t (set_status THREAD_READY tht))) as Hw.
    { eapply woken_kwf; [done|]. eapply wakes_blocked; [done|cbn; by rewrite lookup_insert_ne|done|done|done|..].
      - intros s' sm' Hs'. cbn in Hs'. apply lookup_insert_Some in Hs' as [[<- <-]|[Hne' Hs']]; [done|].
        intros Hin. destruct (g_wait _ (k_lists _ _ (proj2 Hk)) _ _ Hs') as (_&_&Hbl').
        destruct (Hbl' t Hin) as (x&g'&st'&?&_&?&[b' ->]). simplify_eq. congruence.
      - intros Hin. destruct (g_sleep _ (k_lists _ _ (proj2 Hk)) _ Hin) as (x&g'&st'&?&_&?&<-). simplify_eq. congruence. }
    eapply (eq_ind _ kwf Hw).
    kernel_eq; [done|by rewrite insert_insert_eq].
Qed.

Lemma exec_yield :
  f = FYield ->
  wp (exec page) (fun _ k' => kwf k' /\
    picks (set_ready_list (fun r => if current k =? idle_thread k then r else r ++ [current k]) k) k') k.
Proof.
  intros Ef. e_start Ef.
  eapply (wp_thread_yield k _ th st true Hk Hth); try done.
  - by kernel_eq.
  - by rewrite Hst.
  - rewrite Hst. cbn. done.
  - intros l. by rewrite Hst.
Qed.

Lemma exec_die : f = FDie -> wp (exec page) (fun _ => kwf) k.
Proof.
  intros Ef. e_start Ef. k_go. set (th1 := set_status THREAD_DYING (set_stack (fun _ => st) th)).
  eapply wp_mono; [apply schedule_ok; [|cbn; rewrite lookup_insert_eq; by eexists|done]|by intros [] k' [? _]].
  pose proof (kwf_cur k th Hk Hth) as [I1 I2 I3 I4 I5 I6 I7 I8 I9 I10 I12 I11].
  eapply (parked_kinv k _ th th1 Hk Hth).
  - split; try done; try (by left).
    + cbn. by rewrite insert_insert_eq.
    + by right.
    + intros s' sm1 Hs'. exists sm1. auto.
  - by rewrite Hst.
  - intros l. by rewrite Hst.
  - split; cbn; try done.
    + rewrite list_elem_of_filter. naive_solver.
    + intros l. specialize (Hlk l). by destruct Hlk.
    + intros c Hc. rewrite Hst in I9. destruct (I9 c Hc) as (x&?&?&?). exists x.
      rewrite insert_insert_eq, lookup_insert_ne; [done|]. congruence.
    + by rewrite Hst in I10.
    + intros _. split; [done|]. specialize (Hlk tid_lock) as [E _]. by apply E.
    + intros E. destruct (I11 E) as (_&Hif&_). by rewrite Hst in Hif.
Qed.

Lemma exec_finish c i : f = FFinish c i -> wp (exec page) (fun _ => kwf) k.
Proof.
  intros Ef. pose proof (kwf_cur k th Hk Hth) as Hinv. e_start Ef. subst i.
  assert (kwf (set_threads (fun _ => <[current k := set_stack (fun _ => st) th]> (threads k)) k)) as Hpop.
  { finish_local th st; [by apply objects_same|stack_tac|lock_tac].
    - by rewrite Hlv.
    - by constructor. }
  destruct (t_creating _ _ _ _ Hinv c) as (thc&Hc&Hb&Hs); [rewrite Hst; cbn; set_solver|].
  assert (c <> current k) as Hne by congruence.
  assert (c ∉ creating st) as Hnc.
  { pose proof (t_creating_nodup _ _ _ _ Hinv) as Hn. rewrite Hst in Hn. by apply NoDup_cons in Hn as [? _]. }
  apply wp_bind. eapply wp_upd_thread; [cbn; by rewrite lookup_insert_ne|].
  eapply wp_thread_unblock; [look|done|done|].
  pose proof (k_threads _ _ (proj2 Hk) _ _ Hc) as Hcinv.
  assert (holds k tid_lock c = false) as Htid by (destruct (t_blocked _ _ _ _ Hcinv Hb) as [[_ ?]|Hx]; [done|by rewrite Hs in Hx]).
  assert (forall f, ~ blocked_at k f c) as Hnb by (intros g (x&g'&st'&?&_&?&_); simplify_eq; congruence).
  eapply (eq_ind _ kwf (woken_kwf _ c thc (set_status THREAD_READY (set_stack (fun _ => thread_frames None) thc)) Hpop _)).
  kernel_eq. by rewrite insert_insert_eq.
  Unshelve. split; cbn; rewrite ?Hs; try done.
  - by rewrite lookup_insert_ne.
  - intros E. by destruct (t_idle _ _ _ _ Hcinv E) as (_&_&?).
  - intros s sm Hsm Hin. destruct (g_wait _ (k_lists _ _ (proj2 Hk)) _ _ Hsm) as (_&_&Hbl). by destruct (Hnb _ (Hbl c Hin)).
  - intros Hin. by destruct (Hnb _ (g_sleep _ (k_lists _ _ (proj2 Hk)) _ Hin)).
  - intros u thu Hu Hin. apply lookup_insert_Some in Hu as [[<- <-]|[Hu' Hu]]; [done|]. destruct Hu'.
    eapply (g_creating _ (k_lists _ _ (proj2 Hk))); [exact Hth|exact Hu| |exact Hin]. rewrite Hst. cbn. set_solver.
  - repeat constructor.
  - intros l. split; [|done]. by intros ->.
Qed.

Lemma exec_create prio i :
  (forall t, page = Some t -> t <> NULL /\ threads k !! t = None) ->
  f = FCreate prio i -> wp (exec page) (fun _ => kwf) k.
Proof.
  intros Hpage Ef. e_start Ef. destruct Hf as [Hprio ->].
  assert (kwf (set_threads (fun _ => <[current k := set_stack (fun _ => st) th]> (threads k)) k)) as Hpop.
  { finish_local th st; [by apply objects_same|stack_tac|lock_tac]; [by rewrite Hlv|].
    intros l. specialize (Hlk l). by destruct Hlk. }
  assert (current k <> idle_thread k) as Hid.
  { intros E. destruct (t_idle _ _ _ _ (kwf_cur k th Hk Hth) E) as (_&Hif&_). by rewrite Hst in Hif. }
  set (kp := set_threads _ k) in *.
  apply wp_bind. apply (wp_mono _ (fun _ k1 => exists n, k1 = set_thread_create_limit n kp)).
  { unfold DEBUG_thread_create_simulate_fail. k_go. destruct (_ =? 0); k_go; [by exists id|by eexists]. }
  intros sim k1 [n ->]. assert (kwf (set_thread_create_limit n kp)) as Hk1.
  { eapply (kwf_irrel kp); try done. }
  destruct sim; [by apply wp_ret|]. destruct page as [c|]; [|by apply wp_ret].
  destruct (Hpage c eq_refl) as [Hc Hfresh]. assert (c <> current k) as Hne by congruence.
  unfold init_thread. k_go.
  { by rewrite (proj2 (Z.eqb_neq _ _) Hc). }
  { apply andb_true_iff. split; lia. }
  set (thc := Thread _ _ _ _ _ _). set (th0 := set_stack (fun _ => st) th).
  assert (current k <> c) as Hne' by done. pose proof (spawned_kwf _ c th0 thc Hk1) as Hs.
  set (k2 := spawned _ c thc) in *.
  assert (threads k2 !! current k = Some th0) as Hth2 by (cbn; by rewrite lookup_insert_ne, lookup_insert_eq).
  assert (kwf k2) as Hk2 by (apply Hs; [cbn; by rewrite lookup_insert_eq|cbn; by rewrite lookup_insert_ne|done..]).
  match goal with |- wp _ _ ?K => replace K with k2 by by kernel_eq end.
  eapply wp_push; [exact Hth2|].
  apply (adopt_kwf k2 th0 c thc); try done.
  - cbn. by rewrite lookup_insert_eq.
  - intros u thu Hu. cbn in Hu. apply lookup_insert_Some in Hu as [[<- <-]|[Hcu Hu]]; [apply not_elem_of_nil|].
    apply (fresh_not_created kp c Hpop) with (u := u); [|done]. cbn. by rewrite lookup_insert_ne.
  - pose proof (g_tid_lock _ (k_lists _ _ (proj2 Hk))) as [? _]. repeat constructor; done.
  - intros l. specialize (Hlk l) as [Ht Hl]. change (holds k2 l (current k2)) with (holds k l (current k)).
    cbn [lock_ok app]. destruct (Z.eqb_spec 1 l) as [<-|]; [|done]. rewrite (Ht eq_refl) in *. done.
Qed.

End exec_wake.

(** The running thread can always go on. *)
Lemma exec_ok page k :
  kwf k -> (forall t, page = Some t -> t <> NULL /\ threads k !! t = None) -> wp (exec page) (fun _ => kwf) k.
Proof.
  intros Hk Hpage. pose proof Hk as [[th Hth] _].
  destruct (t_current _ _ _ _ (kwf_cur k th Hk Hth) eq_refl) as [_ Hr].
  destruct (stack th) as [|f st] eqn:Hst; [done|].
  destruct (kwf_top k th f st Hk Hth Hst) as [_ Hf _ _ _ _].
  destruct f; cbn in Hf; try done;
    first
      [by eapply (exec_sema_down page k th _ st Hk Hth Hst)
      |by eapply (exec_try_down page k th _ st Hk Hth Hst)
      |by eapply (exec_sema_up page k th _ st Hk Hth Hst)
      |by eapply (exec_lock_acquire page k th _ st Hk Hth Hst)
      |by eapply (exec_try_acquire page k th _ st Hk Hth Hst)
      |by eapply (exec_lock_release page k th _ st Hk Hth Hst)
      |by eapply (exec_cond_wait page k th _ st Hk Hth Hst)
      |by eapply (exec_cond_signal page k th _ st Hk Hth Hst)
      |by eapply (exec_cond_broadcast page k th _ st Hk Hth Hst)
      |by eapply wp_mono; [eapply (exec_yield page k th _ st Hk Hth Hst)|intros [] ? [? _]]
      |by eapply (exec_sleep page k th _ st Hk Hth Hst)
      |by eapply (exec_exit page k th _ st Hk Hth Hst)
      |by eapply (exec_set_holder page k th _ st Hk Hth Hst)
      |by eapply (exec_cond_enqueue page k th _ st Hk Hth Hst)
      |by eapply (exec_sleep_block page k th _ st Hk Hth Hst)
      |by eapply (exec_finish page k th _ st Hk Hth Hst)
      |by eapply (exec_die page k th _ st Hk Hth Hst)
      |by eapply (exec_set_level page k th _ st Hk Hth Hst)
      |by eapply (exec_body page k th _ st Hk Hth Hst)
      |by eapply (exec_idle_loop page k th _ st Hk Hth Hst)
      |by eapply (exec_create page k th _ st Hk Hth Hst _ _ Hpage)
      |by eapply (exec_next_tid page k th st _ Hk Hth Hst)
      |idtac].
  - destruct Hf as [sm Hsm]. destruct (decide (value sm = 0)).
    + eapply wp_mono; [by eapply (exec_down_block page k th _ st Hk Hth Hst)|by intros [] ? [? _]].
    + by eapply (exec_down_take page k th _ st Hk Hth Hst).
  - apply (exec_enable page k th _ st Hk Hth Hst). by left.
  - apply (exec_iret page k th _ st Hk Hth Hst). by left.
  - apply (exec_enable page k th _ st Hk Hth Hst). by right.
  - apply (exec_iret page k th _ st Hk Hth Hst). by right.
Qed.

(** ** The timer interrupt *)

(** The state the interrupted thread sees: the handler runs with interrupts
    off and marked as an external interrupt. *)
Definition outside (k : kernel) : kernel :=
  set_intr_level (fun _ => true) (set_in_external_intr (fun _ => false) k).

(** The threads at the front of [l] whose time has come. *)
Fixpoint due (k : kernel) (l : list ptr) : list ptr :=
  match l with
  | [] => []
  | t :: l' => if sleep_time_of k t <=? ticks k then t :: due k l' else []
  end.

Definition woken_all (k : kernel) (ts : list ptr) : kernel :=
  set_threads (fun m => foldl (fun m t => alter (set_status THREAD_READY) t m) m ts)
    (set_ready_list (fun r => r ++ ts) (set_sleeping_threads (drop (length ts)) k)).

Lemma sleep_time_alter k t u l :
  sleep_time_of (set_threads (alter (set_status THREAD_READY) t) (set_ready_list l k)) u = sleep_time_of k u.
Proof.
  unfold sleep_time_of. cbn. destruct (decide (t = u)) as [->|]; [|by rewrite lookup_alter_ne].
  rewrite lookup_alter_eq. by destruct (threads k !! u).
Qed.

Lemma due_ext k k' l : (forall u, sleep_time_of k' u = sleep_time_of k u) -> ticks k' = ticks k -> due k' l = due k l.
Proof. intros Hs Ht. induction l as [|t l IH]; simpl; [done|]. by rewrite Hs, Ht, IH. Qed.

(** One thread of the list is woken. *)
Definition woken_one (k : kernel) (t : ptr) (l : list ptr) : kernel :=
  woken (set_sleeping_threads (fun _ => l) k) t
    (set_status THREAD_READY (default (Thread 0 THREAD_BLOCKED 0 0 NULL []) (threads k !! t))).

Lemma woken_one_kwf k t l :
  kwf (outside k) -> sleeping_threads k = t :: l ->
  exists th, threads k !! t = Some th /\ status th = THREAD_BLOCKED /\ kwf (outside (woken_one k t l)).
Proof.
  intros Hk Hl. pose proof (k_lists _ _ (proj2 Hk)) as Hli.
  destruct (g_sleep _ Hli t) as (th&g&st&Ht&Hb&Hs&<-); [cbn; rewrite Hl; set_solver|].
  exists th. split_and!; [done|done|].
  assert (t ∉ l) as Hnl by (pose proof (g_sleep_nodup _ Hli) as Hn; cbn in Hn; rewrite Hl in Hn; by apply NoDup_cons in Hn as [? _]).
  assert (kwf (set_sleeping_threads (fun _ => l) (outside k))) as Hk1.
  { pose proof Hk as [Hc [I L K]]. split; [done|]. split; [|destruct L; split; try done|done].
    - intros u thu Hu. destruct (I u thu Hu). split; done.
    - intros u Hu. apply g_sleep0. cbn. rewrite Hl. set_solver.
    - cbn in g_sleep_nodup0. rewrite Hl in g_sleep_nodup0. by apply NoDup_cons in g_sleep_nodup0 as [_ ?]. }
  eapply (eq_ind _ kwf (woken_kwf _ t th (set_status THREAD_READY th) Hk1 _)).
  kernel_eq. cbn in Ht. by rewrite Ht.
  Unshelve. eapply wakes_blocked; try done.
  intros s sm Hsm Hin. destruct (g_wait _ Hli _ _ Hsm) as (_&_&Hbl).
  destruct (Hbl t Hin) as (x&g'&st'&Hx&_&?&[b ->]). cbn in Hx, Ht. simplify_eq. congruence.
Qed.

Lemma wake_loop_ok fuel k :
  (length (sleeping_threads k) < fuel)%nat -> kwf (outside k) -> intr_level k = false ->
  wp (wake_loop fuel) (fun _ k' => k' = woken_all k (due k (sleeping_threads k)) /\ kwf (outside k')) k.
Proof.
  revert k. induction fuel as [|fuel IH]; intros k Hfu Hk Hlv; [lia|]. cbn [wake_loop].
  apply wp_bind, wp_gets. destruct (sleeping_threads k) as [|t l] eqn:Hl.
  { apply wp_ret. split; [|done]. kernel_eq. by rewrite app_nil_r. }
  destruct (woken_one_kwf k t l Hk Hl) as (th&Ht&Hb&Hk'). cbn [due].
  assert (sleep_time_of k t = thread_sleep_time th) as Est by (unfold sleep_time_of; by rewrite Ht).
  apply wp_bind. eapply wp_get_thread; [done|]. apply wp_bind, wp_gets. rewrite Est.
  destruct (Z.leb_spec (thread_sleep_time th) (ticks k)).
  - apply wp_bind, wp_modify, wp_bind. eapply wp_thread_unblock; [done|done|cbn; by rewrite Hlv|].
    assert (woken (set_sleeping_threads (fun _ => l) k) t (set_status THREAD_READY th) = woken_one k t l) as ->
      by (unfold woken_one; by rewrite Ht).
    eapply wp_mono; [apply IH; [cbn in *; lia|done|done]|]. intros ? k'' [-> ?]. split; [|done].
    cbn [sleeping_threads woken_one woken set_threads set_ready_list set_sleeping_threads].
    rewrite (due_ext k (woken_one k t l)); [|intros u; unfold sleep_time_of; cbn|done].
    + kernel_eq.
      * rewrite Ht. cbn. by rewrite (alter_some _ _ _ _ Ht).
      * by rewrite <- app_assoc.
      * by rewrite Hl.
    + rewrite Ht. destruct (decide (t = u)) as [->|]; [by rewrite lookup_insert_eq, Ht|by rewrite lookup_insert_ne].
  - apply wp_ret. split; [|done]. kernel_eq. by rewrite app_nil_r.
Qed.

(** [thread_tick] counts, and asks for a switch at the end of the time slice. *)
Definition counted (a b c : Z -> Z) (k : kernel) : kernel :=
  set_yield_on_return (fun y => y || (TIME_SLICE <=? u32 (thread_ticks k + 1)))
    (set_thread_ticks (fun n => u32 (n + 1)) (set_idle_ticks a (set_user_ticks b (set_kernel_ticks c k)))).

Lemma wp_thread_tick Q k th :
  threads k !! current k = Some th -> status th = THREAD_RUNNING -> in_external_intr k = true ->
  (forall a b c, Q tt (counted a b c k)) -> wp thread_tick Q k.
Proof.
  intros Ht Hr He HQ. unfold thread_tick. k_go.
  apply (wp_mono _ (fun _ k1 => exists a b c, k1 = set_idle_ticks a (set_user_ticks b (set_kernel_ticks c k)))).
  { set (inc := fun n => s64 (n + 1)).
    destruct (_ =? _); [|destruct (negb _)]; apply wp_modify;
      [exists inc, id, id|exists id, inc, id|exists id, id, inc]; by kernel_eq. }
  intros [] k1 (a&b&c&->). k_go. destruct (TIME_SLICE <=? _) eqn:E; cbn in E.
  - unfold intr_yield_on_return. k_go. eapply (eq_ind _ (Q tt) (HQ a b c)). kernel_eq. by rewrite E, orb_true_r.
  - k_go. eapply (eq_ind _ (Q tt) (HQ a b c)). kernel_eq. by rewrite E, orb_false_r.
Qed.

(** The handler: the clock advances and the sleepers whose time has come are
    put at the end of the run queue. *)
Lemma timer_interrupt_ok k :
  kwf (outside k) -> intr_level k = false -> in_external_intr k = true ->
  wp timer_interrupt (fun _ k' => kwf (outside k') /\
    exists a b c, k' =
      let k1 := counted a b c (set_ticks (fun n => s64 (n + 1)) k) in woken_all k1 (due k1 (sleeping_threads k1))) k.
Proof.
  intros Hk Hlv He. pose proof Hk as [[th Hth] _]. pose proof (kwf_status _ th Hk Hth) as Hrun.
  unfold timer_interrupt. apply wp_bind, wp_modify, wp_bind. eapply wp_thread_tick; [done..|]. intros a b c.
  apply wp_bind, wp_gets. eapply wp_mono; [apply wake_loop_ok; [cbn; lia| |done]|].
  - eapply (kwf_irrel (outside k)); done.
  - intros [] k' [-> ?]. split; [done|]. by exists a, b, c.
Qed.

Lemma timer_tick_ok k : kwf k -> intr_level k = true -> wp timer_tick (fun _ => kwf) k.
Proof.
  intros Hk Hlv. pose proof (g_intr _ (k_lists _ _ (proj2 Hk))) as He.
  unfold timer_tick. k_go. eapply wp_mono; [apply timer_interrupt_ok; [|done..]|].
  { eapply (kwf_irrel k); done. }
  intros [] k' (Hk'&a&b&c&Ek').
  assert (intr_level k' = false /\ in_external_intr k' = true) as [Hl' He'] by (rewrite Ek'; done).
  clear Ek'. k_go; [by rewrite Hl'|]. pose proof Hk' as [[th Hth] _]. cbn in Hth.
  destruct (kwf_cur _ th Hk' Hth) as [I1 I2 I3 I4 I5 I6 I7 I8 I9 I10 I12 I11].
  destruct (yield_on_return _); k_go.
  - eapply wp_mono; [eapply (wp_thread_yield (outside k') _ th (FIret :: stack th) false Hk' Hth); try done|by intros [] ? [? _]].
    + by kernel_eq.
    + cbn. by apply I2.
    + by constructor.
  - eapply (kwf_irrel (outside k')); done.
Qed.

(** ** Every step preserves the invariant *)

Lemma top_body k : kwf k -> top_is k FBody ->
  exists th st, threads k !! current k = Some th /\ stack th = FBody :: st /\ top_facts k th FBody st.
Proof. intros Hk (th&st&Ht&Hs). exists th, st. split_and!; [done|done|]. by apply kwf_top. Qed.

Lemma call_ok k f : kwf k -> top_is k FBody -> may_call k f -> wp (push [f]) (fun _ => kwf) k.
Proof.
  intros Hk Htop Hc. destruct (top_body k Hk Htop) as (th&st&Hth&Hst&_).
  pose proof (kwf_status k th Hk Hth) as Hrun. destruct (kwf_top k th _ st Hk Hth Hst) as [[Hlv Hr] Hf Hfs Hlk Hd Hd'].
  cbn in Hlv, Hr. pose proof Hr as [Hpl Hr']%andb_true_iff. eapply wp_push; [done|].
  assert (forall l h, (l = tid_lock -> h = false) -> lock_ok l h (FBody :: st)) as Hb.
  { intros l h Hh. destruct (Hlk l) as [_ ?]. done. }
  assert (forall l, lock_ok l (holds k l (current k)) (f :: FBody :: st)) as Hlk'.
  { intros l. pose proof (Hlk l) as [Htid _]. unfold holds in *. cbn -[lock_ok] in Hc.
    destruct f; try done; cbn [lock_ok]; try (by apply Hb); try (split; [done|by apply Hb]);
      destruct (Z.eqb_spec l0 l) as [->|]; try (by apply Hb).
    - destruct Hc as (?&h&->&?). rewrite (proj2 (Z.eqb_neq _ _)) by done. split; [done|]. by apply (Hb l true).
    - destruct Hc as (?&h&->&?). rewrite (proj2 (Z.eqb_neq _ _)) by done.
      split; [done|]. split; [by apply (Hb l true)|by apply (Hb l false)].
    - destruct Hc as (?&->). rewrite Z.eqb_refl. split; [done|]. by apply (Hb l false).
    - destruct Hc as (?&->&?). rewrite Z.eqb_refl. split; [done|]. by apply (Hb l true).
    - destruct Hc as (?&->&?). rewrite Z.eqb_refl. split; [done|]. by apply (Hb l true).
    - destruct Hc as (?&->&?). rewrite Z.eqb_refl. split; [done|]. by apply (Hb l true). }
  assert (frame_ok k f) as Hfok.
  { destruct f; try done; repeat match goal with s : sid |- _ => destruct s | o : option sid |- _ => destruct o end;
      cbn in *; naive_solver. }
  assert (runs_at true (f :: FBody :: st) = true) as Hruns.
  { destruct f; try done; cbn; by rewrite Hpl, ?Hr'. }
  assert (current k <> idle_thread k) as Hid.
  { intros E. destruct (t_idle _ _ _ _ (kwf_cur k th Hk Hth) E) as (_&Hif&_). by rewrite Hst in Hif. }
  assert (set_stack (app [f]) th = set_stack (fun _ => f :: FBody :: st) th) as -> by (unfold set_stack; by rewrite Hst).
  finish_local th (f :: FBody :: st); [by apply objects_same|split; cbn; rewrite ?Hst; try done|].
  - by rewrite Hlv.
  - repeat constructor; done.
  - cbn in Hd. destruct f as [[]| | | | | | | | | | | | | | | | | | | | | | | | | | |]; done.
  - destruct f as [| | | | | | | | | | | | | | | | | |t| | | | | | | | |]; done.
  - eapply (local_locks k th Hk Hth); [done| |done|done|].
    + destruct f as [[]| | | | | | | | | | | | | | | | | | | | | | | | | | |]; done.
    + apply lock_sum_same; [done|done|done|]. intros l. rewrite Hst. cbn.
      destruct f as [[]| |[]| | | | | | | | | | | | | | | | | | | | | | | | |]; done.
Qed.

(** A thread's code initialises an object. *)
Section init.
Context (k : kernel) (th : thread).
Hypothesis Hk : kwf k.
Hypothesis Hth : threads k !! current k = Some th.

(** The thread structures and the lists stay. *)
Lemma init_kwf k' :
  threads k' = threads k -> same_sched k k' -> intr_level k' = intr_level k -> objects_ok k k' ->
  (forall l, holds k' l (current k) = holds k l (current k)) ->
  (forall l, is_Some (holders k' !! l) -> lock_place k' l) -> kwf k'.
Proof.
  intros Et Hsame El Ho Hh Hl. pose proof Hsame as (_&_&_&_&Hc&_).
  pose proof (kwf_cur k th Hk Hth) as [I1 I2 I3 I4 I5 I6 I7 I8 I9 I10 I12 I11].
  eapply (local_kwf k th Hk Hth k' th); try done.
  - by rewrite insert_id.
  - by apply kwf_status in Hth.
  - split; try done.
    + rewrite El. by apply I2.
    + eapply (frames_mono k); [apply Ho..|exact I6].
    + intros l. rewrite Hc, Hh. apply I7.
Qed.

Lemma place_same k' l :
  threads k' = threads k -> is_Some (holders k !! l) -> holders k' !! l = holders k !! l ->
  semas k' !! SLock l = semas k !! SLock l -> lock_place k' l.
Proof.
  intros Et Hl Eh Es. destruct (k_locks _ _ (proj2 Hk) l Hl) as (sm&Hsm&Hpl). exists sm. rewrite Es. split; [done|].
  assert (forall u, share k' l u = share k l u) as E by (intros u; unfold share, stk, holds; by rewrite Et, Eh).
  destruct Hpl as [[? ?]|(?&o&?&?)]; [left|right]; (split; [done|]).
  - intros u. by rewrite E.
  - exists o. rewrite E. split; [done|]. intros u ?. rewrite E. auto.
Qed.

Lemma sema_init_ok p v : in_u 32 v -> wp (sema_init (SSema p) v) (fun _ => kwf) k.
Proof.
  intros Hv. apply wp_modify. apply init_kwf; try done.
  - by eapply objects_init.
  - intros l Hl. apply place_same; try done. cbn. by rewrite lookup_insert_ne.
Qed.

Lemma cond_init_ok c : wp (cond_init c) (fun _ => kwf) k.
Proof.
  apply wp_modify. apply init_kwf; try done.
  - eapply objects_cond; try done. intros t Ht. by apply elem_of_nil in Ht.
  - intros l Hl. by apply place_same.
Qed.

(** No stack has to do with a lock that does not exist. *)
Lemma weight_unknown l st : Forall (frame_ok k) st -> downs_ok st = true -> holders k !! l = None -> weight l st = 0.
Proof.
  intros Hf Hd Hl. induction st as [|f st IH]; cbn in *; [done|].
  apply Forall_cons in Hf as [Hf Hfs]. apply andb_true_iff in Hd as [Hd1 Hd2]. rewrite IH by done.
  assert (takes st l = true -> False) as Ht.
  { destruct st as [|g st]; [done|]. apply Forall_cons in Hfs as [Hg _]. destruct g; try done. cbn.
    intros ->%Z.eqb_eq. cbn in Hg. rewrite Hl in Hg. by destruct Hg. }
  destruct f; try done; try match goal with s : sid |- _ => destruct s; try done end; cbn in *;
    destruct (Z.eqb_spec l0 l) as [->|]; try done; exfalso; try (by apply Ht).
  - destruct Hf as [_ Hf]. destruct (Hf l eq_refl). congruence.
  - destruct Hf. congruence.
Qed.

Lemma lock_init_ok l : holders k !! l = None -> wp (lock_init l) (fun _ => kwf) k.
Proof.
  intros Hl. unfold lock_init. k_go. set (k' := set_semas _ _).
  assert (forall l' u, u <> NULL -> holds k' l' u = holds k l' u) as Hh.
  { intros l' u Hu. erewrite (holds_insert k) by reflexivity. case_decide; [|done]. subst l'.
    unfold holds. rewrite Hl. by apply Z.eqb_neq. }
  assert (in_u 32 1) as H1 by (unfold in_u; lia).
  pose proof (objects_init k Hk (set_semas (<[SLock l := Sema 1 []]>) k) (SLock l) 1 eq_refl eq_refl eq_refl H1) as [O1 O2 O3 O4 O5 O6].
  apply init_kwf; try done.
  - split; try done.
    + intros l' ?. cbn. rewrite lookup_insert_is_Some'. by right.
    + auto.
  - intros l'. apply Hh. by eapply kwf_cur_null.
  - intros l' Hl'. destruct (decide (l' = l)) as [->|Hne].
    + exists (Sema 1 []). split; [cbn; by rewrite lookup_insert_eq|]. left. split; [done|]. intros u. unfold share.
      destruct (decide (u = NULL)) as [->|Hu].
      * rewrite Z.eqb_refl, andb_false_r. unfold stk. cbn. by rewrite (g_null _ (k_lists _ _ (proj2 Hk))).
      * rewrite Hh by done. unfold holds, stk. rewrite Hl. cbn. destruct (threads k !! u) as [thu|] eqn:Hu'; [|done].
        pose proof (k_threads _ _ (proj2 Hk) _ _ Hu') as [_ _ _ _ _ I6 _ I8 _ _ _ _]. rewrite weight_unknown; done.
    + cbn in Hl'. rewrite lookup_insert_ne in Hl' by done.
      apply place_same; [done|done|..]; cbn; rewrite lookup_insert_ne; congruence.
Qed.
End init.

(** The invariant is kept by every step. *)
Lemma step_kwf k k' : kwf k -> step k k' -> kwf k'.
Proof.
  assert (forall m, wp m (fun _ => kwf) k -> m k = Ok (tt, k') -> kwf k') as Hw by (intros m H E; unfold wp in H; by rewrite E in H).
  intros Hk Hs. pose proof Hk as [[th Hth] _]. destruct Hs; (eapply Hw; [|done]).
  - by apply exec_ok.
  - by apply timer_tick_ok.
  - by apply call_ok.
  - by eapply sema_init_ok.
  - by eapply lock_init_ok.
  - by eapply cond_init_ok.
Qed.

End SchedWake.
