(* ===== verification/SchedBoot.v ===== *)
(** * The start of the thread system

    [boot] runs [thread_init] and [thread_start] to the point where [main] goes
    on: the initial thread and the idle thread exist, the idle thread waits for
    work, interrupts are on.  The result is computed for arbitrary addresses of
    the two threads; it satisfies the invariant of [SchedInv]. *)

From S2P Require Import Prelude.
From S2P Require Import KListSort.
From S2P Require Import Sched.
From S2P Require Import SchedInv.
From S2P Require Import SchedStep.
From S2P Require Import SchedWake.
Import Sched SchedInv SchedStep SchedWake.
Local Open Scope Z_scope.

Module SchedBoot.

(** The limit of [thread_create] after one thread was made. *)
Definition limit_after (limit : Z) : Z := if limit =? 0 then 0 else limit - 1.

Definition booted (main idle limit : Z) : kernel :=
  Kernel
    (<[main := Thread 1 THREAD_RUNNING PRI_DEFAULT 0 NULL [FBody; FExit]]>
       (<[idle := Thread 2 THREAD_BLOCKED PRI_MIN 0 NULL [FHlt; FIdleLoop]]> ∅))
    [] [main; idle] [] main idle main true false false 0 0 0 0 0 3 (limit_after limit)
    (<[idle_started_sema := Sema 0 []]> (<[SLock tid_lock := Sema 1 []]> ∅)) (<[tid_lock := NULL]> ∅) ∅.

(** ** Symbolic execution of a whole stack *)

Lemma wp_drain_done n page Q k th :
  threads k !! current k = Some th -> stack th = [] -> Q tt k -> wp (drain (S n) page) Q k.
Proof.
  intros Ht Hs HQ. cbn [drain]. apply wp_bind, wp_gets, wp_bind. eapply wp_get_thread; [done|]. rewrite Hs. by apply wp_ret.
Qed.

Lemma wp_drain_exec n page Q k th f st :
  threads k !! current k = Some th -> stack th = f :: st ->
  wp (run page f) (fun _ => wp (drain n page) Q) (set_threads (fun _ => <[current k := set_stack (fun _ => st) th]> (threads k)) k) ->
  wp (drain (S n) page) Q k.
Proof.
  intros Ht Hs HQ. cbn [drain]. apply wp_bind, wp_gets, wp_bind. eapply wp_get_thread; [done|]. rewrite Hs.
  apply wp_bind. by eapply wp_exec.
Qed.

Ltac lk := cbn; repeat first [rewrite lookup_insert_eq | rewrite lookup_insert_ne by done]; reflexivity.
Ltac norm := cbv beta iota delta [set_threads set_ready_list set_all_list set_sleeping_threads set_current set_idle_thread set_initial_thread set_intr_level set_in_external_intr set_yield_on_return set_ticks set_thread_ticks set_idle_ticks set_kernel_ticks set_user_ticks set_next_tid set_thread_create_limit set_semas set_holders set_conds threads ready_list all_list sleeping_threads current idle_thread initial_thread intr_level in_external_intr yield_on_return ticks thread_ticks idle_ticks kernel_ticks user_ticks next_tid thread_create_limit semas holders conds set_status set_tid set_priority set_sleep set_stack tid status priority thread_sleep_time pagedir stack app value waiters negb]; rewrite ?insert_insert_eq.
Ltac consts :=
  repeat match goal with
  | |- context [wrapu ?w ?x] => is_ground x; let v := eval vm_compute in (wrapu w x) in change (wrapu w x) with v
  | |- context [wraps ?w ?x] => is_ground x; let v := eval vm_compute in (wraps w x) in change (wraps w x) with v
  end.
Ltac side :=
  norm; repeat first [rewrite lookup_insert_eq | rewrite lookup_insert_ne by done | rewrite bool_decide_true by (by eexists)
               | rewrite bool_decide_false by done | rewrite Z.eqb_refl
               | match goal with H : (_ =? _) = false |- _ => rewrite H end]; try reflexivity; try done; try (by cbn).
Ltac cond :=
  match goal with
  | |- wp (if ?b then _ else _) _ _ =>
     first [replace b with true by (side; fail) | replace b with false by (side; fail)]
  | |- wp (match ?b with [] => _ | _ => _ end) _ _ => cbn [app]
  end; cbv beta iota.
Ltac boot_go :=
  repeat first
  [ progress (unfold thread_init, lock_init, init_thread, thread_start, sema_up, sema_try_down, timer_ticks, is_thread,
       lock_held_by_current_thread, thread_current, DEBUG_thread_create_simulate_fail, thread_unblock, thread_block, schedule,
       next_thread_to_run, thread_schedule_tail, intr_set_level, intr_enable, intr_disable)
  | lazymatch goal with
  | |- wp (bind _ _) _ _ => apply wp_bind
  | |- wp (gets _) _ _ => apply wp_gets; norm
  | |- wp running_thread _ _ => apply wp_gets; norm
  | |- wp intr_get_level _ _ => apply wp_gets; norm
  | |- wp intr_context _ _ => apply wp_gets; norm
  | |- wp (modify _) _ _ => apply wp_modify; norm
  | |- wp (ret _) _ _ => apply wp_ret; norm
  | |- wp (assert _) _ _ => apply wp_assert; split; [side|]
  | |- wp (push _) _ _ => eapply wp_push; [lk|norm]
  | |- wp (upd_thread _ _) _ _ => eapply wp_upd_thread; [lk|norm]
  | |- wp (get_thread _) _ _ => eapply wp_get_thread; [lk|norm]
  | |- wp (get_sema _) _ _ => eapply wp_get_sema; [lk|norm]
  | |- wp (get_holder _) _ _ => eapply wp_get_holder; [lk|norm]
  | |- wp (put_sema _ _) _ _ => apply wp_modify; norm
  | |- wp (sema_init _ _) _ _ => apply wp_modify; norm
  | |- wp (put_holder _ _) _ _ => apply wp_modify; norm
  end].

Ltac frame := boot_go; consts; eapply wp_drain_exec; [lk|reflexivity|]; norm; run_frame; boot_go; repeat (cond; boot_go).

Lemma simulate_ok Q k :
  0 <= thread_create_limit k < 2 ^ 31 -> thread_create_limit k <> 1 ->
  Q false (set_thread_create_limit (fun _ => limit_after (thread_create_limit k)) k) ->
  wp DEBUG_thread_create_simulate_fail Q k.
Proof.
  intros Hl H1 HQ. unfold DEBUG_thread_create_simulate_fail, limit_after in *. apply wp_bind, wp_gets.
  destruct (Z.eqb_spec (thread_create_limit k) 0) as [E|E].
  - apply wp_ret. rewrite <- E in HQ. by destruct k.
  - rewrite wraps_small by (unfold in_s; lia). apply wp_bind, wp_modify, wp_ret. rewrite (proj2 (Z.eqb_neq _ 0)) by lia.
    eapply (eq_ind _ (Q false) HQ). kernel_eq. by rewrite wraps_small by (unfold in_s; lia).
Qed.

Lemma boot_ok main idle limit :
  main <> NULL -> idle <> NULL -> main <> idle -> 0 <= limit < 2 ^ 31 -> limit <> 1 ->
  wp (boot idle) (fun _ k => k = booted main idle limit) (kernel0 main limit).
Proof.
  intros H1 H2 H3 Hl Hl1. assert (idle <> main) as H3' by done.
  assert ((main =? idle) = false) as E1 by (by apply Z.eqb_neq).
  assert ((idle =? main) = false) as E2 by (by apply Z.eqb_neq).
  assert ((0 =? main) = false) as E3 by (by apply Z.eqb_neq).
  rewrite <- Z.eqb_neq in H1, H2. unfold boot, kernel0. do 7 frame.
  consts. eapply wp_drain_done; [lk|reflexivity|]. boot_go.
  eapply wp_drain_exec; [lk|reflexivity|]. norm. run_frame. apply wp_bind, simulate_ok; [done|done|]. norm. boot_go.
  do 16 frame. consts. eapply wp_drain_done; [lk|reflexivity|]. boot_go.
  kernel_eq. apply map_eq. intros i.
  destruct (decide (i = main)) as [->|]; [by simplify_map_eq|].
  destruct (decide (i = idle)) as [->|]; by simplify_map_eq.
Qed.

Lemma booted_kwf main idle limit :
  main <> NULL -> idle <> NULL -> main <> idle -> kwf (booted main idle limit).
Proof.
  intros H1 H2 H3.
  assert (forall u, u <> NULL -> holds (booted main idle limit) tid_lock u = false) as Hno.
  { intros u Hu. unfold holds. cbn. destruct u; done. }
  split; [cbn; rewrite lookup_insert_eq; by eexists|]. split.
  - intros t th Ht. cbn in Ht. apply lookup_insert_Some in Ht as [[<- <-]|[Hne Ht]].
    + split; cbn; try done; try set_solver.
      * repeat constructor.
      * apply NoDup_nil_2.
    + apply lookup_insert_Some in Ht as [[<- <-]|[? ?]]; [|done]. split; cbn; try done; try set_solver.
      * repeat constructor.
      * apply NoDup_nil_2.
  - split; cbn; try done; try set_solver.
    + apply NoDup_nil_2.
    + intros s sm. rewrite !lookup_insert_Some. intros [[<- <-]|[_ [[<- <-]|[_ ?]]]]; [..|done];
        (split_and!; [unfold in_u; cbn; lia|apply NoDup_nil_2|cbn; set_solver]).
    + apply NoDup_nil_2.
    + intros t Ht. rewrite !lookup_insert_is_Some'. set_solver.
    + apply NoDup_cons. split; [set_solver|apply NoDup_singleton].
    + by rewrite !lookup_insert_None.
    + rewrite lookup_insert_ne, lookup_insert_eq by done. by eexists.
    + split; [by rewrite lookup_insert_eq; eexists|]. intros t Hn Hh. by rewrite Hno in Hh.
    + intros u v thu thv c. rewrite !lookup_insert_Some. intros [[<- <-]|[_ [[<- <-]|[_ ?]]]] _ Hc; [..|done]; cbn in Hc; set_solver.
  - intros l Hl. cbn in Hl. rewrite lookup_insert_is_Some' in Hl. destruct Hl as [<-|Hl]; [|by destruct Hl].
    exists (Sema 1 []). split; [done|]. left. split; [done|]. intros u. unfold share.
    destruct (decide (u = NULL)) as [->|Hu].
    + rewrite Z.eqb_refl, andb_false_r. unfold stk. cbn. by rewrite !lookup_insert_ne.
    + rewrite Hno by done. unfold stk. cbn. destruct (decide (u = main)) as [->|]; [by rewrite lookup_insert_eq|].
      rewrite lookup_insert_ne by done. destruct (decide (u = idle)) as [->|]; [by rewrite lookup_insert_eq|].
      by rewrite lookup_insert_ne.
Qed.

End SchedBoot.
