(* ===== verification/SchedSleep.v ===== *)
(** * Sleeping threads

    The list of sleeping threads is sorted by wake-up time in every state the
    kernel reaches, so that the timer interrupt, which stops at the first
    thread that still has to sleep, wakes every thread whose time has come. *)

From S2P Require Import Prelude.
From S2P Require Import KListSort.
From S2P Require Import Sched.
From S2P Require Import SchedInv.
From S2P Require Import SchedStep.
From S2P Require Import SchedWake.
Import Sched SchedInv SchedStep SchedWake.
Local Open Scope Z_scope.

Module SchedSleep.

(** ** What a routine leaves alone *)

(** If [m] returns, it returns in a state that satisfies [P] again. *)
Definition keeps {A} (P : kernel -> Prop) (m : M kernel A) : Prop :=
  forall k a k', P k -> m k = Ok (a, k') -> P k'.

Section keeps.
Context (P : kernel -> Prop).

Lemma keeps_ret {A} (a : A) : keeps P (ret a).
Proof. by intros k a' k' Hk [= <- <-]. Qed.

Lemma keeps_fail {A} e : keeps P (fail (A := A) e).
Proof. by intros k a' k' Hk ?. Qed.

Lemma keeps_bind {A B} (m : M kernel A) (f : A -> M kernel B) :
  keeps P m -> (forall a, keeps P (f a)) -> keeps P (bind m f).
Proof.
  intros Hm Hf k b k' Hk E. unfold bind in E. destruct (m k) as [[a k1]|] eqn:Em; [|done].
  eapply Hf; [|exact E]. by eapply Hm.
Qed.

Lemma keeps_gets {A} (f : kernel -> A) : keeps P (gets f).
Proof. by intros k a' k' Hk [= <- <-]. Qed.

Lemma keeps_modify f : (forall k, P k -> P (f k)) -> keeps P (modify f).
Proof. intros Hf k [] k' Hk [= <-]. auto. Qed.

Lemma keeps_assert b : keeps P (assert b).
Proof. destruct b; [apply keeps_ret|apply keeps_fail]. Qed.

Lemma keeps_get {A} (g : kernel -> option A) e :
  keeps P (fun k => match g k with Some x => Ok (x, k) | None => Err e end).
Proof. intros k a k' Hk. destruct (g k); [|done]. by intros [= <- <-]. Qed.
End keeps.

(** Sleeping threads and their times are as in [k0]. *)
Definition calm (k0 k : kernel) : Prop :=
  sleeping_threads k = sleeping_threads k0 /\ ticks k = ticks k0 /\
  forall t th0 th, t ∈ sleeping_threads k0 -> threads k0 !! t = Some th0 -> threads k !! t = Some th ->
    thread_sleep_time th = thread_sleep_time th0.

Lemma calm_alter k0 t f : (forall th, thread_sleep_time (f th) = thread_sleep_time th) -> keeps (calm k0) (upd_thread t f).
Proof.
  intros Hf. apply keeps_modify. intros k (Hs&Htk&Ht). split_and!; [done|done|]. intros u th0 th Hu H0. cbn.
  destruct (decide (t = u)) as [->|]; [|rewrite lookup_alter_ne by done; by apply Ht].
  rewrite lookup_alter_eq. destruct (threads k !! u) as [x|] eqn:E; [|done]. intros [= <-]. rewrite Hf. by eapply Ht.
Qed.

Lemma calm_modify k0 f :
  (forall k, threads (f k) = threads k /\ sleeping_threads (f k) = sleeping_threads k /\ ticks (f k) = ticks k) ->
  keeps (calm k0) (modify f).
Proof.
  intros Hf. apply keeps_modify. intros k (Hs&Htk&Ht). destruct (Hf k) as (E1&E2&E3). unfold calm. by rewrite E1, E2, E3.
Qed.

Lemma calm_delete k0 t : keeps (calm k0) (modify (set_threads (delete t))).
Proof.
  apply keeps_modify. intros k (Hs&Htk&Ht). split_and!; [done|done|]. intros u th0 th Hu H0. cbn. rewrite lookup_delete_Some.
  intros [_ ?]. by eapply Ht.
Qed.

Lemma calm_insert k0 t th : threads k0 !! t = None -> keeps (calm k0) (modify (set_threads (<[t := th]>))).
Proof.
  intros Hn. apply keeps_modify. intros k (Hs&Htk&Ht). split_and!; [done|done|]. intros u th0 th' Hu H0. cbn.
  rewrite lookup_insert_ne by congruence. by apply Ht.
Qed.

Ltac calm :=
  repeat first
  [ progress intros
  | lazymatch goal with
    | |- keeps _ (bind _ _) => apply keeps_bind
    | |- keeps _ (ret _) => apply keeps_ret
    | |- keeps _ (fail _) => apply keeps_fail
    | |- keeps _ (gets _) => apply keeps_gets
    | |- keeps _ (assert _) => apply keeps_assert
    | |- keeps _ (get_thread _) => apply (keeps_get _ (fun k => threads k !! _))
    | |- keeps _ (get_sema _) => apply (keeps_get _ (fun k => semas k !! _))
    | |- keeps _ (get_holder _) => apply (keeps_get _ (fun k => holders k !! _))
    | |- keeps _ (get_cond _) => apply (keeps_get _ (fun k => conds k !! _))
    | |- keeps _ (upd_thread _ _) => apply calm_alter; done
    | |- keeps _ (modify (set_threads (delete _))) => apply calm_delete
    | |- keeps _ (modify (set_threads (<[_ := _]>))) => apply calm_insert; by auto
    | |- keeps _ (modify _) => apply calm_modify; done
    | |- keeps _ (match ?x with _ => _ end) => destruct x
    end
  | progress unfold push, intr_get_level, intr_context, intr_enable, intr_disable, intr_set_level, intr_yield_on_return,
      is_thread, running_thread, thread_current, next_thread_to_run, thread_schedule_tail, schedule, thread_block,
      thread_unblock, thread_yield, init_thread, DEBUG_thread_create_simulate_fail, sema_init, sema_try_down, sema_up,
      lock_held_by_current_thread, put_sema, put_holder, put_cond, timer_ticks ].

Lemma calm_schedule k0 : keeps (calm k0) schedule.
Proof. calm. Qed.

Lemma calm_block k0 : keeps (calm k0) thread_block.
Proof. calm. Qed.

Lemma calm_yield k0 : keeps (calm k0) thread_yield.
Proof. calm. Qed.

Definition is_sleep (f : frame) : bool := match f with FSleep _ | FSleepBlock => true | _ => false end.

Lemma calm_run k0 page f :
  is_sleep f = false -> (forall t, page = Some t -> threads k0 !! t = None) -> keeps (calm k0) (run page f).
Proof. intros Hf Hp. destruct f; try discriminate Hf; run_frame; calm. Qed.

(** ** The order of the list *)

Lemma insert_ext (f g : ptr -> ptr -> bool) x l :
  (forall a b, f a b = g a b) -> KListSort.insert_sorted f x l = KListSort.insert_sorted g x l.
Proof. intros E. induction l as [|y l IH]; simpl; [done|]. by rewrite E, IH. Qed.

Lemma sleep_time_stack k t f b u :
  sleep_time_of (set_intr_level b (set_threads (alter (set_stack f) t) k)) u = sleep_time_of k u.
Proof.
  unfold sleep_time_of. cbn. destruct (decide (t = u)) as [->|]; [|by rewrite lookup_alter_ne].
  rewrite lookup_alter_eq. by destruct (threads k !! u).
Qed.

Definition by_time (k : kernel) (a b : ptr) : Prop := sleep_time_of k a <= sleep_time_of k b.
Definition sleepers_sorted (k : kernel) : Prop := StronglySorted (by_time k) (sleeping_threads k).

Lemma by_time_nless k a b : by_time k a b <-> KListSort.nless (thread_sleep_time_comparator k) a b.
Proof. unfold by_time, KListSort.nless, thread_sleep_time_comparator. rewrite Z.ltb_ge. done. Qed.

#[export] Instance by_time_trans k : Transitive (by_time k).
Proof. intros a b c. unfold by_time. lia. Qed.

#[export] Instance comparator_asym k : KListSort.Asym (thread_sleep_time_comparator k).
Proof. intros a b. unfold thread_sleep_time_comparator. rewrite Z.ltb_lt, Z.ltb_ge. lia. Qed.

Lemma sorted_ext k k' l :
  (forall t, t ∈ l -> sleep_time_of k' t = sleep_time_of k t) ->
  StronglySorted (by_time k) l -> StronglySorted (by_time k') l.
Proof.
  intros He Hs. induction Hs as [|t l Hs IH Hf]; [constructor|]. constructor; [apply IH; set_solver|].
  rewrite Forall_forall in *. intros u Hu. unfold by_time. rewrite !He by set_solver. by apply Hf.
Qed.

Lemma sorted_insert k t l :
  StronglySorted (by_time k) l ->
  StronglySorted (by_time k) (KListSort.insert_sorted (thread_sleep_time_comparator k) t l).
Proof.
  intros Hs. apply Sorted_StronglySorted; [apply _|].
  assert (forall l, Sorted (by_time k) l <-> Sorted (KListSort.nless (thread_sleep_time_comparator k)) l) as Hiff.
  { intros l'. split; (induction 1 as [|? ? _ IH Hh]; [constructor|constructor; [done|]; destruct Hh; constructor; by apply by_time_nless]). }
  apply Hiff. apply KListSort.insert_sorted_sorted; [apply _|]. apply Hiff, StronglySorted_Sorted, Hs.
Qed.

(** A state that differs in nothing the list depends on. *)
Lemma calm_sorted k k' : kwf k' -> kwf k -> calm k k' -> sleepers_sorted k -> sleepers_sorted k'.
Proof.
  intros Hk' Hk (Hs&_&Ht) H. unfold sleepers_sorted in *. rewrite Hs. eapply sorted_ext; [|exact H].
  intros t Hin. unfold sleep_time_of.
  destruct (g_sleep _ (k_lists _ _ (proj2 Hk)) t Hin) as (th&_&_&E&_).
  destruct (g_sleep _ (k_lists _ _ (proj2 Hk')) t ltac:(by rewrite Hs)) as (th'&_&_&E'&_). rewrite E, E'. by eapply Ht.
Qed.

Lemma calm_refl k : calm k k.
Proof. split_and!; [done|done|]. intros. by simplify_eq. Qed.

Lemma calm_inside k f : calm k (set_in_external_intr f k).
Proof. split_and!; [done|done|]. cbn. intros. by simplify_eq. Qed.

(** [timer_sleep], its two parts. *)
Lemma sleep_state page k th st n k' :
  kwf k -> threads k !! current k = Some th -> stack th = FSleep n :: st -> exec page k = Ok (tt, k') ->
  k' = set_threads (<[current k := Thread (tid th) THREAD_RUNNING (priority th) (s32 (s64 (ticks k + n))) (pagedir th)
         (FSleepBlock :: st)]>) k.
Proof.
  intros Hk Hth Hst E. e_facts k th (FSleep n) st. cbn in Hlv.
  assert (wp (exec page) (fun _ x => x = set_threads (<[current k := Thread (tid th) THREAD_RUNNING (priority th)
     (s32 (s64 (ticks k + n))) (pagedir th) (FSleepBlock :: st)]>) k) k) as Hw.
  { eapply wp_exec; [done..|]. run_frame. unfold timer_ticks. k_go. kernel_eq. rewrite !insert_insert_eq.
    unfold set_stack, set_sleep. cbn. by rewrite Hrun. }
  unfold wp in Hw. by rewrite E in Hw.
Qed.

Lemma sleep_block_calm page k th st k' :
  kwf k -> threads k !! current k = Some th -> stack th = FSleepBlock :: st -> exec page k = Ok (tt, k') ->
  calm (set_sleeping_threads (KListSort.insert_sorted (thread_sleep_time_comparator k) (current k)) k) k'.
Proof.
  intros Hk Hth Hst E. e_facts k th FSleepBlock st. cbn in Hlv.
  unfold exec, bind, running_thread, gets, get_thread in E. rewrite Hth, Hst in E. cbn -[thread_block] in E.
  eapply calm_block; [|exact E]. split_and!; cbn; [|done|].
  - apply insert_ext. intros a b. unfold thread_sleep_time_comparator. f_equal; apply sleep_time_stack.
  - intros t th0 x _ H0 Hx. destruct (decide (current k = t)) as [<-|]; [|by simplify_map_eq].
    rewrite !lookup_alter_eq in Hx. by simplify_map_eq.
Qed.

(** ** Every step keeps the order *)

Lemma exec_sorted page k k' :
  kwf k -> (forall t, page = Some t -> t <> NULL /\ threads k !! t = None) ->
  exec page k = Ok (tt, k') -> sleepers_sorted k -> sleepers_sorted k'.
Proof.
  intros Hk Hpage E Hs. pose proof (exec_ok page k Hk Hpage) as Hk'. unfold wp in Hk'. rewrite E in Hk'.
  pose proof Hk as [[th Hth] _].
  destruct (t_current _ _ _ _ (kwf_cur k th Hk Hth) eq_refl) as [Hrun Hr].
  destruct (stack th) as [|f st] eqn:Hst; [done|].
  assert (current k ∉ sleeping_threads k) as Hns.
  { intros Hin. destruct (g_sleep _ (k_lists _ _ (proj2 Hk)) _ Hin) as (x&_&_&Hx&?&_). congruence. }
  destruct (is_sleep f) eqn:Ef.
  - destruct f; try discriminate Ef.
    + rewrite (sleep_state page k th st n k' Hk Hth Hst E) in *. eapply sorted_ext; [|exact Hs].
      intros t Ht. unfold sleep_time_of. cbn. rewrite lookup_insert_ne; [done|]. by intros <-.
    + pose proof (sleep_block_calm page k th st k' Hk Hth Hst E) as (Es&_&Et). cbn in Es.
      unfold sleepers_sorted. rewrite Es. eapply sorted_ext; [|apply sorted_insert, Hs].
      intros t Ht. unfold sleep_time_of.
      destruct (g_sleep _ (k_lists _ _ (proj2 Hk')) t) as (th'&_&_&E'&_); [by rewrite Es|]. rewrite E'.
      rewrite KListSort.insert_sorted_perm in Ht. apply elem_of_cons in Ht as [->|Ht].
      * rewrite Hth. apply (Et (current k)); [cbn; rewrite KListSort.insert_sorted_perm; set_solver|done|done].
      * destruct (g_sleep _ (k_lists _ _ (proj2 Hk)) t Ht) as (th0&_&_&E0&_). rewrite E0.
        apply (Et t); [cbn; rewrite KListSort.insert_sorted_perm; set_solver|done|done].
  - eapply calm_sorted; [done|exact Hk| |done].
    unfold exec, bind, running_thread, gets, get_thread in E. rewrite Hth, Hst in E. cbn -[run] in E.
    eapply (calm_run k page f); [done|intros t Ht; by apply Hpage| |exact E].
    eapply (calm_alter k (current k) (set_stack (fun _ => st))); [done|apply calm_refl|reflexivity].
Qed.

Lemma due_prefix k l : due k l = take (length (due k l)) l.
Proof. induction l as [|t l IH]; simpl; [done|]. destruct (_ <=? _); simpl; [by f_equal|done]. Qed.

(** The sleepers whose time has not come. *)
Lemma due_rest k l :
  StronglySorted (by_time k) l ->
  due k l = filter (fun t => sleep_time_of k t <= ticks k) l /\
  drop (length (due k l)) l = filter (fun t => ~ sleep_time_of k t <= ticks k) l.
Proof.
  induction 1 as [|t l Hs [IH1 IH2] Hf]; simpl; [done|]. rewrite !filter_cons.
  destruct (Z.leb_spec (sleep_time_of k t) (ticks k)) as [Hle|Hlt]; simpl.
  - rewrite !decide_True, decide_False by (done || tauto). by rewrite IH2, IH1.
  - rewrite decide_False, decide_True by lia. rewrite Forall_forall in Hf.
    assert (forall u, u ∈ l -> ~ sleep_time_of k u <= ticks k) as Hl by (intros u Hu; specialize (Hf u Hu); unfold by_time in Hf; lia).
    clear - Hl. split.
    + symmetry. by apply filter_none.
    + f_equal. symmetry. by apply filter_all.
Qed.

(** The thread structures after a wake-up. *)
Lemma woken_lookup (ts : list ptr) (m : gmap ptr thread) u :
  foldl (fun m t => alter (set_status THREAD_READY) t m) m ts !! u =
  (fun th => if bool_decide (u ∈ ts) then set_status THREAD_READY th else th) <$> m !! u.
Proof.
  revert m. induction ts as [|t ts IH]; intros m; simpl; [by destruct (m !! u)|]. rewrite IH.
  destruct (decide (t = u)) as [->|Hne].
  - rewrite lookup_alter_eq. destruct (m !! u) as [th|]; [|done]. simpl. f_equal.
    rewrite (bool_decide_true (u ∈ u :: ts)) by set_solver. by case_bool_decide.
  - rewrite lookup_alter_ne by done. destruct (m !! u) as [th|]; [|done]. simpl. f_equal.
    rewrite (bool_decide_ext (u ∈ t :: ts) (u ∈ ts)) by set_solver. done.
Qed.

Lemma woken_sleep_time k ts u : sleep_time_of (woken_all k ts) u = sleep_time_of k u.
Proof. unfold sleep_time_of. cbn. rewrite woken_lookup. destruct (threads k !! u); [|done]. simpl. by case_bool_decide. Qed.

Lemma wp_keeps {A} P (m : M kernel A) Q k : keeps P m -> P k -> wp m Q k -> wp m (fun a k' => Q a k' /\ P k') k.
Proof. intros Hm Hp. unfold wp. destruct (m k) as [[a k']|] eqn:E; [|done]. intros ?. split; [done|]. by eapply Hm. Qed.

(** The threads [ts] have been woken and are not put to sleep again. *)
Definition awake (a ts : list ptr) (k : kernel) : Prop :=
  all_list k = a /\ forall t th, t ∈ ts -> threads k !! t = Some th -> status th <> THREAD_BLOCKED.

Lemma awake_alter a ts t f :
  (forall th, status th <> THREAD_BLOCKED -> status (f th) <> THREAD_BLOCKED) -> keeps (awake a ts) (upd_thread t f).
Proof.
  intros Hf. apply keeps_modify. intros k [Ha Hs]. split; [done|]. intros u th Hu. cbn.
  destruct (decide (t = u)) as [->|]; [|rewrite lookup_alter_ne by done; by apply Hs].
  rewrite lookup_alter_eq. destruct (threads k !! u) as [x|] eqn:E; [|done]. intros [= <-]. eauto.
Qed.

Lemma awake_modify a ts f :
  (forall k, threads (f k) = threads k /\ all_list (f k) = all_list k) -> keeps (awake a ts) (modify f).
Proof. intros Hf. apply keeps_modify. intros k [Ha Hs]. destruct (Hf k) as [E1 E2]. unfold awake. by rewrite E1, E2. Qed.

Lemma awake_delete a ts t : keeps (awake a ts) (modify (set_threads (delete t))).
Proof.
  apply keeps_modify. intros k [Ha Hs]. split; [done|]. intros u th Hu. cbn. rewrite lookup_delete_Some. intros [_ ?]. eauto.
Qed.

Lemma awake_yield a ts : keeps (awake a ts) thread_yield.
Proof.
  unfold thread_yield, schedule, thread_schedule_tail, next_thread_to_run, thread_current, push, intr_disable.
  repeat first
  [ progress intros | apply keeps_bind | apply keeps_ret | apply keeps_gets | apply keeps_assert
  | apply (keeps_get _ (fun k => threads k !! _)) | apply awake_alter; done | apply awake_delete
  | apply awake_modify; done | case_match ].
Qed.

(** The state when the handler returns: [k1] is the state with the clock
    advanced; a switch at the end of the time slice does not concern the
    sleepers. *)
Lemma tick_state k :
  kwf k -> intr_level k = true ->
  wp timer_tick (fun _ k' => kwf k' /\ exists k1,
    threads k1 = threads k /\ sleeping_threads k1 = sleeping_threads k /\ ticks k1 = s64 (ticks k + 1) /\
    (calm (woken_all k1 (due k1 (sleeping_threads k1))) k' /\ awake (all_list k) (due k1 (sleeping_threads k1)) k')) k.
Proof.
  intros Hk Hlv. pose proof (g_intr _ (k_lists _ _ (proj2 Hk))) as He.
  unfold timer_tick. k_go. eapply wp_mono; [apply timer_interrupt_ok; [|done..]|].
  { eapply (kwf_irrel k); done. }
  intros [] k2 (Hk2&a&b&c&E2). set (k1 := counted a b c _) in E2. cbn zeta in E2. set (d := due k1 _) in E2.
  assert (intr_level k2 = false /\ in_external_intr k2 = true) as [Hl2 He2] by (rewrite E2; done).
  assert (calm (woken_all k1 d) (set_in_external_intr (fun _ => false) k2) /\
          awake (all_list k) d (set_in_external_intr (fun _ => false) k2)) as Hc.
  { split; [rewrite E2; apply calm_inside|]. rewrite E2. split; [done|]. intros t x Ht Hx. cbn in Hx.
    rewrite woken_lookup in Hx. destruct (threads k !! t); [|done]. simplify_eq/=. by rewrite bool_decide_true. }
  clear E2. k_go; [by rewrite Hl2|]. pose proof Hk2 as [[th Hth] _]. cbn in Hth.
  destruct (kwf_cur _ th Hk2 Hth) as [I1 I2 I3 I4 I5 I6 I7 I8 I9 I10 I12 I11].
  destruct (yield_on_return _); k_go.
  - assert (forall P, P (set_in_external_intr (fun _ => false) k2) -> keeps P (upd_thread (current k2) (set_stack (app [FIret]))) ->
      P (set_threads (fun _ => <[current k2 := set_stack (app [FIret]) th]> (threads k2)) (set_in_external_intr (fun _ => false) k2))) as Hpush.
    { intros P HP Hu. eapply Hu; [exact HP|]. unfold upd_thread, modify. f_equal. f_equal. kernel_eq.
      by rewrite (alter_some _ _ _ _ Hth). }
    eapply wp_mono; [eapply wp_keeps; [apply (awake_yield (all_list k) d)|exact (Hpush (awake (all_list k) d) (proj2 Hc) (awake_alter _ _ _ (set_stack (app [FIret])) (fun th H => H)))|];
      eapply wp_keeps; [apply (calm_yield (woken_all k1 d))|exact (Hpush (calm (woken_all k1 d)) (proj1 Hc) (calm_alter _ _ (set_stack (app [FIret])) (fun th => eq_refl)))|]|].
    + eapply (wp_thread_yield (outside k2) _ th (FIret :: stack th) false Hk2 Hth); try done.
      * by kernel_eq.
      * cbn. by apply I2.
      * by constructor.
    + intros [] k' [[[? _] ?] ?]. split; [done|]. by exists k1.
  - split; [eapply (kwf_irrel (outside k2)); done|]. by exists k1.
Qed.

(** What a tick does to the sleeping threads. *)
Lemma tick_facts k k' :
  kwf k -> sleepers_sorted k -> intr_level k = true -> timer_tick k = Ok (tt, k') ->
  let now := s64 (ticks k + 1) in
  ticks k' = now /\ kwf k' /\ sleepers_sorted k' /\
  sleeping_threads k' = filter (fun t => ~ sleep_time_of k t <= now) (sleeping_threads k) /\
  (forall t, t ∈ sleeping_threads k' -> sleep_time_of k' t = sleep_time_of k t) /\
  (forall t, t ∈ sleeping_threads k -> sleep_time_of k t <= now -> exists th, threads k' !! t = Some th /\
     (status th = THREAD_READY \/ status th = THREAD_RUNNING)).
Proof.
  intros Hk Hs Hlv E now. pose proof (tick_state k Hk Hlv) as Hw. unfold wp in Hw. rewrite E in Hw.
  destruct Hw as (Hk'&k1&Et&Esl&Eti&(Esl'&Eti'&Htm)&(Ea&Haw)).
  assert (forall u, sleep_time_of k1 u = sleep_time_of k u) as Est by (intros u; unfold sleep_time_of; by rewrite Et).
  destruct (due_rest k1 (sleeping_threads k1)) as [Hd Hr].
  { rewrite Esl. eapply sorted_ext; [|exact Hs]. intros; apply Est. }
  assert (sleeping_threads k' = filter (fun t => ~ sleep_time_of k t <= now) (sleeping_threads k)) as Hsl.
  { rewrite Esl'. cbn. rewrite Hr, Esl, Eti. apply list_filter_iff. intros u. by rewrite Est. }
  assert (forall t, t ∈ sleeping_threads k' -> sleep_time_of k' t = sleep_time_of k t) as Htime.
  { intros t Ht. pose proof Ht as Ht'. rewrite Hsl in Ht'. apply list_elem_of_filter in Ht' as [_ Hin].
    destruct (g_sleep _ (k_lists _ _ (proj2 Hk)) t Hin) as (th0&_&_&E0&_).
    destruct (g_sleep _ (k_lists _ _ (proj2 Hk')) t Ht) as (th'&_&_&E'&_).
    unfold sleep_time_of. rewrite E0, E'. rewrite Esl' in Ht.
    rewrite (Htm t _ th' Ht ltac:(cbn; rewrite woken_lookup, Et, E0; reflexivity) E'). cbn. by case_bool_decide. }
  split_and!; [by rewrite Eti'|done| |done|done|].
  - eapply sorted_ext; [exact Htime|]. rewrite Hsl. clear - Hs. induction Hs as [|t l Hl IH Hf]; [constructor|].
    rewrite filter_cons. case_decide; [|done]. constructor; [done|]. rewrite Forall_forall in *.
    intros u Hu. apply list_elem_of_filter in Hu as [_ ?]. auto.
  - intros t Hin Hle. destruct (g_sleep _ (k_lists _ _ (proj2 Hk)) t Hin) as (th0&_&_&E0&Hb&_).
    assert (t ∈ all_list k') as Hall.
    { rewrite Ea. apply (t_all _ _ _ _ (k_threads _ _ (proj2 Hk) _ _ E0)). by rewrite Hb. }
    destruct (g_all _ (k_lists _ _ (proj2 Hk')) t Hall) as [th Hth]. exists th. split; [done|].
    apply (t_all _ _ _ _ (k_threads _ _ (proj2 Hk') _ _ Hth)) in Hall.
    specialize (Haw t th). rewrite Hd, list_elem_of_filter, Esl, Est, Eti in Haw. specialize (Haw (conj Hle Hin) Hth).
    destruct (status th); auto; done.
Qed.

Lemma step_sorted k k' : kwf k -> sleepers_sorted k -> step k k' -> sleepers_sorted k'.
Proof.
  intros Hk Hs Hst. pose proof (step_kwf k k' Hk Hst) as Hk'. destruct Hst as [page k' Hp E|k' Hl E|f k' _ _ E|p v k' _ _ _ E|l k' _ _ E|c k' _ _ E].
  - exact (exec_sorted page k k' Hk Hp E Hs).
  - by destruct (tick_facts k k' Hk Hs Hl E) as (_&_&?&_).
  - eapply calm_sorted; [done|exact Hk| |done]. eapply (calm_alter k); [|apply calm_refl|exact E]. done.
  - injection E as <-. exact Hs.
  - injection E as <-. exact Hs.
  - injection E as <-. exact Hs.
Qed.

End SchedSleep.
