(* ===== verification/SchedProps.v ===== *)
(** * Properties of the thread system

    The statements about threads/thread.c, threads/synch.c and devices/timer.c,
    for every state the kernel reaches after [boot]: whatever the threads do,
    within the rules of [may_call], and whenever the timer interrupts them. *)

From S2P Require Import Prelude.
From S2P Require Import KListSort.
From S2P Require Import Sched.
From S2P Require Import SchedInv.
From S2P Require Import SchedStep.
From S2P Require Import SchedWake.
From S2P Require Import SchedBoot.
From S2P Require Import SchedSleep.
Import Sched SchedInv SchedStep SchedWake SchedBoot SchedSleep.
Local Open Scope Z_scope.

Module SchedProps.

(** The addresses of the first two threads, and the limit the option -tcl
    sets: not 1, which would make the creation of the idle thread fail. *)
Record boots (main idle limit : Z) : Prop := {
  b_main : main <> NULL;
  b_idle : idle <> NULL;
  b_ne : main <> idle;
  b_limit : 0 <= limit < 2 ^ 31;
  b_limit1 : limit <> 1 }.

(** A state of the running system. *)
Definition started (main idle limit : Z) (k : kernel) : Prop :=
  exists k0, boot idle (kernel0 main limit) = Ok (tt, k0) /\ reachable k0 k.

Lemma wp_result {S} (m : M S unit) (Q : unit -> S -> Prop) s : wp m Q s -> exists s', m s = Ok (tt, s') /\ Q tt s'.
Proof. unfold wp. destruct (m s) as [[[] s']|]; [|done]. eauto. Qed.

Lemma boots_ok main idle limit :
  boots main idle limit -> boot idle (kernel0 main limit) = Ok (tt, booted main idle limit).
Proof. intros []. by destruct (wp_result _ _ _ (boot_ok main idle limit ltac:(done) ltac:(done) ltac:(done) ltac:(done) ltac:(done))) as (k&?&->). Qed.

Lemma started_inv main idle limit k :
  boots main idle limit -> started main idle limit k -> kwf k /\ sleepers_sorted k.
Proof.
  intros Hb (k0&E&Hr). rewrite (boots_ok _ _ _ Hb) in E. injection E as <-. induction Hr as [|k k' Hr [IH1 IH2] Hs].
  - destruct Hb. split; [by apply booted_kwf|constructor].
  - split; [by eapply step_kwf|by eapply step_sorted].
Qed.

(** ** Safety *)

(** C1. No assertion of the thread system fails and no pointer it follows is
    invalid: the system starts, and in every state it reaches the running
    thread can take its next step, whatever page the allocator returns, and a
    timer interrupt can be handled whenever interrupts are on. *)
Theorem kernel_never_panics main idle limit :
  boots main idle limit ->
  (exists k0, boot idle (kernel0 main limit) = Ok (tt, k0)) /\
  forall k, started main idle limit k ->
    (forall page, (forall t, page = Some t -> t <> NULL /\ threads k !! t = None) -> exists k', exec page k = Ok (tt, k')) /\
    (intr_level k = true -> exists k', timer_tick k = Ok (tt, k')).
Proof.
  intros Hb. split; [eexists; by apply boots_ok|]. intros k Hk. destruct (started_inv _ _ _ _ Hb Hk) as [Hwf _]. split.
  - intros page Hp. destruct (wp_result _ _ _ (exec_ok page k Hwf Hp)) as (k'&?&_). eauto.
  - intros Hl. destruct (wp_result _ _ _ (timer_tick_ok k Hwf Hl)) as (k'&?&_). eauto.
Qed.

Definition boots_4096 : boots 4096 8192 0.
Proof. split; lia. Qed.

Lemma kernel_never_panics_witness :
  boots 4096 8192 0 /\ exists k0, boot 8192 (kernel0 4096 0) = Ok (tt, k0).
Proof. split; [exact boots_4096|]. exact (proj1 (kernel_never_panics 4096 8192 0 boots_4096)). Defined.

(** C10. The thread states and the lists agree in every state the kernel
    reaches: exactly the current thread is running; a thread other than the
    idle thread is ready exactly when it is in the run queue; the list of all
    threads holds the threads that are not dying; no list has a thread twice;
    a thread that sleeps or waits is blocked, and it is in one list only. *)
Theorem thread_lists_consistent main idle limit k :
  boots main idle limit -> started main idle limit k ->
  (forall t th, threads k !! t = Some th ->
     (status th = THREAD_RUNNING <-> t = current k) /\
     (t <> idle_thread k -> status th = THREAD_READY <-> t ∈ ready_list k) /\
     (t ∈ all_list k <-> status th <> THREAD_DYING)) /\
  NoDup (ready_list k) /\ NoDup (all_list k) /\ NoDup (sleeping_threads k) /\
  (forall s sm, semas k !! s = Some sm -> NoDup (waiters sm)) /\
  (forall t, t ∈ sleeping_threads k \/ (exists s sm, semas k !! s = Some sm /\ t ∈ waiters sm) ->
     exists th, threads k !! t = Some th /\ status th = THREAD_BLOCKED) /\
  (forall t s sm, semas k !! s = Some sm -> t ∈ waiters sm -> t ∉ sleeping_threads k /\
     forall s' sm', semas k !! s' = Some sm' -> t ∈ waiters sm' -> s' = s).
Proof.
  intros Hb Hst. destruct (started_inv _ _ _ _ Hb Hst) as [Hk _]. pose proof Hk as [_ [Ht Hl _]].
  pose proof Hl as [G1 G2 G3 G4 G5 G6 G7 G8 G9 G10 G11 G12 G13].
  split_and!; try done.
  - intros t th Hth. pose proof (Ht t th Hth) as [I1 I2 I3 I4 I5 I6 I7 I8 I9 I10 I12 I11]. split_and!; [|split|done].
    + split; [intros E; by injection (I1 E)|]. intros ->. by apply I2.
    + intros E. by destruct (I3 E) as [_ [?|?]].
    + intros E. destruct (G1 t E) as [_ (x&?&?)]. by simplify_eq.
  - intros s sm Hs. by destruct (G3 s sm Hs) as (_&?&_).
  - intros t [Hin|(s&sm&Hs&Hin)].
    + destruct (G4 t Hin) as (th&_&_&?&?&_). eauto.
    + destruct (G3 s sm Hs) as (_&_&Hbl). destruct (Hbl t Hin) as (th&_&_&?&?&_). eauto.
  - intros t s sm Hs Hin. destruct (G3 s sm Hs) as (_&_&Hbl). destruct (Hbl t Hin) as (th&g&st&Hth&_&Hg&[b ->]). split.
    + intros Hsl. destruct (G4 t Hsl) as (x&g'&st'&?&_&?&<-). simplify_eq. congruence.
    + intros s' sm' Hs' Hin'. destruct (G3 s' sm' Hs') as (_&_&Hbl'). destruct (Hbl' t Hin') as (x&g'&st'&?&_&?&[b' ->]).
      simplify_eq. congruence.
Qed.

Lemma started_boot : started 4096 8192 0 (booted 4096 8192 0).
Proof. exists (booted 4096 8192 0). split; [exact (boots_ok _ _ _ boots_4096)|constructor]. Defined.

Lemma thread_lists_consistent_witness :
  started 4096 8192 0 (booted 4096 8192 0) /\ NoDup (all_list (booted 4096 8192 0)).
Proof.
  split; [exact started_boot|].
  exact (proj1 (proj2 (proj2 (thread_lists_consistent 4096 8192 0 _ boots_4096 started_boot)))).
Defined.

(** ** Locks *)

(** Thread [t] has lock [l]: it is the holder, or it is between taking the
    lock's semaphore and becoming the holder, or between giving up being the
    holder and raising the semaphore. *)
Definition has_lock (k : kernel) (l t : ptr) : Prop :=
  (holders k !! l = Some t /\ t <> NULL) \/ 1 <= weight l (stk k t).

Lemma has_lock_share k l t : kwf k -> has_lock k l t <-> 1 <= share k l t.
Proof.
  intros Hk. unfold has_lock, share, holds.
  assert (0 <= weight l (stk k t)) as Hw.
  { unfold stk. destruct (threads k !! t) as [th|] eqn:E; [|done].
    apply downs_weight, (t_downs _ _ _ _ (k_threads _ _ (proj2 Hk) _ _ E)). }
  destruct (holders k !! l) as [h|]; [destruct (Z.eqb_spec h t) as [->|], (Z.eqb_spec t NULL) as [->|]|]; simpl;
    split; intros H; try lia; naive_solver lia.
Qed.

(** C6. Locks exclude: in every state the kernel reaches, the semaphore of a
    lock has the value 1 and no thread has the lock, or it has the value 0 and
    exactly one thread has it. *)
Theorem lock_mutual_exclusion main idle limit k l :
  boots main idle limit -> started main idle limit k -> is_Some (holders k !! l) ->
  exists sm, semas k !! SLock l = Some sm /\
    ((value sm = 1 /\ forall t, ~ has_lock k l t) \/
     (value sm = 0 /\ exists t, has_lock k l t /\ forall u, has_lock k l u -> u = t)).
Proof.
  intros Hb Hst Hl. destruct (started_inv _ _ _ _ Hb Hst) as [Hk _].
  destruct (k_locks _ _ (proj2 Hk) l Hl) as (sm&Hsm&Hp). exists sm. split; [done|].
  destruct Hp as [[? Hall]|(?&o&Ho&Hoth)]; [left|right]; (split; [done|]).
  - intros t Ht%has_lock_share; [|done]. rewrite Hall in Ht. lia.
  - exists o. split; [apply has_lock_share; [done|lia]|]. intros u Hu%has_lock_share; [|done].
    destruct (decide (u = o)) as [|Hne]; [done|]. rewrite Hoth in Hu by done. lia.
Qed.

Lemma lock_mutual_exclusion_witness :
  is_Some (holders (booted 4096 8192 0) !! tid_lock) /\
  exists sm, semas (booted 4096 8192 0) !! SLock tid_lock = Some sm /\
    ((value sm = 1 /\ forall t, ~ has_lock (booted 4096 8192 0) tid_lock t) \/
     (value sm = 0 /\ exists t, has_lock (booted 4096 8192 0) tid_lock t /\
        forall u, has_lock (booted 4096 8192 0) tid_lock u -> u = t)).
Proof.
  split; [by eexists|]. refine (lock_mutual_exclusion 4096 8192 0 _ tid_lock boots_4096 started_boot _). by eexists.
Defined.

(** ** The timer *)

(** C13. The timer interrupt advances the clock by one tick, takes exactly the
    threads whose wake-up time has come from the list of sleeping threads and
    makes them runnable, and leaves the others asleep, in order of their
    times. *)
Theorem timer_wakes_due main idle limit k :
  boots main idle limit -> started main idle limit k -> intr_level k = true ->
  exists k', timer_tick k = Ok (tt, k') /\
    let now := s64 (ticks k + 1) in
    ticks k' = now /\
    sleeping_threads k' = filter (fun t => now < sleep_time_of k t) (sleeping_threads k) /\
    (forall t, t ∈ sleeping_threads k -> sleep_time_of k t <= now ->
       exists th, threads k' !! t = Some th /\ (status th = THREAD_READY \/ status th = THREAD_RUNNING)) /\
    (forall t, t ∈ sleeping_threads k' -> sleep_time_of k' t = sleep_time_of k t) /\
    StronglySorted (fun a b => sleep_time_of k' a <= sleep_time_of k' b) (sleeping_threads k').
Proof.
  intros Hb Hst Hl. destruct (started_inv _ _ _ _ Hb Hst) as [Hk Hs].
  destruct (wp_result _ _ _ (timer_tick_ok k Hk Hl)) as (k'&E&_). exists k'. split; [done|].
  destruct (tick_facts k k' Hk Hs Hl E) as (?&_&?&Hsl&?&?). cbn zeta. split_and!; try done.
  rewrite Hsl. apply list_filter_iff. intros t. lia.
Qed.

(** The states in which the initial thread has called [timer_sleep (5)] and
    then stored its wake-up time. *)
Definition sleep_call : kernel :=
  match push [FSleep 5] (booted 4096 8192 0) with Ok (_, k) => k | Err _ => booted 4096 8192 0 end.
Definition sleep_stored : kernel := match exec None sleep_call with Ok (_, k) => k | Err _ => sleep_call end.
Definition asleep : kernel := match exec None sleep_stored with Ok (_, k) => k | Err _ => sleep_stored end.
Definition asleep_idle : kernel := match exec None asleep with Ok (_, k) => k | Err _ => asleep end.

Lemma started_exec main idle limit k k' :
  started main idle limit k -> exec None k = Ok (tt, k') -> started main idle limit k'.
Proof. intros (k0&E&Hr) Ex. exists k0. split; [done|]. eapply reach_step; [exact Hr|]. by eapply (step_exec _ None). Qed.

Lemma started_call main idle limit k f k' :
  started main idle limit k -> top_is k FBody -> may_call k f -> push [f] k = Ok (tt, k') -> started main idle limit k'.
Proof. intros (k0&E&Hr) Ht Hc Ex. exists k0. split; [done|]. eapply reach_step; [exact Hr|]. by eapply step_call. Qed.

Lemma started_sleep :
  started 4096 8192 0 sleep_call /\ started 4096 8192 0 sleep_stored /\ started 4096 8192 0 asleep_idle.
Proof.
  assert (started 4096 8192 0 sleep_call) as H1.
  { eapply started_call; [exact started_boot| |exact (I : may_call _ (FSleep 5))|vm_compute; reflexivity].
    eexists _, _. split; vm_compute; reflexivity. }
  assert (started 4096 8192 0 sleep_stored) as H2.
  { apply (started_exec _ _ _ sleep_call); [exact H1|vm_compute; reflexivity]. }
  assert (started 4096 8192 0 asleep) as H3.
  { apply (started_exec _ _ _ sleep_stored); [exact H2|vm_compute; reflexivity]. }
  split; [exact H1|]. split; [exact H2|]. apply (started_exec _ _ _ asleep); [exact H3|vm_compute; reflexivity].
Qed.

Lemma timer_wakes_due_witness :
  intr_level asleep_idle = true /\ sleeping_threads asleep_idle = [4096] /\
  exists k', timer_tick asleep_idle = Ok (tt, k') /\ ticks k' = 1 /\ sleeping_threads k' = [4096].
Proof.
  assert (intr_level asleep_idle = true) as Hl by (vm_compute; reflexivity).
  split; [exact Hl|]. split; [vm_compute; reflexivity|].
  destruct (timer_wakes_due 4096 8192 0 asleep_idle boots_4096 (proj2 (proj2 started_sleep)) Hl) as (k'&E&E1&E2&_).
  exists k'. split; [exact E|]. split; [rewrite E1; vm_compute; reflexivity|rewrite E2; vm_compute; reflexivity].
Defined.

(** C26. [timer_sleep n] stores the wake-up time [ticks + n], exactly as long as
    it fits the 32-bit field, then puts the thread into the list of sleeping
    threads at the place its time calls for and gives up the processor: the
    thread is blocked until a tick wakes it. *)
Theorem timer_sleep_correct main idle limit k th st page :
  boots main idle limit -> started main idle limit k -> threads k !! current k = Some th ->
  (forall t, page = Some t -> t <> NULL /\ threads k !! t = None) ->
  (forall n, stack th = FSleep n :: st -> exists k' th', exec page k = Ok (tt, k') /\
     threads k' !! current k = Some th' /\ current k' = current k /\ stack th' = FSleepBlock :: st /\
     (in_s 32 (ticks k + n) -> thread_sleep_time th' = ticks k + n)) /\
  (stack th = FSleepBlock :: st -> exists k' th', exec page k = Ok (tt, k') /\
     threads k' !! current k = Some th' /\ status th' = THREAD_BLOCKED /\ current k' <> current k /\
     thread_sleep_time th' = thread_sleep_time th /\ stack th' = FEnable :: tl (stack th') /\
     sleeping_threads k' = KListSort.insert_sorted (thread_sleep_time_comparator k) (current k) (sleeping_threads k)).
Proof.
  intros Hb Hst Hth Hp. destruct (started_inv _ _ _ _ Hb Hst) as [Hk Hs].
  destruct (wp_result _ _ _ (exec_ok page k Hk Hp)) as (k'&E&Hk'). split.
  - intros n Hf. pose proof (sleep_state page k th st n k' Hk Hth Hf E) as E'. exists k'. eexists.
    split_and!; [done|rewrite E'; cbn; by rewrite lookup_insert_eq|by rewrite E'|done|]. intros Hn. cbn.
    rewrite (wraps_small 64), (wraps_small 32); [done|lia|done|lia|]. unfold in_s in *. lia.
  - intros Hf. destruct (sleep_block_calm page k th st k' Hk Hth Hf E) as (Es&_&Et). cbn in Es.
    assert (current k ∈ sleeping_threads k') as Hin by (rewrite Es, KListSort.insert_sorted_perm; set_solver).
    destruct (g_sleep _ (k_lists _ _ (proj2 Hk')) _ Hin) as (th'&g&st'&Hth'&Hbl&Hg&<-). exists k', th'.
    split_and!; try done.
    + intros Ec. rewrite <- Ec in Hth'. pose proof (kwf_status k' th' Hk' Hth'). congruence.
    + apply (Et (current k)); [cbn; by rewrite <- Es|done|done].
    + by rewrite Hg.
Qed.

Lemma timer_sleep_correct_witness :
  exists k' th', exec None sleep_call = Ok (tt, k') /\ threads k' !! 4096 = Some th' /\ thread_sleep_time th' = 5.
Proof.
  assert (exists th, threads sleep_call !! current sleep_call = Some th /\ stack th = FSleep 5 :: [FBody; FExit]) as (th&Hth&Hs)
    by (eexists; split; vm_compute; reflexivity).
  destruct (proj1 (timer_sleep_correct 4096 8192 0 sleep_call th [FBody; FExit] None boots_4096 (proj1 started_sleep) Hth
    ltac:(intros t Ht; discriminate Ht)) 5 Hs) as (k'&th'&E&Ht&_&_&Hn).
  exists k', th'. split; [exact E|]. split; [exact Ht|]. rewrite Hn; [reflexivity|]. split; vm_compute; congruence.
Defined.

(** ** Semaphores and the run queue *)

(** [sema_up]: the first waiting thread becomes ready, the value grows. *)
Lemma sema_up_state page k th st s sm :
  kwf k -> threads k !! current k = Some th -> stack th = FSemaUp s :: st -> semas k !! s = Some sm ->
  wp (exec page) (fun _ k' => semas k' = <[s := Sema (u32 (value sm + 1)) (tl (waiters sm))]> (semas k) /\
    ready_list k' = ready_list k ++ take 1 (waiters sm) /\ current k' = current k) k.
Proof.
  intros Hk Hth Hst Hsm. e_facts k th (FSemaUp s) st. cbn in Hlv.
  pose proof (g_wait _ (k_lists _ _ (proj2 Hk)) _ _ Hsm) as (_&_&Hbl).
  eapply wp_exec; [done..|]. run_frame. unfold sema_up. k_go.
  destruct (waiters sm) as [|t ws] eqn:Ew; k_go; cbn.
  - rewrite Ew. split_and!; [done|by rewrite app_nil_r|done].
  - destruct (Hbl t ltac:(set_solver)) as (tht&g&stt&Ht&Hb&_).
    eapply wp_thread_unblock; [cbn; rewrite lookup_insert_ne; [done|congruence]|done|done|]. k_go. cbn.
    split_and!; [by rewrite insert_insert_eq|done|done].
Qed.

(** [sema_down] when the value is positive. *)
Lemma sema_take_state page k th st s b sm :
  kwf k -> threads k !! current k = Some th -> stack th = FDownLoop s b :: st -> semas k !! s = Some sm -> value sm <> 0 ->
  wp (exec page) (fun _ k' => semas k' = <[s := Sema (value sm - 1) (waiters sm)]> (semas k) /\
    ready_list k' = ready_list k /\ current k' = current k) k.
Proof.
  intros Hk Hth Hst Hsm Hv. e_facts k th (FDownLoop s b) st. cbn in Hlv.
  pose proof (g_wait _ (k_lists _ _ (proj2 Hk)) _ _ Hsm) as ([Hv0 Hv1]&_).
  eapply wp_exec; [done..|]. run_frame. apply wp_bind. eapply wp_get_sema; [done|].
  rewrite (proj2 (Z.eqb_neq _ _) Hv). k_go. rewrite wrapu_small in * by (unfold in_u; lia). done.
Qed.

(** A semaphore never goes below zero and serves its waiting threads in
    the order they came.  Down with a positive value takes one and goes on; with
    the value zero the thread is blocked at the end of the waiting threads and
    another runs.  Up adds one and puts the thread that waited longest, if any
    waits, at the end of the run queue, without giving up the processor. *)
Theorem semaphore_correct main idle limit k th st s sm page :
  boots main idle limit -> started main idle limit k -> threads k !! current k = Some th ->
  (forall t, page = Some t -> t <> NULL /\ threads k !! t = None) -> semas k !! s = Some sm ->
  0 <= value sm /\
  (stack th = FSemaUp s :: st -> exists k', exec page k = Ok (tt, k') /\
     semas k' = <[s := Sema (u32 (value sm + 1)) (tl (waiters sm))]> (semas k) /\
     ready_list k' = ready_list k ++ take 1 (waiters sm) /\ current k' = current k) /\
  (forall b, stack th = FDownLoop s b :: st -> exists k', exec page k = Ok (tt, k') /\
     if value sm =? 0
     then semas k' = <[s := Sema 0 (waiters sm ++ [current k])]> (semas k) /\ current k' <> current k /\
          exists th', threads k' !! current k = Some th' /\ status th' = THREAD_BLOCKED
     else semas k' = <[s := Sema (value sm - 1) (waiters sm)]> (semas k) /\
          ready_list k' = ready_list k /\ current k' = current k).
Proof.
  intros Hb Hst Hth Hp Hsm. destruct (started_inv _ _ _ _ Hb Hst) as [Hk Hs].
  split; [by destruct (g_wait _ (k_lists _ _ (proj2 Hk)) _ _ Hsm) as ([? ?]&_)|]. split.
  - intros Hf. exact (wp_result _ _ _ (sema_up_state page k th st s sm Hk Hth Hf Hsm)).
  - intros b Hf. destruct (Z.eqb_spec (value sm) 0) as [E|E].
    + destruct (wp_result _ _ _ (exec_down_block page k th _ st Hk Hth Hf s b sm eq_refl Hsm E)) as (k'&Ex&Hk'&_&Hse).
      exists k'. split; [done|]. cbn in Hse. split; [done|].
      destruct (g_wait _ (k_lists _ _ (proj2 Hk')) s (Sema 0 (waiters sm ++ [current k]))) as (_&_&Hbl).
      { rewrite Hse. by rewrite lookup_insert_eq. }
      destruct (Hbl (current k)) as (th'&_&_&Hth'&Hb'&_); [cbn; set_solver|]. split; [|eauto].
      intros Ec. rewrite <- Ec in Hth'. pose proof (kwf_status k' th' Hk' Hth'). congruence.
    + exact (wp_result _ _ _ (sema_take_state page k th st s b sm Hk Hth Hf Hsm E)).
Qed.

(** The state in which the initial thread is about to raise the semaphore it
    waited on during start-up. *)
Definition up_call : kernel :=
  match push [FSemaUp idle_started_sema] (booted 4096 8192 0) with Ok (_, k) => k | Err _ => booted 4096 8192 0 end.

Lemma started_up : started 4096 8192 0 up_call.
Proof.
  eapply (started_call _ _ _ _ (FSemaUp idle_started_sema)); [exact started_boot| | |vm_compute; reflexivity].
  - eexists _, _. split; vm_compute; reflexivity.
  - by eexists.
Qed.

Lemma semaphore_correct_witness :
  exists k', exec None up_call = Ok (tt, k') /\ semas k' !! idle_started_sema = Some (Sema 1 []).
Proof.
  assert (exists th, threads up_call !! current up_call = Some th /\ stack th = FSemaUp idle_started_sema :: [FBody; FExit]) as (th&Hth&Hs)
    by (eexists; split; vm_compute; reflexivity).
  destruct (proj1 (proj2 (semaphore_correct 4096 8192 0 up_call th [FBody; FExit] idle_started_sema (Sema 0 []) None boots_4096 started_up Hth
    ltac:(intros t Ht; discriminate Ht) ltac:(vm_compute; reflexivity))) Hs) as (k'&E&Es&_).
  exists k'. split; [exact E|]. rewrite Es. reflexivity.
Defined.

(** The scheduler is round robin: a thread that yields goes to the end of
    the run queue, and the thread at its front runs next; the idle thread is
    not queued and runs only when the queue is empty. *)
Theorem yield_round_robin main idle limit k th st page :
  boots main idle limit -> started main idle limit k -> threads k !! current k = Some th ->
  (forall t, page = Some t -> t <> NULL /\ threads k !! t = None) -> stack th = FYield :: st ->
  exists k', exec page k = Ok (tt, k') /\
    match ready_list k ++ (if current k =? idle_thread k then [] else [current k]) with
    | [] => current k' = idle_thread k /\ ready_list k' = []
    | t :: r => current k' = t /\ ready_list k' = r
    end.
Proof.
  intros Hb Hst Hth Hp Hf. destruct (started_inv _ _ _ _ Hb Hst) as [Hk Hs].
  destruct (wp_result _ _ _ (exec_yield page k th _ st Hk Hth Hf eq_refl)) as (k'&E&_&Hpick&_).
  exists k'. split; [done|]. cbn in Hpick. by destruct (current k =? idle_thread k); [rewrite app_nil_r|].
Qed.

Definition yield_call : kernel :=
  match push [FYield] (booted 4096 8192 0) with Ok (_, k) => k | Err _ => booted 4096 8192 0 end.

Lemma started_yield : started 4096 8192 0 yield_call.
Proof.
  eapply (started_call _ _ _ _ FYield); [exact started_boot| |exact I|vm_compute; reflexivity].
  eexists _, _. split; vm_compute; reflexivity.
Qed.

Lemma yield_round_robin_witness : exists k', exec None yield_call = Ok (tt, k') /\ current k' = 4096.
Proof.
  assert (exists th, threads yield_call !! current yield_call = Some th /\ stack th = FYield :: [FBody; FExit]) as (th&Hth&Hs)
    by (eexists; split; vm_compute; reflexivity).
  destruct (yield_round_robin 4096 8192 0 yield_call th [FBody; FExit] None boots_4096 started_yield Hth
    ltac:(intros t Ht; discriminate Ht) Hs) as (k'&E&E1&_).
  exists k'. split; [exact E|exact E1].
Defined.

End SchedProps.
