(* ===== verification/Hash.v ===== *)
(** * Hash tables: lib/kernel/hash.c

    A table has an array of buckets, each a list of elements.  The lists are
    sequences of element addresses, which [KListSpec] proves the pointer code
    of list.c implements.  The hash function and the comparison are the
    caller's; whether [malloc] finds memory for a new array of buckets is an
    argument of the routines that may ask for one. *)

From S2P Require Import Prelude.
From S2P Require Import Mem.
Local Open Scope Z_scope.

Module Hash.
Import Mem.

Record hash := Tbl { elem_cnt : Z; bucket_cnt : Z; buckets : list (list ptr) }.

Abbreviation MIN_ELEMS_PER_BUCKET := 1.
Abbreviation BEST_ELEMS_PER_BUCKET := 2.

Definition set_cnt (f : Z -> Z) (h : hash) : hash := Tbl (f (elem_cnt h)) (bucket_cnt h) (buckets h).
Definition set_buckets (bs : list (list ptr)) (h : hash) : hash := Tbl (elem_cnt h) (bucket_cnt h) bs.

(** ** The code *)

Section code.
Context (hash_func : ptr -> Z) (less : ptr -> ptr -> bool).

(** A bucket is its index in the array; using one outside it is an error. *)
Definition get_bucket (i : Z) : M hash (list ptr) :=
  fun h => if i <? 0 then Err EFault else
    match buckets h !! Z.to_nat i with Some b => Ok (b, h) | None => Err EFault end.
Definition put_bucket (i : Z) (b : list ptr) : M hash unit :=
  modify (fun h => set_buckets (<[Z.to_nat i := b]> (buckets h)) h).

Definition find_bucket (e : ptr) : M hash Z :=
  gets (fun h => Z.land (hash_func e) (u32 (bucket_cnt h - 1))).

(** The loop of [find_elem]. *)
Fixpoint find_loop (b : list ptr) (e : ptr) : option ptr :=
  match b with
  | [] => None
  | hi :: b' => if negb (less hi e) && negb (less e hi) then Some hi else find_loop b' e
  end.

Definition find_elem (bucket : Z) (e : ptr) : M hash (option ptr) :=
  let! b := get_bucket bucket in ret (find_loop b e).

Definition turn_off_least_1bit (x : Z) : Z := Z.land x (u32 (x - 1)).
Definition is_power_of_2 (x : Z) : bool := negb (x =? 0) && (turn_off_least_1bit x =? 0).

(** The loop of [rehash] that finds the number of buckets. *)
Fixpoint round_loop (fuel : nat) (n : Z) : res Z :=
  match fuel with
  | O => Err EFuel
  | S f => if is_power_of_2 n then Ok n else round_loop f (turn_off_least_1bit n)
  end.

Definition list_push_front (bucket : Z) (e : ptr) : M hash unit :=
  let! b := get_bucket bucket in put_bucket bucket (e :: b).

(** [list_remove] takes the element out of the list it is in. *)
Definition list_remove (e : ptr) : M hash unit :=
  modify (fun h => set_buckets (map (filter (fun x => x <> e)) (buckets h)) h).

(** The elements of one old bucket move to their new buckets. *)
Fixpoint move_bucket (old_bucket : list ptr) : M hash unit :=
  match old_bucket with
  | [] => ret tt
  | elem :: next =>
      let! new_bucket := find_bucket elem in
      do! list_push_front new_bucket elem in
      move_bucket next
  end.
Fixpoint move_buckets (old_buckets : list (list ptr)) : M hash unit :=
  match old_buckets with
  | [] => ret tt
  | b :: rest => do! move_bucket b in move_buckets rest
  end.

Definition rehash (malloc_ok : bool) : M hash unit :=
  let! old_buckets := gets buckets in
  let! old_bucket_cnt := gets bucket_cnt in
  let! cnt := gets elem_cnt in
  let n := cnt / BEST_ELEMS_PER_BUCKET in
  let n := if n <? 4 then 4 else n in
  let! new_bucket_cnt := lift_res (round_loop 33 n) in
  if new_bucket_cnt =? old_bucket_cnt then ret tt
  else if negb malloc_ok then ret tt
  else
    do! modify (fun h => Tbl (elem_cnt h) new_bucket_cnt (replicate (Z.to_nat new_bucket_cnt) [])) in
    move_buckets old_buckets.

Definition insert_elem (bucket : Z) (e : ptr) : M hash unit :=
  do! modify (set_cnt (fun n => u32 (n + 1))) in
  list_push_front bucket e.

Definition remove_elem (e : ptr) : M hash unit :=
  do! modify (set_cnt (fun n => u32 (n - 1))) in
  list_remove e.

Definition hash_insert (malloc_ok : bool) (new : ptr) : M hash (option ptr) :=
  let! bucket := find_bucket new in
  let! old := find_elem bucket new in
  do! (match old with None => insert_elem bucket new | Some _ => ret tt end) in
  do! rehash malloc_ok in
  ret old.

Definition hash_replace (malloc_ok : bool) (new : ptr) : M hash (option ptr) :=
  let! bucket := find_bucket new in
  let! old := find_elem bucket new in
  do! (match old with Some o => remove_elem o | None => ret tt end) in
  do! insert_elem bucket new in
  do! rehash malloc_ok in
  ret old.

Definition hash_find (e : ptr) : M hash (option ptr) :=
  let! bucket := find_bucket e in find_elem bucket e.

Definition hash_delete (malloc_ok : bool) (e : ptr) : M hash (option ptr) :=
  let! bucket := find_bucket e in
  let! found := find_elem bucket e in
  match found with
  | None => ret found
  | Some f => do! remove_elem f in do! rehash malloc_ok in ret found
  end.

Definition hash_size : M hash Z := gets elem_cnt.
Definition hash_empty : M hash bool := gets (fun h => elem_cnt h =? 0).

(** [hash_clear]; the result is the sequence of calls of the destructor. *)
Fixpoint clear_loop (destructor : bool) (n : nat) (i : Z) : M hash (list ptr) :=
  match n with
  | O => ret []
  | S n' =>
      let! b := get_bucket i in
      do! put_bucket i [] in
      let! rest := clear_loop destructor n' (i + 1) in
      ret ((if destructor then b else []) ++ rest)
  end.
Definition hash_clear (destructor : bool) : M hash (list ptr) :=
  let! n := gets bucket_cnt in
  let! calls := clear_loop destructor (Z.to_nat n) 0 in
  do! modify (set_cnt (fun _ => 0)) in
  ret calls.

(** The array of buckets is freed. *)
Definition hash_destroy (destructor : bool) : M hash (list ptr) :=
  let! calls := (if destructor then hash_clear true else ret []) in
  do! modify (set_buckets []) in
  ret calls.

(** [None] when there is no memory for the buckets; their contents before
    [hash_clear] are whatever [malloc] returns. *)
Definition hash_init (storage : option (list (list ptr))) : res (option hash) :=
  match storage with
  | None => Ok None
  | Some bs => rbind (hash_clear false (Tbl 0 4 bs)) (fun '(_, h) => Ok (Some h))
  end.

(** [hash_apply]; the result is the sequence of calls of the action. *)
Fixpoint apply_loop (n : nat) (i : Z) : M hash (list ptr) :=
  match n with
  | O => ret []
  | S n' =>
      let! b := get_bucket i in
      let! rest := apply_loop n' (i + 1) in
      ret (b ++ rest)
  end.
Definition hash_apply : M hash (list ptr) :=
  let! n := gets bucket_cnt in apply_loop (Z.to_nat n) 0.

(** ** Iterators

    [i->elem] is the head of a bucket, an element, the tail of a bucket or
    null. *)

Inductive pos := Head | Elem (e : ptr) | Tail | Null.
Record hash_iterator := It { bucket : Z; elem : pos }.

(** [list_begin] and [list_next] in a bucket. *)
Definition list_begin (b : list ptr) : pos := match b with [] => Tail | e :: _ => Elem e end.
Fixpoint after (b : list ptr) (e : ptr) : res pos :=
  match b with
  | [] => Err EFault
  | x :: b' => if x =? e then Ok (list_begin b') else after b' e
  end.
Definition list_next (b : list ptr) (p : pos) : res pos :=
  match p with
  | Head => Ok (list_begin b)
  | Elem e => after b e
  | Tail => Err EPanic
  | Null => Err EFault
  end.

Definition hash_first : hash_iterator := It 0 Head.

(** The loop of [hash_next] over the buckets left. *)
Fixpoint next_loop (fuel : nat) (bucket : Z) (elem : pos) : M hash hash_iterator :=
  match elem with
  | Tail =>
      match fuel with
      | O => fail EFuel
      | S f =>
          let! n := gets bucket_cnt in
          if n <=? bucket + 1 then ret (It (bucket + 1) Null)
          else
            let! b := get_bucket (bucket + 1) in
            next_loop f (bucket + 1) (list_begin b)
      end
  | _ => ret (It bucket elem)
  end.

Definition hash_cur (i : hash_iterator) : option ptr := match elem i with Elem e => Some e | _ => None end.

Definition hash_next (i : hash_iterator) : M hash (option ptr * hash_iterator) :=
  let! b := get_bucket (bucket i) in
  let! e := lift_res (list_next b (elem i)) in
  let! n := gets bucket_cnt in
  let! i' := next_loop (S (Z.to_nat n)) (bucket i) e in
  ret (hash_cur i', i').

(** The iteration idiom: all elements until [hash_next] returns null. *)
Fixpoint iterate (fuel : nat) (i : hash_iterator) : M hash (list ptr) :=
  match fuel with
  | O => fail EFuel
  | S f =>
      let! r := hash_next i in
      match r with
      | (None, _) => ret []
      | (Some e, i') => let! rest := iterate f i' in ret (e :: rest)
      end
  end.
End code.

(** Fowler-Noll-Vo *)
Abbreviation FNV_32_PRIME := 16777619.
Abbreviation FNV_32_BASIS := 2166136261.

Definition fnv_step (hash b : Z) : Z := Z.lxor (u32 (hash * FNV_32_PRIME)) b.

Fixpoint bytes_loop (size : nat) (buf : ptr) (hash : Z) : M mem Z :=
  match size with
  | O => ret hash
  | S n => let! b := load buf in bytes_loop n (buf + 1) (fnv_step hash b)
  end.
Definition hash_bytes (buf : ptr) (size : Z) : M mem Z :=
  do! assert (negb (buf =? NULL)) in bytes_loop (Z.to_nat size) buf FNV_32_BASIS.

Fixpoint string_loop (fuel : nat) (s : ptr) (hash : Z) : M mem Z :=
  match fuel with
  | O => fail EFuel
  | S f => let! b := load s in if b =? 0 then ret hash else string_loop f (s + 1) (fnv_step hash b)
  end.
Definition hash_string (s : ptr) : M mem Z :=
  do! assert (negb (s =? NULL)) in
  let! m := get in
  string_loop (fuel_of m) s FNV_32_BASIS.

(** [i] is in memory at [p]. *)
Definition hash_int (p : ptr) : M mem Z := hash_bytes p 4.

End Hash.
