(* ===== verification/HashSpec.v ===== *)
(** * Correctness of the hash tables

    A table is a set of elements, no two of which are equal under the caller's
    comparison.  Every operation acts on that set as its comment says, whether
    or not memory for more buckets can be had; the number of buckets is a power
    of two that follows the number of elements; iteration yields every element
    once. *)

From S2P Require Import Prelude.
From S2P Require Import Mem.
From S2P Require Import Hash.
Local Open Scope Z_scope.

Module HashSpec.
Import Mem Hash.

(** ** Powers of two *)

Lemma off_divide y j : 0 < y -> 0 <= j -> (2 ^ j | y) -> (2 ^ (j + 1) | Z.land y (y - 1)).
Proof.
  intros Hy Hj [z Hz]. apply Z.mod_divide; [lia|]. apply Z.bits_inj'. intros n Hn. rewrite Z.bits_0.
  destruct (decide (n < j + 1)) as [Hlt|]; [|by rewrite Z.mod_pow2_bits_high by lia].
  rewrite Z.mod_pow2_bits_low, Z.land_spec by lia.
  destruct (decide (n < j)) as [|].
  { subst y. by rewrite Z.mul_pow2_bits_low by lia. }
  assert (n = j) as -> by lia. destruct (Z.Even_or_Odd z) as [[w ->]|[w ->]].
  - subst y. by rewrite Z.mul_pow2_bits by lia; rewrite Z.sub_diag, Z.testbit_even_0.
  - apply andb_false_iff. right. subst y.
    replace ((2 * w + 1) * 2 ^ j - 1) with ((2 ^ j - 1) + (2 * w) * 2 ^ j) by lia.
    rewrite Z.testbit_odd, Z.shiftr_div_pow2, Z.div_add by lia.
    rewrite Z.div_small by lia. by rewrite Z.add_0_l, Z.odd_mul.
Qed.

Lemma bits_small a k n : 0 <= a < 2 ^ k -> 0 <= k <= n -> Z.testbit a n = false.
Proof.
  intros Ha Hn. destruct (decide (a = 0)) as [->|]; [apply Z.testbit_0_l|].
  apply Z.bits_above_log2; [lia|]. apply Z.log2_lt_pow2; [lia|]. apply Z.lt_le_trans with (2 ^ k); [lia|].
  apply Z.pow_le_mono_r; lia.
Qed.

Lemma top_or k a : 0 <= k -> 0 <= a < 2 ^ k -> 2 ^ k + a = Z.lor (2 ^ k) a.
Proof.
  intros Hk Ha. apply Z.add_nocarry_lor. apply Z.bits_inj'. intros n Hn. rewrite Z.land_spec, Z.bits_0.
  destruct (decide (n = k)) as [->|]; [rewrite (bits_small a k k) by lia; apply andb_false_r|].
  by rewrite Z.pow2_bits_false by lia.
Qed.

Lemma top_land k a b :
  0 <= k -> 0 <= a < 2 ^ k -> 0 <= b < 2 ^ k ->
  Z.land (2 ^ k + a) (2 ^ k + b) = 2 ^ k + Z.land a b /\ 0 <= Z.land a b < 2 ^ k.
Proof.
  intros Hk Ha Hb. assert (0 <= Z.land a b < 2 ^ k) as Hab.
  { split; [apply Z.land_nonneg; lia|]. apply Z.le_lt_trans with a; [|lia].
    apply Z.ldiff_le; [lia|]. apply Z.bits_inj'. intros n Hn. rewrite Z.ldiff_spec, Z.land_spec, Z.bits_0.
    by destruct (Z.testbit a n), (Z.testbit b n). }
  split; [|done]. rewrite !top_or by lia. apply Z.bits_inj'. intros n Hn.
  rewrite !Z.lor_spec, !Z.land_spec, !Z.lor_spec. by destruct (Z.testbit (2 ^ k) n).
Qed.

(** One round of the loop clears the lowest bit of the part [y] below the top
    bit, if any is left. *)
Lemma off_top k y : 0 <= k < 32 -> 0 < y < 2 ^ k -> turn_off_least_1bit (2 ^ k + y) = 2 ^ k + Z.land y (y - 1).
Proof.
  intros Hk Hy. unfold turn_off_least_1bit. rewrite wrapu_small.
  - replace (2 ^ k + y - 1) with (2 ^ k + (y - 1)) by lia. apply top_land; lia.
  - assert (2 ^ k <= 2 ^ 31) by (apply Z.pow_le_mono_r; lia). unfold in_u. lia.
Qed.

Lemma off_pow2 k : 0 <= k < 32 -> turn_off_least_1bit (2 ^ k) = 0.
Proof.
  intros Hk. assert (2 ^ k <= 2 ^ 31) by (apply Z.pow_le_mono_r; lia). assert (0 < 2 ^ k) by lia.
  unfold turn_off_least_1bit. rewrite wrapu_small by (unfold in_u; lia).
  apply Z.bits_inj'. intros n Hn. rewrite Z.land_spec, Z.bits_0. destruct (decide (n = k)) as [->|].
  - rewrite (bits_small (2 ^ k - 1) k k) by lia. apply andb_false_r.
  - by rewrite Z.pow2_bits_false by lia.
Qed.

Lemma round_loop_ok fuel j k y :
  0 <= j <= k -> k < 32 -> 0 <= y < 2 ^ k -> (2 ^ j | y) -> (Z.to_nat (k - j) < fuel)%nat ->
  round_loop fuel (2 ^ k + y) = Ok (2 ^ k).
Proof.
  revert j y. induction fuel as [|fuel IH]; intros j y Hj Hk Hy Hdiv Hf; [lia|]. cbn [round_loop].
  assert (0 < 2 ^ k) by lia. unfold is_power_of_2. rewrite (proj2 (Z.eqb_neq (2 ^ k + y) 0)) by lia. cbn [negb andb].
  destruct (decide (y = 0)) as [->|Hy0].
  { rewrite Z.add_0_r, off_pow2 by lia. done. }
  destruct (top_land k y (y - 1)) as [_ Hr]; [lia..|].
  rewrite off_top by lia. rewrite (proj2 (Z.eqb_neq _ 0)) by lia.
  assert (j < k) as Hjk.
  { destruct (decide (j = k)) as [->|]; [|lia]. apply Z.divide_pos_le in Hdiv; lia. }
  apply (IH (j + 1)); [lia|done|done|apply off_divide; [lia|lia|done]|lia].
Qed.

(** The number of buckets [rehash] aims at. *)
Lemma round_loop_log2 n : 0 < n < 2 ^ 32 -> round_loop 33 n = Ok (2 ^ Z.log2 n).
Proof.
  intros Hn. pose proof (Z.log2_spec n ltac:(lia)) as [Hl Hu]. pose proof (Z.log2_nonneg n).
  assert (Z.log2 n < 32) by (apply Z.log2_lt_pow2; lia). rewrite Z.pow_succ_r in Hu by lia.
  replace n with (2 ^ Z.log2 n + (n - 2 ^ Z.log2 n)) at 1 by lia.
  apply (round_loop_ok 33 0); [lia|lia|lia|apply Z.divide_1_l|lia].
Qed.

Definition ideal (cnt : Z) : Z := 2 ^ Z.log2 (Z.max 4 (cnt / BEST_ELEMS_PER_BUCKET)).

Lemma ideal_pow cnt : 0 <= cnt < 2 ^ 32 -> exists k, 2 <= k < 32 /\ ideal cnt = 2 ^ k.
Proof.
  intros Hc. exists (Z.log2 (Z.max 4 (cnt / 2))). split; [|done].
  assert (0 <= cnt / 2 < 2 ^ 31) by zlia. split.
  - apply (Z.log2_le_mono 4). lia.
  - apply Z.log2_lt_pow2; lia.
Qed.

(** ** The invariant *)

Definition eqv (less : ptr -> ptr -> bool) (a b : ptr) : bool := negb (less a b) && negb (less b a).

(** What the caller's functions must satisfy: the hash is a 32-bit number, to
    be neither less nor greater is an equivalence, and equivalent elements have
    the same hash. *)
Class Hashable (hash_func : ptr -> Z) (less : ptr -> ptr -> bool) : Prop := {
  hash_range : forall e, in_u 32 (hash_func e);
  eqv_equiv :: Equivalence (fun a b => eqv less a b = true);
  eqv_hash : forall a b, eqv less a b = true -> hash_func a = hash_func b }.

Definition elems (h : hash) : list ptr := concat (buckets h).

(** Where an element belongs among [n] buckets. *)
Definition home (hash_func : ptr -> Z) (n : Z) (e : ptr) : Z := hash_func e mod n.

Record placed (hash_func : ptr -> Z) (h : hash) : Prop := {
  p_pow : exists k, 2 <= k < 32 /\ bucket_cnt h = 2 ^ k;
  p_len : Z.of_nat (length (buckets h)) = bucket_cnt h;
  p_home : forall i b e, buckets h !! i = Some b -> e ∈ b -> home hash_func (bucket_cnt h) e = Z.of_nat i }.

Record distinct (less : ptr -> ptr -> bool) (l : list ptr) : Prop := {
  d_nodup : NoDup l;
  d_eqv : forall a b, a ∈ l -> b ∈ l -> eqv less a b = true -> a = b }.

Record wf (hash_func : ptr -> Z) (less : ptr -> ptr -> bool) (h : hash) : Prop := {
  w_placed : placed hash_func h;
  w_cnt : elem_cnt h = Z.of_nat (length (elems h));
  w_max : elem_cnt h < 2 ^ 32;
  w_distinct : distinct less (elems h) }.

#[export] Instance distinct_proper less : Proper ((≡ₚ) ==> iff) (distinct less).
Proof.
  enough (forall l l', l ≡ₚ l' -> distinct less l -> distinct less l') by (intros l l' E; split; apply H; [|symmetry]; done).
  intros l l' E [H1 H2]. split; [by rewrite <- E|]. intros a b. rewrite <- !E. apply H2.
Qed.

Section buckets.
Implicit Types (bs : list (list ptr)) (b : list ptr) (e x : ptr).

Lemma concat_elem bs e : e ∈ concat bs <-> exists i b, bs !! i = Some b /\ e ∈ b.
Proof.
  rewrite list_elem_of_In, in_concat. setoid_rewrite <- list_elem_of_In. split.
  - intros (b&Hb&He). apply list_elem_of_lookup in Hb as [i Hi]. eauto.
  - intros (i&b&Hi&He). exists b. split; [|done]. by eapply list_elem_of_lookup_2.
Qed.

Lemma concat_push bs i b e : bs !! i = Some b -> concat (<[i := e :: b]> bs) ≡ₚ e :: concat bs.
Proof.
  revert i. induction bs as [|b' bs IH]; intros [|i] Hi; [done..| |]; simpl in *.
  - by simplify_eq.
  - rewrite (IH i Hi). by rewrite Permutation_middle.
Qed.

Lemma concat_filter bs e : concat (map (filter (fun x => x <> e)) bs) = filter (fun x => x <> e) (concat bs).
Proof. induction bs as [|b bs IH]; simpl; [done|]. by rewrite filter_app, IH. Qed.

Lemma concat_replicate n : concat (replicate n ([] : list ptr)) = [].
Proof. by induction n. Qed.
End buckets.

Section ops.
Context (hash_func : ptr -> Z) (less : ptr -> ptr -> bool) `{!Hashable hash_func less}.
Implicit Types (h : hash) (e x : ptr).

Abbreviation placed := (placed hash_func).
Abbreviation wf := (wf hash_func less).
Abbreviation home := (home hash_func).

Lemma eqv_refl a : eqv less a a = true.
Proof. apply (reflexivity (R := fun a b => eqv less a b = true)). Qed.
Lemma eqv_sym a b : eqv less a b = true -> eqv less b a = true.
Proof. apply (symmetry (R := fun a b => eqv less a b = true)). Qed.
Lemma eqv_trans a b c : eqv less a b = true -> eqv less b c = true -> eqv less a c = true.
Proof. apply (transitivity (R := fun a b => eqv less a b = true)). Qed.

Lemma pow_bounds h : placed h -> 4 <= bucket_cnt h < 2 ^ 32.
Proof.
  intros [(k&Hk&->) _ _]. split; [apply (Z.pow_le_mono_r 2 2); lia|apply Z.pow_lt_mono_r; lia].
Qed.

Lemma home_range h e : placed h -> 0 <= home (bucket_cnt h) e < bucket_cnt h.
Proof. intros Hp. pose proof (pow_bounds h Hp). apply Z.mod_pos_bound. lia. Qed.

Lemma find_bucket_ok Q h e : placed h -> Q (home (bucket_cnt h) e) h -> wp (find_bucket hash_func e) Q h.
Proof.
  intros Hp HQ. pose proof (pow_bounds h Hp). apply wp_gets. rewrite wrapu_small by (unfold in_u; lia).
  destruct (p_pow _ _ Hp) as (k&Hk&E). unfold home in HQ. rewrite E in *.
  replace (2 ^ k - 1) with (Z.ones k) by (rewrite Z.ones_equiv; lia). by rewrite Z.land_ones by lia.
Qed.

Lemma get_bucket_ok Q h i :
  placed h -> 0 <= i < bucket_cnt h -> (forall b, buckets h !! Z.to_nat i = Some b -> Q b h) -> wp (get_bucket i) Q h.
Proof.
  intros Hp Hi HQ. unfold wp, get_bucket. rewrite (proj2 (Z.ltb_ge _ _)) by lia.
  destruct (lookup_lt_is_Some_2 (buckets h) (Z.to_nat i)) as [b Hb]; [rewrite <- (p_len _ _ Hp) in Hi; lia|].
  rewrite Hb. by apply HQ.
Qed.

(** What a search in the table returns. *)
Definition found (l : list ptr) (e : ptr) (r : option ptr) : Prop :=
  match r with
  | Some x => x ∈ l /\ eqv less x e = true
  | None => forall x, x ∈ l -> eqv less x e = false
  end.

Lemma find_loop_found b e : found b e (find_loop less b e).
Proof.
  induction b as [|x b IH]; simpl; [set_solver|]. destruct (_ && _) eqn:E; simpl.
  - split; [set_solver|done].
  - destruct (find_loop less b e) as [y|]; simpl in *; [set_solver|]. intros y [->|?]%elem_of_cons; auto.
Qed.

Lemma find_elem_ok h e :
  placed h -> wp (find_elem less (home (bucket_cnt h) e) e) (fun r h' => h' = h /\ found (elems h) e r) h.
Proof.
  intros Hp. unfold find_elem. apply wp_bind, get_bucket_ok; [done|by apply home_range|]. intros b Hb. apply wp_ret.
  split; [done|]. pose proof (find_loop_found b e) as Hf. destruct (find_loop less b e) as [x|]; simpl in *.
  - destruct Hf. split; [|done]. apply concat_elem. eauto.
  - intros x Hx. destruct (eqv less x e) eqn:E; [|done]. rewrite <- (Hf x); [done|].
    apply concat_elem in Hx as (i&b'&Hi&Hx). pose proof (p_home _ _ Hp i b' x Hi Hx) as Hh.
    unfold home, HashSpec.home in *. rewrite (eqv_hash x e E) in Hh. rewrite Hh, Nat2Z.id in Hb. by simplify_eq.
Qed.

(** An element goes to its bucket. *)
Lemma push_ok Q h e :
  placed h ->
  (forall h', placed h' -> bucket_cnt h' = bucket_cnt h -> elem_cnt h' = elem_cnt h -> elems h' ≡ₚ e :: elems h -> Q tt h') ->
  wp (list_push_front (home (bucket_cnt h) e) e) Q h.
Proof.
  intros Hp HQ. unfold list_push_front. pose proof (home_range h e Hp) as Hr.
  apply wp_bind, get_bucket_ok; [done|done|]. intros b Hb. apply wp_modify.
  apply HQ; [|done|done|by apply concat_push]. destruct Hp as [P1 P2 P3]. split; cbn.
  - done.
  - by rewrite length_insert.
  - intros i b' x Hi Hx. apply list_lookup_insert_Some in Hi as [(<-&<-&_)|[_ Hi]]; [|by eapply P3].
    apply elem_of_cons in Hx as [->|Hx]; [|by eapply P3]. lia.
Qed.

Lemma move_bucket_ok l h :
  placed h ->
  wp (move_bucket hash_func l) (fun _ h' => placed h' /\ bucket_cnt h' = bucket_cnt h /\ elem_cnt h' = elem_cnt h /\
    elems h' ≡ₚ l ++ elems h) h.
Proof.
  revert h. induction l as [|e l IH]; intros h Hp; cbn [move_bucket]; [by apply wp_ret|].
  apply wp_bind, find_bucket_ok; [done|]. apply wp_bind, push_ok; [done|]. intros h1 Hp1 E1 E2 E3.
  eapply wp_mono; [by apply IH|]. intros [] h2 (?&?&?&E4). split_and!; [done|congruence|congruence|].
  rewrite E4, E3. simpl. by rewrite Permutation_middle.
Qed.

Lemma move_buckets_ok bs h :
  placed h ->
  wp (move_buckets hash_func bs) (fun _ h' => placed h' /\ bucket_cnt h' = bucket_cnt h /\ elem_cnt h' = elem_cnt h /\
    elems h' ≡ₚ concat bs ++ elems h) h.
Proof.
  revert h. induction bs as [|b bs IH]; intros h Hp; cbn [move_buckets concat]; [by apply wp_ret|].
  apply wp_bind. eapply wp_mono; [by apply move_bucket_ok|]. intros [] h1 (Hp1&E1&E2&E3).
  eapply wp_mono; [by apply IH|]. intros [] h2 (?&?&?&E4). split_and!; [done|congruence|congruence|].
  rewrite E4, E3, !app_assoc. by rewrite (Permutation_app_comm (concat bs) b).
Qed.

Lemma wf_perm h h' :
  wf h -> placed h' -> elem_cnt h' = elem_cnt h -> elems h' ≡ₚ elems h -> wf h'.
Proof.
  intros [W1 W2 W3 W4] Hp E1 E2. split; [done|by rewrite E1, W2, E2|by rewrite E1|by rewrite E2].
Qed.

Lemma rehash_ok ok h :
  wf h -> wp (rehash hash_func ok) (fun _ h' => wf h' /\ elems h' ≡ₚ elems h /\
    (if ok then bucket_cnt h' = ideal (elem_cnt h) else bucket_cnt h' = bucket_cnt h)) h.
Proof.
  intros Hw. pose proof Hw as [Hp W2 W3 W4]. unfold rehash. wp_go. apply wp_lift.
  assert (0 <= elem_cnt h) by lia.
  assert ((if elem_cnt h / 2 <? 4 then 4 else elem_cnt h / 2) = Z.max 4 (elem_cnt h / 2)) as ->
    by (destruct (Z.ltb_spec (elem_cnt h / 2) 4); lia).
  assert (elem_cnt h / 2 < 2 ^ 32) by zlia.
  exists (ideal (elem_cnt h)). split; [apply round_loop_log2; lia|].
  destruct (Z.eqb_spec (ideal (elem_cnt h)) (bucket_cnt h)) as [E|E]; [apply wp_ret; by destruct ok|].
  destruct ok; cbn [negb]; [|by apply wp_ret]. wp_go.
  destruct (ideal_pow (elem_cnt h)) as (k&Hk&Ek); [lia|].
  eapply wp_mono; [apply move_buckets_ok|].
  - split; cbn; [eauto| |].
    + rewrite length_replicate, Ek, Z2Nat.id by lia. done.
    + intros i b e Hi He. apply lookup_replicate in Hi as [-> _]. by apply elem_of_nil in He.
  - intros [] h' (Hp'&E1&E2&E3). unfold elems in E3 at 2. cbn in E1, E2, E3. rewrite concat_replicate, app_nil_r in E3.
    split_and!; [by eapply wf_perm|done|done].
Qed.

Lemma insert_elem_ok Q h e :
  wf h -> found (elems h) e None -> elem_cnt h + 1 < 2 ^ 32 ->
  (forall h', wf h' -> bucket_cnt h' = bucket_cnt h -> elems h' ≡ₚ e :: elems h -> Q tt h') ->
  wp (insert_elem (home (bucket_cnt h) e) e) Q h.
Proof.
  intros [Hp W2 W3 [D1 D2]] Hf Hmax HQ. unfold insert_elem. wp_go.
  pose proof (eqv_refl e) as Hrefl.
  apply (push_ok Q (set_cnt (fun n => u32 (n + 1)) h) e); [destruct Hp; by split|]. intros h' Hp' E1 E2 E3.
  change (elems (set_cnt _ h)) with (elems h) in E3. cbn in E1, E2. apply HQ; [|done|done]. rewrite wrapu_small in E2 by (unfold in_u; lia). split.
  - done.
  - rewrite E2, E3. simpl. lia.
  - lia.
  - rewrite E3. split.
    + apply NoDup_cons. split; [|done]. intros Hin. specialize (Hf e Hin). congruence.
    + intros a b [->|Ha]%elem_of_cons [->|Hb]%elem_of_cons He; [done| | |by apply D2].
      * specialize (Hf b Hb). apply eqv_sym in He. congruence.
      * specialize (Hf a Ha). congruence.
Qed.

Lemma remove_elem_ok Q h x :
  wf h -> x ∈ elems h ->
  (forall h', wf h' -> bucket_cnt h' = bucket_cnt h -> elems h' = filter (fun y => y <> x) (elems h) -> Q tt h') ->
  wp (remove_elem x) Q h.
Proof.
  intros [[P1 P2 P3] W2 W3 [D1 D2]] Hx HQ. unfold remove_elem, list_remove. wp_go.
  assert (x :: filter (fun y => y <> x) (elems h) ≡ₚ elems h) as Hperm.
  { apply elem_of_Permutation in Hx as [l Hl]. rewrite Hl in D1 |- *. apply NoDup_cons in D1 as [Hn _].
    rewrite filter_cons_False by tauto. constructor. rewrite (filter_all (fun y => y <> x)); [done|].
    intros y Hy ->. done. }
  assert (0 < elem_cnt h) by (rewrite W2, <- Hperm; simpl; lia).
  apply HQ; [|done|apply concat_filter]. split; unfold elems; cbn; rewrite ?concat_filter; fold (elems h).
  - split; cbn; [done|by rewrite length_map|]. intros i b e Hi He. rewrite list_lookup_fmap in Hi.
    destruct (buckets h !! i) as [b'|] eqn:E; [|done]. simplify_eq/=. apply list_elem_of_filter in He as [_ He]. eauto.
  - rewrite wrapu_small by (unfold in_u; lia). rewrite W2, <- Hperm at 1. simpl. lia.
  - rewrite wrapu_small by (unfold in_u; lia). lia.
  - split; [by apply NoDup_filter|]. intros a b. rewrite !list_elem_of_filter. intros [_ ?] [_ ?]. by apply D2.
Qed.

(** ** The operations, in terms of the elements *)

Lemma hash_find_ok h e : wf h -> wp (hash_find hash_func less e) (fun r h' => h' = h /\ found (elems h) e r) h.
Proof.
  intros Hw. unfold hash_find. apply wp_bind, find_bucket_ok; [apply Hw|]. by apply find_elem_ok, Hw.
Qed.

Lemma hash_insert_ok ok h e :
  wf h -> elem_cnt h + 1 < 2 ^ 32 ->
  wp (hash_insert hash_func less ok e) (fun r h' => wf h' /\ found (elems h) e r /\
    elems h' ≡ₚ match r with Some _ => elems h | None => e :: elems h end) h.
Proof.
  intros Hw Hmax. pose proof (w_placed _ _ _ Hw) as Hp. unfold hash_insert.
  apply wp_bind, find_bucket_ok; [done|]. apply wp_bind. eapply wp_mono; [by apply find_elem_ok|].
  intros r h0 [-> Hf]. apply wp_bind. destruct r as [x|].
  - apply wp_ret, wp_bind. eapply wp_mono; [by apply rehash_ok|]. intros [] h2 (?&?&_). by apply wp_ret.
  - apply insert_elem_ok; [done|done|done|]. intros h1 Hw1 E1 E2. apply wp_bind.
    eapply wp_mono; [by apply rehash_ok|]. intros [] h2 (?&E3&_). apply wp_ret. split_and!; [done|done|by rewrite E3].
Qed.

Lemma hash_replace_ok ok h e :
  wf h -> elem_cnt h + 1 < 2 ^ 32 ->
  wp (hash_replace hash_func less ok e) (fun r h' => wf h' /\ found (elems h) e r /\
    elems h' ≡ₚ e :: match r with Some x => filter (fun y => y <> x) (elems h) | None => elems h end) h.
Proof.
  intros Hw Hmax. pose proof (w_placed _ _ _ Hw) as Hp. unfold hash_replace.
  apply wp_bind, find_bucket_ok; [done|]. apply wp_bind. eapply wp_mono; [by apply find_elem_ok|].
  intros r h0 [-> Hf]. apply wp_bind.
  assert (forall h1, wf h1 -> bucket_cnt h1 = bucket_cnt h -> found (elems h1) e None -> elem_cnt h1 <= elem_cnt h ->
    wp (do! insert_elem (home (bucket_cnt h) e) e in do! rehash hash_func ok in ret r)
      (fun r' h' => r' = r /\ wf h' /\ elems h' ≡ₚ e :: elems h1) h1) as Hrest.
  { intros h1 Hw1 E1 Hf1 Hle. apply wp_bind. rewrite <- E1. apply insert_elem_ok; [done|done|lia|]. intros h2 Hw2 _ E2.
    apply wp_bind. eapply wp_mono; [by apply rehash_ok|]. intros [] h3 (?&E3&_). apply wp_ret. split_and!; [done|done|by rewrite E3]. }
  destruct r as [x|].
  - destruct Hf as [Hx He]. apply remove_elem_ok; [done|done|]. intros h1 Hw1 E1 E2.
    eapply wp_mono; [apply Hrest; [done|done|..]|].
    + rewrite E2. intros y Hy. apply list_elem_of_filter in Hy as [Hyx Hy]. destruct (eqv less y e) eqn:E; [|done].
      destruct Hyx. apply (d_eqv _ _ (w_distinct _ _ _ Hw)); [done|done|]. eapply eqv_trans; [exact E|by apply eqv_sym].
    + rewrite (w_cnt _ _ _ Hw1), (w_cnt _ _ _ Hw), E2. pose proof (length_filter (fun y => y <> x) (elems h)). lia.
    + intros r' h' (->&?&E3). split_and!; [done|done|by rewrite E3, E2].
  - apply wp_ret. eapply wp_mono; [by apply Hrest|]. intros r' h' (->&?&?). done.
Qed.

Lemma hash_delete_ok ok h e :
  wf h ->
  wp (hash_delete hash_func less ok e) (fun r h' => wf h' /\ found (elems h) e r /\
    elems h' ≡ₚ match r with Some x => filter (fun y => y <> x) (elems h) | None => elems h end) h.
Proof.
  intros Hw. pose proof (w_placed _ _ _ Hw) as Hp. unfold hash_delete.
  apply wp_bind, find_bucket_ok; [done|]. apply wp_bind. eapply wp_mono; [by apply find_elem_ok|].
  intros r h0 [-> Hf]. destruct r as [x|]; [|by apply wp_ret].
  apply wp_bind, remove_elem_ok; [done|apply Hf|]. intros h1 Hw1 E1 E2. apply wp_bind.
  eapply wp_mono; [by apply rehash_ok|]. intros [] h2 (?&E3&_). apply wp_ret. split_and!; [done|done|by rewrite E3, E2].
Qed.

(** ** Iteration *)

(** The iterator stands in a bucket, behind [l1]; [rest] is left to visit. *)
Definition cursor h (it : hash_iterator) (rest : list ptr) : Prop :=
  exists i l1 l2, bucket it = Z.of_nat i /\ buckets h !! i = Some (l1 ++ l2) /\
    ((l1 = [] /\ elem it = Head) \/ exists l0 x, l1 = l0 ++ [x] /\ elem it = Elem x) /\
    rest = l2 ++ concat (drop (S i) (buckets h)).

Lemma after_ok l0 x l2 : NoDup (l0 ++ x :: l2) -> after (l0 ++ x :: l2) x = Ok (list_begin l2).
Proof.
  induction l0 as [|y l0 IH]; simpl; intros Hn; [by rewrite Z.eqb_refl|].
  apply NoDup_cons in Hn as [Hy Hn]. rewrite (proj2 (Z.eqb_neq y x)) by set_solver. by apply IH.
Qed.

Lemma nodup_bucket h i b : NoDup (elems h) -> buckets h !! i = Some b -> NoDup b.
Proof.
  unfold elems. generalize (buckets h). intros bs. revert i. induction bs as [|b' bs IH]; intros [|i] Hn Hb; simpl in *; try done.
  - simplify_eq. by apply NoDup_app in Hn as [? _].
  - apply NoDup_app in Hn as (_&_&?). by eapply IH.
Qed.

Lemma next_loop_ok fuel h i l1 l2 :
  placed h -> buckets h !! i = Some (l1 ++ l2) -> (length (buckets h) - i <= fuel)%nat ->
  wp (next_loop fuel (Z.of_nat i) (list_begin l2)) (fun it h' => h' = h /\
    match l2 ++ concat (drop (S i) (buckets h)) with
    | [] => hash_cur it = None
    | x :: rest => elem it = Elem x /\ cursor h it rest
    end) h.
Proof.
  intros Hp. revert i l1 l2. induction fuel as [|fuel IH]; intros i l1 l2 Hi Hf.
  { apply lookup_lt_Some in Hi. lia. }
  destruct l2 as [|x l2]; cbn [list_begin next_loop].
  2:{ apply wp_ret. split; [done|]. cbn. split; [done|]. exists i, (l1 ++ [x]), l2. rewrite <- app_assoc.
      split_and!; [done|done|right; eauto|done]. }
  apply wp_bind, wp_gets. pose proof (p_len _ _ Hp) as Hl. cbn [app].
  destruct (Z.leb_spec (bucket_cnt h) (Z.of_nat i + 1)).
  - apply wp_ret. split; [done|]. rewrite drop_ge by lia. done.
  - apply wp_bind, get_bucket_ok; [done|lia|]. intros b Hb. replace (Z.to_nat (Z.of_nat i + 1)) with (S i) in Hb by lia.
    replace (Z.of_nat i + 1) with (Z.of_nat (S i)) by lia. rewrite (drop_S _ _ _ Hb). cbn [concat].
    apply (IH (S i) [] b); [done|lia].
Qed.

Lemma hash_next_ok h it rest :
  wf h -> cursor h it rest ->
  wp (hash_next it) (fun r h' => h' = h /\
    match rest with [] => r.1 = None | x :: rest' => r.1 = Some x /\ cursor h r.2 rest' end) h.
Proof.
  intros Hw (i&l1&l2&Hi&Hb&He&Hrest). pose proof (w_placed _ _ _ Hw) as Hp. pose proof (p_len _ _ Hp) as Hl.
  pose proof (lookup_lt_Some _ _ _ Hb). unfold hash_next. rewrite Hi. apply wp_bind, get_bucket_ok; [done|lia|].
  rewrite Nat2Z.id. intros b Hb'. simplify_eq.
  assert (list_next (l1 ++ l2) (elem it) = Ok (list_begin l2)) as En.
  { destruct He as [[-> ->]|(l0&x&->&->)]; [done|]. cbn. rewrite <- app_assoc. apply after_ok.
    pose proof (nodup_bucket h i _ (d_nodup _ _ (w_distinct _ _ _ Hw)) Hb) as Hn. by rewrite <- app_assoc in Hn. }
  apply wp_bind, wp_lift. exists (list_begin l2). split; [done|]. apply wp_bind, wp_gets, wp_bind.
  eapply wp_mono; [apply (next_loop_ok _ h i l1 l2); [done|done|lia]|]. intros it' h' [-> Hc]. apply wp_ret. split; [done|].
  destruct (l2 ++ _) as [|x rest']; [done|]. destruct Hc as [Hx ?]. cbn. unfold hash_cur. by rewrite Hx.
Qed.

Lemma iterate_ok fuel h it rest :
  wf h -> cursor h it rest -> (length rest < fuel)%nat -> wp (iterate fuel it) (fun l h' => l = rest /\ h' = h) h.
Proof.
  intros Hw. revert it rest. induction fuel as [|fuel IH]; intros it rest Hc Hf; [lia|]. cbn [iterate].
  apply wp_bind. eapply wp_mono; [by apply hash_next_ok|]. intros [r it'] h' [-> Hr]. destruct rest as [|x rest]; cbn in Hr.
  - subst r. by apply wp_ret.
  - destruct Hr as [-> Hc']. apply wp_bind. eapply wp_mono; [apply IH; [done|simpl in Hf; lia]|].
    intros l h' [-> ->]. by apply wp_ret.
Qed.

Lemma first_cursor h : wf h -> cursor h hash_first (elems h).
Proof.
  intros Hw. pose proof (w_placed _ _ _ Hw) as Hp. pose proof (pow_bounds h Hp). pose proof (p_len _ _ Hp).
  unfold elems. destruct (buckets h) as [|b bs] eqn:E; [simpl in *; lia|].
  exists 0%nat, [], b. rewrite E. split_and!; [done|done|by left|done].
Qed.

Lemma apply_loop_ok n i h :
  placed h -> (i + n = length (buckets h))%nat ->
  wp (apply_loop n (Z.of_nat i)) (fun l h' => h' = h /\ l = concat (drop i (buckets h))) h.
Proof.
  intros Hp. revert i. induction n as [|n IH]; intros i Hi; cbn [apply_loop].
  { apply wp_ret. split; [done|]. by rewrite drop_ge by lia. }
  pose proof (p_len _ _ Hp). apply wp_bind, get_bucket_ok; [done|lia|]. intros b Hb. rewrite Nat2Z.id in Hb.
  apply wp_bind. replace (Z.of_nat i + 1) with (Z.of_nat (S i)) by lia. eapply wp_mono; [apply IH; lia|].
  intros l h' [-> ->]. apply wp_ret. split; [done|]. by rewrite (drop_S _ _ _ Hb).
Qed.

(** [hash_clear] on an array of buckets of the right length. *)
Lemma clear_loop_ok d n i h :
  Z.of_nat (i + n) = Z.of_nat (length (buckets h)) ->
  wp (clear_loop d n (Z.of_nat i)) (fun l h' => bucket_cnt h' = bucket_cnt h /\ elem_cnt h' = elem_cnt h /\
    buckets h' = take i (buckets h) ++ replicate n [] /\ l = if d then concat (drop i (buckets h)) else []) h.
Proof.
  revert i h. induction n as [|n IH]; intros i h Hi; cbn [clear_loop].
  { apply wp_ret. rewrite take_ge, drop_ge, app_nil_r by lia. by destruct d. }
  destruct (lookup_lt_is_Some_2 (buckets h) i) as [b Hb]; [lia|]. apply wp_bind.
  unfold wp at 1, get_bucket. rewrite (proj2 (Z.ltb_ge _ _)), Nat2Z.id, Hb by lia. apply wp_bind, wp_modify. rewrite Nat2Z.id.
  apply wp_bind. replace (Z.of_nat i + 1) with (Z.of_nat (S i)) by lia. eapply wp_mono; [apply IH; cbn; rewrite length_insert; lia|].
  intros l h' (E1&E2&E3&->). apply wp_ret. cbn in *. split_and!; [done|done|..].
  - rewrite E3. erewrite take_S_r by (apply list_lookup_insert_eq; lia). rewrite take_insert_ge by lia. by rewrite <- app_assoc.
  - rewrite (drop_S _ _ _ Hb). rewrite drop_insert_lt by lia. by destruct d.
Qed.

Lemma cleared_wf h : (exists k, 2 <= k < 32 /\ bucket_cnt h = 2 ^ k) -> elem_cnt h = 0 ->
  buckets h = replicate (Z.to_nat (bucket_cnt h)) [] -> wf h /\ elems h = [].
Proof.
  intros (k&Hk&E) Hc Hb. assert (elems h = []) as He by (unfold elems; rewrite Hb; apply concat_replicate).
  split; [|done]. split; rewrite ?He.
  - split; [eauto|rewrite Hb, length_replicate; lia|]. intros i b e Hi Hin. rewrite Hb in Hi.
    apply lookup_replicate in Hi as [-> _]. by apply elem_of_nil in Hin.
  - by rewrite Hc.
  - rewrite Hc. lia.
  - split; [apply NoDup_nil_2|]. intros a b Ha. by apply elem_of_nil in Ha.
Qed.
End ops.

(** ** The abstract table

    A set of elements; the operations are as the comments of hash.c say. *)

Inductive op :=
  | Insert (malloc_ok : bool) (e : ptr)
  | Replace (malloc_ok : bool) (e : ptr)
  | Find (e : ptr)
  | Delete (malloc_ok : bool) (e : ptr)
  | Size
  | Empty.
Inductive answer := AElem (r : option ptr) | ANum (n : Z) | ABool (b : bool).

Section refine.
Context (hash_func : ptr -> Z) (less : ptr -> ptr -> bool).

Definition run_op (o : op) : M hash answer :=
  match o with
  | Insert ok e => let! r := hash_insert hash_func less ok e in ret (AElem r)
  | Replace ok e => let! r := hash_replace hash_func less ok e in ret (AElem r)
  | Find e => let! r := hash_find hash_func less e in ret (AElem r)
  | Delete ok e => let! r := hash_delete hash_func less ok e in ret (AElem r)
  | Size => let! n := hash_size in ret (ANum n)
  | Empty => let! b := hash_empty in ret (ABool b)
  end.
Fixpoint run_ops (os : list op) : M hash (list answer) :=
  match os with
  | [] => ret []
  | o :: os' => let! a := run_op o in let! l := run_ops os' in ret (a :: l)
  end.

(** An element of [T] equal to [e], if there is one. *)
Definition equal_in (T : gset ptr) (e : ptr) (r : option ptr) : Prop :=
  match r with
  | Some x => x ∈ T /\ eqv less x e = true
  | None => forall x, x ∈ T -> eqv less x e = false
  end.

Inductive spec_op (T : gset ptr) : op -> answer -> gset ptr -> Prop :=
  | spec_insert ok e r : equal_in T e r ->
      spec_op T (Insert ok e) (AElem r) (match r with Some _ => T | None => {[e]} ∪ T end)
  | spec_replace ok e r : equal_in T e r ->
      spec_op T (Replace ok e) (AElem r) ({[e]} ∪ match r with Some x => T ∖ {[x]} | None => T end)
  | spec_find e r : equal_in T e r -> spec_op T (Find e) (AElem r) T
  | spec_delete ok e r : equal_in T e r ->
      spec_op T (Delete ok e) (AElem r) (match r with Some x => T ∖ {[x]} | None => T end)
  | spec_size : spec_op T Size (ANum (Z.of_nat (size T))) T
  | spec_empty b : (b = true <-> T = ∅) -> spec_op T Empty (ABool b) T.
Inductive spec_ops (T : gset ptr) : list op -> list answer -> gset ptr -> Prop :=
  | spec_nil : spec_ops T [] [] T
  | spec_cons o a T1 os l T2 : spec_op T o a T1 -> spec_ops T1 os l T2 -> spec_ops T (o :: os) (a :: l) T2.

Definition represents (h : hash) (T : gset ptr) : Prop :=
  wf hash_func less h /\ list_to_set (elems h) = T.

Lemma represents_size h T : represents h T -> elem_cnt h = Z.of_nat (size T).
Proof. intros [[_ W2 _ [D1 _]] <-]. by rewrite size_list_to_set. Qed.

Lemma found_equal h T e r : represents h T -> found less (elems h) e r -> equal_in T e r.
Proof. intros [_ <-]. destruct r as [x|]; simpl; [by rewrite elem_of_list_to_set|]. intros H y. rewrite elem_of_list_to_set. auto. Qed.

Lemma set_perm (l l' : list ptr) : l ≡ₚ l' -> (list_to_set l : gset ptr) = list_to_set l'.
Proof. intros E. apply set_eq. intros x. by rewrite !elem_of_list_to_set, E. Qed.

Lemma set_filter (l : list ptr) x : (list_to_set (filter (fun y => y <> x) l) : gset ptr) = list_to_set l ∖ {[x]}.
Proof.
  apply set_eq. intros y. rewrite elem_of_difference, !elem_of_list_to_set, list_elem_of_filter, elem_of_singleton. naive_solver.
Qed.

Context `{!Hashable hash_func less}.

Lemma run_op_ok o h T :
  represents h T -> Z.of_nat (size T) + 1 < 2 ^ 32 ->
  wp (run_op o) (fun a h' => exists T', represents h' T' /\ spec_op T o a T' /\ (size T' <= size T + 1)%nat) h.
Proof.
  intros Hr Hmax. pose proof Hr as [Hw HT]. pose proof (represents_size h T Hr) as Hs.
  assert (forall h' T', represents h' T' -> (length (elems h') <= length (elems h) + 1)%nat -> (size T' <= size T + 1)%nat) as Hsz.
  { intros h' T' Hr'. pose proof (represents_size h' T' Hr'). rewrite (w_cnt _ _ _ (proj1 Hr')) in *.
    rewrite (w_cnt _ _ _ Hw) in Hs. lia. }
  destruct o as [ok e|ok e|e|ok e| |]; cbn [run_op]; apply wp_bind.
  - eapply wp_mono; [apply hash_insert_ok; [done|done|lia]|]. intros r h' (Hw'&Hf&E). apply wp_ret.
    assert (represents h' (match r with Some _ => T | None => {[e]} ∪ T end)) as Hr'.
    { split; [done|]. rewrite (set_perm _ _ E), <- HT. by destruct r. }
    eexists. split_and!; [exact Hr'|constructor; by eapply found_equal|].
    eapply Hsz; [done|]. rewrite E. destruct r; simpl; lia.
  - eapply wp_mono; [apply hash_replace_ok; [done|done|lia]|]. intros r h' (Hw'&Hf&E). apply wp_ret.
    assert (represents h' ({[e]} ∪ match r with Some x => T ∖ {[x]} | None => T end)) as Hr'.
    { split; [done|]. rewrite (set_perm _ _ E), <- HT. simpl. f_equal. destruct r; [apply set_filter|done]. }
    eexists. split_and!; [exact Hr'|constructor; by eapply found_equal|].
    eapply Hsz; [done|]. rewrite E. simpl. destruct r as [x|]; [|lia]. pose proof (length_filter (fun y => y <> x) (elems h)). lia.
  - eapply wp_mono; [by apply hash_find_ok|]. intros r h' [-> Hf]. apply wp_ret. exists T. split_and!; [done|constructor; by eapply found_equal|lia].
  - eapply wp_mono; [by apply hash_delete_ok|]. intros r h' (Hw'&Hf&E). apply wp_ret.
    assert (represents h' (match r with Some x => T ∖ {[x]} | None => T end)) as Hr'.
    { split; [done|]. rewrite (set_perm _ _ E), <- HT. destruct r; [apply set_filter|done]. }
    eexists. split_and!; [exact Hr'|constructor; by eapply found_equal|].
    eapply Hsz; [done|]. rewrite E. destruct r as [x|]; [|lia]. pose proof (length_filter (fun y => y <> x) (elems h)). lia.
  - apply wp_gets, wp_ret. exists T. rewrite Hs. split_and!; [done|constructor|lia].
  - apply wp_gets, wp_ret. exists T. rewrite Hs. split_and!; [done|constructor|lia].
    rewrite Z.eqb_eq. split; [intros E; apply leibniz_equiv, size_empty_iff; lia|by intros ->].
Qed.

Lemma run_ops_ok os h T :
  represents h T -> Z.of_nat (size T + length os) < 2 ^ 32 ->
  wp (run_ops os) (fun l h' => exists T', represents h' T' /\ spec_ops T os l T') h.
Proof.
  revert h T. induction os as [|o os IH]; intros h T Hr Hmax; cbn [run_ops].
  { apply wp_ret. exists T. split; [done|constructor]. }
  apply wp_bind. eapply wp_mono; [apply run_op_ok; [done|simpl in Hmax; lia]|]. intros a h1 (T1&Hr1&Hs1&Hsz).
  apply wp_bind. eapply wp_mono; [apply (IH h1 T1); [done|simpl in Hmax; lia]|]. intros l h2 (T2&Hr2&Hs2).
  apply wp_ret. exists T2. split; [done|]. by econstructor.
Qed.

Lemma hash_clear_ok d h T :
  represents h T -> wp (hash_clear d) (fun l h' => represents h' ∅ /\ l = if d then elems h else []) h.
Proof.
  intros [Hw HT]. pose proof (w_placed _ _ _ Hw) as Hp. pose proof (p_len _ _ Hp) as Hl. unfold hash_clear.
  apply wp_bind, wp_gets, wp_bind. eapply wp_mono; [apply (clear_loop_ok d _ 0); lia|]. intros l h1 (E1&E2&E3&->).
  apply wp_bind, wp_modify, wp_ret. split; [|done].
  destruct (cleared_wf hash_func less (set_cnt (fun _ => 0) h1)) as [Hw' He]; [cbn; rewrite E1; apply Hp|done|cbn; by rewrite E1|].
  split; [done|]. by rewrite He.
Qed.
End refine.

(** ** Properties *)

(** C31. A hash table is a set of elements no two of which are equal: any
    sequence of insertions, replacements, searches, deletions and queries on a
    table made by [hash_init] returns what the same sequence returns on a set,
    and ends in a table that represents that set, whichever of its attempts to
    get memory for more buckets succeed. *)
Theorem hash_refines hash_func less `{!Hashable hash_func less} bs os :
  length bs = 4%nat -> Z.of_nat (length os) < 2 ^ 32 ->
  exists h, hash_init (Some bs) = Ok (Some h) /\
    exists l h' T, run_ops hash_func less os h = Ok (l, h') /\ spec_ops less ∅ os l T /\ represents hash_func less h' T.
Proof.
  intros Hbs Hos.
  assert (wp (hash_clear false) (fun _ h' => represents hash_func less h' ∅) (Tbl 0 4 bs)) as Hc.
  { unfold hash_clear. apply wp_bind, wp_gets, wp_bind. eapply wp_mono; [apply (clear_loop_ok false _ 0); cbn; lia|].
    intros l h1 (E1&E2&E3&->). cbn in E1, E2, E3. apply wp_bind, wp_modify, wp_ret.
    destruct (cleared_wf hash_func less (set_cnt (fun _ => 0) h1)) as [Hw' He]; [cbn; rewrite E1; by exists 2|done|cbn; by rewrite E1|].
    split; [done|]. by rewrite He. }
  unfold wp in Hc. destruct (hash_clear false (Tbl 0 4 bs)) as [[calls h]|] eqn:E; [|done].
  exists h. unfold hash_init. rewrite E. split; [done|].
  pose proof (run_ops_ok hash_func less os h ∅ Hc) as Hw. rewrite size_empty in Hw. specialize (Hw Hos).
  unfold wp in Hw. destruct (run_ops _ _ os h) as [[l h']|]; [|done]. destruct Hw as (T&?&?). exists l, h', T. done.
Qed.

(** [rehash] keeps the elements and makes the number of buckets, when it
    gets the memory, the largest power of two not above half the number of
    elements, at least four; without memory the table stays as it is. *)
Theorem rehash_bounds hash_func less `{!Hashable hash_func less} malloc_ok h :
  wf hash_func less h ->
  exists h', rehash hash_func malloc_ok h = Ok (tt, h') /\ wf hash_func less h' /\ elems h' ≡ₚ elems h /\
    (exists k, bucket_cnt h' = 2 ^ k) /\
    if malloc_ok then bucket_cnt h' <= Z.max 4 (elem_cnt h / BEST_ELEMS_PER_BUCKET) < 2 * bucket_cnt h'
    else bucket_cnt h' = bucket_cnt h.
Proof.
  intros Hw. pose proof (rehash_ok hash_func less malloc_ok h Hw) as H. unfold wp in H.
  destruct (rehash _ _ h) as [[[] h']|]; [|done]. destruct H as (Hw'&E&Hb). exists h'. split_and!; try done.
  - destruct (p_pow _ _ (w_placed _ _ _ Hw')) as (k&_&?). by exists k.
  - destruct malloc_ok; [|done]. rewrite Hb. unfold ideal.
    pose proof (Z.log2_spec (Z.max 4 (elem_cnt h / 2)) ltac:(lia)) as [? Hu]. rewrite Z.pow_succ_r in Hu by apply Z.log2_nonneg. lia.
Qed.

(** Iterating with [hash_first] and [hash_next] until the null pointer
    visits every element of the table exactly once; [hash_apply] and the
    destructor calls of [hash_clear] visit the same elements in the same order,
    and [hash_clear] leaves an empty table. *)
Theorem hash_iteration hash_func less `{!Hashable hash_func less} h T fuel :
  represents hash_func less h T -> (size T < fuel)%nat ->
  exists l, NoDup l /\ list_to_set l = T /\ iterate fuel hash_first h = Ok (l, h) /\ hash_apply h = Ok (l, h) /\
    exists h', hash_clear true h = Ok (l, h') /\ represents hash_func less h' ∅.
Proof.
  intros Hr Hf. pose proof Hr as [Hw HT]. exists (elems h). split_and!; [apply Hw|done|..].
  - pose proof (iterate_ok hash_func less fuel h hash_first (elems h) Hw (first_cursor _ _ h Hw)) as H.
    pose proof (represents_size _ _ h T Hr). rewrite (w_cnt _ _ _ Hw) in *.
    specialize (H ltac:(lia)). unfold wp in H. destruct (iterate _ _ h) as [[? ?]|]; [|done]. by destruct H as [-> ->].
  - pose proof (p_len _ _ (w_placed _ _ _ Hw)) as Hl.
    pose proof (apply_loop_ok hash_func (Z.to_nat (bucket_cnt h)) 0 h (w_placed _ _ _ Hw) ltac:(lia)) as H. unfold wp in H.
    unfold hash_apply, bind, gets. change (Z.of_nat 0) with 0 in H. destruct (apply_loop _ _ h) as [[? ?]|]; [|done]. by destruct H as [-> ->].
  - pose proof (hash_clear_ok hash_func less true h T Hr) as H. unfold wp in H.
    destruct (hash_clear true h) as [[? h']|]; [|done]. destruct H as [? ->]. eauto.
Qed.

(** ** Witnesses: elements are numbers, compared and hashed by their value *)

#[export] Instance numbers : Hashable (fun e => u32 e) Z.ltb.
Proof.
  assert (forall a b, eqv Z.ltb a b = true <-> a = b) as E.
  { intros a b. unfold eqv. rewrite andb_true_iff, !negb_true_iff, !Z.ltb_ge. lia. }
  split.
  - intros e. by apply wrapu_in.
  - split; intros a; [by apply E| |]; intros b; rewrite ?E; [lia|]. intros c. rewrite !E. lia.
  - intros a b ->%E. done.
Qed.

Lemma hash_refines_witness :
  exists h, hash_init (Some [[7]; []; [8; 9]; []]) = Ok (Some h) /\
    exists l h' T, run_ops (fun e => u32 e) Z.ltb [Insert true 5; Insert false 9; Find 5; Delete true 9; Size] h = Ok (l, h') /\
      spec_ops Z.ltb ∅ [Insert true 5; Insert false 9; Find 5; Delete true 9; Size] l T /\
      represents (fun e => u32 e) Z.ltb h' T.
Proof. refine (hash_refines (fun e => u32 e) Z.ltb [[7]; []; [8; 9]; []] _ _ _); [reflexivity|vm_compute; reflexivity]. Defined.

(** A table of twelve elements in four buckets: due for eight. *)
Definition dozen : hash := Tbl 12 4 [[0; 4; 8]; [1; 5; 9]; [2; 6; 10]; [3; 7; 11]].

Lemma dozen_wf : wf (fun e => u32 e) Z.ltb dozen.
Proof.
  split; [split|done|done|split].
  - by exists 2.
  - done.
  - intros i b e Hi He. do 4 (destruct i as [|i]; [simplify_eq/=; set_unfold in He; naive_solver|]). done.
  - apply (bool_decide_unpack _). vm_compute. exact I.
  - intros a b _ _. unfold eqv. rewrite andb_true_iff, !negb_true_iff, !Z.ltb_ge. lia.
Qed.

Lemma rehash_bounds_witness :
  exists h', rehash (fun e => u32 e) true dozen = Ok (tt, h') /\ bucket_cnt h' <= 6 < 2 * bucket_cnt h'.
Proof.
  destruct (rehash_bounds (fun e => u32 e) Z.ltb true dozen dozen_wf) as (h'&E&_&_&_&Hb). exists h'. split; [exact E|exact Hb].
Defined.

Lemma hash_iteration_witness :
  exists l, NoDup l /\ iterate 13 hash_first dozen = Ok (l, dozen).
Proof.
  assert (represents (fun e => u32 e) Z.ltb dozen (list_to_set (elems dozen))) as Hr by (split; [exact dozen_wf|reflexivity]).
  destruct (hash_iteration (fun e => u32 e) Z.ltb dozen _ 13 Hr) as (l&Hn&_&E&_); [vm_compute; lia|].
  exists l. split; [exact Hn|exact E].
Defined.

End HashSpec.
