(* ===== verification/Words.v ===== *)
(** * Words in byte memory, and parts of a state

    Little-endian 16- and 32-bit words as the i386 stores them, locks and
    semaphores as a routine that runs alone meets them, and [zoom], which runs
    a routine of one component on that component's part of a larger state. *)

From S2P Require Import Prelude.
From S2P Require Import Mem.
Local Open Scope Z_scope.

Module Words.
Import Mem.

(** ** A routine on a part of the state *)

Definition zoom {S T A} (part : S -> T) (put : T -> S -> S) (m : M T A) : M S A :=
  fun s => match m (part s) with Ok (a, t) => Ok (a, put t s) | Err e => Err e end.

Lemma wp_zoom {S T A} (part : S -> T) (put : T -> S -> S) (m : M T A) Q s :
  wp (zoom part put m) Q s <-> wp m (fun a t => Q a (put t s)) (part s).
Proof. unfold wp, zoom. by destruct (m (part s)) as [[]|]. Qed.

Lemma zoom_ok {S T A} (part : S -> T) (put : T -> S -> S) (m : M T A) s a t :
  m (part s) = Ok (a, t) -> zoom part put m s = Ok (a, put t s).
Proof. unfold zoom. by intros ->. Qed.

(** ** Locks and semaphores

    A lock is the thread that holds it.  Acquiring a lock one holds fails the
    assertion of [lock_acquire]; acquiring a lock another thread holds waits
    for that thread, which for a routine run alone is for ever. *)
Section lock.
Context (cur : Z).

Definition lock_acquire : M (option Z) unit :=
  fun l => match l with
           | None => Ok (tt, Some cur)
           | Some t => if t =? cur then Err EPanic else Err EBlock
           end.

Definition lock_release : M (option Z) unit :=
  fun l => match l with
           | Some t => if t =? cur then Ok (tt, None) else Err EPanic
           | None => Err EPanic
           end.

Lemma wp_lock_acquire Q : Q tt (Some cur) -> wp lock_acquire Q None.
Proof. done. Qed.

Lemma wp_lock_release Q : Q tt None -> wp lock_release Q (Some cur).
Proof. unfold wp, lock_release. by rewrite Z.eqb_refl. Qed.
End lock.

(** A semaphore is its value. *)
Definition sema_down : M Z unit := fun v => if v =? 0 then Err EBlock else Ok (tt, u32 (v - 1)).
Definition sema_up : M Z unit := fun v => Ok (tt, u32 (v + 1)).

(** ** Little-endian words *)

Definition le16 (w : Z) : list Z := [u8 w; u8 (w / 2 ^ 8)].
Definition le32 (w : Z) : list Z := [u8 w; u8 (w / 2 ^ 8); u8 (w / 2 ^ 16); u8 (w / 2 ^ 24)].

(** The word a list of bytes stands for. *)
Fixpoint le (bs : list Z) : Z :=
  match bs with [] => 0 | b :: bs' => b + 2 ^ 8 * le bs' end.

Definition load32 (p : ptr) : M mem Z :=
  let! b0 := load p in
  let! b1 := load (p + 1) in
  let! b2 := load (p + 2) in
  let! b3 := load (p + 3) in
  ret (le [b0; b1; b2; b3]).

Definition store32 (p : ptr) (w : Z) : M mem unit :=
  do! store p w in
  do! store (p + 1) (w / 2 ^ 8) in
  do! store (p + 2) (w / 2 ^ 16) in
  store (p + 3) (w / 2 ^ 24).

Definition word_at (m : mem) (p : ptr) (w : Z) : Prop := bytes_at m p (le32 w) /\ in_u 32 w.

Lemma le_le32 w : in_u 32 w -> le (le32 w) = w.
Proof. unfold in_u, le32, le, wrapu. intros. zlia. Qed.

Lemma le_le16 w : in_u 16 w -> le (le16 w) = w.
Proof. unfold in_u, le16, le, wrapu. intros. zlia. Qed.

Lemma le32_bytes w : Forall (in_u 8) (le32 w).
Proof. repeat constructor; by apply wrapu_in. Qed.

Lemma le16_bytes w : Forall (in_u 8) (le16 w).
Proof. repeat constructor; by apply wrapu_in. Qed.

Lemma le_range bs : Forall (in_u 8) bs -> 0 <= le bs < 2 ^ (8 * zlen bs).
Proof.
  induction 1 as [|b bs Hb _ IH]; simpl length; [simpl; lia|]. cbn [le]. unfold in_u in Hb.
  replace (8 * Z.of_nat (S (length bs))) with (8 + 8 * zlen bs) by lia. rewrite Z.pow_add_r by lia. nia.
Qed.

Lemma le32_le bs : Forall (in_u 8) bs -> length bs = 4%nat -> le32 (le bs) = bs.
Proof.
  intros Hf Hl. destruct bs as [|a [|b [|c [|d [|]]]]]; try done. rewrite !Forall_cons in Hf. unfold in_u in Hf.
  unfold le32, le, wrapu. change (2 ^ 8) with 256 in *. change (2 ^ 16) with 65536. change (2 ^ 24) with 16777216. repeat f_equal; zlia.
Qed.

Lemma load32_eq m p w : word_at m p w -> load32 p m = Ok (w, m).
Proof.
  intros [Hb Hw]. rewrite bytes_at_lookup in Hb. unfold load32.
  assert (forall i b, le32 w !! i = Some b -> load (p + Z.of_nat i) m = Ok (b, m)) as H by (intros; by apply load_eq, Hb).
  pose proof (H 0%nat _ eq_refl) as H0. rewrite Z.add_0_r in H0.
  erewrite bind_ok by exact H0. erewrite bind_ok by exact (H 1%nat _ eq_refl).
  erewrite bind_ok by exact (H 2%nat _ eq_refl). erewrite bind_ok by exact (H 3%nat _ eq_refl).
  unfold ret. change (le _) with (le (le32 w)). by rewrite le_le32.
Qed.

Lemma store_write m p b bs : is_Some (m !! (p + zlen bs)) -> store (p + zlen bs) b (write m p bs) = Ok (tt, write m p (bs ++ [u8 b])).
Proof.
  intros Hs. unfold store. rewrite lookup_write, decide_False by lia. destruct Hs as [x ->].
  rewrite write_app. done.
Qed.

Lemma store32_eq m p w : mapped m p 4 -> store32 p w m = Ok (tt, write m p (le32 w)).
Proof.
  intros Hm. unfold store32. change m with (write m p []) at 1.
  pose proof (store_write m p w [] ltac:(apply Hm; simpl; lia)) as E. simpl length in E. rewrite Z.add_0_r in E.
  erewrite bind_ok by exact E. erewrite bind_ok by exact (store_write m p (w / 2 ^ 8) [u8 w] ltac:(apply Hm; simpl; lia)).
  erewrite bind_ok by exact (store_write m p _ [u8 w; u8 (w / 2 ^ 8)] ltac:(apply Hm; simpl; lia)).
  exact (store_write m p _ [u8 w; u8 (w / 2 ^ 8); u8 (w / 2 ^ 16)] ltac:(apply Hm; simpl; lia)).
Qed.

Lemma word_at_ext m m' p w :
  (forall q, p <= q < p + 4 -> m' !! q = m !! q) -> word_at m p w -> word_at m' p w.
Proof. intros He [Hb ?]. split; [|done]. eapply bytes_at_ext; [|done]. done. Qed.

Lemma word_at_mapped m p w : word_at m p w -> mapped m p 4.
Proof. intros [Hb _]. exact (bytes_at_mapped _ _ _ Hb). Qed.

Lemma word_at_write m p w : in_u 32 w -> word_at (write m p (le32 w)) p w.
Proof. intros. split; [|done]. apply write_bytes_at, le32_bytes. Qed.

Lemma word_at_write_ne m p bs q w :
  q + 4 <= p \/ p + zlen bs <= q -> word_at m q w -> word_at (write m p bs) q w.
Proof. intros Ho. apply word_at_ext. intros x Hx. rewrite lookup_write, decide_False by lia. done. Qed.

Lemma word_at_inj m p w w' : word_at m p w -> word_at m p w' -> w = w'.
Proof. intros H1%load32_eq H2%load32_eq. rewrite H1 in H2. by injection H2. Qed.

(** Any four bytes are a word. *)
Lemma word_exists m p : (forall q, p <= q < p + 4 -> exists b, m !! q = Some b /\ in_u 8 b) -> exists w, word_at m p w.
Proof.
  intros H. destruct (H p ltac:(lia)) as (a&?&?), (H (p + 1) ltac:(lia)) as (b&?&?), (H (p + 2) ltac:(lia)) as (c&?&?), (H (p + 3) ltac:(lia)) as (d&?&?).
  assert (Forall (in_u 8) [a; b; c; d]) as Hf by (do 4 (constructor; [done|]); constructor).
  exists (le [a; b; c; d]). split; [rewrite le32_le by done|apply (le_range _ Hf)].
  simpl. rewrite <- !Z.add_assoc. simpl. done.
Qed.

(** The word at an address, zero bytes standing for missing ones. *)
Definition rd (m : mem) (p : ptr) : Z :=
  le [default 0 (m !! p); default 0 (m !! (p + 1)); default 0 (m !! (p + 2)); default 0 (m !! (p + 3))].

Definition byte_mem (m : mem) : Prop := map_Forall (fun _ b => in_u 8 b) m.

Lemma word_at_rd m p w : word_at m p w -> rd m p = w.
Proof.
  intros [Hb Hw]. rewrite bytes_at_lookup in Hb.
  pose proof (proj1 (Hb 0%nat _ eq_refl)) as H0. pose proof (proj1 (Hb 1%nat _ eq_refl)) as H1.
  pose proof (proj1 (Hb 2%nat _ eq_refl)) as H2. pose proof (proj1 (Hb 3%nat _ eq_refl)) as H3.
  change (Z.of_nat 1) with 1 in H1. change (Z.of_nat 2) with 2 in H2. change (Z.of_nat 3) with 3 in H3. rewrite Z.add_0_r in H0. unfold rd. rewrite H0, H1, H2, H3. cbn [default]. by apply le_le32.
Qed.

Lemma rd_word m p : byte_mem m -> mapped m p 4 -> word_at m p (rd m p).
Proof.
  intros Hb Hm. destruct (word_exists m p) as [w Hw].
  - intros q Hq. destruct (Hm q Hq) as [b Eb]. exists b. split; [done|]. by eapply Hb.
  - by rewrite (word_at_rd _ _ _ Hw).
Qed.

Lemma load32_rd m p : byte_mem m -> mapped m p 4 -> load32 p m = Ok (rd m p, m).
Proof. intros. by apply load32_eq, rd_word. Qed.

Lemma rd_in_u m p : byte_mem m -> mapped m p 4 -> in_u 32 (rd m p).
Proof. intros. by apply rd_word. Qed.

Lemma rd_ext m m' p : (forall q, p <= q < p + 4 -> m' !! q = m !! q) -> rd m' p = rd m p.
Proof. intros H. unfold rd. by rewrite !H by lia. Qed.

Lemma rd_write m p w q : in_u 32 w -> p = q \/ p + 4 <= q \/ q + 4 <= p ->
  rd (write m p (le32 w)) q = if p =? q then w else rd m q.
Proof.
  intros Hw H. destruct (Z.eqb_spec p q) as [->|]; [by apply word_at_rd, word_at_write|].
  apply rd_ext. intros x Hx. rewrite lookup_write, decide_False; [done|]. simpl. lia.
Qed.

(** The bytes of a block of memory. *)
Lemma mapped_bytes m x n : byte_mem m -> 0 <= n -> mapped m x n -> exists bs, zlen bs = n /\ bytes_at m x bs.
Proof.
  intros Hb Hn Hm. exists (map (fun q => default 0 (m !! q)) (seqZ x n)). rewrite length_map, length_seqZ. split; [lia|].
  apply bytes_at_lookup. intros i b Hi. apply list_lookup_fmap_Some in Hi as (q&->&Hq). apply lookup_seqZ in Hq as [-> ?].
  destruct (Hm (x + Z.of_nat i) ltac:(lia)) as [c Ec]. rewrite Ec. split; [done|]. by eapply Hb.
Qed.

(** A memory of [n] zero bytes from [a] on. *)
Definition blank (a n : Z) : mem := write ∅ a (replicate (Z.to_nat n) 0).

Lemma blank_lookup a n q : 0 <= n -> blank a n !! q = if decide (a <= q < a + n) then Some 0 else None.
Proof.
  intros. unfold blank. rewrite lookup_write, length_replicate, Z2Nat.id by lia. case_decide; [|done].
  apply lookup_replicate_2. lia.
Qed.

Lemma blank_mapped a n b k : 0 <= n -> a <= b -> b + k <= a + n -> mapped (blank a n) b k.
Proof. intros ??? q Hq. rewrite blank_lookup, decide_True by lia. done. Qed.

Lemma blank_ok a n : 0 <= n -> 0 < a -> a + n <= 2 ^ 32 -> mem_ok (blank a n).
Proof. intros ??? q b. rewrite blank_lookup by done. case_decide; [lia|done]. Qed.

Lemma blank_bytes a n : 0 <= n -> byte_mem (blank a n).
Proof. intros ? q b. rewrite blank_lookup by done. case_decide; [|done]. intros [= <-]. done. Qed.
#[global] Opaque blank.
End Words.
