(* ===== verification/Vaddr.v ===== *)
(** * Virtual addresses and page table entries: threads/vaddr.h, threads/pte.h

    Addresses are 32-bit numbers.  The functions whose assertion can fail
    return an error then. *)

From S2P Require Import Prelude.
Local Open Scope Z_scope.

Module Vaddr.

(** ** The code *)

Definition BITMASK (shift cnt : Z) : Z := u32 (Z.shiftl (u32 (Z.shiftl 1 cnt) - 1) shift).
Definition PGBITS : Z := 12.
Definition PGSIZE : Z := 4096.
Definition PGMASK : Z := BITMASK 0 PGBITS.
Definition PHYS_BASE : Z := 0xc0000000.

Definition pg_ofs (va : ptr) : Z := Z.land va PGMASK.
Definition pg_no (va : ptr) : Z := Z.shiftr va PGBITS.
Definition pg_round_up (va : ptr) : ptr := Z.land (u32 (va + PGSIZE - 1)) (u32 (Z.lnot PGMASK)).
Definition pg_round_down (va : ptr) : ptr := Z.land va (u32 (Z.lnot PGMASK)).
Definition is_user_vaddr (vaddr : ptr) : bool := vaddr <? PHYS_BASE.
Definition is_kernel_vaddr (vaddr : ptr) : bool := PHYS_BASE <=? vaddr.
Definition ptov (paddr : Z) : res ptr := if paddr <? PHYS_BASE then Ok (u32 (paddr + PHYS_BASE)) else Err EPanic.
Definition vtop (vaddr : ptr) : res Z := if is_kernel_vaddr vaddr then Ok (u32 (vaddr - PHYS_BASE)) else Err EPanic.

Definition PTSHIFT : Z := 12.
Definition PTBITS : Z := 10.
Definition PTMASK : Z := BITMASK PTSHIFT PTBITS.
Definition PDSHIFT : Z := 22.
Definition PTE_ADDR : Z := 0xfffff000.
Definition PTE_P : Z := 1.
Definition PTE_W : Z := 2.
Definition PTE_U : Z := 4.
Definition PTE_A : Z := 0x20.
Definition PTE_D : Z := 0x40.

Definition pt_no (va : ptr) : Z := Z.shiftr (Z.land va PTMASK) PTSHIFT.
Definition pd_no (va : ptr) : Z := Z.shiftr va PDSHIFT.

(** [w & flag] as a condition. *)
Definition has (w flag : Z) : bool := negb (Z.land w flag =? 0).

Definition pde_create (pt : ptr) : res Z :=
  if pg_ofs pt =? 0 then
    let? pa := vtop pt in Ok (Z.lor (Z.lor (Z.lor pa PTE_U) PTE_P) PTE_W)
  else Err EPanic.
Definition pde_get_pt (pde : Z) : res ptr :=
  if has pde PTE_P then ptov (Z.land pde PTE_ADDR) else Err EPanic.
Definition pte_create_kernel (page : ptr) (writable : bool) : res Z :=
  if pg_ofs page =? 0 then
    let? pa := vtop page in Ok (Z.lor (Z.lor pa PTE_P) (if writable then PTE_W else 0))
  else Err EPanic.
Definition pte_create_user (page : ptr) (writable : bool) : res Z :=
  let? pte := pte_create_kernel page writable in Ok (Z.lor pte PTE_U).
Definition pte_get_page (pte : Z) : res ptr := ptov (Z.land pte PTE_ADDR).

(** ** Arithmetic of addresses *)

Section facts.
Implicit Types va p w : Z.

Lemma pg_ofs_mod va : pg_ofs va = va mod 4096.
Proof. unfold pg_ofs. change PGMASK with (Z.ones 12). by rewrite Z.land_ones. Qed.

Lemma pg_no_div va : pg_no va = va / 4096.
Proof. unfold pg_no, PGBITS. by rewrite Z.shiftr_div_pow2. Qed.

(** Clearing the low bits of a 32-bit word. *)
Lemma land_high w k : 0 <= k <= 32 -> in_u 32 w -> Z.land w (2 ^ 32 - 2 ^ k) = 2 ^ k * (w / 2 ^ k).
Proof.
  intros Hk Hw. rewrite Z.mul_comm, <- Z.shiftl_mul_pow2, <- Z.shiftr_div_pow2 by lia. apply Z.bits_inj'. intros n Hn.
  rewrite Z.land_spec. replace (2 ^ 32 - 2 ^ k) with (Z.shiftl (Z.ones (32 - k)) k).
  2: { rewrite Z.shiftl_mul_pow2, Z.ones_equiv by lia. replace (2 ^ 32) with (2 ^ (32 - k) * 2 ^ k) by (rewrite <- Z.pow_add_r by lia; f_equal; lia). lia. }
  destruct (Z.lt_ge_cases n k).
  { rewrite !Z.shiftl_spec_low by lia. by rewrite andb_false_r. }
  rewrite !Z.shiftl_spec, Z.shiftr_spec by lia. replace (n - k + k) with n by lia.
  destruct (Z.lt_ge_cases n 32); [rewrite Z.ones_spec_low by lia; by rewrite andb_true_r|].
  rewrite Z.ones_spec_high by lia. rewrite andb_false_r. symmetry. destruct (Z.eq_dec w 0) as [->|]; [apply Z.bits_0|].
  apply Z.bits_above_log2; [unfold in_u in Hw; lia|]. unfold in_u in Hw. apply Z.log2_lt_pow2; [lia|]. apply Z.lt_le_trans with (2 ^ 32); [lia|]. apply Z.pow_le_mono_r; lia.
Qed.

Lemma pg_round_down_eq va : in_u 32 va -> pg_round_down va = 4096 * (va / 4096).
Proof. apply (land_high va 12). lia. Qed.

Lemma pg_round_up_eq va : 0 <= va -> va + 4095 < 2 ^ 32 -> pg_round_up va = 4096 * ((va + 4095) / 4096).
Proof.
  intros. unfold pg_round_up, PGSIZE. rewrite wrapu_small by (unfold in_u; lia).
  replace (va + 4096 - 1) with (va + 4095) by lia. apply (land_high (va + 4095) 12); unfold in_u; lia.
Qed.

Lemma pd_no_div va : pd_no va = va / 2 ^ 22.
Proof. unfold pd_no, PDSHIFT. by rewrite Z.shiftr_div_pow2. Qed.

Lemma pt_no_div va : pt_no va = va / 2 ^ 12 mod 2 ^ 10.
Proof.
  unfold pt_no, PTSHIFT. rewrite Z.shiftr_land, Z.shiftr_div_pow2 by lia.
  change (Z.shiftr PTMASK 12) with (Z.ones 10). by rewrite Z.land_ones.
Qed.

Lemma pte_addr_eq w : in_u 32 w -> Z.land w PTE_ADDR = 4096 * (w / 4096).
Proof. apply (land_high w 12). lia. Qed.

(** An address is its two indices and its offset. *)
Lemma vaddr_parts va : va = 2 ^ 22 * pd_no va + 4096 * pt_no va + pg_ofs va.
Proof. rewrite pd_no_div, pt_no_div, pg_ofs_mod. zlia. Qed.

Lemma vaddr_range va : in_u 32 va -> 0 <= pd_no va < 1024 /\ 0 <= pt_no va < 1024 /\ 0 <= pg_ofs va < 4096.
Proof. unfold in_u. rewrite pd_no_div, pt_no_div, pg_ofs_mod. zlia. Qed.

Lemma pd_no_user va : in_u 32 va -> is_user_vaddr va = true <-> 0 <= pd_no va < 768.
Proof. unfold in_u, is_user_vaddr, PHYS_BASE. rewrite Z.ltb_lt, pd_no_div. zlia. Qed.

(** ** Page table entries *)

(** Adding flags below the address bits. *)
Lemma lor_low a b k : 0 <= k -> 0 <= b < 2 ^ k -> a mod 2 ^ k = 0 -> Z.lor a b = a + b.
Proof.
  intros Hk Hb Ha. assert (Z.land a b = 0) as H; [|by rewrite Z.add_nocarry_lxor, Z.lxor_lor].
  apply Z.bits_inj'. intros n Hn. rewrite Z.land_spec, Z.bits_0. destruct (Z.lt_ge_cases n k).
  - rewrite <- (Z.mod_pow2_bits_low a k) by lia. by rewrite Ha, Z.bits_0.
  - destruct (Z.eq_dec b 0) as [->|]; [by rewrite Z.bits_0, andb_false_r|].
    rewrite (Z.bits_above_log2 b); [by rewrite andb_false_r|lia|]. apply Z.lt_le_trans with k; [apply Z.log2_lt_pow2; lia|done].
Qed.
End facts.
End Vaddr.
