(* ===== verification/Palloc.v ===== *)
(** * The page allocator: threads/palloc.c

    Two pools of pages, each with a bitmap of the pages in use, over the byte
    memory of the kernel.  The bitmaps live in the first pages of their pools;
    they are kept apart from the byte memory here. *)

From S2P Require Import Prelude.
From S2P Require Import Mem.
From S2P Require Import Bitmap.
From S2P Require Import CString.
From S2P Require Import Words.
From S2P Require Import Vaddr.
Local Open Scope Z_scope.

Module Palloc.
Import Mem Words Vaddr.

(** ** The code *)

Record pool := Pool { lock : option Z; used_map : Bitmap.bitmap; base : ptr }.
Record state := St { memory : mem; kernel_pool : pool; user_pool : pool }.

Definition PAL_ASSERT : Z := 1.
Definition PAL_ZERO : Z := 2.
Definition PAL_USER : Z := 4.

(** The pool is named by whether it is the user pool. *)
Definition get_pool (u : bool) (s : state) : pool := if u then user_pool s else kernel_pool s.
Definition set_pool (u : bool) (p : pool) (s : state) : state :=
  if u then St (memory s) (kernel_pool s) p else St (memory s) p (user_pool s).
Definition on_map {A} (u : bool) (m : M Bitmap.bitmap A) : M state A :=
  zoom (fun s => used_map (get_pool u s)) (fun b s => set_pool u (Pool (lock (get_pool u s)) b (base (get_pool u s))) s) m.
Definition on_lock {A} (u : bool) (m : M (option Z) A) : M state A :=
  zoom (fun s => lock (get_pool u s)) (fun l s => set_pool u (Pool l (used_map (get_pool u s)) (base (get_pool u s))) s) m.
Definition on_mem {A} (m : M mem A) : M state A :=
  zoom memory (fun m s => St m (kernel_pool s) (user_pool s)) m.

Section code.
Context (cur init_ram_pages : Z).

Definition DIV_ROUND_UP (x step : Z) : Z := u32 (x + step - 1) / step.

(** [init_pool]; [junk n] are the [n] words that happen to be in memory where
    the bitmap goes. *)
Definition init_pool (junk : Z -> list Z) (base_ : ptr) (page_cnt : Z) : res pool :=
  let bm_pages := DIV_ROUND_UP (Bitmap.bitmap_buf_size page_cnt) PGSIZE in
  if page_cnt <? bm_pages then Err EPanic
  else
    let page_cnt := u32 (page_cnt - bm_pages) in
    let? b := Bitmap.bitmap_create_in_buf page_cnt (junk (Bitmap.elem_cnt page_cnt)) (u32 (bm_pages * PGSIZE)) in
    Ok (Pool None b (u32 (base_ + u32 (bm_pages * PGSIZE)))).

Definition palloc_init (m : mem) (junk : Z -> list Z) (user_page_limit free_page_limit : Z) : res state :=
  let? free_start := ptov (1024 * 1024) in
  let? free_end := ptov (u32 (init_ram_pages * PGSIZE)) in
  let free_pages := u32 (Z.quot (s32 (free_end - free_start)) PGSIZE) in
  let user_pages := free_pages / 2 in
  let free_pages := if free_page_limit <? free_pages then free_page_limit else free_pages in
  let user_pages := if user_page_limit <? user_pages then user_page_limit else user_pages in
  let kernel_pages := u32 (free_pages - user_pages) in
  let? kp := init_pool junk free_start kernel_pages in
  let? up := init_pool junk (u32 (free_start + u32 (kernel_pages * PGSIZE))) user_pages in
  Ok (St m kp up).

Definition palloc_get_multiple (flags page_cnt : Z) : M state ptr :=
  let pool := has flags PAL_USER in
  if page_cnt =? 0 then ret NULL
  else
    do! on_lock pool (lock_acquire cur) in
    let! page_idx := on_map pool (Bitmap.bitmap_scan_and_flip 0 page_cnt false) in
    do! on_lock pool (lock_release cur) in
    let! base_ := gets (fun s => base (get_pool pool s)) in
    let pages := if negb (page_idx =? Bitmap.BITMAP_ERROR) then u32 (base_ + u32 (PGSIZE * page_idx)) else NULL in
    if negb (pages =? NULL) then
      do! (if has flags PAL_ZERO then
             do! on_mem (CString.memset pages 0 (u32 (PGSIZE * page_cnt))) in ret tt
           else ret tt) in
      ret pages
    else if has flags PAL_ASSERT then fail EPanic
    else ret pages.

Definition palloc_get_page (flags : Z) : M state ptr := palloc_get_multiple flags 1.

Definition page_from_pool (p : pool) (page : ptr) : bool :=
  let page_no := pg_no page in
  let start_page := pg_no (base p) in
  let end_page := u32 (start_page + Bitmap.bit_cnt (used_map p)) in
  (start_page <=? page_no) && (page_no <? end_page).

Definition palloc_free_multiple (pages : ptr) (page_cnt : Z) : M state unit :=
  do! assert (pg_ofs pages =? 0) in
  if (pages =? NULL) || (page_cnt =? 0) then ret tt
  else
    let! s := get in
    let! pool := (if page_from_pool (kernel_pool s) pages then ret false
                  else if page_from_pool (user_pool s) pages then ret true
                  else fail EPanic) in
    let page_idx := u32 (pg_no pages - pg_no (base (get_pool pool s))) in
    do! on_mem (CString.memset pages 0xcc (u32 (PGSIZE * page_cnt))) in
    let! all := on_map pool (Bitmap.bitmap_all page_idx page_cnt) in
    do! assert all in
    on_map pool (Bitmap.bitmap_set_multiple page_idx page_cnt false).

Definition palloc_free_page (page : ptr) : M state unit := palloc_free_multiple page 1.
End code.

(** ** Well-formed states *)

Definition pool_end (p : pool) : Z := base p + 4096 * Bitmap.bit_cnt (used_map p).

Record pool_wf (p : pool) : Prop := PoolWf {
  pw_lock : lock p = None;
  pw_map : Bitmap.wf (used_map p);
  pw_align : base p mod 4096 = 0;
  pw_low : PHYS_BASE < base p;
  pw_high : pool_end p <= 2 ^ 32 }.

Record wf (s : state) : Prop := Wf {
  w_mem : mem_ok (memory s);
  w_bytes : byte_mem (memory s);
  w_pool : forall u, pool_wf (get_pool u s);
  w_disj : pool_end (kernel_pool s) <= base (user_pool s) \/ pool_end (user_pool s) <= base (kernel_pool s);
  w_mapped : forall u, mapped (memory s) (base (get_pool u s)) (4096 * Bitmap.bit_cnt (used_map (get_pool u s))) }.

(** Page [i] of the pool, and whether a page address is in use. *)
Definition page_in (p : pool) (a : ptr) : bool := (base p <=? a) && (a <? pool_end p) && (a mod 4096 =? 0).
Definition in_use (p : pool) (a : ptr) : bool := page_in p a && Bitmap.bit (used_map p) ((a - base p) / 4096).
Definition used (s : state) (a : ptr) : bool := in_use (kernel_pool s) a || in_use (user_pool s) a.

(** [cnt] consecutive pages from [a] on. *)
Definition in_run (a cnt b : Z) : bool := (a <=? b) && (b <? a + 4096 * cnt) && (b mod 4096 =? 0).

(** The pages from [a] on belong to pool [u] and all have the state [v]. *)
Record run (s : state) (u : bool) (a cnt : Z) (v : bool) : Prop := Run {
  r_align : a mod 4096 = 0;
  r_low : base (get_pool u s) <= a;
  r_high : a + 4096 * cnt <= pool_end (get_pool u s);
  r_used : forall b, in_run a cnt b = true -> in_use (get_pool u s) b = v }.

(** The pages from [a] on, of pool [u], were given the state [v]. *)
Record pages_set (s : state) (u : bool) (a cnt : Z) (v : bool) (s' : state) : Prop := PagesSet {
  ps_wf : wf s';
  ps_run : run s u a cnt (negb v);
  ps_base : forall w, base (get_pool w s') = base (get_pool w s) /\ pool_end (get_pool w s') = pool_end (get_pool w s);
  ps_use : forall w x, in_use (get_pool w s') x = if Bool.eqb w u && in_run a cnt x then v else in_use (get_pool w s) x }.

Section facts.
Context (cur : Z).
Implicit Types (s : state) (p : pool) (u v : bool) (a x i cnt : Z).

Lemma in_run_spec a cnt x : in_run a cnt x = true <-> a <= x < a + 4096 * cnt /\ x mod 4096 = 0.
Proof. unfold in_run. rewrite !andb_true_iff, Z.leb_le, Z.ltb_lt, Z.eqb_eq. tauto. Qed.

Lemma page_in_spec p x : page_in p x = true <-> base p <= x < pool_end p /\ x mod 4096 = 0.
Proof. unfold page_in. rewrite !andb_true_iff, Z.leb_le, Z.ltb_lt, Z.eqb_eq. tauto. Qed.

Lemma in_use_page p i : pool_wf p -> 0 <= i < Bitmap.bit_cnt (used_map p) -> in_use p (base p + 4096 * i) = Bitmap.bit (used_map p) i.
Proof.
  intros [_ _ Ha _ _] Hi. unfold in_use. rewrite (proj2 (page_in_spec _ _)) by (unfold pool_end; zlia).
  simpl. f_equal. zlia.
Qed.

Lemma run_page s u a cnt x : pool_wf (get_pool u s) -> a mod 4096 = 0 -> in_run a cnt x = true ->
  base (get_pool u s) <= a -> exists i, x = base (get_pool u s) + 4096 * i /\ (a - base (get_pool u s)) / 4096 <= i < (a - base (get_pool u s)) / 4096 + cnt.
Proof.
  intros [_ _ Ha _ _] Hb [Hx Hm]%in_run_spec ?. exists ((x - base (get_pool u s)) / 4096). zlia.
Qed.

Lemma group_run s u i cnt v : pool_wf (get_pool u s) -> 0 <= i -> i + cnt <= Bitmap.bit_cnt (used_map (get_pool u s)) ->
  Bitmap.group (used_map (get_pool u s)) v i cnt -> run s u (base (get_pool u s) + 4096 * i) cnt v.
Proof.
  intros Hp Hi Hc Hg. pose proof (pw_align _ Hp). split; [zlia|lia|unfold pool_end; lia|].
  intros x Hx. destruct (run_page s u (base (get_pool u s) + 4096 * i) cnt x Hp ltac:(zlia) Hx ltac:(lia)) as (j&->&Hj).
  rewrite in_use_page by (done || zlia). apply Hg. zlia.
Qed.

Lemma run_group s u a cnt v : pool_wf (get_pool u s) -> run s u a cnt v ->
  let i := (a - base (get_pool u s)) / 4096 in
  a = base (get_pool u s) + 4096 * i /\ 0 <= i /\ i + cnt <= Bitmap.bit_cnt (used_map (get_pool u s)) /\
  Bitmap.group (used_map (get_pool u s)) v i cnt.
Proof.
  intros Hp [Ha Hl Hh Hu]. pose proof (pw_align _ Hp). unfold pool_end in Hh. simpl. split_and!; [zlia..|].
  intros j Hj. rewrite <- (in_use_page (get_pool u s)) by (done || zlia). apply Hu, in_run_spec. zlia.
Qed.

Lemma get_set_pool u w p s : get_pool w (set_pool u p s) = if Bool.eqb w u then p else get_pool w s.
Proof. by destruct u, w. Qed.

Lemma set_pool_wf s u p : wf s -> pool_wf p -> base p = base (get_pool u s) -> pool_end p = pool_end (get_pool u s) -> wf (set_pool u p s).
Proof.
  intros [W1 W2 W3 W4 W5] Hp Hb He.
  assert (Bitmap.bit_cnt (used_map p) = Bitmap.bit_cnt (used_map (get_pool u s))) as Hc by (unfold pool_end in He; lia).
  split; [by destruct u|by destruct u| | |].
  - intros w. rewrite get_set_pool. destruct (Bool.eqb_spec w u); [done|apply W3].
  - destruct u; simpl in *; rewrite Hb, He; done.
  - intros w. rewrite get_set_pool. pose proof (W5 w). destruct (Bool.eqb_spec w u) as [->|]; [rewrite Hb, Hc|]; by destruct u.
Qed.

(** Setting a group of bits of a pool sets its pages. *)
Lemma group_set_pages s u i cnt v b' : wf s -> 0 <= i -> i + cnt <= Bitmap.bit_cnt (used_map (get_pool u s)) ->
  Bitmap.group (used_map (get_pool u s)) (negb v) i cnt -> Bitmap.group_set (used_map (get_pool u s)) i cnt v b' ->
  pages_set s u (base (get_pool u s) + 4096 * i) cnt v (set_pool u (Pool None b' (base (get_pool u s))) s).
Proof.
  intros Hw Hi Hc Hg (Hb&Hn&Hs). pose proof (w_pool _ Hw u) as Hp. pose proof (pw_align _ Hp) as Ha.
  assert (pool_end (Pool None b' (base (get_pool u s))) = pool_end (get_pool u s)) as He by (unfold pool_end; cbn; by rewrite Hn).
  assert (pool_wf (Pool None b' (base (get_pool u s)))) as Hp' by (destruct Hp; split; cbn; [done..|by rewrite He]).
  split; [by apply set_pool_wf|by apply group_run|..].
  - intros w. rewrite get_set_pool. by destruct (Bool.eqb_spec w u) as [->|].
  - intros w x. rewrite get_set_pool. destruct (Bool.eqb_spec w u) as [->|]; [|done]. cbn [andb].
    unfold in_use, page_in. rewrite He. cbn [base used_map].
    change ((base (get_pool u s) <=? x) && (x <? pool_end (get_pool u s)) && (x mod 4096 =? 0)) with (page_in (get_pool u s) x).
    destruct (page_in (get_pool u s) x) eqn:Hx.
    + apply page_in_spec in Hx as [Hx Hm]. unfold pool_end in Hx. rewrite Hs by zlia. cbn [andb].
      destruct (in_run _ cnt x) eqn:Hr; [apply in_run_spec in Hr|apply not_true_iff_false in Hr; rewrite in_run_spec in Hr].
      * rewrite (proj2 (Z.leb_le _ _)), (proj2 (Z.ltb_lt _ _)) by zlia. done.
      * destruct (Z.leb_spec i ((x - base (get_pool u s)) / 4096)), (Z.ltb_spec ((x - base (get_pool u s)) / 4096) (i + cnt)); try done.
        exfalso. apply Hr. zlia.
    + destruct (in_run _ cnt x) eqn:Hr; [|done]. exfalso. apply in_run_spec in Hr.
      apply not_true_iff_false in Hx. apply Hx, page_in_spec. unfold pool_end. lia.
Qed.

Definition set_mem (m : mem) (s : state) : state := St m (kernel_pool s) (user_pool s).

Lemma get_set_mem u m s : get_pool u (set_mem m s) = get_pool u s.
Proof. by destruct u. Qed.

Lemma write_wf s a bs : wf s -> mapped (memory s) a (zlen bs) -> Forall (in_u 8) bs -> wf (set_mem (write (memory s) a bs) s).
Proof.
  intros [W1 W2 W3 W4 W5] Hm Hb. assert (forall q b, write (memory s) a bs !! q = Some b -> is_Some (memory s !! q) /\ in_u 8 b) as Hq.
  { intros q b. rewrite lookup_write. case_decide.
    - intros E. split; [by apply Hm|]. by eapply Forall_lookup_1.
    - intros E. split; [eauto|by eapply W2]. }
  split; [| |intros u; by rewrite get_set_mem|done|intros u; rewrite get_set_mem; by apply write_mapped].
  - intros q b E. by eapply mem_ok_lookup, Hq.
  - intros q b E. by eapply Hq.
Qed.

Lemma pages_set_write s u a cnt v s' b bs : pages_set s u a cnt v s' -> mapped (memory s') b (zlen bs) -> Forall (in_u 8) bs ->
  pages_set s u a cnt v (set_mem (write (memory s') b bs) s').
Proof.
  intros [P1 P2 P3 P4] Hm Hb. split; [by apply write_wf|done|intros w; rewrite get_set_mem; apply P3|intros w x; rewrite get_set_mem; apply P4].
Qed.

Lemma run_mapped s u a cnt v : wf s -> run s u a cnt v -> mapped (memory s) a (4096 * cnt).
Proof.
  intros Hw [_ Hl Hh _] q Hq. apply (w_mapped _ Hw u). unfold pool_end in Hh. lia.
Qed.

Lemma wp_on_lock_acquire u Q s : lock (get_pool u s) = None ->
  Q tt (set_pool u (Pool (Some cur) (used_map (get_pool u s)) (base (get_pool u s))) s) -> wp (on_lock u (lock_acquire cur)) Q s.
Proof. intros E HQ. apply wp_zoom. rewrite E. by apply wp_lock_acquire. Qed.

Lemma wp_on_lock_release u Q s : lock (get_pool u s) = Some cur ->
  Q tt (set_pool u (Pool None (used_map (get_pool u s)) (base (get_pool u s))) s) -> wp (on_lock u (lock_release cur)) Q s.
Proof. intros E HQ. apply wp_zoom. rewrite E. by apply wp_lock_release. Qed.

(** The search under the lock of the pool: what [palloc_get_multiple] does
    before it computes the address. *)
Definition search (u : bool) (cnt : Z) : M state Z :=
  do! on_lock u (lock_acquire cur) in
  let! i := on_map u (Bitmap.bitmap_scan_and_flip 0 cnt false) in
  do! on_lock u (lock_release cur) in
  ret i.

Lemma search_then {A} u cnt (K : Z -> M state A) s i s' : search u cnt s = Ok (i, s') ->
  (do! on_lock u (lock_acquire cur) in let! i := on_map u (Bitmap.bitmap_scan_and_flip 0 cnt false) in do! on_lock u (lock_release cur) in K i) s = K i s'.
Proof.
  unfold search, bind. destruct (on_lock _ _ s) as [[? s1]|]; [|done]. destruct (on_map _ _ s1) as [[? s2]|]; [|done].
  destruct (on_lock _ _ s2) as [[? s3]|]; [|done]. by intros [= -> ->].
Qed.

Lemma search_ok u cnt Q s : wf s -> 0 <= cnt ->
  (forall i s', pages_set s u (base (get_pool u s) + 4096 * i) cnt true s' -> 0 <= i -> memory s' = memory s ->
    i + cnt <= Bitmap.bit_cnt (used_map (get_pool u s)) -> Q i s') ->
  ((forall a, ~ run s u a cnt false) -> Q Bitmap.BITMAP_ERROR s) ->
  wp (search u cnt) Q s.
Proof.
  intros Hw Hc HQ1 HQ2. pose proof (w_pool _ Hw u) as Hp. pose proof Hp as [P1 P2 P3 P4 P5].
  pose proof (Bitmap.wf_cnt _ P2). apply wp_bind, wp_on_lock_acquire; [done|]. apply wp_bind, wp_zoom. rewrite get_set_pool, Bool.eqb_reflx. cbn.
  destruct (Bitmap.scan_and_flip_eq (used_map (get_pool u s)) 0 cnt false) as (i&b'&E&Hr); [done|lia|done|]. unfold wp at 1. rewrite E.
  apply wp_bind, wp_on_lock_release; [by destruct u|]. apply wp_ret. destruct Hr as [(H1&H2&H3&H4&_&H5)|(->&->&H3)].
  - replace (set_pool u _ _) with (set_pool u (Pool None b' (base (get_pool u s))) s) by (by destruct u).
    apply HQ1; [by apply group_set_pages|lia|by destruct u|done].
  - replace (set_pool u _ _) with s by (destruct s as [? [] []], u; cbn in *; congruence).
    apply HQ2. intros a Ha. apply run_group in Ha as (_&?&?&?); [|done]. by eapply H3.
Qed.

(** Memory with [cnt] pages from [a] on filled with a byte. *)
Definition fill (a cnt b : Z) (m : mem) : mem := write m a (replicate (Z.to_nat (4096 * cnt)) b).

Lemma fill_lookup a cnt b m q : 0 <= cnt -> fill a cnt b m !! q = if decide (a <= q < a + 4096 * cnt) then Some b else m !! q.
Proof.
  intros. unfold fill. rewrite lookup_write, length_replicate, Z2Nat.id by lia. case_decide; [|done]. apply lookup_replicate_2. lia.
Qed.

Lemma fill_mapped a cnt b m (p : ptr) n : mapped m p n -> mapped (fill a cnt b m) p n.
Proof. apply write_mapped. Qed.

Lemma get_multiple_ok flags cnt s : wf s -> 0 < cnt ->
  let u := has flags PAL_USER in
  (exists a s', palloc_get_multiple cur flags cnt s = Ok (a, s') /\ pages_set s u a cnt true s' /\
     memory s' = if has flags PAL_ZERO then fill a cnt 0 (memory s) else memory s) \/
  ((forall a, ~ run s u a cnt false) /\
   palloc_get_multiple cur flags cnt s = if has flags PAL_ASSERT then Err EPanic else Ok (NULL, s)).
Proof.
  intros Hw Hc u. unfold palloc_get_multiple. rewrite (proj2 (Z.eqb_neq cnt 0)) by lia. fold u.
  assert (wp (search u cnt) (fun i s' =>
    (exists a, pages_set s u a cnt true s' /\ i <> Bitmap.BITMAP_ERROR /\ memory s' = memory s /\ a = u32 (base (get_pool u s') + u32 (PGSIZE * i))) \/
    (i = Bitmap.BITMAP_ERROR /\ s' = s /\ forall a, ~ run s u a cnt false)) s) as (i&s'&E&Hi)%wp_ok.
  { apply search_ok; [done|lia| |by right]. intros i s' Hs Hi Hm Hn. left. exists (base (get_pool u s) + 4096 * i).
    pose proof (w_pool _ Hw u) as [_ Hb _ Hl Hh]. pose proof (Bitmap.wf_cnt _ Hb). unfold pool_end, PHYS_BASE in *.
    rewrite (proj1 (ps_base _ _ _ _ _ _ Hs u)). split_and!; [done|unfold Bitmap.BITMAP_ERROR; lia|done|].
    unfold PGSIZE. rewrite !wrapu_small; unfold in_u; rewrite ?wrapu_small; unfold in_u; lia. }
  rewrite (search_then _ _ _ _ _ _ E). unfold bind at 1, gets. destruct Hi as [(a&Hs&Hne&Hm&Ea)|(->&->&Hno)].
  - left. rewrite (proj2 (Z.eqb_neq _ _) Hne). cbn [negb]. rewrite <- Ea. exists a.
    pose proof (ps_run _ _ _ _ _ _ Hs) as Hr. pose proof (w_pool _ Hw u) as [_ _ _ Hl Hh]. pose proof Hr as [R1 R2 R3 _].
    unfold PHYS_BASE in Hl. rewrite (proj2 (Z.eqb_neq a NULL)) by lia. cbn [negb].
    destruct (has flags PAL_ZERO); [|by exists s'].
    pose proof (run_mapped _ _ _ _ _ Hw Hr) as Hmap. rewrite <- Hm in Hmap.
    exists (set_mem (fill a cnt 0 (memory s)) s'). split_and!.
    + assert (u32 (PGSIZE * cnt) = 4096 * cnt) as -> by (unfold PGSIZE; apply wrapu_small; unfold in_u; lia).
      unfold bind, on_mem, zoom. rewrite CString.memset_eq; [|by apply (ps_wf _ _ _ _ _ _ Hs)|done|lia]. by rewrite Hm.
    + unfold fill. rewrite <- Hm. apply pages_set_write; [done|by rewrite length_replicate, Z2Nat.id by lia|].
      by apply Forall_replicate.
    + done.
  - right. rewrite Z.eqb_refl. cbn [negb]. split; [done|]. rewrite Z.eqb_refl. by destruct (has flags PAL_ASSERT).
Qed.

(** The same as a rule for callers that can do without the pages. *)
Lemma wp_get_multiple flags cnt Q s : wf s -> 0 < cnt -> has flags PAL_ASSERT = false ->
  (forall a s', pages_set s (has flags PAL_USER) a cnt true s' ->
     memory s' = (if has flags PAL_ZERO then fill a cnt 0 (memory s) else memory s) -> Q a s') ->
  ((forall a, ~ run s (has flags PAL_USER) a cnt false) -> Q NULL s) ->
  wp (palloc_get_multiple cur flags cnt) Q s.
Proof.
  intros Hw Hc Hf HQ HQ0. unfold wp. destruct (get_multiple_ok flags cnt s Hw Hc) as [(a&s'&E&Hs&Hm)|[Hno E]]; rewrite E.
  - by apply HQ.
  - rewrite Hf. by apply HQ0.
Qed.

Lemma page_from_pool_eq p x : pool_wf p -> 0 <= x < 2 ^ 32 -> x mod 4096 = 0 -> page_from_pool p x = page_in p x.
Proof.
  intros [_ Hb Ha Hl Hh] Hx Hm. pose proof (Bitmap.wf_cnt _ Hb). unfold page_from_pool, page_in, pool_end in *.
  rewrite !pg_no_div. apply eq_bool_prop_intro. rewrite !Is_true_true, !andb_true_iff, !Z.leb_le, !Z.ltb_lt, Z.eqb_eq.
  rewrite wrapu_small by (unfold in_u, PHYS_BASE in *; zlia). zlia.
Qed.

Lemma free_multiple_ok u a cnt s : wf s -> 0 < cnt -> run s u a cnt true ->
  exists s', palloc_free_multiple a cnt s = Ok (tt, s') /\ pages_set s u a cnt false s' /\
    memory s' = fill a cnt 0xcc (memory s).
Proof.
  intros Hw Hc Hr. pose proof (w_pool _ Hw u) as Hp. pose proof Hp as [_ Hb Ha Hl Hh]. pose proof Hr as [R1 R2 R3 R4].
  pose proof (Bitmap.wf_cnt _ Hb). destruct (run_group _ _ _ _ _ Hp Hr) as (Ei&Hi&Hn&Hg). unfold PHYS_BASE in Hl.
  assert (forall w, page_from_pool (get_pool w s) a = Bool.eqb w u) as Hfrom.
  { intros w. rewrite page_from_pool_eq; [|apply (w_pool _ Hw)|lia|done]. apply eq_bool_prop_intro.
    rewrite !Is_true_true, page_in_spec, eqb_true_iff. split; [|intros ->; split; [lia|done]].
    pose proof (w_disj _ Hw). destruct w, u; simpl in *; try done; lia. }
  set (i := (a - base (get_pool u s)) / 4096) in *. set (m' := fill a cnt 0xcc (memory s)).
  assert (u32 (PGSIZE * cnt) = 4096 * cnt) as Hsz by (unfold PGSIZE; apply wrapu_small; unfold in_u; lia).
  assert (wp (palloc_free_multiple a cnt) (fun _ s' => pages_set s u a cnt false s' /\ memory s' = m') s) as ([]&s'&?&?)%wp_ok; [|eauto].
  unfold palloc_free_multiple. rewrite pg_ofs_mod, R1. wp_go; [done|]. rewrite (proj2 (Z.eqb_neq a NULL)), (proj2 (Z.eqb_neq cnt 0)) by lia.
  cbn [orb]. wp_go. apply (wp_mono _ (fun w s' => w = u /\ s' = s)).
  { pose proof (Hfrom false) as E1. pose proof (Hfrom true) as E2. simpl in E1, E2. rewrite E1, E2. by destruct u. }
  intros w s1 [-> ->]. apply wp_bind, wp_zoom. unfold wp at 1. rewrite Hsz, CString.memset_eq; [|apply Hw|by eapply run_mapped|lia].
  change (u8 0xcc) with 0xcc. fold (fill a cnt 0xcc (memory s)). fold m'. change (St m' _ _) with (set_mem m' s). apply wp_bind, wp_zoom. rewrite get_set_mem.
  assert (u32 (pg_no a - pg_no (base (get_pool u s))) = i) as -> by (rewrite !pg_no_div, wrapu_small; unfold in_u, i; zlia).
  destruct (Bitmap.bitmap_contains_eq (used_map (get_pool u s)) i cnt false) as (r&E&Hcont); [done|lia..|].
  unfold wp at 1, Bitmap.bitmap_all. rewrite (bind_ok _ _ _ _ _ E). unfold ret at 1.
  destruct r; [destruct Hcont as (j&?&Hj); rewrite Hg in Hj by lia; done|]. wp_go; [done|]. apply wp_zoom.
  rewrite get_set_pool, Bool.eqb_reflx. cbn [used_map]. eapply wp_mono; [by apply Bitmap.wp_bitmap_set_multiple; (done || lia)|].
  intros [] b' Hset. pose proof (group_set_pages s u i cnt false b' Hw Hi Hn Hg Hset) as Hps. rewrite <- Ei in Hps.
  pose proof (pages_set_write _ _ _ _ _ _ a (replicate (Z.to_nat (4096 * cnt)) 0xcc) Hps) as Hps'.
  rewrite length_replicate, Z2Nat.id in Hps' by lia. specialize (Hps' ltac:(destruct u; exact (run_mapped s _ a cnt true Hw Hr)) ltac:(by apply Forall_replicate)).
  pose proof (pw_lock _ Hp) as Hlk. revert Hps'. clear - Hlk. destruct s as [? [] []], u; cbn in *; rewrite Hlk; done.
Qed.

(** A page of the kernel pool in use. *)
Definition kpage (s : state) (x : ptr) : Prop := in_use (kernel_pool s) x = true.

Lemma kpage_props s x : wf s -> kpage s x ->
  x mod 4096 = 0 /\ PHYS_BASE < x /\ x + 4096 <= 2 ^ 32 /\ mapped (memory s) x 4096.
Proof.
  intros Hw Hx. pose proof (w_pool _ Hw false) as Hp. cbn in Hp. pose proof Hp as [_ _ Ha Hl Hh].
  pose proof (w_mapped _ Hw false) as Hmap. cbn in Hmap.
  apply andb_true_iff in Hx as [Hx%page_in_spec _]. unfold pool_end in *.
  split_and!; [apply Hx|lia|zlia|]. intros q Hq. apply Hmap. zlia.
Qed.

Lemma page_disj x y : x mod 4096 = 0 -> y mod 4096 = 0 -> x <> y -> x + 4096 <= y \/ y + 4096 <= x.
Proof. intros. zlia. Qed.

Lemma fresh_kpage s x s1 : pages_set s false x 1 true s1 ->
  kpage s1 x /\ ~ kpage s x /\ forall y, kpage s y -> kpage s1 y.
Proof.
  intros [_ [R1 _ _ R4] _ P4]. assert (in_run x 1 x = true) as Hx by (apply in_run_spec; lia).
  pose proof (P4 false) as P. cbn in P, R4. unfold kpage. rewrite P, R4, Hx by done. split_and!; [done|done|].
  intros y Hy. rewrite P. by destruct (in_run x 1 y).
Qed.

(** ** What stays as it is *)

(** Pages in use stay in use and, but for those in [P], keep their bytes. *)
Definition untouched (P : ptr -> Prop) (s s' : state) : Prop :=
  forall w x, in_use (get_pool w s) x = true ->
    in_use (get_pool w s') x = true /\
    (~ P x -> forall q, x <= q < x + 4096 -> memory s' !! q = memory s !! q).

Lemma untouched_refl P s : untouched P s s.
Proof. intros w x Hx. done. Qed.

Lemma untouched_trans P s1 s2 s3 : untouched P s1 s2 -> untouched P s2 s3 -> untouched P s1 s3.
Proof.
  intros H1 H2 w x Hx. destruct (H1 w x Hx) as [Hx2 E1]. destruct (H2 w x Hx2) as [Hx3 E2]. split; [done|].
  intros HP q Hq. by rewrite E2, E1.
Qed.

Lemma untouched_mono (P P' : ptr -> Prop) s s' : (forall x, P x -> P' x) -> untouched P s s' -> untouched P' s s'.
Proof. intros HP H w x Hx. destruct (H w x Hx) as [? E]. split; [done|]. auto. Qed.

Lemma in_use_props s w x : wf s -> in_use (get_pool w s) x = true ->
  x mod 4096 = 0 /\ base (get_pool w s) <= x /\ x + 4096 <= pool_end (get_pool w s).
Proof.
  intros Hw Hx. pose proof (w_pool _ Hw w) as [_ _ Ha _ _]. apply andb_true_iff in Hx as [Hx%page_in_spec _].
  unfold pool_end in *. zlia.
Qed.

(** The pages of the two pools are different. *)
Lemma in_use_pool s w w' x : wf s -> in_use (get_pool w s) x = true -> in_use (get_pool w' s) x = true -> w = w'.
Proof.
  intros Hw H1%in_use_props H2%in_use_props; [|done..]. pose proof (w_disj _ Hw).
  destruct w, w'; simpl in *; try done; lia.
Qed.

Lemma write_untouched (P : ptr -> Prop) s a bs x : wf s -> P x -> kpage s x -> x <= a -> a + zlen bs <= x + 4096 ->
  untouched P s (set_mem (write (memory s) a bs) s).
Proof.
  intros Hw HP Hx H1 H2 w y Hy. rewrite get_set_mem. split; [done|]. intros Hn q Hq. cbn.
  rewrite lookup_write, decide_False; [done|]. assert (x <> y) as Hne by congruence.
  destruct (in_use_props s w y Hw Hy) as (?&_). destruct (in_use_props s false x Hw Hx) as (?&_).
  pose proof (page_disj x y ltac:(done) ltac:(done) Hne). lia.
Qed.

Lemma pages_set_untouched s w a s1 : wf s -> pages_set s w a 1 true s1 ->
  (forall q, ~ (a <= q < a + 4096) -> memory s1 !! q = memory s !! q) -> untouched (fun _ => False) s s1.
Proof.
  intros Hw Hs Hq w' x Hx. destruct Hs as [_ [R1 R2 R3 R4] _ P4]. split.
  - rewrite P4. by destruct (_ && _).
  - intros _ q Hr. apply Hq. intros Ha. destruct (in_use_props _ _ _ Hw Hx) as (H1&H2&H3).
    assert (x = a) as -> by zlia. assert (in_run a 1 a = true) as Hrun by (apply in_run_spec; lia).
    assert (w' = w) as ->; [|rewrite R4 in Hx by done; done]. pose proof (w_disj _ Hw). destruct w, w'; simpl in *; try done; lia.
Qed.

(** ** Initialization *)

Definition words_for (junk : Z -> list Z) : Prop := forall n, 0 <= n -> Z.of_nat (length (junk n)) = n /\ Forall (in_u 32) (junk n).

(** The pages of the bitmap of a pool of [cnt] pages. *)
Definition bm_pages (cnt : Z) : Z := (8 + 4 * ((cnt + 31) / 32) + 4095) / 4096.

Lemma bm_bounds cnt : 1 < cnt <= 2 ^ 32 - 32 -> 0 < bm_pages cnt < cnt /\ 8 + 4 * ((cnt + 31) / 32) <= bm_pages cnt * 4096 /\ bm_pages cnt <= cnt / 32768 + 2.
Proof. intros Hc. unfold bm_pages. zlia. Qed.

Lemma init_pool_map junk b cnt : words_for junk -> 1 < cnt <= 2 ^ 32 - 32 ->
  exists p, init_pool junk b cnt = Ok p /\ lock p = None /\ Bitmap.wf (used_map p) /\ Bitmap.bit_cnt (used_map p) = cnt - bm_pages cnt /\
    base p = u32 (b + bm_pages cnt * 4096) /\ forall i, 0 <= i < cnt - bm_pages cnt -> Bitmap.bit (used_map p) i = false.
Proof.
  intros Hj Hc. destruct (bm_bounds cnt Hc) as (Hbm&Hbm2&Hbm3).
  assert (forall n, 0 <= n <= 2 ^ 32 - 32 -> Bitmap.bitmap_buf_size n = 8 + 4 * ((n + 31) / 32) /\ Bitmap.elem_cnt n = (n + 31) / 32) as Hbuf.
  { intros n Hn. unfold Bitmap.bitmap_buf_size, Bitmap.byte_cnt, Bitmap.elem_cnt, Bitmap.ELEM_BITS.
    rewrite (wrapu_small 32 (n + 32 - 1)) by (unfold in_u; lia). replace (n + 32 - 1) with (n + 31) by lia.
    rewrite !wrapu_small; unfold in_u; rewrite ?wrapu_small; unfold in_u; zlia. }
  unfold init_pool, DIV_ROUND_UP. rewrite (proj1 (Hbuf cnt ltac:(lia))). unfold PGSIZE.
  rewrite (wrapu_small 32 (8 + _ + _ - _)) by (unfold in_u; zlia).
  replace ((8 + 4 * ((cnt + 31) / 32) + 4096 - 1) / 4096) with (bm_pages cnt) by (unfold bm_pages; f_equal; lia). set (bm := bm_pages cnt) in *. clearbody bm.
  rewrite (proj2 (Z.ltb_ge _ _)), (wrapu_small 32 (cnt - bm)) by (unfold in_u; lia).
  assert (bm * 4096 < 2 ^ 32) as Hb32 by zlia.
  destruct (Hbuf (cnt - bm) ltac:(lia)) as [E1 E2]. unfold Bitmap.bitmap_create_in_buf. rewrite E1, (wrapu_small 32 (bm * 4096)) by (unfold in_u; lia).
  assert ((cnt - bm + 31) / 32 <= (cnt + 31) / 32) by (apply Z.div_le_mono; lia). rewrite (proj2 (Z.leb_le _ _)) by lia.
  set (bmap := Bitmap.Bm (cnt - bm) (junk (Bitmap.elem_cnt (cnt - bm)))).
  assert (Bitmap.wf bmap) as Hwf by (split; cbn; [lia|apply Hj; rewrite E2; zlia|apply Hj; rewrite E2; zlia]).
  assert (wp (Bitmap.bitmap_set_all false) (fun _ => Bitmap.group_set bmap 0 (cnt - bm) false) bmap) as ([]&b'&E&(Hb'&Hn&Hs))%wp_ok.
  { unfold Bitmap.bitmap_set_all, Bitmap.bitmap_size. wp_go. apply Bitmap.wp_bitmap_set_multiple; (done || cbn; lia). }
  rewrite E. cbn [rbind]. eexists. split; [done|]. split_and!; [done|done|done|done|].
  intros i Hi. cbn [used_map]. rewrite Hs by (cbn; lia). destruct ((0 <=? _) && _) eqn:E3; [done|].
  apply andb_false_iff in E3 as [E3|E3]; [apply Z.leb_gt in E3|apply Z.ltb_ge in E3]; lia.
Qed.

Lemma init_pool_ok junk b cnt : words_for junk -> 1 < cnt <= 2 ^ 18 -> b mod 4096 = 0 -> PHYS_BASE < b -> b + 4096 * cnt <= 2 ^ 32 ->
  exists p, init_pool junk b cnt = Ok p /\ pool_wf p /\ b <= base p /\ Bitmap.bit_cnt (used_map p) = cnt - bm_pages cnt /\ pool_end p = b + 4096 * cnt /\ forall x, in_use p x = false.
Proof.
  intros Hj Hc Ha Hl Hh. unfold PHYS_BASE in Hl. destruct (bm_bounds cnt ltac:(lia)) as (Hbm&_&Hbm3). set (bm := bm_pages cnt) in *.
  destruct (init_pool_map junk b cnt Hj ltac:(lia)) as (p&E&Hlk&Hwf&Hn&Hb&Hbits). fold bm in Hn, Hb, Hbits. rewrite wrapu_small in Hb by (unfold in_u; lia).
  exists p. split; [done|]. assert (pool_end p = b + 4096 * cnt) as He by (unfold pool_end; lia).
  split_and!; [split; [done|done|zlia|unfold PHYS_BASE; lia|lia]|lia|done|done|].
  intros x. unfold in_use. destruct (page_in _ x) eqn:Hx; [|done]. apply page_in_spec in Hx as [Hx _]. apply Hbits. zlia.
Qed.

(** The pages that the limits leave to the kernel, its bitmap included. *)
Definition kernel_share (init_ram_pages ul fl : Z) : Z := Z.min fl (init_ram_pages - 256) - Z.min ul ((init_ram_pages - 256) / 2).

Lemma palloc_init_unfold init_ram_pages m junk ul fl : 260 <= init_ram_pages <= 2 ^ 18 ->
  palloc_init init_ram_pages m junk ul fl =
    (let? kp := init_pool junk 0xc0100000 (u32 (kernel_share init_ram_pages ul fl)) in
     let? up := init_pool junk (u32 (0xc0100000 + u32 (u32 (kernel_share init_ram_pages ul fl) * 4096))) (Z.min ul ((init_ram_pages - 256) / 2)) in
     Ok (St m kp up)).
Proof.
  intros Hram. unfold palloc_init. change (ptov (1024 * 1024)) with (@Ok ptr 0xc0100000). cbn [rbind].
  unfold ptov, PGSIZE, PHYS_BASE. rewrite (wrapu_small 32 (_ * 4096)), (proj2 (Z.ltb_lt _ _)) by (unfold in_u; lia). cbn [rbind].
  assert (s32 (u32 (init_ram_pages * 4096 + 0xc0000000) - 0xc0100000) = 4096 * (init_ram_pages - 256)) as ->.
  { rewrite (wraps_eq 32 _ (4096 * (init_ram_pages - 256))); [apply wraps_small; unfold in_s; lia|]. unfold wrapu. rewrite Zminus_mod_idemp_l. f_equal. lia. }
  rewrite (Z.mul_comm 4096), Z.quot_mul, (wrapu_small 32 (init_ram_pages - 256)) by (unfold in_u; lia). unfold kernel_share. set (n := init_ram_pages - 256).
  replace (if fl <? n then fl else n) with (Z.min fl n) by (destruct (Z.ltb_spec fl n); lia).
  by replace (if ul <? n / 2 then ul else n / 2) with (Z.min ul (n / 2)) by (destruct (Z.ltb_spec ul (n / 2)); lia).
Qed.

Lemma palloc_init_ok init_ram_pages m junk ul fl : let k := kernel_share init_ram_pages ul fl in
  260 <= init_ram_pages <= 2 ^ 18 -> 1 < ul -> 1 < k -> words_for junk ->
  mem_ok m -> byte_mem m -> mapped m (PHYS_BASE + 2 ^ 20) (4096 * (init_ram_pages - 256)) ->
  exists s, palloc_init init_ram_pages m junk ul fl = Ok s /\ wf s /\ memory s = m /\ (forall u x, in_use (get_pool u s) x = false) /\
    Bitmap.bit_cnt (used_map (kernel_pool s)) = k - bm_pages k.
Proof.
  intros k Hram Hul Hk Hj Hm Hb Hmap. rewrite palloc_init_unfold by done. fold k. unfold PHYS_BASE in *. set (n := init_ram_pages - 256) in *.
  set (up := Z.min ul (n / 2)). assert (1 < up <= n / 2) as Hup by (unfold up; zlia).
  assert (k <= n - up) as Hkn by (unfold k, kernel_share; fold n up; lia). assert (up + k <= n) as Hupk by lia. clearbody k. clearbody up.
  rewrite (wrapu_small 32 k), (wrapu_small 32 (k * 4096)), wrapu_small by (unfold in_u; zlia).
  destruct (init_pool_ok junk 0xc0100000 k) as (kp&E1&Hk'&Hkb&Hkn'&Hke&Hku); [done|zlia|done|done|zlia|].
  destruct (init_pool_ok junk (0xc0100000 + k * 4096) up) as (p&E2&Hp&Hpb&_&Hpe&Hpu); [done|zlia|zlia|unfold PHYS_BASE; zlia|zlia|].
  rewrite E1. cbn [rbind]. rewrite E2. cbn [rbind]. eexists. split; [done|]. split_and!; [|done|by intros []|done].
  split; [done|done|by intros []|left; cbn; lia|]. intros u q Hq. apply Hmap. destruct u; unfold pool_end in *; cbn in *; zlia.
Qed.

(** A limit on the free pages below half of them makes the size of the kernel
    pool wrap around: it is set up with more pages than the machine has. *)
Lemma free_limit_wraps init_ram_pages m junk ul fl : 260 <= init_ram_pages <= 2 ^ 18 -> 2 <= (init_ram_pages - 256) / 2 <= ul ->
  0 <= fl -> fl + 32 <= (init_ram_pages - 256) / 2 -> words_for junk ->
  exists s, palloc_init init_ram_pages m junk ul fl = Ok s /\ 2 ^ 31 < Bitmap.bit_cnt (used_map (kernel_pool s)).
Proof.
  intros Hram Hul Hfl Hw Hj. rewrite palloc_init_unfold by done. set (n := init_ram_pages - 256) in *.
  assert (u32 (kernel_share init_ram_pages ul fl) = 2 ^ 32 + fl - n / 2) as Ek.
  { unfold kernel_share. fold n. unfold wrapu. replace (Z.min fl n - Z.min ul (n / 2)) with (fl - n / 2) by zlia. zlia. }
  rewrite Ek. destruct (init_pool_map junk 0xc0100000 (2 ^ 32 + fl - n / 2) Hj ltac:(zlia)) as (kp&E1&_&_&Hkn&_).
  rewrite E1. cbn [rbind]. rewrite Z.min_r by lia.
  destruct (init_pool_map junk (u32 (0xc0100000 + u32 ((2 ^ 32 + fl - n / 2) * 4096))) (n / 2) Hj ltac:(zlia)) as (p&E2&_). rewrite E2. cbn [rbind].
  eexists. split; [done|]. cbn [kernel_pool]. rewrite Hkn. destruct (bm_bounds (2 ^ 32 + fl - n / 2) ltac:(zlia)) as (_&_&Hb). zlia.
Qed.
End facts.

#[global] Opaque fill.

(** ** Properties *)

(** C32. Getting [cnt] pages from a pool succeeds exactly when the pool has
    [cnt] consecutive free pages: it returns such pages, marks them and no
    others as used, and changes no memory but to zero those pages when asked
    to; otherwise it returns a null pointer and changes nothing, or panics when
    the caller asked for that.  Freeing the pages afterwards makes the same
    pages free as before, and touches no memory outside them. *)
Theorem palloc_get_free cur flags cnt s : wf s -> 0 < cnt ->
  let u := has flags PAL_USER in
  (exists a s', palloc_get_multiple cur flags cnt s = Ok (a, s') /\ pages_set s u a cnt true s' /\
     memory s' = (if has flags PAL_ZERO then fill a cnt 0 (memory s) else memory s) /\
     exists s2, palloc_free_multiple a cnt s' = Ok (tt, s2) /\ wf s2 /\
       (forall w x, in_use (get_pool w s2) x = in_use (get_pool w s) x) /\
       (forall q, ~ (a <= q < a + 4096 * cnt) -> memory s2 !! q = memory s !! q)) \/
  ((forall a, ~ run s u a cnt false) /\
   palloc_get_multiple cur flags cnt s = if has flags PAL_ASSERT then Err EPanic else Ok (NULL, s)).
Proof.
  intros Hw Hc u. destruct (get_multiple_ok cur flags cnt s Hw Hc) as [(a&s'&E&Hs&Hm)|]; [left|by right].
  exists a, s'. split_and!; [done..|]. fold u in Hs. pose proof Hs as [P1 P2 P3 P4]. pose proof P2 as [R1 R2 R3 R4].
  destruct (free_multiple_ok u a cnt s' P1 Hc) as (s2&E2&Hs2&Hm2).
  { split; [done|by rewrite (proj1 (P3 u))|by rewrite (proj2 (P3 u))|]. intros b Hb. by rewrite P4, Bool.eqb_reflx, Hb. }
  exists s2. split_and!; [done|by apply (ps_wf _ _ _ _ _ _ Hs2)|..].
  - intros w x. rewrite (ps_use _ _ _ _ _ _ Hs2), P4. destruct (Bool.eqb_spec w u) as [->|]; [|done]. cbn [andb].
    destruct (in_run a cnt x) eqn:Hx; [|done]. symmetry. by apply R4.
  - intros q Hq. rewrite Hm2, fill_lookup, decide_False by lia. rewrite Hm.
    destruct (has flags PAL_ZERO); [|done]. by rewrite fill_lookup, decide_False by lia.
Qed.

(** [palloc_init] gives every page of memory above 1 MB to one of two
    disjoint pools, with all pages free, provided the machine has more than a
    megabyte and the limit on free pages is above half of them. *)
Theorem palloc_init_correct init_ram_pages m junk ul fl :
  260 <= init_ram_pages <= 2 ^ 18 -> 1 < ul -> (init_ram_pages - 256) / 2 + 1 < fl -> words_for junk ->
  mem_ok m -> byte_mem m -> mapped m (PHYS_BASE + 2 ^ 20) (4096 * (init_ram_pages - 256)) ->
  exists s, palloc_init init_ram_pages m junk ul fl = Ok s /\ wf s /\ memory s = m /\ forall u x, in_use (get_pool u s) x = false.
Proof.
  intros. destruct (palloc_init_ok init_ram_pages m junk ul fl) as (s&?&?&?&?&_); [done|done|unfold kernel_share; zlia|done..|]. by exists s.
Qed.

(** ** Witnesses *)

Definition demo : state :=
  St (blank 0xc0100000 0x8000) (Pool None (Bitmap.Bm 3 [0]) 0xc0101000) (Pool None (Bitmap.Bm 3 [1]) 0xc0105000).

Lemma demo_wf : wf demo.
Proof.
  split; [by apply blank_ok|by apply blank_bytes| |left; by vm_compute|].
  - assert (forall w b, in_u 32 w -> (b = 0xc0101000 \/ b = 0xc0105000) -> pool_wf (Pool None (Bitmap.Bm 3 [w]) b)) as H.
    { intros w b Hw Hb. split; [done|split; cbn; [lia|done|by apply Forall_singleton]| | |]; unfold PHYS_BASE, pool_end; cbn; destruct Hb as [-> | ->]; done. }
    intros []; apply H; auto; unfold in_u; lia.
  - intros []; apply blank_mapped; cbn; lia.
Qed.

Lemma palloc_get_free_witness :
  exists a s', palloc_get_multiple 7 PAL_USER 2 demo = Ok (a, s') /\ pages_set demo true a 2 true s'.
Proof.
  destruct (palloc_get_free 7 PAL_USER 2 demo demo_wf ltac:(lia)) as [(a&s'&E&Hs&_)|[_ E]]; [exists a, s'; split; [exact E|exact Hs]|].
  apply (f_equal (fun r => match r with Ok (a, _) => a | Err _ => 0 end)) in E. vm_compute in E. discriminate E.
Defined.

Lemma palloc_init_correct_witness :
  exists s, palloc_init 1024 (blank 0xc0100000 0x300000) (fun n => replicate (Z.to_nat n) 0) UINT_MAX UINT_MAX = Ok s /\ wf s.
Proof.
  destruct (palloc_init_correct 1024 (blank 0xc0100000 0x300000) (fun n => replicate (Z.to_nat n) 0) UINT_MAX UINT_MAX) as (s&E&Hw&_).
  - lia.
  - lia.
  - vm_compute. reflexivity.
  - intros n Hn. rewrite length_replicate, Z2Nat.id by lia. split; [reflexivity|]. apply Forall_replicate. done.
  - apply blank_ok; lia.
  - apply blank_bytes. lia.
  - apply blank_mapped; unfold PHYS_BASE; lia.
  - exists s. split; [exact E|exact Hw].
Defined.
End Palloc.
