(* ===== verification/Pagedir.v ===== *)
(** * Page directories: userprog/pagedir.c

    Page directories and page tables are arrays of words in the byte memory of
    the page allocator.  The processor's part is the register CR3 and the
    translation lookaside buffer, which loading CR3 empties. *)

From S2P Require Import Prelude.
From S2P Require Import Mem.
From S2P Require Import Bitmap.
From S2P Require Import CString.
From S2P Require Import Words.
From S2P Require Import Vaddr.
From S2P Require Import Palloc.
Local Open Scope Z_scope.

Module Pagedir.
Import Mem Words Vaddr.

(** ** The code *)

(** [tlb] maps pages to the entries the processor may still use for them. *)
Record state := St { pages : Palloc.state; cr3 : Z; tlb : gmap Z Z }.

Definition on_pages {A} (m : M Palloc.state A) : M state A :=
  zoom pages (fun p s => St p (cr3 s) (tlb s)) m.
Definition on_mem {A} (m : M mem A) : M state A := on_pages (Palloc.on_mem m).

Section code.
Context (cur init_ram_pages : Z) (init_page_dir : ptr).

Definition pagedir_create : M state ptr :=
  let! pd := on_pages (Palloc.palloc_get_page cur 0) in
  do! (if negb (pd =? NULL) then do! on_mem (CString.memcpy pd init_page_dir PGSIZE) in ret tt else ret tt) in
  ret pd.

(** The body of the inner loop of [pagedir_destroy], on entry [j] of table [pt]. *)
Definition destroy_pte (pt : ptr) (j : Z) : M state unit :=
  let! pte := on_mem (load32 (pt + 4 * j)) in
  if has pte PTE_P then
    let! page := lift_res (pte_get_page pte) in
    on_pages (Palloc.palloc_free_page page)
  else ret tt.

(** The body of its outer loop, on entry [i] of the directory. *)
Definition destroy_pde (pd : ptr) (i : Z) : M state unit :=
  let! pde := on_mem (load32 (pd + 4 * i)) in
  if has pde PTE_P then
    let! pt := lift_res (pde_get_pt pde) in
    do! for_ (Z.to_nat (PGSIZE / 4)) 0 (destroy_pte pt) in
    on_pages (Palloc.palloc_free_page pt)
  else ret tt.

Definition pagedir_destroy (pd : ptr) : M state unit :=
  if pd =? NULL then ret tt
  else
    do! assert (negb (pd =? init_page_dir)) in
    do! for_ (Z.to_nat (pd_no PHYS_BASE)) 0 (destroy_pde pd) in
    on_pages (Palloc.palloc_free_page pd).

(** Returns the address of the page table entry. *)
Definition lookup_page (pd vaddr : ptr) (create : bool) : M state ptr :=
  do! assert (negb (pd =? NULL)) in
  do! assert (negb create || is_user_vaddr vaddr) in
  let pde := pd + 4 * pd_no vaddr in
  let! e := on_mem (load32 pde) in
  let! found := (if e =? 0 then
                   if create then
                     let! pt := on_pages (Palloc.palloc_get_page cur Palloc.PAL_ZERO) in
                     if pt =? NULL then ret false
                     else
                       let! e := lift_res (pde_create pt) in
                       do! on_mem (store32 pde e) in
                       ret true
                   else ret false
                 else ret true) in
  if found then
    let! e := on_mem (load32 pde) in
    let! pt := lift_res (pde_get_pt e) in
    ret (pt + 4 * pt_no vaddr)
  else ret NULL.

Definition pagedir_set_page (pd upage kpage : ptr) (writable : bool) : M state bool :=
  do! assert (pg_ofs upage =? 0) in
  do! assert (pg_ofs kpage =? 0) in
  do! assert (is_user_vaddr upage) in
  let! pa := lift_res (vtop kpage) in
  do! assert (Z.shiftr pa PTSHIFT <? init_ram_pages) in
  do! assert (negb (pd =? init_page_dir)) in
  let! pte := lookup_page pd upage true in
  if negb (pte =? NULL) then
    let! w := on_mem (load32 pte) in
    do! assert (negb (has w PTE_P)) in
    let! w := lift_res (pte_create_user kpage writable) in
    do! on_mem (store32 pte w) in
    ret true
  else ret false.

Definition pagedir_get_page (pd uaddr : ptr) : M state ptr :=
  do! assert (is_user_vaddr uaddr) in
  let! pte := lookup_page pd uaddr false in
  if pte =? NULL then ret NULL
  else
    let! w := on_mem (load32 pte) in
    if has w PTE_P then
      let! page := lift_res (pte_get_page w) in
      ret (u32 (page + pg_ofs uaddr))
    else ret NULL.

Definition pagedir_activate (pd : ptr) : M state unit :=
  let pd := if pd =? NULL then init_page_dir else pd in
  let! pa := lift_res (vtop pd) in
  modify (fun s => St (pages s) pa ∅).

Definition active_pd : M state ptr :=
  let! pd := gets cr3 in lift_res (ptov pd).

Definition invalidate_pagedir (pd : ptr) : M state unit :=
  let! active := active_pd in
  if active =? pd then pagedir_activate pd else ret tt.

Definition pagedir_clear_page (pd upage : ptr) : M state unit :=
  do! assert (pg_ofs upage =? 0) in
  do! assert (is_user_vaddr upage) in
  let! pte := lookup_page pd upage false in
  if pte =? NULL then ret tt
  else
    let! w := on_mem (load32 pte) in
    if has w PTE_P then
      do! on_mem (store32 pte (Z.land w (u32 (Z.lnot PTE_P)))) in
      invalidate_pagedir pd
    else ret tt.

(** [pagedir_is_dirty] and [pagedir_is_accessed]. *)
Definition pagedir_test (flag : Z) (pd vpage : ptr) : M state bool :=
  let! pte := lookup_page pd vpage false in
  if pte =? NULL then ret false
  else let! w := on_mem (load32 pte) in ret (has w flag).
Definition pagedir_is_dirty : ptr -> ptr -> M state bool := pagedir_test PTE_D.
Definition pagedir_is_accessed : ptr -> ptr -> M state bool := pagedir_test PTE_A.

(** [pagedir_set_dirty] and [pagedir_set_accessed]. *)
Definition pagedir_put (flag : Z) (pd vpage : ptr) (v : bool) : M state unit :=
  let! pte := lookup_page pd vpage false in
  if pte =? NULL then ret tt
  else
    let! w := on_mem (load32 pte) in
    if v then on_mem (store32 pte (Z.lor w flag))
    else
      do! on_mem (store32 pte (Z.land w (u32 (Z.lnot flag)))) in
      invalidate_pagedir pd.
Definition pagedir_set_dirty : ptr -> ptr -> bool -> M state unit := pagedir_put PTE_D.
Definition pagedir_set_accessed : ptr -> ptr -> bool -> M state unit := pagedir_put PTE_A.
End code.

(** ** What a page directory says *)

Abbreviation mem_of := Palloc.memory.
Abbreviation kpage := Palloc.kpage.
Abbreviation untouched := Palloc.untouched.
Abbreviation set_mem := Palloc.set_mem.

(** The page table for an address, and its entry there: 0 without a table. *)
Definition pt_of (m : mem) (pd va : ptr) : option ptr :=
  let e := rd m (pd + 4 * pd_no va) in if e =? 0 then None else Some (PHYS_BASE + Z.land e PTE_ADDR).
Definition entry (m : mem) (pd va : ptr) : Z :=
  match pt_of m pd va with None => 0 | Some pt => rd m (pt + 4 * pt_no va) end.

(** The entries for user addresses are empty or point to page tables, no two
    to the same one. *)
Record dir (s : Palloc.state) (pd : ptr) : Prop := Dir {
  d_wf : Palloc.wf s;
  d_pd : kpage s pd;
  d_pde : forall i, 0 <= i < 768 -> let e := rd (mem_of s) (pd + 4 * i) in
    e = 0 \/ exists pt, kpage s pt /\ pt <> pd /\ e = pt - PHYS_BASE + 7;
  d_inj : forall i j, 0 <= i < 768 -> 0 <= j < 768 -> rd (mem_of s) (pd + 4 * i) <> 0 ->
    rd (mem_of s) (pd + 4 * i) = rd (mem_of s) (pd + 4 * j) -> i = j }.

Definition user (va : ptr) : Prop := in_u 32 va /\ is_user_vaddr va = true.

Section facts.
Context (cur init_ram_pages : Z) (init_page_dir : ptr).
Implicit Types (s : Palloc.state) (pd va : ptr).

Lemma pde_eq pt : pt mod 4096 = 0 -> PHYS_BASE < pt < 2 ^ 32 ->
  pde_create pt = Ok (pt - PHYS_BASE + 7) /\ pde_get_pt (pt - PHYS_BASE + 7) = Ok pt /\
  PHYS_BASE + Z.land (pt - PHYS_BASE + 7) PTE_ADDR = pt.
Proof.
  intros Ha Hr. unfold PHYS_BASE in *. rewrite pte_addr_eq by (unfold in_u; lia).
  assert (0xc0000000 + 4096 * ((pt - 0xc0000000 + 7) / 4096) = pt) as E by zlia. split_and!; [..|done].
  - unfold pde_create, vtop, is_kernel_vaddr, PHYS_BASE. rewrite pg_ofs_mod, Ha, (proj2 (Z.leb_le _ _)) by lia. cbn [rbind Z.eqb].
    rewrite wrapu_small by (unfold in_u; lia). rewrite <- !Z.lor_assoc. change (Z.lor PTE_U (Z.lor PTE_P PTE_W)) with 7.
    rewrite (lor_low _ _ 12); [done|lia..|zlia].
  - unfold pde_get_pt, ptov, has, PHYS_BASE, PTE_P. rewrite pte_addr_eq by (unfold in_u; lia).
    change 1 with (Z.ones 1). rewrite Z.land_ones by lia. change (2 ^ 1) with 2.
    replace ((pt - 0xc0000000 + 7) mod 2) with 1 by zlia. cbn [Z.eqb negb]. rewrite (proj2 (Z.ltb_lt _ _)) by zlia.
    rewrite wrapu_small by (unfold in_u; zlia). f_equal. lia.
Qed.

(** The directory entry for a user address. *)
Lemma pt_of_cases s pd va : dir s pd -> user va ->
  let e := rd (mem_of s) (pd + 4 * pd_no va) in
  (e = 0 /\ pt_of (mem_of s) pd va = None) \/
  (exists pt, kpage s pt /\ pt <> pd /\ e <> 0 /\ pde_get_pt e = Ok pt /\ pt_of (mem_of s) pd va = Some pt).
Proof.
  intros Hd [Hu Hv]. apply pd_no_user in Hv; [|done]. destruct (d_pde _ _ Hd _ Hv) as [E|(pt&Hk&Hne&E)]; unfold pt_of.
  - left. by rewrite E.
  - right. exists pt. destruct (Palloc.kpage_props _ _ (d_wf _ _ Hd) Hk) as (Ha&Hl&Hh&_).
    destruct (pde_eq pt Ha ltac:(lia)) as (_&E2&E3). rewrite E. split_and!; [done|done|lia|done|].
    by rewrite (proj2 (Z.eqb_neq _ _)), E3 by lia.
Qed.

(** Two user addresses share a table only when their directory index is the same. *)
Lemma pt_of_inj s pd va va' pt : dir s pd -> user va -> user va' ->
  pt_of (mem_of s) pd va = Some pt -> pt_of (mem_of s) pd va' = Some pt -> pd_no va = pd_no va'.
Proof.
  intros Hd Hu Hu' E E'. pose proof Hu as [H1 H2%pd_no_user]; [|done]. pose proof Hu' as [H1' H2'%pd_no_user]; [|done].
  assert (forall v, user v -> pt_of (mem_of s) pd v = Some pt -> rd (mem_of s) (pd + 4 * pd_no v) = pt - PHYS_BASE + 7) as H.
  { intros v Hv Ev. pose proof Hv as [Hv1 Hv2%pd_no_user]; [|done]. destruct (d_pde _ _ Hd _ Hv2) as [E0|(pt'&Hk&_&E0)].
    - unfold pt_of in Ev. rewrite E0 in Ev. done.
    - destruct (Palloc.kpage_props _ _ (d_wf _ _ Hd) Hk) as (Ha&Hl&Hh&_). destruct (pde_eq pt' Ha ltac:(lia)) as (_&_&E3).
      unfold pt_of in Ev. rewrite E0, E3, (proj2 (Z.eqb_neq _ _)) in Ev by lia. injection Ev as ->. done. }
  pose proof (H _ Hu E) as R. pose proof (H _ Hu' E') as R'. apply (d_inj _ _ Hd); [done|done| |congruence].
  intros E0. unfold pt_of in E. rewrite E0 in E. done.
Qed.

(** ** Changing an entry *)

(** The words of a directory that a change of memory does not reach. *)
Lemma dir_ext s s' pd : dir s pd -> Palloc.wf s' -> (forall x, kpage s x -> kpage s' x) ->
  (forall q, pd <= q < pd + 4096 -> mem_of s' !! q = mem_of s !! q) -> dir s' pd.
Proof.
  intros [D1 D2 D3 D4] Hw Hk Hm. assert (forall i, 0 <= i < 768 -> rd (mem_of s') (pd + 4 * i) = rd (mem_of s) (pd + 4 * i)) as Hr.
  { intros i Hi. apply rd_ext. intros q Hq. apply Hm. lia. }
  split; [done|by apply Hk| |].
  - intros i Hi. simpl. rewrite Hr by done. destruct (D3 i Hi) as [|(pt&?&?&?)]; [by left|right]. exists pt. auto.
  - intros i j Hi Hj. rewrite !Hr by done. by apply D4.
Qed.

Lemma pt_of_ext m m' pd va : (forall q, pd <= q < pd + 4096 -> m' !! q = m !! q) -> user va -> pt_of m' pd va = pt_of m pd va.
Proof.
  intros Hm [Hu Hv%pd_no_user]; [|done]. unfold pt_of. rewrite (rd_ext m m'); [done|]. intros q Hq. apply Hm. lia.
Qed.

Lemma set_entry s pd va pt w : dir s pd -> user va -> pt_of (mem_of s) pd va = Some pt -> in_u 32 w ->
  let m' := write (mem_of s) (pt + 4 * pt_no va) (le32 w) in
  dir (set_mem m' s) pd /\ (forall va', user va' -> pt_of m' pd va' = pt_of (mem_of s) pd va') /\
  (forall va', user va' -> entry m' pd va' = if pg_no va' =? pg_no va then w else entry (mem_of s) pd va').
Proof.
  intros Hd Hu Hpt Hw m'. destruct (pt_of_cases s pd va Hd Hu) as [[_ ?]|(pt'&Hk&Hne&_&_&E)]; [congruence|].
  rewrite Hpt in E. injection E as <-. pose proof (d_wf _ _ Hd) as Hwf.
  destruct (Palloc.kpage_props _ _ Hwf Hk) as (Ha&Hl&Hh&Hmap). destruct (Palloc.kpage_props _ _ Hwf (d_pd _ _ Hd)) as (Ha'&_).
  destruct (vaddr_range va (proj1 Hu)) as (_&Hn&_). pose proof (Palloc.page_disj _ _ Ha Ha' Hne) as Hdis.
  assert (forall q, pd <= q < pd + 4096 -> m' !! q = mem_of s !! q) as Hout.
  { intros q Hq. unfold m'. rewrite lookup_write, decide_False by (simpl length; lia). done. }
  assert (forall va', user va' -> pt_of m' pd va' = pt_of (mem_of s) pd va') as Hpts by (intros; by apply pt_of_ext).
  split_and!; [|done|].
  - apply (dir_ext s); [done| |done|done]. apply Palloc.write_wf; [done| |apply le32_bytes]. intros q Hq. apply Hmap. simpl length in Hq. lia.
  - intros va' Hu'. unfold entry. rewrite Hpts by done. destruct (vaddr_range va' (proj1 Hu')) as (_&Hn'&_).
    destruct (pt_of_cases s pd va' Hd Hu') as [[_ E]|(pt'&Hk'&_&_&_&E)]; rewrite E.
    + destruct (Z.eqb_spec (pg_no va') (pg_no va)) as [Epg|]; [|done]. exfalso.
      assert (pd_no va' = pd_no va) as Epd by (rewrite !pd_no_div, !pg_no_div in *; zlia). unfold pt_of in E, Hpt. rewrite Epd in E. congruence.
    + assert (pg_no va' = pg_no va <-> pd_no va' = pd_no va /\ pt_no va' = pt_no va) as Epg
        by (rewrite !pg_no_div, !pd_no_div, !pt_no_div; zlia).
      destruct (decide (pt' = pt)) as [->|Hpne].
      * pose proof (pt_of_inj s pd va va' pt Hd Hu Hu' Hpt E) as Epd. unfold m'. rewrite rd_write by (done || lia).
        destruct (Z.eqb_spec (pg_no va') (pg_no va)), (Z.eqb_spec (pt + 4 * pt_no va) (pt + 4 * pt_no va')); try done; exfalso; lia.
      * destruct (Palloc.kpage_props _ _ Hwf Hk') as (Ha2&_). pose proof (Palloc.page_disj _ _ Ha Ha2 ltac:(done)) as Hd2.
        unfold m'. rewrite rd_write by (done || lia). rewrite (proj2 (Z.eqb_neq (pt + _) _)) by lia.
        destruct (Z.eqb_spec (pg_no va') (pg_no va)) as [Epg'|]; [|done]. apply Epg in Epg' as [Epd _].
        unfold pt_of in E, Hpt. rewrite Epd in E. congruence.
Qed.

(** ** A new page table *)

Lemma rd_zeros m a k : 0 <= k <= 1023 -> rd (Palloc.fill a 1 0 m) (a + 4 * k) = 0.
Proof.
  intros Hk. unfold rd. by rewrite !Palloc.fill_lookup, !decide_True by lia.
Qed.

Lemma new_table s pd va pt s1 : dir s pd -> user va -> pt_of (mem_of s) pd va = None ->
  Palloc.pages_set s false pt 1 true s1 -> mem_of s1 = Palloc.fill pt 1 0 (mem_of s) ->
  let m' := write (mem_of s1) (pd + 4 * pd_no va) (le32 (pt - PHYS_BASE + 7)) in
  dir (set_mem m' s1) pd /\ pt_of m' pd va = Some pt /\
  (forall va', user va' -> entry m' pd va' = entry (mem_of s) pd va') /\
  (forall va' x, user va' -> pt_of m' pd va' = Some x -> x = pt \/ pt_of (mem_of s) pd va' = Some x).
Proof.
  intros Hd Hu Hno Hs Hm m'. destruct (Palloc.fresh_kpage _ _ _ Hs) as (Hk1&Hk0&Hmono). pose proof (Palloc.ps_wf _ _ _ _ _ _ Hs) as Hw1.
  destruct (Palloc.kpage_props _ _ Hw1 Hk1) as (Ha&Hl&Hh&Hmap). pose proof (d_pd _ _ Hd) as Hpd. pose proof (d_wf _ _ Hd) as Hw.
  destruct (Palloc.kpage_props _ _ Hw Hpd) as (Ha'&_). destruct (Palloc.kpage_props _ _ Hw1 (Hmono _ Hpd)) as (_&Hl'&Hh'&Hmap').
  destruct (pde_eq pt Ha ltac:(lia)) as (_&Eget&Eaddr).
  pose proof Hu as [Hu1 Hv%pd_no_user]; [|done].
  assert (forall y, kpage s y -> y + 4096 <= pt \/ pt + 4096 <= y) as Hdis.
  { intros y Hy. destruct (Palloc.kpage_props _ _ Hw Hy) as (?&_). apply Palloc.page_disj; [done|done|]. intros ->. by apply Hk0. }
  assert (in_u 32 (pt - PHYS_BASE + 7)) as Hin by (unfold in_u, PHYS_BASE in *; lia).
  assert (forall y q, kpage s y -> y <= q < y + 4096 -> mem_of s1 !! q = mem_of s !! q) as Hold.
  { intros y q Hy Hq. specialize (Hdis y Hy). rewrite Hm. rewrite Palloc.fill_lookup, decide_False by lia. done. }
  assert (forall i, 0 <= i < 768 -> rd m' (pd + 4 * i) = if i =? pd_no va then pt - PHYS_BASE + 7 else rd (mem_of s) (pd + 4 * i)) as Hpde.
  { intros i Hi. unfold m'. rewrite (rd_write _ _ _ _ Hin) by lia.
    destruct (Z.eqb_spec i (pd_no va)), (Z.eqb_spec (pd + 4 * pd_no va) (pd + 4 * i)); try lia.
    apply rd_ext. intros q Hq. apply (Hold pd); [done|lia]. }
  assert (Palloc.wf (set_mem m' s1)) as Hw'.
  { apply Palloc.write_wf; [done| |apply le32_bytes]. intros q Hq. apply Hmap'. simpl length in Hq. lia. }
  assert (pt_of m' pd va = Some pt) as Hpt.
  { unfold pt_of. rewrite Hpde, Z.eqb_refl, (proj2 (Z.eqb_neq _ _)), Eaddr by lia. done. }
  split_and!; [|done| |].
  - split; [done|by apply Hmono|..].
    + intros i Hi. simpl. rewrite Hpde by done. destruct (Z.eqb_spec i (pd_no va)).
      * right. exists pt. split_and!; [done| |done]. intros ->. by apply Hk0.
      * destruct (d_pde _ _ Hd i Hi) as [|(pt'&?&?&?)]; [by left|right]. exists pt'. split_and!; [by apply Hmono|done|done].
    + intros i j Hi Hj. simpl. rewrite !Hpde by done.
      assert (forall k, 0 <= k < 768 -> rd (mem_of s) (pd + 4 * k) <> pt - PHYS_BASE + 7) as Hn.
      { intros k Hk E. destruct (d_pde _ _ Hd k Hk) as [|(pt'&Hk'&_&E')]; [lia|]. apply Hk0. by replace pt with pt' by lia. }
      destruct (Z.eqb_spec i (pd_no va)) as [->|], (Z.eqb_spec j (pd_no va)) as [->|]; [done| | |by apply (d_inj _ _ Hd)].
      * intros _ E. by destruct (Hn j Hj).
      * intros _ E. by destruct (Hn i Hi).
  - intros va' Hu'. destruct (vaddr_range va' (proj1 Hu')) as (_&Hn'&_). pose proof Hu' as [Hu1' Hv'%pd_no_user]; [|done].
    unfold entry. destruct (decide (pd_no va' = pd_no va)) as [Epd|Epd].
    + unfold pt_of in *. rewrite Epd, Hpt, Hno. unfold m'. rewrite (rd_write _ _ _ _ Hin) by (specialize (Hdis pd Hpd); lia).
      rewrite (proj2 (Z.eqb_neq (pd + _) _)) by (specialize (Hdis pd Hpd); lia). rewrite Hm. apply rd_zeros. lia.
    + assert (pt_of m' pd va' = pt_of (mem_of s) pd va') as -> by (unfold pt_of; by rewrite Hpde, (proj2 (Z.eqb_neq _ _) Epd)).
      destruct (pt_of_cases s pd va' Hd Hu') as [[_ E]|(pt'&Hk'&Hne&_&_&E)]; rewrite E; [done|].
      destruct (Palloc.kpage_props _ _ Hw Hk') as (Ha2&_). pose proof (Palloc.page_disj _ _ Ha2 Ha' Hne).
      unfold m'. rewrite (rd_write _ _ _ _ Hin) by lia. rewrite (proj2 (Z.eqb_neq (pd + _) _)) by lia.
      apply rd_ext. intros q Hq. apply (Hold pt'); [done|lia].
  - intros va' x [Hu1' Hv'%pd_no_user]; [|done]. unfold pt_of in *. rewrite Hpde by done.
    destruct (Z.eqb_spec (pd_no va') (pd_no va)) as [Epd|]; [|by right]. rewrite Hpde, Z.eqb_refl in Hpt by done. rewrite Hpt. left. congruence.
Qed.

(** A directory after [lookup_page]: perhaps with one more table. *)
Record grown (s : Palloc.state) (pd : ptr) (s' : Palloc.state) : Prop := Grown {
  g_dir : dir s' pd;
  g_entry : forall va, user va -> entry (mem_of s') pd va = entry (mem_of s) pd va;
  g_rest : untouched (eq pd) s s';
  g_tables : forall va x, user va -> pt_of (mem_of s') pd va = Some x -> ~ kpage s x \/ pt_of (mem_of s) pd va = Some x;
  g_ends : forall w, Palloc.pool_end (Palloc.get_pool w s') = Palloc.pool_end (Palloc.get_pool w s) }.

Lemma grown_refl s pd : dir s pd -> grown s pd s.
Proof. intros Hd. split; [done|done|apply Palloc.untouched_refl|by right|done]. Qed.

(** Another directory is not affected. *)
Lemma untouched_dir P s s' pd : dir s pd -> Palloc.wf s' -> untouched P s s' -> ~ P pd ->
  (forall va pt, user va -> pt_of (mem_of s) pd va = Some pt -> ~ P pt) ->
  dir s' pd /\ forall va, user va -> entry (mem_of s') pd va = entry (mem_of s) pd va.
Proof.
  intros Hd Hw Hun Hn Hpt. pose proof (Hun false pd (d_pd _ _ Hd)) as [_ Epd]. specialize (Epd Hn).
  split; [apply (dir_ext s); [done|done| |done]; intros x Hx; by apply (Hun false)|].
  intros va Hu. unfold entry. rewrite (pt_of_ext (mem_of s)) by done.
  destruct (pt_of_cases s pd va Hd Hu) as [[_ E]|(pt&Hk&_&_&_&E)]; rewrite E; [done|].
  pose proof (Hun false pt Hk) as [_ Ept]. specialize (Ept (Hpt _ _ Hu E)). destruct (vaddr_range va (proj1 Hu)) as (_&Hn'&_).
  apply rd_ext. intros q Hq. apply Ept. lia.
Qed.

(** ** The routines *)

Definition put_pages (p : Palloc.state) (s : state) : state := St p (cr3 s) (tlb s).

Lemma wp_pte_load Q (s : state) p : Palloc.wf (pages s) -> mapped (mem_of (pages s)) p 4 ->
  Q (rd (mem_of (pages s)) p) s -> wp (on_mem (load32 p)) Q s.
Proof.
  intros Hw Hm HQ. apply wp_zoom, wp_zoom. unfold wp. rewrite load32_rd by (done || apply Hw). by destruct s as [[]].
Qed.

Lemma wp_pte_store Q (s : state) p w : mapped (mem_of (pages s)) p 4 ->
  Q tt (put_pages (set_mem (write (mem_of (pages s)) p (le32 w)) (pages s)) s) -> wp (on_mem (store32 p w)) Q s.
Proof. intros Hm HQ. apply wp_zoom, wp_zoom. unfold wp. by rewrite store32_eq. Qed.

Lemma pde_mapped s pd va : dir s pd -> user va -> mapped (mem_of s) (pd + 4 * pd_no va) 4.
Proof.
  intros Hd [Hu Hv%pd_no_user]; [|done]. destruct (Palloc.kpage_props _ _ (d_wf _ _ Hd) (d_pd _ _ Hd)) as (_&_&_&Hm).
  intros q Hq. apply Hm. lia.
Qed.

Lemma pte_mapped s pd va pt : dir s pd -> user va -> pt_of (mem_of s) pd va = Some pt -> mapped (mem_of s) (pt + 4 * pt_no va) 4 /\ 0 < pt + 4 * pt_no va.
Proof.
  intros Hd Hu E. destruct (pt_of_cases s pd va Hd Hu) as [[_ ?]|(pt'&Hk&_&_&_&E')]; [congruence|].
  rewrite E in E'. injection E' as <-. destruct (Palloc.kpage_props _ _ (d_wf _ _ Hd) Hk) as (_&Hl&_&Hm).
  destruct (vaddr_range va (proj1 Hu)) as (_&Hn&_). unfold PHYS_BASE in Hl. split; [|lia]. intros q Hq. apply Hm. lia.
Qed.

Definition pte_addr (m : mem) (pd va : ptr) : ptr :=
  match pt_of m pd va with None => NULL | Some pt => pt + 4 * pt_no va end.

(** The end of [lookup_page]: a table is there. *)
Lemma lookup_found Q (s : state) pd va : dir (pages s) pd -> user va -> pt_of (mem_of (pages s)) pd va <> None ->
  Q (pte_addr (mem_of (pages s)) pd va) s ->
  wp (let! e := on_mem (load32 (pd + 4 * pd_no va)) in let! pt := lift_res (pde_get_pt e) in ret (pt + 4 * pt_no va)) Q s.
Proof.
  intros Hd Hu Hp HQ. apply wp_bind, wp_pte_load; [apply Hd|by apply pde_mapped|].
  destruct (pt_of_cases _ pd va Hd Hu) as [[_ ?]|(pt&_&_&_&E&E')]; [done|].
  apply wp_bind, wp_lift. exists pt. split; [done|]. apply wp_ret. unfold pte_addr in HQ. by rewrite E' in HQ.
Qed.

Lemma lookup_page_ok Q (s : state) pd va : dir (pages s) pd -> user va ->
  Q (pte_addr (mem_of (pages s)) pd va) s -> wp (lookup_page cur pd va false) Q s.
Proof.
  intros Hd Hu HQ. destruct (Palloc.kpage_props _ _ (d_wf _ _ Hd) (d_pd _ _ Hd)) as (_&Hl&_). unfold PHYS_BASE in Hl.
  unfold lookup_page. wp_go; [by rewrite (proj2 (Z.eqb_neq _ _)) by lia|done|]. apply wp_pte_load; [apply Hd|by apply pde_mapped|]. wp_go.
  destruct (pt_of_cases _ pd va Hd Hu) as [[E E']|(pt&_&_&Hne&_&E')].
  - rewrite E, Z.eqb_refl. wp_go. unfold pte_addr in HQ. by rewrite E' in HQ.
  - rewrite (proj2 (Z.eqb_neq _ _) Hne). apply wp_ret, lookup_found; [done|done|congruence|done].
Qed.

(** [lookup_page] after it got a page for a new table. *)
Lemma table_installed Q (s : state) pd va pt p1 : dir (pages s) pd -> user va -> pt_of (mem_of (pages s)) pd va = None ->
  Palloc.pages_set (pages s) false pt 1 true p1 -> mem_of p1 = Palloc.fill pt 1 0 (mem_of (pages s)) ->
  (forall p', grown (pages s) pd p' -> pt_of (mem_of p') pd va <> None -> Q (pte_addr (mem_of p') pd va) (put_pages p' s)) ->
  wp (if pt =? NULL then ret false else let! e := lift_res (pde_create pt) in do! on_mem (store32 (pd + 4 * pd_no va) e) in ret true)
    (fun found (s' : state) => wp (if found then
      let! e := on_mem (load32 (pd + 4 * pd_no va)) in let! pt := lift_res (pde_get_pt e) in ret (pt + 4 * pt_no va) else ret NULL) Q s') (put_pages p1 s).
Proof.
  intros Hd Hu E' Hs Hm HQ. pose proof (d_wf _ _ Hd) as Hw. pose proof (Palloc.ps_wf _ _ _ _ _ _ Hs) as Hw1.
  destruct (Palloc.fresh_kpage _ _ _ Hs) as (Hk1&Hk0&Hmono). destruct (Palloc.kpage_props _ _ Hw1 Hk1) as (Ha&Hlp&Hh&_).
  destruct (new_table _ _ _ _ _ Hd Hu E' Hs Hm) as (Hd'&Ept&Hent&Htab). destruct (pde_eq pt Ha ltac:(lia)) as (Ec&_).
  rewrite (proj2 (Z.eqb_neq pt NULL)) by (unfold PHYS_BASE in Hlp; lia). apply wp_bind, wp_lift. eexists. split; [exact Ec|].
  apply wp_bind, wp_pte_store; [cbn; rewrite Hm; apply Palloc.fill_mapped; by apply pde_mapped|].
  apply wp_ret, lookup_found; [exact Hd'|exact Hu|by eapply not_eq_None_Some, mk_is_Some, Ept|].
  apply (HQ (set_mem _ p1)); [split; [exact Hd'|exact Hent| | |intros w; rewrite Palloc.get_set_mem; apply (Palloc.ps_base _ _ _ _ _ _ Hs w)]|by eapply not_eq_None_Some, mk_is_Some, Ept].
  2: { intros va' x Hu' E. destruct (Htab va' x Hu' E) as [->|]; [by left|by right]. }
  apply (Palloc.untouched_trans _ _ p1).
  - eapply Palloc.untouched_mono; [|apply (Palloc.pages_set_untouched _ false pt _ Hw Hs)]; [intros x []|].
    intros q Hq. rewrite Hm. rewrite Palloc.fill_lookup, decide_False by lia. reflexivity.
  - eapply Palloc.write_untouched; [exact Hw1|reflexivity|by apply Hmono, d_pd|..]; destruct Hu as [Hu Hv%pd_no_user]; [lia|done|simpl length; lia|done].
Qed.

Lemma lookup_create_ok Q (s : state) pd va : dir (pages s) pd -> user va ->
  (forall p', grown (pages s) pd p' -> pt_of (mem_of p') pd va <> None -> Q (pte_addr (mem_of p') pd va) (put_pages p' s)) ->
  (pt_of (mem_of (pages s)) pd va = None -> (forall a, ~ Palloc.run (pages s) false a 1 false) -> Q NULL s) ->
  wp (lookup_page cur pd va true) Q s.
Proof.
  intros Hd Hu HQ HQ0. pose proof (d_wf _ _ Hd) as Hw. destruct (Palloc.kpage_props _ _ Hw (d_pd _ _ Hd)) as (_&Hl&_). unfold PHYS_BASE in Hl.
  unfold lookup_page. wp_go; [by rewrite (proj2 (Z.eqb_neq _ _)) by lia|apply Hu|]. apply wp_pte_load; [done|by apply pde_mapped|]. wp_go.
  destruct (pt_of_cases _ pd va Hd Hu) as [[E E']|(pt&_&_&Hne&_&E')].
  - rewrite E, Z.eqb_refl. assert (has Palloc.PAL_ZERO Palloc.PAL_ZERO = true) as F1 by reflexivity.
    assert (has Palloc.PAL_ZERO Palloc.PAL_USER = false) as F2 by reflexivity.
    apply wp_bind, wp_zoom, Palloc.wp_get_multiple; [done|lia|done| |].
    + intros pt p1 Hs Hm. rewrite F1 in Hm. rewrite F2 in Hs. eapply table_installed; [done..|exact E'|exact Hs|exact Hm|exact HQ].
    + intros Hno. rewrite Z.eqb_refl. apply wp_ret, wp_ret. destruct s as [[]]. by apply HQ0.
  - rewrite (proj2 (Z.eqb_neq _ _) Hne). apply wp_ret, lookup_found; [done|done|congruence|].
    destruct s. apply HQ; [by apply grown_refl|cbn in *; congruence].
Qed.

(** ** Changing an entry through [lookup_page] *)

Definition tables (m : mem) (pd x : ptr) : Prop := x = pd \/ exists va, user va /\ pt_of m pd va = Some x.

(** The entry for the page of [va] became [w]; nothing else changed. *)
Record updated (s : Palloc.state) (pd va : ptr) (w : Z) (s' : Palloc.state) : Prop := Updated {
  u_dir : dir s' pd;
  u_entry : forall va', user va' -> entry (mem_of s') pd va' = if pg_no va' =? pg_no va then w else entry (mem_of s) pd va';
  u_rest : untouched (tables (mem_of s) pd) s s';
  u_ends : forall w, Palloc.pool_end (Palloc.get_pool w s') = Palloc.pool_end (Palloc.get_pool w s);
  u_tables : forall va' x, user va' -> pt_of (mem_of s') pd va' = Some x -> ~ kpage s x \/ pt_of (mem_of s) pd va' = Some x }.

Lemma entry_page m pd va va' : pg_no va = pg_no va' -> entry m pd va = entry m pd va'.
Proof.
  intros E. assert (pd_no va = pd_no va' /\ pt_no va = pt_no va') as [E1 E2] by (rewrite !pg_no_div, !pd_no_div, !pt_no_div in *; zlia).
  unfold entry, pt_of. by rewrite E1, E2.
Qed.

Lemma updated_refl s pd va : dir s pd -> updated s pd va (entry (mem_of s) pd va) s.
Proof.
  intros Hd. split; [done| |apply Palloc.untouched_refl|done|by right]. intros va' Hu. destruct (Z.eqb_spec (pg_no va') (pg_no va)) as [E|]; [by apply entry_page|done].
Qed.

Lemma store_updated s pd va w pt : dir s pd -> user va -> pt_of (mem_of s) pd va = Some pt -> in_u 32 w ->
  updated s pd va w (set_mem (write (mem_of s) (pt + 4 * pt_no va) (le32 w)) s).
Proof.
  intros Hd Hu E Hw. destruct (set_entry s pd va pt w Hd Hu E Hw) as (H1&H3&H2).
  split; [done|done| |intros w'; by rewrite Palloc.get_set_mem|intros va' x Hu' Ex; right; by rewrite <- H3].
  destruct (pt_of_cases s pd va Hd Hu) as [[_ ?]|(pt'&Hk&_&_&_&E')]; [congruence|]. rewrite E in E'. injection E' as <-.
  destruct (vaddr_range va (proj1 Hu)) as (_&Hn&_). eapply Palloc.write_untouched; [apply Hd|right; by exists va|done|lia|simpl length; lia].
Qed.

Lemma grown_updated s pd s1 va w s2 : grown s pd s1 -> updated s1 pd va w s2 -> updated s pd va w s2.
Proof.
  intros [G1 G2 G3 G4 G5] [U1 U2 U3 U4 U5]. split; [done| | |intros p; by rewrite U4, G5|].
  - intros va' Hu. rewrite U2, G2 by done. done.
  - intros p x Hx. destruct (G3 p x Hx) as [Hx1 E1]. destruct (U3 p x Hx1) as [Hx2 E2]. split; [done|]. intros HP q Hq.
    assert (pd <> x) by (intros <-; apply HP; by left). rewrite E2, E1; [done|done|done| |done]. intros [->|(v&Hv&Ev)]; [done|].
    destruct (G4 v x Hv Ev) as [Hn|Eo]; [|apply HP; right; by exists v].
    destruct (pt_of_cases s1 pd v G1 Hv) as [[_ ?]|(pt'&Hk&_&_&_&E')]; [congruence|]. rewrite Ev in E'. injection E' as <-.
    destruct p; [|by apply Hn]. pose proof (Palloc.in_use_pool s1 true false x (d_wf _ _ G1) Hx1 Hk). done.
  - intros v x Hv Ex. destruct (U5 v x Hv Ex) as [Hn|Eo]; [|by apply G4]. left. intros Hk. apply Hn. by apply (G3 false).
Qed.

(** ** Flag bits *)

Definition with_bit (k : Z) (v : bool) (w : Z) : Z := if v then Z.lor w (2 ^ k) else Z.land w (u32 (Z.lnot (2 ^ k))).

Lemma has_bit w k : 0 <= k -> has w (2 ^ k) = Z.testbit w k.
Proof.
  intros. unfold has. destruct (Z.testbit w k) eqn:E.
  - destruct (Z.eqb_spec (Z.land w (2 ^ k)) 0) as [E0|]; [|done]. apply (f_equal (fun x => Z.testbit x k)) in E0.
    by rewrite Z.land_spec, E, Z.pow2_bits_true, Z.bits_0 in E0 by lia.
  - rewrite (proj2 (Z.eqb_eq _ _)); [done|]. apply Z.bits_inj'. intros n Hn. rewrite Z.land_spec, Z.bits_0, Z.pow2_bits_eqb by lia.
    destruct (Z.eqb_spec k n) as [->|]; [by rewrite E|by rewrite andb_false_r].
Qed.

Lemma with_bit_spec k v w : 0 <= k < 32 -> in_u 32 w ->
  in_u 32 (with_bit k v w) /\ forall j, 0 <= j -> Z.testbit (with_bit k v w) j = if j =? k then v else Z.testbit w j.
Proof.
  intros Hk Hw. assert (forall j, 0 <= j -> Z.testbit (with_bit k v w) j = if j =? k then v else Z.testbit w j) as Hb.
  { intros j Hj. unfold with_bit. destruct v; rewrite ?Z.lor_spec, ?Z.land_spec.
    - rewrite Z.pow2_bits_eqb, (Z.eqb_sym k j) by lia. destruct (j =? k); [by rewrite orb_true_r|by rewrite orb_false_r].
    - unfold wrapu. destruct (Z.lt_ge_cases j 32).
      + rewrite Z.mod_pow2_bits_low, Z.lnot_spec, Z.pow2_bits_eqb, (Z.eqb_sym k j) by lia.
        destruct (j =? k); [by rewrite andb_false_r|by rewrite andb_true_r].
      + rewrite Z.mod_pow2_bits_high by lia. rewrite (proj2 (Z.eqb_neq _ _)), andb_false_r by lia.
        symmetry. by apply (proj2 (Bitmap.in_u_bits w) Hw). }
  split; [|done]. apply Bitmap.in_u_bits. split.
  - unfold with_bit. destruct v; [apply Z.lor_nonneg; unfold in_u in Hw; lia|apply Z.land_nonneg; left; unfold in_u in Hw; lia].
  - intros j Hj. rewrite Hb, (proj2 (Z.eqb_neq _ _)) by lia. by apply (proj2 (Bitmap.in_u_bits w) Hw).
Qed.
End facts.

(** ** The operations *)

Section ops.
Context (cur init_ram_pages : Z) (init_page_dir : ptr).
Implicit Types (s : state) (pd va : ptr).

Lemma wp_with_pte {A} (k0 : M state A) (k : ptr -> M state A) Q (s : state) pd va : dir (pages s) pd -> user va ->
  (pt_of (mem_of (pages s)) pd va = None -> wp k0 Q s) ->
  (forall pt, pt_of (mem_of (pages s)) pd va = Some pt -> wp (k (pt + 4 * pt_no va)) Q s) ->
  wp (let! pte := lookup_page cur pd va false in if pte =? NULL then k0 else k pte) Q s.
Proof.
  intros Hd Hu H0 H1. apply wp_bind, lookup_page_ok; [done|done|]. unfold pte_addr.
  destruct (pt_of (mem_of (pages s)) pd va) as [pt|] eqn:E; [|by apply H0].
  destruct (pte_mapped _ _ _ _ Hd Hu E) as [_ Hp]. rewrite (proj2 (Z.eqb_neq _ _)) by lia. by apply H1.
Qed.

Lemma entry_in_u (s : Palloc.state) pd va : dir s pd -> user va -> in_u 32 (entry (mem_of s) pd va).
Proof.
  intros Hd Hu. unfold entry. destruct (pt_of (mem_of s) pd va) eqn:E; [|by split].
  apply rd_in_u; [apply Hd|]. by eapply pte_mapped.
Qed.

Lemma wp_load_entry Q (s : state) pd va pt : dir (pages s) pd -> user va -> pt_of (mem_of (pages s)) pd va = Some pt ->
  Q (entry (mem_of (pages s)) pd va) s -> wp (on_mem (load32 (pt + 4 * pt_no va))) Q s.
Proof.
  intros Hd Hu E HQ. apply wp_pte_load; [apply Hd|by eapply pte_mapped|]. unfold entry in HQ. by rewrite E in HQ.
Qed.

Lemma wp_store_entry Q (s : state) pd va pt w : dir (pages s) pd -> user va -> pt_of (mem_of (pages s)) pd va = Some pt -> in_u 32 w ->
  (forall p', updated (pages s) pd va w p' -> Q tt (put_pages p' s)) -> wp (on_mem (store32 (pt + 4 * pt_no va) w)) Q s.
Proof. intros Hd Hu E Hw HQ. apply wp_pte_store; [by eapply pte_mapped|]. apply HQ. by apply store_updated. Qed.

(** What an entry says about an address. *)
Definition translate (w va : Z) : ptr := if has w PTE_P then PHYS_BASE + Z.land w PTE_ADDR + pg_ofs va else NULL.

Lemma get_page_ok (s : state) pd va : dir (pages s) pd -> user va ->
  Z.land (entry (mem_of (pages s)) pd va) PTE_ADDR < 2 ^ 30 ->
  pagedir_get_page cur pd va s = Ok (translate (entry (mem_of (pages s)) pd va) va, s).
Proof.
  intros Hd Hu Hlow. assert (wp (pagedir_get_page cur pd va) (fun a s' => a = translate (entry (mem_of (pages s)) pd va) va /\ s' = s) s) as (a&s'&->&->&->)%wp_ok; [|done].
  unfold pagedir_get_page. apply wp_bind, wp_assert. split; [apply Hu|]. apply wp_with_pte; [done|done|..].
  - intros E. apply wp_ret. unfold entry. by rewrite E.
  - intros pt E. apply wp_bind, (wp_load_entry _ _ _ _ _ Hd Hu E). pose proof (entry_in_u _ _ _ Hd Hu) as Hw.
    unfold translate. destruct (has _ PTE_P); [|by apply wp_ret]. apply wp_bind, wp_lift.
    rewrite pte_addr_eq in * by done. destruct (vaddr_range va (proj1 Hu)) as (_&_&Ho). unfold in_u in Hw.
    unfold pte_get_page, ptov, PHYS_BASE. rewrite pte_addr_eq, (proj2 (Z.ltb_lt _ _)) by (unfold in_u; lia).
    eexists. split; [done|]. apply wp_ret. split; [|done]. rewrite !wrapu_small; unfold in_u; rewrite ?wrapu_small; unfold in_u; zlia.
Qed.

Definition pte_for (kp : ptr) (writable : bool) : Z := kp - PHYS_BASE + if writable then 7 else 5.

Lemma pte_eq kp writable : kp mod 4096 = 0 -> PHYS_BASE <= kp < 2 ^ 32 ->
  pte_create_user kp writable = Ok (pte_for kp writable) /\ in_u 32 (pte_for kp writable) /\
  forall va, translate (pte_for kp writable) va = kp + pg_ofs va.
Proof.
  intros Ha Hr. unfold pte_for, PHYS_BASE in *.
  assert (in_u 32 (kp - 0xc0000000 + if writable then 7 else 5)) as Hin by (unfold in_u; destruct writable; lia). split_and!; [|done|].
  - unfold pte_create_user, pte_create_kernel, vtop, is_kernel_vaddr, PHYS_BASE. rewrite pg_ofs_mod, Ha, (proj2 (Z.leb_le _ _)) by lia. cbn [rbind Z.eqb].
    rewrite wrapu_small by (unfold in_u; lia). rewrite <- !Z.lor_assoc.
    assert (Z.lor PTE_P (Z.lor (if writable then PTE_W else 0) PTE_U) = if writable then 7 else 5) as -> by (by destruct writable).
    rewrite (lor_low _ _ 12); [done|lia|destruct writable; lia|zlia].
  - intros va. unfold translate. change PTE_P with (2 ^ 0). rewrite has_bit, Z.bit0_odd, Zodd_mod by lia. unfold PHYS_BASE.
    rewrite pte_addr_eq, (proj2 (Z.eqb_eq _ _)) by (done || destruct writable; zlia). destruct writable; zlia.
Qed.

Lemma set_page_ok (s : state) pd up kp writable : dir (pages s) pd -> pd <> init_page_dir ->
  user up -> up mod 4096 = 0 -> kp mod 4096 = 0 -> PHYS_BASE <= kp < PHYS_BASE + 4096 * init_ram_pages -> init_ram_pages <= 2 ^ 18 ->
  has (entry (mem_of (pages s)) pd up) PTE_P = false ->
  wp (pagedir_set_page cur init_ram_pages init_page_dir pd up kp writable)
    (fun ok s' => cr3 s' = cr3 s /\ tlb s' = tlb s /\
      if ok then updated (pages s) pd up (pte_for kp writable) (pages s')
      else pages s' = pages s /\ pt_of (mem_of (pages s)) pd up = None /\ forall a, ~ Palloc.run (pages s) false a 1 false) s.
Proof.
  intros Hd Hne Hu Ha Ha' Hk Hram Hp. destruct (pte_eq kp writable Ha' ltac:(unfold PHYS_BASE in *; lia)) as (Ec&Hin&_).
  unfold pagedir_set_page. rewrite !pg_ofs_mod, Ha, Ha'. do 3 (apply wp_bind, wp_assert; split; [apply Hu || done|]).
  apply wp_bind, wp_lift. exists (kp - PHYS_BASE). split.
  { unfold vtop, is_kernel_vaddr, PHYS_BASE in *. rewrite (proj2 (Z.leb_le _ _)), wrapu_small by (unfold in_u; lia). done. }
  apply wp_bind, wp_assert. split. { unfold PTSHIFT. rewrite Z.shiftr_div_pow2 by lia. apply Z.ltb_lt. zlia. }
  apply wp_bind, wp_assert. split; [by apply negb_true_iff, Z.eqb_neq|]. apply wp_bind, lookup_create_ok; [done|done|..].
  - intros p' Hg Hpt. pose proof (g_dir _ _ _ Hg) as Hd'. destruct (pt_of (mem_of p') pd up) as [pt|] eqn:E; [|done].
    unfold pte_addr. rewrite E. destruct (pte_mapped _ _ _ _ Hd' Hu E) as [_ Hpos]. rewrite (proj2 (Z.eqb_neq _ _)) by lia. cbn [negb].
    apply wp_bind, (wp_load_entry _ (put_pages p' s) pd up pt Hd' Hu E). cbn [pages put_pages]. rewrite (g_entry _ _ _ Hg), Hp by done.
    apply wp_bind, wp_assert. split; [done|]. apply wp_bind, wp_lift. eexists. split; [exact Ec|].
    apply wp_bind, (wp_store_entry _ (put_pages p' s) pd up pt _ Hd' Hu E Hin). intros p2 Hup. apply wp_ret. cbn. split_and!; [done|done|].
    by eapply grown_updated.
  - intros E Hno. rewrite Z.eqb_refl. apply wp_ret. done.
Qed.

Lemma invalidate_ok (s : state) pd : 0 <= cr3 s < 2 ^ 30 ->
  wp (invalidate_pagedir init_page_dir pd) (fun _ s' => pages s' = pages s /\ cr3 s' = cr3 s /\
    tlb s' = if PHYS_BASE + cr3 s =? pd then ∅ else tlb s) s.
Proof.
  intros Hc. unfold invalidate_pagedir, active_pd, PHYS_BASE. wp_go. apply wp_lift. unfold ptov, PHYS_BASE. rewrite (proj2 (Z.ltb_lt _ _)) by lia.
  eexists. split; [done|]. rewrite wrapu_small by (unfold in_u; lia). rewrite (Z.add_comm (cr3 s)).
  destruct (Z.eqb_spec (0xc0000000 + cr3 s) pd) as [<-|]; [|by apply wp_ret]. unfold pagedir_activate.
  rewrite (proj2 (Z.eqb_neq _ _)) by lia. apply wp_bind, wp_lift. unfold vtop, is_kernel_vaddr, PHYS_BASE.
  rewrite (proj2 (Z.leb_le _ _)), wrapu_small by (unfold in_u; lia). eexists. split; [done|]. apply wp_modify. cbn. split_and!; [done|lia|done].
Qed.

(** Changing flag [k] of the entry for a page, and what that does to the
    translation lookaside buffer. *)
Definition flushed (s : state) pd (s' : state) : Prop := tlb s' = if PHYS_BASE + cr3 s =? pd then ∅ else tlb s.

Lemma put_ok (s : state) k pd va v : dir (pages s) pd -> user va -> 0 <= k < 12 -> 0 <= cr3 s < 2 ^ 30 ->
  wp (pagedir_put cur init_page_dir (2 ^ k) pd va v) (fun _ s' => cr3 s' = cr3 s /\
    if pt_of (mem_of (pages s)) pd va then
      updated (pages s) pd va (with_bit k v (entry (mem_of (pages s)) pd va)) (pages s') /\ (if v then tlb s' = tlb s else flushed s pd s')
    else s' = s) s.
Proof.
  intros Hd Hu Hk Hc. apply wp_with_pte; [done|done|..]; [intros E; apply wp_ret; by rewrite E|].
  intros pt E. rewrite E. apply wp_bind, (wp_load_entry _ s pd va pt Hd Hu E). pose proof (entry_in_u _ _ _ Hd Hu) as Hin.
  destruct (with_bit_spec k v _ ltac:(lia) Hin) as [Hin' _]. destruct v.
  - apply (wp_store_entry _ s pd va pt _ Hd Hu E Hin'). done.
  - apply wp_bind, (wp_store_entry _ s pd va pt _ Hd Hu E Hin'). intros p' Hup.
    eapply wp_mono; [by apply invalidate_ok|]. cbn. intros _ s' (->&->&?). done.
Qed.

Lemma clear_ok (s : state) pd va : dir (pages s) pd -> user va -> va mod 4096 = 0 -> 0 <= cr3 s < 2 ^ 30 ->
  wp (pagedir_clear_page cur init_page_dir pd va) (fun _ s' => cr3 s' = cr3 s /\
    if has (entry (mem_of (pages s)) pd va) PTE_P then
      updated (pages s) pd va (with_bit 0 false (entry (mem_of (pages s)) pd va)) (pages s') /\ flushed s pd s'
    else s' = s) s.
Proof.
  intros Hd Hu Ha Hc. unfold pagedir_clear_page. rewrite pg_ofs_mod, Ha. apply wp_bind, wp_assert. split; [done|].
  apply wp_bind, wp_assert. split; [apply Hu|]. apply wp_with_pte; [done|done|..].
  - intros E. apply wp_ret. split; [done|]. unfold entry. by rewrite E.
  - intros pt E. apply wp_bind, (wp_load_entry _ s pd va pt Hd Hu E). pose proof (entry_in_u _ _ _ Hd Hu) as Hin.
    destruct (has _ PTE_P); [|by apply wp_ret]. destruct (with_bit_spec 0 false _ ltac:(lia) Hin) as [Hin' _].
    apply wp_bind, (wp_store_entry _ s pd va pt _ Hd Hu E Hin'). intros p' Hup.
    eapply wp_mono; [by apply invalidate_ok|]. cbn. intros _ s' (->&->&?). done.
Qed.

Lemma test_ok (s : state) flag pd va : dir (pages s) pd -> user va ->
  pagedir_test cur flag pd va s = Ok (has (entry (mem_of (pages s)) pd va) flag, s).
Proof.
  intros Hd Hu. assert (wp (pagedir_test cur flag pd va) (fun b s' => b = has (entry (mem_of (pages s)) pd va) flag /\ s' = s) s) as (?&?&->&->&->)%wp_ok; [|done].
  apply wp_with_pte; [done|done|..].
  - intros E. apply wp_ret. unfold entry. by rewrite E.
  - intros pt E. apply wp_bind, (wp_load_entry _ s pd va pt Hd Hu E). by apply wp_ret.
Qed.

(** ** Creating a directory *)

(** The base page directory maps no user address. *)
Record base_dir (p : Palloc.state) : Prop := BaseDir {
  b_page : kpage p init_page_dir;
  b_user : forall i, 0 <= i < 768 -> rd (mem_of p) (init_page_dir + 4 * i) = 0 }.

(** A word of a page that was copied. *)
Lemma copied_rd m dst src bs i : bytes_at m src bs -> zlen bs = 4096 -> 0 <= i < 1024 -> rd (write m dst bs) (dst + 4 * i) = rd m (src + 4 * i).
Proof.
  intros Hbs Hlen Hi. assert (forall k, 0 <= k < 4 -> write m dst bs !! (dst + 4 * i + k) = m !! (src + 4 * i + k)) as E.
  { intros k Hk. rewrite lookup_write, decide_True by lia. destruct (lookup_lt_is_Some_2 bs (Z.to_nat (dst + 4 * i + k - dst))) as [b Eb]; [lia|].
    rewrite Eb. symmetry. replace (src + 4 * i + k) with (src + Z.of_nat (Z.to_nat (dst + 4 * i + k - dst))) by lia.
    exact (proj1 (proj1 (bytes_at_lookup _ _ _) Hbs _ _ Eb)). }
  unfold rd. pose proof (E 0) as E0. rewrite !Z.add_0_r in E0. by rewrite E0, !E by lia.
Qed.

Lemma create_ok (s : state) : Palloc.wf (pages s) -> base_dir (pages s) ->
  wp (pagedir_create cur init_page_dir) (fun pd s' => cr3 s' = cr3 s /\ tlb s' = tlb s /\
    ((pd = NULL /\ s' = s /\ forall a, ~ Palloc.run (pages s) false a 1 false) \/
     (dir (pages s') pd /\ ~ kpage (pages s) pd /\ untouched (fun _ => False) (pages s) (pages s') /\
      (forall va, user va -> pt_of (mem_of (pages s')) pd va = None) /\
      (forall i, 0 <= i < 1024 -> rd (mem_of (pages s')) (pd + 4 * i) = rd (mem_of (pages s)) (init_page_dir + 4 * i)) /\
      (forall w, Palloc.pool_end (Palloc.get_pool w (pages s')) = Palloc.pool_end (Palloc.get_pool w (pages s)))))) s.
Proof.
  intros Hw [B1 B2]. unfold pagedir_create. apply wp_bind, wp_zoom, Palloc.wp_get_multiple; [done|lia|done| |].
  2: { intros Hno. rewrite Z.eqb_refl. apply wp_bind, wp_ret, wp_ret. split; [done|]. split; [done|]. left. split_and!; [done|by destruct s as [[]]|done]. }
  intros pd p1 Hs Hm. assert (has 0 Palloc.PAL_ZERO = false) as F1 by reflexivity. assert (has 0 Palloc.PAL_USER = false) as F2 by reflexivity.
  rewrite F1 in Hm. rewrite F2 in Hs. destruct (Palloc.fresh_kpage _ _ _ Hs) as (Hk1&Hk0&Hmono). pose proof (Palloc.ps_wf _ _ _ _ _ _ Hs) as Hw1.
  destruct (Palloc.kpage_props _ _ Hw1 Hk1) as (Ha&Hl&Hh&Hmap). destruct (Palloc.kpage_props _ _ Hw B1) as (Ha'&_&_&Hmap').
  destruct (mapped_bytes (mem_of (pages s)) init_page_dir 4096 (Palloc.w_bytes _ Hw) ltac:(lia) Hmap') as (bs&Hlen&Hbs).
  assert (init_page_dir <> pd) as Hne by (intros E; apply Hk0; by rewrite <- E). pose proof (Palloc.page_disj _ _ Ha' Ha Hne) as Hdis.
  rewrite (proj2 (Z.eqb_neq pd NULL)) by (unfold PHYS_BASE in Hl; lia). apply wp_bind, wp_bind, wp_zoom, wp_zoom. unfold wp at 1, PGSIZE.
  replace 4096 with (zlen bs) by lia. cbn [pages]. rewrite Hm, CString.memcpy_eq; [|apply Hw|exact Hbs|rewrite <- Hm, Hlen; exact Hmap|lia].
  apply wp_ret, wp_ret. cbn [cr3 tlb pages]. split; [done|]. split; [done|]. right. set (m' := write (mem_of (pages s)) pd bs).
  change (Palloc.St m' _ _) with (set_mem m' p1).
  assert (forall i, 0 <= i < 1024 -> rd m' (pd + 4 * i) = rd (mem_of (pages s)) (init_page_dir + 4 * i)) as Hrd by (intros; by apply copied_rd).
  assert (Palloc.wf (set_mem m' p1)) as Hw'.
  { unfold m'. rewrite <- Hm. apply Palloc.write_wf; [done|by rewrite Hlen|by eapply bytes_at_in_u]. }
  split_and!; [split; [done|done|..]|done| | |exact Hrd|intros w; rewrite Palloc.get_set_mem; apply (Palloc.ps_base _ _ _ _ _ _ Hs w)].
  - intros i Hi. left. change (mem_of (set_mem m' p1)) with m'. cbv zeta. rewrite Hrd by lia. by apply B2.
  - intros i j Hi _ H0. exfalso. apply H0. change (mem_of (set_mem m' p1)) with m'. rewrite Hrd by lia. by apply B2.
  - assert (untouched (fun _ => False) (pages s) p1) as Hun by (apply (Palloc.pages_set_untouched _ false pd _ Hw Hs); intros; by rewrite Hm).
    intros w x Hx. destruct (Hun w x Hx) as [Hx1 _]. rewrite Palloc.get_set_mem. split; [done|]. intros _ q Hq. cbn. unfold m'.
    rewrite lookup_write, decide_False; [done|]. destruct (Palloc.in_use_props _ _ _ Hw Hx) as (Hax&_).
    destruct (decide (x = pd)) as [->|Hn]; [|pose proof (Palloc.page_disj _ _ Hax Ha Hn); lia].
    exfalso. destruct w; [|by apply Hk0]. pose proof (Palloc.in_use_pool p1 true false pd Hw1 Hx1 Hk1). done.
  - intros va [Hu Hv%pd_no_user]; [|done]. unfold pt_of. change (mem_of (set_mem m' p1)) with m'. rewrite Hrd, B2 by lia. done.
Qed.
End ops.
End Pagedir.
