(* ===== verification/PagedirSpec.v ===== *)
(** * Properties of page directories

    What mapping, unmapping and the flag operations do to the entries of a
    directory and to other directories, and which pages destroying a directory
    frees. *)

From S2P Require Import Prelude.
From S2P Require Import Mem.
From S2P Require Import Bitmap.
From S2P Require Import Words.
From S2P Require Import Vaddr.
From S2P Require Import Palloc.
From S2P Require Import Pagedir.
Local Open Scope Z_scope.

Module PagedirSpec.
Import Mem Words Vaddr Pagedir.

(** ** The pages of a directory, in the order [pagedir_destroy] frees them *)

Definition frame (w : Z) : list ptr := if has w PTE_P then [PHYS_BASE + Z.land w PTE_ADDR] else [].
Definition pt_pages (m : mem) (pt : ptr) (n : Z) : list ptr := flat_map (fun j => frame (rd m (pt + 4 * j))) (seqZ 0 n).
Definition pde_pages (m : mem) (e : Z) : list ptr :=
  if has e PTE_P then let pt := PHYS_BASE + Z.land e PTE_ADDR in pt_pages m pt 1024 ++ [pt] else [].
Definition pd_pages (m : mem) (pd : ptr) (n : Z) : list ptr := flat_map (fun i => pde_pages m (rd m (pd + 4 * i))) (seqZ 0 n).
Definition owned (m : mem) (pd : ptr) : list ptr := pd_pages m pd 768 ++ [pd].

(** State [p] is [p0] with the pages [F] freed. *)
Record freed (p0 : Palloc.state) (F : list ptr) (p : Palloc.state) : Prop := Freed {
  f_wf : Palloc.wf p;
  f_base : forall w, Palloc.base (Palloc.get_pool w p) = Palloc.base (Palloc.get_pool w p0) /\
    Palloc.pool_end (Palloc.get_pool w p) = Palloc.pool_end (Palloc.get_pool w p0);
  f_use : forall w x, Palloc.in_use (Palloc.get_pool w p) x = Palloc.in_use (Palloc.get_pool w p0) x && bool_decide (x ∉ F);
  f_mem : forall q, (forall x, x ∈ F -> ~ (x <= q < x + 4096)) -> mem_of p !! q = mem_of p0 !! q }.

Definition live (p : Palloc.state) (x : ptr) : Prop := exists w, Palloc.in_use (Palloc.get_pool w p) x = true.

Section facts.
Context (cur : Z) (init_page_dir : ptr).

Lemma freed_nil p : Palloc.wf p -> freed p [] p.
Proof. intros Hw. split; [done|done| |done]. intros w x. by rewrite bool_decide_true, andb_true_r by set_solver. Qed.

Lemma in_snoc (y x : ptr) F : y ∈ F ++ [x] <-> y ∈ F \/ y = x.
Proof. by rewrite elem_of_app, list_elem_of_singleton. Qed.

Lemma freed_step p0 F p x : Palloc.wf p0 -> freed p0 F p -> live p0 x -> x ∉ F ->
  wp (Palloc.palloc_free_page x) (fun _ p' => freed p0 (F ++ [x]) p') p.
Proof.
  intros Hw [F1 F2 F3 F4] [w Hx] Hn. destruct (Palloc.in_use_props _ _ _ Hw Hx) as (Ha&Hl&Hh).
  destruct (Palloc.free_multiple_ok w x 1 p F1 ltac:(lia)) as (p'&E&Hs&Hm).
  { split; [done|by rewrite (proj1 (F2 w))|rewrite (proj2 (F2 w)); lia|]. intros b [Hb1 Hb2]%Palloc.in_run_spec. assert (b = x) as -> by zlia.
    by rewrite F3, Hx, bool_decide_true. }
  unfold wp, Palloc.palloc_free_page. rewrite E. clear E. destruct Hs as [P1 _ P3 P4]. split; [done| | |].
  - intros v. destruct (P3 v) as [-> ->]. apply F2.
  - intros v y. rewrite P4, F3. destruct (Bool.eqb v w && Palloc.in_run x 1 y) eqn:Er.
    + apply andb_true_iff in Er as [_ [Hy1 Hy2]%Palloc.in_run_spec]. assert (y = x) as -> by zlia.
      rewrite bool_decide_false, andb_false_r by (intros H; apply H, in_snoc; by right). reflexivity.
    + destruct (decide (y = x)) as [->|Hne]; [|f_equal; apply bool_decide_ext; rewrite in_snoc; tauto].
      rewrite (proj2 (Palloc.in_run_spec x 1 x)), andb_true_r in Er by lia. apply eqb_false_iff in Er.
      destruct (Palloc.in_use (Palloc.get_pool v p0) x) eqn:Ev; [|done]. exfalso. apply Er. exact (Palloc.in_use_pool p0 v w x Hw Ev Hx).
  - intros q Hq. rewrite Hm, Palloc.fill_lookup by lia. rewrite decide_False; [apply F4; intros y Hy; apply Hq, in_snoc; by left|].
    specialize (Hq x (proj2 (in_snoc x x F) (or_intror eq_refl))). lia.
Qed.

Lemma freed_rd p0 F p x k : freed p0 F p -> live p0 x -> Palloc.wf p0 -> Forall (live p0) F -> x ∉ F -> 0 <= k < 1024 ->
  rd (mem_of p) (x + 4 * k) = rd (mem_of p0) (x + 4 * k).
Proof.
  intros HF [w Hx] Hw Hl Hn Hk. apply rd_ext. intros q Hq. apply (f_mem _ _ _ HF). intros y Hy Hyq.
  destruct (proj1 (Forall_forall _ _) Hl y Hy) as [v Hv]. destruct (Palloc.in_use_props _ _ _ Hw Hx) as (Hax&_). destruct (Palloc.in_use_props _ _ _ Hw Hv) as (Hay&_).
  assert (x <> y) as Hne by (by intros ->). pose proof (Palloc.page_disj _ _ Hax Hay Hne). lia.
Qed.

Lemma live_mapped p0 F p x k : Palloc.wf p0 -> freed p0 F p -> live p0 x -> 0 <= k < 1024 -> mapped (mem_of p) (x + 4 * k) 4.
Proof.
  intros Hw HF [w Hx] Hk q Hq. apply (Palloc.w_mapped _ (f_wf _ _ _ HF) w). destruct (Palloc.in_use_props _ _ _ Hw Hx) as (_&Hl&Hh).
  destruct (f_base _ _ _ HF w) as [E1 E2]. rewrite <- E1 in Hl. rewrite <- E2 in Hh. unfold Palloc.pool_end in Hh. lia.
Qed.

Lemma flat_map_snoc {A} (f : Z -> list A) n : 0 <= n -> flat_map f (seqZ 0 (n + 1)) = flat_map f (seqZ 0 n) ++ f n.
Proof. intros. rewrite seqZ_app by lia. rewrite flat_map_app. simpl. by rewrite app_nil_r. Qed.

(** A loop whose every round frees some pages. *)
Lemma wp_for_freed (s0 : state) F (n : nat) body (f : Z -> list ptr) p :
  (forall j p', 0 <= j < Z.of_nat n -> freed (pages s0) (F ++ flat_map f (seqZ 0 j)) p' ->
    wp (body j) (fun _ s' => exists p2, s' = put_pages p2 s0 /\ freed (pages s0) (F ++ flat_map f (seqZ 0 j) ++ f j) p2) (put_pages p' s0)) ->
  freed (pages s0) F p ->
  wp (for_ n 0 body) (fun _ s' => exists p2, s' = put_pages p2 s0 /\ freed (pages s0) (F ++ flat_map f (seqZ 0 (Z.of_nat n))) p2) (put_pages p s0).
Proof.
  intros Hb Hp. apply (wp_for (fun j s' => exists p2, s' = put_pages p2 s0 /\ freed (pages s0) (F ++ flat_map f (seqZ 0 j)) p2)).
  - intros j s Hj (p'&->&Hp'). rewrite flat_map_snoc by lia. by apply Hb.
  - exists p. split; [done|]. by rewrite app_nil_r.
Qed.

Lemma get_frame p w x : Palloc.wf p -> in_u 32 w -> x = PHYS_BASE + Z.land w PTE_ADDR -> live p x -> ptov (Z.land w PTE_ADDR) = Ok x.
Proof.
  intros Hw Hin E [v Hx]. destruct (Palloc.in_use_props _ _ _ Hw Hx) as (_&Hl&Hh). pose proof (Palloc.w_pool _ Hw v) as [_ _ _ _ Hhi].
  unfold ptov, PHYS_BASE in *. rewrite pte_addr_eq in * by done. unfold in_u in Hin. rewrite (proj2 (Z.ltb_lt _ _)), wrapu_small by (unfold in_u; zlia).
  f_equal. lia.
Qed.

(** Lists of pages to free: what is next is not freed yet. *)
Lemma next_page p0 (F : list ptr) x rest : Forall (live p0) (F ++ x :: rest) -> NoDup (F ++ x :: rest) ->
  live p0 x /\ x ∉ F /\ Forall (live p0) F.
Proof.
  intros [H1 H2]%Forall_app (_&H3&_)%NoDup_app. apply Forall_cons in H2 as [H2 _]. split_and!; [done| |done]. intros H. apply (H3 x H). by left.
Qed.

(** One round of the inner loop. *)
Lemma destroy_pte_ok (s0 : state) F p pt j rest : Palloc.wf (pages s0) -> freed (pages s0) F p -> 0 <= j < 1024 ->
  live (pages s0) pt -> pt ∉ F ->
  let fs := frame (rd (mem_of (pages s0)) (pt + 4 * j)) in
  Forall (live (pages s0)) (F ++ fs ++ rest) -> NoDup (F ++ fs ++ rest) ->
  wp (destroy_pte pt j) (fun _ s' => exists p2, s' = put_pages p2 s0 /\ freed (pages s0) (F ++ fs) p2) (put_pages p s0).
Proof.
  intros Hw HF Hj Hpt HptF fs Hl Hn. assert (Forall (live (pages s0)) F) as HlF by (by apply Forall_app in Hl as [? _]).
  unfold destroy_pte. apply wp_bind, wp_pte_load; [apply HF|by eapply live_mapped|]. cbn [pages put_pages].
  rewrite (freed_rd _ _ _ _ _ HF Hpt Hw HlF HptF Hj). unfold frame in fs. destruct (has _ PTE_P).
  - destruct (next_page _ _ _ _ Hl Hn) as (Hx&HxF&_). apply wp_bind, wp_lift. eexists. split.
    { eapply get_frame; [exact Hw|apply rd_in_u; [apply Hw|eapply live_mapped; [exact Hw|by apply freed_nil|exact Hpt|exact Hj]]|reflexivity|exact Hx]. }
    apply wp_zoom. eapply wp_mono; [by eapply freed_step|]. intros [] p' Hp'. by exists p'.
  - apply wp_ret. exists p. unfold fs. by rewrite app_nil_r.
Qed.

(** One round of the outer loop. *)
Lemma destroy_pde_ok (s0 : state) F p pd i rest : Palloc.wf (pages s0) -> freed (pages s0) F p -> 0 <= i < 768 ->
  live (pages s0) pd -> pd ∉ F ->
  let ps := pde_pages (mem_of (pages s0)) (rd (mem_of (pages s0)) (pd + 4 * i)) in
  Forall (live (pages s0)) (F ++ ps ++ rest) -> NoDup (F ++ ps ++ rest) ->
  wp (destroy_pde pd i) (fun _ s' => exists p2, s' = put_pages p2 s0 /\ freed (pages s0) (F ++ ps) p2) (put_pages p s0).
Proof.
  intros Hw HF Hi Hpd HpdF ps Hl Hn. assert (Forall (live (pages s0)) F) as HlF by (by apply Forall_app in Hl as [? _]).
  unfold destroy_pde. apply wp_bind, wp_pte_load; [apply HF|eapply live_mapped; [done..|lia]|]. cbn [pages put_pages].
  rewrite (freed_rd _ _ _ _ i HF Hpd Hw HlF HpdF ltac:(lia)).
  assert (in_u 32 (rd (mem_of (pages s0)) (pd + 4 * i))) as Hin.
  { apply rd_in_u; [apply Hw|]. eapply live_mapped; [exact Hw|by apply freed_nil|exact Hpd|lia]. }
  set (e := rd (mem_of (pages s0)) (pd + 4 * i)) in *. unfold pde_pages in ps. destruct (has e PTE_P) eqn:Hp; [|apply wp_ret; exists p; unfold ps; by rewrite app_nil_r].
  set (pt := PHYS_BASE + Z.land e PTE_ADDR) in *. unfold ps in Hl, Hn. rewrite <- app_assoc in Hl, Hn.
  assert (live (pages s0) pt /\ pt ∉ F ++ pt_pages (mem_of (pages s0)) pt 1024) as [Hpt HptF].
  { rewrite app_assoc in Hl, Hn. by destruct (next_page _ _ _ _ Hl Hn) as (?&?&_). }
  apply wp_bind, wp_lift. exists pt. split; [unfold pde_get_pt; rewrite Hp; by eapply get_frame|]. apply wp_bind.
  eapply wp_mono; [apply (wp_for_freed s0 F 1024 (destroy_pte pt) (fun j => frame (rd (mem_of (pages s0)) (pt + 4 * j))) p); [|done]|].
  - intros j p' Hj Hp'. rewrite app_assoc.
    assert (pt_pages (mem_of (pages s0)) pt 1024 = flat_map (fun j => frame (rd (mem_of (pages s0)) (pt + 4 * j))) (seqZ 0 j) ++
      frame (rd (mem_of (pages s0)) (pt + 4 * j)) ++ flat_map (fun j => frame (rd (mem_of (pages s0)) (pt + 4 * j))) (seqZ (j + 1) (1024 - (j + 1)))) as Esp.
    { unfold pt_pages. replace 1024 with ((j + 1) + (1024 - (j + 1))) at 1 by lia. rewrite seqZ_app, flat_map_app, flat_map_snoc by lia. by rewrite <- app_assoc. }
    rewrite Esp in HptF, Hl, Hn. rewrite <- !app_assoc in Hl, Hn.
    eapply destroy_pte_ok; [done|done|done|done| |rewrite <- !app_assoc; exact Hl|rewrite <- !app_assoc; exact Hn].
    intros H. apply HptF. rewrite app_assoc. apply elem_of_app. by left.
  - change (Z.of_nat 1024) with 1024. intros _ s' (p2&->&Hp2). apply wp_zoom. eapply wp_mono; [eapply freed_step; [done|exact Hp2|done|done]|].
    intros [] p3 Hp3. exists p3. split; [done|]. unfold ps. by rewrite app_assoc.
Qed.

Lemma destroy_ok (s0 : state) pd : Palloc.wf (pages s0) -> pd <> init_page_dir ->
  Forall (live (pages s0)) (owned (mem_of (pages s0)) pd) -> NoDup (owned (mem_of (pages s0)) pd) ->
  wp (pagedir_destroy init_page_dir pd) (fun _ s' => exists p2, s' = put_pages p2 s0 /\ freed (pages s0) (owned (mem_of (pages s0)) pd) p2) s0.
Proof.
  intros Hw Hne Hl Hn. destruct (next_page _ (pd_pages (mem_of (pages s0)) pd 768) pd [] Hl Hn) as (Hpd&HpdF&_).
  pose proof Hpd as [w Hx]. destruct (Palloc.in_use_props _ _ _ Hw Hx) as (_&Hb&_). pose proof (Palloc.pw_low _ (Palloc.w_pool _ Hw w)) as Hlow. unfold PHYS_BASE in Hlow.
  unfold pagedir_destroy. rewrite (proj2 (Z.eqb_neq pd NULL)) by lia. apply wp_bind, wp_assert. split; [by apply negb_true_iff, Z.eqb_neq|].
  apply wp_bind. replace s0 with (put_pages (pages s0) s0) at 2 by (by destruct s0).
  eapply wp_mono; [apply (wp_for_freed s0 [] 768 (destroy_pde pd) (fun i => pde_pages (mem_of (pages s0)) (rd (mem_of (pages s0)) (pd + 4 * i)))); [|by apply freed_nil]|].
  - intros i p' Hi Hp'. cbn [app] in *.
    assert (pd_pages (mem_of (pages s0)) pd 768 = flat_map (fun i => pde_pages (mem_of (pages s0)) (rd (mem_of (pages s0)) (pd + 4 * i))) (seqZ 0 i) ++
      pde_pages (mem_of (pages s0)) (rd (mem_of (pages s0)) (pd + 4 * i)) ++
      flat_map (fun i => pde_pages (mem_of (pages s0)) (rd (mem_of (pages s0)) (pd + 4 * i))) (seqZ (i + 1) (768 - (i + 1)))) as Esp.
    { unfold pd_pages. replace 768 with ((i + 1) + (768 - (i + 1))) at 1 by lia. rewrite seqZ_app, flat_map_app, flat_map_snoc by lia. by rewrite <- app_assoc. }
    unfold owned in Hl, Hn. rewrite Esp in HpdF, Hl, Hn. rewrite <- !app_assoc in Hl, Hn.
    eapply destroy_pde_ok; [done|done|lia|done| |exact Hl|exact Hn]. intros H. apply HpdF, elem_of_app. by left.
  - change (Z.of_nat 768) with 768. intros [] s' (p2&->&Hp2). apply wp_zoom. eapply wp_mono; [by eapply freed_step|].
    intros [] p3 Hp3. exists p3. split; [reflexivity|exact Hp3].
Qed.

(** Another directory, sharing no page with [pd]. *)
Definition separate (m : mem) (pd pd2 : ptr) : Prop := forall x, tables m pd x -> tables m pd2 x -> False.

Lemma updated_separate p pd va w p' pd2 : updated p pd va w p' -> dir p pd2 -> separate (mem_of p) pd pd2 ->
  dir p' pd2 /\ forall va', user va' -> entry (mem_of p') pd2 va' = entry (mem_of p) pd2 va'.
Proof.
  intros [U1 U2 U3 _ _] Hd Hs. eapply untouched_dir; [done|apply U1|done|..].
  - intros H. apply (Hs pd2 H). by left.
  - intros v pt Hv E H. apply (Hs pt H). right. by exists v.
Qed.
End facts.

(** ** Properties *)

(** C33. Mapping a page that is not mapped either fails for lack of a page for
    a new page table and changes nothing, or makes every address of the page
    translate into the given frame and leaves the translation of every other
    address of this directory, and of directories that share no page with it,
    as it was. *)
Theorem pagedir_set_get cur ram ipd s pd up kp writable : dir (pages s) pd -> pd <> ipd ->
  user up -> up mod 4096 = 0 -> kp mod 4096 = 0 -> PHYS_BASE <= kp < PHYS_BASE + 4096 * ram -> ram <= 2 ^ 18 ->
  has (entry (mem_of (pages s)) pd up) PTE_P = false ->
  exists ok s', pagedir_set_page cur ram ipd pd up kp writable s = Ok (ok, s') /\
    if ok then
      dir (pages s') pd /\
      (forall va, user va -> pg_no va = pg_no up -> pagedir_get_page cur pd va s' = Ok (kp + pg_ofs va, s')) /\
      (forall va, user va -> pg_no va <> pg_no up -> entry (mem_of (pages s')) pd va = entry (mem_of (pages s)) pd va) /\
      (forall pd2, dir (pages s) pd2 -> separate (mem_of (pages s)) pd pd2 ->
        dir (pages s') pd2 /\ forall va, user va -> entry (mem_of (pages s')) pd2 va = entry (mem_of (pages s)) pd2 va)
    else pages s' = pages s /\ pt_of (mem_of (pages s)) pd up = None /\ forall a, ~ Palloc.run (pages s) false a 1 false.
Proof.
  intros Hd Hne Hu Ha Ha' Hk Hram Hp.
  destruct (proj1 (wp_ok _ _ _) (set_page_ok cur ram ipd s pd up kp writable Hd Hne Hu Ha Ha' Hk Hram Hp)) as (ok&s'&E&_&_&Hs).
  exists ok, s'. split; [exact E|]. clear E. destruct ok; [|exact Hs]. unfold PHYS_BASE in Hk.
  destruct (pte_eq kp writable Ha' ltac:(unfold PHYS_BASE; lia)) as (_&Hin&Ht). split_and!; [apply Hs|..].
  - intros va Hv Epg. assert (entry (mem_of (pages s')) pd va = pte_for kp writable) as Ee by (by rewrite (u_entry _ _ _ _ _ Hs), Epg, Z.eqb_refl).
    rewrite get_page_ok, Ee; [by rewrite Ht|apply Hs|done|]. rewrite Ee, pte_addr_eq by done. unfold pte_for, PHYS_BASE. destruct writable; zlia.
  - intros va Hv Epg. by rewrite (u_entry _ _ _ _ _ Hs), (proj2 (Z.eqb_neq _ _) Epg).
  - intros pd2. by eapply updated_separate.
Qed.

(** Unmapping a page and setting or clearing a dirty or accessed bit change
    that one bit of that one entry, no other directory, and nothing when the
    page has no entry; [pagedir_get_page], [pagedir_is_dirty] and
    [pagedir_is_accessed] read it back.  A bit cleared in the active directory
    leaves nothing of it in the translation lookaside buffer. *)
Theorem pagedir_bits cur ipd s pd va k v : dir (pages s) pd -> user va -> va mod 4096 = 0 -> 0 <= cr3 s < 2 ^ 30 ->
  (k = 5 \/ k = 6) ->
  (exists s', pagedir_clear_page cur ipd pd va s = Ok (tt, s') /\
    (if has (entry (mem_of (pages s)) pd va) PTE_P then
       updated (pages s) pd va (with_bit 0 false (entry (mem_of (pages s)) pd va)) (pages s') /\ flushed s pd s' /\
       has (with_bit 0 false (entry (mem_of (pages s)) pd va)) PTE_P = false
     else s' = s)) /\
  (exists s', (if k =? 6 then pagedir_set_dirty cur ipd pd va v s else pagedir_set_accessed cur ipd pd va v s) = Ok (tt, s') /\
    (if pt_of (mem_of (pages s)) pd va then
       updated (pages s) pd va (with_bit k v (entry (mem_of (pages s)) pd va)) (pages s') /\ (if v then tlb s' = tlb s else flushed s pd s') /\
       (if k =? 6 then pagedir_is_dirty cur pd va s' else pagedir_is_accessed cur pd va s') = Ok (v, s') /\
       forall j, 0 <= j -> j <> k -> Z.testbit (with_bit k v (entry (mem_of (pages s)) pd va)) j = Z.testbit (entry (mem_of (pages s)) pd va) j
     else s' = s)).
Proof.
  intros Hd Hu Ha Hc Hk. pose proof (entry_in_u _ _ _ Hd Hu) as Hin. split.
  - destruct (proj1 (wp_ok _ _ _) (clear_ok cur ipd s pd va Hd Hu Ha Hc)) as ([]&s'&E&_&Hs). exists s'. split; [exact E|]. clear E.
    destruct (has (entry _ pd va) PTE_P); [|exact Hs]. destruct Hs as [H1 H2]. split_and!; [done|done|].
    change PTE_P with (2 ^ 0). rewrite has_bit by lia. by rewrite (proj2 (with_bit_spec 0 false _ ltac:(lia) Hin)).
  - destruct (proj1 (wp_ok _ _ _) (put_ok cur ipd s k pd va v Hd Hu ltac:(lia) Hc)) as ([]&s'&E&_&Hs). exists s'.
    split; [destruct Hk as [-> | ->]; exact E|]. clear E. destruct (pt_of _ pd va); [|exact Hs]. destruct Hs as [H1 H2]. split_and!; [done|done| |].
    + pose proof (u_dir _ _ _ _ _ H1) as Hd'. unfold pagedir_is_dirty, pagedir_is_accessed. rewrite !test_ok by done.
      rewrite (u_entry _ _ _ _ _ H1), Z.eqb_refl by done. change PTE_D with (2 ^ 6). change PTE_A with (2 ^ 5). rewrite !has_bit by lia.
      rewrite !(proj2 (with_bit_spec k v _ ltac:(lia) Hin)) by lia. by destruct Hk as [-> | ->].
    + intros j Hj Hjk. rewrite (proj2 (with_bit_spec k v _ ltac:(lia) Hin)) by lia. by rewrite (proj2 (Z.eqb_neq _ _) Hjk).
Qed.

(** C34. Destroying a directory frees exactly the frames its present entries
    point to, its page tables and itself, each once, and no other page; bytes
    outside those pages stay. *)
Theorem pagedir_destroy_frees ipd s pd : Palloc.wf (pages s) -> pd <> ipd ->
  Forall (live (pages s)) (owned (mem_of (pages s)) pd) -> NoDup (owned (mem_of (pages s)) pd) ->
  exists s', pagedir_destroy ipd pd s = Ok (tt, s') /\ freed (pages s) (owned (mem_of (pages s)) pd) (pages s') /\
    cr3 s' = cr3 s /\ tlb s' = tlb s.
Proof.
  intros Hw Hne Hl Hn. destruct (proj1 (wp_ok _ _ _) (destroy_ok ipd s pd Hw Hne Hl Hn)) as ([]&s'&E&p2&->&Hp).
  exists (put_pages p2 s). split; [exact E|]. done.
Qed.

(** ** Witnesses: a directory with one table and one mapped page *)

Definition demo_pages : Palloc.state :=
  Palloc.St (write (write (blank 0xc0100000 0x8000) 0xc0101000 (le32 0x102007)) 0xc0102004 (le32 0x105007))
    (Palloc.Pool None (Bitmap.Bm 3 [3]) 0xc0101000) (Palloc.Pool None (Bitmap.Bm 3 [1]) 0xc0105000).
Definition demo : state := St demo_pages 0x101000 ∅.

Lemma demo_pages_wf : Palloc.wf demo_pages.
Proof.
  assert (Palloc.wf (Palloc.St (blank 0xc0100000 0x8000) (Palloc.kernel_pool demo_pages) (Palloc.user_pool demo_pages))) as Hw.
  { split; [by apply blank_ok|by apply blank_bytes| |left; by vm_compute|intros []; apply blank_mapped; cbn; lia].
    assert (forall w b, in_u 32 w -> (b = 0xc0101000 \/ b = 0xc0105000) -> Palloc.pool_wf (Palloc.Pool None (Bitmap.Bm 3 [w]) b)) as H.
    { intros w b Hw Hb. split; [done|split; cbn; [lia|done|by apply Forall_singleton]| | |]; unfold PHYS_BASE, Palloc.pool_end; cbn; destruct Hb as [-> | ->]; done. }
    intros []; apply H; auto; unfold in_u; lia. }
  pose proof (Palloc.write_wf _ 0xc0101000 (le32 0x102007) Hw ltac:(apply blank_mapped; cbn; lia) (le32_bytes _)) as Hw1.
  exact (Palloc.write_wf _ 0xc0102004 (le32 0x105007) Hw1 ltac:(apply write_mapped, blank_mapped; cbn; lia) (le32_bytes _)).
Qed.

Lemma demo_rd i : 0 <= i < 1024 -> rd (mem_of demo_pages) (0xc0101000 + 4 * i) = if i =? 0 then 0x102007 else 0.
Proof.
  intros Hi. unfold demo_pages. cbn [Palloc.memory]. rewrite (rd_ext (write (blank 0xc0100000 0x8000) 0xc0101000 (le32 0x102007))).
  2: { intros q Hq. rewrite lookup_write, decide_False by (simpl length; lia). reflexivity. }
  rewrite rd_write by (unfold in_u; lia). destruct (Z.eqb_spec i 0) as [->|]; [done|]. rewrite (proj2 (Z.eqb_neq _ _)) by lia.
  unfold rd. rewrite !blank_lookup by lia. rewrite !decide_True by lia. reflexivity.
Qed.

Lemma demo_dir : dir demo_pages 0xc0101000.
Proof.
  split; [exact demo_pages_wf|reflexivity| |].
  - intros i Hi. cbv zeta. rewrite demo_rd by lia. destruct (i =? 0); [right|by left]. exists 0xc0102000. by split_and!.
  - intros i j Hi Hj. rewrite !demo_rd by lia. destruct (Z.eqb_spec i 0), (Z.eqb_spec j 0); (lia || done).
Qed.

Lemma pagedir_set_get_witness :
  exists ok s', pagedir_set_page 1 264 0xc0100000 0xc0101000 0x8048000 0xc0106000 true demo = Ok (ok, s').
Proof.
  destruct (pagedir_set_get 1 264 0xc0100000 demo 0xc0101000 0x8048000 0xc0106000 true demo_dir) as (ok&s'&E&_).
  - lia.
  - split; [unfold in_u; lia|reflexivity].
  - reflexivity.
  - reflexivity.
  - unfold PHYS_BASE. lia.
  - lia.
  - unfold entry, pt_of. change (pd_no 0x8048000) with 32. rewrite demo_rd by lia. reflexivity.
  - exists ok, s'. exact E.
Defined.

Lemma demo_entry : entry (mem_of demo_pages) 0xc0101000 0x1000 = 0x105007.
Proof. vm_compute. reflexivity. Qed.

Lemma pagedir_bits_witness : exists s', pagedir_clear_page 1 0xc0100000 0xc0101000 0x1000 demo = Ok (tt, s') /\ flushed demo 0xc0101000 s'.
Proof.
  destruct (pagedir_bits 1 0xc0100000 demo 0xc0101000 0x1000 6 true demo_dir) as [(s'&E&H) _].
  - split; [unfold in_u; lia|reflexivity].
  - reflexivity.
  - cbn. lia.
  - right. reflexivity.
  - exists s'. split; [exact E|]. cbn [pages demo] in H. rewrite demo_entry in H. apply H.
Defined.

Lemma demo_owned : owned (mem_of demo_pages) 0xc0101000 = [0xc0105000; 0xc0102000; 0xc0101000].
Proof. vm_compute. reflexivity. Qed.

Lemma pagedir_destroy_frees_witness :
  exists s', pagedir_destroy 0xc0100000 0xc0101000 demo = Ok (tt, s') /\ freed demo_pages [0xc0105000; 0xc0102000; 0xc0101000] (pages s').
Proof.
  destruct (pagedir_destroy_frees 0xc0100000 demo 0xc0101000 demo_pages_wf) as (s'&E&H&_).
  - lia.
  - cbn [pages demo]. rewrite demo_owned. repeat (constructor; [(exists false; reflexivity) || (exists true; reflexivity)|]). constructor.
  - cbn [pages demo]. rewrite demo_owned. apply (bool_decide_unpack _). reflexivity.
  - exists s'. split; [exact E|]. cbn [pages demo] in H. rewrite demo_owned in H. exact H.
Defined.
End PagedirSpec.
