(* ===== verification/Malloc.v ===== *)
(** * The block allocator: threads/malloc.c

    Arena headers and blocks are in the byte memory of the page allocator; a
    free list is the sequence of the addresses of its blocks ([KListSpec]
    proves that the pointer code of list.c implements such sequences; the links
    are in the free blocks themselves, so nothing is said about the bytes of a
    free block).  Descriptors are numbered, and [DESCS] is the address of the
    array [descs]. *)

From S2P Require Import Prelude.
From S2P Require Import Mem.
From S2P Require Import CString.
From S2P Require Import Words.
From S2P Require Import Vaddr.
From S2P Require Import Palloc.
Local Open Scope Z_scope.

Module Malloc.
Import Mem Words Vaddr.

(** ** The code *)

Record desc := Desc { block_size_ : Z; blocks_per_arena : Z; free_list : list ptr; dlock : option Z }.
Record state := St { pages : Palloc.state; descs : list desc }.

Definition ARENA_MAGIC : Z := 0x9a548eed.
(** sizeof (struct arena) and sizeof (struct desc). *)
Definition ARENA : Z := 12.
Definition DESC : Z := 48.

Definition on_pages {A} (m : M Palloc.state A) : M state A := zoom pages (fun p s => St p (descs s)) m.
Definition on_mem {A} (m : M mem A) : M state A := on_pages (Palloc.on_mem m).

(** Descriptor [i], with a fault outside the array. *)
Definition get_desc (i : nat) : M state desc :=
  fun s => match descs s !! i with Some d => Ok (d, s) | None => Err EFault end.
Definition on_desc {A} (i : nat) (m : M desc A) : M state A :=
  fun s => match descs s !! i with
           | Some d => match m d with Ok (a, d') => Ok (a, St (pages s) (<[i := d']> (descs s))) | Err e => Err e end
           | None => Err EFault
           end.
Definition on_lock {A} (i : nat) (m : M (option Z) A) : M state A :=
  on_desc i (zoom dlock (fun l d => Desc (block_size_ d) (blocks_per_arena d) (free_list d) l) m).
Definition on_list {A} (i : nat) (m : M (list ptr) A) : M state A :=
  on_desc i (zoom free_list (fun l d => Desc (block_size_ d) (blocks_per_arena d) l (dlock d)) m).

Definition list_push_front (b : ptr) : M (list ptr) unit := modify (cons b).
Definition list_push_back (b : ptr) : M (list ptr) unit := modify (fun l => l ++ [b]).
Definition list_pop_front : M (list ptr) ptr := fun l => match l with [] => Err EPanic | b :: l' => Ok (b, l') end.
Definition list_remove (b : ptr) : M (list ptr) unit :=
  fun l => if decide (b ∈ l) then Ok (tt, filter (fun x => x <> b) l) else Err EFault.

(** The loop of [malloc_init]. *)
Fixpoint init_loop (fuel : nat) (block_size : Z) (ds : list desc) : res (list desc) :=
  match fuel with
  | O => Err EFuel
  | S f =>
      if block_size <? PGSIZE / 2 then
        if (length ds + 1 <=? 10)%nat then
          init_loop f (u32 (block_size * 2)) (ds ++ [Desc block_size ((PGSIZE - ARENA) / block_size) [] None])
        else Err EPanic
      else Ok ds
  end.

Definition malloc_init (p : Palloc.state) : res state :=
  let? ds := init_loop 12 16 [] in Ok (St p ds).

Section code.
Context (cur : Z) (DESCS : ptr).

Definition desc_ptr (i : nat) : ptr := DESCS + DESC * Z.of_nat i.
(** The descriptor a pointer points to. *)
Definition desc_of (w : ptr) : nat := Z.to_nat ((w - DESCS) / DESC).
Definition deref (w : ptr) : M state desc :=
  do! lift_res (if desc_ptr (desc_of w) =? w then Ok tt else Err EFault) in get_desc (desc_of w).

Definition block_to_arena (b : ptr) : M state ptr :=
  let a := pg_round_down b in
  do! assert (negb (a =? NULL)) in
  let! magic := on_mem (load32 a) in
  do! assert (magic =? ARENA_MAGIC) in
  let! d := on_mem (load32 (a + 4)) in
  do! (if d =? NULL then ret tt
       else let! de := deref d in assert (u32 (pg_ofs b - ARENA) mod block_size_ de =? 0)) in
  do! assert (negb (d =? NULL) || (pg_ofs b =? ARENA)) in
  ret a.

Definition arena_to_block (a : ptr) (idx : Z) : M state ptr :=
  do! assert (negb (a =? NULL)) in
  let! magic := on_mem (load32 a) in
  do! assert (magic =? ARENA_MAGIC) in
  let! d := on_mem (load32 (a + 4)) in
  let! de := deref d in
  do! assert (idx <? blocks_per_arena de) in
  ret (a + ARENA + idx * block_size_ de).

(** The first loop of [malloc]: the first descriptor with large enough blocks. *)
Fixpoint find_desc (ds : list desc) (i : nat) (size : Z) : option nat :=
  match ds with
  | [] => None
  | d :: ds' => if size <=? block_size_ d then Some i else find_desc ds' (S i) size
  end.

(** The body of the second loop of [malloc]. *)
Definition add_block (a : ptr) (d : nat) (i : Z) : M state unit :=
  let! b := arena_to_block a i in on_list d (list_push_back b).

Definition malloc (size : Z) : M state ptr :=
  if size =? 0 then ret NULL
  else
    let! ds := gets descs in
    match find_desc ds 0 size with
    | None =>
        let page_cnt := u32 (size + ARENA + PGSIZE - 1) / PGSIZE in
        let! a := on_pages (Palloc.palloc_get_multiple cur 0 page_cnt) in
        if a =? NULL then ret NULL
        else
          do! on_mem (store32 a ARENA_MAGIC) in
          do! on_mem (store32 (a + 4) NULL) in
          do! on_mem (store32 (a + 8) page_cnt) in
          ret (a + ARENA)
    | Some d =>
        do! on_lock d (lock_acquire cur) in
        let! de := get_desc d in
        let! ok := (if decide (free_list de = []) then
                      let! a := on_pages (Palloc.palloc_get_page cur 0) in
                      if a =? NULL then
                        do! on_lock d (lock_release cur) in ret false
                      else
                        do! on_mem (store32 a ARENA_MAGIC) in
                        do! on_mem (store32 (a + 4) (desc_ptr d)) in
                        do! on_mem (store32 (a + 8) (blocks_per_arena de)) in
                        do! for_ (Z.to_nat (blocks_per_arena de)) 0 (add_block a d) in
                        ret true
                    else ret true) in
        if ok then
          let! b := on_list d list_pop_front in
          let! a := block_to_arena b in
          let! n := on_mem (load32 (a + 8)) in
          do! on_mem (store32 (a + 8) (u32 (n - 1))) in
          do! on_lock d (lock_release cur) in
          ret b
        else ret NULL
    end.

Definition calloc (a b : Z) : M state ptr :=
  let size := u32 (a * b) in
  if (size <? a) || (size <? b) then ret NULL
  else
    let! p := malloc size in
    do! (if negb (p =? NULL) then do! on_mem (CString.memset p 0 size) in ret tt else ret tt) in
    ret p.

Definition block_size (block : ptr) : M state Z :=
  let! a := block_to_arena block in
  let! d := on_mem (load32 (a + 4)) in
  if negb (d =? NULL) then let! de := deref d in ret (block_size_ de)
  else let! n := on_mem (load32 (a + 8)) in ret (u32 (PGSIZE * n - pg_ofs block)).

(** The body of the loop of [free]. *)
Definition drop_block (a : ptr) (d : nat) (i : Z) : M state unit :=
  let! b := arena_to_block a i in on_list d (list_remove b).

Definition free (p : ptr) : M state unit :=
  if p =? NULL then ret tt
  else
    let! a := block_to_arena p in
    let! dp := on_mem (load32 (a + 4)) in
    if negb (dp =? NULL) then
      let! de := deref dp in
      let d := desc_of dp in
      do! on_mem (CString.memset p 0xcc (block_size_ de)) in
      do! on_lock d (lock_acquire cur) in
      do! on_list d (list_push_front p) in
      let! n := on_mem (load32 (a + 8)) in
      let n := u32 (n + 1) in
      do! on_mem (store32 (a + 8) n) in
      do! (if blocks_per_arena de <=? n then
             do! assert (n =? blocks_per_arena de) in
             do! for_ (Z.to_nat (blocks_per_arena de)) 0 (drop_block a d) in
             on_pages (Palloc.palloc_free_page a)
           else ret tt) in
      on_lock d (lock_release cur)
    else
      let! n := on_mem (load32 (a + 8)) in
      on_pages (Palloc.palloc_free_multiple a n).

Definition realloc (old_block : ptr) (new_size : Z) : M state ptr :=
  if new_size =? 0 then do! free old_block in ret NULL
  else
    let! new_block := malloc new_size in
    do! (if negb (old_block =? NULL) && negb (new_block =? NULL) then
           let! old_size := block_size old_block in
           let min_size := if new_size <? old_size then new_size else old_size in
           do! on_mem (CString.memcpy new_block old_block min_size) in
           free old_block
         else ret tt) in
    ret new_block.
End code.
End Malloc.
