(* ===== verification/MallocSpec.v ===== *)
(** * The block allocator as a set of disjoint blocks

    The invariant of the allocator's data structures, the set of live blocks it
    stands for, and what [malloc], [calloc], [realloc] and [free] do to that
    set and to the contents of the blocks. *)

From S2P Require Import Prelude.
From S2P Require Import Mem.
From S2P Require Import Bitmap.
From S2P Require Import CString.
From S2P Require Import Words.
From S2P Require Import Vaddr.
From S2P Require Import Palloc.
From S2P Require Import Malloc.
Local Open Scope Z_scope.

Module MallocSpec.
Import Mem Words Vaddr Malloc.

Abbreviation mem_of := Palloc.memory.
Abbreviation set_mem := Palloc.set_mem.
Abbreviation kpage := Palloc.kpage.

(** ** The invariant *)

(** Block size and blocks per arena of descriptor [i]. *)
Definition bs (i : nat) : Z := 16 * 2 ^ Z.of_nat i.
Definition bpa (i : nat) : Z := 4084 / bs i.

Definition page (b : ptr) : ptr := 4096 * (b / 4096).
Definition block (i : nat) (a : ptr) (k : Z) : ptr := a + ARENA + k * bs i.
Definition is_block (a : ptr) (i : nat) (b : ptr) : Prop := exists k, 0 <= k < bpa i /\ b = block i a k.
Definition count (a : ptr) (l : list ptr) : Z := Z.of_nat (length (filter (fun b => page b = a) l)).
Definition fl (ds : list desc) (i : nat) : list ptr := match ds !! i with Some d => free_list d | None => [] end.

(** The header of an arena. *)
Definition hdr (m : mem) (a dp n : Z) : Prop := rd m a = ARENA_MAGIC /\ rd m (a + 4) = dp /\ rd m (a + 8) = n.

(** The blocks in use: those of an arena that are not in its free list, and
    the big ones. *)
Definition live (ds : list desc) (SA : gmap ptr nat) (BA : gmap ptr Z) (b n : Z) : Prop :=
  (exists a i, SA !! a = Some i /\ is_block a i b /\ b ∉ fl ds i /\ n = bs i) \/
  (exists a c, BA !! a = Some c /\ b = a + ARENA /\ n = 4096 * c - ARENA).

Section inv.
Context (DESCS : ptr).

(** [SA] maps the arenas of small blocks to their descriptors, [BA] the arenas
    of big blocks to their numbers of pages. *)
Record heap (p : Palloc.state) (ds : list desc) (SA : gmap ptr nat) (BA : gmap ptr Z) : Prop := Heap {
  h_wf : Palloc.wf p;
  h_len : length ds = 7%nat;
  h_desc : forall i d, ds !! i = Some d -> block_size_ d = bs i /\ blocks_per_arena d = bpa i /\ dlock d = None;
  h_small : forall a i, SA !! a = Some i -> (i < 7)%nat /\ kpage p a /\ hdr (mem_of p) a (desc_ptr DESCS i) (count a (fl ds i));
  h_big : forall a n, BA !! a = Some n -> 0 < n /\ Palloc.run p false a n true /\ hdr (mem_of p) a NULL n;
  h_sep : forall a i a' n, SA !! a = Some i -> BA !! a' = Some n -> a + 4096 <= a' \/ a' + 4096 * n <= a;
  h_sep2 : forall a n a' n', BA !! a = Some n -> BA !! a' = Some n' -> a <> a' -> a + 4096 * n <= a' \/ a' + 4096 * n' <= a;
  h_free : forall i, NoDup (fl ds i) /\ forall b, b ∈ fl ds i -> SA !! page b = Some i /\ is_block (page b) i b }.

(** No arena is entirely free. *)
Definition busy (ds : list desc) (SA : gmap ptr nat) : Prop :=
  forall a i, SA !! a = Some i -> count a (fl ds i) < bpa i.

(** State [s] has the live blocks [L]. *)
Definition heap_of (s : state) (L : gmap ptr Z) : Prop :=
  exists SA BA, heap (pages s) (descs s) SA BA /\ busy (descs s) SA /\
    forall b n, L !! b = Some n <-> live (descs s) SA BA b n.

(** ** Blocks *)

Lemma bs_cases i : (i < 7)%nat -> 16 <= bs i <= 1024 /\ 3 <= bpa i <= 255 /\ bpa i * bs i <= 4084 /\ In (bs i) [16; 32; 64; 128; 256; 512; 1024].
Proof. intros Hi. do 7 (destruct i as [|i]; [vm_compute; intuition congruence|]). lia. Qed.

Lemma block_range i a k : (i < 7)%nat -> 0 <= k < bpa i -> a + 12 <= block i a k /\ block i a k + bs i <= a + 4096.
Proof. intros Hi Hk. destruct (bs_cases i Hi) as (?&?&?&_). unfold block, ARENA. nia. Qed.

Lemma page_block i a k : (i < 7)%nat -> a mod 4096 = 0 -> 0 <= k < bpa i -> page (block i a k) = a.
Proof.
  intros Hi Ha Hk. destruct (block_range i a k Hi Hk) as [H1 H2]. destruct (bs_cases i Hi) as (?&_). unfold page. zlia.
Qed.

Lemma block_inj i a k k' : block i a k = block i a k' -> k = k'.
Proof. unfold block. assert (0 < bs i) by (unfold bs; lia). nia. Qed.

Lemma block_disj i a k k' : k <> k' -> block i a k + bs i <= block i a k' \/ block i a k' + bs i <= block i a k.
Proof. unfold block. assert (0 < bs i) by (unfold bs; lia). intros. destruct (Z.lt_ge_cases k k'); [left|right]; nia. Qed.

Context (p : Palloc.state) (ds : list desc) (SA : gmap ptr nat) (BA : gmap ptr Z) (H : heap p ds SA BA).

Lemma arena_props a i : SA !! a = Some i -> (i < 7)%nat /\ a mod 4096 = 0 /\ PHYS_BASE < a /\ a + 4096 <= 2 ^ 32 /\ mapped (mem_of p) a 4096.
Proof. intros Ha. destruct (h_small _ _ _ _ H a i Ha) as (Hi&Hk&_). destruct (Palloc.kpage_props _ _ (h_wf _ _ _ _ H) Hk) as (?&?&?&?). done. Qed.

Lemma big_props a n : BA !! a = Some n -> 0 < n /\ a mod 4096 = 0 /\ PHYS_BASE < a /\ a + 4096 * n <= 2 ^ 32 /\ mapped (mem_of p) a (4096 * n).
Proof.
  intros Ha. destruct (h_big _ _ _ _ H a n Ha) as (Hn&Hr&_). pose proof (h_wf _ _ _ _ H) as Hw. pose proof (Palloc.run_mapped _ _ _ _ _ Hw Hr).
  pose proof (Palloc.w_pool _ Hw false) as [_ _ _ Hl Hh]. destruct Hr as [R1 R2 R3 _]. split_and!; [done|done|lia|lia|done].
Qed.

(** Where a live block is. *)
Lemma live_range b n : live ds SA BA b n -> 16 <= n /\ PHYS_BASE < b /\ b + n <= 2 ^ 32 /\ mapped (mem_of p) b n.
Proof.
  intros [(a&i&Ha&(k&Hk&->)&_&->)|(a&c&Ha&->&->)].
  - destruct (arena_props a i Ha) as (Hi&_&Hl&Hh&Hm). destruct (bs_cases i Hi) as (?&_). destruct (block_range i a k Hi Hk).
    split_and!; [lia|lia|lia|]. intros q Hq. apply Hm. lia.
  - destruct (big_props a c Ha) as (Hc&_&Hl&Hh&Hm). unfold ARENA. split_and!; [lia|lia|lia|]. intros q Hq. apply Hm. lia.
Qed.

Lemma live_disj b n b' n' : live ds SA BA b n -> live ds SA BA b' n' -> b <> b' -> b + n <= b' \/ b' + n' <= b.
Proof.
  intros [(a&i&Ha&(k&Hk&->)&_&->)|(a&c&Ha&->&->)] [(a'&i'&Ha'&(k'&Hk'&->)&_&->)|(a'&c'&Ha'&->&->)] Hne.
  - destruct (arena_props a i Ha) as (Hi&Hal&_). destruct (arena_props a' i' Ha') as (Hi'&Hal'&_).
    destruct (block_range i a k Hi Hk), (block_range i' a' k' Hi' Hk'). destruct (decide (a = a')) as [<-|Hna].
    + rewrite Ha in Ha'. injection Ha' as <-. apply block_disj. congruence.
    + pose proof (Palloc.page_disj a a' Hal Hal' Hna). lia.
  - destruct (arena_props a i Ha) as (Hi&_). destruct (block_range i a k Hi Hk). pose proof (h_sep _ _ _ _ H _ _ _ _ Ha Ha'). unfold ARENA. lia.
  - destruct (arena_props a' i' Ha') as (Hi&_). destruct (block_range i' a' k' Hi Hk'). pose proof (h_sep _ _ _ _ H _ _ _ _ Ha' Ha). unfold ARENA. lia.
  - assert (a <> a') as Hna by congruence. pose proof (h_sep2 _ _ _ _ H _ _ _ _ Ha Ha' Hna). unfold ARENA. lia.
Qed.

(** A byte of a live block is in a page in use and in no header. *)
Lemma live_byte b n q : live ds SA BA b n -> b <= q < b + n ->
  kpage p (page q) /\ page q <= q < page q + 4096 /\
  (forall a i, SA !! a = Some i -> ~ (a <= q < a + ARENA)) /\ (forall a c, BA !! a = Some c -> ~ (a <= q < a + ARENA)).
Proof.
  intros Hl Hq. assert (page q <= q < page q + 4096) as Hpq by (unfold page; zlia).
  destruct Hl as [(a&i&Ha&(k&Hk&->)&_&->)|(a&c&Ha&->&->)].
  - destruct (arena_props a i Ha) as (Hi&Hal&_). destruct (block_range i a k Hi Hk). assert (page q = a) as Ep by (unfold page; zlia).
    destruct (h_small _ _ _ _ H a i Ha) as (_&Hkp&_). rewrite Ep. split_and!; [done|lia|lia|..]; unfold ARENA.
    + intros a' i' Ha'. destruct (arena_props a' i' Ha') as (_&Hal'&_). destruct (decide (a = a')) as [<-|Hna]; [lia|].
      pose proof (Palloc.page_disj a a' Hal Hal' Hna). lia.
    + intros a' c' Ha'. destruct (big_props a' c' Ha') as (Hc&_). pose proof (h_sep _ _ _ _ H _ _ _ _ Ha Ha'). lia.
  - destruct (big_props a c Ha) as (Hc&Hal&_). destruct (h_big _ _ _ _ H a c Ha) as (_&Hr&_). unfold ARENA in *. split_and!; [|lia|lia|..].
    + apply (Palloc.r_used _ _ _ _ _ Hr), Palloc.in_run_spec. unfold page. zlia.
    + intros a' i' Ha'. destruct (arena_props a' i' Ha') as (_&Hal'&_). pose proof (h_sep _ _ _ _ H _ _ _ _ Ha' Ha). lia.
    + intros a' c' Ha'. destruct (big_props a' c' Ha') as (Hc'&_). destruct (decide (a = a')) as [<-|Hna]; [lia|].
      pose proof (h_sep2 _ _ _ _ H _ _ _ _ Ha Ha' Hna). lia.
Qed.

(** ** Steps that keep the arenas *)

Lemma heap_ext p' : Palloc.wf p' -> (forall a i, SA !! a = Some i -> kpage p' a) ->
  (forall a n, BA !! a = Some n -> Palloc.run p' false a n true) ->
  (forall a q, is_Some (SA !! a) \/ is_Some (BA !! a) -> a <= q < a + ARENA -> mem_of p' !! q = mem_of p !! q) -> heap p' ds SA BA.
Proof.
  intros Hw Hk Hr Hm. assert (forall a dp n, is_Some (SA !! a) \/ is_Some (BA !! a) -> hdr (mem_of p) a dp n -> hdr (mem_of p') a dp n) as Hh.
  { intros a dp n Ha (E1&E2&E3). unfold ARENA in Hm. 
    assert (forall x, a <= x <= a + 8 -> rd (mem_of p') x = rd (mem_of p) x) as E by (intros x Hx; apply rd_ext; intros q Hq; apply (Hm a); [done|lia]).
    unfold hdr. rewrite !E by lia. done. }
  pose proof H as [H1 H2 H3 H4 H5 H6 H7 H8]. split; [done..| | |done|done|done].
  - intros a i Ha. destruct (H4 a i Ha) as (?&?&?). split_and!; [done|by eapply Hk|by apply Hh; [left|]].
  - intros a n Ha. destruct (H5 a n Ha) as (?&?&?). split_and!; [done|by apply Hr|by apply Hh; [right|]].
Qed.

(** The bytes of every live block stay. *)
Definition kept (p' : Palloc.state) : Prop :=
  forall b n q, live ds SA BA b n -> b <= q < b + n -> mem_of p' !! q = mem_of p !! q.

(** Writing inside a live block. *)
Lemma heap_write b n x l : live ds SA BA b n -> b <= x -> x + zlen l <= b + n -> Forall (in_u 8) l ->
  heap (set_mem (write (mem_of p) x l) p) ds SA BA.
Proof.
  intros Hl H1 H2 Hb. destruct (live_range _ _ Hl) as (_&_&_&Hm). apply heap_ext.
  - apply Palloc.write_wf; [apply H|intros q Hq; apply Hm; lia|done].
  - intros a i Ha. by apply (h_small _ _ _ _ H a i).
  - intros a c Ha. destruct (h_big _ _ _ _ H a c Ha) as (_&[R1 R2 R3 R4]&_). by split.
  - intros a q Ha Hq. cbn. rewrite lookup_write, decide_False; [done|]. intros Hx.
    destruct (live_byte b n q Hl ltac:(lia)) as (_&_&Hs&Hbig). destruct Ha as [[i Ha]|[c Ha]]; [by eapply Hs|by eapply Hbig].
Qed.

(** An arena header is not touched by a change of the count in another one. *)
Lemma hdr_count a i v : SA !! a = Some i -> in_u 32 v ->
  let m' := write (mem_of p) (a + 8) (le32 v) in
  (forall dp n, hdr (mem_of p) a dp n -> hdr m' a dp v) /\
  (forall a' dp n, a' <> a -> is_Some (SA !! a') \/ is_Some (BA !! a') -> hdr (mem_of p) a' dp n -> hdr m' a' dp n).
Proof.
  intros Ha Hv m'. destruct (arena_props a i Ha) as (_&Hal&_). split.
  - intros dp n (E1&E2&E3). unfold hdr, m'. rewrite !rd_write by (done || lia). rewrite Z.eqb_refl, !(proj2 (Z.eqb_neq (a + 8) _)) by lia. done.
  - intros a' dp n Hne Hin (E1&E2&E3). assert (a + 4096 <= a' \/ a' + 12 <= a) as Hd.
    { destruct Hin as [[j Hj]|[c Hc]].
      - destruct (arena_props a' j Hj) as (_&Hal'&_). pose proof (Palloc.page_disj a a' Hal Hal' ltac:(done)). lia.
      - pose proof (h_sep _ _ _ _ H _ _ _ _ Ha Hc). destruct (big_props a' c Hc) as (?&_). lia. }
    unfold hdr, m'. rewrite !rd_write by (done || lia). rewrite !(proj2 (Z.eqb_neq (a + 8) _)) by lia. done.
Qed.

Lemma count_wf a i v : SA !! a = Some i -> Palloc.wf (set_mem (write (mem_of p) (a + 8) (le32 v)) p).
Proof.
  intros Ha. destruct (arena_props a i Ha) as (_&_&_&_&Hm). apply Palloc.write_wf; [apply H| |apply le32_bytes].
  intros q Hq. apply Hm. simpl length in Hq. lia.
Qed.

Lemma count_kept a i v : SA !! a = Some i -> kept (set_mem (write (mem_of p) (a + 8) (le32 v)) p).
Proof.
  intros Ha b n q Hl Hq. cbn [Palloc.memory Palloc.set_mem]. rewrite lookup_write, decide_False; [done|]. simpl length.
  destruct (live_byte b n q Hl Hq) as (_&_&Hs&_). specialize (Hs a i Ha). unfold ARENA in Hs. lia.
Qed.

Lemma count_range a l i : (forall b, b ∈ l -> SA !! page b = Some i /\ is_block (page b) i b) -> NoDup l -> (i < 7)%nat -> 0 <= count a l <= bpa i.
Proof.
  intros Hf Hn Hi. split; [unfold count; lia|]. unfold count.
  assert (filter (fun b => page b = a) l ⊆+ map (block i a) (seqZ 0 (bpa i))) as Hs.
  { apply NoDup_submseteq; [by apply NoDup_filter|]. intros b [<- Hb]%list_elem_of_filter. destruct (Hf b Hb) as (_&k&Hk&Eb).
    apply list_elem_of_fmap. exists k. split; [done|]. by apply elem_of_seqZ. }
  apply submseteq_length in Hs. rewrite length_map, length_seqZ in Hs. destruct (bs_cases i Hi) as (_&?&_). lia.
Qed.

(** ** Changing a free list *)

Definition set_list (i : nat) (l : list ptr) : list desc := <[i := Desc (bs i) (bpa i) l None]> ds.

Lemma desc_lookup i : (i < 7)%nat -> exists d, ds !! i = Some d /\ d = Desc (bs i) (bpa i) (fl ds i) None.
Proof.
  intros Hi. destruct (lookup_lt_is_Some_2 ds i) as [d Hd]; [by rewrite (h_len _ _ _ _ H)|]. exists d. split; [done|].
  destruct (h_desc _ _ _ _ H i d Hd) as (E1&E2&E3). unfold fl. rewrite Hd. destruct d. by simplify_eq/=.
Qed.

Lemma fl_set_list i l j : (i < 7)%nat -> fl (set_list i l) j = if decide (j = i) then l else fl ds j.
Proof.
  intros Hi. unfold fl, set_list. case_decide as E; [subst|by rewrite list_lookup_insert_ne by done].
  by rewrite list_lookup_insert_eq by (by rewrite (h_len _ _ _ _ H)).
Qed.

Lemma set_list_desc i l j d : ds !! i <> None -> set_list i l !! j = Some d -> block_size_ d = bs j /\ blocks_per_arena d = bpa j /\ dlock d = None.
Proof.
  intros Hi. unfold set_list. destruct (decide (j = i)) as [->|Hne].
  - intros Hj. destruct (lookup_lt_Some _ _ _ Hj). all: rewrite list_lookup_insert_eq in Hj by (apply lookup_lt_is_Some; by apply not_eq_None_Some). all: by injection Hj as <-.
  - rewrite list_lookup_insert_ne by done. apply (h_desc _ _ _ _ H).
Qed.

Lemma heap_set_list a i l' : SA !! a = Some i -> NoDup l' -> (forall b, b ∈ l' -> SA !! page b = Some i /\ is_block (page b) i b) ->
  (forall a', a' <> a -> count a' l' = count a' (fl ds i)) ->
  heap (set_mem (write (mem_of p) (a + 8) (le32 (count a l'))) p) (set_list i l') SA BA.
Proof.
  intros Ha Hn Hf Hc. destruct (arena_props a i Ha) as (Hi&_). pose proof (count_range a l' i Hf Hn Hi) as Hcr. destruct (bs_cases i Hi) as (_&Hb&_).
  destruct (hdr_count a i (count a l') Ha ltac:(unfold in_u; lia)) as [Hsame Hother]. destruct (desc_lookup i Hi) as (d&Hd&_).
  pose proof H as [H1 H2 H3 H4 H5 H6 H7 H8]. split.
  - by eapply count_wf.
  - unfold set_list. by rewrite length_insert.
  - intros j dj. apply set_list_desc. by rewrite Hd.
  - intros a' j Hj. destruct (H4 a' j Hj) as (?&?&Hh). split_and!; [done|done|]. rewrite fl_set_list by done.
    destruct (decide (a' = a)) as [->|Hne]; [rewrite Ha in Hj; injection Hj as <-; rewrite decide_True by done; by eapply Hsame|].
    apply Hother in Hh; [|done|by left]. case_decide as E; [subst j|done]. rewrite (Hc a' Hne). exact Hh.
  - intros a' n Hn'. destruct (H5 a' n Hn') as (?&[R1 R2 R3 R4]&Hh). split_and!; [done|by split|]. apply Hother; [|by right|done].
    intros ->. pose proof (H6 _ _ _ _ Ha Hn'). lia.
  - done.
  - done.
  - intros j. rewrite fl_set_list by done. case_decide; [subst; done|apply H8].
Qed.

Lemma count_cons a b l : count a (b :: l) = (if decide (page b = a) then 1 else 0) + count a l.
Proof. unfold count. rewrite filter_cons. case_decide; simpl; lia. Qed.

Lemma pop_list i b l : fl ds i = b :: l -> SA !! page b = Some i /\ is_block (page b) i b /\ b ∉ l /\
  NoDup l /\ (forall x, x ∈ l -> SA !! page x = Some i /\ is_block (page x) i x).
Proof.
  intros E. destruct (h_free _ _ _ _ H i) as [Hn Hf]. rewrite E in Hn, Hf. apply NoDup_cons in Hn as [Hb Hn].
  destruct (Hf b ltac:(by left)). split_and!; [done|done|done|done|]. intros x Hx. apply Hf. by right.
Qed.

(** [malloc] takes the first free block. *)
Lemma heap_pop i b l : fl ds i = b :: l ->
  let p' := set_mem (write (mem_of p) (page b + 8) (le32 (count (page b) l))) p in
  heap p' (set_list i l) SA BA /\ kept p' /\
  (forall x n, live (set_list i l) SA BA x n <-> live ds SA BA x n \/ (x = b /\ n = bs i)) /\ (forall n, ~ live ds SA BA b n).
Proof.
  intros E p'. destruct (pop_list i b l E) as (Hb&Hblk&Hbl&Hn&Hf). destruct (arena_props _ _ Hb) as (Hi&Hal&_). split_and!.
  - apply heap_set_list; [done|done|done|]. intros a' Ha'. rewrite E, count_cons, decide_False by done. lia.
  - by eapply count_kept.
  - intros x n. unfold live. split.
    + intros [(a&j&Ha&Hx&Hnx&->)|?]; [|by left; right]. rewrite fl_set_list in Hnx by done.
      case_decide as Ej; [subst j|left; left; by exists a, j]. destruct (decide (x = b)) as [->|Hxb]; [right; done|left; left; exists a, i].
      split_and!; [done|done| |done]. rewrite E. apply not_elem_of_cons. done.
    + intros [[(a&j&Ha&Hx&Hnx&->)|?]|[-> ->]]; [|by right|].
      * left. exists a, j. split_and!; [done|done| |done]. rewrite fl_set_list by done. case_decide; [subst j|done]. rewrite E in Hnx. by apply not_elem_of_cons in Hnx as [_ ?].
      * left. exists (page b), i. split_and!; [done|done| |done]. by rewrite fl_set_list, decide_True by done.
  - intros n [(a&j&Ha&(k&Hk&Ek)&Hnx&_)|(a&c&Ha&Eb&_)].
    + destruct (arena_props _ _ Ha) as (Hj&Haa&_). assert (page b = a) as Epb by (rewrite Ek; by apply page_block).
      rewrite Epb, Ha in Hb. injection Hb as ->. apply Hnx. rewrite E. by left.
    + pose proof (h_sep _ _ _ _ H _ _ _ _ Hb Ha) as Hs. destruct (big_props _ _ Ha) as (Hc&Haa&_). unfold page, ARENA in *. zlia.
Qed.

(** [free] puts a block back. *)
Lemma heap_push a i b : SA !! a = Some i -> is_block a i b -> b ∉ fl ds i ->
  let l' := b :: fl ds i in let p' := set_mem (write (mem_of p) (a + 8) (le32 (count a l'))) p in
  heap p' (set_list i l') SA BA /\ kept p' /\ (forall x n, live (set_list i l') SA BA x n <-> live ds SA BA x n /\ x <> b).
Proof.
  intros Ha Hblk Hb l' p'. destruct (arena_props _ _ Ha) as (Hi&Hal&_). destruct (h_free _ _ _ _ H i) as [Hn Hf].
  pose proof Hblk as (k&Hk&Ek). assert (page b = a) as Epb by (rewrite Ek; by apply page_block). split_and!.
  - apply heap_set_list; [done|by constructor| |].
    + intros x [->|Hx]%elem_of_cons; [by rewrite Epb|by apply Hf].
    + intros a' Ha'. unfold l'. rewrite count_cons, decide_False by congruence. lia.
  - by eapply count_kept.
  - intros x n. unfold live. split.
    + intros [(a'&j&Ha'&Hx&Hnx&->)|(a'&c&Ha'&Ex&En)].
      * rewrite fl_set_list in Hnx by done. split.
        -- left. exists a', j. split_and!; [done|done| |done]. case_decide; [subst j|done]. by apply not_elem_of_cons in Hnx as [_ ?].
        -- intros ->. destruct Hx as (k'&Hk'&Ek'). destruct (arena_props _ _ Ha') as (Hj&Hal'&_).
           assert (page b = a') as Epb' by (rewrite Ek'; by apply page_block). rewrite <- Epb', Epb, Ha in Ha'. injection Ha' as <-.
           rewrite decide_True in Hnx by done. apply Hnx. by left.
      * split; [right; by exists a', c|]. intros ->. pose proof (h_sep _ _ _ _ H _ _ _ _ Ha Ha'). destruct (big_props _ _ Ha') as (Hc&Haa&_).
        unfold page, ARENA in *. zlia.
    + intros [[(a'&j&Ha'&Hx&Hnx&->)|?] Hne]; [|by right]. left. exists a', j. split_and!; [done|done| |done].
      rewrite fl_set_list by done. case_decide; [subst j|done]. by apply not_elem_of_cons.
Qed.

(** When all blocks of an arena are free, the free list has each of them. *)
Lemma full_arena a i b : SA !! a = Some i -> count a (fl ds i) = bpa i -> is_block a i b -> b ∈ fl ds i.
Proof.
  intros Ha Hc (k&Hk&->). destruct (arena_props _ _ Ha) as (Hi&Hal&_). destruct (h_free _ _ _ _ H i) as [Hn Hf].
  assert (filter (fun b => page b = a) (fl ds i) ⊆+ map (block i a) (seqZ 0 (bpa i))) as Hs.
  { apply NoDup_submseteq; [by apply NoDup_filter|]. intros b [<- Hb]%list_elem_of_filter. destruct (Hf b Hb) as (_&k'&Hk'&Eb).
    apply list_elem_of_fmap. exists k'. split; [done|]. by apply elem_of_seqZ. }
  apply submseteq_length_Permutation in Hs; [|unfold count in Hc; rewrite length_map, length_seqZ; lia].
  assert (block i a k ∈ filter (fun b => page b = a) (fl ds i)) as [_ ?]%list_elem_of_filter; [|done].
  rewrite Hs. apply list_elem_of_fmap. exists k. split; [done|]. by apply elem_of_seqZ.
Qed.

(** Freeing pages leaves the arenas in other pages. *)
Lemma freed_pages a cnt p' : Palloc.pages_set p false a cnt false p' -> 0 < cnt ->
  (forall q, ~ (a <= q < a + 4096 * cnt) -> mem_of p' !! q = mem_of p !! q) ->
  (forall x, x + 4096 <= a \/ a + 4096 * cnt <= x -> kpage p x -> kpage p' x) /\
  (forall x n, 0 < n -> x + 4096 * n <= a \/ a + 4096 * cnt <= x -> Palloc.run p false x n true -> Palloc.run p' false x n true) /\
  (forall x dp n, x + ARENA <= a \/ a + 4096 * cnt <= x -> hdr (mem_of p) x dp n -> hdr (mem_of p') x dp n).
Proof.
  intros [P1 P2 P3 P4] Hcnt Hq. pose proof (P4 false) as P. cbn in P. split_and!.
  - intros x Hx Hk. unfold Palloc.kpage. rewrite P. destruct (Palloc.in_run a cnt x) eqn:E; [apply Palloc.in_run_spec in E; lia|done].
  - intros x n Hn Hx [R1 R2 R3 R4]. destruct (P3 false) as [E1 E2]. cbn in *. split; [done|cbn; lia|cbn; lia|]. intros y Hy. cbn. rewrite P.
    destruct (Palloc.in_run a cnt y) eqn:E; [apply Palloc.in_run_spec in E; apply Palloc.in_run_spec in Hy; lia|by apply R4].
  - intros x dp n Hx (E1&E2&E3). unfold ARENA in Hx. unfold hdr. rewrite !(rd_ext (mem_of p) (mem_of p')); [done|..]; intros q Hr; apply Hq; lia.
Qed.

(** [free] gives back an arena without used blocks. *)
Lemma heap_drop a i p' : SA !! a = Some i -> count a (fl ds i) = bpa i -> Palloc.pages_set p false a 1 false p' ->
  (forall q, ~ (a <= q < a + 4096 * 1) -> mem_of p' !! q = mem_of p !! q) ->
  let ds' := set_list i (filter (fun b => page b <> a) (fl ds i)) in
  heap p' ds' (delete a SA) BA /\ kept p' /\ (forall x n, live ds' (delete a SA) BA x n <-> live ds SA BA x n).
Proof.
  intros Ha Hc Hps Hq ds'. destruct (arena_props _ _ Ha) as (Hi&Hal&_). destruct (desc_lookup i Hi) as (d&Hd&_).
  destruct (freed_pages a 1 p' Hps ltac:(lia) Hq) as (Hk&Hr&Hh).
  assert (forall a' j, delete a SA !! a' = Some j -> SA !! a' = Some j /\ a' <> a /\ (a' + 4096 <= a \/ a + 4096 <= a')) as Hdel.
  { intros a' j [Hne Hj]%lookup_delete_Some. destruct (arena_props _ _ Hj) as (_&Hal'&_). split_and!; [done|done|]. by apply Palloc.page_disj. }
  assert (forall a' j, delete a SA !! a' = Some j -> count a' (fl ds' j) = count a' (fl ds j)) as Hcnt.
  { intros a' j (_&Hne&_)%Hdel. unfold ds'. rewrite fl_set_list by done. case_decide; [subst j|done]. unfold count. f_equal. f_equal.
    rewrite list_filter_filter. apply list_filter_iff. intros x. naive_solver. }
  pose proof H as [H1 H2 H3 H4 H5 H6 H7 H8]. split_and!; [split|..].
  - apply Hps.
  - unfold ds', set_list. by rewrite length_insert.
  - intros j dj. apply set_list_desc. by rewrite Hd.
  - intros a' j Hj. rewrite (Hcnt a' j Hj). destruct (Hdel _ _ Hj) as (Hj'&_&Hdis). destruct (H4 a' j Hj') as (?&?&?).
    split_and!; [done|apply Hk; [lia|done]|apply Hh; [unfold ARENA; lia|done]].
  - intros a' n Hn. destruct (H5 a' n Hn) as (?&?&?). pose proof (H6 _ _ _ _ Ha Hn).
    split_and!; [done|apply Hr; [done|lia|done]|apply Hh; [unfold ARENA; lia|done]].
  - intros a1 j a2 n Hj Hn. destruct (Hdel _ _ Hj) as (Hj'&_&_). by eapply H6.
  - done.
  - intros j. destruct (H8 j) as [Hn Hf]. unfold ds'. rewrite fl_set_list by done.
    assert (forall b, b ∈ fl ds j -> page b <> a -> delete a SA !! page b = Some j /\ is_block (page b) j b) as Hf'.
    { intros b Hb Hne. destruct (Hf b Hb). split; [by rewrite lookup_delete_ne by congruence|done]. }
    case_decide; [subst j|].
    + split; [by apply NoDup_filter|]. intros b [? ?]%list_elem_of_filter. by apply Hf'.
    + split; [done|]. intros b Hb. apply Hf'; [done|]. intros E. destruct (Hf b Hb) as [Hb' _]. rewrite E, Ha in Hb'. congruence.
  - intros b n q Hl Hb. apply Hq. destruct (live_byte b n q Hl Hb) as (_&Hpq&_). intros Hin.
    assert (page q = a) as Epq by (unfold page in *; zlia). destruct Hl as [(a'&j&Ha'&(k&Hkk&->)&Hnf&->)|(a'&c&Ha'&->&->)].
    + destruct (arena_props _ _ Ha') as (Hj&Hal'&_). destruct (block_range j a' k Hj Hkk). assert (a' = a) as -> by (unfold page in *; zlia).
      rewrite Ha in Ha'. injection Ha' as <-. apply Hnf. apply (full_arena a i); [done|done|]. by exists k.
    + pose proof (H6 _ _ _ _ Ha Ha'). destruct (big_props _ _ Ha') as (?&?&_). unfold ARENA in *. lia.
  - intros x n. unfold live. split.
    + intros [(a'&j&(Ha'&Hne&_)%Hdel&Hx&Hnx&->)|?]; [left|by right]. exists a', j. split_and!; [done|done| |done].
      unfold ds' in Hnx. rewrite fl_set_list in Hnx by done. case_decide; [subst j|done]. intros Hin. apply Hnx, list_elem_of_filter. split; [|done].
      destruct Hx as (k&Hkk&->). destruct (arena_props _ _ Ha') as (Hj&Hal'&_). by rewrite page_block.
    + intros [(a'&j&Ha'&Hx&Hnx&->)|?]; [left|by right]. destruct (decide (a' = a)) as [->|Hne].
      * rewrite Ha in Ha'. injection Ha' as <-. by destruct Hnx; apply (full_arena a i).
      * exists a', j. split_and!; [by rewrite lookup_delete_ne by done|done| |done]. unfold ds'. rewrite fl_set_list by done.
        case_decide; [subst j|done]. intros [_ ?]%list_elem_of_filter. done.
Qed.

(** ** New arenas *)

Definition put_hdr (m : mem) (a dp n : Z) : mem := write (write (write m a (le32 ARENA_MAGIC)) (a + 4) (le32 dp)) (a + 8) (le32 n).

Lemma put_hdr_lookup m a dp n q : ~ (a <= q < a + ARENA) -> put_hdr m a dp n !! q = m !! q.
Proof. unfold ARENA. intros Hq. unfold put_hdr. rewrite !lookup_write, !decide_False by (simpl length; lia). done. Qed.

Lemma put_hdr_hdr m a dp n : in_u 32 dp -> in_u 32 n -> hdr (put_hdr m a dp n) a dp n.
Proof.
  intros Hd Hn. assert (in_u 32 ARENA_MAGIC) by done. unfold hdr, put_hdr. rewrite !rd_write by (done || lia).
  rewrite !Z.eqb_refl, !(proj2 (Z.eqb_neq _ _)) by lia. done.
Qed.

Lemma put_hdr_wf p1 a dp n : Palloc.wf p1 -> mapped (mem_of p1) a 4096 -> Palloc.wf (set_mem (put_hdr (mem_of p1) a dp n) p1).
Proof.
  intros Hw Hm.
  pose proof (Palloc.write_wf p1 a (le32 ARENA_MAGIC) Hw ltac:(intros q Hq; apply Hm; simpl length in Hq; lia) (le32_bytes _)) as H1.
  pose proof (Palloc.write_wf _ (a + 4) (le32 dp) H1 ltac:(apply write_mapped; intros q Hq; apply Hm; simpl length in Hq; lia) (le32_bytes _)) as H2.
  exact (Palloc.write_wf _ (a + 8) (le32 n) H2 ltac:(do 2 apply write_mapped; intros q Hq; apply Hm; simpl length in Hq; lia) (le32_bytes _)).
Qed.

(** Pages just obtained, with a header written into the first one. *)
Lemma fresh_pages a cnt p1 dp n : Palloc.pages_set p false a cnt true p1 -> 0 < cnt -> mem_of p1 = mem_of p ->
  let p' := set_mem (put_hdr (mem_of p1) a dp n) p1 in
  a mod 4096 = 0 /\ PHYS_BASE < a /\ a + 4096 * cnt <= 2 ^ 32 /\ mapped (mem_of p') a (4096 * cnt) /\
  heap p' ds SA BA /\ kept p' /\ Palloc.run p' false a cnt true /\
  (forall a' i, SA !! a' = Some i -> a' + 4096 <= a \/ a + 4096 * cnt <= a') /\
  (forall a' c, BA !! a' = Some c -> a' + 4096 * c <= a \/ a + 4096 * cnt <= a').
Proof.
  intros Hps Hcnt Hm p'. pose proof Hps as [P1 [R1 R2 R3 R4] P3 P4]. pose proof (P4 false) as P. cbn in P. cbn in R2, R3, R4.
  pose proof (Palloc.w_pool _ (h_wf _ _ _ _ H) false) as [_ _ _ Hl Hh]. cbn in Hl, Hh. destruct (P3 false) as [E1 E2]. cbn in E1, E2.
  assert (Palloc.run p1 false a cnt true) as Hrun.
  { split; [done|cbn; lia|cbn; lia|]. intros y Hy. cbn. by rewrite P, Hy. }
  pose proof (Palloc.run_mapped _ _ _ _ _ P1 Hrun) as Hmap.
  assert (forall x, kpage p x -> kpage p1 x) as Hmono by (intros x Hx; unfold Palloc.kpage; rewrite P; by destruct (Palloc.in_run a cnt x)).
  assert (forall x, kpage p x -> x + 4096 <= a \/ a + 4096 * cnt <= x) as Hdis.
  { intros x Hx. destruct (Palloc.kpage_props _ _ (h_wf _ _ _ _ H) Hx) as (Hax&_). destruct (Palloc.in_run a cnt x) eqn:E.
    - rewrite (R4 x E : Palloc.in_use (Palloc.kernel_pool p) x = false) in Hx || (unfold Palloc.kpage in Hx; rewrite (R4 x E) in Hx). done.
    - apply not_true_iff_false in E. rewrite Palloc.in_run_spec in E. zlia. }
  assert (forall a' i, SA !! a' = Some i -> a' + 4096 <= a \/ a + 4096 * cnt <= a') as Hsd.
  { intros a' i Ha'. destruct (h_small _ _ _ _ H a' i Ha') as (_&Hk&_). by apply Hdis. }
  assert (forall a' c, BA !! a' = Some c -> a' + 4096 * c <= a \/ a + 4096 * cnt <= a') as Hbd.
  { intros a' c Ha'. destruct (h_big _ _ _ _ H a' c Ha') as (Hc&[Q1 Q2 Q3 Q4]&_).
    destruct (decide (a' + 4096 * c <= a \/ a + 4096 * cnt <= a')) as [|Hn]; [done|exfalso].
    set (x := if a <? a' then a' else a). assert (Palloc.in_run a cnt x = true) as Hx1 by (apply Palloc.in_run_spec; unfold x; destruct (Z.ltb_spec a a'); lia).
    assert (Palloc.in_run a' c x = true) as Hx2 by (apply Palloc.in_run_spec; unfold x; destruct (Z.ltb_spec a a'); lia).
    pose proof (R4 x Hx1) as A1. pose proof (Q4 x Hx2) as A2. cbn in A2. congruence. }
  assert (forall q, ~ (a <= q < a + ARENA) -> mem_of p' !! q = mem_of p !! q) as Hout by (intros q Hq; rewrite <- Hm; by apply put_hdr_lookup).
  split_and!; [done|lia|lia|do 3 apply write_mapped; done| | |destruct Hrun; by split|done|done].
  - apply heap_ext; [apply put_hdr_wf; [done|intros q Hq; apply Hmap; lia]|intros a' i Ha'; apply Hmono; by apply (h_small _ _ _ _ H a' i)| |].
    + intros a' c Ha'. destruct (h_big _ _ _ _ H a' c Ha') as (Hc&[Q1 Q2 Q3 Q4]&_). cbn in *. split; [done|cbn; lia|cbn; lia|].
      intros y Hy. cbn. rewrite P. by destruct (Palloc.in_run a cnt y); [|apply Q4].
    + intros a' q Ha' Hq. apply Hout. unfold ARENA in *. destruct Ha' as [[i Ha']|[c Ha']]; [pose proof (Hsd _ _ Ha'); lia|].
      pose proof (Hbd _ _ Ha'). destruct (big_props _ _ Ha') as (?&_). lia.
  - intros b n' q Hl' Hq. apply Hout. destruct (live_byte b n' q Hl' Hq) as (Hk&Hpq&_). pose proof (Hdis _ Hk). unfold ARENA. lia.
Qed.

Lemma count_blocks i a a' : (i < 7)%nat -> a mod 4096 = 0 ->
  count a' (map (block i a) (seqZ 0 (bpa i))) = if decide (a' = a) then bpa i else 0.
Proof.
  intros Hi Ha. destruct (bs_cases i Hi) as (_&Hb&_). unfold count.
  assert (forall b, b ∈ map (block i a) (seqZ 0 (bpa i)) -> page b = a) as Hp.
  { intros b (k&->&Hk%elem_of_seqZ)%list_elem_of_fmap. by apply page_block. }
  case_decide as E.
  - subst a'. rewrite filter_all by done. rewrite length_map, length_seqZ. lia.
  - rewrite filter_none; [done|]. intros b Hbb%Hp. congruence.
Qed.

(** A new arena of small blocks, all of them free. *)
Lemma heap_new_arena a i p1 : (i < 7)%nat -> fl ds i = [] -> Palloc.pages_set p false a 1 true p1 -> mem_of p1 = mem_of p -> in_u 32 (desc_ptr DESCS i) ->
  let p' := set_mem (put_hdr (mem_of p1) a (desc_ptr DESCS i) (bpa i)) p1 in
  let ds' := set_list i (map (block i a) (seqZ 0 (bpa i))) in
  SA !! a = None /\ heap p' ds' (<[a := i]> SA) BA /\ kept p' /\ (forall x n, live ds' (<[a := i]> SA) BA x n <-> live ds SA BA x n).
Proof.
  intros Hi Hfl Hps Hm Hdp p' ds'. destruct (fresh_pages a 1 p1 (desc_ptr DESCS i) (bpa i) Hps ltac:(lia) Hm) as (Hal&Hl&Hh&Hmap&Hheap&Hkept&Hrun&Hsd&Hbd).
  fold p' in Hheap, Hkept, Hmap, Hrun. destruct (bs_cases i Hi) as (_&Hb&_). destruct (desc_lookup i Hi) as (d&Hd&_).
  assert (SA !! a = None) as Hno by (destruct (SA !! a) as [j|] eqn:E; [pose proof (Hsd _ _ E); lia|done]).
  assert (forall j, fl ds' j = if decide (j = i) then map (block i a) (seqZ 0 (bpa i)) else fl ds j) as Hfl' by (intros; by apply fl_set_list).
  pose proof Hheap as [H1 H2 H3 H4 H5 H6 H7 H8]. split; [done|]. split_and!; [split|exact Hkept|].
  - done.
  - unfold ds', set_list. by rewrite length_insert.
  - intros j dj. apply set_list_desc. by rewrite Hd.
  - intros a' j [[<- <-]|[Hne Hj]]%lookup_insert_Some; rewrite Hfl'.
    + rewrite decide_True, count_blocks, decide_True by done. split_and!; [done| |apply put_hdr_hdr; [done|unfold in_u; lia]].
      apply (Palloc.r_used _ _ _ _ _ Hrun), Palloc.in_run_spec. lia.
    + destruct (H4 a' j Hj) as (?&?&Hh'). split_and!; [done|done|]. case_decide; [subst j|done].
      rewrite count_blocks, decide_False by done. by rewrite Hfl in Hh'.
  - done.
  - intros a' j a2 n [[<- <-]|[Hne Hj]]%lookup_insert_Some Hn; [pose proof (Hbd _ _ Hn); lia|by eapply H6].
  - done.
  - intros j. rewrite Hfl'. case_decide; [subst j|].
    + split.
      * apply NoDup_fmap_2_strong; [|apply NoDup_seqZ]. intros x y _ _. apply block_inj.
      * intros b (k&->&Hk%elem_of_seqZ)%list_elem_of_fmap. rewrite page_block by (done || lia). rewrite lookup_insert_eq. split; [done|]. exists k. split; [lia|done].
    + destruct (H8 j) as [Hn Hf]. split; [done|]. intros b Hbb. destruct (Hf b Hbb) as [E ?]. split; [|done]. rewrite lookup_insert_ne; [done|]. intros E2. congruence.
  - intros x n. unfold live. split.
    + intros [(a'&j&[[<- <-]|[Hne Hj]]%lookup_insert_Some&Hx&Hnx&->)|?]; [| |by right]; rewrite Hfl' in Hnx.
      * rewrite decide_True in Hnx by done. destruct Hnx. destruct Hx as (k&Hk&->). apply list_elem_of_fmap. exists k. split; [done|]. by apply elem_of_seqZ.
      * left. exists a', j. split_and!; [done|done| |done]. case_decide; [subst j; rewrite Hfl; apply not_elem_of_nil|done].
    + intros [(a'&j&Hj&Hx&Hnx&->)|?]; [left|by right]. assert (a' <> a) as Hne by congruence. exists a', j.
      split_and!; [by rewrite lookup_insert_ne by done|done| |done]. rewrite Hfl'. case_decide; [subst j|done].
      intros (k&->&Hk%elem_of_seqZ)%list_elem_of_fmap. destruct Hx as (k'&Hk'&Ek). apply Hne.
      destruct (h_small _ _ _ _ H a' i Hj) as (_&Hkp&_). destruct (Palloc.kpage_props _ _ (h_wf _ _ _ _ H) Hkp) as (Hal'&_).
      rewrite <- (page_block i a' k'), <- Ek by done. by apply page_block.
Qed.

(** A new big block. *)
Lemma heap_new_big a cnt p1 : Palloc.pages_set p false a cnt true p1 -> 0 < cnt -> mem_of p1 = mem_of p ->
  let p' := set_mem (put_hdr (mem_of p1) a NULL cnt) p1 in let BA' := <[a := cnt]> BA in
  BA !! a = None /\ heap p' ds SA BA' /\ kept p' /\
  (forall x n, live ds SA BA' x n <-> live ds SA BA x n \/ (x = a + ARENA /\ n = 4096 * cnt - ARENA)) /\ (forall n, ~ live ds SA BA (a + ARENA) n).
Proof.
  intros Hps Hcnt Hm p' BA'. destruct (fresh_pages a cnt p1 NULL cnt Hps Hcnt Hm) as (Hal&Hl&Hh&Hmap&Hheap&Hkept&Hrun&Hsd&Hbd).
  fold p' in Hheap, Hkept, Hmap, Hrun. assert (BA !! a = None) as Hno.
  { destruct (BA !! a) as [j|] eqn:E; [|done]. pose proof (Hbd _ _ E). destruct (big_props _ _ E) as (?&_). lia. }
  pose proof Hheap as [H1 H2 H3 H4 H5 H6 H7 H8]. split; [done|]. split_and!; [split; try done|exact Hkept| |].
  - intros a' n [[<- <-]|[Hne Hj]]%lookup_insert_Some; [|by apply H5]. split_and!; [done|done|apply put_hdr_hdr; [done|]]. unfold in_u, PHYS_BASE in *. lia.
  - intros a' j a2 n Hj [[<- <-]|[Hne Hn]]%lookup_insert_Some; [pose proof (Hsd _ _ Hj); lia|by eapply H6].
  - intros a1 n1 a2 n2 [[<- <-]|[Hne1 Hn1]]%lookup_insert_Some [[<- <-]|[Hne2 Hn2]]%lookup_insert_Some Hne; [done| | |by eapply H7].
    + pose proof (Hbd _ _ Hn2). lia.
    + pose proof (Hbd _ _ Hn1). lia.
  - intros x n. unfold live. split.
    + intros [?|(a'&c&[[<- <-]|[Hne Hj]]%lookup_insert_Some&->&->)]; [by left; left|by right|left; right; by exists a', c].
    + intros [[?|(a'&c&Hj&->&->)]|[-> ->]]; [by left| |].
      * right. exists a', c. split_and!; [|done|done]. unfold BA'. rewrite lookup_insert_ne; [done|]. congruence.
      * right. exists a, cnt. unfold BA'. by rewrite lookup_insert_eq.
  - intros n Hlive. destruct (live_range _ _ Hlive) as (?&_). destruct (live_byte _ _ (a + ARENA) Hlive ltac:(lia)) as (Hk&_).
    assert (page (a + ARENA) = a) as Ep by (unfold page, ARENA; zlia). rewrite Ep in Hk. destruct Hps as [_ [_ _ _ R4] _ _].
    pose proof (R4 a ltac:(apply Palloc.in_run_spec; lia)) as E. cbn in E. unfold Palloc.kpage in Hk. congruence.
Qed.

(** [free] of a big block. *)
Lemma heap_drop_big a cnt p' : BA !! a = Some cnt -> Palloc.pages_set p false a cnt false p' ->
  (forall q, ~ (a <= q < a + 4096 * cnt) -> mem_of p' !! q = mem_of p !! q) ->
  heap p' ds SA (delete a BA) /\
  (forall x n, live ds SA (delete a BA) x n <-> live ds SA BA x n /\ x <> a + ARENA) /\
  (forall b n q, live ds SA (delete a BA) b n -> b <= q < b + n -> mem_of p' !! q = mem_of p !! q).
Proof.
  intros Ha Hps Hq. destruct (big_props _ _ Ha) as (Hc&Hal&_). destruct (freed_pages a cnt p' Hps Hc Hq) as (Hk&Hr&Hh).
  pose proof H as [H1 H2 H3 H4 H5 H6 H7 H8].
  assert (forall x n, live ds SA (delete a BA) x n <-> live ds SA BA x n /\ x <> a + ARENA) as Hlive.
  { intros x n. unfold live. split.
    - intros [(a'&i&Hi&Hx&?)|(a'&c&[Hne Hj]%lookup_delete_Some&->&->)].
      + split; [left; by exists a', i|]. intros ->. destruct Hx as (k&Hkk&Ek). destruct (arena_props _ _ Hi) as (Hi'&_).
        destruct (block_range i a' k Hi' Hkk). destruct (bs_cases i Hi') as (?&_). pose proof (H6 _ _ _ _ Hi Ha). unfold ARENA in *. lia.
      + split; [right; by exists a', c|]. lia.
    - intros [[?|(a'&c&Hj&->&->)] Hne]; [by left|]. right. exists a', c. rewrite lookup_delete_ne; [done|]. congruence. }
  split_and!; [split; try done|done|].
  - apply Hps.
  - intros a' i Hi. destruct (H4 a' i Hi) as (?&?&?). pose proof (H6 _ _ _ _ Hi Ha). split_and!; [done|apply Hk; [lia|done]|apply Hh; [unfold ARENA; lia|done]].
  - intros a' n [Hne Hn]%lookup_delete_Some. destruct (H5 a' n Hn) as (?&?&?). pose proof (H7 _ _ _ _ Ha Hn ltac:(done)).
    split_and!; [done|apply Hr; [done|lia|done]|apply Hh; [unfold ARENA; lia|done]].
  - intros a1 i a2 n Hi [_ Hn]%lookup_delete_Some. by eapply H6.
  - intros a1 n1 a2 n2 [_ Hn1]%lookup_delete_Some [_ Hn2]%lookup_delete_Some. by eapply H7.
  - intros b n q [Hl Hne]%Hlive Hb. apply Hq. intros Hin.
    destruct (live_disj _ _ _ _ Hl (or_intror (ex_intro _ a (ex_intro _ cnt (conj Ha (conj eq_refl eq_refl)))) : live ds SA BA (a + ARENA) (4096 * cnt - ARENA)) Hne) as [?|?];
    destruct (live_byte _ _ _ Hl Hb) as (_&_&_&Hbig); specialize (Hbig a cnt Ha); unfold ARENA in *; lia.
Qed.
End inv.
End MallocSpec.
