(* ===== verification/MallocProps.v ===== *)
(** * Correctness of the block allocator

    The code of [Malloc] against the invariant of [MallocSpec]: the blocks in
    use are disjoint, keep their contents, and are what the calls made them. *)

From S2P Require Import Prelude.
From S2P Require Import Mem.
From S2P Require Import Bitmap.
From S2P Require Import CString.
From S2P Require Import Words.
From S2P Require Import Vaddr.
From S2P Require Import Palloc.
From S2P Require Import Malloc.
From S2P Require Import MallocSpec.
Local Open Scope Z_scope.

Module MallocProps.
Import Mem Words Vaddr Malloc MallocSpec.

Section code.
Context (cur : Z) (DESCS : ptr) (HD : 0 < DESCS /\ DESCS + 480 <= 2 ^ 32).

(** ** Steps of the code *)

(** Descriptor [i] with the given free list and lock. *)
Definition put_desc (ds : list desc) (i : nat) (l : list ptr) (k : option Z) : list desc := <[i := Desc (bs i) (bpa i) l k]> ds.

Lemma put_desc_twice ds i l k l' k' : put_desc (put_desc ds i l k) i l' k' = put_desc ds i l' k'.
Proof. apply list_insert_insert_eq. Qed.

Lemma put_desc_lookup ds i l k : (i < length ds)%nat -> put_desc ds i l k !! i = Some (Desc (bs i) (bpa i) l k).
Proof. intros. by apply list_lookup_insert_eq. Qed.

Lemma heap_put p ds SA BA i : heap DESCS p ds SA BA -> (i < 7)%nat -> ds = put_desc ds i (fl ds i) None.
Proof. intros H Hi. destruct (desc_lookup _ _ _ _ _ H i Hi) as (d&Hd&E). symmetry. apply list_insert_id. by rewrite Hd, E. Qed.

Lemma wp_arena_load Q (s : state) x : Palloc.wf (pages s) -> mapped (mem_of (pages s)) x 4 -> Q (rd (mem_of (pages s)) x) s -> wp (on_mem (load32 x)) Q s.
Proof. intros Hw Hm HQ. apply wp_zoom, wp_zoom. unfold wp. rewrite load32_rd by (done || apply Hw). by destruct s as [[]]. Qed.

Lemma wp_arena_store Q (s : state) x w : mapped (mem_of (pages s)) x 4 ->
  Q tt (St (set_mem (write (mem_of (pages s)) x (le32 w)) (pages s)) (descs s)) -> wp (on_mem (store32 x w)) Q s.
Proof. intros Hm HQ. apply wp_zoom, wp_zoom. unfold wp. by rewrite store32_eq. Qed.

Lemma wp_on_desc {A} (m : M desc A) Q p ds i l k : (i < length ds)%nat ->
  wp m (fun a d => Q a (St p (<[i := d]> ds))) (Desc (bs i) (bpa i) l k) -> wp (on_desc i m) Q (St p (put_desc ds i l k)).
Proof.
  intros Hi Hm. unfold wp, on_desc. cbn [descs pages]. rewrite put_desc_lookup by done. unfold wp in Hm.
  destruct (m _) as [[a d]|]; [|done]. unfold put_desc. by rewrite list_insert_insert_eq.
Qed.

Lemma wp_on_list {A} (m : M (list ptr) A) Q p ds i l k : (i < length ds)%nat ->
  wp m (fun a l' => Q a (St p (put_desc ds i l' k))) l -> wp (on_list i m) Q (St p (put_desc ds i l k)).
Proof. intros Hi Hm. apply wp_on_desc; [done|]. apply wp_zoom. exact Hm. Qed.

Lemma wp_acquire Q p ds i l : (i < length ds)%nat -> Q tt (St p (put_desc ds i l (Some cur))) -> wp (on_lock i (lock_acquire cur)) Q (St p (put_desc ds i l None)).
Proof. intros Hi HQ. apply wp_on_desc; [done|]. apply wp_zoom. by apply wp_lock_acquire. Qed.

Lemma wp_release Q p ds i l : (i < length ds)%nat -> Q tt (St p (put_desc ds i l None)) -> wp (on_lock i (lock_release cur)) Q (St p (put_desc ds i l (Some cur))).
Proof. intros Hi HQ. apply wp_on_desc; [done|]. apply wp_zoom. by apply wp_lock_release. Qed.

Lemma desc_ptr_range i : (i < 7)%nat -> in_u 32 (desc_ptr DESCS i) /\ desc_ptr DESCS i <> NULL.
Proof. intros. unfold desc_ptr, DESC, in_u. lia. Qed.

Lemma desc_of_ptr i : desc_of DESCS (desc_ptr DESCS i) = i.
Proof. unfold desc_of, desc_ptr, DESC. replace (DESCS + 48 * Z.of_nat i - DESCS) with (Z.of_nat i * 48) by lia. rewrite Z.div_mul by lia. apply Nat2Z.id. Qed.

Lemma wp_deref Q p ds i l k : (i < length ds)%nat -> Q (Desc (bs i) (bpa i) l k) (St p (put_desc ds i l k)) ->
  wp (deref DESCS (desc_ptr DESCS i)) Q (St p (put_desc ds i l k)).
Proof.
  intros Hi HQ. unfold deref. rewrite desc_of_ptr, Z.eqb_refl. apply wp_bind, wp_lift. exists tt. split; [done|].
  unfold wp, get_desc. cbn [descs]. by rewrite put_desc_lookup.
Qed.

Lemma block_to_arena_ok Q p ds i l k a n b : Palloc.wf p -> kpage p a -> (i < 7)%nat -> (i < length ds)%nat ->
  hdr (mem_of p) a (desc_ptr DESCS i) n -> is_block a i b ->
  Q a (St p (put_desc ds i l k)) -> wp (block_to_arena DESCS b) Q (St p (put_desc ds i l k)).
Proof.
  intros Hw Hk Hi Hl (E1&E2&_) (j&Hj&->) HQ. destruct (Palloc.kpage_props _ _ Hw Hk) as (Ha&Hlow&Hh&Hm). unfold PHYS_BASE in Hlow.
  destruct (block_range i a j Hi Hj) as [Hb1 Hb2]. destruct (bs_cases i Hi) as (Hbs&_). destruct (desc_ptr_range i Hi) as [_ Hnn].
  unfold block_to_arena. rewrite pg_round_down_eq by (unfold in_u; lia). fold (page (block i a j)). rewrite page_block by done.
  apply wp_bind, wp_assert. split; [by rewrite (proj2 (Z.eqb_neq _ _)) by lia|]. apply wp_bind, wp_arena_load; [done|intros q Hq; apply Hm; lia|].
  cbn [pages]. rewrite E1. apply wp_bind, wp_assert. split; [done|]. apply wp_bind, wp_arena_load; [done|intros q Hq; apply Hm; lia|].
  cbn [pages]. rewrite E2, (proj2 (Z.eqb_neq _ _) Hnn). apply wp_bind, wp_bind, wp_deref; [done|]. apply wp_assert. split.
  - cbn [block_size_]. rewrite pg_ofs_mod, wrapu_small; unfold in_u, block, ARENA in *; [|zlia].
    assert ((a + 12 + j * bs i) mod 4096 - 12 = j * bs i) as -> by zlia. by rewrite Z.mod_mul by lia.
  - apply wp_bind, wp_assert. split; [done|]. by apply wp_ret.
Qed.

Lemma arena_to_block_ok Q p ds i l k a n j : Palloc.wf p -> kpage p a -> (i < 7)%nat -> (i < length ds)%nat ->
  hdr (mem_of p) a (desc_ptr DESCS i) n -> 0 <= j < bpa i ->
  Q (block i a j) (St p (put_desc ds i l k)) -> wp (arena_to_block DESCS a j) Q (St p (put_desc ds i l k)).
Proof.
  intros Hw Hk Hi Hl (E1&E2&_) Hj HQ. destruct (Palloc.kpage_props _ _ Hw Hk) as (Ha&Hlow&Hh&Hm). unfold PHYS_BASE in Hlow.
  unfold arena_to_block. apply wp_bind, wp_assert. split; [by rewrite (proj2 (Z.eqb_neq _ _)) by lia|].
  apply wp_bind, wp_arena_load; [done|intros q Hq; apply Hm; lia|]. cbn [pages]. rewrite E1. apply wp_bind, wp_assert. split; [done|].
  apply wp_bind, wp_arena_load; [done|intros q Hq; apply Hm; lia|]. cbn [pages]. rewrite E2. apply wp_bind, wp_deref; [done|].
  apply wp_bind, wp_assert. split; [apply Z.ltb_lt; cbn; lia|]. by apply wp_ret.
Qed.

(** The arena header as the code writes it. *)
Lemma wp_put_hdr {A} (k : M state A) Q p ds a dp n : mapped (mem_of p) a 12 ->
  wp k Q (St (set_mem (put_hdr (mem_of p) a dp n) p) ds) ->
  wp (do! on_mem (store32 a ARENA_MAGIC) in do! on_mem (store32 (a + 4) dp) in do! on_mem (store32 (a + 8) n) in k) Q (St p ds).
Proof.
  intros Hm Hk. apply wp_bind, wp_arena_store; [intros q Hq; apply Hm; lia|]. apply wp_bind, wp_arena_store; [apply write_mapped; intros q Hq; apply Hm; cbn in Hq; lia|].
  apply wp_bind, wp_arena_store; [do 2 apply write_mapped; intros q Hq; apply Hm; cbn in Hq; lia|]. exact Hk.
Qed.

(** ** [malloc] *)

(** Taking the first block of a free list that is not empty. *)
Lemma malloc_take Q p ds SA BA i b l : heap DESCS p ds SA BA -> fl ds i = b :: l ->
  Q b (St (set_mem (write (mem_of p) (page b + 8) (le32 (count (page b) l))) p) (put_desc ds i l None)) ->
  wp (let! b := on_list i list_pop_front in
      let! a := block_to_arena DESCS b in
      let! n := on_mem (load32 (a + 8)) in
      do! on_mem (store32 (a + 8) (u32 (n - 1))) in
      do! on_lock i (lock_release cur) in
      ret b) Q (St p (put_desc ds i (b :: l) (Some cur))).
Proof.
  intros H E HQ. destruct (pop_list _ _ _ _ _ H i b l E) as (Ha&Hblk&_). destruct (h_small _ _ _ _ _ H _ _ Ha) as (Hi&Hk&Hh).
  assert (i < length ds)%nat as Hl by (rewrite (h_len _ _ _ _ _ H); lia). pose proof (h_wf _ _ _ _ _ H) as Hw.
  destruct (Palloc.kpage_props _ _ Hw Hk) as (_&_&_&Hm). destruct (h_free _ _ _ _ _ H i) as [Hn Hf].
  pose proof (count_range SA (page b) (fl ds i) i Hf Hn Hi) as Hc. destruct (bs_cases i Hi) as (_&Hb&_).
  apply wp_bind, wp_on_list; [done|]. apply wp_bind. eapply block_to_arena_ok; [done..|].
  apply wp_bind, wp_arena_load; [done|intros q Hq; apply Hm; lia|]. cbn [pages]. destruct Hh as (_&_&->).
  rewrite E, count_cons, decide_True in * by done. replace (1 + count (page b) l - 1) with (count (page b) l) by lia.
  assert (0 <= count (page b) l) by (unfold count; lia). rewrite wrapu_small by (unfold in_u; lia).
  apply wp_bind, wp_arena_store; [intros q Hq; apply Hm; cbn in Hq; lia|]. cbn [pages descs]. apply wp_bind, wp_release; [done|]. by apply wp_ret.
Qed.

(** Filling the free list from a new arena. *)
Lemma add_blocks_ok Q p ds i a n : Palloc.wf p -> kpage p a -> (i < 7)%nat -> (i < length ds)%nat -> hdr (mem_of p) a (desc_ptr DESCS i) n ->
  Q tt (St p (put_desc ds i (map (block i a) (seqZ 0 (bpa i))) (Some cur))) ->
  wp (for_ (Z.to_nat (bpa i)) 0 (add_block DESCS a i)) Q (St p (put_desc ds i [] (Some cur))).
Proof.
  intros Hw Hk Hi Hl Hh HQ. destruct (bs_cases i Hi) as (_&Hb&_).
  eapply wp_mono; [apply (wp_for (fun j s => s = St p (put_desc ds i (map (block i a) (seqZ 0 j)) (Some cur)))); [|done]|].
  - intros j s Hj ->. apply wp_bind. eapply arena_to_block_ok; [done..|lia|]. apply wp_on_list; [done|]. apply wp_modify.
    by rewrite seqZ_app, map_app by lia.
  - intros [] s ->. by rewrite Z.add_0_l, Z2Nat.id by lia.
Qed.

Lemma find_desc_spec l k size :
  match find_desc l k size with
  | Some i => exists d, l !! (i - k)%nat = Some d /\ (k <= i)%nat /\ size <= block_size_ d
  | None => Forall (fun d => block_size_ d < size) l
  end.
Proof.
  revert k. induction l as [|d l IH]; intros k; simpl; [done|]. destruct (Z.leb_spec size (block_size_ d)).
  - exists d. by rewrite Nat.sub_diag.
  - specialize (IH (S k)). destruct (find_desc l (S k) size) as [i|]; [|by constructor].
    destruct IH as (d'&Hd&?&?). exists d'. split_and!; [|lia|done]. by replace (i - k)%nat with (S (i - S k)) by lia.
Qed.

(** The contents of the blocks in [L] stay. *)
Definition same_blocks (L : gmap ptr Z) (s s' : state) : Prop :=
  forall b n q, L !! b = Some n -> b <= q < b + n -> mem_of (pages s') !! q = mem_of (pages s) !! q.

(** What [malloc] may return: nothing, or a block of at least [size] bytes
    apart from those in use. *)
Definition allocates (L : gmap ptr Z) (size : Z) (s : state) (r : ptr) (s' : state) : Prop :=
  (r = NULL /\ s' = s) \/
  (exists n, r <> NULL /\ size <= n /\ L !! r = None /\ heap_of DESCS s' (<[r := n]> L) /\ same_blocks L s s').

Lemma heap_of_insert (L : gmap ptr Z) ds SA BA ds' SA' BA' b n :
  (forall x m, L !! x = Some m <-> live ds SA BA x m) ->
  (forall x m, live ds' SA' BA' x m <-> live ds SA BA x m \/ (x = b /\ m = n)) -> (forall m, ~ live ds SA BA b m) ->
  L !! b = None /\ forall x m, <[b := n]> L !! x = Some m <-> live ds' SA' BA' x m.
Proof.
  intros HL Hl Hn. split.
  - destruct (L !! b) as [m|] eqn:E; [|done]. by apply HL, Hn in E.
  - intros x m. rewrite lookup_insert_Some, Hl, <- HL. split; [intros [[-> ->]|[? ?]]; auto|]. intros [E|[-> ->]]; [|by left].
    right. split; [|done]. intros <-. by apply HL, Hn in E.
Qed.

(** Taking a block, as seen from outside; [p], [ds], [SA] may come from a new
    arena all of whose blocks are free. *)
Lemma take_allocates p ds SA BA (L : gmap ptr Z) s size i b l : heap DESCS p ds SA BA -> fl ds i = b :: l -> (forall x n, L !! x = Some n <-> live ds SA BA x n) ->
  (forall a j, SA !! a = Some j -> (a = page b /\ j = i) \/ count a (fl ds j) < bpa j) -> size <= bs i ->
  (forall x n q, live ds SA BA x n -> x <= q < x + n -> mem_of p !! q = mem_of (pages s) !! q) ->
  allocates L size s b (St (set_mem (write (mem_of p) (page b + 8) (le32 (count (page b) l))) p) (put_desc ds i l None)).
Proof.
  intros H E HL Hbusy Hsz Hm. destruct (heap_pop _ _ _ _ _ H i b l E) as (Hh&Hk&Hlive&Hn). destruct (pop_list _ _ _ _ _ H i b l E) as (Ha&(k&Hkk&Eb)&_).
  destruct (heap_of_insert L ds SA BA _ SA BA b (bs i) HL Hlive Hn) as [Hnone HL'].
  destruct (arena_props _ _ _ _ _ H _ _ Ha) as (Hi&Hal&Hlow&_). destruct (block_range i (page b) k Hi Hkk) as [Hr _]. unfold PHYS_BASE in Hlow.
  right. exists (bs i). split_and!; [lia|done|done| |].
  - exists SA, BA. split_and!; [exact Hh| |exact HL']. intros a j Hj. cbn [descs]. change (put_desc ds i l None) with (set_list ds i l).
    rewrite (fl_set_list _ _ _ _ _ H) by done. assert (count (page b) (fl ds i) <= bpa i) as Hc.
    { destruct (h_free _ _ _ _ _ H i) as [Hnd Hf]. by apply (count_range SA). }
    rewrite E, count_cons, decide_True in Hc by done.
    destruct (Hbusy a j Hj) as [[-> ->]|Hlt]; [rewrite decide_True by done; lia|]. case_decide; [subst j|done].
    rewrite E, count_cons in Hlt. case_decide; lia.
  - intros x n q Hx Hq. apply HL in Hx. cbn [pages]. rewrite <- (Hm x n q Hx Hq). by eapply Hk.
Qed.

(** A block of whole pages. *)
Lemma pages_ok s L cnt : heap_of DESCS s L -> 0 < cnt ->
  wp (let! a := on_pages (Palloc.palloc_get_multiple cur 0 cnt) in
      if a =? NULL then ret NULL
      else do! on_mem (store32 a ARENA_MAGIC) in do! on_mem (store32 (a + 4) NULL) in do! on_mem (store32 (a + 8) cnt) in ret (a + ARENA))
    (fun r s' => (r = NULL /\ s' = s /\ forall a, ~ Palloc.run (pages s) false a cnt false) \/
      (r <> NULL /\ L !! r = None /\ heap_of DESCS s' (<[r := 4096 * cnt - 12]> L) /\ same_blocks L s s')) s.
Proof.
  intros (SA&BA&H&Hb&HL) Hc. assert (has 0 Palloc.PAL_ZERO = false) as F1 by reflexivity. assert (has 0 Palloc.PAL_USER = false) as F2 by reflexivity.
  pose proof (h_wf _ _ _ _ _ H) as Hw. apply wp_bind, wp_zoom, Palloc.wp_get_multiple; [done|done|done| |].
  - intros a p1 Hps Hm. rewrite F1 in Hm. rewrite F2 in Hps. destruct (fresh_pages _ _ _ _ _ H a cnt p1 NULL cnt Hps Hc Hm) as (_&Hlow&_&_).
    destruct (heap_new_big _ _ _ _ _ H a cnt p1 Hps Hc Hm) as (_&Hh&Hk&Hlive&Hn). unfold PHYS_BASE in Hlow.
    rewrite (proj2 (Z.eqb_neq a NULL)) by lia. apply wp_put_hdr.
    { assert (Palloc.run p1 false a cnt true) as Hr.
      { destruct Hps as [_ [R1 R2 R3 _] P3 P4]. destruct (P3 false) as [E1 E2]. split; [done|lia|lia|]. intros y Hy. by rewrite P4, Hy. }
      intros q Hq. eapply (Palloc.run_mapped _ _ _ _ _ (Palloc.ps_wf _ _ _ _ _ _ Hps) Hr). lia. }
    apply wp_ret. destruct (heap_of_insert L _ SA BA _ SA _ (a + ARENA) (4096 * cnt - ARENA) HL Hlive Hn) as [Hnone HL'].
    right. unfold ARENA in *. split_and!; [lia|done| |].
    + exists SA, (<[a := cnt]> BA). done.
    + intros x n q Hx%HL Hq. by eapply Hk.
  - rewrite F2. intros Hno. rewrite Z.eqb_refl. apply wp_ret. left. split_and!; [done|by destruct s|done].
Qed.

Lemma malloc_big s L size : heap_of DESCS s L -> 0 < size -> size + 4107 < 2 ^ 32 ->
  let cnt := u32 (size + ARENA + PGSIZE - 1) / PGSIZE in
  wp (let! a := on_pages (Palloc.palloc_get_multiple cur 0 cnt) in
      if a =? NULL then ret NULL
      else do! on_mem (store32 a ARENA_MAGIC) in do! on_mem (store32 (a + 4) NULL) in do! on_mem (store32 (a + 8) cnt) in ret (a + ARENA))
    (allocates L size s) s.
Proof.
  intros Hs H0 Hmax cnt. assert (0 < cnt /\ size <= 4096 * cnt - 12) as [Hc Hsz].
  { unfold cnt, ARENA, PGSIZE. rewrite wrapu_small by (unfold in_u; lia). zlia. }
  eapply wp_mono; [by apply pages_ok|]. intros r s' [(->&->&_)|(?&?&?&?)]; [by left|right]. by exists (4096 * cnt - 12).
Qed.

Lemma malloc_small s L size i : heap_of DESCS s L -> (i < 7)%nat -> size <= bs i ->
  wp (do! on_lock i (lock_acquire cur) in
      let! de := get_desc i in
      let! ok := (if decide (free_list de = []) then
                    let! a := on_pages (Palloc.palloc_get_page cur 0) in
                    if a =? NULL then do! on_lock i (lock_release cur) in ret false
                    else
                      do! on_mem (store32 a ARENA_MAGIC) in
                      do! on_mem (store32 (a + 4) (desc_ptr DESCS i)) in
                      do! on_mem (store32 (a + 8) (blocks_per_arena de)) in
                      do! for_ (Z.to_nat (blocks_per_arena de)) 0 (add_block DESCS a i) in
                      ret true
                  else ret true) in
      if ok then
        let! b := on_list i list_pop_front in
        let! a := block_to_arena DESCS b in
        let! n := on_mem (load32 (a + 8)) in
        do! on_mem (store32 (a + 8) (u32 (n - 1))) in
        do! on_lock i (lock_release cur) in
        ret b
      else ret NULL) (allocates L size s) s.
Proof.
  intros (SA&BA&H&Hb&HL) Hi Hs. pose proof (heap_put _ _ _ _ i H Hi) as Eds. destruct s as [p ds]. cbn [pages descs] in *.
  assert (i < length ds)%nat as Hl by (rewrite (h_len _ _ _ _ _ H); lia). pose proof (h_wf _ _ _ _ _ H) as Hw. rewrite Eds at 2.
  apply wp_bind, wp_acquire; [done|]. apply wp_bind. unfold wp at 1, get_desc. cbn [descs]. rewrite put_desc_lookup by done. cbn [free_list blocks_per_arena].
  apply wp_bind. destruct (fl ds i) as [|b l] eqn:Efl.
  - rewrite decide_True by done. assert (has 0 Palloc.PAL_ZERO = false) as F1 by reflexivity. assert (has 0 Palloc.PAL_USER = false) as F2 by reflexivity.
    apply wp_bind, wp_zoom, Palloc.wp_get_multiple; [done|lia|done| |].
    + intros a p1 Hps Hm. rewrite F1 in Hm. rewrite F2 in Hps. destruct (desc_ptr_range i Hi) as [Hdp _]. cbn [pages] in Hps, Hm.
      destruct (fresh_pages _ _ _ _ _ H a 1 p1 (desc_ptr DESCS i) (bpa i) Hps ltac:(lia) Hm) as (Hal&Hlow&_&_).
      destruct (heap_new_arena _ _ _ _ _ H a i p1 Hi Efl Hps Hm Hdp) as (Hnone&Hh&Hk&Hlive). unfold PHYS_BASE in Hlow.
      destruct (Palloc.fresh_kpage _ _ _ Hps) as (Hk1&_). destruct (Palloc.kpage_props _ _ (Palloc.ps_wf _ _ _ _ _ _ Hps) Hk1) as (_&_&_&Hmap).
      rewrite (proj2 (Z.eqb_neq a NULL)) by lia. apply wp_put_hdr; [intros q Hq; apply Hmap; lia|].
      destruct (h_small _ _ _ _ _ Hh a i (lookup_insert_eq _ _ _)) as (_&Hka&Hhd). apply wp_bind. cbn [descs].
      eapply add_blocks_ok; [exact (h_wf _ _ _ _ _ Hh)|exact Hka|done|done|exact Hhd|]. apply wp_ret.
      assert (exists b l, map (block i a) (seqZ 0 (bpa i)) = b :: l /\ page b = a) as (b&l&Ebl&Epb).
      { destruct (bs_cases i Hi) as (_&Hbp&_). rewrite seqZ_cons by lia. eexists _, _. split; [done|]. apply page_block; (done || lia). }
      assert (fl (set_list ds i (map (block i a) (seqZ 0 (bpa i)))) i = b :: l) as Efl'.
      { rewrite (fl_set_list _ _ _ _ _ H), decide_True by done. done. }
      rewrite Ebl. pose proof (put_desc_twice ds i (map (block i a) (seqZ 0 (bpa i))) None (b :: l) (Some cur)) as Et. rewrite <- Et.
      eapply malloc_take; [exact Hh|exact Efl'|]. eapply take_allocates; [exact Hh|exact Efl'|intros; by rewrite HL, Hlive| |done|].
      * intros a' j [[<- <-]|[Hne Hj]]%lookup_insert_Some; [left; by rewrite Epb|right].
        change (put_desc ds i ?x None) with (set_list ds i x). rewrite (fl_set_list _ _ _ _ _ H) by done.
        case_decide; [subst j|by apply Hb]. rewrite count_blocks, decide_False by done. destruct (bs_cases i Hi) as (_&?&_). lia.
      * intros x n q Hx%Hlive Hq. by eapply Hk.
    + intros _. rewrite Z.eqb_refl. apply wp_bind, wp_release; [done|]. apply wp_ret, wp_ret. left. split; [done|]. by rewrite <- Eds.
  - rewrite decide_False by done. apply wp_ret. eapply malloc_take; [exact H|exact Efl|].
    eapply take_allocates; [exact H|exact Efl|done| |done|done]. intros a j Hj. right. by apply Hb.
Qed.

Lemma malloc_ok s L size : heap_of DESCS s L -> 0 < size -> size + 4107 < 2 ^ 32 -> wp (malloc cur DESCS size) (allocates L size s) s.
Proof.
  intros Hs H0 Hmax. unfold malloc. rewrite (proj2 (Z.eqb_neq _ _)) by lia. apply wp_bind, wp_gets.
  pose proof (find_desc_spec (descs s) 0 size) as Hf. destruct (find_desc (descs s) 0 size) as [i|]; [|by apply malloc_big].
  destruct Hf as (d&Hd&_&Hsz). rewrite Nat.sub_0_r in Hd. pose proof Hs as (SA&BA&H&_). destruct (h_desc _ _ _ _ _ H i d Hd) as (E&_).
  apply malloc_small; [done| |by rewrite <- E]. apply lookup_lt_Some in Hd. rewrite (h_len _ _ _ _ _ H) in Hd. done.
Qed.

(** ** [free] *)

(** Removing the blocks of an arena from the free list. *)
Lemma drop_blocks_ok Q p ds i a n l : Palloc.wf p -> kpage p a -> (i < 7)%nat -> (i < length ds)%nat -> hdr (mem_of p) a (desc_ptr DESCS i) n ->
  (forall b, is_block a i b -> b ∈ l) -> (forall b, b ∈ l -> is_block (page b) i b) ->
  Q tt (St p (put_desc ds i (filter (fun b => page b <> a) l) (Some cur))) ->
  wp (for_ (Z.to_nat (bpa i)) 0 (drop_block DESCS a i)) Q (St p (put_desc ds i l (Some cur))).
Proof.
  intros Hw Hk Hi Hl Hh Hin Hblk HQ. destruct (bs_cases i Hi) as (_&Hb&_). destruct (Palloc.kpage_props _ _ Hw Hk) as (Ha&_).
  eapply wp_mono; [apply (wp_for (fun j s => s = St p (put_desc ds i (filter (fun b => b ∉ map (block i a) (seqZ 0 j)) l) (Some cur))))|].
  - intros j s Hj ->. apply wp_bind. eapply arena_to_block_ok; [done..|lia|]. apply wp_on_list; [done|]. unfold wp, list_remove.
    rewrite decide_True. { rewrite list_filter_filter, seqZ_app, map_app by lia. do 3 f_equal. apply list_filter_iff. intros x. simpl.
      rewrite elem_of_app, list_elem_of_singleton. naive_solver. }
    apply list_elem_of_filter. split; [|apply Hin; exists j; split; [lia|done]].
    intros (k&Ek%block_inj&Hkk%elem_of_seqZ)%list_elem_of_fmap. lia.
  - do 2 f_equal. symmetry. apply filter_all. intros x _. simpl. apply not_elem_of_nil.
  - intros [] s ->. rewrite Z.add_0_l, Z2Nat.id by lia. erewrite filter_ext_in; [exact HQ|].
    intros x Hx. destruct (Hblk x Hx) as (k&Hkk&Ek). split.
    + intros Hnin Ep. apply Hnin. rewrite Ek, Ep. apply list_elem_of_fmap. exists k. split; [done|]. by apply elem_of_seqZ.
    + intros Hne (k'&->&Hk'%elem_of_seqZ)%list_elem_of_fmap. apply Hne. by apply page_block.
Qed.

Lemma memset_block p ds SA BA b n v : heap DESCS p ds SA BA -> live ds SA BA b n ->
  CString.memset b v n (mem_of p) = Ok (b, write (mem_of p) b (replicate (Z.to_nat n) (u8 v))).
Proof. intros H Hl. destruct (live_range _ _ _ _ _ H _ _ Hl) as (?&_&_&Hm). apply CString.memset_eq; [apply H|done|lia]. Qed.

Lemma filled_block p ds SA BA b n v : heap DESCS p ds SA BA -> live ds SA BA b n ->
  let p' := set_mem (write (mem_of p) b (replicate (Z.to_nat n) (u8 v))) p in
  heap DESCS p' ds SA BA /\ forall x k q, live ds SA BA x k -> x <> b -> x <= q < x + k -> mem_of p' !! q = mem_of p !! q.
Proof.
  intros H Hl p'. destruct (live_range _ _ _ _ _ H _ _ Hl) as (?&_&_&Hm). split.
  - eapply heap_write; [done|done|lia|rewrite length_replicate; lia|]. apply Forall_replicate. by apply wrapu_in.
  - intros x k q Hx Hne Hq. cbn. rewrite lookup_write, length_replicate, decide_False; [done|]. pose proof (live_disj _ _ _ _ _ H _ _ _ _ Hx Hl Hne). lia.
Qed.

Lemma heap_of_delete (L : gmap ptr Z) ds SA BA ds' SA' BA' b :
  (forall x m, L !! x = Some m <-> live ds SA BA x m) -> (forall x m, live ds' SA' BA' x m <-> live ds SA BA x m /\ x <> b) ->
  forall x m, delete b L !! x = Some m <-> live ds' SA' BA' x m.
Proof. intros HL Hl x m. rewrite lookup_delete_Some, HL, Hl. naive_solver. Qed.

(** The end of [free]: the arena [a] is given back when all its blocks are free. *)
Lemma free_tail p ds SA BA a i : heap DESCS p ds SA BA -> SA !! a = Some i ->
  (forall a' j, SA !! a' = Some j -> a' = a \/ count a' (fl ds j) < bpa j) ->
  wp (do! (if bpa i <=? count a (fl ds i) then
             do! assert (count a (fl ds i) =? bpa i) in
             do! for_ (Z.to_nat (bpa i)) 0 (drop_block DESCS a i) in
             on_pages (Palloc.palloc_free_page a)
           else ret tt) in
      on_lock i (lock_release cur))
    (fun _ s' => exists SA', heap DESCS (pages s') (descs s') SA' BA /\ busy (descs s') SA' /\
      (forall x n, live (descs s') SA' BA x n <-> live ds SA BA x n) /\
      (forall x n q, live ds SA BA x n -> x <= q < x + n -> mem_of (pages s') !! q = mem_of p !! q))
    (St p (put_desc ds i (fl ds i) (Some cur))).
Proof.
  intros H Ha Hbusy. destruct (h_small _ _ _ _ _ H _ _ Ha) as (Hi&Hk&Hh). assert (i < length ds)%nat as Hl by (rewrite (h_len _ _ _ _ _ H); lia).
  destruct (h_free _ _ _ _ _ H i) as [Hn Hf]. pose proof (count_range SA a (fl ds i) i Hf Hn Hi) as Hc. pose proof (heap_put _ _ _ _ i H Hi) as Eds.
  pose proof (h_wf _ _ _ _ _ H) as Hw. destruct (Palloc.kpage_props _ _ Hw Hk) as (Hal&_). apply wp_bind. destruct (Z.leb_spec (bpa i) (count a (fl ds i))) as [Hge|Hlt].
  - assert (count a (fl ds i) = bpa i) as Ec by lia. apply wp_bind, wp_assert. split; [by apply Z.eqb_eq|]. apply wp_bind.
    eapply drop_blocks_ok; [done..|intros x Hx; by eapply full_arena|intros x Hx; by apply Hf|].
    apply wp_zoom. destruct (Palloc.free_multiple_ok false a 1 p Hw ltac:(lia)) as (p'&E&Hps&Hm).
    { pose proof (Palloc.in_use_props p false a Hw Hk) as (_&Hb1&Hb2). split; [done|done|lia|]. intros y [Hy1 Hy2]%Palloc.in_run_spec. by replace y with a by zlia. }
    unfold wp at 1, Palloc.palloc_free_page. cbn [pages descs]. rewrite E. clear E.
    assert (forall q, ~ (a <= q < a + 4096 * 1) -> mem_of p' !! q = mem_of p !! q) as Hq.
    { intros q Hq. rewrite Hm, Palloc.fill_lookup by lia. by rewrite decide_False. }
    destruct (heap_drop _ _ _ _ _ H a i p' Ha Ec Hps Hq) as (Hh'&Hk'&Hlive). clear Hm Hps Hq. apply wp_release; [exact Hl|]. exists (delete a SA). split_and!; [exact Hh'| |exact Hlive|exact Hk'].
    intros a' j [Hne Hj]%lookup_delete_Some. cbn [descs]. destruct (Hbusy a' j Hj) as [->|Hlt]; [exfalso; apply Hne; reflexivity|].
    change (put_desc ds i ?x None) with (set_list ds i x). rewrite (fl_set_list _ _ _ _ _ H) by done. case_decide; [subst j|done].
    unfold count in *. rewrite list_filter_filter. erewrite filter_ext_in; [exact Hlt|]. naive_solver.
  - apply wp_ret, wp_release; [done|]. cbn [pages descs]. rewrite <- Eds. exists SA. split_and!; [done| |done|done].
    intros a' j Hj. destruct (Hbusy a' j Hj) as [->|]; [|done]. rewrite Ha in Hj. by injection Hj as <-.
Qed.

(** Giving back a small block. *)
Lemma free_small s L SA BA a i b : heap DESCS (pages s) (descs s) SA BA -> busy (descs s) SA ->
  (forall x n, L !! x = Some n <-> live (descs s) SA BA x n) ->
  SA !! a = Some i -> is_block a i b -> b ∉ fl (descs s) i ->
  wp (free cur DESCS b) (fun _ s' => heap_of DESCS s' (delete b L) /\ same_blocks (delete b L) s s') s.
Proof.
  intros H Hbusy HL Ha Hblk Hb. destruct s as [p ds]. cbn [pages descs] in *. destruct (h_small _ _ _ _ _ H _ _ Ha) as (Hi&Hk&Hh).
  assert (live ds SA BA b (bs i)) as Hlive by (left; by exists a, i). destruct (live_range _ _ _ _ _ H _ _ Hlive) as (Hbs&Hlow&_). unfold PHYS_BASE in Hlow.
  assert (i < length ds)%nat as Hl by (rewrite (h_len _ _ _ _ _ H); lia). pose proof (h_wf _ _ _ _ _ H) as Hw.
  destruct (Palloc.kpage_props _ _ Hw Hk) as (Hal&_&_&Hm). destruct (desc_ptr_range i Hi) as [_ Hnn].
  pose proof (heap_put _ _ _ _ i H Hi) as Eds. assert (forall Q, wp (free cur DESCS b) Q (St p (put_desc ds i (fl ds i) None)) -> wp (free cur DESCS b) Q (St p ds)) as Hre by (intros Q; by rewrite <- Eds).
  apply Hre. unfold free. rewrite (proj2 (Z.eqb_neq b NULL)) by lia. apply wp_bind. eapply block_to_arena_ok; [done..|].
  apply wp_bind, wp_arena_load; [done|intros q Hq; apply Hm; cbn in Hq; lia|]. cbn [pages]. destruct Hh as (E1&E2&E3).
  rewrite E2, (proj2 (Z.eqb_neq _ _) Hnn). cbn [negb]. apply wp_bind, wp_deref; [done|]. cbn [block_size_ blocks_per_arena].
  rewrite desc_of_ptr. apply wp_bind, wp_zoom, wp_zoom. unfold wp at 1. cbn [pages]. rewrite (memset_block _ _ _ _ _ _ _ H Hlive).
  destruct (filled_block _ _ _ _ _ _ 0xcc H Hlive) as [H1 Hm1]. change (Palloc.St ?m (Palloc.kernel_pool p) (Palloc.user_pool p)) with (set_mem m p).
  set (p1 := set_mem _ p) in *. cbn [descs]. apply wp_bind, wp_acquire; [done|]. apply wp_bind, wp_on_list; [done|]. apply wp_modify.
  assert (mapped (mem_of p1) (a + 8) 4) as Hm8 by (apply write_mapped; intros q Hq; apply Hm; lia).
  apply wp_bind, wp_arena_load; [apply H1|exact Hm8|]. cbn [pages]. destruct (h_small _ _ _ _ _ H1 _ _ Ha) as (_&_&(_&_&E4)). rewrite E4.
  destruct (h_free _ _ _ _ _ H i) as [Hn Hf]. pose proof (count_range SA a (fl ds i) i Hf Hn Hi) as Hc. destruct (bs_cases i Hi) as (_&Hbp&_).
  destruct (heap_push _ _ _ _ _ H1 a i b Ha Hblk Hb) as (H2&Hk2&Hl2).
  assert (count a (b :: fl ds i) = count a (fl ds i) + 1) as Ecnt.
  { rewrite count_cons, decide_True; [lia|]. destruct Hblk as (k&Hkk&->). by apply page_block. }
  rewrite (wrapu_small 32 (count a (fl ds i) + 1)) by (unfold in_u; lia). rewrite <- Ecnt. apply wp_bind, wp_arena_store; [exact Hm8|]. cbn [pages descs].
  set (p2 := set_mem _ p1) in *. set (ds2 := set_list ds i (b :: fl ds i)) in *.
  assert (fl ds2 i = b :: fl ds i) as Efl by (unfold ds2; rewrite (fl_set_list _ _ _ _ _ H1), decide_True by done; done).
  assert (put_desc ds i (b :: fl ds i) (Some cur) = put_desc ds2 i (fl ds2 i) (Some cur)) as -> by (rewrite Efl; symmetry; apply put_desc_twice).
  rewrite <- Efl. eapply wp_mono; [apply (free_tail p2 ds2 SA BA a i H2 Ha)|].
  - intros a' j Hj. destruct (decide (a' = a)) as [|Hne]; [by left|right]. unfold ds2. rewrite (fl_set_list _ _ _ _ _ H1) by done.
    case_decide; [subst j|by apply Hbusy]. rewrite count_cons, decide_False; [by apply Hbusy|]. destruct Hblk as (k&Hkk&->). rewrite page_block by done. congruence.
  - intros [] s' (SA'&H3&Hb3&Hl3&Hm3). assert (forall x m, live (descs s') SA' BA x m <-> live ds SA BA x m /\ x <> b) as Hl' by (intros; by rewrite Hl3, Hl2).
    pose proof (heap_of_delete L _ _ _ _ _ _ b HL Hl') as HL'. split; [exists SA', BA; done|].
    intros x n q Hx Hq. apply HL', Hl' in Hx as [Hx Hne]. cbn [pages]. rewrite (Hm3 x n q) by (done || by apply Hl2). rewrite (Hk2 x n q Hx Hq). by eapply Hm1.
Qed.

(** Giving back a big block. *)
Lemma free_big s L SA BA a c : heap DESCS (pages s) (descs s) SA BA -> busy (descs s) SA ->
  (forall x n, L !! x = Some n <-> live (descs s) SA BA x n) -> BA !! a = Some c ->
  wp (free cur DESCS (a + ARENA)) (fun _ s' => heap_of DESCS s' (delete (a + ARENA) L) /\ same_blocks (delete (a + ARENA) L) s s') s.
Proof.
  intros H Hbusy HL Ha. destruct (h_big _ _ _ _ _ H _ _ Ha) as (Hc&Hr&(E1&E2&E3)). pose proof (h_wf _ _ _ _ _ H) as Hw.
  destruct (big_props _ _ _ _ _ H _ _ Ha) as (_&Hal&Hlow&Hh&Hm). unfold PHYS_BASE in Hlow. unfold free, ARENA in *.
  rewrite (proj2 (Z.eqb_neq _ _)) by lia. apply wp_bind. unfold block_to_arena. rewrite pg_round_down_eq by (unfold in_u; lia).
  replace (4096 * ((a + 12) / 4096)) with a by zlia. apply wp_bind, wp_assert. split; [by rewrite (proj2 (Z.eqb_neq _ _)) by lia|].
  apply wp_bind, wp_arena_load; [done|intros q Hq; apply Hm; lia|]. rewrite E1. apply wp_bind, wp_assert. split; [done|].
  apply wp_bind, wp_arena_load; [done|intros q Hq; apply Hm; lia|]. rewrite E2. apply wp_bind, wp_ret, wp_bind, wp_assert.
  split; [rewrite pg_ofs_mod; apply orb_true_iff; right; apply Z.eqb_eq; unfold ARENA; zlia|]. apply wp_ret.
  apply wp_bind, wp_arena_load; [done|intros q Hq; apply Hm; lia|]. rewrite E2. cbn [Z.eqb negb]. apply wp_bind, wp_arena_load; [done|intros q Hq; apply Hm; lia|]. rewrite E3.
  apply wp_zoom. destruct (Palloc.free_multiple_ok false a c (pages s) Hw Hc Hr) as (p'&E&Hps&Hm'). unfold wp. rewrite E. clear E.
  destruct (heap_drop_big _ _ _ _ _ H a c p' Ha Hps) as (H'&Hlive&Hk').
  { intros q Hq. rewrite Hm', Palloc.fill_lookup by lia. by rewrite decide_False. }
  pose proof (heap_of_delete L _ _ _ _ _ _ _ HL Hlive) as HL'. split; [exists SA, (delete a BA); done|].
  intros x n q Hx Hq. apply HL' in Hx. by eapply Hk'.
Qed.

Lemma free_ok s L b n : heap_of DESCS s L -> L !! b = Some n ->
  wp (free cur DESCS b) (fun _ s' => heap_of DESCS s' (delete b L) /\ same_blocks (delete b L) s s') s.
Proof.
  intros (SA&BA&H&Hb&HL) Hbn. pose proof Hbn as [(a&i&Ha&Hblk&Hnf&_)|(a&c&Ha&->&_)]%HL; [by eapply free_small|by eapply free_big].
Qed.

Lemma block_size_ok s L b n : heap_of DESCS s L -> L !! b = Some n -> block_size DESCS b s = Ok (n, s).
Proof.
  intros (SA&BA&H&_&HL) Hb. assert (wp (block_size DESCS b) (fun m s' => m = n /\ s' = s) s) as (?&?&->&->&->)%wp_ok; [|done].
  pose proof (h_wf _ _ _ _ _ H) as Hw. apply HL in Hb as [(a&i&Ha&Hblk&_&->)|(a&c&Ha&->&->)].
  - destruct s as [p ds]. cbn [pages descs] in *. destruct (h_small _ _ _ _ _ H _ _ Ha) as (Hi&Hk&Hh).
    assert (i < length ds)%nat as Hl by (rewrite (h_len _ _ _ _ _ H); lia). destruct (Palloc.kpage_props _ _ Hw Hk) as (_&_&_&Hm).
    destruct (desc_ptr_range i Hi) as [_ Hnn]. rewrite (heap_put _ _ _ _ i H Hi). unfold block_size. apply wp_bind. eapply block_to_arena_ok; [done..|].
    apply wp_bind, wp_arena_load; [done|intros q Hq; apply Hm; cbn in Hq; lia|]. cbn [pages]. destruct Hh as (_&->&_). rewrite (proj2 (Z.eqb_neq _ _) Hnn).
    cbn [negb]. apply wp_bind, wp_deref; [done|]. by apply wp_ret.
  - destruct (big_props _ _ _ _ _ H _ _ Ha) as (Hc&Hal&Hlow&Hh&Hm). destruct (h_big _ _ _ _ _ H _ _ Ha) as (_&_&(E1&E2&E3)). unfold PHYS_BASE in Hlow.
    unfold block_size, block_to_arena. unfold ARENA in *. rewrite pg_round_down_eq, pg_ofs_mod by (unfold in_u; lia).
    replace (4096 * ((a + 12) / 4096)) with a by zlia. replace ((a + 12) mod 4096) with 12 by zlia.
    apply wp_bind, wp_bind, wp_assert. split; [by rewrite (proj2 (Z.eqb_neq _ _)) by lia|]. apply wp_bind, wp_arena_load; [done|intros q Hq; apply Hm; lia|]. rewrite E1.
    apply wp_bind, wp_assert. split; [done|]. apply wp_bind, wp_arena_load; [done|intros q Hq; apply Hm; lia|]. rewrite E2. apply wp_bind, wp_ret, wp_bind, wp_assert.
    split; [done|]. apply wp_ret, wp_bind, wp_arena_load; [done|intros q Hq; apply Hm; lia|]. rewrite E2. cbn [Z.eqb negb]. apply wp_bind, wp_arena_load; [done|intros q Hq; apply Hm; lia|].
    rewrite E3. apply wp_ret. unfold PGSIZE. rewrite wrapu_small by (unfold in_u; lia). done.
Qed.

(** Writing inside a block in use. *)
Lemma write_ok s L b n x l : heap_of DESCS s L -> L !! b = Some n -> b <= x -> x + zlen l <= b + n -> Forall (in_u 8) l ->
  heap_of DESCS (St (set_mem (write (mem_of (pages s)) x l) (pages s)) (descs s)) L.
Proof.
  intros (SA&BA&H&Hb&HL) Hn H1 H2 Hl. exists SA, BA. split_and!; [|done|done]. eapply heap_write; [done|by apply HL|done|done|done].
Qed.

Lemma blocks_disjoint s L b n b' n' : heap_of DESCS s L -> L !! b = Some n -> L !! b' = Some n' -> b <> b' -> b + n <= b' \/ b' + n' <= b.
Proof. intros (SA&BA&H&_&HL) ?%HL ?%HL. by eapply live_disj. Qed.

Lemma block_bounds s L b n : heap_of DESCS s L -> L !! b = Some n -> 16 <= n /\ PHYS_BASE < b /\ b + n <= 2 ^ 32 /\ mapped (mem_of (pages s)) b n.
Proof. intros (SA&BA&H&_&HL) ?%HL. by eapply live_range. Qed.
End code.
End MallocProps.
