(* ===== verification/MallocRefine.v ===== *)
(** * The allocator implements a heap of blocks

    The abstract heap maps the address of each block in use to its contents.
    Every call of the allocator, and every write inside a block, does to the
    abstract heap what the caller expects. *)

From S2P Require Import Prelude.
From S2P Require Import Mem.
From S2P Require Import Bitmap.
From S2P Require Import CString.
From S2P Require Import Words.
From S2P Require Import Vaddr.
From S2P Require Import Palloc.
From S2P Require Import Malloc.
From S2P Require Import MallocSpec.
From S2P Require Import MallocProps.
Local Open Scope Z_scope.

Module MallocRefine.
Import Mem Words Vaddr Malloc MallocSpec MallocProps.

(** ** The abstract heap *)

Abbreviation aheap := (gmap ptr (list Z)).

Inductive op :=
  | Malloc (size : Z)
  | Calloc (a b : Z)
  | Realloc (p : ptr) (size : Z)
  | Free (p : ptr)
  | Write (p ofs : Z) (bs : list Z).

Definition request (size : Z) : Prop := 0 <= size /\ size + 4107 < 2 ^ 32.

(** What a caller may ask for. *)
Definition allowed (H : aheap) (o : op) : Prop :=
  match o with
  | Malloc size => request size
  | Calloc a b => 0 <= a < 2 ^ 32 /\ 0 <= b < 2 ^ 32 /\ request (a * b)
  | Realloc p size => request size /\ (p = NULL \/ is_Some (H !! p))
  | Free p => p = NULL \/ is_Some (H !! p)
  | Write p ofs bs => exists c, H !! p = Some c /\ 0 <= ofs /\ ofs + zlen bs <= zlen c /\ Forall (in_u 8) bs
  end.

(** A new block with the contents [c]. *)
Definition fresh (H : aheap) (size : Z) (r : ptr) (c : list Z) : Prop := r <> NULL /\ H !! r = None /\ size <= zlen c.

Inductive spec (H : aheap) : op -> ptr -> aheap -> Prop :=
  | s_none o : (forall p, o <> Free p) -> (forall p, o <> Realloc p 0) -> (forall p k l, o <> Write p k l) -> spec H o NULL H
  | s_malloc size r c : 0 < size -> fresh H size r c -> spec H (Malloc size) r (<[r := c]> H)
  | s_calloc a b r c : 0 < a * b -> fresh H (a * b) r c ->
      take (Z.to_nat (a * b)) c = replicate (Z.to_nat (a * b)) 0 -> spec H (Calloc a b) r (<[r := c]> H)
  | s_realloc p old size r c : 0 < size -> H !! p = Some old -> fresh H size r c ->
      take (Z.to_nat (Z.min size (zlen old))) c = take (Z.to_nat (Z.min size (zlen old))) old ->
      spec H (Realloc p size) r (delete p (<[r := c]> H))
  | s_realloc_null size r c : 0 < size -> fresh H size r c -> spec H (Realloc NULL size) r (<[r := c]> H)
  | s_realloc_free p : spec H (Realloc p 0) NULL (delete p H)
  | s_free p : spec H (Free p) NULL (delete p H)
  | s_write p c ofs bs : H !! p = Some c ->
      spec H (Write p ofs bs) NULL (<[p := take (Z.to_nat ofs) c ++ bs ++ drop (Z.to_nat ofs + length bs) c]> H).

Definition sizes (H : aheap) : gmap ptr Z := (fun c => zlen c) <$> H.

Lemma sizes_lookup H b n : sizes H !! b = Some n <-> exists c, H !! b = Some c /\ n = zlen c.
Proof. unfold sizes. rewrite lookup_fmap_Some. naive_solver. Qed.

Section refine.
Context (cur : Z) (DESCS : ptr).

Definition run_op (o : op) : M state ptr :=
  match o with
  | Malloc size => malloc cur DESCS size
  | Calloc a b => calloc cur DESCS a b
  | Realloc p size => realloc cur DESCS p size
  | Free p => do! free cur DESCS p in ret NULL
  | Write p ofs bs =>
      do! modify (fun s => St (set_mem (write (mem_of (pages s)) (p + ofs) bs) (pages s)) (descs s)) in ret NULL
  end.

(** State [s] has the blocks of [H], with their contents. *)
Definition represents (s : state) (H : aheap) : Prop :=
  heap_of DESCS s (sizes H) /\ forall b c, H !! b = Some c -> bytes_at (mem_of (pages s)) b c.

Context (HD : 0 < DESCS /\ DESCS + 480 <= 2 ^ 32).

Lemma same_contents (H : aheap) L s s' : (forall b c, H !! b = Some c -> L !! b = Some (zlen c)) -> same_blocks L s s' ->
  (forall b c, H !! b = Some c -> bytes_at (mem_of (pages s)) b c) -> forall b c, H !! b = Some c -> bytes_at (mem_of (pages s')) b c.
Proof. intros HL Hs Hb b c Hc. eapply bytes_at_ext; [|by apply Hb]. intros q Hq. eapply Hs; [by apply HL|lia]. Qed.

(** A successful [malloc] on the abstract heap. *)
Lemma allocates_fresh s H size r s' : represents s H -> allocates DESCS (sizes H) size s r s' ->
  (r = NULL /\ s' = s) \/ exists c, fresh H size r c /\ represents s' (<[r := c]> H).
Proof.
  intros [Hh Hb] [[-> ->]|(n&Hr&Hn&Hnone&Hh'&Hs)]; [by left|right].
  destruct (block_bounds _ _ _ r n Hh' (lookup_insert_eq _ _ _)) as (Hn16&Hlow&Hhi&Hm). pose proof Hh' as (SA&BA&Hheap&_).
  destruct (mapped_bytes _ r n (Palloc.w_bytes _ (h_wf _ _ _ _ _ Hheap)) ltac:(lia) Hm) as (c&Hlen&Hc). exists c. split; [split_and!; [done| |lia]|split].
  - unfold sizes in Hnone. by apply fmap_None in Hnone || (rewrite lookup_fmap in Hnone; by apply fmap_None in Hnone).
  - unfold sizes. rewrite fmap_insert, Hlen. done.
  - intros b c' [[<- <-]|[Hne Hb']]%lookup_insert_Some; [done|]. eapply same_contents; [|exact Hs|exact Hb|done].
    intros x k Hx. apply sizes_lookup. eauto.
Qed.

Lemma represents_write s H b c x l : represents s H -> H !! b = Some c -> 0 <= x -> x + zlen l <= zlen c -> Forall (in_u 8) l ->
  represents (St (set_mem (write (mem_of (pages s)) (b + x) l) (pages s)) (descs s))
    (<[b := take (Z.to_nat x) c ++ l ++ drop (Z.to_nat x + length l) c]> H).
Proof.
  intros [Hh Hb] Hc H1 H2 Hl. assert (sizes H !! b = Some (zlen c)) as Hbn by (apply sizes_lookup; eauto). split.
  - replace (sizes _) with (sizes H); [by eapply write_ok; [done|done|lia|lia|]|]. unfold sizes. rewrite fmap_insert. symmetry. apply insert_id.
    rewrite lookup_fmap, Hc. simpl. f_equal. rewrite !length_app, length_take, length_drop. lia.
  - cbn [pages]. intros b' c' [[<- <-]|[Hne Hb']]%lookup_insert_Some.
    + specialize (Hb b c Hc). rewrite <- (take_drop (Z.to_nat x) c) in Hb. apply bytes_at_app in Hb as [Hb1 Hb2]. rewrite length_take in Hb2.
      rewrite <- (take_drop (length l) (drop (Z.to_nat x) c)) in Hb2. apply bytes_at_app in Hb2 as [_ Hb3]. rewrite length_take, length_drop, drop_drop in Hb3.
      apply bytes_at_app. split; [apply write_frame; [rewrite length_take; lia|done]|]. apply bytes_at_app. rewrite length_take. split.
      * replace (b + Z.of_nat (Z.to_nat x `min` length c)) with (b + x) by lia. by apply write_bytes_at.
      * apply write_frame; [lia|]. eapply (eq_ind _ (fun k => bytes_at _ k _)); [exact Hb3|]. lia.
    + apply write_frame; [|by apply Hb]. pose proof (blocks_disjoint _ _ _ b (zlen c) b' (zlen c') Hh Hbn ltac:(apply sizes_lookup; eauto) ltac:(done)). lia.
Qed.

Lemma represents_delete s H b s' : represents s H -> heap_of DESCS s' (delete b (sizes H)) -> same_blocks (delete b (sizes H)) s s' -> represents s' (delete b H).
Proof.
  intros [Hh Hb] Hh' Hs. split; [unfold sizes; by rewrite fmap_delete|]. intros x c [Hne Hx]%lookup_delete_Some.
  eapply (same_contents (delete b H)); [|exact Hs| |by apply lookup_delete_Some].
  - intros y k [? ?]%lookup_delete_Some. apply lookup_delete_Some. split; [done|]. apply sizes_lookup. eauto.
  - intros y k [? ?]%lookup_delete_Some. by apply Hb.
Qed.

Lemma free_refine s H p : represents s H -> p = NULL \/ is_Some (H !! p) -> wp (free cur DESCS p) (fun _ s' => represents s' (delete p H)) s.
Proof.
  intros Hr [->|[c Hc]].
  - apply wp_ret. rewrite delete_id; [done|]. destruct (H !! NULL) as [c|] eqn:E; [|done]. destruct Hr as [Hh _].
    destruct (block_bounds _ _ _ NULL (zlen c) Hh ltac:(apply sizes_lookup; eauto)) as (_&Hlow&_). done.
  - eapply wp_mono; [eapply free_ok; [done|apply Hr|apply sizes_lookup; eauto]|]. intros [] s' [Hh Hs]. by eapply represents_delete.
Qed.

Lemma malloc_refine s H size : represents s H -> request size ->
  wp (malloc cur DESCS size) (fun r s' => (r = NULL /\ s' = s) \/ exists c, 0 < size /\ fresh H size r c /\ represents s' (<[r := c]> H)) s.
Proof.
  intros Hr [H0 Hmax]. destruct (Z.eq_dec size 0) as [->|Hne]; [by left|].
  eapply wp_mono; [apply malloc_ok; [done|apply Hr|lia|done]|]. intros r s' Ha.
  destruct (allocates_fresh _ _ _ _ _ Hr Ha) as [|(c&?&?)]; [by left|right]. exists c. split_and!; [lia|done|done].
Qed.

Lemma calloc_refine s H a b : represents s H -> 0 <= a < 2 ^ 32 -> 0 <= b < 2 ^ 32 -> request (a * b) ->
  wp (calloc cur DESCS a b) (fun r s' => exists H', spec H (Calloc a b) r H' /\ represents s' H') s.
Proof.
  intros Hr Ha Hb Hreq. pose proof Hreq as [H0 Hmax]. unfold calloc. rewrite wrapu_small by (unfold in_u; lia).
  destruct ((a * b <? a) || (a * b <? b)); [apply wp_ret; exists H; split; [by constructor|done]|].
  apply wp_bind. eapply wp_mono; [by apply malloc_refine|]. intros r s' [[-> ->]|(c&Hs&Hf&Hr')]; apply wp_bind.
  { apply wp_ret, wp_ret. exists H. split; [by constructor|done]. }
  pose proof Hf as (Hnn&Hnone&Hlen). rewrite (proj2 (Z.eqb_neq _ _) Hnn). apply wp_bind, wp_zoom, wp_zoom. unfold wp at 1.
  pose proof Hr' as [Hh _]. destruct (block_bounds _ _ _ r (zlen c) Hh ltac:(apply sizes_lookup; exists c; by rewrite lookup_insert_eq)) as (_&_&_&Hm).
  pose proof Hh as (SA&BA&Hheap&_). rewrite CString.memset_eq; [|apply Hheap|intros q Hq; apply Hm; lia|lia]. apply wp_ret, wp_ret.
  pose proof (represents_write _ _ r c 0 (replicate (Z.to_nat (a * b)) 0) Hr' (lookup_insert_eq _ _ _) ltac:(lia)) as Hw.
  rewrite length_replicate, Z.add_0_r in Hw. specialize (Hw ltac:(lia) ltac:(by apply Forall_replicate)). rewrite insert_insert_eq in Hw.
  eexists. split; [|exact Hw]. apply s_calloc; [done|split_and!; [done|done|rewrite !length_app, length_replicate, length_drop; cbn; lia]|].
  change (take (Z.to_nat 0) c) with (@nil Z). cbn [app]. apply take_app_length'. by rewrite length_replicate.
Qed.

Lemma realloc_refine s H p size : represents s H -> request size -> p = NULL \/ is_Some (H !! p) ->
  wp (realloc cur DESCS p size) (fun r s' => exists H', spec H (Realloc p size) r H' /\ represents s' H') s.
Proof.
  intros Hr Hreq Hp. unfold realloc. destruct (Z.eqb_spec size 0) as [->|Hne].
  { apply wp_bind. eapply wp_mono; [by apply free_refine|]. intros [] s' Hr'. apply wp_ret. exists (delete p H). split; [constructor|done]. }
  apply wp_bind. eapply wp_mono; [by apply malloc_refine|]. intros r s' [[-> ->]|(c&Hs&Hf&Hr')]; apply wp_bind.
  { rewrite Z.eqb_refl, andb_false_r. apply wp_ret, wp_ret. exists H. split; [constructor; congruence|done]. }
  pose proof Hf as (Hnn&Hnone&Hlen). rewrite (proj2 (Z.eqb_neq r NULL) Hnn), andb_true_r. destruct Hp as [->|[old Hold]].
  { apply wp_ret, wp_ret. eexists. split; [by apply s_realloc_null|done]. }
  assert (p <> r) as Hpr by congruence. assert (<[r := c]> H !! p = Some old) as Hold' by (by rewrite lookup_insert_ne).
  pose proof Hr' as [Hh Hbytes]. assert (sizes (<[r := c]> H) !! p = Some (zlen old)) as Ep by (apply sizes_lookup; eauto).
  assert (sizes (<[r := c]> H) !! r = Some (zlen c)) as Er by (apply sizes_lookup; exists c; by rewrite lookup_insert_eq).
  destruct (block_bounds _ _ _ _ _ Hh Ep) as (_&Hlow&_&_). destruct (block_bounds _ _ _ _ _ Hh Er) as (_&_&_&Hmr). unfold PHYS_BASE in Hlow.
  rewrite (proj2 (Z.eqb_neq p NULL)) by lia. cbn [negb]. apply wp_bind. unfold wp at 1. rewrite (block_size_ok _ HD _ _ _ _ Hh Ep).
  assert ((if size <? zlen old then size else zlen old) = Z.min size (zlen old)) as -> by (destruct (Z.ltb_spec size (zlen old)); lia).
  destruct Hreq as [Hs0 _]. set (k := Z.min size (zlen old)). assert (0 <= k <= zlen old /\ k <= zlen c) as [Hk Hkc] by lia.
  pose proof (Hbytes p old Hold') as Hob. rewrite <- (take_drop (Z.to_nat k) old) in Hob. apply bytes_at_app in Hob as [Hob _].
  assert (zlen (take (Z.to_nat k) old) = k) as Elen by (rewrite length_take; lia).
  pose proof (blocks_disjoint _ _ _ _ _ _ _ Hh Ep Er Hpr) as Hdis. pose proof Hh as (SA&BA&Hheap&_).
  pose proof (CString.memcpy_eq _ r p _ (Palloc.w_mem _ (h_wf _ _ _ _ _ Hheap)) Hob ltac:(intros q Hq; apply Hmr; lia) ltac:(lia)) as Ecpy.
  rewrite Elen in Ecpy. apply wp_bind, wp_zoom, wp_zoom. unfold wp at 1. rewrite Ecpy. clear Ecpy.
  pose proof (represents_write _ _ r c 0 (take (Z.to_nat k) old) Hr' (lookup_insert_eq _ _ _) ltac:(lia) ltac:(lia) (bytes_at_in_u _ _ _ Hob)) as Hw.
  rewrite Z.add_0_r, insert_insert_eq in Hw. eapply wp_mono; [eapply free_refine; [exact Hw|right; rewrite lookup_insert_ne by congruence; eauto]|].
  intros [] s2 Hr2. apply wp_ret. eexists. split; [|exact Hr2]. apply (s_realloc _ p old); [done|done|split_and!; [done|done|]|].
  - rewrite !length_app, length_drop. cbn. lia.
  - fold k. change (take (Z.to_nat 0) c) with (@nil Z). cbn [app]. apply take_app_length'. lia.
Qed.
End refine.

(** The descriptors [malloc_init] makes. *)
Definition empty_descs : list desc :=
  [Desc 16 255 [] None; Desc 32 127 [] None; Desc 64 63 [] None; Desc 128 31 [] None; Desc 256 15 [] None; Desc 512 7 [] None; Desc 1024 3 [] None].

Lemma empty_fl i : fl empty_descs i = [].
Proof. do 7 (destruct i as [|i]; [done|]). done. Qed.

Lemma empty_desc i d : empty_descs !! i = Some d -> block_size_ d = bs i /\ blocks_per_arena d = bpa i /\ dlock d = None.
Proof. intros Hi. do 7 (destruct i as [|i]; [injection Hi as <-; by vm_compute|]). done. Qed.

Lemma init_represents DESCS p : Palloc.wf p -> represents DESCS (St p empty_descs) ∅.
Proof.
  intros Hw. split; [|intros b c; by rewrite lookup_empty]. exists ∅, ∅. split_and!.
  - split; cbn [pages descs]; try (intros *; rewrite lookup_empty; done); [done|done|apply empty_desc|].
    intros i. rewrite empty_fl. split; [constructor|]. intros b Hb. by apply elem_of_nil in Hb.
  - intros a i. by rewrite lookup_empty.
  - intros b n. unfold sizes. rewrite fmap_empty, lookup_empty. split; [done|]. intros [(a&i&Ha&_)|(a&c&Ha&_)]; by rewrite lookup_empty in Ha.
Qed.

(** ** Properties *)

(** C7. The allocator simulates the abstract heap: every call that is allowed
    returns, with the result and the new blocks and contents the abstract heap
    allows, and blocks that are not the call's business keep their contents. *)
Theorem malloc_simulates cur DESCS s H o : 0 < DESCS /\ DESCS + 480 <= 2 ^ 32 -> represents DESCS s H -> allowed H o ->
  exists r s' H', run_op cur DESCS o s = Ok (r, s') /\ spec H o r H' /\ represents DESCS s' H'.
Proof.
  intros HD Hr Ha. assert (wp (run_op cur DESCS o) (fun r s' => exists H', spec H o r H' /\ represents DESCS s' H') s) as (r&s'&E&H'&?&?)%wp_ok; [|by exists r, s', H'].
  destruct o as [size|a b|p size|p|p ofs bs]; cbn [allowed run_op] in *.
  - eapply wp_mono; [by apply malloc_refine|]. intros r s' [[-> ->]|(c&?&?&?)]; [exists H; split; [by constructor|done]|].
    eexists. split; [by apply s_malloc|done].
  - destruct Ha as (?&?&?). by apply calloc_refine.
  - destruct Ha as (?&?). by apply realloc_refine.
  - apply wp_bind. eapply wp_mono; [by apply free_refine|]. intros [] s' ?. apply wp_ret. eexists. split; [constructor|done].
  - destruct Ha as (c&Hc&?&?&?). apply wp_bind, wp_modify, wp_ret. eexists. split; [by constructor|]. by apply represents_write.
Qed.

(** After [malloc_init] the heap is empty, and in every state the allocator
    reaches the blocks in use lie in mapped kernel memory and do not overlap. *)
Theorem malloc_blocks_disjoint DESCS p : Palloc.wf p ->
  (exists s, malloc_init p = Ok s /\ represents DESCS s ∅) /\
  (forall s H b c b' c', represents DESCS s H -> H !! b = Some c -> H !! b' = Some c' ->
    PHYS_BASE < b /\ b + zlen c <= 2 ^ 32 /\ (b <> b' -> b + zlen c <= b' \/ b' + zlen c' <= b)).
Proof.
  intros Hw. split.
  - exists (St p empty_descs). split; [reflexivity|]. by apply init_represents.
  - intros s H b c b' c' [Hh _] Hb Hb'. assert (forall x k, H !! x = Some k -> sizes H !! x = Some (zlen k)) as E by (intros x k Hx; apply (proj2 (sizes_lookup H x (zlen k))); by exists k).
    destruct (block_bounds _ _ _ _ _ Hh (E _ _ Hb)) as (_&?&?&_). split_and!; [done|done|]. intros Hne. by eapply blocks_disjoint; [|apply E..|].
Qed.

(** ** Requests that wrap around *)

(** [malloc] of the largest size there is returns a block of 4084 bytes: the
    computation of the number of pages overflows. *)
Lemma malloc_wraps cur DESCS s L : 0 < DESCS /\ DESCS + 480 <= 2 ^ 32 -> heap_of DESCS s L -> (exists a, Palloc.run (pages s) false a 1 false) ->
  exists r s', malloc cur DESCS UINT_MAX s = Ok (r, s') /\ r <> NULL /\ heap_of DESCS s' (<[r := 4084]> L).
Proof.
  intros HD Hh [a Ha]. assert (wp (malloc cur DESCS UINT_MAX) (fun r s' => r <> NULL /\ heap_of DESCS s' (<[r := 4084]> L)) s) as (r&s'&?&?&?)%wp_ok; [|by exists r, s'].
  unfold malloc. cbn [Z.eqb]. apply wp_bind, wp_gets. pose proof (find_desc_spec (descs s) 0 UINT_MAX) as Hf. destruct (find_desc (descs s) 0 UINT_MAX) as [i|].
  - destruct Hf as (d&Hd&_&Hsz). rewrite Nat.sub_0_r in Hd. destruct Hh as (SA&BA&H&_). destruct (h_desc _ _ _ _ _ H i d Hd) as (E&_).
    apply lookup_lt_Some in Hd. rewrite (h_len _ _ _ _ _ H) in Hd. destruct (bs_cases i Hd) as (?&_). lia.
  - change (u32 (UINT_MAX + ARENA + PGSIZE - 1) / PGSIZE) with 1. eapply wp_mono; [by apply pages_ok|].
    intros r s' [(_&_&Hno)|(?&_&?&_)]; [by destruct (Hno a)|done].
Qed.

(** The overflow check of [calloc] misses products whose low 32 bits happen
    to be large: 65537 objects of 65537 bytes are given 131073 bytes. *)
Lemma calloc_undersized cur DESCS : calloc cur DESCS 65537 65537 =
  (let! p := malloc cur DESCS 131073 in
   do! (if negb (p =? NULL) then do! on_mem (CString.memset p 0 131073) in ret tt else ret tt) in ret p).
Proof. reflexivity. Qed.

(** ** Witnesses *)

Lemma malloc_simulates_witness :
  exists r s' H', run_op 1 0xc0020000 (Calloc 5 20) (St Palloc.demo empty_descs) = Ok (r, s') /\ spec ∅ (Calloc 5 20) r H' /\ represents 0xc0020000 s' H'.
Proof.
  apply (malloc_simulates 1 0xc0020000 (St Palloc.demo empty_descs) ∅ (Calloc 5 20)); [lia|exact (init_represents _ _ Palloc.demo_wf)|].
  cbn. unfold request. lia.
Defined.

Lemma malloc_blocks_disjoint_witness : exists s, malloc_init Palloc.demo = Ok s /\ represents 0xc0020000 s ∅.
Proof. exact (proj1 (malloc_blocks_disjoint 0xc0020000 Palloc.demo Palloc.demo_wf)). Defined.
End MallocRefine.
