(* ===== verification/Device.v ===== *)
(** * What the file system asks of its device and of the allocator

    The file system reads and writes sectors of a block device
    (devices/block.h) and takes memory from [malloc] (threads/malloc.h).
    [Device] is the first interface: two operations, and the sectors they
    read and write.  [Allocator] is the second: an address that no live object
    has, or the null pointer.  The block layer is an instance of [Device]
    (Block.v); MallocRefine.v proves of threads/malloc.c what [Allocator]
    says. *)

From S2P Require Import Prelude.
From S2P Require Import Mem.
Local Open Scope Z_scope.

Module Device.
Import Mem.

Abbreviation BLOCK_SECTOR_SIZE := 512%Z.

(** The contents of a sector. *)
Definition sector_ok (bs : list Z) : Prop := length bs = 512%nat /\ Forall (in_u 8) bs.

#[export] Instance sector_ok_dec bs : Decision (sector_ok bs).
Proof. unfold sector_ok, in_u. apply _. Defined.

Class Device (dev : Type) := {
  block_size : dev -> Z;
  block_read : Z -> M dev (list Z);
  block_write : Z -> list Z -> M dev unit;
  (** The sectors, and the states in which the operations work. *)
  content : dev -> gmap Z (list Z);
  dev_ok : dev -> Prop;
  block_size_range d : dev_ok d -> 0 <= block_size d < 2 ^ 32;
  content_dom d n : dev_ok d -> is_Some (content d !! n) <-> 0 <= n < block_size d;
  content_ok d n bs : dev_ok d -> content d !! n = Some bs -> sector_ok bs;
  block_read_ok d n bs : dev_ok d -> content d !! n = Some bs ->
    wp (block_read n) (fun r d' => r = bs /\ dev_ok d' /\ content d' = content d /\ block_size d' = block_size d) d;
  block_write_ok d n bs : dev_ok d -> is_Some (content d !! n) -> sector_ok bs ->
    wp (block_write n bs) (fun _ d' => dev_ok d' /\ content d' = <[n := bs]> (content d) /\ block_size d' = block_size d) d;
  block_read_end d n : dev_ok d -> block_size d <= n -> block_read n d = Err EPanic;
  block_write_end d n bs : dev_ok d -> block_size d <= n -> block_write n bs d = Err EPanic }.

(** [alloc n size live]: what the [n]th call of [malloc], for [size] bytes,
    returns when the addresses [live] are in use. *)
Class Allocator := {
  alloc : nat -> Z -> gset ptr -> ptr;
  alloc_fresh n size live : alloc n size live = NULL \/ alloc n size live ∉ live }.

(** Memory that does not run out. *)
Class Roomy `{Allocator} := roomy n size live : alloc n size live <> NULL.

(** An allocator for examples: the address after the largest one in use. *)
Definition next_free (live : gset ptr) : ptr := set_fold Z.max 0 live + 1.

Lemma next_free_max (live : gset ptr) : (forall x, x ∈ live -> x < next_free live) /\ 0 < next_free live.
Proof.
  unfold next_free. apply (set_fold_ind_L (fun r X => (forall x, x ∈ X -> x < r + 1) /\ 0 < r + 1)); [set_solver by lia|].
  intros x X r _ [H1 H2]. split; [|lia]. intros y [->%elem_of_singleton|?%H1]%elem_of_union; lia.
Qed.

#[export] Program Instance bump : Allocator := {| alloc _ _ live := next_free live |}.
Next Obligation. intros n size live. right. intros H%next_free_max. lia. Qed.

#[export] Instance bump_roomy : @Roomy bump.
Proof. intros n size live. pose proof (proj2 (next_free_max live)). simpl. lia. Qed.
End Device.
