(* ===== verification/Block.v ===== *)
(** * The block layer: devices/block.c, and partitions: devices/partition.c

    Block devices are registered in the order they are probed, and the file
    system finds its device by role.  A device is a disk or a partition of
    another device; [block_read] and [block_write] dispatch on the driver, a
    partition's driver calling the block layer again for the device it lies
    on.  A disk, that is the IDE driver with its hardware, is the array of its
    sectors. *)

From S2P Require Import Prelude.
From S2P Require Import Mem.
From S2P Require Import CString.
From S2P Require Import Device.
Local Open Scope Z_scope.

Module Block.
Import Mem.

(** ** The code *)

(** enum block_type *)
Abbreviation BLOCK_KERNEL := 0%Z.
Abbreviation BLOCK_FILESYS := 1%Z.
Abbreviation BLOCK_SCRATCH := 2%Z.
Abbreviation BLOCK_SWAP := 3%Z.
Abbreviation BLOCK_ROLE_CNT := 4%Z.
Abbreviation BLOCK_RAW := 4%Z.
Abbreviation BLOCK_FOREIGN := 5%Z.

(** [ops] and [aux]: the driver and its data. *)
Inductive driver :=
  | Disk (sectors : gmap Z (list Z))
  | Partition (block : ptr) (start : Z).

Record block := Blk {
  name : list Z; type : Z; size : Z; ops : driver; read_cnt : Z; write_cnt : Z }.

Record state := St {
  blocks : gmap ptr block;
  all_blocks : list ptr;
  block_by_role : list ptr }.

Definition set_blocks m s := St m (all_blocks s) (block_by_role s).

Definition deref (b : ptr) : M state block :=
  fun s => match blocks s !! b with Some blk => Ok (blk, s) | None => Err EFault end.
Definition upd (b : ptr) (f : block -> block) : M state unit :=
  let! blk := deref b in modify (fun s => set_blocks (<[b := f blk]> (blocks s)) s).

Definition block_size (b : ptr) : M state Z := let! blk := deref b in ret (size blk).
Definition block_name (b : ptr) : M state (list Z) := let! blk := deref b in ret (name blk).
Definition block_type (b : ptr) : M state Z := let! blk := deref b in ret (type blk).

Definition block_get_role (role : Z) : M state ptr :=
  do! assert (role <? BLOCK_ROLE_CNT) in
  fun s => match block_by_role s !! Z.to_nat role with Some b => Ok (b, s) | None => Err EFault end.

Definition block_set_role (role : Z) (b : ptr) : M state unit :=
  do! assert (role <? BLOCK_ROLE_CNT) in
  modify (fun s => St (blocks s) (all_blocks s) (<[Z.to_nat role := b]> (block_by_role s))).

(** [list_elem_to_block]: the list end stands for no block. *)
Definition list_elem_to_block (e : list ptr) : ptr := hd_or NULL e.

(** The part of a list that begins at an element. *)
Fixpoint from (b : ptr) (l : list ptr) : list ptr :=
  match l with [] => [] | x :: l' => if x =? b then l else from b l' end.

Definition block_first : M state ptr := gets (fun s => list_elem_to_block (all_blocks s)).
Definition block_next (b : ptr) : M state ptr :=
  gets (fun s => list_elem_to_block (tail (from b (all_blocks s)))).

(** The loop of [block_get_by_name]. *)
Fixpoint by_name (nm : list Z) (l : list ptr) : M state ptr :=
  match l with
  | [] => ret NULL
  | b :: l' =>
      let! blk := deref b in
      if CString.lex nm (name blk) =? 0 then ret b else by_name nm l'
  end.
Definition block_get_by_name (nm : list Z) : M state ptr :=
  let! l := gets all_blocks in by_name nm l.

Definition check_sector (b : ptr) (sector : Z) : M state unit :=
  let! blk := deref b in if size blk <=? sector then fail EPanic else ret tt.

(** partition.c: the driver of a partition calls the block layer. *)
Definition partition_read (read : ptr -> Z -> M state (list Z)) (block : ptr) (start sector : Z) : M state (list Z) :=
  read block (u32 (start + sector)).
Definition partition_write (write : ptr -> Z -> list Z -> M state unit) (block : ptr) (start sector : Z)
    (buffer : list Z) : M state unit :=
  write block (u32 (start + sector)) buffer.

Fixpoint read (fuel : nat) (b : ptr) (sector : Z) : M state (list Z) :=
  match fuel with
  | O => fail EFuel
  | S fuel' =>
      do! check_sector b sector in
      let! blk := deref b in
      let! buffer :=
        match ops blk with
        | Disk m => lift_res (match m !! sector with Some bs => Ok bs | None => Err EFault end)
        | Partition block start => partition_read (read fuel') block start sector
        end in
      do! upd b (fun blk => Blk (name blk) (type blk) (size blk) (ops blk) (u64 (read_cnt blk + 1)) (write_cnt blk)) in
      ret buffer
  end.

Fixpoint write (fuel : nat) (b : ptr) (sector : Z) (buffer : list Z) : M state unit :=
  match fuel with
  | O => fail EFuel
  | S fuel' =>
      do! check_sector b sector in
      let! blk := deref b in
      do! assert (negb (type blk =? BLOCK_FOREIGN)) in
      do! match ops blk with
          | Disk m => upd b (fun blk => Blk (name blk) (type blk) (size blk) (Disk (<[sector := buffer]> m)) (read_cnt blk) (write_cnt blk))
          | Partition block start => partition_write (write fuel') block start sector buffer
          end in
      upd b (fun blk => Blk (name blk) (type blk) (size blk) (ops blk) (read_cnt blk) (u64 (write_cnt blk + 1)))
  end.

(** A partition lies on a device that was registered before it, so the drivers
    call each other at most once per device. *)
Definition depth (s : state) : nat := length (all_blocks s).
Definition block_read (b : ptr) (sector : Z) : M state (list Z) := fun s => read (depth s) b sector s.
Definition block_write (b : ptr) (sector : Z) (buffer : list Z) : M state unit :=
  fun s => write (depth s) b sector buffer s.

(** [p] is what [malloc] returns.  [strlcpy] keeps 15 characters of the name. *)
Definition block_register (p : ptr) (nm : list Z) (ty sz : Z) (ops : driver) : M state ptr :=
  if p =? NULL then fail EPanic else
  do! modify (fun s => St (<[p := Blk (take 15 nm) ty sz ops 0 0]> (blocks s)) (all_blocks s ++ [p]) (block_by_role s)) in
  ret p.

(** ** The table of devices

    What the counters and the names do not matter for. *)
Abbreviation entry := (Z * Z * driver)%type.
Definition view (s : state) : gmap ptr entry := (fun b => (type b, size b, ops b)) <$> blocks s.

Record wf (s : state) : Prop := Wf {
  wf_nodup : NoDup (all_blocks s);
  wf_dom b : b ∈ all_blocks s <-> is_Some (view s !! b);
  wf_size b ty sz o : view s !! b = Some (ty, sz, o) -> 0 <= sz < 2 ^ 32;
  wf_disk b ty sz m : view s !! b = Some (ty, sz, Disk m) ->
    (forall n, is_Some (m !! n) <-> 0 <= n < sz) /\ map_Forall (fun _ => Device.sector_ok) m;
  wf_part b ty sz q st : view s !! b = Some (ty, sz, Partition q st) ->
    exists i j qty qsz qo, all_blocks s !! i = Some q /\ all_blocks s !! j = Some b /\ (i < j)%nat /\
      view s !! q = Some (qty, qsz, qo) /\ 0 <= st /\ st + sz <= qsz }.

(** Device [b] begins at sector [base] of disk [d]; when [w] is set, all the
    devices on the way can be written. *)
Inductive lies (v : gmap ptr entry) (w : bool) : ptr -> ptr -> Z -> Prop :=
  | lies_disk b ty sz m :
      v !! b = Some (ty, sz, Disk m) -> (w = true -> ty <> BLOCK_FOREIGN) -> lies v w b b 0
  | lies_part b ty sz q st d base :
      v !! b = Some (ty, sz, Partition q st) -> (w = true -> ty <> BLOCK_FOREIGN) ->
      lies v w q d base -> lies v w b d (st + base).

(** The sectors of a device. *)
Definition window (m : gmap Z (list Z)) (st sz : Z) : gmap Z (list Z) :=
  kmap (fun k => k - st) (filter (fun p => st <= p.1 < st + sz) m).

Fixpoint sectors (fuel : nat) (v : gmap ptr entry) (b : ptr) : gmap Z (list Z) :=
  match fuel, v !! b with
  | S fuel', Some (_, _, Disk m) => m
  | S fuel', Some (_, sz, Partition q st) => window (sectors fuel' v q) st sz
  | _, _ => ∅
  end.
Definition contents (b : ptr) (s : state) : gmap Z (list Z) := sectors (depth s) (view s) b.

(** Everything but the counters is the same. *)
Definition same (s s' : state) : Prop :=
  view s' = view s /\ all_blocks s' = all_blocks s /\ block_by_role s' = block_by_role s.

Lemma same_trans s1 s2 s3 : same s1 s2 -> same s2 s3 -> same s1 s3.
Proof. unfold same. intros (->&->&->) (->&->&->). done. Qed.

Lemma view_lookup s b ty sz o : view s !! b = Some (ty, sz, o) ->
  exists nm rc wc, blocks s !! b = Some (Blk nm ty sz o rc wc).
Proof. unfold view. rewrite lookup_fmap. destruct (blocks s !! b) as [[]|]; [|done]. intros [= <- <- <-]. eauto. Qed.

Lemma wp_block_at s b ty sz o Q : view s !! b = Some (ty, sz, o) ->
  (forall nm rc wc, blocks s !! b = Some (Blk nm ty sz o rc wc) -> Q (Blk nm ty sz o rc wc) s) -> wp (deref b) Q s.
Proof. intros (nm&rc&wc&E)%view_lookup HQ. unfold wp, deref. rewrite E. eauto. Qed.

Lemma wp_upd s b ty sz o f Q : view s !! b = Some (ty, sz, o) ->
  (forall nm rc wc s', let b' := f (Blk nm ty sz o rc wc) in
     view s' = <[b := (type b', size b', ops b')]> (view s) -> all_blocks s' = all_blocks s ->
     block_by_role s' = block_by_role s -> Q tt s') ->
  wp (upd b f) Q s.
Proof.
  intros Hv HQ. unfold upd. apply wp_bind. eapply wp_block_at; [done|]. intros nm rc wc E. wp_go.
  apply (HQ nm rc wc); [|done..]. unfold view, set_blocks. cbn. by rewrite fmap_insert.
Qed.

Lemma wp_check s b ty sz o n Q : view s !! b = Some (ty, sz, o) -> n < sz -> Q tt s -> wp (check_sector b n) Q s.
Proof.
  intros Hv Hn HQ. unfold check_sector. apply wp_bind. eapply wp_block_at; [done|]. intros nm rc wc E. cbn.
  by rewrite (proj2 (Z.leb_gt _ _)).
Qed.

Lemma wf_same s s' : same s s' -> wf s -> wf s'.
Proof. intros (Ev&Ea&_) []. split; rewrite ?Ev, ?Ea in *; eauto. Qed.

Lemma window_lookup m st sz n : window m st sz !! n = if decide (0 <= n < sz) then m !! (st + n) else None.
Proof.
  assert (Inj (=) (=) (fun k : Z => k - st)) by (intros x y; simpl; lia).
  unfold window. replace n with ((fun k => k - st) (st + n)) at 1 by (simpl; lia).
  rewrite (lookup_kmap (fun k => k - st)), map_lookup_filter. destruct (m !! (st + n)) as [bs|]; cbn.
  - destruct (decide (0 <= n < sz)); [rewrite option_guard_True by (simpl; lia)|rewrite option_guard_False by (simpl; lia)]; done.
  - by case_decide.
Qed.

Lemma window_insert m st sz n bs : 0 <= n < sz -> window (<[st + n := bs]> m) st sz = <[n := bs]> (window m st sz).
Proof.
  intros Hn. apply map_eq. intros k. destruct (decide (k = n)) as [->|Hk].
  - by rewrite lookup_insert_eq, window_lookup, decide_True, lookup_insert_eq.
  - rewrite lookup_insert_ne, !window_lookup, lookup_insert_ne by lia. done.
Qed.

(** ** Where a device lies *)

Lemma lies_exists s b ty sz o : wf s -> view s !! b = Some (ty, sz, o) -> exists d base, lies (view s) false b d base.
Proof.
  intros Hwf Hv. assert (exists i, all_blocks s !! i = Some b) as [i Hi].
  { apply list_elem_of_lookup. apply wf_dom; [done|]. rewrite Hv. eauto. }
  revert b ty sz o Hv Hi. induction i as [i IH] using lt_wf_ind. intros b ty sz [m|q st] Hv Hi.
  { exists b, 0. by eapply lies_disk. }
  destruct (wf_part _ Hwf _ _ _ _ _ Hv) as (k&j&qty&qsz&qo&Hk&Hj&?&Hq&?&?).
  assert (j = i) as -> by (by eapply NoDup_lookup; [apply Hwf|..]).
  destruct (IH k ltac:(lia) q _ _ _ Hq Hk) as (d&base&?). exists d, (st + base). by eapply lies_part.
Qed.

(** A device lies within its disk. *)
Lemma lies_disk_ok s w b d base : wf s -> lies (view s) w b d base ->
  exists dty dsz m, view s !! d = Some (dty, dsz, Disk m) /\
    forall ty sz o, view s !! b = Some (ty, sz, o) -> 0 <= base /\ base + sz <= dsz.
Proof.
  intros Hwf. induction 1 as [b ty sz m Hv|b ty sz q st d base Hv _ _ IH].
  - exists ty, sz, m. split; [done|]. intros ??? E. rewrite Hv in E. simplify_eq. lia.
  - destruct IH as (dty&dsz&m&Hd&Hb). exists dty, dsz, m. split; [done|]. intros ??? E. rewrite Hv in E. simplify_eq.
    destruct (wf_part _ Hwf _ _ _ _ _ Hv) as (k&j&qty&qsz&qo&_&_&_&Hq&?&?). destruct (Hb _ _ _ Hq). lia.
Qed.

Lemma sectors_lies s fuel i w b d base ty sz o dty dsz m :
  wf s -> lies (view s) w b d base -> all_blocks s !! i = Some b -> (i < fuel)%nat ->
  view s !! b = Some (ty, sz, o) -> view s !! d = Some (dty, dsz, Disk m) ->
  sectors fuel (view s) b = window m base sz.
Proof.
  intros Hwf Hl. revert fuel i ty sz o. induction Hl as [b ty' sz' m' Hv _|b ty' sz' q st d base Hv _ _ IH]; intros fuel i ty sz o Hi Hf Hb Hd.
  - destruct fuel; [lia|]. rewrite Hv in Hb, Hd. simplify_eq. cbn [sectors]. rewrite Hv.
    apply map_eq. intros n. rewrite window_lookup. case_decide; [done|]. apply eq_None_not_Some.
    intros ?%(wf_disk _ Hwf _ _ _ _ Hv). done.
  - destruct fuel; [lia|]. rewrite Hv in Hb. simplify_eq. cbn [sectors]. rewrite Hv.
    destruct (wf_part _ Hwf _ _ _ _ _ Hv) as (k&j&qty&qsz&qo&Hk&Hj&?&Hq&?&?).
    assert (j = i) as -> by (by eapply NoDup_lookup; [apply Hwf|..]).
    rewrite (IH fuel k _ _ _ Hk ltac:(lia) Hq Hd). apply map_eq. intros n. rewrite !window_lookup.
    case_decide; [|done]. rewrite decide_True by lia. f_equal. lia.
Qed.

Lemma index_depth s i b : all_blocks s !! i = Some b -> (i < depth s)%nat.
Proof. apply lookup_lt_Some. Qed.

Lemma wf_index s b e : wf s -> view s !! b = Some e -> exists i, all_blocks s !! i = Some b.
Proof. intros Hwf Hv. apply list_elem_of_lookup. apply wf_dom; [done|]. rewrite Hv. eauto. Qed.

Lemma contents_lies s w b d base ty sz o dty dsz m :
  wf s -> lies (view s) w b d base -> view s !! b = Some (ty, sz, o) -> view s !! d = Some (dty, dsz, Disk m) ->
  contents b s = window m base sz.
Proof.
  intros Hwf Hl Hb Hd. destruct (wf_index _ _ _ Hwf Hb) as [i Hi]. eapply sectors_lies; [done..| |done|done].
  by apply index_depth in Hi.
Qed.

Lemma contents_dom s b ty sz o n : wf s -> view s !! b = Some (ty, sz, o) -> is_Some (contents b s !! n) <-> 0 <= n < sz.
Proof.
  intros Hwf Hb. destruct (lies_exists _ _ _ _ _ Hwf Hb) as (d&base&Hl).
  destruct (lies_disk_ok _ _ _ _ _ Hwf Hl) as (dty&dsz&m&Hd&Hr). destruct (Hr _ _ _ Hb).
  rewrite (contents_lies _ _ _ _ _ _ _ _ _ _ _ Hwf Hl Hb Hd), window_lookup. case_decide.
  - rewrite (proj1 (wf_disk _ Hwf _ _ _ _ Hd)). lia.
  - split; [by intros []|lia].
Qed.

Lemma contents_ok s b ty sz o n bs : wf s -> view s !! b = Some (ty, sz, o) -> contents b s !! n = Some bs -> Device.sector_ok bs.
Proof.
  intros Hwf Hb. destruct (lies_exists _ _ _ _ _ Hwf Hb) as (d&base&Hl).
  destruct (lies_disk_ok _ _ _ _ _ Hwf Hl) as (dty&dsz&m&Hd&Hr). destruct (Hr _ _ _ Hb).
  rewrite (contents_lies _ _ _ _ _ _ _ _ _ _ _ Hwf Hl Hb Hd), window_lookup. case_decide; [|done].
  apply (proj2 (wf_disk _ Hwf _ _ _ _ Hd)).
Qed.

(** ** Reading *)

Lemma read_ok fuel s i w b d base ty sz o dty dsz m n bs :
  wf s -> lies (view s) w b d base -> all_blocks s !! i = Some b -> (i < fuel)%nat ->
  view s !! b = Some (ty, sz, o) -> view s !! d = Some (dty, dsz, Disk m) -> 0 <= n < sz -> m !! (base + n) = Some bs ->
  wp (read fuel b n) (fun r s' => r = bs /\ same s s') s.
Proof.
  intros Hwf Hl. revert fuel i ty sz o n. induction Hl as [b ty' sz' m' Hv _|b ty' sz' q st d base Hv _ _ IH];
    intros [|fuel] i ty sz o n Hi Hf Hb Hd Hn Hm; try lia; cbn [read].
  all: rewrite Hv in Hb; simplify_eq; apply wp_bind; eapply wp_check; [done|lia|]; apply wp_bind; eapply wp_block_at; [done|]; intros nm rc wc _; cbn [ops].
  all: apply wp_bind.
  - rewrite Z.add_0_l in Hm. rewrite Hm. apply wp_lift. exists bs. split; [done|].
    apply wp_bind. eapply wp_upd; [done|]. intros ??? s' b' Hs' ??. apply wp_ret. split; [done|]. split; [|done].
    rewrite Hs'. cbn. by rewrite insert_id.
  - destruct (wf_part _ Hwf _ _ _ _ _ Hv) as (k&j&qty&qsz&qo&Hk&Hj&?&Hq&?&?). pose proof (wf_size _ Hwf _ _ _ _ Hq).
    assert (j = i) as -> by (by eapply NoDup_lookup; [apply Hwf|..]).
    unfold partition_read. rewrite wrapu_small by (unfold in_u; lia).
    eapply wp_mono; [eapply (IH fuel k _ _ _ (st + n) Hk); [lia|done|done|lia|by rewrite (Z.add_comm st n), (Z.add_comm n), Z.add_assoc, (Z.add_comm base)]|].
    cbn. intros r s1 (->&Hs1). apply wp_bind. eapply wp_upd; [rewrite (proj1 Hs1); done|].
    intros ??? s' b' Hs' ??. apply wp_ret. split; [done|]. eapply same_trans; [done|]. split; [|done].
    rewrite Hs'. cbn. rewrite insert_id; [done|]. by rewrite (proj1 Hs1).
Qed.

(** ** Writing *)

Lemma write_through fuel s i b d base ty sz o dty dsz m n bs :
  wf s -> lies (view s) true b d base -> all_blocks s !! i = Some b -> (i < fuel)%nat ->
  view s !! b = Some (ty, sz, o) -> view s !! d = Some (dty, dsz, Disk m) -> 0 <= n < sz ->
  wp (write fuel b n bs) (fun _ s' => view s' = <[d := (dty, dsz, Disk (<[base + n := bs]> m))]> (view s) /\
    all_blocks s' = all_blocks s /\ block_by_role s' = block_by_role s) s.
Proof.
  intros Hwf Hl. revert fuel i ty sz o n. induction Hl as [b ty' sz' m' Hv Ht|b ty' sz' q st d base Hv Ht Hl IH];
    intros [|fuel] i ty sz o n Hi Hf Hb Hd Hn; try lia; cbn [write].
  all: rewrite Hv in Hb; simplify_eq; apply wp_bind; eapply wp_check; [done|lia|]; apply wp_bind; eapply wp_block_at; [done|]; intros nm rc wc _; cbn [ops type].
  all: apply wp_bind, wp_assert; split;
    [by rewrite (proj2 (Z.eqb_neq _ _) (Ht eq_refl))|apply wp_bind].
  - eapply wp_upd; [done|]. intros ??? s1 b1 Hs1 Ha1 Hr1.
    eapply wp_upd; [rewrite Hs1; apply lookup_insert_eq|]. intros ??? s' b' Hs' Ha' Hr'. subst b' b1; cbn in Hs1, Hs'.
    rewrite Hs', Hs1, Ha', Ha1, Hr', Hr1, insert_insert_eq, Z.add_0_l. done.
  - destruct (wf_part _ Hwf _ _ _ _ _ Hv) as (k&j&qty&qsz&qo&Hk&Hj&?&Hq&?&?). pose proof (wf_size _ Hwf _ _ _ _ Hq).
    assert (j = i) as -> by (by eapply NoDup_lookup; [apply Hwf|..]).
    unfold partition_write. rewrite wrapu_small by (unfold in_u; lia).
    eapply wp_mono; [eapply (IH fuel k _ _ _ (st + n) Hk); [lia|done|done|lia]|].
    cbn. intros _ s1 (Hv1&Ha1&Hr1).
    assert (b <> d) by (intros ->; by rewrite Hv in Hd).
    assert (view s1 !! b = Some (ty, sz, Partition q st)) as Hb1 by (by rewrite Hv1, lookup_insert_ne).
    eapply wp_upd; [done|]. intros ??? s' b' Hs' Ha' Hr'. subst b'. cbn in Hs'.
    rewrite Hs', insert_id, Hv1, Ha', Ha1, Hr', Hr1 by done. by rewrite (Z.add_comm st n), (Z.add_comm n), Z.add_assoc, (Z.add_comm base).
Qed.

(** Storing a sector on a disk keeps the table well formed, and every device
    where it was. *)
Lemma wf_store s s' d dty dsz m n bs :
  wf s -> view s !! d = Some (dty, dsz, Disk m) -> 0 <= n < dsz -> Device.sector_ok bs ->
  view s' = <[d := (dty, dsz, Disk (<[n := bs]> m))]> (view s) -> all_blocks s' = all_blocks s -> wf s'.
Proof.
  intros Hwf Hd Hn Hbs Hv Ha. destruct (wf_disk _ Hwf _ _ _ _ Hd) as [Hm1 Hm2].
  split; rewrite ?Hv, ?Ha; [apply Hwf|..].
  - intros b. rewrite (wf_dom _ Hwf). destruct (decide (b = d)) as [->|]; [|by rewrite lookup_insert_ne].
    rewrite lookup_insert_eq, Hd. split; eauto.
  - intros b ty sz o [[-> [= <- <- <-]]|[? ?]]%lookup_insert_Some; by eapply wf_size.
  - intros b ty sz m' [[-> [= <- <- <-]]|[? ?]]%lookup_insert_Some; [|by eapply wf_disk]. split.
    + intros k. destruct (decide (k = n)) as [->|]; [rewrite lookup_insert_eq; split; eauto|by rewrite lookup_insert_ne].
    + by apply map_Forall_insert_2.
  - intros b ty sz q st [[_ [=]]|[? (k&j&qty&qsz&qo&?&?&?&Hq&?&?)%(wf_part _ Hwf)]]%lookup_insert_Some.
    exists k, j. destruct (decide (q = d)) as [->|].
    + rewrite lookup_insert_eq. rewrite Hd in Hq. simplify_eq. naive_solver.
    + rewrite lookup_insert_ne by done. naive_solver.
Qed.

Lemma lies_store v w b d base dty dsz m m' d' :
  v !! d' = Some (dty, dsz, Disk m) -> lies v w b d base -> lies (<[d' := (dty, dsz, Disk m')]> v) w b d base.
Proof.
  intros Hd. induction 1 as [b ty sz m1 Hv Ht|b ty sz q st d base Hv Ht _ IH].
  - destruct (decide (b = d')) as [->|]; [rewrite Hd in Hv; simplify_eq; eapply lies_disk; [apply lookup_insert_eq|done]|].
    eapply lies_disk; [by rewrite lookup_insert_ne|done].
  - eapply lies_part; [|done..]. rewrite lookup_insert_ne; [done|]. intros ->. by rewrite Hd in Hv.
Qed.

Lemma block_read_eq b s ty sz o n bs :
  wf s -> view s !! b = Some (ty, sz, o) -> contents b s !! n = Some bs ->
  wp (block_read b n) (fun r s' => r = bs /\ same s s') s.
Proof.
  intros Hwf Hb Hn. destruct (lies_exists _ _ _ _ _ Hwf Hb) as (d&base&Hl), (wf_index _ _ _ Hwf Hb) as [i Hi].
  destruct (lies_disk_ok _ _ _ _ _ Hwf Hl) as (dty&dsz&m&Hd&_).
  assert (0 <= n < sz) by (eapply contents_dom; [done..|]; rewrite Hn; eauto).
  rewrite (contents_lies _ _ _ _ _ _ _ _ _ _ _ Hwf Hl Hb Hd), window_lookup, decide_True in Hn by done.
  unfold wp, block_read. fold (wp (read (depth s) b n) (fun r s' => r = bs /\ same s s') s).
  eapply read_ok; try done. by eapply index_depth.
Qed.

Lemma block_write_eq b s d base ty sz o dty dsz m n bs :
  wf s -> lies (view s) true b d base -> view s !! b = Some (ty, sz, o) -> view s !! d = Some (dty, dsz, Disk m) ->
  0 <= n < sz -> Device.sector_ok bs ->
  wp (block_write b n bs) (fun _ s' => wf s' /\ block_by_role s' = block_by_role s /\ all_blocks s' = all_blocks s /\
    view s' = <[d := (dty, dsz, Disk (<[base + n := bs]> m))]> (view s)) s.
Proof.
  intros Hwf Hl Hb Hd Hn Hbs. destruct (wf_index _ _ _ Hwf Hb) as [i Hi].
  destruct (lies_disk_ok _ _ _ _ _ Hwf Hl) as (?&?&?&E&Hr). rewrite Hd in E. injection E as <- <- <-. destruct (Hr _ _ _ Hb).
  change (wp (write (depth s) b n bs) (fun _ s' => wf s' /\ block_by_role s' = block_by_role s /\
    all_blocks s' = all_blocks s /\ view s' = <[d := (dty, dsz, Disk (<[base + n := bs]> m))]> (view s)) s).
  eapply wp_mono; [eapply write_through; try done; by eapply index_depth|]. cbn. intros _ s' (Hv&Ha&Hrole).
  split_and!; [|done..]. eapply (wf_store s); try done. lia.
Qed.

Lemma view_store_size s s' b ty sz o d dty dsz m m' :
  view s !! b = Some (ty, sz, o) -> view s !! d = Some (dty, dsz, Disk m) ->
  view s' = <[d := (dty, dsz, Disk m')]> (view s) -> exists ty' o', view s' !! b = Some (ty', sz, o').
Proof.
  intros Hb Hd ->. destruct (decide (b = d)) as [->|]; [|rewrite lookup_insert_ne by done; eauto].
  rewrite lookup_insert_eq. rewrite Hd in Hb. simplify_eq. eauto.
Qed.

(** What a device holds after a sector was stored on a disk. *)
Lemma contents_store s s' b d base c e bc ty sz o dty dsz m k bs cty csz co :
  wf s -> wf s' -> lies (view s) true b d base -> lies (view s) false c e bc ->
  view s !! b = Some (ty, sz, o) -> view s !! c = Some (cty, csz, co) -> view s !! d = Some (dty, dsz, Disk m) ->
  view s' = <[d := (dty, dsz, Disk (<[k := bs]> m))]> (view s) ->
  contents c s' = if decide (d = e /\ bc <= k < bc + csz) then <[k - bc := bs]> (contents c s) else contents c s.
Proof.
  intros Hwf Hwf' Hl Hc Hb Hcv Hd Hv. destruct (lies_disk_ok _ _ _ _ _ Hwf Hc) as (ety&esz&me&He&_).
  rewrite (contents_lies _ _ _ _ _ _ _ _ _ _ _ Hwf Hc Hcv He).
  destruct (view_store_size _ _ _ _ _ _ _ _ _ _ _ Hcv Hd Hv) as (cty'&co'&Hc').
  pose proof (lies_store _ _ _ _ _ _ _ _ (<[k := bs]> m) d Hd Hc) as Hl'. rewrite <- Hv in Hl'.
  destruct (decide (d = e)) as [->|Hde].
  - assert (view s' !! e = Some (dty, dsz, Disk (<[k := bs]> m))) as He' by (by rewrite Hv, lookup_insert_eq).
    rewrite (contents_lies _ _ _ _ _ _ _ _ _ _ _ Hwf' Hl' Hc' He'). rewrite Hd in He. simplify_eq.
    destruct (decide (bc <= k < bc + csz)); [rewrite decide_True by done|rewrite decide_False by tauto].
    + replace k with (bc + (k - bc)) at 1 by lia. apply window_insert. lia.
    + apply map_eq. intros j. rewrite !window_lookup. case_decide; [|done]. by rewrite lookup_insert_ne by lia.
  - rewrite decide_False by tauto. assert (view s' !! e = Some (ety, esz, Disk me)) as He' by (by rewrite Hv, lookup_insert_ne).
    by rewrite (contents_lies _ _ _ _ _ _ _ _ _ _ _ Hwf' Hl' Hc' He').
Qed.

(** ** The block layer as the device of the file system *)
Section device.
Context (fs : ptr).

Definition fs_size (s : state) : Z := match blocks s !! fs with Some b => size b | None => 0 end.
Definition fs_ok (s : state) : Prop := wf s /\ exists d base, lies (view s) true fs d base.

Lemma fs_ok_view s : fs_ok s -> exists ty o, view s !! fs = Some (ty, fs_size s, o).
Proof.
  intros [_ (d&base&Hl)]. unfold fs_size.
  inversion Hl as [? ty sz m Hv|? ty sz q st ? ? Hv]; subst; rewrite Hv; apply view_lookup in Hv as (?&?&?&->); eauto.
Qed.

Lemma fs_same s s' : same s s' -> fs_ok s -> fs_ok s' /\ contents fs s' = contents fs s /\ fs_size s' = fs_size s.
Proof.
  intros Hs Hok. destruct (fs_ok_view _ Hok) as (ty&o&Hv). pose proof Hs as (Ev&Ea&_). destruct Hok as [Hwf Hl]. split_and!.
  - split; [by eapply wf_same|]. by rewrite Ev.
  - unfold contents, depth. by rewrite Ev, Ea.
  - rewrite <- Ev in Hv. apply view_lookup in Hv as (?&?&?&E). unfold fs_size at 1. by rewrite E.
Qed.

Lemma check_end b s ty sz o n {A} (k : M state A) :
  view s !! b = Some (ty, sz, o) -> sz <= n -> (do! check_sector b n in k) s = Err EPanic.
Proof.
  intros (?&?&?&E)%view_lookup Hn. unfold check_sector, deref, bind. rewrite E. cbn.
  by rewrite (proj2 (Z.leb_le _ _)).
Qed.

Lemma fs_depth s : fs_ok s -> exists f, depth s = S f.
Proof.
  intros Hok. destruct (fs_ok_view _ Hok) as (ty&o&Hv), (wf_index _ _ _ (proj1 Hok) Hv) as [i Hi%index_depth].
  exists (pred (depth s)). lia.
Qed.

Lemma lies_weaken v b d base : lies v true b d base -> lies v false b d base.
Proof. induction 1; [eapply lies_disk|eapply lies_part]; done. Qed.

#[export] Program Instance block_device : Device.Device state := {|
  Device.block_size := fs_size;
  Device.block_read := block_read fs;
  Device.block_write := block_write fs;
  Device.content := contents fs;
  Device.dev_ok := fs_ok |}.
Next Obligation. intros s Hok. destruct (fs_ok_view _ Hok) as (ty&o&Hv). by eapply wf_size; [apply Hok|]. Qed.
Next Obligation. intros s n Hok. destruct (fs_ok_view _ Hok) as (ty&o&Hv). by eapply contents_dom; [apply Hok|]. Qed.
Next Obligation. intros s n bs Hok. destruct (fs_ok_view _ Hok) as (ty&o&Hv). by eapply contents_ok; [apply Hok|]. Qed.
Next Obligation.
  intros s n bs Hok Hn. destruct (fs_ok_view _ Hok) as (ty&o&Hv).
  eapply wp_mono; [by eapply block_read_eq; [apply Hok|..]|]. cbn. intros r s' [-> Hs]. split; [done|]. by apply fs_same.
Qed.
Next Obligation.
  intros s n bs Hok Hn Hbs. destruct (fs_ok_view _ Hok) as (ty&o&Hv). pose proof Hok as [Hwf (d&base&Hl)].
  destruct (lies_disk_ok _ _ _ _ _ Hwf Hl) as (dty&dsz&m&Hd&Hr). destruct (Hr _ _ _ Hv).
  assert (0 <= n < fs_size s) by (by eapply contents_dom).
  eapply wp_mono; [by eapply block_write_eq|]. cbn. intros _ s' (Hwf'&_&Ha&Hv').
  pose proof (lies_weaken _ _ _ _ Hl) as Hl'.
  split_and!.
  - split; [done|]. exists d, base. rewrite Hv'. by eapply lies_store.
  - rewrite (contents_store s s' _ _ _ _ _ _ _ _ _ _ _ _ _ _ _ _ _ Hwf Hwf' Hl Hl' Hv Hv Hd Hv'), decide_True by lia. f_equal. lia.
  - destruct (view_store_size _ _ _ _ _ _ _ _ _ _ _ Hv Hd Hv') as (?&?&(?&?&?&E)%view_lookup). unfold fs_size at 1. by rewrite E.
Qed.
Next Obligation.
  intros s n Hok Hn. destruct (fs_ok_view _ Hok) as (ty&o&Hv), (fs_depth _ Hok) as [f Ef].
  unfold block_read. rewrite Ef. by eapply check_end.
Qed.
Next Obligation.
  intros s n bs Hok Hn. destruct (fs_ok_view _ Hok) as (ty&o&Hv), (fs_depth _ Hok) as [f Ef].
  unfold block_write. rewrite Ef. by eapply check_end.
Qed.
End device.

(** ** Registration *)

(** A new device keeps the table well formed when it is a disk of its size or
    a partition within a registered device, as [found_partition] checks. *)
Lemma block_register_ok s p nm ty sz o :
  wf s -> p <> NULL -> view s !! p = None -> 0 <= sz < 2 ^ 32 ->
  match o with
  | Disk m => (forall n, is_Some (m !! n) <-> 0 <= n < sz) /\ map_Forall (fun _ => Device.sector_ok) m
  | Partition q st => exists qty qsz qo, view s !! q = Some (qty, qsz, qo) /\ 0 <= st /\ st + sz <= qsz
  end ->
  wp (block_register p nm ty sz o) (fun r s' => r = p /\ wf s' /\
    view s' = <[p := (ty, sz, o)]> (view s) /\ all_blocks s' = all_blocks s ++ [p]) s.
Proof.
  intros Hwf Hp Hv Hsz Ho. unfold block_register. rewrite (proj2 (Z.eqb_neq _ _) Hp). wp_go. split; [done|].
  assert (view (St (<[p := Blk (take 15 nm) ty sz o 0 0]> (blocks s)) (all_blocks s ++ [p]) (block_by_role s)) =
    <[p := (ty, sz, o)]> (view s)) as Ev by (unfold view; cbn; by rewrite fmap_insert).
  split; [|done]. split; rewrite ?Ev; cbn.
  - apply NoDup_app. split_and!; [apply Hwf| |apply NoDup_singleton].
    intros x Hx ->%list_elem_of_singleton. apply (wf_dom _ Hwf) in Hx as [? Hx]. congruence.
  - intros b. rewrite elem_of_app, list_elem_of_singleton, (wf_dom _ Hwf), lookup_insert_is_Some'. naive_solver.
  - intros b ty' sz' o' [[-> [= <- <- <-]]|[? ?]]%lookup_insert_Some; [done|by eapply wf_size].
  - intros b ty' sz' m [[-> [= -> -> ->]]|[? ?]]%lookup_insert_Some; [done|by eapply wf_disk].
  - intros b ty' sz' q st [[-> [= -> -> ->]]|[? (i&j&qty&qsz&qo&?&?&?&?&?)%(wf_part _ Hwf)]]%lookup_insert_Some.
    + destruct Ho as (qty&qsz&qo&Hq&?&?). destruct (wf_index _ _ _ Hwf Hq) as [i Hi]. pose proof (lookup_lt_Some _ _ _ Hi).
      exists i, (length (all_blocks s)), qty, qsz, qo. rewrite lookup_app_l, lookup_app_r, Nat.sub_diag, lookup_insert_ne by (done || congruence || lia).
      done.
    + exists i, j, qty, qsz, qo. rewrite !lookup_app_l by (by eapply lookup_lt_Some). rewrite lookup_insert_ne by congruence. done.
Qed.

(** ** Reading and writing through partitions *)

(** C35. A sector written to a device, through however many partitions it lies
    in, is what reading it returns; seen through any other device of the table,
    exactly that sector of the disk has changed, so disjoint partitions do not
    disturb each other.  An access past the end of the device panics. *)
Theorem block_layer_correct s b c d base e bc ty sz o cty csz co n bs :
  wf s -> lies (view s) true b d base -> lies (view s) false c e bc ->
  view s !! b = Some (ty, sz, o) -> view s !! c = Some (cty, csz, co) -> 0 <= n -> Device.sector_ok bs ->
  if decide (n < sz) then
    wp (block_write b n bs) (fun _ s' => wf s' /\
      wp (block_read b n) (fun r s'' => r = bs /\ same s' s'') s' /\
      forall k, 0 <= k < csz ->
        contents c s' !! k = if decide (d = e /\ bc + k = base + n) then Some bs else contents c s !! k) s
  else block_write b n bs s = Err EPanic /\ block_read b n s = Err EPanic.
Proof.
  intros Hwf Hl Hc Hb Hcv Hn Hbs. case_decide as Hsz.
  - destruct (lies_disk_ok _ _ _ _ _ Hwf Hl) as (dty&dsz&m&Hd&Hr). destruct (Hr _ _ _ Hb).
    eapply wp_mono; [by eapply block_write_eq|]. cbn. intros _ s' (Hwf'&_&Ha&Hv'). split; [done|].
    destruct (view_store_size _ _ _ _ _ _ _ _ _ _ _ Hb Hd Hv') as (ty'&o'&Hb').
    pose proof (lies_weaken _ _ _ _ Hl) as Hl'. split.
    + eapply block_read_eq; [done..|].
      rewrite (contents_store s s' _ _ _ _ _ _ _ _ _ _ _ _ _ _ _ _ _ Hwf Hwf' Hl Hl' Hb Hb Hd Hv'), decide_True by lia.
      replace (base + n - base) with n by lia. apply lookup_insert_eq.
    + intros k Hk. rewrite (contents_store s s' _ _ _ _ _ _ _ _ _ _ _ _ _ _ _ _ _ Hwf Hwf' Hl Hc Hb Hcv Hd Hv').
      destruct (decide (d = e /\ bc + k = base + n)) as [[-> E]|Hne].
      * rewrite decide_True by lia. replace (base + n - bc) with k by lia. apply lookup_insert_eq.
      * case_decide; [|done]. rewrite lookup_insert_ne; [done|]. lia.
  - destruct (wf_index _ _ _ Hwf Hb) as [i Hi%index_depth]. destruct (depth s) as [|f] eqn:E; [lia|].
    unfold block_write, block_read. rewrite E. split; (eapply check_end; [done|lia]).
Qed.

(** A disk of four sectors, with a partition of one and a partition of two. *)
Definition demo_disk : gmap Z (list Z) := gset_to_gmap (replicate 512 0) (list_to_set (seqZ 0 4)).
Definition demo_boot : M state ptr :=
  do! block_register 1 [104; 100] BLOCK_RAW 4 (Disk demo_disk) in
  do! block_register 2 [104; 100; 49] BLOCK_FILESYS 1 (Partition 1 1) in
  block_register 3 [104; 100; 50] BLOCK_SCRATCH 2 (Partition 1 2).
Definition demo : state := match demo_boot (St ∅ [] [0; 2; 3; 0]) with Ok (_, s) => s | Err _ => St ∅ [] [] end.

Lemma zeros_ok : Device.sector_ok (replicate 512 0).
Proof. by apply (bool_decide_unpack _). Qed.

Lemma empty_wf roles : wf (St ∅ [] roles) /\ view (St ∅ [] roles) = ∅.
Proof.
  split; [|apply fmap_empty]. split; cbn; [constructor|..]; unfold view; cbn.
  - intros b. rewrite fmap_empty, lookup_empty. split; [by intros ?%elem_of_nil|by intros []].
  - by intros *; rewrite fmap_empty, lookup_empty.
  - by intros *; rewrite fmap_empty, lookup_empty.
  - by intros *; rewrite fmap_empty, lookup_empty.
Qed.

Lemma demo_table_wf : wf demo /\
  view demo = {[3 := (BLOCK_SCRATCH, 2, Partition 1 2); 2 := (BLOCK_FILESYS, 1, Partition 1 1); 1 := (BLOCK_RAW, 4, Disk demo_disk)]}.
Proof.
  assert (wp demo_boot (fun _ s => wf s /\ view s =
    <[3 := (BLOCK_SCRATCH, 2, Partition 1 2)]> (<[2 := (BLOCK_FILESYS, 1, Partition 1 1)]> (<[1 := (BLOCK_RAW, 4, Disk demo_disk)]> ∅)))
    (St ∅ [] [0; 2; 3; 0])) as H; [|exact H].
  pose proof (empty_wf [0; 2; 3; 0]) as [H0 E0].
  unfold demo_boot. apply wp_bind. eapply wp_mono; [apply block_register_ok; [done|done|by rewrite E0|lia|]|].
  { split; [|intros n bs [_ <-]%lookup_gset_to_gmap_Some; apply zeros_ok]. intros n. unfold demo_disk.
    rewrite <- elem_of_dom, dom_gset_to_gmap, elem_of_list_to_set, elem_of_seqZ. lia. }
  intros _ s1 (_&Hw1&E1&_). rewrite E0 in E1. apply wp_bind. eapply wp_mono; [apply block_register_ok; [done|done|by rewrite E1|lia|]|].
  { rewrite E1. eexists _, _, _. split; [done|lia]. }
  intros _ s2 (_&Hw2&E2&_). rewrite E1 in E2. eapply wp_mono; [apply block_register_ok; [done|done|by rewrite E2|lia|]|].
  { rewrite E2. eexists _, _, _. split; [done|lia]. }
  intros _ s3 (_&Hw3&E3&_). rewrite E2 in E3. done.
Qed.

Lemma block_layer_correct_witness :
  wp (block_write 3 1 (replicate 512 0)) (fun _ s' => contents 2 s' !! 0 = contents 2 demo !! 0) demo.
Proof.
  destruct demo_table_wf as [Hw Ev].
  assert (lies (view demo) true 3 1 (2 + 0)) as H3.
  { rewrite Ev. eapply lies_part; [done|done|]. by eapply lies_disk. }
  assert (lies (view demo) false 2 1 (1 + 0)) as H2.
  { rewrite Ev. eapply lies_part; [done|done|]. by eapply lies_disk. }
  pose proof (block_layer_correct demo 3 2 1 (2 + 0) 1 (1 + 0) BLOCK_SCRATCH 2 (Partition 1 2) BLOCK_FILESYS 1 (Partition 1 1) 1
    (replicate 512 0) Hw H3 H2 ltac:(by rewrite Ev) ltac:(by rewrite Ev) ltac:(lia) zeros_ok) as H.
  rewrite decide_True in H by lia. eapply wp_mono; [exact H|]. intros _ s' (_&_&Hk). rewrite Hk by lia.
  by rewrite decide_False by lia.
Defined.
End Block.
