(* ===== verification/Fs.v ===== *)
(** * Inodes, open files and the free map: filesys/inode.c, file.c, free-map.c

    One state for the file system: the device, the objects [malloc] gave it
    ([struct inode], [struct file], [struct dir]) by address, the list of open
    inodes, the free map with its file, and the three locks.  Buffers are lists
    of bytes; storing outside a buffer is a fault.  The operations run on
    behalf of thread [cur]. *)

From S2P Require Import Prelude.
From S2P Require Import Mem.
From S2P Require Import Words.
From S2P Require Import Bitmap.
From S2P Require Import Device.
Local Open Scope Z_scope.

Module Fs.
Import Mem Words.
Import (hints) Device.

Abbreviation BLOCK_SECTOR_SIZE := 512%Z.
Abbreviation INODE_MAGIC := 1229868868%Z.
Abbreviation FREE_MAP_SECTOR := 0%Z.
Abbreviation ROOT_DIR_SECTOR := 1%Z.

(** ** Buffers *)

(** [n] bytes from [ofs] on. *)
Definition get_bytes (bs : list Z) (ofs n : Z) : res (list Z) :=
  if (0 <=? ofs) && (0 <=? n) && (ofs + n <=? zlen bs) then Ok (take (Z.to_nat n) (drop (Z.to_nat ofs) bs)) else Err EFault.

(** The buffer with [new] stored at [ofs]. *)
Definition splice (bs : list Z) (ofs : nat) (new : list Z) : list Z :=
  take ofs bs ++ new ++ drop (ofs + length new) bs.
Definition put_bytes (bs : list Z) (ofs : Z) (new : list Z) : res (list Z) :=
  if (0 <=? ofs) && (ofs + zlen new <=? zlen bs) then Ok (splice bs (Z.to_nat ofs) new) else Err EFault.

(** ** struct inode_disk, struct inode, struct file, struct dir *)

Definition encode_inode (start length magic : Z) : list Z :=
  le32 start ++ le32 length ++ le32 magic ++ replicate 500 0.

Record inode := Inode {
  sector : Z; open_cnt : Z; removed : bool; data : list Z;
  current_readers : Z; writers_lock : Z; readers_lock : Z }.

(** The fields of [data]. *)
Definition data_start (i : inode) : Z := le (take 4 (data i)).
Definition data_length (i : inode) : Z := s32 (le (take 4 (drop 4 (data i)))).

Record file := File { f_inode : ptr; pos : Z }.

Inductive obj :=
  | OInode (i : inode)
  | OFile (f : file)
  | ODir (d : file).

Record state {dev : Type} := St {
  fs_device : dev;
  heap : gmap ptr obj;
  open_inodes : list ptr;
  free_map : Bitmap.bitmap;
  free_map_file : ptr;
  filesys_lock : option Z;
  free_map_lock : option Z;
  dir_lock : option Z;
  mallocs : nat }.
Arguments state dev : clear implicits.
Arguments St {dev}.

Section code.
Context {dev : Type} `{!Device.Device dev} `{!Device.Allocator} (cur : Z).
Implicit Types (s : state dev) (p : ptr) (i : inode).

Definition set_device (d : dev) s : state dev :=
  St d (heap s) (open_inodes s) (free_map s) (free_map_file s) (filesys_lock s) (free_map_lock s) (dir_lock s) (mallocs s).
Definition set_heap h s : state dev :=
  St (fs_device s) h (open_inodes s) (free_map s) (free_map_file s) (filesys_lock s) (free_map_lock s) (dir_lock s) (mallocs s).
Definition set_open l s : state dev :=
  St (fs_device s) (heap s) l (free_map s) (free_map_file s) (filesys_lock s) (free_map_lock s) (dir_lock s) (mallocs s).
Definition set_map b s : state dev :=
  St (fs_device s) (heap s) (open_inodes s) b (free_map_file s) (filesys_lock s) (free_map_lock s) (dir_lock s) (mallocs s).
Definition set_map_file p s : state dev :=
  St (fs_device s) (heap s) (open_inodes s) (free_map s) p (filesys_lock s) (free_map_lock s) (dir_lock s) (mallocs s).
Definition set_filesys_lock l s : state dev :=
  St (fs_device s) (heap s) (open_inodes s) (free_map s) (free_map_file s) l (free_map_lock s) (dir_lock s) (mallocs s).
Definition set_free_map_lock l s : state dev :=
  St (fs_device s) (heap s) (open_inodes s) (free_map s) (free_map_file s) (filesys_lock s) l (dir_lock s) (mallocs s).
Definition set_dir_lock l s : state dev :=
  St (fs_device s) (heap s) (open_inodes s) (free_map s) (free_map_file s) (filesys_lock s) (free_map_lock s) l (mallocs s).
Definition set_mallocs n s : state dev :=
  St (fs_device s) (heap s) (open_inodes s) (free_map s) (free_map_file s) (filesys_lock s) (free_map_lock s) (dir_lock s) n.

Definition read_sector (n : Z) : M (state dev) (list Z) := zoom fs_device set_device (Device.block_read n).
Definition write_sector (n : Z) (bs : list Z) : M (state dev) unit := zoom fs_device set_device (Device.block_write n bs).
Definition on_map {A} (m : M Bitmap.bitmap A) : M (state dev) A := zoom free_map set_map m.
Definition on_filesys_lock (m : M (option Z) unit) : M (state dev) unit := zoom filesys_lock set_filesys_lock m.
Definition on_free_map_lock (m : M (option Z) unit) : M (state dev) unit := zoom free_map_lock set_free_map_lock m.
Definition on_dir_lock (m : M (option Z) unit) : M (state dev) unit := zoom dir_lock set_dir_lock m.

(** [malloc] and [calloc]; [put_obj] initializes the object at the address. *)
Definition malloc (size : Z) : M (state dev) ptr :=
  fun s => Ok (Device.alloc (mallocs s) size (dom (heap s)), set_mallocs (S (mallocs s)) s).
Definition put_obj p (o : obj) : M (state dev) unit := modify (fun s => set_heap (<[p := o]> (heap s)) s).
Definition free p : M (state dev) unit :=
  if p =? NULL then ret tt else modify (fun s => set_heap (delete p (heap s)) s).

Definition inode_at p : M (state dev) inode :=
  fun s => match heap s !! p with Some (OInode i) => Ok (i, s) | _ => Err EFault end.
Definition file_at p : M (state dev) file :=
  fun s => match heap s !! p with Some (OFile f) => Ok (f, s) | _ => Err EFault end.
Definition dir_at p : M (state dev) file :=
  fun s => match heap s !! p with Some (ODir d) => Ok (d, s) | _ => Err EFault end.
Definition upd_inode p (f : inode -> inode) : M (state dev) unit :=
  let! i := inode_at p in put_obj p (OInode (f i)).

Definition set_readers n i := Inode (sector i) (open_cnt i) (removed i) (data i) n (writers_lock i) (readers_lock i).
Definition set_writers_lock v i := Inode (sector i) (open_cnt i) (removed i) (data i) (current_readers i) v (readers_lock i).
Definition set_readers_lock v i := Inode (sector i) (open_cnt i) (removed i) (data i) (current_readers i) (writers_lock i) v.
Definition set_open_cnt n i := Inode (sector i) n (removed i) (data i) (current_readers i) (writers_lock i) (readers_lock i).
Definition set_removed b i := Inode (sector i) (open_cnt i) b (data i) (current_readers i) (writers_lock i) (readers_lock i).

(** An operation on one of the semaphores of an inode. *)
Definition on_writers_lock p (m : M Z unit) : M (state dev) unit :=
  let! i := inode_at p in
  let! v := lift_res (m (writers_lock i)) in upd_inode p (set_writers_lock v.2).
Definition on_readers_lock p (m : M Z unit) : M (state dev) unit :=
  let! i := inode_at p in
  let! v := lift_res (m (readers_lock i)) in upd_inode p (set_readers_lock v.2).

(** ** inode.c: reading and writing *)

Definition bytes_to_sectors (size : Z) : Z := u32 (Z.quot (s32 (size + BLOCK_SECTOR_SIZE - 1)) BLOCK_SECTOR_SIZE).

Definition byte_to_sector p (pos : Z) : M (state dev) Z :=
  do! assert (negb (p =? NULL)) in
  let! i := inode_at p in
  ret (if pos <? data_length i then u32 (data_start i + Z.quot pos BLOCK_SECTOR_SIZE) else u32 (-1)).

Definition inode_length p : M (state dev) Z := let! i := inode_at p in ret (data_length i).
Definition inode_get_inumber p : M (state dev) Z := let! i := inode_at p in ret (sector i).

(** The geometry both loops compute: sector, offset in the sector, bytes left
    in the sector, bytes to copy. *)
Definition chunk p (size offset : Z) : M (state dev) (Z * Z * Z * Z) :=
  let! sector_idx := byte_to_sector p offset in
  let sector_ofs := Z.rem offset BLOCK_SECTOR_SIZE in
  let! len := inode_length p in
  let inode_left := s32 (len - offset) in
  let sector_left := BLOCK_SECTOR_SIZE - sector_ofs in
  let min_left := if inode_left <? sector_left then inode_left else sector_left in
  let chunk_size := if size <? min_left then size else min_left in
  ret (sector_idx, sector_ofs, sector_left, chunk_size).

(** The loop of [inode_read_at]; returns the bytes read, the buffer, and the
    bounce buffer. *)
Fixpoint read_loop (fuel : nat) p (buffer : list Z) (size offset bytes_read : Z) (bounce : ptr) : M (state dev) (Z * list Z * ptr) :=
  match fuel with
  | O => fail EFuel
  | S fuel' =>
      if negb (0 <? size) then ret (bytes_read, buffer, bounce) else
      let! (sector_idx, sector_ofs, _, chunk_size) := chunk p size offset in
      if chunk_size <=? 0 then ret (bytes_read, buffer, bounce) else
      if (sector_ofs =? 0) && (chunk_size =? BLOCK_SECTOR_SIZE) then
        let! bs := read_sector sector_idx in
        let! buffer := lift_res (put_bytes buffer bytes_read bs) in
        read_loop fuel' p buffer (size - chunk_size) (offset + chunk_size) (bytes_read + chunk_size) bounce
      else
        let! bounce := if bounce =? NULL then malloc BLOCK_SECTOR_SIZE else ret bounce in
        if bounce =? NULL then ret (bytes_read, buffer, bounce) else
        let! bs := read_sector sector_idx in
        let! c := lift_res (get_bytes bs sector_ofs chunk_size) in
        let! buffer := lift_res (put_bytes buffer bytes_read c) in
        read_loop fuel' p buffer (size - chunk_size) (offset + chunk_size) (bytes_read + chunk_size) bounce
  end.

(** Every iteration but the last copies at least one byte. *)
Definition inode_read_at p (buffer : list Z) (size offset : Z) : M (state dev) (Z * list Z) :=
  do! on_readers_lock p sema_down in
  let! i := inode_at p in
  do! (if current_readers i =? 0 then on_writers_lock p sema_down else ret tt) in
  do! upd_inode p (fun i => set_readers (u32 (current_readers i + 1)) i) in
  do! on_readers_lock p sema_up in
  let! (bytes_read, buffer, bounce) := read_loop (S (Z.to_nat size)) p buffer size offset 0 NULL in
  do! free bounce in
  do! on_readers_lock p sema_down in
  do! upd_inode p (fun i => set_readers (u32 (current_readers i - 1)) i) in
  let! i := inode_at p in
  do! (if current_readers i =? 0 then on_writers_lock p sema_up else ret tt) in
  do! on_readers_lock p sema_up in
  ret (bytes_read, buffer).

Fixpoint write_loop (fuel : nat) p (buffer : list Z) (size offset bytes_written : Z) (bounce : ptr) : M (state dev) (Z * ptr) :=
  match fuel with
  | O => fail EFuel
  | S fuel' =>
      if negb (0 <? size) then ret (bytes_written, bounce) else
      let! (sector_idx, sector_ofs, sector_left, chunk_size) := chunk p size offset in
      if chunk_size <=? 0 then ret (bytes_written, bounce) else
      if (sector_ofs =? 0) && (chunk_size =? BLOCK_SECTOR_SIZE) then
        let! c := lift_res (get_bytes buffer bytes_written BLOCK_SECTOR_SIZE) in
        do! write_sector sector_idx c in
        write_loop fuel' p buffer (size - chunk_size) (offset + chunk_size) (bytes_written + chunk_size) bounce
      else
        let! bounce := if bounce =? NULL then malloc BLOCK_SECTOR_SIZE else ret bounce in
        if bounce =? NULL then ret (bytes_written, bounce) else
        let! bs := if (0 <? sector_ofs) || (chunk_size <? sector_left) then read_sector sector_idx
                   else ret (replicate 512 0) in
        let! c := lift_res (get_bytes buffer bytes_written chunk_size) in
        let! bs := lift_res (put_bytes bs sector_ofs c) in
        do! write_sector sector_idx bs in
        write_loop fuel' p buffer (size - chunk_size) (offset + chunk_size) (bytes_written + chunk_size) bounce
  end.

Definition inode_write_at p (buffer : list Z) (size offset : Z) : M (state dev) Z :=
  do! on_writers_lock p sema_down in
  let! (bytes_written, bounce) := write_loop (S (Z.to_nat size)) p buffer size offset 0 NULL in
  do! free bounce in
  do! on_writers_lock p sema_up in
  ret bytes_written.

(** ** file.c: reading and writing *)

Definition file_read_at f (buffer : list Z) (size file_ofs : Z) : M (state dev) (Z * list Z) :=
  let! fl := file_at f in inode_read_at (f_inode fl) buffer size file_ofs.
Definition file_write_at f (buffer : list Z) (size file_ofs : Z) : M (state dev) Z :=
  let! fl := file_at f in inode_write_at (f_inode fl) buffer size file_ofs.

Definition file_read f (buffer : list Z) (size : Z) : M (state dev) (Z * list Z) :=
  let! fl := file_at f in
  let! (bytes_read, buffer) := inode_read_at (f_inode fl) buffer size (pos fl) in
  let! fl := file_at f in
  do! put_obj f (OFile (File (f_inode fl) (s32 (pos fl + bytes_read)))) in
  ret (bytes_read, buffer).
Definition file_write f (buffer : list Z) (size : Z) : M (state dev) Z :=
  let! fl := file_at f in
  let! bytes_written := inode_write_at (f_inode fl) buffer size (pos fl) in
  let! fl := file_at f in
  do! put_obj f (OFile (File (f_inode fl) (s32 (pos fl + bytes_written)))) in
  ret bytes_written.

Definition file_get_inode f : M (state dev) ptr := let! fl := file_at f in ret (f_inode fl).
Definition file_length f : M (state dev) Z :=
  do! assert (negb (f =? NULL)) in
  let! fl := file_at f in inode_length (f_inode fl).
Definition file_seek f (new_pos : Z) : M (state dev) unit :=
  do! assert (negb (f =? NULL)) in
  do! assert (0 <=? new_pos) in
  let! fl := file_at f in put_obj f (OFile (File (f_inode fl) new_pos)).
Definition file_tell f : M (state dev) Z :=
  do! assert (negb (f =? NULL)) in
  let! fl := file_at f in ret (pos fl).

(** ** bitmap.c: the bitmap as a file *)

(** The words of a bitmap, as bytes in memory. *)
Definition words_bytes (ws : list Z) : list Z := mbind le32 ws.
Fixpoint bytes_words (n : nat) (bs : list Z) : list Z :=
  match n with O => [] | S n' => le (take 4 bs) :: bytes_words n' (drop 4 bs) end.

Definition bitmap_write f : M (state dev) bool :=
  let! b := gets free_map in
  let size := s32 (Bitmap.byte_cnt (Bitmap.bit_cnt b)) in
  let! n := file_write_at f (words_bytes (Bitmap.bits b)) size 0 in
  ret (n =? size).

Definition bitmap_read f : M (state dev) bool :=
  let! b := gets free_map in
  if 0 <? Bitmap.bit_cnt b then
    let size := s32 (Bitmap.byte_cnt (Bitmap.bit_cnt b)) in
    let! (n, buffer) := file_read_at f (words_bytes (Bitmap.bits b)) size 0 in
    do! modify (set_map (Bitmap.Bm (Bitmap.bit_cnt b) (bytes_words (length (Bitmap.bits b)) buffer))) in
    let idx := Bitmap.elem_cnt (Bitmap.bit_cnt b) - 1 in
    do! on_map (let! w := Bitmap.word idx in Bitmap.set_word idx (Z.land w (Bitmap.last_mask b))) in
    ret (n =? size)
  else ret true.

(** ** free-map.c *)

(** [Some sector] when successful, with [*sectorp] set to [sector]. *)
Definition free_map_allocate (cnt : Z) : M (state dev) (option Z) :=
  do! on_free_map_lock (lock_acquire cur) in
  let! sector := on_map (Bitmap.bitmap_scan_and_flip 0 cnt false) in
  let! f := gets free_map_file in
  let! sector :=
    if negb (sector =? Bitmap.BITMAP_ERROR) && negb (f =? NULL) then
      let! ok := bitmap_write f in
      if negb ok then
        do! on_map (Bitmap.bitmap_set_multiple sector cnt false) in ret Bitmap.BITMAP_ERROR
      else ret sector
    else ret sector in
  do! on_free_map_lock (lock_release cur) in
  ret (if negb (sector =? Bitmap.BITMAP_ERROR) then Some sector else None).

Definition free_map_release (sector cnt : Z) : M (state dev) unit :=
  do! on_free_map_lock (lock_acquire cur) in
  let! all := on_map (Bitmap.bitmap_all sector cnt) in
  do! assert all in
  do! on_map (Bitmap.bitmap_set_multiple sector cnt false) in
  let! f := gets free_map_file in
  let! _ := bitmap_write f in
  on_free_map_lock (lock_release cur).

(** ** inode.c: creating, opening and closing *)

Definition inode_init : M (state dev) unit :=
  do! modify (set_open []) in modify (set_filesys_lock None).

Definition inode_create (sector length : Z) : M (state dev) bool :=
  do! on_filesys_lock (lock_acquire cur) in
  do! assert (0 <=? length) in
  let! disk_inode := malloc BLOCK_SECTOR_SIZE in
  let! success :=
    if disk_inode =? NULL then ret false else
    let sectors := bytes_to_sectors length in
    let! r := free_map_allocate sectors in
    let! success :=
      match r with
      | Some start =>
          do! write_sector sector (encode_inode start length INODE_MAGIC) in
          do! (if 0 <? sectors then
                 for_ (Z.to_nat sectors) 0 (fun k => write_sector (u32 (start + k)) (replicate 512 0))
               else ret tt) in
          ret true
      | None => ret false
      end in
    do! free disk_inode in
    ret success in
  do! on_filesys_lock (lock_release cur) in
  ret success.

Definition inode_reopen p : M (state dev) ptr :=
  do! (if negb (p =? NULL) then upd_inode p (fun i => set_open_cnt (s32 (open_cnt i + 1)) i) else ret tt) in
  ret p.

(** The search for an inode that is already open. *)
Fixpoint find_open (sector_ : Z) (l : list ptr) : M (state dev) (option ptr) :=
  match l with
  | [] => ret None
  | p :: l' => let! i := inode_at p in if sector i =? sector_ then ret (Some p) else find_open sector_ l'
  end.

(** sizeof (struct inode) *)
Abbreviation INODE_SIZE := 576%Z.

Definition inode_open (sector : Z) : M (state dev) ptr :=
  do! on_filesys_lock (lock_acquire cur) in
  let! l := gets open_inodes in
  let! r := find_open sector l in
  match r with
  | Some p => do! inode_reopen p in do! on_filesys_lock (lock_release cur) in ret p
  | None =>
      let! p := malloc INODE_SIZE in
      if p =? NULL then ret NULL else
      do! modify (fun s => set_open (p :: open_inodes s) s) in
      let! bs := read_sector sector in
      do! put_obj p (OInode (Inode sector 1 false bs 0 1 1)) in
      do! on_filesys_lock (lock_release cur) in
      ret p
  end.

Definition inode_close p : M (state dev) unit :=
  if p =? NULL then ret tt else
  do! on_filesys_lock (lock_acquire cur) in
  do! upd_inode p (fun i => set_open_cnt (s32 (open_cnt i - 1)) i) in
  let! i := inode_at p in
  do! (if open_cnt i =? 0 then
         do! modify (fun s => set_open (filter (fun q => q <> p) (open_inodes s)) s) in
         do! (if removed i then
                do! free_map_release (sector i) 1 in
                free_map_release (data_start i) (bytes_to_sectors (data_length i))
              else ret tt) in
         free p
       else ret tt) in
  on_filesys_lock (lock_release cur).

Definition inode_remove p : M (state dev) unit :=
  do! assert (negb (p =? NULL)) in
  do! on_filesys_lock (lock_acquire cur) in
  do! upd_inode p (set_removed true) in
  on_filesys_lock (lock_release cur).

(** ** file.c: opening and closing; sizeof (struct file) is 8 *)

Definition file_open (inode : ptr) : M (state dev) ptr :=
  let! f := malloc 8 in
  if negb (inode =? NULL) && negb (f =? NULL) then
    do! put_obj f (OFile (File inode 0)) in ret f
  else
    do! inode_close inode in
    do! free f in
    ret NULL.

Definition file_reopen f : M (state dev) ptr :=
  let! fl := file_at f in let! p := inode_reopen (f_inode fl) in file_open p.

Definition file_close f : M (state dev) unit :=
  if f =? NULL then ret tt else
  let! fl := file_at f in
  do! inode_close (f_inode fl) in
  free f.

(** ** free-map.c: the free map file *)

(** [storage] are the words of the array [bitmap_create] allocates. *)
Definition free_map_init (storage : list Z) : M (state dev) unit :=
  do! modify (set_free_map_lock None) in
  let! n := gets (fun s => Device.block_size (fs_device s)) in
  let! b := malloc 8 in
  let! bits := if b =? NULL then ret NULL else malloc (Bitmap.byte_cnt n) in
  let! r := lift_res (Bitmap.bitmap_create (negb (b =? NULL)) (fun _ => if bits =? NULL then None else Some storage) n) in
  match r with
  | None => fail EPanic
  | Some m =>
      do! modify (set_map m) in
      do! on_map (Bitmap.bitmap_mark FREE_MAP_SECTOR) in
      on_map (Bitmap.bitmap_mark ROOT_DIR_SECTOR)
  end.

Definition free_map_open : M (state dev) unit :=
  let! p := inode_open FREE_MAP_SECTOR in
  let! f := file_open p in
  do! modify (set_map_file f) in
  if f =? NULL then fail EPanic else
  let! ok := bitmap_read f in
  if negb ok then fail EPanic else ret tt.

Definition free_map_close : M (state dev) unit := let! f := gets free_map_file in file_close f.

Definition free_map_create : M (state dev) unit :=
  let! b := gets free_map in
  let! ok := inode_create FREE_MAP_SECTOR (s32 (Bitmap.bitmap_file_size b)) in
  if negb ok then fail EPanic else
  let! p := inode_open FREE_MAP_SECTOR in
  let! f := file_open p in
  do! modify (set_map_file f) in
  if f =? NULL then fail EPanic else
  let! ok := bitmap_write f in
  if negb ok then fail EPanic else ret tt.
End code.
End Fs.
