(* ===== verification/FsInode.v ===== *)
(** * Reading and writing inodes

    The bytes of a disk, numbered from its first one; [contents] is the file
    an extent of sectors holds.  [inode_read_at] and [inode_write_at], which
    go through the disk in sectors and a bounce buffer, read and overwrite a
    range of that list. *)

From S2P Require Import Prelude.
From S2P Require Import Mem.
From S2P Require Import Words.
From S2P Require Import Device.
From S2P Require Import Block.
From S2P Require Import Fs.
Local Open Scope Z_scope.

Module FsInode.
Import Mem Words Fs.

(** ** Bytes of a disk *)

Abbreviation disk_map := (gmap Z (list Z)).

Definition byte (m : disk_map) (a : Z) : Z :=
  nth (Z.to_nat (a mod 512)) (default [] (m !! (a / 512))) 0.

(** The [len] bytes from byte [a] on. *)
Definition bytes (m : disk_map) (a len : Z) : list Z := byte m <$> seqZ a len.

(** The file in the extent that begins at sector [start]. *)
Definition contents (m : disk_map) (start len : Z) : list Z := bytes m (512 * start) len.

(** [m'] is [m] with [bs] stored from byte [a] on. *)
Record wrote (m : disk_map) (a : Z) (bs : list Z) (m' : disk_map) : Prop := Wrote {
  wrote_dom n : is_Some (m' !! n) <-> is_Some (m !! n);
  wrote_byte x : byte m' x = if decide (a <= x < a + zlen bs) then nth (Z.to_nat (x - a)) bs 0 else byte m x }.

(** Every sector has its size. *)
Definition sized (m : disk_map) : Prop := map_Forall (fun _ => Device.sector_ok) m.

Lemma bytes_lookup m a len i : bytes m a len !! i = if decide (Z.of_nat i < len) then Some (byte m (a + Z.of_nat i)) else None.
Proof.
  unfold bytes. rewrite list_lookup_fmap. case_decide; [by rewrite lookup_seqZ_lt by lia|by rewrite lookup_seqZ_ge by lia].
Qed.

Lemma bytes_length m a len : length (bytes m a len) = Z.to_nat len.
Proof. unfold bytes. by rewrite length_fmap, length_seqZ. Qed.

Lemma bytes_app m a n k : 0 <= n -> 0 <= k -> bytes m a (n + k) = bytes m a n ++ bytes m (a + n) k.
Proof. intros. unfold bytes. by rewrite seqZ_app, fmap_app. Qed.

Lemma bytes_nil m a n : n <= 0 -> bytes m a n = [].
Proof. intros. unfold bytes. by rewrite seqZ_nil. Qed.

Lemma nth_lookup_some (l : list Z) i x : l !! i = Some x -> nth i l 0 = x.
Proof. intros H. rewrite nth_lookup, H. done. Qed.

(** The part of a sector is a range of bytes. *)
Lemma sector_bytes m n bs ofs k : sized m -> m !! n = Some bs -> 0 <= ofs -> 0 <= k -> ofs + k <= 512 ->
  take (Z.to_nat k) (drop (Z.to_nat ofs) bs) = bytes m (512 * n + ofs) k.
Proof.
  intros Hs Hn ???. destruct (Hs _ _ Hn) as [Hl _]. apply list_eq. intros i. rewrite bytes_lookup. case_decide.
  - rewrite lookup_take_lt, lookup_drop by lia. unfold byte.
    replace ((512 * n + ofs + Z.of_nat i) / 512) with n by zlia. rewrite Hn. cbn [from_option id].
    replace (Z.to_nat ((512 * n + ofs + Z.of_nat i) mod 512)) with (Z.to_nat ofs + i)%nat by zlia.
    destruct (lookup_lt_is_Some_2 bs (Z.to_nat ofs + i)%nat) as [x Hx]; [lia|]. by rewrite Hx, (nth_lookup_some _ _ _ Hx).
  - apply lookup_ge_None. rewrite length_take, length_drop. lia.
Qed.

Lemma sector_whole m n bs : sized m -> m !! n = Some bs -> bs = bytes m (512 * n) 512.
Proof.
  intros Hs Hn. rewrite <- (Z.add_0_r (512 * n)). rewrite <- (sector_bytes m n bs) by (done || lia).
  destruct (Hs _ _ Hn) as [Hl _]. cbn. rewrite drop_0, firstn_all2; [done|lia].
Qed.

Lemma byte_in_u m a : sized m -> in_u 8 (byte m a).
Proof.
  intros Hs. unfold byte. destruct (m !! (a / 512)) as [bs|] eqn:E; cbn [from_option id]; [|destruct (Z.to_nat _); split; done].
  destruct (Hs _ _ E) as [_ Hf]. rewrite nth_lookup. destruct (bs !! _) eqn:El; [|split; done]. cbn. by eapply Forall_lookup_1 in El.
Qed.

Lemma bytes_in_u m a len : sized m -> Forall (in_u 8) (bytes m a len).
Proof. intros Hs. apply Forall_fmap, Forall_true. intros x. by apply byte_in_u. Qed.

Lemma bytes_ext m m' a len : (forall x, a <= x < a + len -> byte m' x = byte m x) -> bytes m' a len = bytes m a len.
Proof. intros H. apply list_fmap_ext. intros i x [-> ?]%lookup_seqZ. apply H. lia. Qed.

(** A disk is its bytes. *)
Lemma disk_ext m m' n : sized m -> sized m' -> is_Some (m' !! n) <-> is_Some (m !! n) ->
  (forall x, 512 * n <= x < 512 * n + 512 -> byte m' x = byte m x) -> m' !! n = m !! n.
Proof.
  intros Hs Hs' Hd Hx. destruct (m !! n) as [bs|] eqn:E, (m' !! n) as [bs'|] eqn:E'.
  - f_equal. rewrite (sector_whole _ _ _ Hs E), (sector_whole _ _ _ Hs' E'). by apply bytes_ext.
  - destruct (proj2 Hd) as [? [=]]. eauto.
  - destruct (proj1 Hd) as [? [=]]. eauto.
  - done.
Qed.

Lemma wrote_nil m a : wrote m a [] m.
Proof. split; [done|]. intros x. rewrite decide_False; [done|]. simpl. lia. Qed.

Lemma wrote_app m a bs1 m1 bs2 m2 : wrote m a bs1 m1 -> wrote m1 (a + zlen bs1) bs2 m2 -> wrote m a (bs1 ++ bs2) m2.
Proof.
  intros [Hd1 Hb1] [Hd2 Hb2]. split; [intros n; by rewrite Hd2, Hd1|]. intros x. rewrite Hb2, Hb1, length_app.
  repeat case_decide; try lia.
  - rewrite app_nth2 by lia. f_equal. lia.
  - by rewrite app_nth1 by lia.
Qed.

(** Replacing part of one sector. *)
Lemma wrote_sector m n bs ofs new : sized m -> m !! n = Some bs -> 0 <= ofs -> ofs + zlen new <= 512 ->
  wrote m (512 * n + ofs) new (<[n := splice bs (Z.to_nat ofs) new]> m).
Proof.
  intros Hs Hn ??. destruct (Hs _ _ Hn) as [Hl _]. split.
  - intros k. destruct (decide (k = n)) as [->|]; [rewrite lookup_insert_eq, Hn; split; eauto|by rewrite lookup_insert_ne].
  - intros x. unfold byte. destruct (decide (x / 512 = n)) as [E|Hx].
    + rewrite E, lookup_insert_eq, Hn. cbn [from_option id]. unfold splice. rewrite !nth_lookup.
      case_decide; f_equal.
      * rewrite lookup_app_r, lookup_app_l by (rewrite length_take; zlia). f_equal. rewrite length_take. zlia.
      * destruct (decide (x mod 512 < ofs)).
        -- rewrite lookup_app_l by (rewrite length_take; zlia). apply lookup_take_lt. zlia.
        -- rewrite !lookup_app_r by (rewrite ?length_take; zlia). rewrite lookup_drop, length_take. f_equal. zlia.
    + rewrite lookup_insert_ne by done. rewrite decide_False; [done|]. zlia.
Qed.

Lemma wrote_fresh m n bs : is_Some (m !! n) -> length bs = 512%nat -> wrote m (512 * n) bs (<[n := bs]> m).
Proof.
  intros Hn Hl. split.
  - intros k. destruct (decide (k = n)) as [->|]; [rewrite lookup_insert_eq; split; eauto|by rewrite lookup_insert_ne].
  - intros x. unfold byte. destruct (decide (x / 512 = n)) as [E|Hx].
    + rewrite E, lookup_insert_eq, decide_True by zlia. cbn [from_option id]. f_equal. zlia.
    + rewrite lookup_insert_ne, decide_False by zlia. done.
Qed.

(** What a write makes of a range of bytes. *)
Lemma wrote_splice m a bs m' b len : wrote m a bs m' -> b <= a -> a + zlen bs <= b + len ->
  bytes m' b len = splice (bytes m b len) (Z.to_nat (a - b)) bs.
Proof.
  intros [_ Hb] ??. apply list_eq. intros i. rewrite bytes_lookup, Hb. unfold splice.
  destruct (decide (Z.of_nat i < a - b)).
  - rewrite lookup_app_l, lookup_take_lt, bytes_lookup by (rewrite ?length_take, ?bytes_length; lia).
    repeat case_decide; (lia || done).
  - rewrite lookup_app_r by (rewrite length_take, bytes_length; lia). rewrite length_take, bytes_length.
    destruct (decide (Z.of_nat i < a - b + zlen bs)).
    + rewrite lookup_app_l by lia. repeat case_decide; try lia. replace (Z.to_nat (b + Z.of_nat i - a)) with (i - Z.to_nat (a - b) `min` Z.to_nat len)%nat by lia.
      destruct (lookup_lt_is_Some_2 bs (i - Z.to_nat (a - b) `min` Z.to_nat len)%nat) as [x Hx]; [lia|]. by rewrite Hx, (nth_lookup_some _ _ _ Hx).
    + rewrite lookup_app_r, lookup_drop, bytes_lookup by lia.
      replace (Z.to_nat (a - b) + length bs + (i - Z.to_nat (a - b) `min` Z.to_nat len - length bs))%nat with i by lia.
      repeat case_decide; (lia || done).
Qed.

Lemma wrote_other m a bs m' b len : wrote m a bs m' -> b + len <= a \/ a + zlen bs <= b -> bytes m' b len = bytes m b len.
Proof. intros [_ Hb] ?. apply bytes_ext. intros x ?. rewrite Hb, decide_False by lia. done. Qed.

Lemma splice_nil bs ofs : splice bs ofs [] = bs.
Proof. unfold splice. cbn. rewrite Nat.add_0_r. apply take_drop. Qed.

Lemma splice_length bs ofs new : (ofs + length new <= length bs)%nat -> length (splice bs ofs new) = length bs.
Proof. intros. unfold splice. rewrite !length_app, length_take, length_drop. lia. Qed.

Lemma splice_app bs ofs n1 n2 : (ofs + length n1 + length n2 <= length bs)%nat ->
  splice (splice bs ofs n1) (ofs + length n1) n2 = splice bs ofs (n1 ++ n2).
Proof.
  intros. unfold splice. rewrite length_app, take_app, length_take, firstn_all2 by (rewrite length_take; lia).
  replace (ofs + length n1 - ofs `min` length bs)%nat with (length n1) by lia. rewrite take_app_length.
  rewrite drop_app, length_take, drop_ge by (rewrite length_take; lia). rewrite drop_app, drop_ge by lia. rewrite drop_drop. simpl.
  rewrite <- !app_assoc. do 4 f_equal. lia.
Qed.

(** ** The state after device accesses *)

Definition nsec (len : Z) : Z := (len + 511) / 512.

(** The sectors of an extent exist. *)
Record extent (m : disk_map) (start len : Z) : Prop := Extent {
  ext_start : 0 <= start;
  ext_len : 0 <= len < 2 ^ 31;
  ext_mapped n : start <= n < start + nsec len -> is_Some (m !! n) }.

Section proofs.
Context {dev : Type} `{!Device.Device dev} `{!Device.Allocator}.
Implicit Types (s : state dev) (p : ptr) (i : inode).

Definition disk s : disk_map := Device.content (fs_device s).
Definition good s : Prop := Device.dev_ok (fs_device s).

(** Only the device and the number of allocations differ, and the disk is [m]. *)
Record stores s (m : disk_map) s' : Prop := Stores {
  st_eq : s' = set_device (fs_device s') (set_mallocs (mallocs s') s);
  st_good : good s';
  st_disk : disk s' = m;
  st_size : Device.block_size (fs_device s') = Device.block_size (fs_device s) }.

Lemma good_sized s : good s -> sized (disk s).
Proof. intros Hg n bs. by apply Device.content_ok. Qed.

Lemma good_range s n : good s -> is_Some (disk s !! n) -> 0 <= n < 2 ^ 32.
Proof. intros Hg Hn%Device.content_dom; [|done]. pose proof (Device.block_size_range _ Hg). lia. Qed.

Lemma stores_refl s : good s -> stores s (disk s) s.
Proof. split; [by destruct s|done..]. Qed.

Lemma stores_trans s1 m2 s2 m3 s3 : stores s1 m2 s2 -> stores s2 m3 s3 -> stores s1 m3 s3.
Proof.
  intros [E2 _ _ Z2] [E3 G3 D3 Z3]. split; [|done..|congruence]. rewrite E3. rewrite E2 at 1. done.
Qed.

Lemma stores_heap s m s' : stores s m s' -> heap s' = heap s.
Proof. intros [-> _ _ _]. done. Qed.

Lemma wp_read_sector s n bs Q : good s -> disk s !! n = Some bs ->
  (forall s', stores s (disk s) s' -> Q bs s') -> wp (read_sector n) Q s.
Proof.
  intros Hg Hn HQ. apply wp_zoom. eapply wp_mono; [by apply Device.block_read_ok|]. cbn. intros r d (->&?&?&?).
  apply HQ. split; done.
Qed.

Lemma wp_write_sector s n bs Q : good s -> is_Some (disk s !! n) -> Device.sector_ok bs ->
  (forall s', stores s (<[n := bs]> (disk s)) s' -> Q tt s') -> wp (write_sector n bs) Q s.
Proof.
  intros Hg Hn Hbs HQ. apply wp_zoom. eapply wp_mono; [by apply Device.block_write_ok|]. cbn. intros [] d (?&?&?).
  apply HQ. split; done.
Qed.

Lemma wp_malloc s n Q : good s ->
  (forall p s', stores s (disk s) s' -> p = NULL \/ p ∉ dom (heap s) -> (Device.Roomy -> p <> NULL) -> Q p s') ->
  wp (malloc n) Q s.
Proof.
  intros Hg HQ. unfold wp, malloc. apply HQ; [split; done|apply Device.alloc_fresh|]. intros Hr. apply Hr.
Qed.

Lemma wp_free s p Q : p = NULL \/ p ∉ dom (heap s) -> Q tt s -> wp (free p) Q s.
Proof.
  intros Hp HQ. unfold free. destruct (Z.eqb_spec p NULL); [by apply wp_ret|]. apply wp_modify.
  rewrite delete_id by (apply not_elem_of_dom; tauto). by destruct s.
Qed.

Lemma inode_at_eq s p i : heap s !! p = Some (OInode i) -> inode_at p s = Ok (i, s).
Proof. intros E. unfold inode_at. by rewrite E. Qed.

Lemma wp_inode_at s p i Q : heap s !! p = Some (OInode i) -> Q i s -> wp (inode_at p) Q s.
Proof. intros E HQ. unfold wp. by rewrite (inode_at_eq _ _ _ E). Qed.

(** ** The geometry of a chunk *)

Definition chunk_len (size offset len : Z) : Z := Z.min size (Z.min (len - offset) (512 - offset mod 512)).

Lemma min_if a b : (if a <? b then a else b) = Z.min a b.
Proof. destruct (Z.ltb_spec a b); lia. Qed.

Lemma chunk_eq s p i size offset :
  good s -> p <> NULL -> heap s !! p = Some (OInode i) -> extent (disk s) (data_start i) (data_length i) ->
  0 <= offset < 2 ^ 31 ->
  exists sector_idx, chunk p size offset s =
      Ok ((sector_idx, offset mod 512, 512 - offset mod 512, chunk_len size offset (data_length i)), s) /\
    (offset < data_length i -> sector_idx = data_start i + offset / 512 /\ is_Some (disk s !! sector_idx)).
Proof.
  intros Hg Hp Hi [? ? Hm] Ho. eexists. split.
  - unfold chunk, byte_to_sector, inode_length. rewrite (proj2 (Z.eqb_neq _ _) Hp). unfold bind, assert, ret. cbn [negb].
    rewrite (inode_at_eq _ _ _ Hi). cbv beta iota. rewrite (inode_at_eq _ _ _ Hi). cbv beta iota. rewrite Z.rem_mod_nonneg, wraps_small by (unfold in_s; lia). by rewrite !min_if.
  - intros Hlt. rewrite (proj2 (Z.ltb_lt _ _)) by done. rewrite Z.quot_div_nonneg by lia.
    assert (is_Some (disk s !! (data_start i + offset / 512))) as Hs by (apply Hm; unfold nsec; zlia).
    rewrite wrapu_small; [done|]. by apply (good_range s).
Qed.

(** ** Reading *)

(** The bytes a transfer moves unless memory runs out. *)
Definition full (size offset len : Z) : Z := Z.max 0 (Z.min size (len - offset)).

Lemma get_bytes_eq (bs : list Z) ofs n : 0 <= ofs -> 0 <= n -> ofs + n <= zlen bs ->
  get_bytes bs ofs n = Ok (take (Z.to_nat n) (drop (Z.to_nat ofs) bs)).
Proof. intros. unfold get_bytes. by rewrite !(proj2 (Z.leb_le _ _)) by done. Qed.

Lemma put_bytes_eq (bs : list Z) ofs new : 0 <= ofs -> ofs + zlen new <= zlen bs ->
  put_bytes bs ofs new = Ok (splice bs (Z.to_nat ofs) new).
Proof. intros. unfold put_bytes. by rewrite !(proj2 (Z.leb_le _ _)) by done. Qed.

Lemma sector_length s n bs : good s -> disk s !! n = Some bs -> zlen bs = 512.
Proof. intros Hg Hn. destruct (good_sized _ Hg _ _ Hn) as [-> _]. done. Qed.

(** A bounce buffer is allocated once. *)
Lemma wp_bounce s bounce Q : good s -> bounce = NULL \/ bounce ∉ dom (heap s) ->
  (forall b s', stores s (disk s) s' -> b = NULL \/ b ∉ dom (heap s) -> (Device.Roomy -> b <> NULL) -> Q b s') ->
  wp (if bounce =? NULL then malloc BLOCK_SECTOR_SIZE else ret bounce) Q s.
Proof.
  intros Hg Hb HQ. destruct (Z.eqb_spec bounce NULL) as [->|]; [by apply wp_malloc|].
  apply wp_ret, HQ; [by apply stores_refl|done..].
Qed.

(** What the loop still has to do, and what it returns. *)
Definition read_post s i (buffer : list Z) size offset br (r : Z * list Z * ptr) s' : Prop :=
  exists k, r.1.1 = br + k /\ 0 <= k <= full size offset (data_length i) /\
    (Device.Roomy -> k = full size offset (data_length i)) /\
    r.1.2 = splice buffer (Z.to_nat br) (bytes (disk s) (512 * data_start i + offset) k) /\
    stores s (disk s) s' /\ (r.2 = NULL \/ r.2 ∉ dom (heap s)).

Lemma read_post_done s s' i buffer size offset br b :
  stores s (disk s) s' -> b = NULL \/ b ∉ dom (heap s) ->
  (Device.Roomy -> full size offset (data_length i) = 0) ->
  read_post s i buffer size offset br (br, buffer, b) s'.
Proof.
  intros Hs Hb Hf. exists 0. cbn. split_and!; try done; [lia|unfold full; lia| |].
  - intros Hr. by rewrite Hf.
  - by rewrite bytes_nil, splice_nil by lia.
Qed.

Lemma read_post_step s s1 i buffer size offset br c r s' :
  0 < c <= full size offset (data_length i) -> 0 <= br -> br + size <= zlen buffer -> stores s (disk s) s1 ->
  read_post s1 i (splice buffer (Z.to_nat br) (bytes (disk s) (512 * data_start i + offset) c)) (size - c) (offset + c) (br + c) r s' ->
  read_post s i buffer size offset br r s'.
Proof.
  intros Hc Hbr Hl Hs1 (k&E1&Hk&Hr&E2&Hs'&Hb). rewrite (st_disk _ _ _ Hs1) in E2, Hs'. rewrite (stores_heap _ _ _ Hs1) in Hb.
  exists (c + k). unfold full in *. split_and!; [lia..| | |by eapply stores_trans|done].
  - intros ->%Hr. lia.
  - rewrite E2. replace (Z.to_nat (br + c)) with (Z.to_nat br + length (bytes (disk s) (512 * data_start i + offset) c))%nat
      by (rewrite bytes_length; lia).
    rewrite splice_app by (rewrite !bytes_length; lia). rewrite bytes_app by lia. by rewrite Z.add_assoc.
Qed.

Lemma read_loop_ok fuel s p i buffer size offset br bounce :
  good s -> p <> NULL -> heap s !! p = Some (OInode i) -> extent (disk s) (data_start i) (data_length i) ->
  0 <= offset < 2 ^ 31 -> 0 <= br -> br + size <= zlen buffer -> size < Z.of_nat fuel -> (0 < fuel)%nat ->
  bounce = NULL \/ bounce ∉ dom (heap s) ->
  wp (read_loop fuel p buffer size offset br bounce) (read_post s i buffer size offset br) s.
Proof.
  revert s buffer size offset br bounce. induction fuel as [|fuel IH]; [lia|].
  intros s buffer size offset br bounce Hg Hp Hi He Ho Hbr Hl Hf _ Hb. cbn [read_loop].
  destruct (Z.ltb_spec 0 size) as [Hsz|]; cbn [negb].
  2: { apply wp_ret. apply read_post_done; [by apply stores_refl|done|]. intros _. unfold full. lia. }
  destruct (chunk_eq s p i size offset Hg Hp Hi He Ho) as (n&Ec&Hn). apply wp_bind. unfold wp at 1. rewrite Ec. clear Ec.
  set (c := chunk_len size offset (data_length i)) in *. pose proof (Z.mod_pos_bound offset 512 ltac:(lia)).
  destruct (Z.leb_spec c 0) as [Hc|Hc].
  { apply wp_ret. apply read_post_done; [by apply stores_refl|done|]. intros _. unfold chunk_len, full in *. lia. }
  destruct Hn as [-> [bs Hn]]; [unfold chunk_len in *; lia|]. destruct He as [He1 He2 He3].
  assert (c <= full size offset (data_length i) /\ c <= size /\ offset mod 512 + c <= 512) as (Hcf&Hcs&Hco) by (unfold c, chunk_len, full; lia).
  pose proof (sector_length _ _ _ Hg Hn) as Hbs.
  pose proof (sector_bytes (disk s) _ bs (offset mod 512) c (good_sized _ Hg) Hn ltac:(lia) ltac:(lia) Hco) as Eb.
  replace (512 * (data_start i + offset / 512) + offset mod 512) with (512 * data_start i + offset) in Eb by zlia.
  assert (forall s1 b1, stores s (disk s) s1 -> b1 = NULL \/ b1 ∉ dom (heap s) ->
    wp (read_loop fuel p (splice buffer (Z.to_nat br) (bytes (disk s) (512 * data_start i + offset) c)) (size - c) (offset + c) (br + c) b1)
      (read_post s i buffer size offset br) s1) as Hadv.
  { intros s1 b1 Hs1 Hb1. eapply wp_mono; [eapply IH; rewrite ?(stores_heap _ _ _ Hs1), ?(st_disk _ _ _ Hs1); try done|].
    - by destruct Hs1.
    - unfold full in Hcf. lia.
    - lia.
    - rewrite splice_length by (rewrite bytes_length; lia). lia.
    - lia.
    - lia.
    - intros r s'. apply read_post_step; (done || lia). }
  assert (put_bytes buffer br (bytes (disk s) (512 * data_start i + offset) c) =
     Ok (splice buffer (Z.to_nat br) (bytes (disk s) (512 * data_start i + offset) c))) as Hput.
  { apply put_bytes_eq; [done|]. rewrite bytes_length. lia. }
  destruct ((offset mod 512 =? 0) && (c =? 512)) eqn:Ew.
  { apply andb_true_iff in Ew as [E0%Z.eqb_eq E5%Z.eqb_eq].
    apply wp_bind. eapply wp_read_sector; [done..|]. intros s1 Hs1. apply wp_bind, wp_lift.
    eexists. split; [|by apply Hadv]. rewrite <- Hput, <- Eb, E0, E5. cbn. rewrite drop_0, firstn_all2; [done|lia]. }
  apply wp_bind, wp_bounce; [done..|]. intros b s1 Hs1 Hb1 Hrb. destruct (Z.eqb_spec b NULL) as [->|].
  { apply wp_ret. apply read_post_done; [done..|]. intros []%Hrb. done. }
  pose proof (st_good _ _ _ Hs1). apply wp_bind. eapply wp_read_sector; [done|by rewrite (st_disk _ _ _ Hs1)|]. intros s2 Hs2.
  rewrite (st_disk _ _ _ Hs1) in Hs2.
  apply wp_bind, wp_lift. eexists. split; [apply get_bytes_eq; lia|]. apply wp_bind, wp_lift. rewrite Eb.
  eexists. split; [done|]. apply Hadv; [|done]. by eapply stores_trans.
Qed.

(** ** Writing *)

(** [n] bytes of a buffer. *)
Definition sub (bs : list Z) (ofs n : Z) : list Z := take (Z.to_nat n) (drop (Z.to_nat ofs) bs).

Lemma sub_length bs ofs n : 0 <= ofs -> 0 <= n -> ofs + n <= zlen bs -> zlen (sub bs ofs n) = n.
Proof. intros. unfold sub. rewrite length_take, length_drop. lia. Qed.

Lemma sub_app bs ofs n k : 0 <= ofs -> 0 <= n -> 0 <= k -> sub bs ofs (n + k) = sub bs ofs n ++ sub bs (ofs + n) k.
Proof.
  intros. unfold sub. rewrite Z2Nat.inj_add by lia. rewrite <- take_take_drop, drop_drop. do 3 f_equal. lia.
Qed.

Lemma sub_nil bs ofs : sub bs ofs 0 = [].
Proof. done. Qed.

Lemma sub_in_u bs ofs n : Forall (in_u 8) bs -> Forall (in_u 8) (sub bs ofs n).
Proof. intros. by apply Forall_take, Forall_drop. Qed.

Lemma splice_ok bs ofs new : Device.sector_ok bs -> Forall (in_u 8) new -> (ofs + length new <= 512)%nat -> Device.sector_ok (splice bs ofs new).
Proof.
  intros [Hl Hf] Hn ?. split; [by rewrite splice_length by lia|]. unfold splice.
  rewrite !Forall_app. split_and!; [by apply Forall_take|done|by apply Forall_drop].
Qed.

Lemma extent_wrote m a bs m' start len : wrote m a bs m' -> extent m start len -> extent m' start len.
Proof. intros [Hd _] [? ? Hm]. split; [done..|]. intros n ?. rewrite Hd. by apply Hm. Qed.

Definition write_post s i (buffer : list Z) size offset bw (r : Z * ptr) s' : Prop :=
  exists k m', r.1 = bw + k /\ 0 <= k <= full size offset (data_length i) /\
    (Device.Roomy -> k = full size offset (data_length i)) /\
    wrote (disk s) (512 * data_start i + offset) (sub buffer bw k) m' /\
    stores s m' s' /\ (r.2 = NULL \/ r.2 ∉ dom (heap s)).

Lemma write_post_done s s' i buffer size offset bw b :
  stores s (disk s) s' -> b = NULL \/ b ∉ dom (heap s) ->
  (Device.Roomy -> full size offset (data_length i) = 0) ->
  write_post s i buffer size offset bw (bw, b) s'.
Proof.
  intros Hs Hb Hf. exists 0, (disk s). cbn. split_and!; try done; [lia|unfold full; lia| |].
  - intros Hr. by rewrite Hf.
  - apply wrote_nil.
Qed.

Lemma write_post_step s s1 i buffer size offset bw c r s' m1 :
  0 < c <= full size offset (data_length i) -> 0 <= bw -> bw + size <= zlen buffer ->
  wrote (disk s) (512 * data_start i + offset) (sub buffer bw c) m1 -> stores s m1 s1 ->
  write_post s1 i buffer (size - c) (offset + c) (bw + c) r s' ->
  write_post s i buffer size offset bw r s'.
Proof.
  intros Hc Hbw Hl Hw1 Hs1 (k&m'&E1&Hk&Hr&Hw&Hs'&Hb). rewrite (st_disk _ _ _ Hs1) in Hw. rewrite (stores_heap _ _ _ Hs1) in Hb.
  exists (c + k), m'. unfold full in *. split_and!; [lia..| | |by eapply stores_trans|done].
  - intros ->%Hr. lia.
  - rewrite sub_app by lia. eapply wrote_app; [done|]. rewrite sub_length by lia. by rewrite <- Z.add_assoc.
Qed.

Lemma write_loop_ok fuel s p i buffer size offset bw bounce :
  good s -> p <> NULL -> heap s !! p = Some (OInode i) -> extent (disk s) (data_start i) (data_length i) ->
  0 <= offset < 2 ^ 31 -> 0 <= bw -> bw + size <= zlen buffer -> Forall (in_u 8) buffer ->
  size < Z.of_nat fuel -> (0 < fuel)%nat -> bounce = NULL \/ bounce ∉ dom (heap s) ->
  wp (write_loop fuel p buffer size offset bw bounce) (write_post s i buffer size offset bw) s.
Proof.
  revert s size offset bw bounce. induction fuel as [|fuel IH]; [lia|].
  intros s size offset bw bounce Hg Hp Hi He Ho Hbw Hl Hu Hf _ Hb. cbn [write_loop].
  destruct (Z.ltb_spec 0 size) as [Hsz|]; cbn [negb].
  2: { apply wp_ret. apply write_post_done; [by apply stores_refl|done|]. intros _. unfold full. lia. }
  destruct (chunk_eq s p i size offset Hg Hp Hi He Ho) as (n&Ec&Hn). apply wp_bind. unfold wp at 1. rewrite Ec. clear Ec.
  set (c := chunk_len size offset (data_length i)) in *. pose proof (Z.mod_pos_bound offset 512 ltac:(lia)).
  destruct (Z.leb_spec c 0) as [Hc|Hc].
  { apply wp_ret. apply write_post_done; [by apply stores_refl|done|]. intros _. unfold chunk_len, full in *. lia. }
  destruct Hn as [-> [bs Hn]]; [unfold chunk_len in *; lia|]. pose proof (ext_len _ _ _ He).
  assert (c <= full size offset (data_length i) /\ c <= size /\ offset mod 512 + c <= 512) as (Hcf&Hcs&Hco) by (unfold c, chunk_len, full; lia).
  pose proof (good_sized _ Hg _ _ Hn) as Hbs. pose proof (sub_length buffer bw c ltac:(lia) ltac:(lia) ltac:(lia)) as Hsl.
  pose proof (sub_in_u buffer bw c Hu) as Hsu.
  assert (forall s1 b1 m1, stores s m1 s1 -> wrote (disk s) (512 * data_start i + offset) (sub buffer bw c) m1 ->
    b1 = NULL \/ b1 ∉ dom (heap s) ->
    wp (write_loop fuel p buffer (size - c) (offset + c) (bw + c) b1) (write_post s i buffer size offset bw) s1) as Hadv.
  { intros s1 b1 m1 Hs1 Hw1 Hb1. eapply wp_mono; [eapply IH; rewrite ?(stores_heap _ _ _ Hs1), ?(st_disk _ _ _ Hs1); try done|].
    - by destruct Hs1.
    - by eapply extent_wrote.
    - unfold full in Hcf. lia.
    - lia.
    - lia.
    - lia.
    - lia.
    - intros r s'. eapply write_post_step; (done || lia). }
  destruct ((offset mod 512 =? 0) && (c =? 512)) eqn:Ew.
  - apply andb_true_iff in Ew as [E0%Z.eqb_eq E5%Z.eqb_eq]. apply wp_bind, wp_lift.
    exists (sub buffer bw c). split; [rewrite E5; apply get_bytes_eq; lia|].
    apply wp_bind, wp_write_sector; [done|by rewrite Hn|split; [lia|done]|]. intros s1 Hs1. eapply Hadv; [done| |done].
    replace (512 * data_start i + offset) with (512 * (data_start i + offset / 512)) by zlia. apply wrote_fresh; [by rewrite Hn|lia].
  - apply wp_bind, wp_bounce; [done..|]. intros b s1 Hs1 Hb1 Hrb. destruct (Z.eqb_spec b NULL) as [->|].
    { apply wp_ret. apply write_post_done; [done..|]. intros []%Hrb. done. }
    assert ((0 <? offset mod 512) || (c <? 512 - offset mod 512) = true) as ->.
    { apply orb_true_iff. rewrite !Z.ltb_lt. destruct (Z.eqb_spec (offset mod 512) 0) as [E0|], (Z.eqb_spec c 512); try done; lia. }
    pose proof (st_good _ _ _ Hs1). apply wp_bind. eapply wp_read_sector; [done|by rewrite (st_disk _ _ _ Hs1)|]. intros s2 Hs2.
    rewrite (st_disk _ _ _ Hs1) in Hs2.
    apply wp_bind, wp_lift. exists (sub buffer bw c). split; [apply get_bytes_eq; lia|]. apply wp_bind, wp_lift.
    eexists. split; [apply put_bytes_eq; [lia|destruct Hbs; lia]|].
    apply wp_bind, wp_write_sector; [by destruct Hs2|by rewrite (st_disk _ _ _ Hs2), Hn|apply splice_ok; [done..|lia]|].
    intros s3 Hs3. rewrite (st_disk _ _ _ Hs2) in Hs3. eapply Hadv; [by eapply stores_trans; [|eapply stores_trans]| |done].
    replace (512 * data_start i + offset) with (512 * (data_start i + offset / 512) + offset mod 512) by zlia.
    apply wrote_sector; [by apply good_sized|done|lia|lia].
Qed.

(** ** The readers-writers locks around a transfer *)

(** No transfer is under way. *)
Record idle i : Prop := Idle { idle_readers : current_readers i = 0; idle_w : writers_lock i = 1; idle_r : readers_lock i = 1 }.

Definition with_inode p i s : state dev := set_heap (<[p := OInode i]> (heap s)) s.

Lemma with_inode_id p i s : heap s !! p = Some (OInode i) -> with_inode p i s = s.
Proof. intros E. unfold with_inode. rewrite insert_id by done. by destruct s. Qed.

Lemma with_inode_heap p i s : heap (with_inode p i s) !! p = Some (OInode i).
Proof. apply lookup_insert_eq. Qed.

Lemma with_inode_twice p i j s : with_inode p i (with_inode p j s) = with_inode p i s.
Proof. unfold with_inode, set_heap. cbn. by rewrite insert_insert_eq. Qed.

Lemma wp_with_at p i s Q : Q i (with_inode p i s) -> wp (inode_at p) Q (with_inode p i s).
Proof. apply wp_inode_at, with_inode_heap. Qed.

Lemma wp_with_upd p i f s Q : Q tt (with_inode p (f i) s) -> wp (upd_inode p f) Q (with_inode p i s).
Proof.
  intros HQ. unfold upd_inode. apply wp_bind, wp_with_at. unfold put_obj. apply wp_modify.
  change (Q tt (with_inode p (f i) (with_inode p i s))). by rewrite with_inode_twice.
Qed.

Lemma wp_with_readers p i (m : M Z unit) v s Q : m (readers_lock i) = Ok (tt, v) ->
  Q tt (with_inode p (set_readers_lock v i) s) -> wp (on_readers_lock p m) Q (with_inode p i s).
Proof.
  intros E HQ. unfold on_readers_lock. apply wp_bind, wp_with_at, wp_bind, wp_lift. exists (tt, v). split; [done|].
  by apply wp_with_upd.
Qed.

Lemma wp_with_writers p i (m : M Z unit) v s Q : m (writers_lock i) = Ok (tt, v) ->
  Q tt (with_inode p (set_writers_lock v i) s) -> wp (on_writers_lock p m) Q (with_inode p i s).
Proof.
  intros E HQ. unfold on_writers_lock. apply wp_bind, wp_with_at, wp_bind, wp_lift. exists (tt, v). split; [done|].
  by apply wp_with_upd.
Qed.

Lemma stores_with p i s m s' : stores (with_inode p i s) m s' -> exists s2, s' = with_inode p i s2 /\ stores s m s2.
Proof.
  intros [E G D Z]. exists (set_heap (heap s) s'). unfold with_inode. rewrite E. split; [done|].
  split; [by destruct s|done..].
Qed.

Lemma dom_with p i s b : is_Some (heap s !! p) -> b ∉ dom (heap s) -> b ∉ dom (heap (with_inode p i s)).
Proof. intros [o Ho] Hb. cbn. rewrite dom_insert_L. assert (p ∈ dom (heap s)) by (by apply elem_of_dom; exists o). set_solver. Qed.

Lemma inode_read_at_ok s p i buffer size offset :
  good s -> p <> NULL -> heap s !! p = Some (OInode i) -> idle i -> extent (disk s) (data_start i) (data_length i) ->
  0 <= offset < 2 ^ 31 -> size <= zlen buffer ->
  wp (inode_read_at p buffer size offset) (fun r s' => exists k, r.1 = k /\ 0 <= k <= full size offset (data_length i) /\
    (Device.Roomy -> k = full size offset (data_length i)) /\
    r.2 = splice buffer 0 (bytes (disk s) (512 * data_start i + offset) k) /\ stores s (disk s) s') s.
Proof.
  intros Hg Hp Hi [Hr Hw Hl] He Ho Hs. pose proof (with_inode_id p i s Hi) as Es. rewrite <- Es at 1. unfold inode_read_at.
  apply wp_bind. eapply wp_with_readers; [by rewrite Hl|]. apply wp_bind, wp_with_at. cbn [current_readers set_readers_lock]. rewrite Hr. cbn [Z.eqb].
  apply wp_bind. eapply wp_with_writers; [cbn [writers_lock set_readers_lock]; by rewrite Hw|].
  apply wp_bind, wp_with_upd, wp_bind. eapply wp_with_readers; [done|].
  set (j := set_readers_lock _ _). assert (data_start j = data_start i /\ data_length j = data_length i) as [Ej1 Ej2] by done.
  apply wp_bind. eapply wp_mono.
  { apply (read_loop_ok _ (with_inode p j s) p j); [done|done|apply with_inode_heap|done|done|lia|lia|lia|lia|by left]. }
  intros [[n buf] b] s1 (k&Ek&Hk&Hkr&Eb&Hs1&Hb). cbn [fst snd] in Ek, Eb, Hb. apply stores_with in Hs1 as (s2&->&Hs2).
  change (disk (with_inode p j s)) with (disk s) in Eb, Hs2. rewrite Ej1 in Eb. rewrite Ej2 in Hk, Hkr.
  apply wp_bind, wp_free. { destruct Hb; [by left|right]. cbn. by rewrite (stores_heap _ _ _ Hs2). }
  apply wp_bind. eapply wp_with_readers; [done|]. apply wp_bind, wp_with_upd, wp_bind, wp_with_at.
  replace (current_readers _ =? 0) with true by (cbn; by rewrite Hr).
  apply wp_bind. eapply wp_with_writers; [done|]. apply wp_bind. eapply wp_with_readers; [done|]. apply wp_ret.
  exists k. split_and!; [done|lia|lia|done|done|]. cbn [sector open_cnt removed data current_readers writers_lock readers_lock set_readers set_readers_lock set_writers_lock].
  match goal with |- stores _ _ (with_inode p ?x s2) => replace x with i end.
  - rewrite with_inode_id; [done|]. by rewrite (stores_heap _ _ _ Hs2).
  - destruct i; cbn in *. subst. reflexivity.
Qed.

Lemma inode_write_at_ok s p i buffer size offset :
  good s -> p <> NULL -> heap s !! p = Some (OInode i) -> idle i -> extent (disk s) (data_start i) (data_length i) ->
  0 <= offset < 2 ^ 31 -> size <= zlen buffer -> Forall (in_u 8) buffer ->
  wp (inode_write_at p buffer size offset) (fun k s' => exists m', 0 <= k <= full size offset (data_length i) /\
    (Device.Roomy -> k = full size offset (data_length i)) /\
    wrote (disk s) (512 * data_start i + offset) (take (Z.to_nat k) buffer) m' /\ stores s m' s') s.
Proof.
  intros Hg Hp Hi [Hr Hw Hl] He Ho Hs Hu. pose proof (with_inode_id p i s Hi) as Es. rewrite <- Es at 1. unfold inode_write_at.
  apply wp_bind. eapply wp_with_writers; [by rewrite Hw|].
  set (j := set_writers_lock _ _). assert (data_start j = data_start i /\ data_length j = data_length i) as [Ej1 Ej2] by done.
  apply wp_bind. eapply wp_mono.
  { apply (write_loop_ok _ (with_inode p j s) p j); [done|done|apply with_inode_heap|done|done|lia|lia|done|lia|lia|by left]. }
  intros [n b] s1 (k&m'&Ek&Hk&Hkr&Hwr&Hs1&Hb). cbn [fst snd] in Ek, Hb. apply stores_with in Hs1 as (s2&->&Hs2).
  change (disk (with_inode p j s)) with (disk s) in Hwr. rewrite Ej1 in Hwr. rewrite Ej2 in Hk, Hkr.
  apply wp_bind, wp_free. { destruct Hb; [by left|right]. cbn. by rewrite (stores_heap _ _ _ Hs2). }
  apply wp_bind. eapply wp_with_writers; [done|]. apply wp_ret. subst n.
  exists m'. rewrite Z.add_0_l. unfold sub in Hwr. cbn [Z.to_nat drop] in Hwr. split_and!; [lia..|done|done|].
  match goal with |- stores _ _ (with_inode p ?x s2) => replace x with i end.
  - rewrite with_inode_id; [done|]. by rewrite (stores_heap _ _ _ Hs2).
  - destruct i; cbn in *. subst. reflexivity.
Qed.

(** ** Reads and writes of a file *)

Lemma bytes_sub m start len off k : 0 <= off -> 0 <= k -> off + k <= len ->
  bytes m (512 * start + off) k = sub (contents m start len) off k.
Proof.
  intros. unfold sub, contents. replace len with (off + (k + (len - off - k))) by lia.
  rewrite !bytes_app by lia. rewrite drop_app_length', take_app_length' by (rewrite bytes_length; lia). done.
Qed.

(** The sectors a write leaves alone. *)
Lemma wrote_sectors m start off bs m' len n : sized m -> sized m' -> wrote m (512 * start + off) bs m' ->
  0 <= off -> off + zlen bs <= len -> ~ start <= n < start + nsec len -> m' !! n = m !! n.
Proof.
  intros Hs Hs' Hw ?? Hn. apply disk_ext; [done..|by apply Hw|]. intros x Hx. rewrite (wrote_byte _ _ _ _ Hw), decide_False; [done|].
  unfold nsec in Hn. zlia.
Qed.

Lemma full_le size offset len : 0 <= offset -> 0 < full size offset len -> offset + full size offset len <= len.
Proof. unfold full. lia. Qed.

Lemma write_contents s s' m' start len off k buffer :
  good s -> stores s m' s' -> 0 <= off -> 0 <= k <= zlen buffer -> 0 < k -> off + k <= len ->
  wrote (disk s) (512 * start + off) (take (Z.to_nat k) buffer) m' ->
  contents (disk s') start len = splice (contents (disk s) start len) (Z.to_nat off) (take (Z.to_nat k) buffer) /\
  forall n, ~ start <= n < start + nsec len -> disk s' !! n = disk s !! n.
Proof.
  intros Hg Hs' ???? Hw. pose proof (st_disk _ _ _ Hs') as E. pose proof (good_sized _ (st_good _ _ _ Hs')) as Hs2. rewrite E in *.
  assert (zlen (take (Z.to_nat k) buffer) = k) as El by (rewrite length_take; lia). split.
  - unfold contents. erewrite wrote_splice by (done || lia). do 2 f_equal. lia.
  - intros n Hn. eapply (wrote_sectors _ start off _ _ len); [by apply good_sized|done|done|lia|lia|done].
Qed.

(** C36. An inode holds the bytes of its extent.  [inode_read_at] copies the part
    of them that [offset] and [size] ask for into the buffer, up to the end of the
    file, and changes nothing; [inode_write_at] replaces that part, never makes
    the file longer, and leaves every sector outside the extent as it was, and a
    read then returns what was written.  Both give up their locks.  They stop
    short of that only when no bounce buffer can be allocated. *)
Theorem inode_io_correct s p i buffer size offset :
  good s -> p <> NULL -> heap s !! p = Some (OInode i) -> idle i -> extent (disk s) (data_start i) (data_length i) ->
  0 <= offset < 2 ^ 31 -> 0 <= size <= zlen buffer -> Forall (in_u 8) buffer ->
  let file s := contents (disk s) (data_start i) (data_length i) in
  wp (inode_read_at p buffer size offset) (fun r s' => 0 <= r.1 <= full size offset (data_length i) /\
    (Device.Roomy -> r.1 = full size offset (data_length i)) /\
    r.2 = splice buffer 0 (sub (file s) offset r.1) /\ stores s (disk s) s') s /\
  wp (inode_write_at p buffer size offset) (fun k s' => 0 <= k <= full size offset (data_length i) /\
    (Device.Roomy -> k = full size offset (data_length i)) /\
    stores s (disk s') s' /\
    file s' = splice (file s) (Z.to_nat offset) (take (Z.to_nat k) buffer) /\
    (forall n, ~ data_start i <= n < data_start i + nsec (data_length i) -> disk s' !! n = disk s !! n) /\
    (Device.Roomy -> forall old, length old = length buffer ->
      wp (inode_read_at p old k offset) (fun r _ => r = (k, splice old 0 (take (Z.to_nat k) buffer))) s')) s.
Proof.
  intros Hg Hp Hi Hid He Ho Hs Hu file. split.
  - eapply wp_mono; [apply (inode_read_at_ok s p i); (done || lia)|]. intros [n buf] s' (k&E&Hk&Hr&Hb&Hst). cbn in *. subst n.
    split_and!; [lia|lia|done| |done]. destruct (decide (k = 0)) as [->|]; [done|].
    rewrite Hb. f_equal. apply bytes_sub; [lia..|]. pose proof (full_le size offset (data_length i)). lia.
  - eapply wp_mono; [apply (inode_write_at_ok s p i); (done || lia)|]. intros k s' (m'&Hk&Hr&Hw&Hst).
    pose proof (st_disk _ _ _ Hst) as Ed.
    assert (file s' = splice (file s) (Z.to_nat offset) (take (Z.to_nat k) buffer) /\
      forall n, ~ data_start i <= n < data_start i + nsec (data_length i) -> disk s' !! n = disk s !! n) as [Hf Hn].
    { destruct (decide (k = 0)) as [->|Hk0].
      - cbn in Hw |- *. rewrite splice_nil. assert (m' = disk s) as Em.
        { apply map_eq. intros n. apply disk_ext; [by apply good_sized|rewrite <- Ed; by apply good_sized, Hst|by apply Hw|].
          intros x _. rewrite (wrote_byte _ _ _ _ Hw), decide_False; [done|simpl; lia]. }
        unfold file. rewrite Ed, Em. done.
      - pose proof (full_le size offset (data_length i)). apply (write_contents s s' m'); (done || unfold full in *; lia). }
    split_and!; [lia|lia|done|by rewrite Ed|done|done|]. intros Hroom old Ho'.
    assert (zlen (take (Z.to_nat k) buffer) = k) as El by (rewrite length_take; unfold full in *; lia).
    eapply wp_mono; [apply (inode_read_at_ok s' p i); try done|].
    + apply Hst.
    + by rewrite (stores_heap _ _ _ Hst).
    + rewrite Ed. by eapply extent_wrote.
    + unfold full in *. lia.
    + intros [n buf] s2 (k'&E&Hk'&Hr'&Hb&_). cbn in E, Hb. subst n buf. assert (k' = k) as -> by (rewrite (Hr' Hroom); rewrite (Hr Hroom); unfold full; lia).
      rewrite Ed. do 2 f_equal. apply list_eq. intros x. rewrite bytes_lookup, (wrote_byte _ _ _ _ Hw), El.
      case_decide; [rewrite decide_True by lia|symmetry; apply lookup_ge_None; lia].
      replace (Z.to_nat _) with x by lia. destruct (lookup_lt_is_Some_2 (take (Z.to_nat k) buffer) x) as [y Hy]; [lia|].
      by rewrite Hy, (nth_lookup_some _ _ _ Hy).
Qed.
End proofs.

(** The first file of the example partition: 100 bytes in its only sector. *)
#[local] Existing Instance Device.bump.
Definition demo_inode : inode := Inode 0 1 false (encode_inode 0 100 INODE_MAGIC) 0 1 1.
Definition demo_state : state Block.state :=
  St Block.demo {[10 := OInode demo_inode]} [10] (Bitmap.Bitmap.Bm 0 []) NULL None None None 0.

Lemma demo_good : good (H := Block.block_device 2) demo_state.
Proof.
  destruct Block.demo_table_wf as [Hw Ev]. split; [exact Hw|]. exists 1, (1 + 0). change (Block.lies (Block.view Block.demo) true 2 1 (1 + 0)).
  rewrite Ev. eapply Block.lies_part; [done|done|]. by eapply Block.lies_disk.
Qed.

Lemma inode_io_correct_witness :
  wp (inode_write_at (H := Block.block_device 2) 10 [1; 2; 3] 3 5) (fun k s' => k = 3) demo_state.
Proof.
  pose proof demo_good as Hg.
  assert (extent (disk (H := Block.block_device 2) demo_state) (data_start demo_inode) (data_length demo_inode)) as He.
  { split; [vm_compute; done..|]. intros n Hn. apply (Device.content_dom (Device := Block.block_device 2) Block.demo n Hg).
    change (@Device.block_size _ (Block.block_device 2) Block.demo) with 1. change (data_start demo_inode) with 0 in Hn. change (nsec _) with 1 in Hn. lia. }
  destruct (inode_io_correct (H := Block.block_device 2) demo_state 10 demo_inode [1; 2; 3] 3 5 Hg) as [_ H];
    [done|done|by split|exact He|lia|simpl; lia|by repeat constructor|].
  eapply wp_mono; [exact H|]. cbn beta. intros k s' (_&Hk&_). by rewrite (Hk Device.bump_roomy).
Defined.
End FsInode.
