(* ===== verification/FsLocks.v ===== *)
(** * Readers and writers of one inode: filesys/inode.c

    Any number of threads transfer data to and from one inode at the same
    time, and are interleaved at every statement of the protocol that
    [inode_read_at] and [inode_write_at] follow around the transfer.  The
    semaphores are those of synch.c: [sema_down] waits until the value is
    positive. *)

From S2P Require Import Prelude.
Local Open Scope Z_scope.

Module FsLocks.

(** What a thread is about to do. *)
Inductive pc :=
  | Idle      (** not in a transfer *)
  | REnter    (** sema_down (&inode->readers_lock) *)
  | RFirst    (** if (current_readers == 0) sema_down (&inode->writers_lock) *)
  | RCount    (** current_readers++ *)
  | RLeave    (** sema_up (&inode->readers_lock) *)
  | Reading   (** the loop that reads *)
  | RExit     (** sema_down (&inode->readers_lock) *)
  | RUncount  (** current_readers-- *)
  | RLast     (** if (current_readers == 0) sema_up (&inode->writers_lock) *)
  | RDone     (** sema_up (&inode->readers_lock); return *)
  | WEnter    (** sema_down (&inode->writers_lock) *)
  | Writing   (** the loop that writes; sema_up (&inode->writers_lock); return *).

#[export] Instance pc_eq_dec : EqDecision pc.
Proof. solve_decision. Defined.

Record inode := Inode { current_readers : Z; writers_lock : Z; readers_lock : Z }.

(** One statement of a thread; [None] when it has to wait. *)
Definition exec (i : inode) (c : pc) : option (inode * pc) :=
  let '(Inode n w r) := i in
  match c with
  | Idle => None
  | REnter => if 0 <? r then Some (Inode n w (r - 1), RFirst) else None
  | RFirst => if n =? 0 then if 0 <? w then Some (Inode n (w - 1) r, RCount) else None else Some (i, RCount)
  | RCount => Some (Inode (u32 (n + 1)) w r, RLeave)
  | RLeave => Some (Inode n w (r + 1), Reading)
  | Reading => Some (i, RExit)
  | RExit => if 0 <? r then Some (Inode n w (r - 1), RUncount) else None
  | RUncount => Some (Inode (u32 (n - 1)) w r, RLast)
  | RLast => Some (if n =? 0 then Inode n (w + 1) r else i, RDone)
  | RDone => Some (Inode n w (r + 1), Idle)
  | WEnter => if 0 <? w then Some (Inode n (w - 1) r, Writing) else None
  | Writing => Some (Inode n (w + 1) r, Idle)
  end.

(** The inode and the threads. *)
Abbreviation config := (inode * list pc)%type.

Inductive step : config -> config -> Prop :=
  | step_read i l t : l !! t = Some Idle -> step (i, l) (i, <[t := REnter]> l)
  | step_write i l t : l !! t = Some Idle -> step (i, l) (i, <[t := WEnter]> l)
  | step_exec i l t c i' c' :
      l !! t = Some c -> exec i c = Some (i', c') -> step (i, l) (i', <[t := c']> l).

(** [inode_open] initializes both semaphores to 1. *)
Definition initial (threads : nat) : config := (Inode 0 1 1, replicate threads Idle).

Definition reachable (threads : nat) (s : config) : Prop := rtc step (initial threads) s.

(** ** The invariant *)

Definition count (P : pc -> bool) (l : list pc) : Z := Z.of_nat (length (filter (fun c => P c = true) l)).

Definition at_count (c : pc) : bool := match c with RCount => true | _ => false end.
Definition at_last (c : pc) : bool := match c with RLast => true | _ => false end.
Definition writing (c : pc) : bool := match c with Writing => true | _ => false end.
(** The threads that hold [readers_lock], and those that [current_readers]
    counts. *)
Definition locked (c : pc) : bool :=
  match c with RFirst | RCount | RLeave | RUncount | RLast | RDone => true | _ => false end.
Definition counted (c : pc) : bool :=
  match c with RLeave | Reading | RExit | RUncount => true | _ => false end.

(** The readers as a group hold [writers_lock]. *)
Definition group (i : inode) (l : list pc) : Z :=
  if (0 <? current_readers i) || (0 <? count at_count l) || (0 <? count at_last l) then 1 else 0.

Record inv (threads : nat) (s : config) : Prop := Inv {
  inv_len : length s.2 = threads;
  inv_readers : current_readers s.1 = count counted s.2;
  inv_mutex : readers_lock s.1 = 1 - count locked s.2;
  inv_mutex_pos : 0 <= readers_lock s.1;
  inv_writers : writers_lock s.1 = 1 - count writing s.2 - group s.1 s.2;
  inv_writers_pos : 0 <= writers_lock s.1 }.

Lemma count_nil P : count P [] = 0.
Proof. done. Qed.

Lemma tally_cons P c l : count P (c :: l) = Z.b2z (P c) + count P l.
Proof. unfold count. rewrite filter_cons. case_decide as E; destruct (P c); simpl; (done || lia). Qed.

Lemma count_pos P l : 0 <= count P l.
Proof. unfold count. lia. Qed.

Lemma count_le P l : count P l <= Z.of_nat (length l).
Proof. unfold count. pose proof (length_filter (fun c => P c = true) l). lia. Qed.

Lemma count_insert P l t c c' : l !! t = Some c -> count P (<[t := c']> l) = count P l - Z.b2z (P c) + Z.b2z (P c').
Proof.
  revert t. induction l as [|d l IH]; intros [|t] H; try done; simpl in *; rewrite !tally_cons.
  - injection H as ->. lia.
  - rewrite (IH _ H). lia.
Qed.

Lemma count_mem P l t c : l !! t = Some c -> P c = true -> 0 < count P l.
Proof.
  intros Ht Hc. unfold count. destruct (filter (fun c => P c = true) l) eqn:E; [|simpl; lia].
  assert (c ∈ filter (fun c => P c = true) l) as H by (apply list_elem_of_filter; split; [done|by eapply list_elem_of_lookup_2]).
  rewrite E in H. by apply elem_of_nil in H.
Qed.

Lemma count_exists P l : 0 < count P l -> exists t c, l !! t = Some c /\ P c = true.
Proof.
  unfold count. intros H. destruct (filter (fun c => P c = true) l) as [|c l'] eqn:E; [simpl in H; lia|].
  assert (c ∈ filter (fun c => P c = true) l) as Hc by (rewrite E; by left).
  apply list_elem_of_filter in Hc as [? [t ?]%list_elem_of_lookup]. eauto.
Qed.

Lemma count_zero P threads : P Idle = false -> count P (replicate threads Idle) = 0.
Proof. intros H. induction threads as [|n IH]; [done|]. simpl. by rewrite tally_cons, H, IH. Qed.

Lemma initial_inv threads : inv threads (initial threads).
Proof.
  split; cbn; [apply length_replicate|..]; unfold group; rewrite ?count_zero by done; done.
Qed.

Lemma group_spec i l :
  (group i l = 1 /\ (0 < current_readers i \/ 0 < count at_count l \/ 0 < count at_last l)) \/
  (group i l = 0 /\ current_readers i <= 0 /\ count at_count l <= 0 /\ count at_last l <= 0).
Proof.
  unfold group. destruct (Z.ltb_spec 0 (current_readers i)), (Z.ltb_spec 0 (count at_count l)), (Z.ltb_spec 0 (count at_last l)); simpl; lia.
Qed.

Lemma count_locked l : count at_count l + count at_last l <= count locked l.
Proof. induction l as [|c l IH]; [done|]. rewrite !tally_cons. destruct c; cbn; lia. Qed.

Lemma inv_move threads i l t c i' c' :
  Z.of_nat threads < UINT_MAX -> inv threads (i, l) -> l !! t = Some c ->
  exec i c = Some (i', c') \/ (c = Idle /\ i' = i /\ (c' = REnter \/ c' = WEnter)) ->
  inv threads (i', <[t := c']> l).
Proof.
  intros Hn [Hl Hr Hm Hmp Hw Hwp] Ht He. cbn [fst snd] in *.
  pose proof (count_le counted l). pose proof (count_pos counted l). pose proof (count_pos locked l).
  pose proof (count_pos at_count l). pose proof (count_pos at_last l). pose proof (count_pos writing l).
  assert (forall P, P c = true -> 0 < count P l) as Hin by (intros P; by eapply count_mem).
  pose proof (Hin counted) as Hc1. pose proof (Hin locked) as Hc2. pose proof (Hin at_count) as Hc3.
  pose proof (Hin at_last) as Hc4. pose proof (Hin writing) as Hc5. clear Hin.
  pose proof (count_locked l). pose proof (group_spec i l) as G. pose proof (group_spec i' (<[t := c']> l)) as G'.
  rewrite !(count_insert _ l t c c' Ht) in G'.
  assert (length (<[t := c']> l) = threads) by (by rewrite length_insert).
  pose proof (fun P => count_insert P l t c c' Ht) as Ci. clear Ht. destruct i as [n w r]; cbn [current_readers writers_lock readers_lock] in *.
  destruct He as [He|(->&->&[-> | ->])]; [destruct c; cbn [exec] in He|..]; repeat case_match; simplify_eq;
    rewrite ?wrapu_small in * by (unfold in_u; cbn in *; lia).
  all: split; cbn [fst snd]; rewrite ?Ci; cbn [current_readers writers_lock readers_lock] in *; try done; cbn in *; lia.
Qed.

Lemma reachable_inv threads s : Z.of_nat threads < UINT_MAX -> reachable threads s -> inv threads s.
Proof.
  intros Hn H. pose proof (initial_inv threads) as Hi. unfold reachable in H. revert Hi.
  induction H as [|s1 s2 s3 Hs _ IH]; [done|]. intros Hi. apply IH.
  destruct Hs as [i l t Ht|i l t Ht|i l t c i' c' Ht He]; eapply inv_move; eauto 6.
Qed.

(** The thread that holds [readers_lock] can go on. *)
Lemma locked_runs threads i l t c :
  inv threads (i, l) -> count writing l = 0 -> l !! t = Some c -> locked c = true -> is_Some (exec i c).
Proof.
  intros [_ Hr Hm Hmp Hw Hwp] Hwr Ht Hc. cbn [fst snd] in *. pose proof (group_spec i l) as G. pose proof (count_locked (<[t := Idle]> l)) as Hcl.
  rewrite !(count_insert _ l t c Idle Ht) in Hcl. generalize dependent (group i l). intros g Hw G.
  destruct c; try done; destruct i as [n w r]; cbn in *; repeat case_match; try (by eexists).
  pose proof (count_pos at_count l). pose proof (count_pos at_last l). exfalso. lia.
Qed.

Lemma not_writing l : (forall t, l !! t <> Some Writing) -> count writing l = 0.
Proof.
  intros H. destruct (Z.eq_dec (count writing l) 0) as [|Hne]; [done|]. pose proof (count_pos writing l).
  destruct (count_exists writing l) as (t&c&Ht&Hc); [lia|]. destruct c; try done. by destruct (H t).
Qed.

(** C37. However the threads are interleaved, a thread that writes the inode is
    alone: nobody else writes or reads; and the protocol cannot deadlock: as long
    as some thread is in a transfer, one of those threads can take a step. *)
Theorem readers_writers_exclusion threads i l :
  Z.of_nat threads < UINT_MAX -> reachable threads (i, l) ->
  (forall t, l !! t = Some Writing -> forall u c, l !! u = Some c -> u <> t -> c <> Writing /\ c <> Reading) /\
  ((exists t c, l !! t = Some c /\ c <> Idle) ->
    exists t c, l !! t = Some c /\ c <> Idle /\ is_Some (exec i c)).
Proof.
  intros Hn Hr%reachable_inv; [|done]. pose proof Hr as [_ Hcr Hm Hmp Hw Hwp]. cbn [fst snd] in *. pose proof (group_spec i l) as G.
  pose proof (count_pos counted l). split.
  - intros t Ht u c Hu Hne. pose proof (count_mem writing l t Writing Ht eq_refl). split; intros ->.
    + pose proof (count_insert writing l t Writing Idle Ht) as E. cbn in E.
      pose proof (count_mem writing (<[t := Idle]> l) u Writing ltac:(by rewrite list_lookup_insert_ne) eq_refl). lia.
    + pose proof (count_mem counted l u Reading Hu eq_refl). lia.
  - intros (t&c&Ht&Hc).
    destruct (decide (Exists (fun c => c = Writing \/ c = Reading) l)) as [(c'&[u Hu]%list_elem_of_lookup&Hc')%Exists_exists|Hno].
    { exists u, c'. split_and!; [done|destruct Hc'; by subst|]. destruct i, Hc'; subst; eauto. }
    assert (forall c', c' = Writing \/ c' = Reading -> forall u, l !! u <> Some c') as Hno'.
    { intros c' Hc' u Hu. apply Hno, Exists_exists. exists c'. split; [by eapply list_elem_of_lookup_2|done]. }
    pose proof (not_writing l (Hno' Writing ltac:(by left))) as Hnw.
    destruct (decide (0 < count locked l)) as [(u&c'&Hu&Hc')%count_exists|Hnl].
    { exists u, c'. split_and!; [done|by intros ->|]. by eapply locked_runs. }
    pose proof (count_pos locked l).
    destruct (decide (0 < count counted l)) as [(u&c'&Hu&Hc')%count_exists|Hnc].
    { exists u, c'. destruct c'; try done.
      - destruct Hnl. by eapply count_mem.
      - exfalso. eapply (Hno' Reading); [by right|done].
      - split_and!; [done..|]. destruct i as [n w r]. cbn in *. rewrite (proj2 (Z.ltb_lt _ _)) by lia. eauto.
      - destruct Hnl. by eapply count_mem. }
    exists t, c. split_and!; [done..|]. pose proof (count_locked l). pose proof (count_pos at_count l). pose proof (count_pos at_last l).
    destruct i as [n w r]. cbn in *.
    destruct c; try done; rewrite ?(proj2 (Z.ltb_lt _ _)) by lia; repeat case_match; eauto; lia.
Qed.

(** A writer at work, and a reader that waits for it. *)
Lemma readers_writers_exclusion_witness :
  exec (Inode 0 0 0) RFirst = None /\
  exists t c, [RFirst; Writing] !! t = Some c /\ c <> Idle /\ is_Some (exec (Inode 0 0 0) c).
Proof.
  assert (reachable 2 (Inode 0 0 0, [RFirst; Writing])) as H.
  { eapply rtc_l; [by apply (step_write _ _ 1)|]. cbn. eapply rtc_l; [by eapply (step_exec _ _ 1)|]. cbn.
    eapply rtc_l; [by apply (step_read _ _ 0)|]. cbn. eapply rtc_l; [by eapply (step_exec _ _ 0)|]. cbn. apply rtc_refl. }
  split; [done|]. apply (readers_writers_exclusion 2 (Inode 0 0 0) [RFirst; Writing] ltac:(lia) H). by exists 0%nat, RFirst.
Defined.
End FsLocks.
