(* ===== verification/Directory.v ===== *)
(** * Directories and the file system: filesys/directory.c, filesys/filesys.c

    A directory is a file of 20-byte entries.  The routines of string.c run on
    a memory that holds the strings they are called with. *)

From S2P Require Import Prelude.
From S2P Require Import Mem.
From S2P Require Import Words.
From S2P Require Import CString.
From S2P Require Import Device.
From S2P Require Import Fs.
Local Open Scope Z_scope.

Module Directory.
Import Mem Words Fs.

(** ** struct dir_entry *)

Abbreviation NAME_MAX := 14%Z.
(** sizeof (struct dir_entry): a sector number, 15 characters, a flag. *)
Abbreviation ENTRY_SIZE := 20%Z.

Definition e_sector (e : list Z) : Z := le (take 4 e).
Definition e_name (e : list Z) : list Z := take 15 (drop 4 e).
Definition e_in_use (e : list Z) : bool := negb (nth 19 e 0 =? 0).

(** ** Strings in memory *)

(** A memory that holds the two blocks [a] and [b], and their addresses. *)
Abbreviation ARG1 := 4096%Z.
Definition arg2 (a : list Z) : ptr := ARG1 + zlen a.
Definition args (a b : list Z) : mem := write (write ∅ ARG1 a) (arg2 a) b.

(** [strcmp (name, e.name)]; what follows the name in the entry is the flag. *)
Definition strcmp (name e : list Z) : res Z :=
  let a := name ++ [0] in
  let? (r, _) := CString.strcmp ARG1 (arg2 a) (args a (drop 4 e)) in Ok r.

(** [strlcpy (dst, src, size)], [src] being the bytes from the source on: the
    buffer afterwards. *)
Definition strlcpy (dst src : list Z) (size : Z) : res (list Z) :=
  let? (_, m) := CString.strlcpy (arg2 src) ARG1 size (args src dst) in
  Ok ((fun k => default 0 (m !! k)) <$> seqZ (arg2 src) (zlen dst)).

(** The stores to the fields of an entry. *)
Definition set_in_use (b : bool) (e : list Z) : list Z := splice e 19 [if b then 1 else 0].
Definition set_name (nm e : list Z) : list Z := splice e 4 nm.
Definition set_sector (n : Z) (e : list Z) : list Z := splice e 0 (le32 n).

Section code.
Context {dev : Type} `{!Device.Device dev} `{!Device.Allocator} (cur : Z).
Implicit Types (s : state dev) (p : ptr).

(** ** directory.c

    A local [struct dir_entry] starts as zeros in the model; no routine uses
    what it holds before it is read into. *)

Definition dir_init : M (state dev) unit := modify (set_dir_lock None).

Definition dir_create (sector entry_cnt : Z) : M (state dev) bool :=
  inode_create cur sector (s32 (entry_cnt * ENTRY_SIZE)).

(** sizeof (struct dir) is 8. *)
Definition dir_open (inode : ptr) : M (state dev) ptr :=
  let! d := malloc 8 in
  if negb (inode =? NULL) && negb (d =? NULL) then
    do! put_obj d (ODir (File inode 0)) in ret d
  else
    do! inode_close cur inode in
    do! free d in
    ret NULL.

Definition dir_open_root : M (state dev) ptr := let! p := inode_open cur ROOT_DIR_SECTOR in dir_open p.

Definition dir_reopen (d : ptr) : M (state dev) ptr :=
  let! dd := dir_at d in let! p := inode_reopen (f_inode dd) in dir_open p.

Definition dir_close (d : ptr) : M (state dev) unit :=
  if d =? NULL then ret tt else
  let! dd := dir_at d in
  do! inode_close cur (f_inode dd) in
  free d.

Definition dir_get_inode (d : ptr) : M (state dev) ptr := let! dd := dir_at d in ret (f_inode dd).

(** The loop of [lookup].  A directory has fewer than 2^31 bytes, so the
    offset passes its end within [fuel] iterations. *)
Fixpoint lookup_loop (fuel : nat) p (name : list Z) (e : list Z) (ofs : Z) : M (state dev) (option (list Z * Z)) :=
  match fuel with
  | O => fail EFuel
  | S fuel' =>
      let! (n, e) := inode_read_at p e ENTRY_SIZE ofs in
      if n =? ENTRY_SIZE then
        let! hit := if e_in_use e then let! r := lift_res (strcmp name e) in ret (r =? 0) else ret false in
        if (hit : bool) then ret (Some (e, ofs)) else lookup_loop fuel' p name e (ofs + ENTRY_SIZE)
      else ret None
  end.

(** Iterations enough to read every entry and the end of the file. *)
Definition entry_fuel p : M (state dev) nat :=
  let! len := inode_length p in ret (S (S (Z.to_nat (len / ENTRY_SIZE)))).

(** [lookup]: the entry and its offset. *)
Definition lookup (d : ptr) (name : list Z) : M (state dev) (option (list Z * Z)) :=
  do! assert (negb (d =? NULL)) in
  let! dd := dir_at d in
  let! fuel := entry_fuel (f_inode dd) in
  lookup_loop fuel (f_inode dd) name (replicate 20 0) 0.

(** [dir_lookup]: the inode, null when it returns false. *)
Definition dir_lookup (d : ptr) (name : list Z) : M (state dev) ptr :=
  do! assert (negb (d =? NULL)) in
  let! r := lookup d name in
  match r with
  | Some (e, _) => inode_open cur (e_sector e)
  | None => ret NULL
  end.

(** The search for a free slot; what the last read left in [e] is kept. *)
Fixpoint slot_loop (fuel : nat) p (e : list Z) (ofs : Z) : M (state dev) (list Z * Z) :=
  match fuel with
  | O => fail EFuel
  | S fuel' =>
      let! (n, e) := inode_read_at p e ENTRY_SIZE ofs in
      if n =? ENTRY_SIZE then
        if negb (e_in_use e) then ret (e, ofs) else slot_loop fuel' p e (s32 (ofs + ENTRY_SIZE))
      else ret (e, ofs)
  end.

Definition dir_add (d : ptr) (name : list Z) (inode_sector : Z) : M (state dev) bool :=
  do! assert (negb (d =? NULL)) in
  do! on_dir_lock (lock_acquire cur) in
  if match name with [] => true | _ => false end || (NAME_MAX <? zlen name) then ret false else
  let! found := lookup d name in
  let! success :=
    match found with
    | Some _ => ret false
    | None =>
        let! dd := dir_at d in
        let! fuel := entry_fuel (f_inode dd) in
        let! (e, ofs) := slot_loop fuel (f_inode dd) (replicate 20 0) 0 in
        let e := set_in_use true e in
        let! nm := lift_res (strlcpy (e_name e) (name ++ [0]) (NAME_MAX + 1)) in
        let e := set_sector inode_sector (set_name nm e) in
        let! n := inode_write_at (f_inode dd) e ENTRY_SIZE ofs in
        ret (n =? ENTRY_SIZE)
    end in
  do! on_dir_lock (lock_release cur) in
  ret success.

Definition dir_remove (d : ptr) (name : list Z) : M (state dev) bool :=
  do! assert (negb (d =? NULL)) in
  do! on_dir_lock (lock_acquire cur) in
  let! found := lookup d name in
  let! (inode, success) :=
    match found with
    | None => ret (NULL, false)
    | Some (e, ofs) =>
        let! inode := inode_open cur (e_sector e) in
        if inode =? NULL then ret (NULL, false) else
        let e := set_in_use false e in
        let! dd := dir_at d in
        let! n := inode_write_at (f_inode dd) e ENTRY_SIZE ofs in
        if negb (n =? ENTRY_SIZE) then ret (inode, false) else
        do! inode_remove cur inode in
        ret (inode, true)
    end in
  do! inode_close cur inode in
  do! on_dir_lock (lock_release cur) in
  ret success.

(** The loop of [dir_readdir]. *)
Fixpoint readdir_loop (fuel : nat) (d : ptr) (name e : list Z) : M (state dev) (option (list Z)) :=
  match fuel with
  | O => fail EFuel
  | S fuel' =>
      let! dd := dir_at d in
      let! (n, e) := inode_read_at (f_inode dd) e ENTRY_SIZE (pos dd) in
      if n =? ENTRY_SIZE then
        do! put_obj d (ODir (File (f_inode dd) (s32 (pos dd + ENTRY_SIZE)))) in
        if e_in_use e then
          let! nm := lift_res (strlcpy name (drop 4 e) (NAME_MAX + 1)) in ret (Some nm)
        else readdir_loop fuel' d name e
      else ret None
  end.

(** [dir_readdir]: the caller's buffer [name] when it returns true. *)
Definition dir_readdir (d : ptr) (name : list Z) : M (state dev) (option (list Z)) :=
  let! dd := dir_at d in
  let! fuel := entry_fuel (f_inode dd) in
  readdir_loop fuel d name (replicate 20 0).

(** ** filesys.c *)

(** [do_format] *)
Definition do_format : M (state dev) unit :=
  do! free_map_create cur in
  let! ok := dir_create ROOT_DIR_SECTOR 16 in
  if negb ok then fail EPanic else
  free_map_close cur.

(** [filesys_init]: [device] is what [block_get_role (BLOCK_FILESYS)] returns,
    [storage] what is in the array of the bitmap. *)
Definition filesys_init (device : ptr) (storage : list Z) (format : bool) : M (state dev) unit :=
  if device =? NULL then fail EPanic else
  do! inode_init in
  do! free_map_init storage in
  do! dir_init in
  do! (if format then do_format else ret tt) in
  free_map_open cur.

Definition filesys_done : M (state dev) unit := free_map_close cur.

Definition filesys_create (name : list Z) (initial_size : Z) : M (state dev) bool :=
  let! dir := dir_open_root in
  let! (success, inode_sector) :=
    if dir =? NULL then ret (false, 0) else
    let! r := free_map_allocate cur 1 in
    match r with
    | None => ret (false, 0)
    | Some inode_sector =>
        let! ok := inode_create cur inode_sector initial_size in
        let! ok := if (ok : bool) then dir_add dir name inode_sector else ret false in
        ret (ok, inode_sector)
    end in
  do! (if negb success && negb (inode_sector =? 0) then free_map_release cur inode_sector 1 else ret tt) in
  do! dir_close dir in
  ret success.

Definition filesys_open (name : list Z) : M (state dev) ptr :=
  let! dir := dir_open_root in
  let! inode := if negb (dir =? NULL) then dir_lookup dir name else ret NULL in
  do! dir_close dir in
  file_open cur inode.

Definition filesys_remove (name : list Z) : M (state dev) bool :=
  let! dir := dir_open_root in
  let! success := if negb (dir =? NULL) then dir_remove dir name else ret false in
  do! dir_close dir in
  ret success.
End code.
End Directory.
