(* ===== verification/FsMap.v ===== *)
(** * The free map and its file

    What [free_map_allocate] and [free_map_release] make of the bitmap in
    memory and of its copy on disk. *)

From S2P Require Import Prelude.
From S2P Require Import Mem.
From S2P Require Import Words.
From S2P Require Import Bitmap.
From S2P Require Import Device.
From S2P Require Import Block.
From S2P Require Import Fs.
From S2P Require Import FsInode.
Local Open Scope Z_scope.

Module FsMap.
Import Mem Words Fs FsInode.

(** ** Words and bytes *)

Lemma words_length ws : length (words_bytes ws) = (4 * length ws)%nat.
Proof. unfold words_bytes. induction ws as [|w ws IH]; [done|]. cbn. unfold words_bytes in IH. rewrite IH. lia. Qed.

Lemma words_in_u ws : Forall (in_u 8) (words_bytes ws).
Proof. unfold words_bytes. induction ws as [|w ws IH]; [constructor|]. rewrite bind_cons. apply Forall_app. split; [apply le32_bytes|done]. Qed.

Lemma words_round ws : Forall (in_u 32) ws -> bytes_words (length ws) (words_bytes ws) = ws.
Proof.
  induction 1 as [|w ws Hw _ IH]; [done|]. unfold words_bytes in *. rewrite bind_cons. cbn [length bytes_words].
  rewrite take_app_length' by done. rewrite drop_app_length' by done. by rewrite IH, le_le32.
Qed.

Lemma byte_cnt_small b : Bitmap.wf b -> Bitmap.byte_cnt (Bitmap.bit_cnt b) = 4 * zlen (Bitmap.bits b) /\ 4 * zlen (Bitmap.bits b) < 2 ^ 31.
Proof.
  intros [Hc Hl _]. unfold Bitmap.byte_cnt. rewrite <- Hl. unfold Bitmap.elem_cnt, Bitmap.ELEM_BITS in Hl.
  rewrite wrapu_small in Hl by (unfold in_u; lia). split; [apply wrapu_small; unfold in_u; zlia|zlia].
Qed.

(** [m'] differs from [m] at most in the sectors [A]. *)
Definition frame (A : Z -> Prop) (m m' : disk_map) : Prop :=
  (forall n, is_Some (m' !! n) <-> is_Some (m !! n)) /\ forall n, ~ A n -> m' !! n = m !! n.

Lemma frame_refl A m : frame A m m.
Proof. done. Qed.

Lemma frame_trans A m1 m2 m3 : frame A m1 m2 -> frame A m2 m3 -> frame A m1 m3.
Proof. intros [D1 F1] [D2 F2]. split; [intros; by rewrite D2, D1|]. intros n Hn. by rewrite F2, F1. Qed.

Lemma frame_mono (A B : Z -> Prop) m m' : (forall n, A n -> B n) -> frame A m m' -> frame B m m'.
Proof. intros H [D F]. split; [done|]. intros n Hn. apply F. auto. Qed.

(** The data sectors of a file. *)
Definition in_extent (start len n : Z) : Prop := start <= n < start + nsec len.

Lemma frame_byte A m m' x : frame A m m' -> ~ A (x / 512) -> byte m' x = byte m x.
Proof. intros [_ F] Hn. unfold byte. by rewrite F. Qed.

Lemma frame_contents A m m' start len : frame A m m' -> (forall n, in_extent start len n -> ~ A n) -> contents m' start len = contents m start len.
Proof. intros F H. apply bytes_ext. intros x Hx. eapply frame_byte; [done|]. apply H. unfold in_extent, nsec. zlia. Qed.

Lemma frame_extent A m m' start len : frame A m m' -> extent m start len -> extent m' start len.
Proof. intros [D _] [? ? H]. split; [done..|]. intros n Hn. apply D. by apply H. Qed.

Section proofs.
Context {dev : Type} `{!Device.Device dev} `{!Device.Allocator} (cur : Z).
Implicit Types (s : state dev) (p : ptr) (i : inode).

(** The open file of the free map: its inode is [i], at address [p]. *)
Record map_file s p i : Prop := MapFile {
  mf_file : exists k, heap s !! free_map_file s = Some (OFile (File p k));
  mf_null : free_map_file s <> NULL;
  mf_inode : heap s !! p = Some (OInode i);
  mf_p : p <> NULL;
  mf_idle : idle i;
  mf_extent : extent (disk s) (data_start i) (data_length i);
  mf_len : data_length i = Bitmap.byte_cnt (Bitmap.bit_cnt (free_map s)) }.

(** The copy on disk is the bitmap in memory. *)
Definition saved s i : Prop := contents (disk s) (data_start i) (data_length i) = words_bytes (Bitmap.bits (free_map s)).

Lemma wp_file_at s f fl Q : heap s !! f = Some (OFile fl) -> Q fl s -> wp (file_at f) Q s.
Proof. intros E HQ. unfold wp, file_at. by rewrite E. Qed.

Lemma stores_wrote_frame s m' s' start len bs : good s -> stores s m' s' -> 0 <= zlen bs <= len -> 0 < zlen bs \/ bs = [] ->
  wrote (disk s) (512 * start) bs m' -> frame (in_extent start len) (disk s) m'.
Proof.
  intros Hg Hs Hl _ Hw. split; [apply Hw|]. intros n Hn. rewrite <- (Z.add_0_r (512 * start)) in Hw.
  eapply (wrote_sectors _ start 0 _ _ len); [by apply good_sized| |done|lia|lia|done].
  rewrite <- (st_disk _ _ _ Hs). apply good_sized, Hs.
Qed.

Lemma bitmap_write_ok s p i :
  good s -> Bitmap.wf (free_map s) -> map_file s p i ->
  wp (bitmap_write (free_map_file s)) (fun ok s' => exists m', stores s m' s' /\
    frame (in_extent (data_start i) (data_length i)) (disk s) m' /\
    (Device.Roomy -> ok = true) /\ (ok = true -> saved s' i)) s.
Proof.
  intros Hg Hb [[k Hf] Hn Hi Hp Hid He Hl]. destruct (byte_cnt_small _ Hb) as [Ec Hc].
  assert (zlen (words_bytes (Bitmap.bits (free_map s))) = data_length i) as Ew by (rewrite words_length; lia).
  unfold bitmap_write. wp_go. rewrite wraps_small by (unfold in_s; lia).
  unfold file_write_at. apply wp_bind. eapply wp_file_at; [done|]. cbn [f_inode].
  eapply wp_mono; [apply (inode_write_at_ok s p i); [done..|lia|lia|apply words_in_u]|].
  intros n s' (m'&Hk&Hr&Hw&Hs'). rewrite <- Hl in *. rewrite Z.add_0_r in Hw.
  assert (full (data_length i) 0 (data_length i) = data_length i) as Ef by (unfold full; destruct He; lia). rewrite Ef in *.
  apply wp_ret. exists m'. split; [done|]. split_and!.
  - eapply stores_wrote_frame; [done..| | |done]; rewrite length_take; [lia|]. destruct (decide (n = 0)) as [->|]; [by right|left; lia].
  - intros ->%Hr. apply Z.eqb_refl.
  - intros ->%Z.eqb_eq. unfold saved. rewrite (st_disk _ _ _ Hs').
    assert (free_map s' = free_map s) as -> by (by rewrite (st_eq _ _ _ Hs')).
    rewrite firstn_all2 in Hw by lia. unfold contents. rewrite (wrote_splice _ _ _ _ _ _ Hw) by lia.
    unfold splice. replace (Z.to_nat _) with 0%nat by lia. rewrite drop_ge by (rewrite bytes_length; lia). by rewrite app_nil_r.
Qed.

(** ** Allocation and release *)

Definition map_known s : Prop := free_map_file s = NULL \/ exists p i, map_file s p i.
Definition map_sectors s (n : Z) : Prop := exists p i, map_file s p i /\ in_extent (data_start i) (data_length i) n.

Lemma map_file_unique s p i p' i' : map_file s p i -> map_file s p' i' -> p' = p /\ i' = i.
Proof. intros [[k Hf] _ Hi _ _ _ _] [[k' Hf'] _ Hi' _ _ _ _]. rewrite Hf in Hf'. simplify_eq. done. Qed.

(** What matters for the map file besides the map itself. *)
Lemma map_file_ext s s' p i : heap s' = heap s -> free_map_file s' = free_map_file s ->
  Bitmap.bit_cnt (free_map s') = Bitmap.bit_cnt (free_map s) -> (forall n, is_Some (disk s' !! n) <-> is_Some (disk s !! n)) ->
  map_file s p i -> map_file s' p i.
Proof.
  intros Eh Ef Eb Ed [Hf Hn Hi Hp Hid [? ? He] Hl]. split; rewrite ?Eh, ?Ef, ?Eb; try done.
  split; [done..|]. intros n Hn'. apply Ed. by apply He.
Qed.

(** The same with other objects changed. *)
Lemma map_file_heap s s' p i : heap s' !! free_map_file s = heap s !! free_map_file s -> heap s' !! p = heap s !! p ->
  free_map_file s' = free_map_file s -> Bitmap.bit_cnt (free_map s') = Bitmap.bit_cnt (free_map s) ->
  (forall n, is_Some (disk s' !! n) <-> is_Some (disk s !! n)) -> map_file s p i -> map_file s' p i.
Proof.
  intros Eh Ep Ef Eb Ed [Hf Hn Hi Hp Hid [? ? He] Hl]. split; rewrite ?Ef, ?Eb, ?Eh, ?Ep; try done.
  split; [done..|]. intros n Hn'. apply Ed. by apply He.
Qed.

Lemma wp_map_acquire s Q : free_map_lock s = None -> Q tt (set_free_map_lock (Some cur) s) -> wp (on_free_map_lock (lock_acquire cur)) Q s.
Proof. intros E HQ. apply wp_zoom. rewrite E. by apply wp_lock_acquire. Qed.

Lemma wp_map_release s Q : free_map_lock s = Some cur -> Q tt (set_free_map_lock None s) -> wp (on_free_map_lock (lock_release cur)) Q s.
Proof. intros E HQ. apply wp_zoom. rewrite E. by apply wp_lock_release. Qed.

(** The lock is given up again. *)
Lemma stores_map_lock s b m s2 : free_map_lock s = None -> stores (set_map b (set_free_map_lock (Some cur) s)) m s2 ->
  free_map_lock s2 = Some cur /\ stores (set_map b s) m (set_free_map_lock None s2).
Proof.
  intros El [E G D Z]. rewrite E. split; [done|]. destruct s; cbn in *. subst. split; [|done..]. done.
Qed.

Lemma stores_set_map s m s' b' : stores s m s' -> stores (set_map b' s) m (set_map b' s').
Proof. intros [E G D Z]. rewrite E. split; done. Qed.

(** A run of free sectors was taken, or nothing was. *)
Definition no_run (b : Bitmap.bitmap) cnt : Prop :=
  forall k, 0 <= k -> k + cnt <= Bitmap.bit_cnt b -> ~ Bitmap.group b false k cnt.
Definition allocated (b : Bitmap.bitmap) cnt (r : option Z) b' : Prop :=
  match r with
  | Some n => 0 <= n /\ n + cnt <= Bitmap.bit_cnt b /\ Bitmap.group b false n cnt /\ Bitmap.group_set b n cnt true b'
  | None => Bitmap.wf b' /\ Bitmap.bit_cnt b' = Bitmap.bit_cnt b /\
      (forall j, 0 <= j -> Bitmap.bit b' j = Bitmap.bit b j) /\ (Device.Roomy -> b' = b /\ no_run b cnt)
  end.

Lemma free_map_allocate_ok s cnt :
  good s -> Bitmap.wf (free_map s) -> free_map_lock s = None -> map_known s -> 0 <= cnt ->
  wp (free_map_allocate cur cnt) (fun r s' => exists b' m', stores (set_map b' s) m' s' /\ allocated (free_map s) cnt r b' /\
    frame (map_sectors s) (disk s) m' /\
    (forall p i, map_file s p i -> is_Some r -> saved s' i) /\ (r = None -> Device.Roomy -> m' = disk s)) s.
Proof.
  intros Hg Hb Hl Hk Hc. unfold free_map_allocate. apply wp_bind, wp_map_acquire; [done|].
  set (s0 := set_free_map_lock (Some cur) s). assert (stores (set_map (free_map s) s0) (disk s) s0) as Hs0 by (split; done).
  destruct (Bitmap.scan_and_flip_eq (free_map s) 0 cnt false Hb) as (idx&b1&Esf&Hsf); [split; [lia|apply Hb]|done|].
  apply wp_bind, wp_zoom. change (free_map s0) with (free_map s). unfold wp at 1. rewrite Esf. clear Esf. apply wp_bind, wp_gets.
  change (free_map_file (set_map b1 s0)) with (free_map_file s).
  assert (forall r sec b' m' s2, stores (set_map b' s0) m' s2 -> allocated (free_map s) cnt r b' -> frame (map_sectors s) (disk s) m' ->
    (forall p i, map_file s p i -> is_Some r -> saved s2 i) -> (r = None -> Device.Roomy -> m' = disk s) ->
    r = (if negb (sec =? Bitmap.BITMAP_ERROR) then Some sec else None) ->
    wp (do! on_free_map_lock (lock_release cur) in ret (if negb (sec =? Bitmap.BITMAP_ERROR) then Some sec else None))
      (fun r s' => exists b' m', stores (set_map b' s) m' s' /\ allocated (free_map s) cnt r b' /\ frame (map_sectors s) (disk s) m' /\
        (forall p i, map_file s p i -> is_Some r -> saved s' i) /\ (r = None -> Device.Roomy -> m' = disk s)) s2) as Hend.
  { intros r sec b' m' s2 Hs2 Ha Hf Hsv Hro Er. destruct (stores_map_lock _ _ _ _ Hl Hs2) as [El2 Hs2'].
    apply wp_bind, wp_map_release; [done|]. apply wp_ret. exists b', m'. rewrite <- Er. done. }
  destruct Hsf as [(Hne&Hi0&Hi1&Hgr&_&Hset)|(->&->&Hno)].
  2: { cbn [negb andb Z.eqb Pos.eqb]. rewrite Z.eqb_refl. cbn [negb andb]. apply wp_bind, wp_ret.
       eapply (Hend None); [exact Hs0| |apply frame_refl|by intros ? ? ? []|done|by rewrite Z.eqb_refl]. cbn. done. }
  rewrite (proj2 (Z.eqb_neq _ _) Hne). cbn [negb andb].
  destruct (Z.eqb_spec (free_map_file s) NULL) as [En|En]; cbn [negb].
  { apply wp_bind, wp_ret. eapply (Hend (Some idx)); [by apply (stores_set_map _ _ _ b1) in Hs0|done|apply frame_refl| |done|by rewrite (proj2 (Z.eqb_neq _ _) Hne)].
    intros p i []. done. }
  destruct Hk as [?|(p&i&Hm)]; [done|]. destruct Hset as (Hwf1&Hcnt1&Hbits1).
  assert (map_file (set_map b1 s0) p i) as Hm1 by (eapply map_file_ext; [..|exact Hm]; done).
  apply wp_bind, wp_bind. eapply wp_mono; [by apply (bitmap_write_ok (set_map b1 s0) p i)|]. intros ok s2 (m'&Hs2&Hf&Hr&Hsv).
  change (disk (set_map b1 s0)) with (disk s) in Hf.
  assert (frame (map_sectors s) (disk s) m') as Hf' by (eapply frame_mono; [|done]; intros n Hn; by exists p, i).
  destruct ok; cbn [negb].
  - apply wp_ret. eapply (Hend (Some idx)); [exact Hs2|done|done| |done|by rewrite (proj2 (Z.eqb_neq _ _) Hne)].
    intros p' i' Hm' _. destruct (map_file_unique _ _ _ _ _ Hm Hm') as [-> ->]. by apply Hsv.
  - apply wp_bind, wp_zoom. assert (free_map s2 = b1) as -> by (by rewrite (st_eq _ _ _ Hs2)).
    eapply wp_mono; [apply Bitmap.wp_bitmap_set_multiple; [done|lia|lia|lia]|]. intros _ b2 (Hwf2&Hcnt2&Hbits2). apply wp_ret.
    eapply (Hend None); [by apply (stores_set_map _ _ _ b2) in Hs2| |done|by intros ? ? ? []|by intros _ ?%Hr|by rewrite Z.eqb_refl].
    cbn. split_and!; [done|lia| |by intros ?%Hr]. intros j Hj. rewrite Hbits2, Hbits1 by done.
    destruct ((idx <=? j) && (j <? idx + cnt)) eqn:E; [|done]. symmetry. apply Hgr. lia.
Qed.

Lemma free_map_release_ok s p i sec cnt :
  good s -> Bitmap.wf (free_map s) -> free_map_lock s = None -> map_file s p i ->
  0 <= sec -> 0 <= cnt -> sec + cnt <= Bitmap.bit_cnt (free_map s) -> Bitmap.group (free_map s) true sec cnt ->
  wp (free_map_release cur sec cnt) (fun _ s' => exists b' m', stores (set_map b' s) m' s' /\
    Bitmap.group_set (free_map s) sec cnt false b' /\ frame (map_sectors s) (disk s) m' /\ (Device.Roomy -> saved s' i)) s.
Proof.
  intros Hg Hb Hl Hm Hsec Hc Hn Hgr. unfold free_map_release. apply wp_bind, wp_map_acquire; [done|].
  set (s0 := set_free_map_lock (Some cur) s). assert (stores (set_map (free_map s) s0) (disk s) s0) as Hs0 by (split; done).
  apply wp_bind, wp_zoom. change (free_map s0) with (free_map s). unfold Bitmap.bitmap_all.
  destruct (Bitmap.bitmap_contains_eq (free_map s) sec cnt false Hb Hsec Hc Hn) as (r&Er&Hr).
  assert (r = false) as -> by (destruct r; [|done]; destruct Hr as (j&Hj&Ej); by rewrite (Hgr j Hj) in Ej).
  apply wp_bind. unfold wp at 1. rewrite Er. apply wp_ret. apply wp_bind, wp_assert. split; [done|].
  apply wp_bind, wp_zoom. cbn [free_map set_map]. eapply wp_mono; [by apply Bitmap.wp_bitmap_set_multiple|]. intros [] b' Hset.
  pose proof Hset as (Hwf'&Hcnt'&_). wp_go.
  assert (map_file (set_map b' (set_map (free_map s) s0)) p i) as Hm1 by (eapply map_file_ext; [..|exact Hm]; done).
  eapply wp_mono; [by apply (bitmap_write_ok (set_map b' (set_map (free_map s) s0)) p i)|]. intros ok s2 (m'&Hs2&Hf&Hrm&Hsv).
  destruct (stores_map_lock s b' m' s2 Hl Hs2) as [El2 Hs2']. apply wp_map_release; [done|].
  exists b', m'. split_and!; [done|done| |by intros ?%Hrm%Hsv]. eapply frame_mono; [|done]. intros n ?. by exists p, i.
Qed.
End proofs.
End FsMap.
