(* ===== verification/FsDir.v ===== *)
(** * Directories as finite maps

    The entries of a directory file, the map from names to inode sectors they
    stand for, and what [lookup], [dir_add] and [dir_readdir] make of it. *)

From S2P Require Import Prelude.
From S2P Require Import Mem.
From S2P Require Import Words.
From S2P Require Import CString.
From S2P Require Import Device.
From S2P Require Import Fs.
From S2P Require Import FsInode.
From S2P Require Import FsMap.
From S2P Require Import Directory.
Local Open Scope Z_scope.

Module FsDir.
Import Mem Words Fs FsInode FsMap Directory.

(** ** Names *)

(** The string at the start of a block. *)
Fixpoint cstr (bs : list Z) : list Z :=
  match bs with [] => [] | b :: bs' => if b =? 0 then [] else b :: cstr bs' end.

Definition name_of (e : list Z) : list Z := cstr (e_name e).

(** A C string: characters that are not null. *)
Definition string_ok (nm : list Z) : Prop := Forall (fun c => 0 < c < 256) nm /\ zlen nm < 2 ^ 31.

Lemma cstr_split bs : 0 ∈ bs -> exists t, bs = cstr bs ++ 0 :: t.
Proof.
  induction bs as [|b bs IH]; [by intros ?%elem_of_nil|]. intros H. cbn. destruct (Z.eqb_spec b 0) as [->|Hb]; [by exists bs|].
  destruct IH as [t Ht]; [set_solver|]. exists t. cbn. by f_equal.
Qed.

Lemma cstr_zero bs : 0 ∉ cstr bs.
Proof. induction bs as [|b bs IH]; cbn; [by intros ?%elem_of_nil|]. case_match eqn:E; [by intros ?%elem_of_nil|]. apply Z.eqb_neq in E. set_solver. Qed.

Lemma cstr_app nm t : 0 ∉ nm -> cstr (nm ++ 0 :: t) = nm.
Proof.
  induction nm as [|c nm IH]; [done|]. intros [? ?]%not_elem_of_cons. cbn. rewrite (proj2 (Z.eqb_neq c 0)) by done.
  f_equal. by apply IH.
Qed.

Lemma string_zero nm : string_ok nm -> 0 ∉ nm.
Proof. intros [Hf _] H. rewrite Forall_forall in Hf. specialize (Hf _ H). lia. Qed.

Lemma string_bytes nm : string_ok nm -> Forall (in_u 8) (nm ++ [0]).
Proof.
  intros [Hf _]. apply Forall_app. split; [|by repeat constructor]. eapply Forall_impl; [exact Hf|]. intros c Hc. cbn in Hc. unfold in_u. lia.
Qed.

(** ** The string routines on an entry *)

Section memory.
Context (a b : list Z).
Hypothesis (Ha : Forall (in_u 8) a) (Hb : Forall (in_u 8) b) (Hl : zlen a + zlen b < 2 ^ 31 + 64).

Lemma args_first : bytes_at (args a b) ARG1 a.
Proof. unfold args. apply write_frame; [unfold arg2; lia|]. by apply write_bytes_at. Qed.

Lemma args_second : bytes_at (args a b) (arg2 a) b.
Proof. unfold args. by apply write_bytes_at. Qed.

Lemma args_ok : mem_ok (args a b).
Proof.
  intros q x. unfold args. rewrite !lookup_write. unfold arg2. repeat case_decide; intros; (lia || done).
Qed.
End memory.

Lemma str_at_bytes m p bs s t : bytes_at m p bs -> bs = s ++ 0 :: t -> 0 ∉ s -> str_at m p s.
Proof. intros Hb -> ?. apply str_bytes. split; [|done]. rewrite cons_middle, app_assoc in Hb. by apply bytes_at_app in Hb as [? _]. Qed.

(** Entries are 20 bytes, and a name is terminated within its field. *)
Record entry_ok (e : list Z) : Prop := EntryOk {
  eo_len : length e = 20%nat;
  eo_bytes : Forall (in_u 8) e;
  eo_term : e_in_use e = true -> 0 ∈ e_name e }.

Lemma name_of_drop e : 0 ∈ e_name e -> exists t, drop 4 e = name_of e ++ 0 :: t.
Proof.
  intros [t Ht]%cstr_split. exists (t ++ drop 15 (drop 4 e)). rewrite <- (take_drop 15 (drop 4 e)) at 1.
  fold (e_name e). rewrite Ht at 1. unfold name_of. by rewrite <- app_assoc.
Qed.

Lemma strcmp_ok nm e : string_ok nm -> length e = 20%nat -> Forall (in_u 8) e -> 0 ∈ e_name e ->
  strcmp nm e = Ok (CString.lex nm (name_of e)).
Proof.
  intros Hnm Hl Hb Ht. destruct (name_of_drop e Ht) as [t Et]. pose proof (string_bytes nm Hnm) as Hnb.
  assert (Forall (in_u 8) (drop 4 e)) as Hb' by (by apply Forall_drop).
  assert (zlen (nm ++ [0]) + zlen (drop 4 e) < 2 ^ 31 + 64) as Hlen
    by (rewrite length_app, length_drop, Hl; destruct Hnm; simpl; lia).
  unfold strcmp. rewrite (CString.strcmp_eq (args (nm ++ [0]) (drop 4 e)) ARG1 (arg2 (nm ++ [0])) nm (name_of e)).
  - done.
  - by apply args_ok.
  - eapply str_at_bytes; [by apply args_first|done|by apply string_zero].
  - eapply str_at_bytes; [by apply args_second|exact Et|apply cstr_zero].
Qed.

Lemma strcmp_eq_zero nm e : string_ok nm -> length e = 20%nat -> Forall (in_u 8) e -> 0 ∈ e_name e ->
  exists r, strcmp nm e = Ok r /\ (r =? 0) = bool_decide (name_of e = nm).
Proof.
  intros. eexists. split; [by apply strcmp_ok|]. apply eq_true_iff_eq. rewrite Z.eqb_eq, bool_decide_eq_true, CString.lex_zero. naive_solver.
Qed.

(** [strlcpy] into a name field. *)
Lemma strlcpy_ok dst src s t : length dst = 15%nat -> Forall (in_u 8) dst -> Forall (in_u 8) src -> zlen src < 2 ^ 31 ->
  src = s ++ 0 :: t -> 0 ∉ s -> (length s <= 14)%nat ->
  strlcpy dst src 15 = Ok (splice dst 0 (s ++ [0])).
Proof.
  intros Hd Hdb Hsb Hsl Es H0 Hs. unfold strlcpy.
  assert (CString.clipped s (Z.to_nat 15) = s ++ [0]) as Ec by (unfold CString.clipped; by rewrite firstn_all2 by lia).
  assert (zlen (s ++ [0]) <= 15) as Hc by (rewrite length_app; simpl; lia).
  assert (zlen s + 1 <= zlen src) as Hss by (rewrite Es, length_app; simpl; lia).
  rewrite (CString.strlcpy_eq (args src dst) (arg2 src) ARG1 s 15).
  - cbn [rbind Z.ltb Z.compare Pos.compare]. rewrite Ec. f_equal. apply list_eq. intros i.
    rewrite list_lookup_fmap. destruct (decide (i < 15)%nat).
    + rewrite lookup_seqZ_lt by lia. cbn [fmap option_fmap option_map]. rewrite lookup_write. change (splice dst 0 (s ++ [0])) with ((s ++ [0]) ++ drop (0 + length (s ++ [0])) dst).
      case_decide.
      * rewrite (lookup_app_l (s ++ [0])) by lia. replace (Z.to_nat _) with i by lia.
        destruct (lookup_lt_is_Some_2 (s ++ [0]) i) as [x Hx]; [lia|]. by rewrite Hx.
      * rewrite (lookup_app_r (s ++ [0])), lookup_drop by lia. unfold args. rewrite lookup_write, decide_True by lia.
        replace (Z.to_nat _) with i by lia. replace (0 + length (s ++ [0%Z]) + (i - length (s ++ [0%Z])))%nat with i by lia.
        destruct (lookup_lt_is_Some_2 dst i) as [x Hx]; [lia|]. by rewrite Hx.
    + rewrite lookup_seqZ_ge by lia. symmetry. apply lookup_ge_None. rewrite splice_length by lia. lia.
  - apply args_ok. lia.
  - eapply str_at_bytes; [by apply args_first|exact Es|done].
  - done.
  - unfold arg2. lia.
  - intros _. rewrite Ec. split; [|right; unfold arg2; lia]. intros q Hq. unfold args. rewrite lookup_write, decide_True by lia.
    apply lookup_lt_is_Some_2. lia.
Qed.

(** ** The entries of a directory file *)

Definition entries (f : list Z) : list (list Z) := (fun k => sub f (20 * k) 20) <$> seqZ 0 (zlen f / 20).

Lemma entries_lookup f k : entries f !! k = if decide (20 * (Z.of_nat k + 1) <= zlen f) then Some (sub f (20 * Z.of_nat k) 20) else None.
Proof.
  unfold entries. rewrite list_lookup_fmap. case_decide.
  - rewrite lookup_seqZ_lt by zlia. done.
  - rewrite lookup_seqZ_ge by zlia. done.
Qed.

Definition is_name (nm e : list Z) : Prop := e_in_use e = true /\ name_of e = nm.
#[export] Instance is_name_dec nm e : Decision (is_name nm e).
Proof. unfold is_name. apply _. Defined.

Section proofs.
Context {dev : Type} `{!Device.Device dev} `{!Device.Allocator} {Hroom : Device.Roomy} (cur : Z).
Implicit Types (s : state dev) (p : ptr) (i : inode) (f : list Z).

(** The open inode [p] holds the directory file [f]. *)
Record dir_file s p i f : Prop := DirFile {
  df_good : good s;
  df_null : p <> NULL;
  df_inode : heap s !! p = Some (OInode i);
  df_idle : idle i;
  df_extent : extent (disk s) (data_start i) (data_length i);
  df_contents : contents (disk s) (data_start i) (data_length i) = f;
  df_entries : Forall entry_ok (entries f) }.

Lemma df_len s p i f : dir_file s p i f -> zlen f = data_length i /\ zlen f < 2 ^ 31.
Proof. intros [? ? ? ? [? ? ?] <- ?]. unfold contents. rewrite bytes_length. lia. Qed.

Lemma dir_file_stores s s' p i f : stores s (disk s) s' -> dir_file s p i f -> dir_file s' p i f.
Proof.
  intros Hs [? ? ? ? ? ? ?]. split; rewrite ?(st_disk _ _ _ Hs), ?(stores_heap _ _ _ Hs); try done. by apply Hs.
Qed.

Lemma read_entry_ok s p i f e k : dir_file s p i f -> length e = 20%nat -> 20 * Z.of_nat k < 2 ^ 31 ->
  wp (inode_read_at p e ENTRY_SIZE (20 * Z.of_nat k)) (fun r s' => stores s (disk s) s' /\ length r.2 = 20%nat /\
    match entries f !! k with
    | Some d => r = (20, d) /\ entry_ok d
    | None => (r.1 =? ENTRY_SIZE) = false
    end) s.
Proof.
  intros Hd He Hk. pose proof (df_len _ _ _ _ Hd) as [El Hl]. pose proof Hd as [Hg Hp Hi Hid Hx Hc Hes].
  eapply wp_mono; [apply (inode_read_at_ok s p i); (done || lia)|]. intros [n buf] s' (j&E&Hj&Hr&Hb&Hst). cbn [fst snd] in *. subst n buf.
  rewrite (Hr Hroom) in *. rewrite entries_lookup. split; [done|]. unfold full in *.
  split; [rewrite splice_length; [done|rewrite bytes_length; lia]|]. case_decide as Hcase.
  - replace (Z.max 0 _) with 20 by lia. split.
    + f_equal. rewrite (bytes_sub _ _ (data_length i)) by lia. rewrite Hc. unfold splice.
      rewrite drop_ge by (unfold sub; rewrite length_take, length_drop; lia). by rewrite app_nil_r.
    + rewrite Forall_lookup in Hes. apply (Hes k). by rewrite entries_lookup, decide_True.
  - apply Z.eqb_neq. lia.
Qed.

Lemma lookup_loop_ok fuel s p i f nm e k :
  dir_file s p i f -> string_ok nm -> length e = 20%nat -> (k <= length (entries f))%nat -> (length (entries f) - k < fuel)%nat ->
  wp (lookup_loop fuel p nm e (20 * Z.of_nat k)) (fun r s' => stores s (disk s) s' /\
    r = (fun x : nat * list Z => (x.2, 20 * Z.of_nat (k + x.1))) <$> list_find (is_name nm) (drop k (entries f))) s.
Proof.
  revert s e k. induction fuel as [|fuel IH]; [lia|]. intros s e k Hd Hnm He Hk Hf. cbn [lookup_loop].
  pose proof (df_len _ _ _ _ Hd) as [_ Hl].
  assert (20 * Z.of_nat k < 2 ^ 31) by (unfold entries in Hk; rewrite length_fmap, length_seqZ in Hk; zlia).
  apply wp_bind. eapply wp_mono; [by apply (read_entry_ok s p i f e k)|]. intros [n d] s1 (Hs1&Hl1&Hm). cbn [fst snd] in *.
  destruct (entries f !! k) as [d'|] eqn:Ek.
  2: { rewrite Hm. apply wp_ret. split; [done|]. apply lookup_ge_None in Ek. by rewrite drop_ge. }
  destruct Hm as [[= -> ->] [_ Hb Ht]]. rewrite (drop_S _ _ _ Ek). cbn [Z.eqb Pos.eqb list_find].
  pose proof (lookup_lt_Some _ _ _ Ek).
  assert (wp (let! hit := if e_in_use d' then let! r := lift_res (strcmp nm d') in ret (r =? 0) else ret false in
    if (hit : bool) then ret (Some (d', 20 * Z.of_nat k)) else lookup_loop fuel p nm d' (20 * Z.of_nat k + ENTRY_SIZE))
    (fun r s' => stores s (disk s) s' /\ r = (fun x : nat * list Z => (x.2, 20 * Z.of_nat (k + x.1))) <$>
      (if decide (is_name nm d') then Some (0%nat, d') else prod_map S id <$> list_find (is_name nm) (drop (S k) (entries f)))) s1); [|done].
  assert (~ is_name nm d' -> wp (lookup_loop fuel p nm d' (20 * Z.of_nat k + ENTRY_SIZE)) (fun r s' => stores s (disk s) s' /\
    r = (fun x : nat * list Z => (x.2, 20 * Z.of_nat (k + x.1))) <$> (prod_map S id <$> list_find (is_name nm) (drop (S k) (entries f)))) s1) as Hnext.
  { intros _. replace (20 * Z.of_nat k + ENTRY_SIZE) with (20 * Z.of_nat (S k)) by lia.
    eapply wp_mono; [apply (IH s1); [by eapply dir_file_stores|done|done|lia|lia]|].
    intros r s2 [Hs2 ->]. rewrite (st_disk _ _ _ Hs1) in Hs2. split; [by eapply stores_trans|].
    destruct (list_find _ _) as [[j x]|]; cbn; [|done]. do 3 f_equal. lia. }
  destruct (e_in_use d') eqn:Eu.
  - destruct (strcmp_eq_zero nm d' Hnm Hl1 Hb (Ht eq_refl)) as (r&Er&Er0). apply wp_bind, wp_bind, wp_lift. exists r. split; [done|].
    apply wp_ret. rewrite Er0. case_bool_decide as En.
    + rewrite decide_True by done. apply wp_ret. split; [done|]. cbn. by rewrite Nat.add_0_r.
    + rewrite decide_False by (intros [_ ?]; done). apply Hnext. by intros [_ ?].
  - apply wp_bind, wp_ret. rewrite decide_False by (intros [? _]; congruence). apply Hnext. intros [? _]. congruence.
Qed.

Lemma wp_dir_at s d dd Q : heap s !! d = Some (ODir dd) -> Q dd s -> wp (dir_at d) Q s.
Proof. intros E HQ. unfold wp, dir_at. by rewrite E. Qed.

Lemma wp_entry_fuel s p i f Q : dir_file s p i f -> Q (S (S (length (entries f)))) s -> wp (entry_fuel p) Q s.
Proof.
  intros Hd HQ. pose proof (df_len _ _ _ _ Hd) as [El _]. unfold entry_fuel, inode_length. apply wp_bind, wp_bind.
  eapply wp_inode_at; [apply Hd|]. apply wp_ret, wp_ret. unfold entries in HQ. rewrite length_fmap, length_seqZ, El in HQ. done.
Qed.

Lemma lookup_ok s d k p i f nm : d <> NULL -> heap s !! d = Some (ODir (File p k)) -> dir_file s p i f -> string_ok nm ->
  wp (lookup d nm) (fun r s' => stores s (disk s) s' /\
    r = (fun x : nat * list Z => (x.2, 20 * Z.of_nat x.1)) <$> list_find (is_name nm) (entries f)) s.
Proof.
  intros Hd Hh Hf Hnm. unfold lookup. apply wp_bind, wp_assert. split; [by rewrite (proj2 (Z.eqb_neq _ _) Hd)|].
  apply wp_bind. eapply wp_dir_at; [done|]. apply wp_bind. eapply wp_entry_fuel; [done|]. cbn [f_inode].
  apply (lookup_loop_ok _ s p i f nm (replicate 20 0) 0%nat Hf Hnm); [done|lia|lia].
Qed.

(** ** The search for a free slot *)

Definition is_free (e : list Z) : Prop := e_in_use e = false.
#[export] Instance is_free_dec e : Decision (is_free e).
Proof. unfold is_free. apply _. Defined.

Lemma read_short_ok s p i f e k : dir_file s p i f -> length e = 20%nat -> Forall (in_u 8) e -> 20 * Z.of_nat k < 2 ^ 31 ->
  wp (inode_read_at p e ENTRY_SIZE (20 * Z.of_nat k)) (fun r s' => Forall (in_u 8) r.2) s.
Proof.
  intros Hd He Hu Hk. pose proof Hd as [Hg Hp Hi Hid Hx Hc Hes].
  eapply wp_mono; [apply (inode_read_at_ok s p i); (done || lia)|]. intros [n buf] s' (j&_&_&_&Hb&_). cbn [fst snd] in *. subst buf.
  unfold splice. rewrite !Forall_app. split_and!; [by apply Forall_take|by apply bytes_in_u, good_sized|by apply Forall_drop].
Qed.

Lemma slot_loop_ok fuel s p i f e k :
  dir_file s p i f -> length e = 20%nat -> Forall (in_u 8) e -> (k <= length (entries f))%nat -> (length (entries f) - k < fuel)%nat ->
  wp (slot_loop fuel p e (20 * Z.of_nat k)) (fun r s' => stores s (disk s) s' /\ length r.1 = 20%nat /\ Forall (in_u 8) r.1 /\
    match list_find is_free (drop k (entries f)) with
    | Some (j, d) => r = (d, 20 * Z.of_nat (k + j))
    | None => r.2 = 20 * zlen (entries f)
    end) s.
Proof.
  revert s e k. induction fuel as [|fuel IH]; [lia|]. intros s e k Hd He Hu Hk Hf. cbn [slot_loop].
  pose proof (df_len _ _ _ _ Hd) as [_ Hl].
  assert (20 * zlen (entries f) <= zlen f) as Hlen by (unfold entries; rewrite length_fmap, length_seqZ; zlia).
  assert (20 * Z.of_nat k < 2 ^ 31) by lia.
  apply wp_bind. eapply wp_mono; [apply wp_and; [by apply (read_entry_ok s p i f e k)|by apply (read_short_ok s p i f e k)]|].
  intros [n d] s1 [(Hs1&Hl1&Hm) Hu1]. cbn [fst snd] in *.
  destruct (entries f !! k) as [d'|] eqn:Ek.
  2: { rewrite Hm. apply wp_ret. apply lookup_ge_None in Ek. rewrite drop_ge by done. cbn. split_and!; [done..|]. f_equal. lia. }
  destruct Hm as [[= -> ->] [_ Hb Ht]]. rewrite (drop_S _ _ _ Ek). cbn [Z.eqb Pos.eqb list_find]. pose proof (lookup_lt_Some _ _ _ Ek).
  destruct (e_in_use d') eqn:Eu; cbn [negb].
  - rewrite decide_False by (unfold is_free; congruence).
    rewrite wraps_small by (unfold in_s; lia). replace (20 * Z.of_nat k + ENTRY_SIZE) with (20 * Z.of_nat (S k)) by lia.
    eapply wp_mono; [apply (IH s1); [by eapply dir_file_stores|done|done|lia|lia]|].
    intros [r o] s2 (Hs2&?&?&Hr). rewrite (st_disk _ _ _ Hs1) in Hs2. split_and!; [by eapply stores_trans|done|done|].
    destruct (list_find _ _) as [[j x]|]; cbn in *; [|done]. rewrite Hr. f_equal. lia.
  - rewrite decide_True by done. apply wp_ret. cbn. split_and!; [done..|]. by rewrite Nat.add_0_r.
Qed.
End proofs.

(** ** A new entry *)

Lemma splice_mid (a b c new : list Z) : length new = length b -> splice (a ++ b ++ c) (length a) new = a ++ new ++ c.
Proof.
  intros Hl. unfold splice. rewrite take_app_length. do 2 f_equal. rewrite app_assoc, drop_app_length'; [done|]. rewrite length_app. lia.
Qed.

Lemma entry_split (e : list Z) : length e = 20%nat -> exists a b c, e = a ++ b ++ [c] /\ length a = 4%nat /\ length b = 15%nat.
Proof.
  intros He. exists (take 4 e), (take 15 (drop 4 e)). destruct (drop 15 (drop 4 e)) as [|c [|]] eqn:E;
    apply (f_equal length) in E as El; rewrite !length_drop, He in El; cbn in El; try lia.
  exists c. rewrite <- E, !take_drop, !length_take, length_drop. split_and!; [done|lia|lia].
Qed.

Lemma set_flag (a b : list Z) c u : length a = 4%nat -> length b = 15%nat -> splice (a ++ b ++ [c]) 19 [u] = a ++ b ++ [u].
Proof.
  intros Ha Hb. pose proof (splice_mid (a ++ b) [c] [] [u] eq_refl) as E. rewrite length_app, Ha, Hb, <- !app_assoc in E. exact E.
Qed.

Definition make_entry (sec : Z) (nm15 : list Z) (u : Z) : list Z := le32 sec ++ nm15 ++ [u].

Lemma set_fields sec nm15 e u : length e = 20%nat -> length nm15 = 15%nat ->
  set_sector sec (set_name nm15 (splice e 19 [u])) = make_entry sec nm15 u.
Proof.
  intros (a&b&c&->&Ha&Hb)%entry_split Hn. unfold set_sector, set_name.
  rewrite set_flag by done.
  pose proof (splice_mid a b [u] nm15 ltac:(lia)) as E. rewrite Ha in E. rewrite E.
  exact (splice_mid [] a (nm15 ++ [u]) (le32 sec) ltac:(simpl; lia)).
Qed.

Lemma entry_fields sec nm15 u : length nm15 = 15%nat -> in_u 32 sec ->
  e_sector (make_entry sec nm15 u) = sec /\ e_name (make_entry sec nm15 u) = nm15 /\ e_in_use (make_entry sec nm15 u) = negb (u =? 0).
Proof.
  intros Hn Hs. unfold make_entry, e_sector, e_name, e_in_use. split_and!.
  - rewrite take_app_length' by done. by apply le_le32.
  - rewrite drop_app_length' by done. by apply take_app_length'.
  - rewrite app_nth2, app_nth2 by (simpl; lia). simpl. rewrite Hn. done.
Qed.

(** The entry with its flag cleared. *)
Lemma clear_in_use e : entry_ok e -> entry_ok (set_in_use false e) /\ e_in_use (set_in_use false e) = false.
Proof.
  intros [Hl Hb _]. pose proof Hl as (a&b&c&->&Ha&Hb')%entry_split. unfold set_in_use.
  rewrite set_flag by done.
  assert (e_in_use (a ++ b ++ [0]) = false) as Eu.
  { unfold e_in_use. rewrite app_nth2, app_nth2 by lia. rewrite Ha, Hb'. done. }
  split; [|done]. split.
  - rewrite !length_app, Ha, Hb'. done.
  - rewrite !Forall_app in *. destruct Hb as (?&?&_). split_and!; [done..|]. by repeat constructor.
  - by rewrite Eu.
Qed.

(** The name field after [strlcpy]. *)
Lemma name_field_ok nm old : string_ok nm -> (length nm <= 14)%nat -> length old = 15%nat -> Forall (in_u 8) old ->
  let n15 := splice old 0 (nm ++ [0]) in length n15 = 15%nat /\ Forall (in_u 8) n15 /\ 0 ∈ n15 /\ cstr n15 = nm.
Proof.
  intros Hnm Hl Ho Hb. cbn zeta. change (splice old 0 (nm ++ [0])) with ((nm ++ [0]) ++ drop (0 + length (nm ++ [0%Z])) old).
  rewrite !length_app, length_drop, Ho. simpl length. split_and!.
  - lia.
  - apply Forall_app. split; [by apply string_bytes|by apply Forall_drop].
  - set_solver.
  - rewrite <- app_assoc. cbn [app]. apply cstr_app. by apply string_zero.
Qed.

Lemma entries_splice f j e : length e = 20%nat -> 20 * (Z.of_nat j + 1) <= zlen f ->
  entries (splice f (Z.to_nat (20 * Z.of_nat j)) e) = <[j := e]> (entries f) /\ length (splice f (Z.to_nat (20 * Z.of_nat j)) e) = length f.
Proof.
  intros He Hj. assert (length (splice f (Z.to_nat (20 * Z.of_nat j)) e) = length f) as El by (rewrite splice_length; lia).
  split; [|done]. apply list_eq. intros k. rewrite entries_lookup, El. destruct (decide (k = j)) as [->|Hk].
  - rewrite decide_True, list_lookup_insert_eq by (done || unfold entries; rewrite length_fmap, length_seqZ; zlia). f_equal.
    unfold sub, splice. rewrite drop_app_length' by (rewrite length_take; lia). by rewrite take_app_length' by lia.
  - rewrite list_lookup_insert_ne, entries_lookup by done. case_decide; [|done]. f_equal. unfold sub, splice. apply list_eq. intros x.
    destruct (decide (x < 20)%nat); [|rewrite !lookup_take_ge by lia; done]. rewrite !lookup_take_lt, !lookup_drop by lia.
    destruct (decide (k < j)%nat).
    + rewrite lookup_app_l, lookup_take_lt by (rewrite ?length_take; lia). done.
    + rewrite !lookup_app_r by (rewrite ?length_take; lia). rewrite lookup_drop, length_take. f_equal. lia.
Qed.
End FsDir.
