(* ===== verification/FsCore.v ===== *)
(** * What the operations on inodes do to the state

    [core] is the part of the state that outlasts an operation: the objects,
    the list of open inodes, the free map, the disk.  Between operations the
    locks are free ([quiet]).  One lemma per operation gives the core after it. *)

From S2P Require Import Prelude.
From S2P Require Import Mem.
From S2P Require Import Words.
From S2P Require Import Bitmap.
From S2P Require Import Device.
From S2P Require Import Fs.
From S2P Require Import FsInode.
From S2P Require Import FsMap.
From S2P Require Import Directory.
Local Open Scope Z_scope.

Module FsCore.
Import Mem Words Fs FsInode FsMap.

Record core := Core {
  c_heap : gmap ptr obj; c_open : list ptr; c_map : Bitmap.bitmap; c_disk : disk_map; c_file : ptr }.

Definition put_heap h c := Core h (c_open c) (c_map c) (c_disk c) (c_file c).
Definition put_open l c := Core (c_heap c) l (c_map c) (c_disk c) (c_file c).
Definition put_map b c := Core (c_heap c) (c_open c) b (c_disk c) (c_file c).
Definition put_disk m c := Core (c_heap c) (c_open c) (c_map c) m (c_file c).

Section proofs.
Context {dev : Type} `{!Device.Device dev} `{!Device.Allocator} {Hroom : Device.Roomy} (cur : Z).
Implicit Types (s : state dev) (p : ptr) (i : inode) (c : core).

Definition view s : core := Core (heap s) (open_inodes s) (free_map s) (disk s) (free_map_file s).

Record quiet s : Prop := Quiet {
  q_good : good s;
  q_size : Bitmap.bit_cnt (free_map s) = Device.block_size (fs_device s);
  q_wf : Bitmap.wf (free_map s);
  q_filesys : filesys_lock s = None;
  q_map : free_map_lock s = None;
  q_dir : dir_lock s = None }.

Lemma stores_view s m s' : stores s m s' -> view s' = put_disk m (view s).
Proof. intros [E _ D _]. unfold view. rewrite D, E. done. Qed.

Lemma stores_quiet s m s' : stores s m s' -> quiet s -> quiet s'.
Proof. intros [E G D Z] []. split; [done|rewrite Z; by rewrite E|..]; by rewrite E. Qed.

(** A change of the objects and of the list of open inodes. *)
Lemma quiet_heap s h l : quiet s -> quiet (set_open l (set_heap h s)).
Proof. intros []. by split. Qed.

Lemma put_obj_quiet s p o : quiet s -> quiet (set_heap (<[p := o]> (heap s)) s).
Proof. intros []. by split. Qed.

(** ** Locks *)

Lemma wp_fs_acquire s Q : filesys_lock s = None -> Q tt (set_filesys_lock (Some cur) s) -> wp (on_filesys_lock (lock_acquire cur)) Q s.
Proof. intros E HQ. apply wp_zoom. rewrite E. by apply wp_lock_acquire. Qed.

Lemma wp_fs_release s Q : filesys_lock s = Some cur -> Q tt (set_filesys_lock None s) -> wp (on_filesys_lock (lock_release cur)) Q s.
Proof. intros E HQ. apply wp_zoom. rewrite E. by apply wp_lock_release. Qed.

Lemma wp_dir_acquire s Q : dir_lock s = None -> Q tt (set_dir_lock (Some cur) s) -> wp (on_dir_lock (lock_acquire cur)) Q s.
Proof. intros E HQ. apply wp_zoom. rewrite E. by apply wp_lock_acquire. Qed.

Lemma wp_dir_release s Q : dir_lock s = Some cur -> Q tt (set_dir_lock None s) -> wp (on_dir_lock (lock_release cur)) Q s.
Proof. intros E HQ. apply wp_zoom. rewrite E. by apply wp_lock_release. Qed.

(** [busy l d s]: quiet but for the two outer locks. *)
Record busy (fl dl : option Z) s : Prop := Busy {
  b_good : good s;
  b_size : Bitmap.bit_cnt (free_map s) = Device.block_size (fs_device s);
  b_wf : Bitmap.wf (free_map s);
  b_filesys : filesys_lock s = fl;
  b_map : free_map_lock s = None;
  b_dir : dir_lock s = dl }.

Lemma quiet_busy s : quiet s <-> busy None None s.
Proof. split; intros []; by split. Qed.

Lemma stores_busy fl dl s m s' : stores s m s' -> busy fl dl s -> busy fl dl s'.
Proof. intros [E G D Z] []. split; [done|rewrite Z; by rewrite E|..]; by rewrite E. Qed.

Lemma busy_acquire fl dl s l : busy fl dl s -> busy l dl (set_filesys_lock l s).
Proof. intros []. by split. Qed.

Lemma busy_dir fl dl s l : busy fl dl s -> busy fl l (set_dir_lock l s).
Proof. intros []. by split. Qed.

Lemma busy_heap fl dl s h : busy fl dl s -> busy fl dl (set_heap h s).
Proof. intros []. by split. Qed.

Lemma busy_open fl dl s l : busy fl dl s -> busy fl dl (set_open l s).
Proof. intros []. by split. Qed.

Lemma busy_map fl dl s b : busy fl dl s -> Bitmap.wf b -> Bitmap.bit_cnt b = Bitmap.bit_cnt (free_map s) -> busy fl dl (set_map b s).
Proof. intros [? Z ? ? ? ?] ??. split; cbn; (done || congruence). Qed.

(** ** Opening *)

(** The open inode of a sector, if there is one. *)
Definition inodes_at (h : gmap ptr obj) (l : list ptr) : Prop := Forall (fun p => exists i, h !! p = Some (OInode i)) l.

Lemma find_open_ok s k l : inodes_at (heap s) l ->
  exists r, find_open k l s = Ok (r, s) /\
    match r with
    | Some p => p ∈ l /\ exists i, heap s !! p = Some (OInode i) /\ sector i = k
    | None => forall p i, p ∈ l -> heap s !! p = Some (OInode i) -> sector i <> k
    end.
Proof.
  induction 1 as [|p l [i Hi] _ (r&E&Hr)]; [exists None; split; [done|]; by intros ?? ?%elem_of_nil|].
  cbn [find_open]. rewrite (bind_ok _ _ _ _ _ (inode_at_eq _ _ _ Hi)). destruct (Z.eqb_spec (sector i) k) as [Es|Es].
  - exists (Some p). split; [done|]. split; [by left|eauto].
  - exists r. split; [done|]. destruct r as [q|].
    + destruct Hr as [? ?]. split; [by right|done].
    + intros q j [->|?]%elem_of_cons Hq; [congruence|]. by apply (Hr q).
Qed.

(** The core with a reference more to inode [p]. *)
Definition reopened p i c : core := put_heap (<[p := OInode (set_open_cnt (open_cnt i + 1) i)]> (c_heap c)) c.
Definition opened p k bs c : core :=
  put_open (p :: c_open c) (put_heap (<[p := OInode (Inode k 1 false bs 0 1 1)]> (c_heap c)) c).

Lemma wp_reopen s p i Q : heap s !! p = Some (OInode i) -> p <> NULL -> 0 <= open_cnt i < INT_MAX ->
  Q p (with_inode p (set_open_cnt (open_cnt i + 1) i) s) -> wp (inode_reopen p) Q s.
Proof.
  intros Hi Hp Hc HQ. unfold inode_reopen. rewrite (proj2 (Z.eqb_neq _ _) Hp). cbn [negb]. apply wp_bind.
  rewrite <- (with_inode_id p i s Hi) at 1. apply wp_with_upd. rewrite wraps_small by (unfold in_s; lia). by apply wp_ret.
Qed.

Lemma inode_open_ok dl s k bs : busy None dl s -> inodes_at (heap s) (open_inodes s) -> NULL ∉ open_inodes s ->
  (forall p i, heap s !! p = Some (OInode i) -> 0 <= open_cnt i < INT_MAX) ->
  disk s !! k = Some bs ->
  wp (inode_open cur k) (fun p s' => busy None dl s' /\ p <> NULL /\
    ((exists i, p ∈ open_inodes s /\ heap s !! p = Some (OInode i) /\ sector i = k /\ view s' = reopened p i (view s)) \/
     ((forall q i, q ∈ open_inodes s -> heap s !! q = Some (OInode i) -> sector i <> k) /\ p ∉ dom (heap s) /\
       view s' = opened p k bs (view s)))) s.
Proof.
  intros Hb Hin Hnull Hcnt Hk. unfold inode_open. apply wp_bind, wp_fs_acquire; [apply Hb|].
  pose proof (busy_acquire _ _ _ (Some cur) Hb) as Hb1. set (s1 := set_filesys_lock (Some cur) s) in *. wp_go.
  destruct (find_open_ok s1 k (open_inodes s1) Hin) as (r&E&Hr). unfold wp at 1. rewrite E. clear E. destruct r as [p|].
  - destruct Hr as [Hp (i&Hi&Hs)]. assert (p <> NULL) by (intros ->; done).
    apply wp_bind. eapply wp_reopen; [done|done|by eapply Hcnt|]. apply wp_bind, wp_fs_release; [done|]. apply wp_ret.
    split; [by apply (busy_acquire (Some cur)), (busy_heap (Some cur))|]. split; [done|]. left. exists i. done.
  - apply wp_bind, wp_malloc; [apply Hb1|]. intros p s2 Hs2 Hp Hpn. specialize (Hpn Hroom). destruct Hp as [?|Hp]; [done|].
    rewrite (proj2 (Z.eqb_neq _ _) Hpn). pose proof (stores_busy _ _ _ _ _ Hs2 Hb1) as Hb2. wp_go.
    set (s3 := set_open _ s2). assert (busy (Some cur) dl s3) as Hb3 by (by apply busy_open).
    eapply (wp_read_sector s3 k bs); [apply Hb3|change (disk s3) with (disk s2); by rewrite (st_disk _ _ _ Hs2)|]. intros s4 Hs4.
    pose proof (stores_busy _ _ _ _ _ Hs4 Hb3) as Hb4. unfold put_obj. wp_go. apply wp_fs_release; [apply Hb4|]. 
    split; [by apply (busy_acquire (Some cur)), busy_heap|]. split; [done|]. right. split_and!; [done|done|].
    change (put_heap (<[p := OInode (Inode k 1 false bs 0 1 1)]> (c_heap (view s4))) (view s4) = opened p k bs (view s)).
    rewrite (stores_view _ _ _ Hs4). change (view s3) with (put_open (p :: c_open (view s2)) (view s2)).
    change (disk s3) with (disk s2). rewrite (st_disk _ _ _ Hs2), (stores_view _ _ _ Hs2). done.
Qed.

(** ** Closing *)

(** The sectors of an inode: its own and those of its data. *)
Definition own i (n : Z) : Prop := n = sector i \/ in_extent (data_start i) (data_length i) n.
#[export] Instance own_dec i n : Decision (own i n).
Proof. unfold own, in_extent. apply _. Defined.

(** The sectors of the inode are marked free. *)
Definition freed (b : Bitmap.bitmap) i (b' : Bitmap.bitmap) : Prop :=
  Bitmap.wf b' /\ Bitmap.bit_cnt b' = Bitmap.bit_cnt b /\
  forall j, 0 <= j -> Bitmap.bit b' j = if decide (own i j) then false else Bitmap.bit b j.

(** The sectors of the inode are distinct and in use. *)
Record ownable (b : Bitmap.bitmap) i : Prop := Ownable {
  ow_len : 0 <= data_length i /\ data_length i + 511 < 2 ^ 31;
  ow_start : 0 <= data_start i /\ data_start i + nsec (data_length i) <= Bitmap.bit_cnt b;
  ow_sector : 0 <= sector i < Bitmap.bit_cnt b;
  ow_apart : ~ in_extent (data_start i) (data_length i) (sector i);
  ow_used n : own i n -> Bitmap.bit b n = true }.

Lemma bytes_to_sectors_eq len : 0 <= len -> len + 511 < 2 ^ 31 -> bytes_to_sectors len = nsec len.
Proof.
  intros. unfold bytes_to_sectors, nsec. rewrite wraps_small by (unfold in_s; lia).
  replace (len + 512 - 1) with (len + 511) by lia. rewrite Z.quot_div_nonneg by lia. apply wrapu_small. unfold in_u. zlia.
Qed.

Definition unref i : inode := set_open_cnt (open_cnt i - 1) i.
Definition closed p c : core := put_open (filter (fun q => q <> p) (c_open c)) (put_heap (delete p (c_heap c)) c).

(** Both runs of sectors of a removed inode are released. *)
Lemma release_inode_ok fl dl s p0 i0 i : busy fl dl s -> map_file s p0 i0 -> ownable (free_map s) i ->
  wp (do! free_map_release cur (sector i) 1 in free_map_release cur (data_start i) (bytes_to_sectors (data_length i)))
    (fun _ s' => busy fl dl s' /\ exists b' m', stores (set_map b' s) m' s' /\ freed (free_map s) i b' /\
      frame (map_sectors s) (disk s) m' /\ saved s' i0) s.
Proof.
  intros Hb Hm [Hl Hs Hk Ha Hu]. rewrite bytes_to_sectors_eq by lia. apply wp_bind. eapply wp_mono.
  { apply (free_map_release_ok cur s p0 i0); [apply Hb|apply Hb|apply Hb|done|lia|lia|lia|].
    intros j Hj. apply Hu. left. lia. }
  intros _ s1 (b1&m1&Hs1&(Hw1&Hc1&Hb1)&Hf1&_). 
  assert (free_map s1 = b1) as E1 by (by rewrite (st_eq _ _ _ Hs1)).
  assert (busy fl dl s1) as Hbs1 by (eapply stores_busy; [exact Hs1|by apply busy_map]).
  assert (map_file s1 p0 i0) as Hm1.
  { eapply map_file_ext; [..|exact Hm]; [by rewrite (stores_heap _ _ _ Hs1)|by rewrite (st_eq _ _ _ Hs1)|by rewrite E1|].
    rewrite (st_disk _ _ _ Hs1). apply Hf1. }
  eapply wp_mono.
  { apply (free_map_release_ok cur s1 p0 i0); [apply Hbs1|apply Hbs1|apply Hbs1|done|lia|unfold nsec; zlia|rewrite E1; lia|].
    intros j Hj. rewrite E1, Hb1 by lia. destruct ((sector i <=? j) && (j <? sector i + 1)) eqn:Ej.
    - destruct Ha. replace (sector i) with j by lia. done.
    - apply Hu. by right. }
  intros _ s2 (b2&m2&Hs2&(Hw2&Hc2&Hb2)&Hf2&Hsv). rewrite E1 in *. rewrite (st_disk _ _ _ Hs1) in Hf2.
  split; [eapply stores_busy; [exact Hs2|by apply busy_map; [..|rewrite E1]]|]. exists b2, m2. split_and!.
  - destruct Hs1 as [E _ _ Z1], Hs2 as [E2' G2 D2 Z2]. split; [|done|done|].
    + rewrite E2'. rewrite E at 1. done.
    + rewrite Z2. cbn. rewrite Z1. done.
  - split; [done|]. split; [lia|]. intros j Hj. rewrite Hb2, Hb1 by done. unfold own, in_extent.
    destruct ((data_start i <=? j) && (j <? data_start i + nsec (data_length i))) eqn:Ej.
    + by rewrite decide_True by lia.
    + destruct ((sector i <=? j) && (j <? sector i + 1)) eqn:Ej2; [rewrite decide_True by lia|rewrite decide_False by lia]; done.
  - eapply frame_trans; [done|]. eapply frame_mono; [|done]. intros n (p&i'&Hm'&?).
    destruct (map_file_unique _ _ _ _ _ Hm1 Hm') as [-> ->]. by exists p0, i0.
  - by apply Hsv.
Qed.

Lemma inode_close_ok dl s p i p0 i0 :
  busy None dl s -> heap s !! p = Some (OInode i) -> p <> NULL -> 1 <= open_cnt i <= INT_MAX -> map_file s p0 i0 ->
  (removed i = true -> open_cnt i = 1 -> p <> p0 /\ ownable (free_map s) i) ->
  wp (inode_close cur p) (fun _ s' => busy None dl s' /\
    if open_cnt i =? 1 then
      if removed i then exists b' m', view s' = put_disk m' (put_map b' (closed p (view s))) /\ freed (free_map s) i b' /\
        frame (map_sectors s) (disk s) m' /\ contents m' (data_start i0) (data_length i0) = words_bytes (Bitmap.bits b')
      else view s' = closed p (view s)
    else view s' = put_heap (<[p := OInode (unref i)]> (heap s)) (view s)) s.
Proof.
  intros Hb Hi Hp Hc Hm Hrem. unfold inode_close. rewrite (proj2 (Z.eqb_neq _ _) Hp).
  apply wp_bind, wp_fs_acquire; [apply Hb|]. set (s1 := set_filesys_lock (Some cur) s).
  assert (busy (Some cur) dl s1) as Hb1 by (by eapply busy_acquire).
  apply wp_bind. rewrite <- (with_inode_id p i s1 Hi). apply wp_with_upd. rewrite wraps_small by (unfold in_s; lia). fold (unref i).
  apply wp_bind, wp_with_at. change (open_cnt (unref i)) with (open_cnt i - 1). set (s2 := with_inode p (unref i) s1).
  assert (busy (Some cur) dl s2) as Hb2 by (by apply busy_heap).
  destruct (Z.eqb_spec (open_cnt i) 1) as [Ec|Ec].
  2: { rewrite (proj2 (Z.eqb_neq (open_cnt i - 1) 0)) by lia. apply wp_bind, wp_ret, wp_fs_release; [done|].
       split; [by apply (busy_acquire (Some cur))|done]. }
  rewrite (proj2 (Z.eqb_eq (open_cnt i - 1) 0)) by lia. apply wp_bind, wp_bind, wp_modify.
  set (s3 := set_open (filter (fun q => q <> p) (open_inodes s2)) s2). assert (busy (Some cur) dl s3) as Hb3 by (by apply busy_open).
  assert (delete p (heap s3) = delete p (heap s)) as Hdel by (cbn; by rewrite delete_insert_eq).
  change (removed (unref i)) with (removed i). destruct (removed i) eqn:Er.
  - destruct (Hrem eq_refl Ec) as [Hne Ho].
    assert (map_file s3 p0 i0) as Hm3.
    { eapply map_file_heap; [..|exact Hm]; cbn; try done; rewrite lookup_insert_ne; try done.
      intros Ef. destruct (mf_file _ _ _ Hm) as [k Hk]. rewrite <- Ef in Hk. congruence. }
    apply wp_bind. eapply wp_mono; [apply (release_inode_ok (Some cur) dl s3 p0 i0 (unref i) Hb3 Hm3)|].
    { destruct Ho. by split. }
    intros _ s4 (Hb4&b'&m'&Hs4&Hfr&Hf&Hsv). unfold free. rewrite (proj2 (Z.eqb_neq _ _) Hp). apply wp_modify.
    apply wp_fs_release; [apply Hb4|]. split; [by apply (busy_acquire (Some cur)), busy_heap|]. exists b', m'. split_and!.
    + change (put_heap (delete p (heap s4)) (view s4) = put_disk m' (put_map b' (closed p (view s)))).
      rewrite (stores_heap _ _ _ Hs4), (stores_view _ _ _ Hs4). cbn [heap set_map]. rewrite Hdel. done.
    + destruct Hfr as (?&?&Hbit). split; [done|]. split; [done|exact Hbit].
    + eapply frame_mono; [|exact Hf]. intros n (q&j&Hq&?). destruct (map_file_unique _ _ _ _ _ Hm3 Hq) as [-> ->]. by exists p0, i0.
    + unfold saved in Hsv. rewrite (st_disk _ _ _ Hs4) in Hsv. rewrite Hsv. by rewrite (st_eq _ _ _ Hs4).
  - apply wp_bind, wp_ret. unfold free. rewrite (proj2 (Z.eqb_neq _ _) Hp). apply wp_modify.
    apply wp_fs_release; [done|]. split; [by apply (busy_acquire (Some cur)), busy_heap|].
    change (put_heap (delete p (heap s3)) (put_open (filter (fun q => q <> p) (open_inodes s)) (view s)) = closed p (view s)).
    rewrite Hdel. done.
Qed.

(** ** Creating *)

Lemma encode_ok st len mg : Device.sector_ok (encode_inode st len mg).
Proof.
  unfold encode_inode. split; [done|]. rewrite !Forall_app. split_and!; [apply le32_bytes..|].
  apply Forall_replicate. split; done.
Qed.

Lemma zero_sector_ok : Device.sector_ok (replicate 512 0).
Proof. split; [done|]. apply Forall_replicate. split; done. Qed.

(** Writing zeros over a run of sectors. *)
Lemma zero_run_ok s n k : good s -> 0 <= k -> (forall x, n <= x < n + k -> is_Some (disk s !! x)) ->
  wp (for_ (Z.to_nat k) 0 (fun j => write_sector (u32 (n + j)) (replicate 512 0)))
    (fun _ s' => exists m', stores s m' s' /\
      forall x, m' !! x = if decide (n <= x < n + k) then Some (replicate 512 0) else disk s !! x) s.
Proof.
  intros Hg Hk Hm. eapply wp_mono.
  { apply (wp_for (fun j s' => exists m', stores s m' s' /\
      forall x, m' !! x = if decide (n <= x < n + j) then Some (replicate 512 0) else disk s !! x)).
    - intros j s1 Hj (m1&Hs1&Hm1). assert (is_Some (disk s !! (n + j))) as Hsome by (apply Hm; lia).
      assert (disk s1 !! (n + j) = disk s !! (n + j)) as E by (rewrite (st_disk _ _ _ Hs1), Hm1, decide_False by lia; done).
      rewrite wrapu_small by (by apply (good_range s)).
      apply wp_write_sector; [apply Hs1|by rewrite E|apply zero_sector_ok|]. intros s2 Hs2. rewrite (st_disk _ _ _ Hs1) in Hs2.
      eexists. split; [by eapply stores_trans|]. intros x. destruct (decide (x = n + j)) as [->|Hx].
      + by rewrite lookup_insert_eq, decide_True by lia.
      + rewrite lookup_insert_ne, Hm1 by done. repeat case_decide; (lia || done).
    - exists (disk s). split; [by apply stores_refl|]. intros x. by rewrite decide_False by lia. }
  intros [] s' (m'&Hs'&Hm'). exists m'. split; [done|]. intros x. rewrite Hm'. by rewrite Z.add_0_l, Z2Nat.id by lia.
Qed.

(** The disk after an inode was created in sector [k] with its data at [n]. *)
Definition created (A : Z -> Prop) (m : disk_map) (k n len : Z) (m' : disk_map) : Prop :=
  m' !! k = Some (encode_inode n len INODE_MAGIC) /\
  (forall x, in_extent n len x -> m' !! x = Some (replicate 512 0)) /\
  frame (fun x => A x \/ x = k \/ in_extent n len x) m m'.

Definition create_post dl s k len (r : bool) s' : Prop :=
  match r with
  | true => exists n b' m', view s' = put_disk m' (put_map b' (view s)) /\ allocated (free_map s) (nsec len) (Some n) b' /\
      created (map_sectors s) (disk s) k n len m' /\
      (forall p i, map_file s p i -> contents m' (data_start i) (data_length i) = words_bytes (Bitmap.bits b'))
  | false => view s' = view s /\ no_run (free_map s) (nsec len)
  end /\ busy None dl s'.

(** The sectors of the map file are in use and are not [k]. *)
Definition map_apart s k : Prop := forall x, map_sectors s x -> x <> k /\ 0 <= x /\ Bitmap.bit (free_map s) x = true.

(** Once the data sectors are allocated, the inode and the zeros are written. *)
Lemma create_write_ok fl dl s k len n : busy fl dl s -> 0 <= len -> 0 <= n ->
  0 <= k < Bitmap.bit_cnt (free_map s) -> n + nsec len <= Bitmap.bit_cnt (free_map s) -> ~ in_extent n len k ->
  wp (do! write_sector k (encode_inode n len INODE_MAGIC) in
      do! (if 0 <? nsec len then for_ (Z.to_nat (nsec len)) 0 (fun j => write_sector (u32 (n + j)) (replicate 512 0)) else ret tt) in
      ret true) (fun r s' => r = true /\ exists m', stores s m' s' /\ created (fun _ => False) (disk s) k n len m') s.
Proof.
  intros Hb Hl Hn Hk Hr Hnk. pose proof Hb as [Hg Hz _ _ _ _]. assert (0 <= nsec len) by (unfold nsec; zlia).
  assert (forall x, 0 <= x < Bitmap.bit_cnt (free_map s) -> is_Some (disk s !! x)) as Hin.
  { intros x Hx. apply Device.content_dom; [done|]. lia. }
  apply wp_bind, wp_write_sector; [done|by apply Hin|apply encode_ok|]. intros s1 Hs1. apply wp_bind.
  eapply (wp_mono _ (fun _ s2 => exists m', stores s1 m' s2 /\ forall x, m' !! x = if decide (n <= x < n + nsec len) then Some (replicate 512 0) else disk s1 !! x)).
  { destruct (Z.ltb_spec 0 (nsec len)).
    - apply zero_run_ok; [apply Hs1|lia|]. intros x Hx. rewrite (st_disk _ _ _ Hs1), lookup_insert_is_Some'. right. apply Hin. lia.
    - apply wp_ret. exists (disk s1). split; [apply stores_refl, Hs1|]. intros x. by rewrite decide_False by lia. }
  intros [] s2 (m'&Hs2&Hm'). apply wp_ret. split; [done|]. exists m'. split; [by eapply stores_trans|]. rewrite (st_disk _ _ _ Hs1) in Hm'.
  unfold in_extent in *. split_and!.
  - by rewrite Hm', decide_False, lookup_insert_eq.
  - intros x Hx. by rewrite Hm', decide_True.
  - split.
    + intros x. rewrite Hm'. case_decide; [split; eauto; intros _; apply Hin; lia|].
      rewrite lookup_insert_is_Some'. split; [intros [<-|?]; [by apply Hin|done]|by right].
    + intros x Hx. unfold in_extent in Hx. rewrite Hm', decide_False by tauto. apply lookup_insert_ne. intros ->. tauto.
Qed.

Lemma inode_create_ok dl s k len :
  busy None dl s -> map_known s -> 0 <= len -> len + 511 < 2 ^ 31 -> 0 <= k < Bitmap.bit_cnt (free_map s) ->
  Bitmap.bit (free_map s) k = true -> map_apart s k -> wp (inode_create cur k len) (create_post dl s k len) s.
Proof.
  intros Hb Hmk Hl1 Hl2 Hk Hkb Hms. unfold inode_create. apply wp_bind, wp_fs_acquire; [apply Hb|].
  set (s1 := set_filesys_lock (Some cur) s). assert (busy (Some cur) dl s1) as Hb1 by (by eapply busy_acquire).
  apply wp_bind, wp_assert. split; [lia|]. apply wp_bind, wp_malloc; [apply Hb1|]. intros q s2 Hs2 Hq Hqn. specialize (Hqn Hroom).
  rewrite (proj2 (Z.eqb_neq _ _) Hqn), bytes_to_sectors_eq by done. pose proof (stores_busy _ _ _ _ _ Hs2 Hb1) as Hb2.
  assert (free_map s2 = free_map s) as Efm by (by rewrite (st_eq _ _ _ Hs2)).
  assert (forall p i, map_file s2 p i <-> map_file s p i) as Hmf.
  { intros p i. split; apply map_file_ext; try (by rewrite (st_eq _ _ _ Hs2)); by rewrite (st_disk _ _ _ Hs2). }
  assert (map_known s2) as Hmk2.
  { destruct Hmk as [E|(p&i&?)]; [left; by rewrite (st_eq _ _ _ Hs2)|right; exists p, i; by apply Hmf]. }
  pose proof Hb2 as [Hg2 Hz2 Hw2 _ Hml2 _]. assert (0 <= nsec len) by (unfold nsec; zlia).
  apply wp_bind, wp_bind. eapply wp_mono; [by apply (free_map_allocate_ok cur s2 (nsec len))|].
  intros r s3 (b'&m'&Hs3&Ha&Hf&Hsv&Hno). rewrite Efm in Ha. rewrite (st_disk _ _ _ Hs2) in Hf, Hno. change (disk s1) with (disk s) in *.
  assert (frame (map_sectors s) (disk s) m') as Hf'.
  { eapply frame_mono; [|exact Hf]. intros n (p&i&?%Hmf&?). by exists p, i. }
  assert (Hend : forall ok s4, heap s4 = heap s -> busy (Some cur) dl s4 -> create_post dl s k len ok (set_filesys_lock None s4) ->
    wp (do! free q in ret ok) (fun success s5 => wp (do! on_filesys_lock (lock_release cur) in ret success) (create_post dl s k len) s5) s4).
  { intros ok s4 Eh Hb4 Hok. apply wp_bind, wp_free. { rewrite Eh. exact Hq. }
    apply wp_ret, wp_bind, wp_fs_release; [apply Hb4|]. by apply wp_ret. }
  assert (Bitmap.wf b' /\ Bitmap.bit_cnt b' = Bitmap.bit_cnt (free_map s)) as [Hwb Hcb].
  { destruct r; cbn in Ha; [destruct Ha as (_&_&_&?&?&_)|destruct Ha as (?&?&_)]; done. }
  assert (busy (Some cur) dl s3) as Hb3 by (eapply stores_busy; [exact Hs3|]; apply busy_map; [done|done|by rewrite Efm]).
  assert (heap s3 = heap s) as Eh3 by (rewrite (stores_heap _ _ _ Hs3); cbn; by rewrite (stores_heap _ _ _ Hs2)).
  assert (view s3 = put_disk m' (put_map b' (view s))) as V3.
  { rewrite (stores_view _ _ _ Hs3). change (view (set_map b' s2)) with (put_map b' (view s2)). by rewrite (stores_view _ _ _ Hs2). }
  assert (free_map s3 = b' /\ disk s3 = m') as [Efm3 Ed3] by (split; [by rewrite (st_eq _ _ _ Hs3)|apply Hs3]).
  destruct r as [n|].
  - destruct Ha as (Hn&Hn2&Hg&Hset). assert (~ in_extent n len k) as Hnk by (intros Hx; rewrite (Hg k) in Hkb; [done|exact Hx]).
    apply wp_bind. eapply wp_mono; [apply (create_write_ok (Some cur) dl s3 k len n Hb3); (done || rewrite ?Efm3; lia)|].
    intros ok s4 (->&m4&Hs4&(C1&C2&C3)). rewrite Ed3 in C3. apply Hend; [by rewrite (stores_heap _ _ _ Hs4)|by eapply stores_busy|].
    split; [|eapply (busy_acquire (Some cur)), stores_busy; done]. exists n, b', m4. split_and!.
    + change (view s4 = put_disk m4 (put_map b' (view s))). by rewrite (stores_view _ _ _ Hs4), V3.
    + done.
    + split_and!; [done..|]. eapply frame_trans; [eapply frame_mono; [|exact Hf']; by left|].
      eapply frame_mono; [|exact C3]. intros x [[]|?]. by right.
    + intros p i Hm. pose proof (Hsv p i (proj2 (Hmf p i) Hm) ltac:(eauto)) as Hsaved. unfold saved in Hsaved.
      rewrite Efm3, Ed3 in Hsaved. rewrite <- Hsaved. eapply frame_contents; [exact C3|]. intros x Hx.
      destruct (Hms x) as (Hxk&Hx0&Hxb); [by exists p, i|]. intros [[]|[->|Hx']]; [done|]. rewrite (Hg x) in Hxb; [done|exact Hx'].
  - apply wp_bind, wp_ret. destruct Ha as (_&_&_&Hro). destruct (Hro Hroom) as [-> Hnr]. rewrite (Hno eq_refl Hroom) in V3.
    apply Hend; [done|done|]. split; [|by eapply busy_acquire]. split; [|done].
    change (view s3 = view s). rewrite V3. done.
Qed.
End proofs.
End FsCore.
