(* ===== verification/FsOps.v ===== *)
(** * Operations on directories and open files

    The effect of [dir_add], of opening and closing directories and files, and
    of transfers through a file position, on the core of the state. *)

From S2P Require Import Prelude.
From S2P Require Import Mem.
From S2P Require Import Words.
From S2P Require Import Bitmap.
From S2P Require Import Device.
From S2P Require Import Fs.
From S2P Require Import FsInode.
From S2P Require Import FsMap.
From S2P Require Import Directory.
From S2P Require Import FsDir.
From S2P Require Import FsCore.
Local Open Scope Z_scope.

Module FsOps.
Import Mem Words Fs FsInode FsMap FsDir FsCore Directory.

(** A name that a directory can hold. *)
Definition valid_name (nm : list Z) : Prop := string_ok nm /\ nm <> [] /\ (length nm <= 14)%nat.

Section proofs.
Context {dev : Type} `{!Device.Device dev} `{!Device.Allocator} {Hroom : Device.Roomy} (cur : Z).
Implicit Types (s : state dev) (p d : ptr) (i : inode) (f nm e : list Z).

(** Overwriting a range of a file that ends before its end. *)
Lemma write_within s p i bs off :
  good s -> p <> NULL -> heap s !! p = Some (OInode i) -> idle i -> extent (disk s) (data_start i) (data_length i) ->
  0 <= off -> 0 < zlen bs -> off + zlen bs <= data_length i -> Forall (in_u 8) bs ->
  wp (inode_write_at p bs (zlen bs) off) (fun k s' => k = zlen bs /\ exists m', stores s m' s' /\
    contents m' (data_start i) (data_length i) = splice (contents (disk s) (data_start i) (data_length i)) (Z.to_nat off) bs /\
    frame (in_extent (data_start i) (data_length i)) (disk s) m') s.
Proof.
  intros Hg Hp Hi Hid Hx Ho Hz Hl Hu. pose proof (ext_len _ _ _ Hx).
  eapply wp_mono; [apply (inode_write_at_ok s p i); (done || lia)|]. intros k s' (m'&Hk&Hr&Hw&Hs').
  assert (k = zlen bs) as -> by (rewrite (Hr Hroom); unfold full; lia). split; [done|]. exists m'. split; [done|].
  destruct (write_contents s s' m' (data_start i) (data_length i) off (zlen bs) bs) as [Hc Hf]; try done; try lia.
  rewrite (st_disk _ _ _ Hs') in Hc, Hf. rewrite Nat2Z.id, take_ge in Hc by lia. split; [done|]. split; [apply Hw|exact Hf].
Qed.

Lemma wrote_nothing s m' s' x : good s -> stores s m' s' -> wrote (disk s) x [] m' -> m' = disk s.
Proof.
  intros Hg Hs' Hw. apply map_eq. intros n. apply disk_ext; [by apply good_sized|rewrite <- (st_disk _ _ _ Hs'); apply good_sized, Hs'|apply Hw|].
  intros y _. rewrite (wrote_byte _ _ _ _ Hw), decide_False; [done|]. simpl. lia.
Qed.

Lemma write_past s p i bs size off :
  good s -> p <> NULL -> heap s !! p = Some (OInode i) -> idle i -> extent (disk s) (data_start i) (data_length i) ->
  0 <= off < 2 ^ 31 -> data_length i <= off -> 0 <= size <= zlen bs -> Forall (in_u 8) bs ->
  wp (inode_write_at p bs size off) (fun k s' => k = 0 /\ stores s (disk s) s') s.
Proof.
  intros Hg Hp Hi Hid Hx Ho Hl Hz Hu.
  eapply wp_mono; [apply (inode_write_at_ok s p i); (done || lia)|]. intros k s' (m'&Hk&_&Hw&Hs').
  unfold full in Hk. assert (k = 0) as -> by lia. split; [done|]. by rewrite <- (wrote_nothing _ _ _ _ Hg Hs' Hw).
Qed.

Definition add_post s i f nm sec (r : bool) s' : Prop :=
  busy None None s' /\
  if r then exists j old e m', list_find (is_name nm) (entries f) = None /\ list_find is_free (entries f) = Some (j, old) /\
    entry_ok e /\ is_name nm e /\ e_sector e = sec /\ view s' = put_disk m' (view s) /\
    contents m' (data_start i) (data_length i) = splice f (Z.to_nat (20 * Z.of_nat j)) e /\
    frame (in_extent (data_start i) (data_length i)) (disk s) m'
  else view s' = view s /\ (list_find (is_name nm) (entries f) <> None \/ list_find is_free (entries f) = None).

Lemma dir_add_ok s d k p i f nm sec :
  busy None None s -> d <> NULL -> heap s !! d = Some (ODir (File p k)) -> dir_file s p i f -> zlen f mod 20 = 0 ->
  valid_name nm -> in_u 32 sec -> wp (dir_add cur d nm sec) (add_post s i f nm sec) s.
Proof.
  intros Hb Hd Hh Hf Hmod (Hnm&Hne&Hl) Hsec. unfold dir_add.
  apply wp_bind, wp_assert. split; [by rewrite (proj2 (Z.eqb_neq _ _) Hd)|]. apply wp_bind, wp_dir_acquire; [apply Hb|].
  set (s1 := set_dir_lock (Some cur) s). assert (busy None (Some cur) s1) as Hb1 by (by eapply busy_dir).
  assert (dir_file s1 p i f) as Hf1 by (destruct Hf; by split).
  replace (match nm with [] => true | _ => false end || (NAME_MAX <? zlen nm)) with false by (destruct nm; [done|]; symmetry; apply Z.ltb_ge; lia).
  apply wp_bind. eapply wp_mono; [by apply (lookup_ok s1 d k p i f nm)|]. intros r s2 [Hs2 ->].
  pose proof (stores_busy _ _ _ _ _ Hs2 Hb1) as Hb2. change (disk s1) with (disk s) in Hs2.
  assert (Hend : forall ok s3, busy None (Some cur) s3 -> add_post s i f nm sec ok (set_dir_lock None s3) ->
    wp (do! on_dir_lock (lock_release cur) in ret ok) (add_post s i f nm sec) s3).
  { intros ok s3 Hb3 Hp. apply wp_bind, wp_dir_release; [apply Hb3|]. by apply wp_ret. }
  assert (view s2 = view s) as V2 by (rewrite (stores_view _ _ _ Hs2); done).
  destruct (list_find (is_name nm) (entries f)) as [x|] eqn:El; cbn [fmap option_fmap option_map].
  { apply wp_bind, wp_ret, Hend; [done|]. split; [by eapply busy_dir|]. split; [exact V2|left; by rewrite El]. }
  assert (dir_file s2 p i f) as Hf2 by (eapply dir_file_stores; [exact Hs2|done]).
  apply wp_bind, wp_bind. eapply wp_dir_at; [by rewrite (stores_heap _ _ _ Hs2)|]. cbn [f_inode].
  apply wp_bind. eapply wp_entry_fuel; [done|]. apply wp_bind.
  eapply wp_mono; [apply (slot_loop_ok _ s2 p i f (replicate 20 0) 0%nat Hf2); [done|by apply Forall_replicate|lia|lia]|].
  intros [e ofs] s3 (Hs3&Hel&Heu&Hr). cbn [fst snd] in *. rewrite drop_0 in Hr. rewrite (st_disk _ _ _ Hs2) in Hs3.
  assert (stores s1 (disk s) s3) as Hs13 by (eapply stores_trans; done).
  pose proof (stores_busy _ _ _ _ _ Hs13 Hb1) as Hb3. assert (dir_file s3 p i f) as Hf3 by (eapply dir_file_stores; [exact Hs13|done]).
  assert (view s3 = view s) as V3 by (rewrite (stores_view _ _ _ Hs13); done).
  cbv zeta. change (set_in_use true e) with (splice e 19 [1]). set (e1 := splice e 19 [1]).
  assert (length e1 = 20%nat) as Hl1 by (unfold e1; rewrite splice_length; simpl; lia).
  assert (Forall (in_u 8) e1) as Hu1.
  { unfold e1, splice. rewrite !Forall_app. split_and!; [by apply Forall_take|by repeat constructor|by apply Forall_drop]. }
  assert (length (e_name e1) = 15%nat) as Hn1 by (unfold e_name; rewrite length_take, length_drop; lia).
  assert (Forall (in_u 8) (e_name e1)) as Hnu1 by (by apply Forall_take, Forall_drop).
  apply wp_bind, wp_lift. eexists. split.
  { apply (strlcpy_ok _ _ nm []); try done; [by apply string_bytes| |by apply string_zero]. rewrite length_app. simpl. lia. }
  destruct (name_field_ok nm (e_name e1) Hnm Hl Hn1 Hnu1) as (Hf15&Hfu&Hf0&Hfc). set (n15 := splice (e_name e1) 0 (nm ++ [0])) in *.
  unfold e1. rewrite set_fields by done. destruct (entry_fields sec n15 1 Hf15 Hsec) as (Fs&Fn&Fu). set (new := make_entry sec n15 1) in *.
  assert (length new = 20%nat) as Hnl by (unfold new, make_entry; rewrite !length_app, Hf15; done).
  assert (Forall (in_u 8) new) as Hnu.
  { unfold new, make_entry. rewrite !Forall_app. split_and!; [apply le32_bytes|done|by repeat constructor]. }
  pose proof (df_len _ _ _ _ Hf3) as [Ef Ef2]. pose proof Hf3 as [Hg3 Hp3 Hi3 Hid3 Hx3 Hc3 He3].
  apply wp_bind. replace ENTRY_SIZE with (zlen new) at 1 by lia.
  destruct (list_find is_free (entries f)) as [[j old]|] eqn:Ej.
  - injection Hr as -> ->. apply list_find_Some in Ej as Ej'. destruct Ej' as (Ej1&Ej2&_).
    rewrite entries_lookup in Ej1. case_decide; [|done]. cbn [Nat.add].
    eapply wp_mono; [apply (write_within s3 p i new); (done || lia)|]. intros n s4 (->&m'&Hs4&Hc4&Hfr).
    rewrite Hnl. apply wp_ret, Hend; [by eapply stores_busy|]. split; [eapply busy_dir, stores_busy; done|].
    exists j, old, new, m'. assert (disk s3 = disk s) as Ed by apply Hs13. rewrite Ed in Hfr. rewrite Hc3 in Hc4.
    split_and!; try done.
    + split; [done|done|]. intros _. by rewrite Fn.
    + split; [by rewrite Fu|]. unfold name_of. by rewrite Fn.
    + change (view s4 = put_disk m' (view s)). by rewrite (stores_view _ _ _ Hs4), V3.
  - assert (20 * zlen (entries f) = zlen f) as Hend20 by (unfold entries; rewrite length_fmap, length_seqZ; zlia).
    eapply wp_mono; [apply (write_past s3 p i new); (done || lia)|]. intros n s4 [-> Hs4].
    apply wp_ret, Hend; [by eapply stores_busy|]. split; [eapply busy_dir, stores_busy; done|]. split; [|by right].
    change (view s4 = view s). rewrite (stores_view _ _ _ Hs4), V3. assert (disk s3 = disk s) as -> by apply Hs13. done.
Qed.

(** A name that cannot be added: the lock of the directories is kept. *)
Lemma dir_add_invalid s d nm sec : d <> NULL -> dir_lock s = None -> nm = [] \/ 14 < zlen nm ->
  dir_add cur d nm sec s = Ok (false, set_dir_lock (Some cur) s).
Proof.
  intros Hd Hl Hnm. unfold dir_add. rewrite (proj2 (Z.eqb_neq _ _) Hd). unfold bind, assert, ret. cbn [negb].
  unfold on_dir_lock, zoom. rewrite Hl. cbn [lock_acquire].
  replace (match nm with [] => true | _ => false end || (NAME_MAX <? zlen nm)) with true; [done|].
  destruct Hnm as [->|?]; [done|]. rewrite (proj2 (Z.ltb_lt _ _)) by done. by rewrite orb_true_r.
Qed.
End proofs.
End FsOps.
