(* ===== verification/FsInv.v ===== *)
(** * The invariant of the file system

    [nodes] are the inodes in use, by sector, with the extents of their data;
    [names] are the entries of the root directory.  [pend] are references to
    open inodes that a routine holds in a local variable.  One lemma per step
    of the operations says that the invariant is kept. *)

From S2P Require Import Prelude.
From S2P Require Import Mem.
From S2P Require Import Words.
From S2P Require Import Bitmap.
From S2P Require Import Fs.
From S2P Require Import FsInode.
From S2P Require Import FsMap.
From S2P Require Import Directory.
From S2P Require Import FsDir.
From S2P Require Import FsCore.
Local Open Scope Z_scope.

Module FsInv.
Import Mem Words Fs FsInode FsMap FsDir FsCore Directory.

(** ** References to inodes *)

Definition points (o : obj) : option ptr :=
  match o with OFile f | ODir f => Some (f_inode f) | OInode _ => None end.

Definition refs (h : gmap ptr obj) (p : ptr) : Z := Z.of_nat (size (filter (fun x => points x.2 = Some p) h)).
Definition held (pend : list ptr) (p : ptr) : Z := zlen (filter (fun q => q = p) pend).

Definition to (o : obj) (p : ptr) : Z := if decide (points o = Some p) then 1 else 0.

Lemma refs_new h q o p : h !! q = None -> refs (<[q := o]> h) p = refs h p + to o p.
Proof.
  intros Hq. unfold refs, to. case_decide as E.
  - rewrite map_filter_insert_True by done. rewrite map_size_insert_None; [lia|]. apply map_lookup_filter_None. by left.
  - rewrite map_filter_insert_False by done. rewrite delete_id by done. lia.
Qed.

Lemma refs_delete h q o p : h !! q = Some o -> refs (delete q h) p = refs h p - to o p.
Proof.
  intros Hq. pose proof (refs_new (delete q h) q o p ltac:(apply lookup_delete_eq)) as E.
  rewrite insert_delete_id in E by done. lia.
Qed.

Lemma refs_update h q o o' p : h !! q = Some o -> points o' = points o -> refs (<[q := o']> h) p = refs h p.
Proof.
  intros Hq E. rewrite <- insert_delete_eq, refs_new, (refs_delete _ _ _ _ Hq) by apply lookup_delete_eq.
  unfold to. rewrite E. lia.
Qed.

Lemma refs_range h p : 0 <= refs h p <= Z.of_nat (size h).
Proof. unfold refs. split; [lia|]. apply inj_le, map_subseteq_size, map_filter_subseteq. Qed.

Lemma refs_zero h p : refs h p = 0 -> forall q o, h !! q = Some o -> points o <> Some p.
Proof.
  unfold refs. intros E q o Hq Ho. assert (filter (fun x => points x.2 = Some p) h = ∅) as Em by (apply map_size_empty_iff; lia).
  assert (filter (fun x => points x.2 = Some p) h !! q = Some o) as Hl by (by apply map_lookup_filter_Some).
  by rewrite Em, lookup_empty in Hl.
Qed.

Lemma refs_some h p : refs h p <> 0 -> exists q o, h !! q = Some o /\ points o = Some p.
Proof.
  unfold refs. intros Hne. destruct (map_choose (filter (fun x => points x.2 = Some p) h)) as (q&o&[? ?]%map_lookup_filter_Some).
  - intros E. rewrite E, map_size_empty in Hne. done.
  - by exists q, o.
Qed.

Lemma held_cons q pend p : held (q :: pend) p = held pend p + if decide (q = p) then 1 else 0.
Proof. unfold held. rewrite filter_cons. case_decide; simpl; lia. Qed.

Lemma held_pos pend p : 0 <= held pend p.
Proof. unfold held. lia. Qed.

Lemma held_in pend p : p ∈ pend -> 0 < held pend p.
Proof.
  intros H. unfold held. destruct (filter (fun q => q = p) pend) eqn:E; [|simpl; lia].
  assert (p ∈ filter (fun q => q = p) pend) as Hf by (by apply list_elem_of_filter). rewrite E in Hf. by apply elem_of_nil in Hf.
Qed.

(** ** The parts of the invariant *)

Abbreviation nodes := (gmap Z (Z * Z)).

(** Sector [n] belongs to the inode in sector [k]. *)
Definition owns (N : nodes) (k n : Z) : Prop :=
  exists st len, N !! k = Some (st, len) /\ (n = k \/ in_extent st len n).

Record nodes_ok (c : core) (N : nodes) : Prop := NodesOk {
  n_disk k st len : N !! k = Some (st, len) -> c_disk c !! k = Some (encode_inode st len INODE_MAGIC);
  n_extent k st len : N !! k = Some (st, len) -> extent (c_disk c) st len /\ 0 <= st < 2 ^ 32 /\ st + nsec len <= Bitmap.bit_cnt (c_map c) /\ len + 511 < 2 ^ 31;
  n_apart k st len : N !! k = Some (st, len) -> ~ in_extent st len k;
  n_disj k1 k2 n : owns N k1 n -> owns N k2 n -> k1 = k2;
  n_used k n : owns N k n -> Bitmap.bit (c_map c) n = true }.

(** The disk has the sectors the free map has bits for. *)
Record disk_ok (c : core) : Prop := DiskOk {
  d_sized : sized (c_disk c);
  d_dom n : is_Some (c_disk c !! n) <-> 0 <= n < Bitmap.bit_cnt (c_map c);
  d_wf : Bitmap.wf (c_map c) }.

Definition open_inode (h : gmap ptr obj) (p : ptr) : Prop := exists i, h !! p = Some (OInode i).

Record heap_ok (c : core) (N : nodes) (pend : list ptr) : Prop := HeapOk {
  h_null : c_heap c !! NULL = None;
  h_open p : p ∈ c_open c <-> open_inode (c_heap c) p;
  h_nodup : NoDup (c_open c);
  h_idle p i : c_heap c !! p = Some (OInode i) -> idle i;
  h_node p i : c_heap c !! p = Some (OInode i) -> N !! sector i = Some (data_start i, data_length i);
  h_count p i : c_heap c !! p = Some (OInode i) -> open_cnt i = refs (c_heap c) p + held pend p /\ 1 <= open_cnt i;
  h_unique p q i j : c_heap c !! p = Some (OInode i) -> c_heap c !! q = Some (OInode j) -> sector i = sector j -> p = q;
  h_ref q o p : c_heap c !! q = Some o -> points o = Some p -> open_inode (c_heap c) p;
  h_pend p : p ∈ pend -> open_inode (c_heap c) p;
  h_pos q fl : c_heap c !! q = Some (OFile fl) \/ c_heap c !! q = Some (ODir fl) -> 0 <= pos fl < 2 ^ 31 }.

(** The root directory holds 16 entries. *)
Abbreviation ROOT_LEN := 320%Z.

Record root_ok (c : core) (N : nodes) (names : gmap (list Z) Z) (rst : Z) : Prop := RootOk {
  r_node : N !! ROOT_DIR_SECTOR = Some (rst, ROOT_LEN);
  r_entries : Forall entry_ok (entries (contents (c_disk c) rst ROOT_LEN));
  r_names nm k : names !! nm = Some k <->
    exists j e, entries (contents (c_disk c) rst ROOT_LEN) !! j = Some e /\ is_name nm e /\ e_sector e = k;
  r_uniq j j' e e' : entries (contents (c_disk c) rst ROOT_LEN) !! j = Some e -> entries (contents (c_disk c) rst ROOT_LEN) !! j' = Some e' ->
    e_in_use e = true -> e_in_use e' = true -> name_of e = name_of e' \/ e_sector e = e_sector e' -> j = j';
  r_linked nm k : names !! nm = Some k -> is_Some (N !! k) /\ k <> FREE_MAP_SECTOR /\ k <> ROOT_DIR_SECTOR;
  r_all k : is_Some (N !! k) -> k = FREE_MAP_SECTOR \/ k = ROOT_DIR_SECTOR \/ (exists nm, names !! nm = Some k) \/
    (exists p i, c_heap c !! p = Some (OInode i) /\ sector i = k /\ removed i = true);
  r_removed p i : c_heap c !! p = Some (OInode i) ->
    (removed i = true <-> sector i <> FREE_MAP_SECTOR /\ sector i <> ROOT_DIR_SECTOR /\ forall nm, names !! nm <> Some (sector i)) }.

(** The bytes [bs] are a copy of the bitmap; what follows its last bit in the
    last word does not matter. *)
Definition backs (bs : list Z) (b : Bitmap.bitmap) : Prop :=
  exists b', bs = words_bytes (Bitmap.bits b') /\ Bitmap.wf b' /\ Bitmap.bit_cnt b' = Bitmap.bit_cnt b /\
    forall j, 0 <= j < Bitmap.bit_cnt b -> Bitmap.bit b' j = Bitmap.bit b j.

Lemma backs_exact b : Bitmap.wf b -> backs (words_bytes (Bitmap.bits b)) b.
Proof. intros Hb. by exists b. Qed.

(** The free map file is open, and its copy on disk is up to date. *)
Record map_ok (c : core) (N : nodes) (mst : Z) : Prop := MapOk {
  m_node : N !! FREE_MAP_SECTOR = Some (mst, Bitmap.byte_cnt (Bitmap.bit_cnt (c_map c)));
  m_file : exists p k i, c_heap c !! c_file c = Some (OFile (File p k)) /\ c_heap c !! p = Some (OInode i) /\ sector i = FREE_MAP_SECTOR;
  m_saved : backs (contents (c_disk c) mst (Bitmap.byte_cnt (Bitmap.bit_cnt (c_map c)))) (c_map c) }.

Record inv (c : core) (N : nodes) (names : gmap (list Z) Z) (rst mst : Z) (pend : list ptr) : Prop := Inv {
  i_disk : disk_ok c;
  i_nodes : nodes_ok c N;
  i_heap : heap_ok c N pend;
  i_root : root_ok c N names rst;
  i_map : map_ok c N mst }.

Section transitions.
Context (c : core) (N : nodes) (names : gmap (list Z) Z) (rst mst : Z).
Implicit Types (p q : ptr) (i : inode) (pend : list ptr).

Abbreviation inv_at c pend := (inv c N names rst mst pend).

Lemma owns_self k st len : N !! k = Some (st, len) -> owns N k k.
Proof. intros H. exists st, len. split; [done|by left]. Qed.

Lemma owns_data k st len n : N !! k = Some (st, len) -> in_extent st len n -> owns N k n.
Proof. intros H ?. exists st, len. split; [done|by right]. Qed.

(** ** Reference counts and objects *)

(** A change of objects that leaves the inodes as they are but for their
    reference counts. *)
Lemma inv_heap h l pend pend' :
  inv_at c pend -> heap_ok (put_open l (put_heap h c)) N pend' ->
  (forall p i, h !! p = Some (OInode i) ->
     (exists i', c_heap c !! p = Some (OInode i') /\ sector i' = sector i /\ removed i' = removed i) \/
     (removed i = false /\ (sector i = FREE_MAP_SECTOR \/ sector i = ROOT_DIR_SECTOR \/ exists nm, names !! nm = Some (sector i)))) ->
  (forall p i, c_heap c !! p = Some (OInode i) -> removed i = true -> exists i', h !! p = Some (OInode i') /\ sector i' = sector i /\ removed i' = true) ->
  (exists p k i, h !! c_file c = Some (OFile (File p k)) /\ h !! p = Some (OInode i) /\ sector i = FREE_MAP_SECTOR) ->
  inv_at (put_open l (put_heap h c)) pend'.
Proof.
  intros [D Nd H R M] Hh Hback Hrem Hfile. split; [by destruct D; split|by destruct Nd; split|done| |].
  - destruct R as [r1 r2 r3 r4 r5 r6 r7]. split; try done; cbn.
    + intros k [?|[?|[?|(p&i&Hp&Hs&Hr)]]]%r6; auto. do 3 right. destruct (Hrem p i Hp Hr) as (i'&?&?&?). exists p, i'. split_and!; [done|congruence|done].
    + intros p i [(i'&Hp&<-&<-)|[-> Hl]]%Hback; [by apply r7 with p|]. split; [done|]. intros (?&?&Hnm).
      destruct Hl as [?|[?|[nm ?]]]; [done..|]. by destruct (Hnm nm).
  - destruct M as [m1 m2 m3]. by split.
Qed.

Lemma inode_small pend p i : inv_at c pend -> c_heap c !! p = Some (OInode i) -> Z.of_nat (size (c_heap c)) + zlen pend < INT_MAX ->
  1 <= open_cnt i < INT_MAX.
Proof.
  intros Hi Hp Hs. destruct (h_count _ _ _ (i_heap _ _ _ _ _ _ Hi) p i Hp) as [E ?]. pose proof (refs_range (c_heap c) p).
  unfold held in E. pose proof (length_filter (fun q => q = p) pend). lia.
Qed.

(** An inode whose reference count, or flag, has changed. *)
Lemma heap_upd p i i' pend pend' : heap_ok c N pend -> c_heap c !! p = Some (OInode i) ->
  sector i' = sector i -> data i' = data i -> idle i' ->
  open_cnt i' = refs (c_heap c) p + held pend' p -> 1 <= open_cnt i' ->
  (forall q, q <> p -> held pend' q = held pend q) -> (forall q, q ∈ pend' -> q = p \/ q ∈ pend) ->
  heap_ok (put_heap (<[p := OInode i']> (c_heap c)) c) N pend'.
Proof.
  intros [H1 H2 H3 H4 H5 H6 H7 H8 H9 H10] Hp Es Ed Hid Ec Hc Hheld Hpend.
  assert (forall q o, <[p := OInode i']> (c_heap c) !! q = Some o -> (q = p /\ o = OInode i') \/ (q <> p /\ c_heap c !! q = Some o)) as Hlk.
  { intros x o [[-> <-]|[? ?]]%lookup_insert_Some; auto. }
  assert (forall q, open_inode (<[p := OInode i']> (c_heap c)) q <-> open_inode (c_heap c) q) as Ho.
  { intros x. unfold open_inode. destruct (decide (x = p)) as [->|]; [rewrite lookup_insert_eq, Hp; split; eauto|by rewrite lookup_insert_ne]. }
  assert (forall q, refs (<[p := OInode i']> (c_heap c)) q = refs (c_heap c) q) as Hr by (intros; by eapply refs_update).
  assert (forall q j, q <> p -> c_heap c !! q = Some (OInode j) -> sector j <> sector i') as Hne.
  { intros q j Hq Hj E. apply Hq. eapply H7; [done|done|congruence]. }
  split; cbn; try done.
  - rewrite lookup_insert_ne; [done|]. intros ->. congruence.
  - intros x. by rewrite Ho.
  - intros x o [[-> [= ->]]|[_ ?]]%Hlk; [done|by eapply H4].
  - intros x o [[-> [= ->]]|[_ ?]]%Hlk; [|by eapply H5]. unfold data_start, data_length. rewrite Es, Ed. by apply (H5 p).
  - intros x o. rewrite Hr. intros [[-> [= ->]]|[? Hx]]%Hlk; [done|]. rewrite Hheld by done. by apply H6.
  - intros x y o o' [[-> [= ->]]|[? Hx]]%Hlk [[-> [= ->]]|[? Hy]]%Hlk E; [done| | |by eapply H7].
    + by destruct (Hne y o').
    + by destruct (Hne x o).
  - intros x o y [[-> ->]|[? Hx]]%Hlk Hy; [done|]. rewrite Ho. by eapply H8.
  - intros x [->|Hx]%Hpend; rewrite Ho; [by exists i|by apply H9].
  - intros x fl [[[-> [=]]|[? ?]]%Hlk|[[-> [=]]|[? ?]]%Hlk]; eapply H10; eauto.
Qed.

Lemma inv_recount p i i' pend pend' : inv_at c pend -> c_heap c !! p = Some (OInode i) ->
  sector i' = sector i -> data i' = data i -> removed i' = removed i -> idle i' ->
  open_cnt i' = refs (c_heap c) p + held pend' p -> 1 <= open_cnt i' ->
  (forall q, q <> p -> held pend' q = held pend q) -> (forall q, q ∈ pend' -> q = p \/ q ∈ pend) ->
  inv_at (put_heap (<[p := OInode i']> (c_heap c)) c) pend'.
Proof.
  intros Hi Hp Es Ed Er Hid Ec Hc Hheld Hpend. pose proof Hi as [_ _ Hh _ [_ (q&k&j&Hf&Hq&Hj) _]].
  change (put_heap (<[p := OInode i']> (c_heap c)) c) with (put_open (c_open c) (put_heap (<[p := OInode i']> (c_heap c)) c)).
  eapply inv_heap; [done|by eapply heap_upd| | |].
  - intros x o [[-> [= <-]]|[? ?]]%lookup_insert_Some; left; eauto.
  - intros x o Hx Hrm. destruct (decide (x = p)) as [->|]; [|rewrite lookup_insert_ne by done; eauto].
    rewrite lookup_insert_eq. rewrite Hp in Hx. simplify_eq. exists i'. split_and!; [done|done|congruence].
  - assert (p <> c_file c) by (intros ->; congruence). rewrite lookup_insert_ne by done. destruct (decide (q = p)) as [->|].
    + rewrite Hp in Hq. simplify_eq. exists p, k, i'. rewrite lookup_insert_eq. split_and!; [done|done|congruence].
    + exists q, k, j. by rewrite lookup_insert_ne.
Qed.

Lemma inv_reopened pend p i : inv_at c pend -> c_heap c !! p = Some (OInode i) -> inv_at (reopened p i c) (p :: pend).
Proof.
  intros Hi Hp. pose proof (i_heap _ _ _ _ _ _ Hi) as Hh. destruct (h_count _ _ _ Hh p i Hp). eapply inv_recount; try done.
  - by destruct (h_idle _ _ _ Hh p i Hp).
  - rewrite held_cons, decide_True by done. cbn. lia.
  - cbn. lia.
  - intros q Hq. rewrite held_cons, decide_False by done. lia.
  - intros q [->|?]%elem_of_cons; auto.
Qed.

Lemma inv_unref pend p i : inv_at c (p :: pend) -> c_heap c !! p = Some (OInode i) -> open_cnt i <> 1 ->
  inv_at (put_heap (<[p := OInode (unref i)]> (c_heap c)) c) pend.
Proof.
  intros Hi Hp Hc. pose proof (i_heap _ _ _ _ _ _ Hi) as Hh. destruct (h_count _ _ _ Hh p i Hp) as [Ec ?].
  rewrite held_cons, decide_True in Ec by done. eapply inv_recount; try done.
  - by destruct (h_idle _ _ _ Hh p i Hp).
  - cbn. lia.
  - cbn. lia.
  - intros q Hq. rewrite held_cons, decide_False by done. lia.
  - intros q ?. right. by right.
Qed.

(** A file or a directory takes over the reference of a local variable. *)
Lemma inv_new_obj pend q o p : inv_at c (p :: pend) -> q <> NULL -> c_heap c !! q = None -> points o = Some p ->
  (forall fl, o = OFile fl \/ o = ODir fl -> 0 <= pos fl < 2 ^ 31) -> inv_at (put_heap (<[q := o]> (c_heap c)) c) pend.
Proof.
  intros Hi Hq0 Hq Ho Hpos. pose proof Hi as [_ _ [H1 H2 H3 H4 H5 H6 H7 H8 H9 H10] _ [_ (x&k&j&Hf&Hx&Hj) _]].
  assert (forall x o', <[q := o]> (c_heap c) !! x = Some o' -> (x = q /\ o' = o) \/ (x <> q /\ c_heap c !! x = Some o')) as Hlk.
  { intros y o' [[-> <-]|[? ?]]%lookup_insert_Some; auto. }
  assert (forall i, o <> OInode i) as Hoi by (intros i ->; done).
  assert (forall y, open_inode (<[q := o]> (c_heap c)) y <-> open_inode (c_heap c) y) as Hopen.
  { intros y. unfold open_inode. destruct (decide (y = q)) as [->|]; [|by rewrite lookup_insert_ne].
    rewrite lookup_insert_eq, Hq. split; [intros [i [= ?]]; by destruct (Hoi i)|by intros [? ?]]. }
  change (put_heap (<[q := o]> (c_heap c)) c) with (put_open (c_open c) (put_heap (<[q := o]> (c_heap c)) c)).
  eapply inv_heap; [done| | | |].
  - split; cbn; try done.
    + by rewrite lookup_insert_ne.
    + intros y. by rewrite Hopen.
    + intros y i [[_ ?]|[? ?]]%Hlk; [by destruct (Hoi i)|by eapply H4].
    + intros y i [[_ ?]|[? ?]]%Hlk; [by destruct (Hoi i)|by eapply H5].
    + intros y i [[_ ?]|[? Hy]]%Hlk; [by destruct (Hoi i)|]. destruct (H6 y i Hy) as [E ?]. split; [|done].
      rewrite E, held_cons, refs_new by done. unfold to. rewrite Ho. repeat case_decide; simplify_eq; lia.
    + intros y z i j' [[_ ?]|[? ?]]%Hlk [[_ ?]|[? ?]]%Hlk; [by destruct (Hoi i)|by destruct (Hoi i)|by destruct (Hoi j')|]. by eapply H7.
    + intros y o' z [[-> ->]|[? ?]]%Hlk Hz; rewrite Hopen; [simplify_eq; apply H9; by left|by eapply H8].
    + intros y Hy. rewrite Hopen. apply H9. by right.
    + intros y fl Hy. destruct (decide (y = q)) as [->|Hne].
      * rewrite lookup_insert_eq in Hy. apply Hpos. destruct Hy as [[= ->]|[= ->]]; auto.
      * rewrite lookup_insert_ne in Hy by done. by eapply H10.
  - intros y i [[_ ?]|[? ?]]%Hlk; [by destruct (Hoi i)|left; eauto].
  - intros y i Hy Hr. exists i. rewrite lookup_insert_ne; [done|]. intros ->. congruence.
  - exists x, k, j. rewrite !lookup_insert_ne by (intros ->; congruence). done.
Qed.

(** And gives it back. *)
Lemma inv_drop_obj pend q o p : inv_at c pend -> c_heap c !! q = Some o -> points o = Some p -> q <> c_file c ->
  inv_at (put_heap (delete q (c_heap c)) c) (p :: pend).
Proof.
  intros Hi Hq Ho Hqf. pose proof Hi as [_ _ [H1 H2 H3 H4 H5 H6 H7 H8 H9 H10] _ [_ (x&k&j&Hf&Hx&Hj) _]].
  assert (forall i, o <> OInode i) as Hoi by (intros i ->; done).
  assert (forall x o', delete q (c_heap c) !! x = Some o' -> x <> q /\ c_heap c !! x = Some o') as Hlk.
  { intros y o' [? ?]%lookup_delete_Some. auto. }
  assert (forall y i, c_heap c !! y = Some (OInode i) -> delete q (c_heap c) !! y = Some (OInode i)) as Hin.
  { intros y i Hy. rewrite lookup_delete_ne; [done|]. intros ->. rewrite Hq in Hy. injection Hy as ->. by destruct (Hoi i). }
  assert (forall y, open_inode (delete q (c_heap c)) y <-> open_inode (c_heap c) y) as Hopen.
  { intros y. split; [intros [i [_ ?]%Hlk]|intros [i ?%Hin]]; by exists i. }
  change (put_heap (delete q (c_heap c)) c) with (put_open (c_open c) (put_heap (delete q (c_heap c)) c)).
  eapply inv_heap; [done| | | |].
  - split; cbn; try done.
    + destruct (decide (NULL = q)) as [<-|]; [apply lookup_delete_eq|by rewrite lookup_delete_ne].
    + intros y. by rewrite Hopen.
    + intros y i [_ ?]%Hlk; by eapply H4.
    + intros y i [_ ?]%Hlk; by eapply H5.
    + intros y i [_ Hy]%Hlk. destruct (H6 y i Hy) as [E ?]. split; [|done].
      rewrite E, held_cons, (refs_delete _ _ _ _ Hq). unfold to. rewrite Ho. repeat case_decide; simplify_eq; lia.
    + intros y z i j' [_ ?]%Hlk [_ ?]%Hlk. by eapply H7.
    + intros y o' z [_ ?]%Hlk Hz. rewrite Hopen. by eapply H8.
    + intros y [->|Hy]%elem_of_cons; rewrite Hopen; [by apply (H8 q o)|by apply H9].
    + intros y fl [[_ ?]%Hlk|[_ ?]%Hlk]; eapply H10; eauto.
  - intros y i [_ ?]%Hlk; left; eauto.
  - intros y i Hy%Hin Hr. eauto.
  - exists x, k, j. rewrite lookup_delete_ne by done. split; [done|]. split; [by apply Hin|done].
Qed.

(** The position of a file. *)
Lemma inv_position pend q p k k' : inv_at c pend -> c_heap c !! q = Some (OFile (File p k)) -> 0 <= k' < 2 ^ 31 ->
  inv_at (put_heap (<[q := OFile (File p k')]> (c_heap c)) c) pend.
Proof.
  intros Hi Hq Hk. pose proof Hi as [_ _ [H1 H2 H3 H4 H5 H6 H7 H8 H9 H10] _ [_ (x&kx&j&Hf&Hx&Hj) _]].
  assert (forall x o, <[q := OFile (File p k')]> (c_heap c) !! x = Some o -> (x = q /\ o = OFile (File p k')) \/ (x <> q /\ c_heap c !! x = Some o)) as Hlk.
  { intros y o [[-> <-]|[? ?]]%lookup_insert_Some; auto. }
  assert (forall y i, <[q := OFile (File p k')]> (c_heap c) !! y = Some (OInode i) <-> c_heap c !! y = Some (OInode i)) as Hin.
  { intros y i. destruct (decide (y = q)) as [->|]; [rewrite lookup_insert_eq, Hq; split; done|by rewrite lookup_insert_ne]. }
  assert (forall y, refs (<[q := OFile (File p k')]> (c_heap c)) y = refs (c_heap c) y) as Hr by (intros; by eapply refs_update).
  change (put_heap (<[q := OFile (File p k')]> (c_heap c)) c) with (put_open (c_open c) (put_heap (<[q := OFile (File p k')]> (c_heap c)) c)).
  eapply inv_heap; [done| | | |].
  - split; unfold open_inode; cbn; try done.
    + rewrite lookup_insert_ne; [done|]. intros ->. congruence.
    + intros y. setoid_rewrite Hin. apply H2.
    + intros y i. rewrite Hin. apply H4.
    + intros y i. rewrite Hin. apply H5.
    + intros y i. rewrite Hin, Hr. apply H6.
    + intros y z i j'. rewrite !Hin. apply H7.
    + intros y o z Hy Hz. setoid_rewrite Hin. apply Hlk in Hy as [[-> ->]|[_ Hy]]; [by eapply (H8 q)|by eapply H8].
    + intros y. setoid_rewrite Hin. apply H9.
    + intros y fl [[[-> [= ->]]|[? ?]]%Hlk|[[-> [=]]|[? ?]]%Hlk]; [done|eapply H10; eauto..].
  - intros y i. rewrite Hin. left. eauto.
  - intros y i. setoid_rewrite Hin. eauto.
  - destruct (decide (q = c_file c)) as [->|].
    + rewrite Hq in Hf. simplify_eq. exists x, k', j. rewrite lookup_insert_eq, Hin. done.
    + exists x, kx, j. rewrite lookup_insert_ne, Hin by done. done.
Qed.

(** ** Opening and closing inodes *)

Lemma encode_fields st len k n r b1 b2 b3 : 0 <= st < 2 ^ 32 -> 0 <= len < 2 ^ 31 ->
  let i := Inode k n r (encode_inode st len INODE_MAGIC) b1 b2 b3 in data_start i = st /\ data_length i = len.
Proof.
  intros Hs Hl. cbn zeta. unfold data_start, data_length, encode_inode. cbn [data]. split.
  - rewrite take_app_length' by done. by apply le_le32.
  - rewrite drop_app_length' by done. rewrite take_app_length' by done. rewrite le_le32 by (unfold in_u; lia). apply wraps_small; unfold in_s; lia.
Qed.

Lemma inv_opened pend p k st len : inv_at c pend -> p <> NULL -> c_heap c !! p = None -> N !! k = Some (st, len) ->
  (forall q i, c_heap c !! q = Some (OInode i) -> sector i <> k) ->
  inv_at (opened p k (encode_inode st len INODE_MAGIC) c) (p :: pend).
Proof.
  intros Hi Hp0 Hp Hk Hno. pose proof Hi as [_ Nd [H1 H2 H3 H4 H5 H6 H7 H8 H9 H10] R [_ (x&kx&j&Hf&Hx&Hj) _]].
  destruct (n_extent _ _ Nd k st len Hk) as ([? ? ?]&?&?). set (i' := Inode k 1 false (encode_inode st len INODE_MAGIC) 0 1 1).
  destruct (encode_fields st len k 1 false 0 1 1 ltac:(lia) ltac:(lia)) as [Es El]. fold i' in Es, El.
  assert (forall q o, <[p := OInode i']> (c_heap c) !! q = Some o -> (q = p /\ o = OInode i') \/ (q <> p /\ c_heap c !! q = Some o)) as Hlk.
  { intros y o [[-> <-]|[? ?]]%lookup_insert_Some; auto. }
  assert (forall y, open_inode (<[p := OInode i']> (c_heap c)) y <-> y = p \/ open_inode (c_heap c) y) as Hopen.
  { intros y. unfold open_inode. destruct (decide (y = p)) as [->|]; [rewrite lookup_insert_eq; split; eauto|].
    rewrite lookup_insert_ne by done. naive_solver. }
  assert (refs (c_heap c) p = 0) as Hr0.
  { unfold refs. rewrite (proj2 (map_size_empty_iff _)); [done|]. apply map_empty. intros q. apply map_lookup_filter_None.
    right. intros o Hq Ho. cbn in Ho. destruct (H8 q o p Hq Ho) as [i Hip]. congruence. }
  assert (held pend p = 0) as Hh0.
  { unfold held. rewrite filter_none; [done|]. intros q Hq ->. destruct (H9 p Hq). congruence. }
  unfold opened. eapply (inv_heap (<[p := OInode i']> (c_heap c))); [done| | | |].
  - split; cbn; try done.
    + by rewrite lookup_insert_ne.
    + intros y. rewrite elem_of_cons, Hopen, H2. done.
    + constructor; [|done]. rewrite H2. intros [i ?]. congruence.
    + intros y o [[-> [= ->]]|[_ ?]]%Hlk; [by split|by eapply H4].
    + intros y o [[-> [= ->]]|[_ ?]]%Hlk; [by rewrite Es, El|by eapply H5].
    + intros y o. rewrite held_cons, refs_new by done. intros [[-> [= ->]]|[? Hy]]%Hlk; unfold to; cbn [points].
      * rewrite decide_False, decide_True by done. cbn. lia.
      * rewrite !decide_False by congruence. destruct (H6 y o Hy). lia.
    + intros y z o o' [[-> [= ->]]|[? Hy]]%Hlk [[-> [= ->]]|[? Hz]]%Hlk E; [done|by destruct (Hno z o')|by destruct (Hno y o)|by eapply H7].
    + intros y o z [[-> ->]|[? Hy]]%Hlk Hz; [done|]. rewrite Hopen. right. by eapply H8.
    + intros y [->|Hy]%elem_of_cons; rewrite Hopen; [by left|right; by apply H9].
    + intros y fl [[[-> [=]]|[? ?]]%Hlk|[[-> [=]]|[? ?]]%Hlk]; eapply H10; eauto.
  - intros y o [[-> [= ->]]|[? ?]]%Hlk; [|left; eauto]. right. split; [done|]. cbn [sector i'].
    destruct (r_all _ _ _ _ R k ltac:(eauto)) as [?|[?|[?|(q&o&Hq&Ho&_)]]]; auto. by destruct (Hno q o).
  - intros y o Hy Hrm. exists o. rewrite lookup_insert_ne; [done|]. intros ->. congruence.
  - exists x, kx, j. rewrite !lookup_insert_ne by (intros ->; congruence). done.
Qed.

(** The last reference goes. *)
Lemma last_ref pend p i : heap_ok c N (p :: pend) -> c_heap c !! p = Some (OInode i) -> open_cnt i = 1 ->
  (forall q o, c_heap c !! q = Some o -> points o <> Some p) /\ refs (c_heap c) p = 0 /\ held pend p = 0.
Proof.
  intros Hh Hp Hc. destruct (h_count _ _ _ Hh p i Hp) as [E _]. rewrite held_cons, decide_True in E by done.
  pose proof (refs_range (c_heap c) p). pose proof (held_pos pend p). assert (refs (c_heap c) p = 0) as Hr by lia.
  split; [by apply refs_zero|]. lia.
Qed.

Lemma heap_closed pend p i N' : heap_ok c N (p :: pend) -> c_heap c !! p = Some (OInode i) -> open_cnt i = 1 ->
  (forall k, k <> sector i -> N' !! k = N !! k) -> heap_ok (closed p c) N' pend.
Proof.
  intros Hh Hp Hc HN. destruct (last_ref pend p i Hh Hp Hc) as (Hnone&Hr&Hpd). pose proof Hh as [H1 H2 H3 H4 H5 H6 H7 H8 H9 H10].
  assert (forall x o', delete p (c_heap c) !! x = Some o' -> x <> p /\ c_heap c !! x = Some o') as Hlk.
  { intros y o' [? ?]%lookup_delete_Some. auto. }
  assert (forall y, open_inode (delete p (c_heap c)) y <-> y <> p /\ open_inode (c_heap c) y) as Hopen.
  { intros y. unfold open_inode. split; [intros [o [? ?]%Hlk]; eauto|]. intros [? [o ?]]. exists o. by rewrite lookup_delete_ne. }
  assert (forall q, refs (delete p (c_heap c)) q = refs (c_heap c) q) as Hrefs.
  { intros q. rewrite (refs_delete _ _ _ _ Hp). unfold to. cbn [points]. rewrite decide_False by done. lia. }
  split; cbn.
  - destruct (decide (NULL = p)) as [<-|]; [apply lookup_delete_eq|by rewrite lookup_delete_ne].
  - intros y. rewrite list_elem_of_filter, Hopen, H2. done.
  - by apply NoDup_filter.
  - intros y o [_ ?]%Hlk. by eapply H4.
  - intros y o [Hne Hy]%Hlk. rewrite HN; [by eapply H5|]. intros E. apply Hne. by eapply H7.
  - intros y o [Hne Hy]%Hlk. rewrite Hrefs. destruct (H6 y o Hy) as [E ?]. rewrite held_cons, decide_False in E by done. lia.
  - intros y z o o' [_ ?]%Hlk [_ ?]%Hlk. by eapply H7.
  - intros y o z [_ Hy]%Hlk Hz. rewrite Hopen. split; [|by eapply H8]. intros ->. by destruct (Hnone y o).
  - intros y Hy. rewrite Hopen. split; [|apply H9; by right]. intros ->. apply held_in in Hy. lia.
  - intros y fl [[_ ?]%Hlk|[_ ?]%Hlk]; eapply H10; eauto.
Qed.

(** The map file keeps its inode open. *)
Lemma map_inode_stays pend p i : inv_at c (p :: pend) -> c_heap c !! p = Some (OInode i) -> open_cnt i = 1 ->
  p <> c_file c /\ sector i <> FREE_MAP_SECTOR.
Proof.
  intros Hi Hp Hc. pose proof Hi as [_ _ Hh _ [_ (x&kx&j&Hf&Hx&Hj) _]]. destruct (last_ref pend p i Hh Hp Hc) as (Hnone&_).
  split; [intros ->; congruence|]. intros E. assert (p = x) as -> by (eapply (h_unique _ _ _ Hh); [done|done|congruence]).
  by destruct (Hnone _ _ Hf).
Qed.

Lemma inv_closed pend p i : inv_at c (p :: pend) -> c_heap c !! p = Some (OInode i) -> open_cnt i = 1 -> removed i = false ->
  inv_at (closed p c) pend.
Proof.
  intros Hi Hp Hc Hr. pose proof Hi as [_ _ Hh R [_ (x&kx&j&Hf&Hx&Hj) _]].
  destruct (map_inode_stays _ _ _ Hi Hp Hc) as [Hpf Hs]. eapply inv_heap; [done|by eapply heap_closed|..].
  - intros y o [? ?]%lookup_delete_Some. left. eauto.
  - intros y o Hy Hrm. exists o. rewrite lookup_delete_ne; [done|]. intros ->. congruence.
  - exists x, kx, j. rewrite !lookup_delete_ne; [done| |done]. intros ->. congruence.
Qed.

(** The sectors of a removed inode are given back when it is closed. *)
Lemma inv_closed_removed pend p i b' m' : inv_at c (p :: pend) -> c_heap c !! p = Some (OInode i) -> open_cnt i = 1 -> removed i = true ->
  freed (c_map c) i b' -> sized m' -> frame (in_extent mst (Bitmap.byte_cnt (Bitmap.bit_cnt (c_map c)))) (c_disk c) m' ->
  contents m' mst (Bitmap.byte_cnt (Bitmap.bit_cnt (c_map c))) = words_bytes (Bitmap.bits b') ->
  inv (put_disk m' (put_map b' (closed p c))) (delete (sector i) N) names rst mst pend.
Proof.
  intros Hi Hp Hc Hr (Hwf&Hcnt&Hbit) Hsz Hfr Hsv. pose proof Hi as [D Nd Hh R Mp].
  destruct (map_inode_stays _ _ _ Hi Hp Hc) as [Hpf Hs]. pose proof Mp as [M1 (x&kx&j&Hf&Hx&Hj) M3].
  pose proof (h_node _ _ _ Hh p i Hp) as Hn. pose proof (proj1 (r_removed _ _ _ _ R p i Hp) Hr) as (_&Hs1&Hnm).
  assert (forall k n, owns (delete (sector i) N) k n -> k <> sector i /\ owns N k n) as Hown.
  { intros k n (st&len&[? ?]%lookup_delete_Some&?). split; [done|]. by exists st, len. }
  assert (forall k st len, delete (sector i) N !! k = Some (st, len) -> k <> sector i /\ N !! k = Some (st, len)) as Hdel.
  { intros k st len [? ?]%lookup_delete_Some. done. }
  assert (forall k n, k <> FREE_MAP_SECTOR -> owns N k n -> m' !! n = c_disk c !! n) as Hkeep.
  { intros k n Hk Hkn. apply Hfr. intros Hin. apply Hk. eapply (n_disj _ _ Nd); [done|]. by eapply owns_data. }
  assert (contents m' rst ROOT_LEN = contents (c_disk c) rst ROOT_LEN) as Ec.
  { eapply frame_contents; [done|]. intros n Hin Hin'. assert (ROOT_DIR_SECTOR = FREE_MAP_SECTOR); [|done].
    eapply (n_disj _ _ Nd _ _ n); eapply owns_data; [apply R|done|apply Mp|done]. }
  split.
  - destruct D as [d1 d2 d3]. split; cbn; [done| |done]. intros n. rewrite Hcnt, <- d2. apply Hfr.
  - destruct Nd as [n1 n2 n3 n4 n5]. split; cbn.
    + intros k st len [Hk Hkn]%Hdel. transitivity (c_disk c !! k); [|exact (n1 k st len Hkn)]. destruct (decide (k = FREE_MAP_SECTOR)) as [->|Hk0].
      * apply Hfr. exact (n3 _ _ _ M1).
      * eapply Hkeep; [exact Hk0|by eapply owns_self].
    + intros k st len [_ Hkn]%Hdel. destruct (n2 _ _ _ Hkn). split; [|by rewrite Hcnt]. by eapply frame_extent.
    + intros k st len [_ ?]%Hdel. by eapply n3.
    + intros k1 k2 n [_ ?]%Hown [_ ?]%Hown. by eapply n4.
    + intros k n [Hk Hkn]%Hown. assert (0 <= n) as Hn0.
      { destruct Hkn as (st&len&Hst&[->|Hin]); [apply n1 in Hst|destruct (n2 _ _ _ Hst) as ([? ? He]&_)].
        - assert (is_Some (c_disk c !! k)) as H%(d_dom _ D) by eauto. lia.
        - unfold in_extent in Hin. lia. }
      rewrite Hbit by done. rewrite decide_False; [by eapply n5|]. intros [->|Hin]; apply Hk; (eapply n4; [done|]);
        [by eapply owns_self|by eapply owns_data].
  - assert (heap_ok (closed p c) (delete (sector i) N) pend) as [].
    { eapply heap_closed; [done|done|done|]. intros k Hk. by rewrite lookup_delete_ne. } by split.
  - destruct R as [r1 r2 r3 r4 r5 r6 r7]. split; cbn; rewrite ?Ec; try done.
    + by rewrite lookup_delete_ne.
    + intros nm k Hk. destruct (r5 nm k Hk) as (?&?&?). split; [|done]. rewrite lookup_delete_ne; [done|]. intros <-. by destruct (Hnm nm).
    + intros k [v [Hk Hv]%lookup_delete_Some]. destruct (r6 k ltac:(eauto)) as [?|[?|[?|(q&o&Hq&Ho&Hro)]]]; auto.
      do 3 right. exists q, o. split; [|done]. rewrite lookup_delete_ne; [done|]. intros <-. congruence.
    + intros q o [_ Hq]%lookup_delete_Some. by eapply r7.
  - split; cbn; rewrite ?Hcnt; [by rewrite lookup_delete_ne| |rewrite Hsv; by apply backs_exact].
    exists x, kx, j. rewrite !lookup_delete_ne; [done| |done]. intros ->. congruence.
Qed.

(** ** Changes of the disk *)

(** The headers, the root directory and the copy of the free map matter. *)
Lemma inv_store pend b' m' : inv_at c pend -> sized m' -> (forall n, is_Some (m' !! n) <-> is_Some (c_disk c !! n)) ->
  Bitmap.wf b' -> Bitmap.bit_cnt b' = Bitmap.bit_cnt (c_map c) ->
  (forall k, is_Some (N !! k) -> m' !! k = c_disk c !! k) -> contents m' rst ROOT_LEN = contents (c_disk c) rst ROOT_LEN ->
  backs (contents m' mst (Bitmap.byte_cnt (Bitmap.bit_cnt (c_map c)))) b' ->
  (forall k n, owns N k n -> Bitmap.bit b' n = true) ->
  inv_at (put_disk m' (put_map b' c)) pend.
Proof.
  intros [[d1 d2 d3] [n1 n2 n3 n4 n5] H R [m1 m2 m3]] Hsz Hdom Hwf Hcnt Hhd Hroot Hsv Hused. split.
  - split; cbn; [done| |done]. intros n. by rewrite Hdom, Hcnt.
  - split; cbn [c_disk c_map put_disk put_map]; try done.
    + intros k st len Hk. rewrite Hhd by (by rewrite Hk). by apply n1.
    + intros k st len Hk. destruct (n2 k st len Hk) as ([? ? He]&?). split; [|by rewrite Hcnt]. split; [done..|]. intros n ?. rewrite Hdom. by apply He.
  - destruct H. by split.
  - destruct R. by split; cbn; rewrite ?Hroot.
  - split; cbn; rewrite ?Hcnt; done.
Qed.

(** The sectors outside the map file that belong to an inode are kept. *)
Lemma frame_kept pend (A : Z -> Prop) m' : inv_at c pend -> frame A (c_disk c) m' ->
  (forall x, A x -> in_extent mst (Bitmap.byte_cnt (Bitmap.bit_cnt (c_map c))) x \/ forall k, ~ owns N k x) ->
  (forall k, is_Some (N !! k) -> m' !! k = c_disk c !! k) /\ contents m' rst ROOT_LEN = contents (c_disk c) rst ROOT_LEN.
Proof.
  intros [_ Nd _ R M] Hfr HA. split.
  - intros k [[st len] Hk]. apply Hfr. intros [Hin|Hno]%HA; [|apply (Hno k); by eapply owns_self].
    assert (k = FREE_MAP_SECTOR) as -> by (eapply (n_disj _ _ Nd _ _ k); [by eapply owns_self|by eapply owns_data; [apply M|]]).
    by apply (n_apart _ _ Nd _ _ _ (m_node _ _ _ M)).
  - eapply frame_contents; [done|]. intros n Hin [Hin'|Hno]%HA; [|apply (Hno ROOT_DIR_SECTOR); by eapply owns_data; [apply R|]].
    assert (ROOT_DIR_SECTOR = FREE_MAP_SECTOR); [|done].
    eapply (n_disj _ _ Nd _ _ n); eapply owns_data; [apply R|done|apply M|done].
Qed.

Lemma entries_in_use pend j e : inv_at c pend -> entries (contents (c_disk c) rst ROOT_LEN) !! j = Some e -> e_in_use e = true ->
  names !! name_of e = Some (e_sector e).
Proof. intros [_ _ _ R _] Hj He. apply (r_names _ _ _ _ R). exists j, e. done. Qed.

Lemma root_length m : zlen (contents m rst ROOT_LEN) = ROOT_LEN.
Proof. unfold contents. rewrite bytes_length. lia. Qed.

Lemma entries_bound m j e : entries (contents m rst ROOT_LEN) !! j = Some e -> 20 * (Z.of_nat j + 1) <= zlen (contents m rst ROOT_LEN).
Proof. rewrite entries_lookup. by case_decide. Qed.

(** The root directory lies apart from the headers and the map. *)
Lemma root_write_kept pend m' : inv_at c pend -> frame (in_extent rst ROOT_LEN) (c_disk c) m' ->
  (forall k, is_Some (N !! k) -> m' !! k = c_disk c !! k) /\
  contents m' mst (Bitmap.byte_cnt (Bitmap.bit_cnt (c_map c))) = contents (c_disk c) mst (Bitmap.byte_cnt (Bitmap.bit_cnt (c_map c))).
Proof.
  intros [_ Nd _ R M] Hfr. split.
  - intros k [[st len] Hk]. apply Hfr. intros Hin.
    assert (k = ROOT_DIR_SECTOR) as -> by (eapply (n_disj _ _ Nd _ _ k); [by eapply owns_self|by eapply owns_data; [apply R|]]).
    by apply (n_apart _ _ Nd _ _ _ (r_node _ _ _ _ R)).
  - eapply frame_contents; [done|]. intros n Hin Hin'. assert (ROOT_DIR_SECTOR = FREE_MAP_SECTOR); [|done].
    eapply (n_disj _ _ Nd _ _ n); eapply owns_data; [apply R|done|apply M|done].
Qed.

(** ** Names *)

Lemma inv_link pend k n len nm j old e m' :
  inv_at c pend -> N !! k = None -> c_disk c !! k = Some (encode_inode n len INODE_MAGIC) ->
  extent (c_disk c) n len -> 0 <= n < 2 ^ 32 /\ n + nsec len <= Bitmap.bit_cnt (c_map c) -> len + 511 < 2 ^ 31 -> ~ in_extent n len k ->
  (forall x k', x = k \/ in_extent n len x -> ~ owns N k' x) -> (forall x, x = k \/ in_extent n len x -> Bitmap.bit (c_map c) x = true) ->
  list_find (is_name nm) (entries (contents (c_disk c) rst ROOT_LEN)) = None ->
  list_find is_free (entries (contents (c_disk c) rst ROOT_LEN)) = Some (j, old) ->
  entry_ok e -> is_name nm e -> e_sector e = k ->
  contents m' rst ROOT_LEN = splice (contents (c_disk c) rst ROOT_LEN) (Z.to_nat (20 * Z.of_nat j)) e ->
  frame (in_extent rst ROOT_LEN) (c_disk c) m' -> sized m' ->
  inv (put_disk m' c) (<[k := (n, len)]> N) (<[nm := k]> names) rst mst pend.
Proof.
  intros Hi Hk Hdk Hx Hn Hlen Hnk Hfresh Hbits Hnone Hfree He Hnm Hsec Hc Hfr Hsz.
  pose proof Hi as [[d1 d2 d3] Nd H R M]. destruct (root_write_kept pend m' Hi Hfr) as [Hkeep Hmap].
  apply list_find_Some in Hfree as (Hj&Hold&_). unfold is_free in Hold. pose proof (entries_bound _ _ _ Hj) as Hb.
  destruct (entries_splice _ j e (eo_len _ He) Hb) as [Ees _]. set (es := entries (contents (c_disk c) rst ROOT_LEN)) in *.
  assert (forall j' e', <[j := e]> es !! j' = Some e' -> (j' = j /\ e' = e) \/ (j' <> j /\ es !! j' = Some e')) as Hlk.
  { intros j' e' Hj'. destruct (decide (j' = j)) as [->|]; [|rewrite list_lookup_insert_ne in Hj' by done; auto].
    rewrite list_lookup_insert_eq in Hj' by (by eapply lookup_lt_Some). simplify_eq. auto. }
  assert (forall k' n', owns (<[k := (n, len)]> N) k' n' -> (k' = k /\ (n' = k \/ in_extent n len n')) \/ owns N k' n') as Hown.
  { intros k' n' (st&l&[[-> [= <- <-]]|[? ?]]%lookup_insert_Some&Ho); [left; auto|right; by exists st, l]. }
  assert (forall nm' k', names !! nm' = Some k' -> k' <> k) as Hnk' by (intros nm' k' [[v ?] _]%(r_linked _ _ _ _ R) ->; congruence).
  assert (names !! nm = None) as Hnm0.
  { destruct (names !! nm) as [k'|] eqn:E; [|done]. apply (r_names _ _ _ _ R) in E as (j'&e'&Hj'&Hn'&_).
    rewrite list_find_None, Forall_lookup in Hnone. by destruct (Hnone j' e' Hj'). }
  split.
  - split; cbn; [done| |done]. intros x. by rewrite <- d2, (proj1 Hfr).
  - destruct Nd as [n1 n2 n3 n4 n5]. split; cbn [c_disk c_map put_disk].
    + intros k' st l [[<- [= <- <-]]|[? Hk']]%lookup_insert_Some.
      * rewrite <- Hdk. apply Hfr. intros Hin. eapply (Hfresh k ROOT_DIR_SECTOR); [by left|]. by eapply owns_data; [apply R|].
      * rewrite Hkeep by (by rewrite Hk'). by apply n1.
    + intros k' st l [[<- [= <- <-]]|[? Hk']]%lookup_insert_Some; [split; [by eapply frame_extent|tauto]|].
      destruct (n2 _ _ _ Hk'). split; [by eapply frame_extent|done].
    + intros k' st l [[<- [= <- <-]]|[? Hk']]%lookup_insert_Some; [done|by eapply n3].
    + intros k1 k2 x [[-> H1]|H1]%Hown [[-> H2]|H2]%Hown; [done|by destruct (Hfresh x k2)|by destruct (Hfresh x k1)|by eapply n4].
    + intros k' x [[-> ?]|?]%Hown; [by apply Hbits|by eapply n5].
  - destruct H as [h1 h2 h3 h4 h5 h6 h7 h8 h9 h10]. split; try done. cbn. intros p i Hp. rewrite lookup_insert_ne; [by eapply h5|].
    intros ->. rewrite (h5 p i Hp) in Hk. done.
  - destruct R as [r1 r2 r3 r4 r5 r6 r7]. split; cbn; rewrite ?Hc, ?Ees; fold es in r2, r3, r4 |- *.
    + rewrite lookup_insert_ne; [done|]. intros ->. congruence.
    + by apply Forall_insert.
    + intros nm' k'. rewrite lookup_insert_Some. split.
      * intros [[<- <-]|[Hne (j'&e'&Hj'&Hn'&<-)%r3]].
        -- exists j, e. by rewrite list_lookup_insert_eq by (by eapply lookup_lt_Some).
        -- exists j', e'. split; [|done]. rewrite list_lookup_insert_ne; [done|]. intros <-. destruct Hn' as [? _]. congruence.
      * intros (j'&e'&[[-> ->]|[Hne Hj']]%Hlk&Hn'&<-).
        -- destruct Hnm as [_ <-], Hn' as [_ <-]. left. done.
        -- right. assert (names !! nm' = Some (e_sector e')) as E by (apply r3; eauto). split; [congruence|done].
    + intros j1 j2 e1 e2 [[-> ->]|[? H1]]%Hlk [[-> ->]|[? H2]]%Hlk U1 U2 E; [done| | |by eapply r4].
      * pose proof (entries_in_use pend j2 e2 Hi H2 U2) as E2. destruct Hnm as [_ Hnm]. exfalso. destruct E as [E|E].
        -- rewrite <- E, Hnm, Hnm0 in E2. done.
        -- apply Hnk' in E2. congruence.
      * pose proof (entries_in_use pend j1 e1 Hi H1 U1) as E1. destruct Hnm as [_ Hnm]. exfalso. destruct E as [E|E].
        -- rewrite E, Hnm, Hnm0 in E1. done.
        -- apply Hnk' in E1. congruence.
    + intros nm' k' [[<- <-]|[_ Hk']]%lookup_insert_Some.
      * rewrite lookup_insert_eq. split; [eauto|]. split; intros ->; [destruct M|]; congruence.
      * destruct (r5 nm' k' Hk') as (?&?&?). split; [|done]. rewrite lookup_insert_is_Some'. auto.
    + intros k' [->|Hk']%lookup_insert_is_Some'; [do 2 right; left; exists nm; apply lookup_insert_eq|].
      destruct (r6 k' Hk') as [?|[?|[[nm' E]|?]]]; auto. do 2 right. left. exists nm'. rewrite lookup_insert_ne; [done|]. congruence.
    + intros p i Hp. rewrite (r7 p i Hp). split; intros (?&?&Hno); split_and!; try done; intros nm'.
      * intros [[_ E]|[_ E]]%lookup_insert_Some; [|by destruct (Hno nm')]. rewrite E in Hk. rewrite (h_node _ _ _ H p i Hp) in Hk. done.
      * intros E. apply (Hno nm'). rewrite lookup_insert_ne; [done|]. congruence.
  - destruct M as [m1 m2 m3]. split; cbn; [|done|by rewrite Hmap]. rewrite lookup_insert_ne; [done|]. intros ->. congruence.
Qed.

Lemma inv_unlink pend p i nm j e m' :
  inv_at c pend -> entries (contents (c_disk c) rst ROOT_LEN) !! j = Some e -> is_name nm e ->
  c_heap c !! p = Some (OInode i) -> sector i = e_sector e ->
  contents m' rst ROOT_LEN = splice (contents (c_disk c) rst ROOT_LEN) (Z.to_nat (20 * Z.of_nat j)) (set_in_use false e) ->
  frame (in_extent rst ROOT_LEN) (c_disk c) m' -> sized m' ->
  inv (put_disk m' (put_heap (<[p := OInode (set_removed true i)]> (c_heap c)) c)) N (delete nm names) rst mst pend.
Proof.
  intros Hi Hj Hnm Hp Hs Hc Hfr Hsz. pose proof Hi as [[d1 d2 d3] Nd H R M].
  destruct (root_write_kept pend m' Hi Hfr) as [Hkeep Hmap]. pose proof (entries_bound _ _ _ Hj) as Hb.
  assert (entry_ok e) as He by (eapply Forall_lookup_1; [apply R|done]). destruct (clear_in_use e He) as [He' Hu'].
  destruct (entries_splice _ j _ (eo_len _ He') Hb) as [Ees _]. set (es := entries (contents (c_disk c) rst ROOT_LEN)) in *.
  set (e' := set_in_use false e) in *.
  assert (forall x ex, <[j := e']> es !! x = Some ex -> e_in_use ex = true -> x <> j /\ es !! x = Some ex) as Hlk.
  { intros x ex Hx Hux. destruct (decide (x = j)) as [->|]; [|by rewrite list_lookup_insert_ne in Hx].
    rewrite list_lookup_insert_eq in Hx by (by eapply lookup_lt_Some). simplify_eq. congruence. }
  assert (names !! nm = Some (e_sector e)) as Hk by (apply (r_names _ _ _ _ R); by exists j, e).
  assert (forall nm', names !! nm' = Some (e_sector e) -> nm' = nm) as Hinj.
  { intros nm' (j'&e1&Hj'&[Hu Hn]&Es)%(r_names _ _ _ _ R). destruct Hnm as [Hu0 Hn0].
    assert (j' = j) as -> by (eapply (r_uniq _ _ _ _ R); [done..|by right]). change (es !! j = Some e1) in Hj'. congruence. }
  destruct (r_linked _ _ _ _ R nm _ Hk) as (_&Hk0&Hk1). destruct (h_count _ _ _ H p i Hp).
  split.
  - split; cbn; [done| |done]. intros x. by rewrite <- d2, (proj1 Hfr).
  - destruct Nd as [n1 n2 n3 n4 n5]. split; cbn [c_disk c_map put_disk put_heap]; try done.
    + intros k st l Hkn. rewrite Hkeep by (by rewrite Hkn). by apply n1.
    + intros k st l Hkn. destruct (n2 _ _ _ Hkn). split; [by eapply frame_extent|done].
  - pose proof (heap_upd p i (set_removed true i) pend pend H Hp) as Hu.
    destruct Hu as [h1 h2 h3 h4 h5 h6 h7 h8 h9 h10]; [done|done|by destruct (h_idle _ _ _ H p i Hp)|done|done|done|auto|]. by split.
  - destruct R as [r1 r2 r3 r4 r5 r6 r7]. split; cbn; rewrite ?Hc, ?Ees; fold es in r2, r3, r4 |- *; try done.
    + by apply Forall_insert.
    + intros nm' k. rewrite lookup_delete_Some, r3. split.
      * intros (Hne&x&ex&Hx&[Hux Hnx]&<-). exists x, ex. rewrite list_lookup_insert_ne; [done|]. intros <-.
        rewrite Hj in Hx. simplify_eq. destruct Hnm. congruence.
      * intros (x&ex&Hx&[Hux Hnx]&<-). destruct (Hlk x ex Hx Hux) as [Hne Hx']. split; [|by exists x, ex].
        intros ->. destruct Hnm as [? Hn]. apply Hne. eapply r4; [done..|]. left. congruence.
    + intros x y ex ey Hx Hy Hux Huy E. destruct (Hlk x ex Hx Hux), (Hlk y ey Hy Huy). by eapply r4.
    + intros nm' k [_ ?]%lookup_delete_Some. by eapply r5.
    + intros k [?|[?|[[nm' E]|(q&o&Hq&Ho&Hr)]]]%r6; auto.
      * do 2 right. destruct (decide (nm = nm')) as [->|]; [|left; exists nm'; by rewrite lookup_delete_ne].
        right. exists p, (set_removed true i). rewrite lookup_insert_eq. split_and!; [done| |done]. cbn. congruence.
      * do 3 right. destruct (decide (q = p)) as [->|]; [|exists q, o; by rewrite lookup_insert_ne].
        rewrite Hp in Hq. simplify_eq. exists p, (set_removed true o). by rewrite lookup_insert_eq.
    + intros q o [[<- [= <-]]|[Hne Hq]]%lookup_insert_Some.
      * cbn. rewrite Hs. split; [|done]. intros _. split_and!; [done..|]. intros nm' [Hd E]%lookup_delete_Some. apply Hd. symmetry. by apply Hinj.
      * rewrite (r7 q o Hq). split; intros (?&?&Hno); split_and!; try done; intros nm'.
        -- intros [_ ?]%lookup_delete_Some. by destruct (Hno nm').
        -- intros E. destruct (decide (nm = nm')) as [<-|]; [|apply (Hno nm'); by rewrite lookup_delete_ne].
           apply Hne. eapply (h_unique _ _ _ H); [done|done|congruence].
  - destruct M as [m1 (x&kx&y&Hf&Hx&Hy) m3]. split; cbn; [done| |by rewrite Hmap].
    assert (p <> c_file c) by (intros ->; congruence). rewrite (lookup_insert_ne _ p (c_file c)) by done. destruct (decide (x = p)) as [->|].
    + exists p, kx, (set_removed true i). rewrite lookup_insert_eq. split_and!; [done|done|]. rewrite Hp in Hx. by simplify_eq.
    + exists x, kx, y. by rewrite lookup_insert_ne.
Qed.
End transitions.
End FsInv.
