(* ===== verification/FsSteps.v ===== *)
(** * The steps of the file system keep the invariant

    Each lemma runs a routine of inode.c, file.c, directory.c or free-map.c in
    a state that satisfies the invariant of FsInv.v, and says what the routine
    does to the inodes in use, to the names, and to the open files. *)

From S2P Require Import Prelude.
From S2P Require Import Mem.
From S2P Require Import Words.
From S2P Require Import Bitmap.
From S2P Require Import Device.
From S2P Require Import Fs.
From S2P Require Import FsInode.
From S2P Require Import FsMap.
From S2P Require Import Directory.
From S2P Require Import FsDir.
From S2P Require Import FsCore.
From S2P Require Import FsOps.
From S2P Require Import FsInv.
Local Open Scope Z_scope.

Module FsSteps.
Import Mem Words Fs FsInode FsMap FsDir FsCore FsOps FsInv Directory.

(** ** Open files as their clients see them *)

(** The sector of an open inode. *)
Definition sector_at (h : gmap ptr obj) (p : ptr) : option Z :=
  match h !! p with Some (OInode i) => Some (sector i) | _ => None end.

(** An open file or directory ([true]): its inode's sector and its position. *)
Definition handle (h : gmap ptr obj) (f : ptr) : option (bool * Z * Z) :=
  match h !! f with
  | Some (OFile (File p k)) => (fun n => (false, n, k)) <$> sector_at h p
  | Some (ODir (File p k)) => (fun n => (true, n, k)) <$> sector_at h p
  | _ => None
  end.

Lemma handle_ext h h' f : (forall o, points o <> None -> h' !! f = Some o <-> h !! f = Some o) ->
  (forall o p, h !! f = Some o -> points o = Some p -> sector_at h' p = sector_at h p) -> handle h' f = handle h f.
Proof.
  intros Hf Hs. unfold handle. destruct (h !! f) as [[i|[p k]|[p k]]|] eqn:E.
  - destruct (h' !! f) as [[|[q k]|[q k]]|] eqn:E'; try done;
      [by pose proof (proj1 (Hf (OFile (File q k)) ltac:(done)) eq_refl)|by pose proof (proj1 (Hf (ODir (File q k)) ltac:(done)) eq_refl)].
  - rewrite (proj2 (Hf (OFile (File p k)) ltac:(done)) eq_refl). by rewrite (Hs _ p eq_refl).
  - rewrite (proj2 (Hf (ODir (File p k)) ltac:(done)) eq_refl). by rewrite (Hs _ p eq_refl).
  - destruct (h' !! f) as [[|[q k]|[q k]]|] eqn:E'; try done;
      [by pose proof (proj1 (Hf (OFile (File q k)) ltac:(done)) eq_refl)|by pose proof (proj1 (Hf (ODir (File q k)) ltac:(done)) eq_refl)].
Qed.

Lemma handle_fresh h f : f ∉ dom h -> handle h f = None.
Proof. intros E%not_elem_of_dom. unfold handle. by rewrite E. Qed.

(** The objects of a core: the handles, and the addresses in use. *)
Definition keeps (h h' : gmap ptr obj) : Prop := forall f, handle h' f = handle h f.

Lemma keeps_inode h p i i' : h !! p = Some (OInode i) -> sector i' = sector i -> keeps h (<[p := OInode i']> h).
Proof.
  intros Hp Es f. apply handle_ext.
  - intros o Ho. destruct (decide (f = p)) as [->|]; [|by rewrite lookup_insert_ne]. rewrite lookup_insert_eq, Hp.
    split; intros [= <-]; done.
  - intros o q _ _. unfold sector_at. destruct (decide (q = p)) as [->|]; [|by rewrite lookup_insert_ne].
    by rewrite lookup_insert_eq, Hp, Es.
Qed.

(** ** What closing an inode does to the core *)

Definition closes mst (p : ptr) i (c c' : core) : Prop :=
  if open_cnt i =? 1 then
    if removed i then exists b' m', c' = put_disk m' (put_map b' (closed p c)) /\ freed (c_map c) i b' /\ sized m' /\
      frame (in_extent mst (Bitmap.byte_cnt (Bitmap.bit_cnt (c_map c)))) (c_disk c) m' /\
      contents m' mst (Bitmap.byte_cnt (Bitmap.bit_cnt (c_map c))) = words_bytes (Bitmap.bits b')
    else c' = closed p c
  else c' = put_heap (<[p := OInode (unref i)]> (c_heap c)) c.

Lemma closes_delete mst p i c c' q : q <> p -> closes mst p i c c' ->
  closes mst p i (put_heap (delete q (c_heap c)) c) (put_heap (delete q (c_heap c')) c').
Proof.
  intros Hq. unfold closes, closed. destruct (open_cnt i =? 1); [destruct (removed i)|].
  - intros (b'&m'&->&?). exists b', m'. split; [|done]. unfold put_heap, put_open, put_map, put_disk. cbn. by rewrite delete_delete.
  - intros ->. unfold put_heap, put_open. cbn. by rewrite delete_delete.
  - intros ->. unfold put_heap. cbn. by rewrite delete_insert_ne.
Qed.

Section pure.
Context (names : gmap (list Z) Z) (rst mst : Z).
Implicit Types (N : nodes) (p q : ptr) (i : inode) (pend : list ptr) (c : core).

(** The inodes in use after the last reference to [i] is dropped. *)
Definition dropped i N : nodes := if (open_cnt i =? 1) && removed i then delete (sector i) N else N.

Lemma closes_inv c N pend p i c' : inv c N names rst mst (p :: pend) -> c_heap c !! p = Some (OInode i) -> closes mst p i c c' ->
  inv c' (dropped i N) names rst mst pend.
Proof.
  intros Hi Hp. unfold closes, dropped. destruct (Z.eqb_spec (open_cnt i) 1); [destruct (removed i) eqn:Er|]; cbn [andb].
  - intros (b'&m'&->&Hf&Hs&Hfr&Hc). by eapply inv_closed_removed.
  - intros ->. by eapply inv_closed.
  - intros ->. by eapply inv_unref.
Qed.

Lemma closes_keeps c N pend p i c' : inv c N names rst mst (p :: pend) -> c_heap c !! p = Some (OInode i) -> closes mst p i c c' ->
  keeps (c_heap c) (c_heap c') /\ (size (c_heap c') <= size (c_heap c))%nat /\ c_file c' = c_file c /\
  forall q, q ∈ pend -> sector_at (c_heap c') q = sector_at (c_heap c) q.
Proof.
  intros Hi Hp Hc.
  assert (Hlast : open_cnt i = 1 -> keeps (c_heap c) (delete p (c_heap c)) /\ (size (delete p (c_heap c)) <= size (c_heap c))%nat /\
    forall q, q ∈ pend -> sector_at (delete p (c_heap c)) q = sector_at (c_heap c) q).
  { intros E. destruct (last_ref _ _ _ _ _ (i_heap _ _ _ _ _ _ Hi) Hp E) as (Hno&_&Hh). split_and!.
    - intros f. apply handle_ext.
      + intros o Ho. rewrite lookup_delete_Some. split; [tauto|]. intros Hf. split; [|done]. intros <-. rewrite Hp in Hf. by injection Hf as <-.
      + intros o q Hf Hq. unfold sector_at. rewrite lookup_delete_ne; [done|]. intros <-. by destruct (Hno f o).
    - rewrite map_size_delete. destruct (c_heap c !! p); simpl; lia.
    - intros q Hq. unfold sector_at. rewrite lookup_delete_ne; [done|]. intros <-. apply held_in in Hq. lia. }
  revert Hc. unfold closes. destruct (Z.eqb_spec (open_cnt i) 1) as [E|E]; [destruct (removed i)|].
  - intros (b'&m'&->&_). destruct (Hlast E) as (?&?&?). done.
  - intros ->. destruct (Hlast E) as (?&?&?). done.
  - intros ->. cbn. split_and!; [by eapply keeps_inode|by rewrite map_size_insert_Some|done|]. intros q _. unfold sector_at.
    destruct (decide (p = q)) as [<-|]; [by rewrite lookup_insert_eq, Hp|by rewrite lookup_insert_ne].
Qed.

(** The files of the inodes that stay are as before. *)
Definition same_files N (m m' : disk_map) : Prop :=
  forall k st len, N !! k = Some (st, len) -> k <> FREE_MAP_SECTOR -> k <> ROOT_DIR_SECTOR -> contents m' st len = contents m st len.

Lemma frame_files c N pend A m' : inv c N names rst mst pend -> frame A (c_disk c) m' ->
  (forall x, A x -> in_extent mst (Bitmap.byte_cnt (Bitmap.bit_cnt (c_map c))) x \/ forall k, ~ owns N k x) -> same_files N (c_disk c) m'.
Proof.
  intros [_ Nd _ _ M] Hfr HA k st len Hk Hk0 _. eapply frame_contents; [done|]. intros n Hn [Hm|Hno]%HA.
  - apply Hk0. eapply (n_disj _ _ Nd _ _ n); eapply owns_data; [done|done|apply M|done].
  - apply (Hno k). by eapply owns_data.
Qed.

Lemma closes_files c N pend p i c' : inv c N names rst mst (p :: pend) -> closes mst p i c c' -> same_files N (c_disk c) (c_disk c').
Proof.
  intros Hi. unfold closes. destruct (open_cnt i =? 1); [destruct (removed i)|]; [|intros ->; by intros ?..].
  intros (b'&m'&->&_&_&Hfr&_). eapply frame_files; [done|done|]. by left.
Qed.

Lemma same_files_trans N m1 m2 m3 : same_files N m1 m2 -> same_files N m2 m3 -> same_files N m1 m3.
Proof. intros H1 H2 k st len Hk ??. rewrite (H2 k), (H1 k); done. Qed.
End pure.

Section steps.
Context {dev : Type} `{!Device.Device dev} `{!Device.Allocator} {Hroom : Device.Roomy} (cur : Z).
Context (rst mst : Z).
Implicit Types (s : state dev) (p q d : ptr) (i : inode) (pend : list ptr) (N : nodes) (names : gmap (list Z) Z).

(** The invariant holds, the outer lock is free, and counts do not overflow. *)
Record ok (dl : option Z) s N names pend : Prop := Steady {
  s_busy : busy None dl s;
  s_inv : inv (view s) N names rst mst pend;
  s_small : Z.of_nat (size (heap s)) + zlen pend < 2 ^ 30 }.

Section derived.
Context dl s N names pend (Hok : ok dl s N names pend).

Lemma ok_null q o : heap s !! q = Some o -> q <> NULL.
Proof. intros Hq ->. destruct Hok as [_ [_ _ [Hn _ _ _ _ _ _ _ _ _] _ _] _]. cbn in Hn. congruence. Qed.

Lemma ok_idle p i : heap s !! p = Some (OInode i) -> idle i.
Proof. apply (h_idle _ _ _ (i_heap _ _ _ _ _ _ (s_inv _ _ _ _ _ Hok))). Qed.

Lemma ok_node p i : heap s !! p = Some (OInode i) -> N !! sector i = Some (data_start i, data_length i).
Proof. apply (h_node _ _ _ (i_heap _ _ _ _ _ _ (s_inv _ _ _ _ _ Hok))). Qed.

Lemma ok_extent p i : heap s !! p = Some (OInode i) -> extent (disk s) (data_start i) (data_length i) /\ data_length i + 511 < 2 ^ 31.
Proof.
  intros Hp. pose proof (n_extent _ _ (i_nodes _ _ _ _ _ _ (s_inv _ _ _ _ _ Hok)) _ _ _ (ok_node p i Hp)) as (?&_&_&?). done.
Qed.

Lemma ok_count p i : heap s !! p = Some (OInode i) -> 1 <= open_cnt i < INT_MAX.
Proof. intros Hp. eapply inode_small; [apply Hok|done|]. pose proof (s_small _ _ _ _ _ Hok). cbn. lia. Qed.

Lemma ok_map_file : exists p0 i0, map_file s p0 i0 /\ data_start i0 = mst /\ sector i0 = FREE_MAP_SECTOR.
Proof.
  pose proof (s_inv _ _ _ _ _ Hok) as [_ _ _ _ [m1 (p&k&i&Hf&Hp&Hs) m3]]. cbn in Hf, Hp, m1, m3.
  pose proof (ok_node p i Hp) as Hn. rewrite Hs, m1 in Hn. injection Hn as Hst Hl. exists p, i. split; [|auto].
  split; [eauto|by eapply ok_null|done|by eapply ok_null|by eapply ok_idle|by eapply ok_extent|done].
Qed.

Lemma ok_map_sectors x : map_sectors s x <-> in_extent mst (Bitmap.byte_cnt (Bitmap.bit_cnt (free_map s))) x.
Proof.
  destruct ok_map_file as (p0&i0&Hm&<-&_). rewrite <- (mf_len _ _ _ Hm). split; [|by exists p0, i0].
  intros (p&i&Hm'&?). by destruct (map_file_unique _ _ _ _ _ Hm Hm') as [-> ->].
Qed.

Lemma ok_owned k x : owns N k x -> 0 <= x < Bitmap.bit_cnt (free_map s).
Proof.
  pose proof (s_inv _ _ _ _ _ Hok) as [D Nd _ _ _]. intros (st&len&Hk&Hx). apply (d_dom _ D). destruct Hx as [->|Hx].
  - rewrite (n_disk _ _ Nd _ _ _ Hk). eauto.
  - by apply (n_extent _ _ Nd _ _ _ Hk).
Qed.

Lemma ok_map_apart x : map_sectors s x -> owns N FREE_MAP_SECTOR x.
Proof. rewrite ok_map_sectors. intros Hx. pose proof (s_inv _ _ _ _ _ Hok) as [_ _ _ _ M]. by eapply owns_data; [apply M|]. Qed.

Lemma ok_ownable p i : heap s !! p = Some (OInode i) -> ownable (free_map s) i.
Proof.
  intros Hp. pose proof (s_inv _ _ _ _ _ Hok) as [D Nd _ _ _]. pose proof (ok_node p i Hp) as Hn.
  destruct (n_extent _ _ Nd _ _ _ Hn) as ([? ? ?]&?&?&?). split.
  - lia.
  - split; [lia|done].
  - eapply ok_owned. by eapply owns_self.
  - by apply (n_apart _ _ Nd _ _ _ Hn).
  - intros n [->|?]; eapply (n_used _ _ Nd); [by eapply owns_self|by eapply owns_data].
Qed.

Lemma close_step p i : heap s !! p = Some (OInode i) ->
  wp (inode_close cur p) (fun _ s' => busy None dl s' /\ closes mst p i (view s) (view s')) s.
Proof.
  intros Hp. destruct ok_map_file as (p0&i0&Hm&Hst&Hs0). pose proof (ok_count p i Hp). pose proof (s_inv _ _ _ _ _ Hok) as [_ _ _ R _].
  eapply wp_mono; [apply (inode_close_ok cur dl s p i p0 i0); [apply Hok|done|by eapply ok_null|lia|done|]|].
  - intros Hr _. split; [|by eapply ok_ownable]. intros ->. pose proof (mf_inode _ _ _ Hm) as Hi. rewrite Hp in Hi. injection Hi as <-.
    by destruct (proj1 (r_removed _ _ _ _ R p0 i Hp) Hr).
  - intros _ s' [Hb Hc]. split; [done|]. unfold closes. destruct (open_cnt i =? 1); [destruct (removed i)|]; [|done..].
    destruct Hc as (b'&m'&Ev&Hf&Hfr&Hcn). exists b', m'. rewrite (mf_len _ _ _ Hm), Hst in Hcn. split_and!; [done|done| |  |done].
    + assert (m' = disk s') as -> by (by apply (f_equal c_disk) in Ev). apply good_sized, Hb.
    + eapply frame_mono; [|exact Hfr]. intros n. by rewrite ok_map_sectors.
Qed.
End derived.

(** ** Opening and closing inodes *)

Definition closed_post dl s N names pend p i (fd : option ptr) s' : Prop :=
  ok dl s' (dropped i N) names pend /\ (forall f, Some f <> fd -> handle (heap s') f = handle (heap s) f) /\
  (forall q, q ∈ pend -> sector_at (heap s') q = sector_at (heap s) q) /\
  same_files N (disk s) (disk s') /\ free_map_file s' = free_map_file s /\ (size (heap s') <= size (heap s))%nat.

(** A reference held by a local variable. *)
Lemma inode_close_step dl s N names pend p i : ok dl s N names (p :: pend) -> heap s !! p = Some (OInode i) ->
  wp (inode_close cur p) (fun _ s' => closed_post dl s N names pend p i None s') s.
Proof.
  intros Hok Hp. eapply wp_mono; [by eapply close_step|]. intros _ s' [Hb Hc]. pose proof (s_inv _ _ _ _ _ Hok) as Hi.
  destruct (closes_keeps _ _ _ _ _ _ _ _ _ Hi Hp Hc) as (Hk&Hz&Hf&Hpd). split_and!; [|intros f _; apply Hk|done|exact (closes_files _ _ _ _ _ _ _ _ _ Hi Hc)|done|done].
  split; [done|by eapply closes_inv|]. pose proof (s_small _ _ _ _ _ Hok). cbn in *. lia.
Qed.

(** The reference of a file or a directory, which is freed. *)
Lemma obj_close_step dl s N names pend q o p i : ok dl s N names pend -> heap s !! q = Some o -> points o = Some p ->
  heap s !! p = Some (OInode i) -> q <> free_map_file s ->
  wp (do! inode_close cur p in free q) (fun _ s' => closed_post dl s N names pend p i (Some q) s' /\ handle (heap s') q = None) s.
Proof.
  intros Hok Hq Ho Hp Hqf. apply wp_bind. eapply wp_mono; [by eapply close_step|]. intros _ s1 [Hb Hc].
  unfold free. rewrite (proj2 (Z.eqb_neq _ _) (ok_null _ _ _ _ _ Hok _ _ Hq)). apply wp_modify.
  assert (q <> p) as Hqp by (intros ->; rewrite Hp in Hq; by injection Hq as <-).
  pose proof (inv_drop_obj _ _ _ _ _ pend q o p (s_inv _ _ _ _ _ Hok) Hq Ho Hqf) as Hi. apply (closes_delete _ _ _ _ _ q) in Hc; [|done].
  assert (delete q (heap s) !! p = Some (OInode i)) as Hp' by (by rewrite lookup_delete_ne).
  destruct (closes_keeps _ _ _ _ _ _ _ _ _ Hi Hp' Hc) as (Hk&Hz&Hf&Hpd). cbn in Hk, Hz, Hf, Hpd.
  pose proof (s_small _ _ _ _ _ Hok). assert (size (delete q (heap s)) < size (heap s))%nat as Hlt.
  { rewrite map_size_delete, Hq. assert (size (heap s) <> 0)%nat; [|lia]. rewrite map_size_non_empty_iff. intros E. rewrite E in Hq. by apply lookup_empty_Some in Hq. }
  assert (forall p', sector_at (delete q (heap s)) p' = sector_at (heap s) p') as Hsec.
  { intros p'. unfold sector_at. destruct (decide (q = p')) as [<-|]; [|by rewrite lookup_delete_ne]. rewrite lookup_delete_eq, Hq. by destruct o. }
  split.
  - split_and!.
    + split; [by apply busy_heap|by eapply closes_inv|cbn; lia].
    + intros f Hfq. transitivity (handle (delete q (heap s)) f); [apply Hk|]. apply handle_ext.
      * intros o' _. rewrite lookup_delete_ne; [done|congruence].
      * intros o' p' _ _. apply Hsec.
    + intros p' Hp''. rewrite <- Hsec. by apply Hpd.
    + exact (closes_files _ _ _ _ _ _ _ _ _ Hi Hc).
    + done.
    + cbn. lia.
  - unfold handle. cbn. by rewrite lookup_delete_eq.
Qed.

(** What opening leaves alone. *)
Record calm (n : nat) s s' : Prop := Calm {
  ca_disk : disk s' = disk s;
  ca_map : free_map s' = free_map s;
  ca_file : free_map_file s' = free_map_file s;
  ca_size : (size (heap s') <= size (heap s) + n)%nat }.

Lemma calm_trans n m s1 s2 s3 : calm n s1 s2 -> calm m s2 s3 -> calm (n + m) s1 s3.
Proof. intros [] []. split; [congruence..|lia]. Qed.

Lemma inode_open_step dl s N names pend k : ok dl s N names pend -> is_Some (N !! k) ->
  Z.of_nat (size (heap s)) + zlen pend + 2 < 2 ^ 30 ->
  wp (inode_open cur k) (fun p s' => ok dl s' N names (p :: pend) /\ keeps (heap s) (heap s') /\ calm 1 s s' /\
    exists i, heap s' !! p = Some (OInode i) /\ sector i = k) s.
Proof.
  intros Hok [[st len] Hk] Hsm. pose proof (s_inv _ _ _ _ _ Hok) as Hi. pose proof Hi as [_ Nd Hh _ _].
  eapply wp_mono; [apply (inode_open_ok cur dl s k (encode_inode st len INODE_MAGIC)); [apply Hok|..]|].
  - apply Forall_forall. intros p Hp. by apply (h_open _ _ _ Hh).
  - intros Hn. apply (h_open _ _ _ Hh) in Hn as [i Hn]. pose proof (h_null _ _ _ Hh). congruence.
  - intros p i Hp. pose proof (ok_count _ _ _ _ _ Hok p i Hp). lia.
  - by apply (n_disk _ _ Nd).
  - intros p s' (Hb&Hp0&[(i&_&Hp&Hs&V)|(Hno&Hp&V)]).
    + pose proof (inv_reopened _ _ _ _ _ _ _ _ Hi Hp) as Hi'. rewrite <- V in Hi'. injection V as Vh Vo Vm Vd Vf.
      cbn in Vh. split_and!.
      * split; [done|done|]. rewrite Vh. cbn. rewrite map_size_insert_Some by done. lia.
      * rewrite Vh. by eapply keeps_inode.
      * split; [done..|]. rewrite Vh. rewrite map_size_insert_Some by done. lia.
      * rewrite Vh. eexists. by rewrite lookup_insert_eq.
    + apply not_elem_of_dom in Hp. assert (Hi' : inv (opened p k (encode_inode st len INODE_MAGIC) (view s)) N names rst mst (p :: pend)).
      { apply inv_opened; [done..|]. intros q i Hq Hs. apply (Hno q i); [|done..]. apply (h_open _ _ _ Hh). by exists i. }
      rewrite <- V in Hi'. injection V as Vh Vo Vm Vd Vf. cbn in Vh. split_and!.
      * split; [done|done|]. rewrite Vh. cbn. rewrite map_size_insert_None by done. lia.
      * intros f. rewrite Vh. apply handle_ext.
        -- intros o Ho. rewrite lookup_insert_Some. split; [|by right; split; [congruence|]]. intros [[<- <-]|[_ ?]]; done.
        -- intros o q Hf Hq. unfold sector_at. rewrite lookup_insert_ne; [done|]. intros <-.
           destruct (h_ref _ _ _ Hh f o p Hf Hq) as [i ?]. cbn in *. congruence.
      * split; [done..|]. rewrite Vh. rewrite map_size_insert_None by done. lia.
      * rewrite Vh. eexists. by rewrite lookup_insert_eq.
Qed.

(** A new file or directory takes over the reference to [p]. *)
Lemma new_obj_step dl s N names pend p i q o s1 : ok dl s N names (p :: pend) -> heap s !! p = Some (OInode i) ->
  stores s (disk s) s1 -> q <> NULL -> q ∉ dom (heap s) -> o = OFile (File p 0) \/ o = ODir (File p 0) ->
  let s' := set_heap (<[q := o]> (heap s1)) s1 in
  ok dl s' N names pend /\ (forall f, f <> q -> handle (heap s') f = handle (heap s) f) /\ calm 1 s s' /\ sector_at (heap s') p = Some (sector i).
Proof.
  intros Hok Hp Hs Hq Hqd Ho s'. apply not_elem_of_dom in Hqd. pose proof (stores_heap _ _ _ Hs) as Eh.
  assert (q <> p) as Hqp by congruence. assert (heap s' = <[q := o]> (heap s)) as Eh' by (cbn; by rewrite Eh).
  assert (view s' = put_heap (<[q := o]> (heap s)) (view s)) as V.
  { change (view s') with (put_heap (<[q := o]> (heap s1)) (view s1)). by rewrite (stores_view _ _ _ Hs), Eh. }
  pose proof (s_small _ _ _ _ _ Hok) as Hsm. assert (size (heap s') = S (size (heap s))) as Hz by (rewrite Eh'; by apply map_size_insert_None).
  split_and!.
  - split; [by apply busy_heap, (stores_busy _ _ _ _ _ Hs), Hok| |rewrite Hz; cbn in Hsm; lia]. rewrite V.
    apply (inv_new_obj (view s) _ _ _ _ pend q o p); [apply Hok|done|done|by destruct Ho as [-> | ->]|].
    intros fl. destruct Ho as [-> | ->]; intros [[= <-]|[= <-]]; cbn; lia.
  - intros f Hf. rewrite Eh'. apply handle_ext; [intros; by rewrite lookup_insert_ne|]. intros o' p' Hf' Hp'. unfold sector_at.
    destruct (decide (q = p')) as [<-|]; [|by rewrite lookup_insert_ne]. destruct (s_inv _ _ _ _ _ Hok) as [_ _ Hh _ _].
    destruct (h_ref _ _ _ Hh f o' q Hf' Hp'). cbn in *. congruence.
  - injection V as _ _ Vm Vd Vf. split; [done..|lia].
  - rewrite Eh'. unfold sector_at. by rewrite lookup_insert_ne, Hp.
Qed.

Definition new_post n dl s N names pend (x : bool * Z * Z) q s' : Prop :=
  q <> NULL /\ handle (heap s) q = None /\ ok dl s' N names pend /\ (forall f, f <> q -> handle (heap s') f = handle (heap s) f) /\
  handle (heap s') q = Some x /\ calm n s s'.

Lemma file_open_step dl s N names pend p i : ok dl s N names (p :: pend) -> heap s !! p = Some (OInode i) ->
  wp (file_open cur p) (new_post 1 dl s N names pend (false, sector i, 0)) s.
Proof.
  intros Hok Hp. unfold file_open. apply wp_bind, wp_malloc; [apply Hok|]. intros q s1 Hs Hq Hqn. specialize (Hqn Hroom).
  destruct Hq as [?|Hq]; [done|]. rewrite (proj2 (Z.eqb_neq _ _) Hqn), (proj2 (Z.eqb_neq _ _) (ok_null _ _ _ _ _ Hok _ _ Hp)). cbn [negb andb].
  apply wp_bind, wp_modify, wp_ret. destruct (new_obj_step dl s N names pend p i q (OFile (File p 0)) s1) as (?&?&?&Hs'); try done; [by left|].
  split_and!; try done; [by apply handle_fresh|]. cbn in *. unfold handle. rewrite lookup_insert_eq. by rewrite Hs'.
Qed.

Lemma dir_open_step dl s N names pend p i : ok dl s N names (p :: pend) -> heap s !! p = Some (OInode i) ->
  wp (dir_open cur p) (new_post 1 dl s N names pend (true, sector i, 0)) s.
Proof.
  intros Hok Hp. unfold dir_open. apply wp_bind, wp_malloc; [apply Hok|]. intros q s1 Hs Hq Hqn. specialize (Hqn Hroom).
  destruct Hq as [?|Hq]; [done|]. rewrite (proj2 (Z.eqb_neq _ _) Hqn), (proj2 (Z.eqb_neq _ _) (ok_null _ _ _ _ _ Hok _ _ Hp)). cbn [negb andb].
  apply wp_bind, wp_modify, wp_ret. destruct (new_obj_step dl s N names pend p i q (ODir (File p 0)) s1) as (?&?&?&Hs'); try done; [by right|].
  split_and!; try done; [by apply handle_fresh|]. cbn in *. unfold handle. rewrite lookup_insert_eq. by rewrite Hs'.
Qed.

(** ** The root directory *)

Lemma handle_inv h f b k n : handle h f = Some (b, k, n) ->
  exists p i, h !! f = Some ((if b then ODir else OFile) (File p n)) /\ h !! p = Some (OInode i) /\ sector i = k.
Proof.
  unfold handle, sector_at. destruct (h !! f) as [[|[p n']|[p n']]|]; [done| | |done];
    (destruct (h !! p) as [[i| |]|] eqn:E; [|done..]; cbn; intros [= <- <- <-]; by exists p, i).
Qed.

Lemma dir_open_root_step dl s N names pend : ok dl s N names pend -> Z.of_nat (size (heap s)) + zlen pend + 4 < 2 ^ 30 ->
  wp (dir_open_root cur) (new_post 2 dl s N names pend (true, ROOT_DIR_SECTOR, 0)) s.
Proof.
  intros Hok Hsm. unfold dir_open_root. apply wp_bind. eapply wp_mono.
  { apply inode_open_step; [done| |lia]. destruct (s_inv _ _ _ _ _ Hok) as [_ _ _ [r1 _ _ _ _ _ _] _]. eauto. }
  intros p s1 (Hok1&Hk&Hc1&i&Hp&Hs). eapply wp_mono; [by eapply dir_open_step|]. rewrite Hs. intros d s2 (Hd&Hdn&Hok2&Hh&Hhd&Hc2).
  assert (calm 2 s s2) as Hc by exact (calm_trans 1 1 _ _ _ Hc1 Hc2).
  split_and!; try done; [by rewrite <- Hk|]. intros f Hf. by rewrite Hh, Hk.
Qed.

Lemma ok_stores dl s N names pend s' : stores s (disk s) s' -> ok dl s N names pend ->
  ok dl s' N names pend /\ heap s' = heap s /\ disk s' = disk s /\ view s' = view s.
Proof.
  intros Hs [Hb Hi Hsm]. pose proof (stores_view _ _ _ Hs) as V. change (put_disk (disk s) (view s)) with (view s) in V.
  pose proof V as [= Eh _ _ Ed _]. split; [|done]. split; [by eapply stores_busy|by rewrite V|by rewrite Eh].
Qed.

Lemma root_file dl s N names pend d k : ok dl s N names pend -> handle (heap s) d = Some (true, ROOT_DIR_SECTOR, k) ->
  exists p i, heap s !! d = Some (ODir (File p k)) /\ heap s !! p = Some (OInode i) /\ sector i = ROOT_DIR_SECTOR /\
    data_start i = rst /\ data_length i = ROOT_LEN /\ removed i = false /\ dir_file s p i (contents (disk s) rst ROOT_LEN).
Proof.
  intros Hok (p&i&Hd&Hp&Hs)%handle_inv. exists p, i. pose proof (s_inv _ _ _ _ _ Hok) as [_ _ _ R _].
  pose proof (ok_node _ _ _ _ _ Hok p i Hp) as Hn. rewrite Hs, (r_node _ _ _ _ R) in Hn. injection Hn as Hst Hl.
  split_and!; try done.
  - destruct (removed i) eqn:E; [|done]. by destruct (proj1 (r_removed _ _ _ _ R p i Hp) E) as (_&?&_).
  - destruct (ok_extent _ _ _ _ _ Hok p i Hp) as [Hx _].
    split; [apply Hok|by eapply ok_null|done|by eapply ok_idle|done|by rewrite <- Hst, <- Hl|apply R].
Qed.

Lemma names_find dl s N names pend nm : ok dl s N names pend ->
  names !! nm = (fun x : nat * list Z => e_sector x.2) <$> list_find (is_name nm) (entries (contents (disk s) rst ROOT_LEN)).
Proof.
  intros Hok. destruct (s_inv _ _ _ _ _ Hok) as [_ _ _ R _]. destruct (list_find _ _) as [[j e]|] eqn:E; cbn.
  - apply list_find_Some in E as (Hj&Hn&_). apply (r_names _ _ _ _ R). by exists j, e.
  - rewrite list_find_None, Forall_lookup in E. destruct (names !! nm) as [k|] eqn:En; [|done].
    apply (r_names _ _ _ _ R) in En as (j&e&Hj&Hn&_). by destruct (E j e Hj).
Qed.

Lemma lookup_step dl s N names pend d k nm : ok dl s N names pend -> handle (heap s) d = Some (true, ROOT_DIR_SECTOR, k) -> string_ok nm ->
  wp (lookup d nm) (fun r s' => stores s (disk s) s' /\
    r = (fun x : nat * list Z => (x.2, 20 * Z.of_nat x.1)) <$> list_find (is_name nm) (entries (contents (disk s) rst ROOT_LEN))) s.
Proof.
  intros Hok Hd Hnm. destruct (root_file _ _ _ _ _ _ _ Hok Hd) as (p&i&Hh&_&_&_&_&_&Hf).
  eapply lookup_ok; [by eapply ok_null|done..].
Qed.

(** Closing the root directory drops no inode. *)
Lemma dir_close_step dl s N names pend d k : ok dl s N names pend -> handle (heap s) d = Some (true, ROOT_DIR_SECTOR, k) ->
  wp (dir_close cur d) (fun _ s' => ok dl s' N names pend /\ (forall f, f <> d -> handle (heap s') f = handle (heap s) f) /\
    handle (heap s') d = None /\ (forall q, q ∈ pend -> sector_at (heap s') q = sector_at (heap s) q) /\
    same_files N (disk s) (disk s') /\ free_map_file s' = free_map_file s /\ (size (heap s') <= size (heap s))%nat) s.
Proof.
  intros Hok Hd. destruct (root_file _ _ _ _ _ _ _ Hok Hd) as (p&i&Hh&Hp&_&_&_&Hr&_). unfold dir_close.
  rewrite (proj2 (Z.eqb_neq _ _) (ok_null _ _ _ _ _ Hok _ _ Hh)). apply wp_bind. eapply wp_dir_at; [done|]. cbn [f_inode].
  eapply wp_mono; [eapply (obj_close_step dl s N names pend d _ p i Hok Hh); [done|done|]|].
  - destruct (s_inv _ _ _ _ _ Hok) as [_ _ _ _ [_ (p'&k'&i'&Hf&_) _]]. cbn in Hf. intros ->. congruence.
  - intros _ s' [(Hok'&Hk&Hpd&Hsf&Hf&Hz) Hn]. unfold dropped in Hok'. rewrite Hr, andb_false_r in Hok'.
    split_and!; try done. intros f Hfd. apply Hk. congruence.
Qed.

(** ** filesys_open *)

Lemma file_open_null s : good s -> wp (file_open cur NULL) (fun r s' => r = NULL /\ stores s (disk s) s') s.
Proof.
  intros Hg. unfold file_open. apply wp_bind, wp_malloc; [done|]. intros q s1 Hs Hq _. rewrite Z.eqb_refl. cbn [negb andb].
  unfold inode_close. rewrite Z.eqb_refl. apply wp_bind, wp_ret, wp_bind, wp_free; [by rewrite (stores_heap _ _ _ Hs)|]. by apply wp_ret.
Qed.

Definition quiet_post s N names s' : Prop :=
  ok None s' N names [] /\ same_files N (disk s) (disk s') /\ free_map_file s' = free_map_file s /\
  (size (heap s') <= size (heap s) + 4)%nat.

Lemma filesys_open_step s N names nm : ok None s N names [] -> string_ok nm -> Z.of_nat (size (heap s)) + 8 < 2 ^ 30 ->
  wp (filesys_open cur nm) (fun r s' => quiet_post s N names s' /\ (forall f, f <> r -> handle (heap s') f = handle (heap s) f) /\
    handle (heap s) r = None /\
    match names !! nm with
    | Some k => r <> NULL /\ handle (heap s') r = Some (false, k, 0)
    | None => r = NULL /\ handle (heap s') r = None
    end) s.
Proof.
  intros Hok Hnm Hsm. unfold filesys_open. apply wp_bind. eapply wp_mono; [apply dir_open_root_step; [done|simpl; lia]|].
  intros d s1 (Hd&Hd0&Hok1&Hh1&Hd1&[Ed1 _ Ef1 Hz1]). rewrite (proj2 (Z.eqb_neq _ _) Hd). cbn [negb]. apply wp_bind.
  unfold dir_lookup. apply wp_bind, wp_assert. split; [by rewrite (proj2 (Z.eqb_neq _ _) Hd)|]. apply wp_bind.
  eapply wp_mono; [by eapply lookup_step|]. intros r s2 [Hs2 ->].
  destruct (ok_stores _ _ _ _ _ _ Hs2 Hok1) as (Hok2&Eh2&Ed2&V2). pose proof (names_find _ _ _ _ _ nm Hok1) as Hn.
  assert (free_map_file s2 = free_map_file s) as Ef2 by (injection V2; congruence).
  destruct (list_find _ _) as [[j e]|]; cbn in Hn |- *; rewrite Hn.
  - eapply wp_mono; [apply inode_open_step; [done|by eapply r_linked; [apply Hok|]|rewrite Eh2; simpl; lia]|].
    intros p s3 (Hok3&Hk3&[Ed3 _ Ef3 Hz3]&i&Hp&Hi). apply wp_bind. eapply wp_mono; [eapply dir_close_step; [done|by rewrite Hk3, Eh2]|].
    intros _ s4 (Hok4&Hh4&Hd4&Hpd4&Hsf4&Ef4&Hz4).
    assert (exists i', heap s4 !! p = Some (OInode i') /\ sector i' = e_sector e) as (i'&Hp'&Hi').
    { specialize (Hpd4 p ltac:(by left)). unfold sector_at in Hpd4. rewrite Hp, Hi in Hpd4.
      destruct (heap s4 !! p) as [[i'| |]|]; [|done..]. injection Hpd4. eauto. }
    eapply wp_mono; [by eapply file_open_step|]. rewrite Hi'. intros f s5 (Hf&Hf0&Hok5&Hh5&Hf5&[Ed5 _ Ef5 Hz5]).
    assert (Hback : forall x, handle (heap s4) x = handle (heap s) x).
    { intros x. destruct (decide (x = d)) as [->|]; [congruence|]. by rewrite Hh4, Hk3, Eh2, Hh1. }
    split_and!; try done.
    + split_and!; [done| |congruence|rewrite Eh2 in Hz3; lia]. rewrite Ed5. rewrite <- Ed1, <- Ed2, <- Ed3. done.
    + intros x Hx. by rewrite Hh5, Hback.
    + by rewrite <- Hback.
  - apply wp_ret. apply wp_bind. eapply wp_mono; [eapply dir_close_step; [done|by rewrite Eh2]|].
    intros _ s4 (Hok4&Hh4&Hd4&_&Hsf4&Ef4&Hz4). eapply wp_mono; [apply file_open_null, Hok4|]. intros r s5 [-> Hs5].
    destruct (ok_stores _ _ _ _ _ _ Hs5 Hok4) as (Hok5&Eh5&Ed5&V5).
    assert (Hback : forall x, handle (heap s5) x = handle (heap s) x).
    { intros x. rewrite Eh5. destruct (decide (x = d)) as [->|]; [congruence|]. by rewrite Hh4, Eh2, Hh1. }
    assert (free_map_file s5 = free_map_file s) by (injection V5; congruence).
    assert (handle (heap s) NULL = None) as Hnull.
    { apply handle_fresh, not_elem_of_dom. destruct (s_inv _ _ _ _ _ Hok) as [_ _ Hh _ _]. apply Hh. }
    split_and!; try done; [|by rewrite Hback].
    split_and!; [done| |done|rewrite Eh5; rewrite Eh2 in Hz4; lia]. rewrite Ed5. rewrite <- Ed1, <- Ed2. done.
Qed.

(** ** filesys_remove *)

Lemma ok_dir dl dl' s N names pend : ok dl s N names pend -> ok dl' (set_dir_lock dl' s) N names pend.
Proof. intros [Hb Hi Hs]. split; [by eapply busy_dir|done..]. Qed.

Lemma handle_refs dl s N names pend p i : ok dl s N names pend -> heap s !! p = Some (OInode i) ->
  (refs (heap s) p = 0 /\ forall f b n, handle (heap s) f <> Some (b, sector i, n)) \/
  (refs (heap s) p <> 0 /\ exists f b n, handle (heap s) f = Some (b, sector i, n)).
Proof.
  intros Hok Hp. pose proof (s_inv _ _ _ _ _ Hok) as [_ _ Hh _ _]. destruct (decide (refs (heap s) p = 0)) as [Hr|Hr]; [left|right]; (split; [done|]).
  - intros f b n (p'&i'&Hf&Hp'&Hs)%handle_inv. assert (p' = p) as -> by (eapply (h_unique _ _ _ Hh); done).
    eapply (refs_zero _ _ Hr f); [done|by destruct b].
  - apply refs_some in Hr as (f&o&Hf&Ho). destruct o as [|[q n]|[q n]]; cbn in Ho; [done| |]; injection Ho as ->.
    + exists f, false, n. unfold handle, sector_at. by rewrite Hf, Hp.
    + exists f, true, n. unfold handle, sector_at. by rewrite Hf, Hp.
Qed.

(** The inode in sector [k] stays in use while it is open. *)
Definition collected (h : gmap ptr obj) k N N' : Prop :=
  ((exists f b n, handle h f = Some (b, k, n)) /\ N' = N) \/ ((forall f b n, handle h f <> Some (b, k, n)) /\ N' = delete k N).

Lemma inode_remove_step dl s p i : busy None dl s -> heap s !! p = Some (OInode i) -> p <> NULL ->
  wp (inode_remove cur p) (fun _ s' => busy None dl s' /\ s' = with_inode p (set_removed true i) s) s.
Proof.
  intros Hb Hp Hn. unfold inode_remove. apply wp_bind, wp_assert. split; [by rewrite (proj2 (Z.eqb_neq _ _) Hn)|].
  apply wp_bind, wp_fs_acquire; [apply Hb|]. set (s1 := set_filesys_lock (Some cur) s). apply wp_bind.
  rewrite <- (with_inode_id p i s1 Hp). apply wp_with_upd. apply wp_fs_release; [done|].
  destruct Hb as [? ? ? Hf ? ?]. split; [by split|]. destruct s. cbn in Hf. subst. done.
Qed.

(** Clearing an entry and flagging its inode. *)
Lemma unlink_step dl s N names pend d k p i j e nm : ok dl s N names pend -> handle (heap s) d = Some (true, ROOT_DIR_SECTOR, k) ->
  entries (contents (disk s) rst ROOT_LEN) !! j = Some e -> is_name nm e -> heap s !! p = Some (OInode i) -> sector i = e_sector e ->
  wp (let! dd := dir_at d in
      let! n := inode_write_at (f_inode dd) (set_in_use false e) ENTRY_SIZE (20 * Z.of_nat j) in
      if negb (n =? ENTRY_SIZE) then ret (p, false) else
      do! inode_remove cur p in
      ret (p, true)) (fun r s' => r = (p, true) /\ ok dl s' N (delete nm names) pend /\ keeps (heap s) (heap s') /\
        heap s' !! p = Some (OInode (set_removed true i)) /\ refs (heap s') p = refs (heap s) p /\
        same_files N (disk s) (disk s') /\
        free_map_file s' = free_map_file s /\ size (heap s') = size (heap s)) s.
Proof.
  intros Hok Hd Hj Hnm Hp Hs. destruct (root_file _ _ _ _ _ _ _ Hok Hd) as (pr&ir&Hh&Hpr&Hsr&Hst&Hl&_&Hf).
  pose proof (s_inv _ _ _ _ _ Hok) as Hi. pose proof Hi as [_ Nd _ R _].
  assert (entry_ok e) as He by (eapply Forall_lookup_1; [apply R|done]). destruct (clear_in_use e He) as [He' _].
  pose proof (entries_bound _ _ _ _ Hj) as Hb. rewrite root_length in Hb. pose proof (eo_len _ He') as Hl'.
  apply wp_bind. eapply wp_dir_at; [done|]. cbn [f_inode]. apply wp_bind. replace ENTRY_SIZE with (zlen (set_in_use false e)) at 1 by lia.
  eapply wp_mono; [apply (write_within s pr ir); try apply Hf; try apply He'; lia|]. intros n s1 (->&m'&Hs1&Hc&Hfr).
  rewrite Hl'. cbn. pose proof (stores_busy _ _ _ _ _ Hs1 (s_busy _ _ _ _ _ Hok)) as Hb1. pose proof (stores_heap _ _ _ Hs1) as Eh1.
  apply wp_bind. eapply wp_mono; [apply (inode_remove_step dl s1 p i Hb1); [by rewrite Eh1|by eapply ok_null]|].
  intros _ s2 [Hb2 E2]. apply wp_ret. rewrite Hst, Hl in Hc, Hfr.
  assert (view s2 = put_disk m' (put_heap (<[p := OInode (set_removed true i)]> (heap s)) (view s))) as V.
  { rewrite E2. change (put_heap (<[p := OInode (set_removed true i)]> (heap s1)) (view s1) = put_disk m' (put_heap (<[p := OInode (set_removed true i)]> (heap s)) (view s))).
    by rewrite (stores_view _ _ _ Hs1), Eh1. }
  clear E2. pose proof V as [= Eh2 _ _ Ed2 Ef2]. assert (size (heap s2) = size (heap s)) as Hz by (rewrite Eh2; by rewrite map_size_insert_Some).
  split; [done|]. split_and!.
  - split; [done| |rewrite Hz; apply Hok]. rewrite V. eapply (inv_unlink (view s)); try done.
    rewrite <- (st_disk _ _ _ Hs1). apply good_sized, Hs1.
  - rewrite Eh2. by eapply keeps_inode.
  - rewrite Eh2. apply lookup_insert_eq.
  - rewrite Eh2. by eapply refs_update.
  - intros k' st len Hk' _ Hne. rewrite Ed2. eapply frame_contents; [exact Hfr|]. intros x Hx Hx'. apply Hne.
    eapply (n_disj _ _ Nd _ _ x); eapply owns_data; [done|done|apply R|done].
  - done.
  - done.
Qed.

Lemma same_files_delete k N m m' : same_files N m m' -> same_files (delete k N) m m'.
Proof. intros Hs k' st len [_ Hk]%lookup_delete_Some. by eapply Hs. Qed.

Definition remove_post n s N names nm (r : bool) s' : Prop :=
  exists N' names', ok None s' N' names' [] /\ keeps (heap s) (heap s') /\ same_files N' (disk s) (disk s') /\
  free_map_file s' = free_map_file s /\ (size (heap s') <= size (heap s) + n)%nat /\
  match names !! nm with
  | Some k => r = true /\ names' = delete nm names /\ collected (heap s) k N N'
  | None => r = false /\ names' = names /\ N' = N
  end.

Lemma dir_remove_step s N names d k nm : ok None s N names [] -> handle (heap s) d = Some (true, ROOT_DIR_SECTOR, k) -> string_ok nm ->
  Z.of_nat (size (heap s)) + 2 < 2 ^ 30 -> wp (dir_remove cur d nm) (remove_post 1 s N names nm) s.
Proof.
  intros Hok Hd Hnm Hsm. unfold dir_remove. assert (d <> NULL) as Hdn by (apply handle_inv in Hd as (?&?&?&_); by eapply ok_null).
  apply wp_bind, wp_assert. split; [by rewrite (proj2 (Z.eqb_neq _ _) Hdn)|]. apply wp_bind, wp_dir_acquire; [apply Hok|].
  set (s1 := set_dir_lock (Some cur) s). assert (ok (Some cur) s1 N names []) as Hok1 by (by eapply ok_dir).
  apply wp_bind. eapply wp_mono; [by eapply (lookup_step (Some cur) s1)|]. intros r s2 [Hs2 ->].
  destruct (ok_stores _ _ _ _ _ _ Hs2 Hok1) as (Hok2&Eh2&Ed2&V2). pose proof (names_find _ _ _ _ _ nm Hok1) as Hn.
  change (heap s1) with (heap s) in *. change (disk s1) with (disk s) in *.
  assert (free_map_file s2 = free_map_file s) as Ef2 by (by injection V2). unfold remove_post. rewrite Hn.
  destruct (list_find _ _) as [[j e]|] eqn:El; cbn in Hn |- *.
  - apply list_find_Some in El as (Hj&Hje&_). apply wp_bind, wp_bind. eapply wp_mono.
    { apply inode_open_step; [done|by eapply r_linked; [apply Hok|]|rewrite Eh2; simpl; lia]. }
    intros p s3 (Hok3&Hk3&[Ed3 _ Ef3 Hz3]&i&Hp&Hi). rewrite (proj2 (Z.eqb_neq _ _) (ok_null _ _ _ _ _ Hok3 _ _ Hp)).
    eapply wp_mono; [eapply (unlink_step _ _ _ _ _ d k p i j e nm Hok3); [by rewrite Hk3, Eh2|by rewrite Ed3, Ed2|done..]|].
    intros r s4 (->&Hok4&Hk4&Hp4&Hr4&Hsf4&Ef4&Hz4). apply wp_bind. eapply wp_mono; [by eapply inode_close_step|].
    intros _ s5 (Hok5&Hk5&_&Hsf5&Ef5&Hz5). apply wp_bind, wp_dir_release; [apply Hok5|]. apply wp_ret.
    pose proof (h_count _ _ _ (i_heap _ _ _ _ _ _ (s_inv _ _ _ _ _ Hok4)) p _ Hp4) as [Hc _]. cbn in Hc. rewrite held_cons, decide_True in Hc by done.
    rewrite Hr4 in Hc. pose proof (handle_refs _ _ _ _ _ p i Hok3 Hp) as Hrefs. rewrite Hi in Hrefs.
    assert (keeps (heap s) (heap s5)) as Hk by (intros f; by rewrite Hk5, Hk4, Hk3, Eh2).
    assert (collected (heap s) (e_sector e) N (dropped (set_removed true i) N)) as Hcol.
    { unfold dropped, collected. cbn. rewrite Hi. change (held [] p) with 0 in Hc. destruct (Z.eqb_spec (open_cnt i) 1) as [E|E].
      - right. split; [|done]. destruct Hrefs as [[_ Hno]|[? _]]; [|lia]. intros f b n. rewrite <- Eh2, <- Hk3. apply Hno.
      - left. split; [|done]. destruct Hrefs as [[? _]|[_ (f&b&n&Hf)]]; [lia|]. exists f, b, n. by rewrite <- Eh2, <- Hk3. }
    exists (dropped (set_removed true i) N), (delete nm names). split_and!; [by eapply ok_dir|done| |cbn; congruence|cbn in *; rewrite Eh2 in Hz3; lia|done..].
    change (same_files (dropped (set_removed true i) N) (disk s) (disk s5)). rewrite <- Ed2, <- Ed3. unfold dropped.
    destruct (_ && _); [apply same_files_delete|]; by eapply same_files_trans.
  - apply wp_bind, wp_ret, wp_bind. unfold inode_close. rewrite Z.eqb_refl. apply wp_ret, wp_bind, wp_dir_release; [apply Hok2|]. apply wp_ret.
    exists N, names. split_and!; [by eapply ok_dir|intros f; cbn; by rewrite Eh2| |done|cbn; rewrite Eh2; lia|done..].
    change (same_files N (disk s) (disk s2)). rewrite Ed2. by intros ?.
Qed.

Lemma filesys_remove_step s N names nm : ok None s N names [] -> string_ok nm -> Z.of_nat (size (heap s)) + 8 < 2 ^ 30 ->
  wp (filesys_remove cur nm) (remove_post 3 s N names nm) s.
Proof.
  intros Hok Hnm Hsm. unfold filesys_remove. apply wp_bind. eapply wp_mono; [apply dir_open_root_step; [done|simpl; lia]|].
  intros d s1 (Hd&Hd0&Hok1&Hh1&Hd1&[Ed1 _ Ef1 Hz1]). rewrite (proj2 (Z.eqb_neq _ _) Hd). cbn [negb]. apply wp_bind.
  eapply wp_mono; [eapply dir_remove_step; [done..|lia]|]. intros r s2 (N'&names'&Hok2&Hk2&Hsf2&Ef2&Hz2&Hr). apply wp_bind.
  eapply wp_mono; [eapply dir_close_step; [done|by rewrite Hk2]|]. intros _ s3 (Hok3&Hh3&Hd3&_&Hsf3&Ef3&Hz3). apply wp_ret.
  exists N', names'. split_and!; [done| | |congruence|lia|].
  - intros f. destruct (decide (f = d)) as [->|]; [congruence|]. by rewrite Hh3, Hk2, Hh1.
  - rewrite <- Ed1. by eapply same_files_trans.
  - destruct (names !! nm) as [k|] eqn:En; [|done]. destruct Hr as (->&->&Hc). split_and!; [done..|].
    destruct (s_inv _ _ _ _ _ Hok) as [_ _ _ R _]. destruct (r_linked _ _ _ _ R _ _ En) as (_&_&Hk1). unfold collected in *.
    destruct Hc as [[(f&b&n&Hf) ->]|[Hno ->]]; [left|right]; (split; [|done]).
    + exists f, b, n. rewrite <- Hh1; [done|]. intros ->. congruence.
    + intros f b n Hf. apply (Hno f b n). rewrite Hh1; [done|]. intros ->. congruence.
Qed.

(** ** filesys_create *)

(** A change of the free map and of sectors that are not in use. *)
Lemma store_step dl s N names pend s' b' m' (A : Z -> Prop) : ok dl s N names pend -> busy None dl s' ->
  view s' = put_disk m' (put_map b' (view s)) -> Bitmap.wf b' -> Bitmap.bit_cnt b' = Bitmap.bit_cnt (free_map s) ->
  frame A (disk s) m' -> (forall x, A x -> map_sectors s x \/ forall k, ~ owns N k x) ->
  contents m' mst (Bitmap.byte_cnt (Bitmap.bit_cnt (free_map s))) = words_bytes (Bitmap.bits b') ->
  (forall k n, owns N k n -> Bitmap.bit b' n = true) ->
  ok dl s' N names pend /\ heap s' = heap s /\ same_files N (disk s) (disk s') /\ free_map_file s' = free_map_file s /\ free_map s' = b' /\ disk s' = m'.
Proof.
  intros Hok Hb V Hwf Hcnt Hfr HA Hc Hu. pose proof (s_inv _ _ _ _ _ Hok) as Hi. pose proof V as [= Eh _ Em Ed Ef].
  assert (HA' : forall x, A x -> in_extent mst (Bitmap.byte_cnt (Bitmap.bit_cnt (c_map (view s)))) x \/ forall k, ~ owns N k x).
  { intros x [?|?]%HA; [left; by apply (ok_map_sectors _ _ _ _ _ Hok)|by right]. }
  destruct (frame_kept _ _ _ _ _ _ A m' Hi Hfr HA') as [Hk1 Hk2].
  split_and!; [|done| |done..].
  - split; [done| |rewrite Eh; apply Hok]. rewrite V. apply inv_store; try done; [rewrite <- Ed; apply good_sized, Hb|apply Hfr|]. change (c_map (view s)) with (free_map s). rewrite Hc. by apply backs_exact.
  - rewrite Ed. by eapply (frame_files _ _ _ (view s)).
Qed.

Lemma ok_map_known dl s N names pend : ok dl s N names pend -> map_known s.
Proof. intros Hok. destruct (ok_map_file _ _ _ _ _ Hok) as (p&i&?&_). right. by exists p, i. Qed.

Definition kept dl s N names pend s' : Prop :=
  ok dl s' N names pend /\ heap s' = heap s /\ same_files N (disk s) (disk s') /\ free_map_file s' = free_map_file s.

Lemma ok_used dl s N names pend k n : ok dl s N names pend -> owns N k n -> Bitmap.bit (free_map s) n = true.
Proof. intros Hok. by apply (n_used _ _ (i_nodes _ _ _ _ _ _ (s_inv _ _ _ _ _ Hok))). Qed.

Lemma allocate_step dl s N names pend cnt : ok dl s N names pend -> 0 <= cnt ->
  wp (free_map_allocate cur cnt) (fun r s' => kept dl s N names pend s' /\ allocated (free_map s) cnt r (free_map s')) s.
Proof.
  intros Hok Hcnt. pose proof Hok as [[Hg Hz Hw Hfl Hml Hdl] _ _]. eapply wp_mono; [by apply free_map_allocate_ok, Hcnt; [..|by eapply ok_map_known]|].
  intros r s' (b'&m'&Hs&Ha&Hfr&Hsv&Hno). assert (view s' = put_disk m' (put_map b' (view s))) as V by exact (stores_view _ _ _ Hs).
  assert (free_map s' = b') as Em by (by injection V). rewrite Em. destruct r as [n|].
  - destruct (ok_map_file _ _ _ _ _ Hok) as (p0&i0&Hm&Hst&_). destruct Ha as (Hn&Hn2&Hgr&(Hwf&Hc&Hbit)).
    destruct (store_step dl s N names pend s' b' m' (map_sectors s) Hok) as (?&?&?&?&_); try done.
    + eapply stores_busy; [exact Hs|]. apply busy_map; [apply Hok|done..].
    + by left.
    + pose proof (Hsv p0 i0 Hm ltac:(eauto)) as Hsaved. unfold saved in Hsaved. rewrite (mf_len _ _ _ Hm), Hst, Em, (st_disk _ _ _ Hs) in Hsaved. done.
    + intros k x Hx. pose proof (ok_owned _ _ _ _ _ Hok _ _ Hx). rewrite Hbit by lia. destruct (_ && _); [done|]. by eapply ok_used.
  - pose proof Ha as (_&_&_&Hr). destruct (Hr Hroom) as [-> _]. rewrite (Hno eq_refl Hroom) in *. 
    change (put_disk (disk s) (put_map (free_map s) (view s))) with (view s) in V. split; [|done].
    pose proof V as [= Eh _ _ Ed Ef]. split_and!; [|done|rewrite Ed; intros ??????; done|done].
    split; [eapply stores_busy; [exact Hs|]; apply busy_map; [apply Hok|done..]|rewrite V; apply Hok|rewrite Eh; apply Hok].
Qed.

Lemma release_step dl s N names pend k : ok dl s N names pend -> 0 <= k < Bitmap.bit_cnt (free_map s) -> Bitmap.bit (free_map s) k = true ->
  (forall k', ~ owns N k' k) -> wp (free_map_release cur k 1) (fun _ s' => kept dl s N names pend s') s.
Proof.
  intros Hok Hk Hbk Hno. pose proof Hok as [[Hg Hz Hw Hfl Hml Hdl] _ _]. destruct (ok_map_file _ _ _ _ _ Hok) as (p0&i0&Hm&Hst&_).
  eapply wp_mono; [apply (free_map_release_ok cur s p0 i0); (done || lia || idtac)|].
  { intros j Hj. by replace j with k by lia. }
  intros _ s' (b'&m'&Hs&(Hwf&Hc&Hbit)&Hfr&Hsv). assert (view s' = put_disk m' (put_map b' (view s))) as V by exact (stores_view _ _ _ Hs).
  assert (free_map s' = b') as Em by (by injection V).
  destruct (store_step dl s N names pend s' b' m' (map_sectors s) Hok) as (?&?&?&?&_); try done.
  - eapply stores_busy; [exact Hs|]. apply busy_map; [apply Hok|done..].
  - by left.
  - pose proof (Hsv Hroom) as Hsaved. unfold saved in Hsaved. rewrite (mf_len _ _ _ Hm), Hst, Em, (st_disk _ _ _ Hs) in Hsaved. done.
  - intros k' x Hx. pose proof (ok_owned _ _ _ _ _ Hok _ _ Hx). rewrite Hbit by lia. destruct (_ && _) eqn:E; [|by eapply ok_used].
    destruct (Hno k'). by replace k with x by lia.
Qed.

(** An inode on disk that no entry names yet. *)
Record new_node s N k n len : Prop := NewNode {
  nn_disk : disk s !! k = Some (encode_inode n len INODE_MAGIC);
  nn_zero : contents (disk s) n len = replicate (Z.to_nat len) 0;
  nn_extent : extent (disk s) n len;
  nn_start : 0 <= n < 2 ^ 32 /\ n + nsec len <= Bitmap.bit_cnt (free_map s);
  nn_apart : ~ in_extent n len k;
  nn_fresh x k' : x = k \/ in_extent n len x -> ~ owns N k' x;
  nn_used x : x = k \/ in_extent n len x -> Bitmap.bit (free_map s) x = true }.

Lemma zero_contents m n len : (forall x, in_extent n len x -> m !! x = Some (replicate 512 0)) -> contents m n len = replicate (Z.to_nat len) 0.
Proof.
  intros Hz. apply list_eq. intros j. unfold contents. rewrite bytes_lookup. case_decide.
  - rewrite lookup_replicate_2 by lia. f_equal. unfold byte. rewrite Hz by (unfold in_extent, nsec; zlia). cbn [from_option id].
    by rewrite nth_lookup, lookup_replicate_2 by (apply Nat2Z.inj_lt; zlia).
  - symmetry. apply lookup_replicate_None. lia.
Qed.

Lemma inode_create_step s N names pend k len : ok None s N names pend -> 0 <= len -> len + 511 < 2 ^ 31 ->
  0 <= k < Bitmap.bit_cnt (free_map s) -> Bitmap.bit (free_map s) k = true -> (forall k', ~ owns N k' k) ->
  wp (inode_create cur k len) (fun r s' => kept None s N names pend s' /\
    if r then exists n, new_node s' N k n len /\ allocated (free_map s) (nsec len) (Some n) (free_map s')
    else free_map s' = free_map s /\ no_run (free_map s) (nsec len)) s.
Proof.
  intros Hok Hl0 Hl Hk Hbk Hno. pose proof Hok as [[Hg Hz Hw Hfl Hml Hdl] _ _].
  eapply wp_mono; [apply (inode_create_ok cur None s k len); [apply Hok|by eapply ok_map_known|done..|]|].
  { intros x Hx. pose proof (ok_map_apart _ _ _ _ _ Hok _ Hx) as Ho. pose proof (ok_owned _ _ _ _ _ Hok _ _ Ho).
    split_and!; [|lia|by eapply ok_used]. intros ->. by destruct (Hno FREE_MAP_SECTOR). }
  intros [] s' [Hr Hb].
  - destruct Hr as (n&b'&m'&V&Ha&(C1&C2&C3)&Hsv). pose proof Ha as (Hn&Hn2&Hgr&(Hwf&Hc&Hbit)).
    assert (Hfree : forall x k', in_extent n len x -> ~ owns N k' x).
    { intros x k' Hx Ho. pose proof (ok_used _ _ _ _ _ _ _ Hok Ho). rewrite (Hgr x) in *; done. }
    destruct (ok_map_file _ _ _ _ _ Hok) as (p0&i0&Hm&Hst&_).
    destruct (store_step None s N names pend s' b' m' (fun x => map_sectors s x \/ x = k \/ in_extent n len x) Hok) as (Hok'&Eh&Hsf&Ef&Em&Ed); try done.
    + intros x [?|[->|?]]; [by left|by right|right; by intros k' ?%Hfree].
    + rewrite <- Hst, <- (mf_len _ _ _ Hm). by eapply Hsv.
    + intros k' x Hx. pose proof (ok_owned _ _ _ _ _ Hok _ _ Hx). rewrite Hbit by lia. destruct (_ && _); [done|]. by eapply ok_used.
    + split; [by split_and!|]. exists n. rewrite Em. split; [|done]. pose proof (Bitmap.wf_cnt _ Hw) as Hcnt.
      assert (~ in_extent n len k) by (intros Hx; rewrite (Hgr k) in Hbk; done). assert (0 <= nsec len) by (unfold nsec; zlia).
      split; rewrite ?Ed, ?Em; try done.
      * by apply zero_contents.
      * split; [done|lia|]. intros x Hx. rewrite C2; [eauto|done].
      * lia.
      * intros x k' [->|?]; [done|by apply Hfree].
      * intros x Hx. assert (0 <= x) by (unfold in_extent in Hx; lia). rewrite Hbit by done. destruct (_ && _) eqn:E; [done|].
        destruct Hx as [->|Hx]; [done|]. unfold in_extent in Hx. lia.
  - destruct Hr as [V Hnr]. pose proof V as [= Eh _ Em Ed Ef]. split; [|done]. split_and!; [|done|rewrite Ed; intros ??????; done|done].
    split; [done|rewrite V; apply Hok|rewrite Eh; apply Hok].
Qed.

(** All sixteen entries in use are sixteen names. *)
Lemma full_names dl s N names pend : ok dl s N names pend ->
  list_find is_free (entries (contents (disk s) rst ROOT_LEN)) = None -> (16 <= size names)%nat.
Proof.
  intros Hok Hnone. destruct (s_inv _ _ _ _ _ Hok) as [_ _ _ R _]. set (es := entries (contents (disk s) rst ROOT_LEN)) in *.
  assert (length es = 16%nat) as Hlen by (unfold es, entries; rewrite length_fmap, length_seqZ, root_length; done).
  rewrite list_find_None, Forall_lookup in Hnone. unfold is_free in Hnone.
  assert (NoDup (name_of <$> es)) as Hnd.
  { apply NoDup_alt. intros j j' nm Hj Hj'. rewrite list_lookup_fmap in Hj, Hj'.
    destruct (es !! j) as [e|] eqn:E, (es !! j') as [e'|] eqn:E'; try done. cbn in Hj, Hj'. simplify_eq.
    apply (r_uniq _ _ _ _ R j j' e e'); [done|done|..].
    - by apply not_false_iff_true, (Hnone j).
    - by apply not_false_iff_true, (Hnone j').
    - left. congruence. }
  rewrite <- Hlen, <- (length_fmap name_of), <- size_dom, <- (size_list_to_set (C := gset (list Z))) by done.
  apply subseteq_size. intros nm [j Hj]%elem_of_list_to_set%list_elem_of_lookup. rewrite list_lookup_fmap in Hj.
  destruct (es !! j) as [e|] eqn:E; [|done]. injection Hj as <-. apply elem_of_dom. exists (e_sector e).
  apply (r_names _ _ _ _ R). exists j, e. split_and!; [done|split; [by apply not_false_iff_true, (Hnone j)|done]|done].
Qed.

Definition link_post s N names nm k n len (r : bool) s' : Prop :=
  heap s' = heap s /\ same_files (<[k := (n, len)]> N) (disk s) (disk s') /\ free_map_file s' = free_map_file s /\ free_map s' = free_map s /\
  if r then names !! nm = None /\ ok None s' (<[k := (n, len)]> N) (<[nm := k]> names) []
  else ok None s' N names [] /\ (is_Some (names !! nm) \/ (16 <= size names)%nat).

Lemma dir_add_step s N names d j nm k n len : ok None s N names [] -> handle (heap s) d = Some (true, ROOT_DIR_SECTOR, j) -> valid_name nm ->
  new_node s N k n len -> len + 511 < 2 ^ 31 -> wp (dir_add cur d nm k) (link_post s N names nm k n len) s.
Proof.
  intros Hok Hd Hnm [Nd Nz Nx Ns Na Nf Nu] Hlen. destruct (root_file _ _ _ _ _ _ _ Hok Hd) as (p&i&Hh&Hp&_&Hst&Hl&_&Hf).
  pose proof (good_range s k (b_good _ _ _ (s_busy _ _ _ _ _ Hok)) ltac:(rewrite Nd; eauto)) as Hk.
  eapply wp_mono; [apply (dir_add_ok cur s d j p i); [apply Hok|by eapply ok_null|done|done|by rewrite root_length|done|done]|].
  pose proof (names_find _ _ _ _ _ nm Hok) as Hn. pose proof (s_inv _ _ _ _ _ Hok) as Hi. pose proof Hi as [_ Nds _ R _].
  intros [] s' [Hb Hr].
  - destruct Hr as (j'&old&e&m'&Hnone&Hfree&He&Hne&Hes&V&Hc&Hfr). rewrite Hst, Hl in Hc, Hfr. pose proof V as [= Eh _ Em Ed Ef].
    split_and!; try done.
    + intros k' st l Hk' _ Hk1. rewrite Ed. eapply frame_contents; [exact Hfr|]. intros x Hx Hx'.
      assert (owns N ROOT_DIR_SECTOR x) as Ho by (eapply owns_data; [apply R|done]).
      apply lookup_insert_Some in Hk' as [[-> [= -> ->]]|[_ Hk']]; [by eapply (Nf x ROOT_DIR_SECTOR); [right|]|].
      apply Hk1. eapply (n_disj _ _ Nds); [by eapply owns_data|done].
    + by rewrite Hn, Hnone.
    + split; [done| |rewrite Eh; apply Hok]. rewrite V. eapply (inv_link (view s)); try done.
      * destruct (N !! k) as [[]|] eqn:E; [|done]. destruct (Nf k k ltac:(by left)). by eapply owns_self.
      * rewrite <- Ed. apply good_sized, Hb.
  - destruct Hr as [V Hr]. pose proof V as [= Eh _ Em Ed Ef]. split_and!; [done|rewrite Ed; intros ??????; done|done|done| |].
    + split; [done|rewrite V; apply Hok|rewrite Eh; apply Hok].
    + destruct Hr as [Hr|Hr]; [left|right; by eapply full_names]. rewrite Hn. destruct (list_find _ _); [by eexists|done].
Qed.

(** There is no room for a file of [len] bytes. *)
Definition no_room (b : Bitmap.bitmap) len : Prop :=
  no_run b 1 \/ exists k b', allocated b 1 (Some k) b' /\ no_run b' (nsec len).

Definition create_end s N names nm len (r : bool) s' : Prop :=
  exists N' names', ok None s' N' names' [] /\ keeps (heap s) (heap s') /\ same_files N (disk s) (disk s') /\
  free_map_file s' = free_map_file s /\ (size (heap s') <= size (heap s) + 2)%nat /\
  if r then names !! nm = None /\ exists k n, N !! k = None /\ N' = <[k := (n, len)]> N /\ names' = <[nm := k]> names /\
    contents (disk s') n len = replicate (Z.to_nat len) 0
  else N' = N /\ names' = names /\ (is_Some (names !! nm) \/ (16 <= size names)%nat \/ no_room (free_map s) len).

(** What is left once an attempt has failed: the inode's sector goes back. *)
Lemma create_fail s s1 s2 N names nm len d k : ok None s N names [] -> handle (heap s) d = None -> new_post 2 None s N names [] (true, ROOT_DIR_SECTOR, 0) d s1 ->
  kept None s1 N names [] s2 -> (k = 0 \/ 0 <= k < Bitmap.bit_cnt (free_map s2) /\ Bitmap.bit (free_map s2) k = true /\ forall k', ~ owns N k' k) ->
  (is_Some (names !! nm) \/ (16 <= size names)%nat \/ no_room (free_map s) len) ->
  wp (do! (if negb false && negb (k =? 0) then free_map_release cur k 1 else ret tt) in
      do! dir_close cur d in
      ret false) (create_end s N names nm len) s2.
Proof.
  intros Hok Hd0 (Hdn&_&Hok1&Hh1&Hd1&[Ed1 _ Ef1 Hz1]) (Hok2&Eh2&Hsf2&Ef2) Hk Hwhy. apply wp_bind.
  apply (wp_mono _ (fun _ s3 => kept None s2 N names [] s3)).
  { destruct (Z.eqb_spec k 0) as [->|Hk0]; cbn [negb andb].
    - apply wp_ret. split_and!; [done|done|intros ??????; done|done].
    - destruct Hk as [?|(?&?&?)]; [done|]. by apply release_step. }
  intros [] s3 (Hok3&Eh3&Hsf3&Ef3). apply wp_bind. eapply wp_mono; [eapply dir_close_step; [done|by rewrite Eh3, Eh2]|].
  intros [] s4 (Hok4&Hh4&Hd4&_&Hsf4&Ef4&Hz4). apply wp_ret. exists N, names. split_and!; try done.
  - intros f. destruct (decide (f = d)) as [->|]; [congruence|]. by rewrite Hh4, Eh3, Eh2, Hh1.
  - rewrite <- Ed1. eapply same_files_trans; [done|]. by eapply same_files_trans.
  - congruence.
  - rewrite Eh3, Eh2 in Hz4. lia.
Qed.

Lemma filesys_create_step s N names nm len : ok None s N names [] -> valid_name nm -> 0 <= len -> len + 511 < 2 ^ 31 ->
  Z.of_nat (size (heap s)) + 8 < 2 ^ 30 -> wp (filesys_create cur nm len) (create_end s N names nm len) s.
Proof.
  intros Hok Hnm Hl0 Hl Hsm. unfold filesys_create. apply wp_bind. eapply wp_mono; [apply dir_open_root_step; [done|simpl; lia]|].
  intros d s1 Hnew. pose proof Hnew as (Hd&Hd0&Hok1&Hh1&Hd1&[Ed1 Em1 Ef1 Hz1]). rewrite (proj2 (Z.eqb_neq _ _) Hd). apply wp_bind, wp_bind.
  eapply wp_mono; [apply (allocate_step None s1 N names [] 1 Hok1); lia|]. rewrite Em1. intros r s2 [Hk2 Ha].
  pose proof Hk2 as (Hok2&Eh2&Hsf2&Ef2). destruct r as [k|].
  2: { apply wp_ret. eapply create_fail; try done; [by left|]. do 2 right. left. destruct Ha as (_&_&_&Hr). by apply Hr. }
  pose proof Ha as (Hk0&Hk1&Hgr&(_&Hc&Hbit)).
  assert (0 <= k < Bitmap.bit_cnt (free_map s2)) as Hk by lia.
  assert (Bitmap.bit (free_map s2) k = true) as Hbk by (rewrite Hbit by done; by rewrite (proj2 (Z.leb_le _ _)), (proj2 (Z.ltb_lt _ _)) by lia).
  assert (forall k', ~ owns N k' k) as Hno by (intros k' Ho; pose proof (ok_used _ _ _ _ _ _ _ Hok Ho) as Hu; rewrite (Hgr k) in Hu; [done|lia]).
  apply wp_bind. eapply wp_mono; [by apply inode_create_step|]. intros ok2 s3 [Hk3 Hr3]. pose proof Hk3 as (Hok3&Eh3&Hsf3&Ef3).
  assert (kept None s1 N names [] s3) as Hk13 by (split_and!; [done|congruence|by eapply same_files_trans|congruence]).
  destruct ok2.
  - destruct Hr3 as (n&Hnn&Ha3). apply wp_bind. eapply wp_mono; [eapply dir_add_step; [done|by rewrite Eh3, Eh2|done..]|].
    intros ok4 s4 (Eh4&Hsf4&Ef4&Em4&Hr4). assert (N !! k = None) as Hnk.
    { destruct (N !! k) as [[]|] eqn:E; [|done]. destruct (Hno k). by eapply owns_self. }
    assert (same_files N (disk s3) (disk s4)) as Hsf4'.
    { intros k' st l Hk'. apply Hsf4. rewrite lookup_insert_ne; [done|]. intros <-. congruence. }
    apply wp_ret. destruct ok4.
    + destruct Hr4 as [Hn Hok4]. cbn [negb andb]. apply wp_bind, wp_ret, wp_bind.
      eapply wp_mono; [eapply dir_close_step; [done|by rewrite Eh4, Eh3, Eh2]|]. intros [] s5 (Hok5&Hh5&Hd5&_&Hsf5&Ef5&Hz5). apply wp_ret.
      eexists _, _. split_and!; [done|..].
      * intros f. destruct (decide (f = d)) as [->|]; [congruence|]. by rewrite Hh5, Eh4, Eh3, Eh2, Hh1.
      * rewrite <- Ed1. eapply same_files_trans; [apply Hk13|]. eapply same_files_trans; [exact Hsf4'|].
        intros k' st l Hk'. apply Hsf5. rewrite lookup_insert_ne; [done|]. intros <-. congruence.
      * congruence.
      * rewrite Eh4, Eh3, Eh2 in Hz5. lia.
      * done.
      * exists k, n. split_and!; try done. destruct (s_inv _ _ _ _ _ Hok) as [_ _ _ R M].
        assert (k <> FREE_MAP_SECTOR) by (intros ->; pose proof (m_node _ _ _ M); congruence).
        assert (k <> ROOT_DIR_SECTOR) by (intros ->; pose proof (r_node _ _ _ _ R); congruence).
        rewrite (Hsf5 k), (Hsf4 k); (apply Hnn || by rewrite lookup_insert_eq || done).
    + destruct Hr4 as [Hok4 Hwhy]. destruct Hnn as [_ _ _ _ _ Hnf Hnu].
      eapply create_fail; try done; [| |tauto].
      * split_and!; [done|congruence|eapply same_files_trans; [apply Hk13|done]|destruct Hk13; congruence].
      * right. rewrite Em4. destruct Ha3 as (_&_&_&(_&Hc3&_)). split_and!; [lia|lia|apply Hnu; by left|done].
  - destruct Hr3 as [Em3 Hnr]. apply wp_bind, wp_ret, wp_ret. eapply create_fail; try done.
    + right. rewrite Em3. done.
    + do 2 right. right. exists k, (free_map s2). done.
Qed.
End steps.
End FsSteps.
