(* ===== verification/FsRefine.v ===== *)
(** * The file system refines an abstract one

    The abstract file system: names for file numbers, the contents of the
    files, and open files with their positions.  A file lives while it has a
    name or is open.  [spec] says what each operation may answer and do;
    [filesys_refines] shows that the operations of filesys.c and file.c do
    what [spec] says. *)

From S2P Require Import Prelude.
From S2P Require Import Mem.
From S2P Require Import Words.
From S2P Require Import Bitmap.
From S2P Require Import Device.
From S2P Require Import Fs.
From S2P Require Import FsInode.
From S2P Require Import FsMap.
From S2P Require Import Directory.
From S2P Require Import FsDir.
From S2P Require Import FsCore.
From S2P Require Import FsOps.
From S2P Require Import FsInv.
From S2P Require Import FsSteps.
Local Open Scope Z_scope.

Module FsRefine.
Import Mem Words Fs FsInode FsMap FsDir FsCore FsOps FsInv FsSteps Directory.

(** ** The abstract file system *)

Record afs := Afs {
  a_names : gmap (list Z) Z;
  a_files : gmap Z (list Z);
  a_open : gmap ptr (Z * Z) }.

Inductive request :=
  | Create (nm : list Z) (len : Z)
  | Open (nm : list Z)
  | Remove (nm : list Z)
  | Close (f : ptr)
  | Read (f : ptr) (n : Z)
  | Write (f : ptr) (bs : list Z)
  | Seek (f : ptr) (n : Z)
  | Tell (f : ptr)
  | Length (f : ptr).

Inductive response :=
  | RBool (b : bool)
  | RPtr (p : ptr)
  | RUnit
  | RInt (n : Z)
  | RBytes (bs : list Z).

(** The files that have a name or are open. *)
Definition live (names : gmap (list Z) Z) (opn : gmap ptr (Z * Z)) (k : Z) : Prop :=
  (exists nm, names !! nm = Some k) \/ (exists f n, opn !! f = Some (k, n)).

(** [room len]: the disk has room for a file of [len] bytes. *)
Inductive spec (room : Z -> Prop) (a : afs) : request -> response -> afs -> Prop :=
  | SCreate nm len k : a_names a !! nm = None -> a_files a !! k = None ->
      spec room a (Create nm len) (RBool true) (Afs (<[nm := k]> (a_names a)) (<[k := replicate (Z.to_nat len) 0]> (a_files a)) (a_open a))
  | SNotCreate nm len : is_Some (a_names a !! nm) \/ (16 <= size (a_names a))%nat \/ ~ room len ->
      spec room a (Create nm len) (RBool false) a
  | SOpen nm k f : a_names a !! nm = Some k -> f <> NULL -> a_open a !! f = None ->
      spec room a (Open nm) (RPtr f) (Afs (a_names a) (a_files a) (<[f := (k, 0)]> (a_open a)))
  | SNotOpen nm : a_names a !! nm = None -> spec room a (Open nm) (RPtr NULL) a
  | SRemove nm k files : a_names a !! nm = Some k ->
      (live (delete nm (a_names a)) (a_open a) k -> files = a_files a) ->
      (~ live (delete nm (a_names a)) (a_open a) k -> files = delete k (a_files a)) ->
      spec room a (Remove nm) (RBool true) (Afs (delete nm (a_names a)) files (a_open a))
  | SNotRemove nm : a_names a !! nm = None -> spec room a (Remove nm) (RBool false) a
  | SClose f k n files : a_open a !! f = Some (k, n) ->
      (live (a_names a) (delete f (a_open a)) k -> files = a_files a) ->
      (~ live (a_names a) (delete f (a_open a)) k -> files = delete k (a_files a)) ->
      spec room a (Close f) RUnit (Afs (a_names a) files (delete f (a_open a)))
  | SRead f n k p bs : a_open a !! f = Some (k, p) -> a_files a !! k = Some bs ->
      let r := take (Z.to_nat n) (drop (Z.to_nat p) bs) in
      spec room a (Read f n) (RBytes r) (Afs (a_names a) (a_files a) (<[f := (k, p + zlen r)]> (a_open a)))
  | SWrite f new k p bs : a_open a !! f = Some (k, p) -> a_files a !! k = Some bs ->
      let r := take (length bs - Z.to_nat p) new in
      spec room a (Write f new) (RInt (zlen r))
        (Afs (a_names a) (<[k := splice bs (Z.to_nat p) r]> (a_files a)) (<[f := (k, p + zlen r)]> (a_open a)))
  | SSeek f n k p : a_open a !! f = Some (k, p) ->
      spec room a (Seek f n) RUnit (Afs (a_names a) (a_files a) (<[f := (k, n)]> (a_open a)))
  | STell f k p : a_open a !! f = Some (k, p) -> spec room a (Tell f) (RInt p) a
  | SLength f k p bs : a_open a !! f = Some (k, p) -> a_files a !! k = Some bs -> spec room a (Length f) (RInt (zlen bs)) a.

(** What a client has to respect. *)
Definition legal (a : afs) (q : request) : Prop :=
  match q with
  | Create nm len => valid_name nm /\ 0 <= len /\ len + 511 < 2 ^ 31
  | Open nm | Remove nm => string_ok nm
  | Close f | Tell f | Length f => is_Some (a_open a !! f)
  | Read f n => is_Some (a_open a !! f) /\ 0 <= n < 2 ^ 31
  | Write f bs => is_Some (a_open a !! f) /\ Forall (in_u 8) bs /\ zlen bs < 2 ^ 31
  | Seek f n => is_Some (a_open a !! f) /\ 0 <= n < 2 ^ 31
  end.

Section refine.
Context {dev : Type} `{!Device.Device dev} `{!Device.Allocator} {Hroom : Device.Roomy} (cur : Z).
Implicit Types (s : state dev) (a : afs) (f : ptr).

(** The operations of the code; a read is into a buffer of its size. *)
Definition run (q : request) : M (state dev) response :=
  match q with
  | Create nm len => let! b := filesys_create cur nm len in ret (RBool b)
  | Open nm => let! f := filesys_open cur nm in ret (RPtr f)
  | Remove nm => let! b := filesys_remove cur nm in ret (RBool b)
  | Close f => do! file_close cur f in ret RUnit
  | Read f n => let! (k, buf) := file_read f (replicate (Z.to_nat n) 0) n in ret (RBytes (take (Z.to_nat k) buf))
  | Write f bs => let! k := file_write f bs (zlen bs) in ret (RInt k)
  | Seek f n => do! file_seek f n in ret RUnit
  | Tell f => let! n := file_tell f in ret (RInt n)
  | Length f => let! n := file_length f in ret (RInt n)
  end.

(** ** The abstraction *)

Definition user_file (k : Z) : Prop := k <> FREE_MAP_SECTOR /\ k <> ROOT_DIR_SECTOR.
#[local] Instance user_file_dec k : Decision (user_file k).
Proof. unfold user_file. apply _. Defined.

Record related (N : nodes) s a : Prop := Related {
  rl_files k : a_files a !! k = if decide (user_file k) then (fun x : Z * Z => contents (disk s) x.1 x.2) <$> N !! k else None;
  rl_open f : a_open a !! f = if decide (f = free_map_file s) then None else
    match handle (heap s) f with Some (false, k, n) => Some (k, n) | _ => None end;
  rl_user f k n : a_open a !! f = Some (k, n) -> user_file k;
  rl_dirs f k n : handle (heap s) f = Some (true, k, n) -> k = ROOT_DIR_SECTOR }.

Definition abs s a : Prop := exists rst mst N, ok rst mst None s N (a_names a) [] /\ related N s a.

Definition room s (len : Z) : Prop := ~ no_room (free_map s) len.

Section facts.
Context rst mst s a N (Hok : ok rst mst None s N (a_names a) []) (Hrel : related N s a).

Lemma open_handle f k n : a_open a !! f = Some (k, n) ->
  f <> free_map_file s /\ handle (heap s) f = Some (false, k, n) /\ user_file k.
Proof.
  intros Hf. pose proof (rl_user _ _ _ Hrel f k n Hf). rewrite (rl_open _ _ _ Hrel) in Hf. case_decide; [done|].
  destruct (handle (heap s) f) as [[[[] ?] ?]|]; [done| |done]. injection Hf as -> ->. done.
Qed.

(** A handle on a user's file is an open file. *)
Lemma handle_open f b k n : handle (heap s) f = Some (b, k, n) -> user_file k -> a_open a !! f = Some (k, n).
Proof.
  intros Hf [Hk0 Hk1]. destruct b; [by apply (rl_dirs _ _ _ Hrel) in Hf|]. rewrite (rl_open _ _ _ Hrel), Hf, decide_False; [done|].
  intros ->. destruct (s_inv _ _ _ _ _ _ _ Hok) as [_ _ _ _ [_ (p&j&i&Hm&Hp&Hs) _]]. cbn in Hm, Hp.
  apply handle_inv in Hf as (p'&i'&Hf&Hp'&Hs'). rewrite Hm in Hf. injection Hf as <- <-. rewrite Hp in Hp'. injection Hp' as <-. congruence.
Qed.

Lemma named_file nm k : a_names a !! nm = Some k -> user_file k /\ is_Some (N !! k).
Proof. intros Hk. destruct (s_inv _ _ _ _ _ _ _ Hok) as [_ _ _ R _]. destruct (r_linked _ _ _ _ R nm k Hk) as (?&?&?). done. Qed.

(** Two names do not share a file. *)
Lemma names_inj nm nm' k : a_names a !! nm = Some k -> a_names a !! nm' = Some k -> nm' = nm.
Proof.
  destruct (s_inv _ _ _ _ _ _ _ Hok) as [_ _ _ R _]. intros (j&e&Hj&[Hu Hn]&Hs)%(r_names _ _ _ _ R) (j'&e'&Hj'&[Hu' Hn']&Hs')%(r_names _ _ _ _ R).
  assert (j = j') as <- by (eapply (r_uniq _ _ _ _ R); [done..|right; congruence]). rewrite Hj in Hj'. congruence.
Qed.

Lemma files_kept N' s' k : same_files N' (disk s) (disk s') -> user_file k -> N' !! k = N !! k ->
  a_files a !! k = (fun x : Z * Z => contents (disk s') x.1 x.2) <$> N' !! k.
Proof.
  intros Hs Hu E. rewrite (rl_files _ _ _ Hrel), decide_True by done. rewrite <- E. destruct (N' !! k) as [[st len]|] eqn:Ek; [|done].
  cbn. f_equal. symmetry. by eapply Hs; [|apply Hu..].
Qed.

(** Nothing but the disk's free sectors, its map and its directory changed. *)
Lemma related_same s' : keeps (heap s) (heap s') -> free_map_file s' = free_map_file s -> same_files N (disk s) (disk s') -> related N s' a.
Proof.
  intros Hk Hf Hs. split.
  - intros k. case_decide; [by apply files_kept|]. by rewrite (rl_files _ _ _ Hrel), decide_False.
  - intros f. by rewrite Hf, Hk, (rl_open _ _ _ Hrel).
  - apply Hrel.
  - intros f k n. rewrite Hk. apply Hrel.
Qed.

Lemma related_files N' s' a' k0 : (forall f, a_open a' !! f <> None -> a_open a' !! f = a_open a !! f) ->
  (forall f, a_open a' !! f = if decide (f = free_map_file s') then None else
    match handle (heap s') f with Some (false, k, n) => Some (k, n) | _ => None end) ->
  (forall f k n, handle (heap s') f = Some (true, k, n) -> k = ROOT_DIR_SECTOR) ->
  same_files N' (disk s) (disk s') -> (N' = N /\ a_files a' = a_files a) \/ (N' = delete k0 N /\ a_files a' = delete k0 (a_files a)) -> related N' s' a'.
Proof.
  intros Hopen Ho Hd Hs HN. split; [|done| |done].
  - intros k. destruct HN as [[-> ->]|[-> ->]].
    + case_decide; [by apply files_kept|]. by rewrite (rl_files _ _ _ Hrel), decide_False.
    + destruct (decide (k = k0)) as [->|Hne]; [rewrite !lookup_delete_eq; by case_decide|]. rewrite lookup_delete_ne by done.
      case_decide; [apply files_kept; [done..|by rewrite lookup_delete_ne]|]. by rewrite (rl_files _ _ _ Hrel), decide_False.
  - intros f k n Hf. apply (rl_user _ _ _ Hrel f k n). rewrite <- Hopen; [done|by rewrite Hf].
Qed.

Lemma remove_ok nm : string_ok nm -> Z.of_nat (size (heap s)) + 8 < 2 ^ 30 ->
  wp (run (Remove nm)) (fun r s' => exists a', spec (room s) a (Remove nm) r a' /\ abs s' a') s.
Proof.
  intros Hnm Hsm. cbn [run]. apply wp_bind. eapply wp_mono; [by eapply filesys_remove_step|].
  intros r s' (N'&names'&Hok'&Hk&Hsf&Hf&_&Hr). apply wp_ret. destruct (a_names a !! nm) as [k|] eqn:En.
  - destruct Hr as (->&->&Hc). destruct (named_file nm k En) as [Hu HNk].
    assert (live (delete nm (a_names a)) (a_open a) k <-> exists f b n, handle (heap s) f = Some (b, k, n)) as Hlive.
    { split.
      - intros [[nm' [Hne Hn']%lookup_delete_Some]|(f&n&Hfo)]; [by destruct Hne; eapply names_inj|].
        apply open_handle in Hfo as (_&?&_). eauto.
      - intros (f&b&n&Hh). right. exists f, n. by eapply handle_open. }
    exists (Afs (delete nm (a_names a)) (if decide (N' = N) then a_files a else delete k (a_files a)) (a_open a)). split.
    + apply (SRemove _ _ nm k); [done|..]; intros Hl; rewrite Hlive in Hl; destruct Hc as [[? ->]|[Hno ->]].
      * by rewrite decide_True.
      * destruct Hl as (f&b&n&?). by destruct (Hno f b n).
      * done.
      * rewrite decide_False; [done|]. intros E. destruct HNk as [x Hx]. rewrite <- E, lookup_delete_eq in Hx. done.
    + exists rst, mst, N'. split; [done|]. eapply (related_files N' s' _ k); cbn; [done| | |done|].
      * intros f. rewrite Hk, Hf. apply Hrel.
      * intros f k' n. rewrite Hk. apply Hrel.
      * destruct Hc as [[_ ->]|[_ ->]]; [left; by rewrite decide_True|]. right. split; [done|]. rewrite decide_False; [done|].
        intros E. destruct HNk as [x Hx]. rewrite <- E, lookup_delete_eq in Hx. done.
  - destruct Hr as (->&->&->). exists a. split; [by apply SNotRemove|]. exists rst, mst, N. split; [done|by apply related_same].
Qed.

Lemma create_op_ok nm len : valid_name nm -> 0 <= len -> len + 511 < 2 ^ 31 -> Z.of_nat (size (heap s)) + 8 < 2 ^ 30 ->
  wp (run (Create nm len)) (fun r s' => exists a', spec (room s) a (Create nm len) r a' /\ abs s' a') s.
Proof.
  intros Hnm Hl0 Hl Hsm. cbn [run]. apply wp_bind. eapply wp_mono; [by eapply filesys_create_step|].
  intros r s' (N'&names'&Hok'&Hk&Hsf&Hf&_&Hr). apply wp_ret. destruct r.
  - destruct Hr as (Hn&k&n&HNk&->&->&Hz).
    assert (user_file k) as Hu.
    { destruct (s_inv _ _ _ _ _ _ _ Hok) as [_ _ _ R M]. pose proof (r_node _ _ _ _ R). pose proof (m_node _ _ _ M). split; intros ->; congruence. }
    exists (Afs (<[nm := k]> (a_names a)) (<[k := replicate (Z.to_nat len) 0]> (a_files a)) (a_open a)). split.
    + apply SCreate; [done|]. by rewrite (rl_files _ _ _ Hrel), decide_True, HNk.
    + exists rst, mst, (<[k := (n, len)]> N). split; [done|]. destruct (related_same s' Hk Hf Hsf) as [r1 r2 r3 r4]. split; cbn; try done.
      intros k'. destruct (decide (k' = k)) as [->|Hne]; [by rewrite !lookup_insert_eq, decide_True by done; cbn; rewrite Hz|].
      by rewrite !lookup_insert_ne by done.
  - destruct Hr as (->&->&Hwhy). exists a. split.
    + apply SNotCreate. destruct Hwhy as [?|[?|?]]; [by left|by right; left|]. right. right. unfold room. tauto.
    + exists rst, mst, N. split; [done|by apply related_same].
Qed.

Lemma open_ok nm : string_ok nm -> Z.of_nat (size (heap s)) + 8 < 2 ^ 30 ->
  wp (run (Open nm)) (fun r s' => exists a', spec (room s) a (Open nm) r a' /\ abs s' a') s.
Proof.
  intros Hnm Hsm. cbn [run]. apply wp_bind. eapply wp_mono; [by eapply filesys_open_step|].
  intros f s' ((Hok'&Hsf&Hf&_)&Hh&Hf0&Hr). apply wp_ret. destruct (a_names a !! nm) as [k|] eqn:En.
  - destruct Hr as [Hfn Hf']. destruct (named_file nm k En) as [Hu _].
    assert (f <> free_map_file s) as Hfm.
    { intros ->. destruct (s_inv _ _ _ _ _ _ _ Hok) as [_ _ _ _ [_ (p&j&i&Hm&Hp&_) _]]. cbn in Hm, Hp.
      unfold handle, sector_at in Hf0. by rewrite Hm, Hp in Hf0. }
    exists (Afs (a_names a) (a_files a) (<[f := (k, 0)]> (a_open a))). split.
    + apply SOpen; [done..|]. by rewrite (rl_open _ _ _ Hrel), Hf0, decide_False.
    + exists rst, mst, N. split; [done|]. split; cbn.
      * intros k'. case_decide; [by apply files_kept|]. by rewrite (rl_files _ _ _ Hrel), decide_False.
      * intros g. rewrite Hf. destruct (decide (g = f)) as [->|]; [by rewrite lookup_insert_eq, decide_False, Hf'|].
        rewrite lookup_insert_ne, Hh by done. apply Hrel.
      * intros g k' n [[-> [= <- <-]]|[_ ?]]%lookup_insert_Some; [done|by eapply Hrel].
      * intros g k' n Hg. destruct (decide (g = f)) as [->|]; [congruence|]. rewrite Hh in Hg by done. by eapply Hrel.
  - destruct Hr as [-> Hn0]. exists a. split; [by apply SNotOpen|]. exists rst, mst, N. split; [done|]. apply related_same; [|done..].
    intros g. destruct (decide (g = NULL)) as [->|]; [congruence|by apply Hh].
Qed.

(** The other open files of the inode that [f] has open. *)
Lemma other_refs f k n p i : handle (heap s) f = Some (false, k, n) -> heap s !! f = Some (OFile (File p n)) -> heap s !! p = Some (OInode i) -> user_file k -> sector i = k ->
  (open_cnt i = 1 <-> forall g j, delete f (a_open a) !! g <> Some (k, j)).
Proof.
  intros Hf Hfo Hp Hu Hs. destruct (s_inv _ _ _ _ _ _ _ Hok) as [_ _ Hh _ _]. pose proof (h_count _ _ _ Hh p i Hp) as [Hc _].
  change (held [] p) with 0 in Hc. pose proof (refs_delete (heap s) f _ p Hfo) as Hd. unfold to in Hd. rewrite decide_True in Hd by done.
  change (c_heap (view s)) with (heap s) in Hc. split.
  - intros E g j [Hne Hg]%lookup_delete_Some. apply open_handle in Hg as (_&(p'&i'&Hg&Hp'&Hs')%handle_inv&_).
    assert (p' = p) as -> by (eapply (h_unique _ _ _ Hh); [done|done|congruence]).
    assert (refs (delete f (heap s)) p = 0) as E0 by lia. eapply (refs_zero _ _ E0 g); [by rewrite lookup_delete_ne|done].
  - intros Hno. destruct (decide (refs (delete f (heap s)) p = 0)) as [|(g&o&[Hne Hg]%lookup_delete_Some&Ho)%refs_some]; [lia|].
    exfalso. destruct o as [|[q j]|[q j]]; cbn in Ho; [done| |]; injection Ho as ->;
      (apply (Hno g j); rewrite lookup_delete_ne by done; eapply handle_open; [|done]; unfold handle, sector_at; by rewrite Hg, Hp, Hs).
Qed.

Lemma close_ok f : is_Some (a_open a !! f) ->
  wp (run (Close f)) (fun r s' => exists a', spec (room s) a (Close f) r a' /\ abs s' a') s.
Proof.
  intros [[k n] Hf]. destruct (open_handle f k n Hf) as (Hfm&Hh&Hu). pose proof Hh as (p&i&Hfo&Hp&Hs)%handle_inv. cbn [run].
  unfold file_close. rewrite (proj2 (Z.eqb_neq _ _) (ok_null _ _ _ _ _ _ _ Hok _ _ Hfo)). apply wp_bind, wp_bind. eapply wp_file_at; [done|]. cbn [f_inode].
  eapply wp_mono; [by eapply (obj_close_step cur rst mst None s N (a_names a) [] f)|].
  intros _ s' [(Hok'&Hk&_&Hsf&Hmf&_) Hn]. apply wp_ret. pose proof (other_refs f k n p i Hh Hfo Hp Hu Hs) as Hlast.
  destruct (s_inv _ _ _ _ _ _ _ Hok) as [_ _ _ R _]. pose proof (r_removed _ _ _ _ R p i Hp) as Hrm. rewrite Hs in Hrm.
  assert ((open_cnt i =? 1) && removed i = true <-> ~ live (a_names a) (delete f (a_open a)) k) as Hlive.
  { rewrite andb_true_iff, Z.eqb_eq, Hlast, Hrm. unfold live. destruct Hu. split; [intros [Ho (_&_&Hno)] [[nm E]|(g&j&E)]; [by apply (Hno nm)|by apply (Ho g j)]|].
    intros Hl. split; [intros g j E; apply Hl; right; eauto|split_and!; [done..|intros nm E; apply Hl; left; eauto]]. }
  assert (Hend : forall N' files, same_files N' (disk s) (disk s') -> (N' = N /\ files = a_files a) \/ (N' = delete k N /\ files = delete k (a_files a)) ->
    related N' s' (Afs (a_names a) files (delete f (a_open a)))).
  { intros N' files HsN HN. eapply (related_files N' s' _ k); cbn; [| | |done|done].
    - intros g Hg. destruct (decide (g = f)) as [->|]; [by rewrite lookup_delete_eq in Hg|by rewrite lookup_delete_ne].
    - intros g. rewrite Hmf. destruct (decide (g = f)) as [->|]; [by rewrite lookup_delete_eq, Hn; case_decide|].
      rewrite lookup_delete_ne, Hk by congruence. apply Hrel.
    - intros g k' j Hg. destruct (decide (g = f)) as [->|]; [congruence|]. rewrite Hk in Hg by congruence. by eapply Hrel. }
  unfold dropped in Hok'. rewrite Hs in Hok'. destruct ((open_cnt i =? 1) && removed i) eqn:Eb.
  - exists (Afs (a_names a) (delete k (a_files a)) (delete f (a_open a))). split.
    + apply (SClose _ _ f k n); [done| |done]. intros Hl. by destruct (proj1 Hlive eq_refl).
    + exists rst, mst, (delete k N). split; [done|]. apply Hend; [by apply same_files_delete|by right].
  - exists (Afs (a_names a) (a_files a) (delete f (a_open a))). split.
    + apply (SClose _ _ f k n); [done|done|]. intros Hl%Hlive. done.
    + exists rst, mst, N. split; [done|]. apply Hend; [done|by left].
Qed.

Definition moved f (x : Z * Z) : afs := Afs (a_names a) (a_files a) (<[f := x]> (a_open a)).

(** Storing a position in an open file. *)
Lemma move_ok f k n p n' : a_open a !! f = Some (k, n) -> heap s !! f = Some (OFile (File p n)) -> 0 <= n' < 2 ^ 31 ->
  let s' := set_heap (<[f := OFile (File p n')]> (heap s)) s in
  ok rst mst None s' N (a_names a) [] /\ related N s' (moved f (k, n')).
Proof.
  intros Hf Hfo Hn s'. destruct (open_handle f k n Hf) as (Hfm&Hh&Hu). pose proof (s_small _ _ _ _ _ _ _ Hok) as Hsm.
  assert (forall q, sector_at (heap s') q = sector_at (heap s) q) as Hsec.
  { intros q. unfold sector_at. cbn. destruct (decide (q = f)) as [->|]; [by rewrite lookup_insert_eq, Hfo|by rewrite lookup_insert_ne]. }
  assert (forall g, g <> f -> handle (heap s') g = handle (heap s) g) as Hg.
  { intros g Hg. apply handle_ext; [|intros; apply Hsec]. intros o _. cbn. by rewrite lookup_insert_ne. }
  assert (handle (heap s') f = Some (false, k, n')) as Hf'.
  { unfold handle in *. rewrite Hfo in Hh. cbn. rewrite lookup_insert_eq. fold (heap s'). change (<[f:=_]> (heap s)) with (heap s').
    rewrite Hsec. destruct (sector_at (heap s) p); [|done]. cbn in *. congruence. }
  split.
  - split; [by apply busy_heap, Hok| |cbn; by rewrite map_size_insert_Some].
    exact (inv_position (view s) N (a_names a) rst mst [] f p n n' (s_inv _ _ _ _ _ _ _ Hok) Hfo Hn).
  - split; cbn.
    + apply Hrel.
    + intros g. fold (heap s'). destruct (decide (g = f)) as [->|]; [|rewrite lookup_insert_ne by done].
      * rewrite lookup_insert_eq, decide_False by done. change (<[f:=_]> (heap s)) with (heap s'). by rewrite Hf'.
      * change (<[f:=_]> (heap s)) with (heap s'). rewrite Hg by done. apply Hrel.
    + intros g k' j [[-> [= <- <-]]|[_ ?]]%lookup_insert_Some; [done|by eapply Hrel].
    + intros g k' j. change (<[f:=_]> (heap s)) with (heap s'). intros Hd. destruct (decide (g = f)) as [->|]; [congruence|].
      rewrite Hg in Hd by done. by eapply Hrel.
Qed.

(** An open file and what it has open. *)
Lemma open_file f k n : a_open a !! f = Some (k, n) -> exists p i bs,
  heap s !! f = Some (OFile (File p n)) /\ f <> NULL /\ heap s !! p = Some (OInode i) /\ p <> NULL /\ idle i /\ user_file k /\ sector i = k /\
  extent (disk s) (data_start i) (data_length i) /\ N !! k = Some (data_start i, data_length i) /\ 0 <= n < 2 ^ 31 /\
  a_files a !! k = Some bs /\ bs = contents (disk s) (data_start i) (data_length i) /\ zlen bs = data_length i.
Proof.
  intros Hf. destruct (open_handle f k n Hf) as (_&(p&i&Hfo&Hp&Hs)%handle_inv&Hu). pose proof (ok_node _ _ _ _ _ _ _ Hok p i Hp) as Hn.
  rewrite Hs in Hn. destruct (ok_extent _ _ _ _ _ _ _ Hok p i Hp) as [Hx _]. eexists p, i, _. split_and!; try done.
  - by eapply ok_null.
  - by eapply ok_null.
  - by eapply ok_idle.
  - apply (h_pos _ _ _ (i_heap _ _ _ _ _ _ (s_inv _ _ _ _ _ _ _ Hok)) f (File p n)). by left.
  - apply (h_pos _ _ _ (i_heap _ _ _ _ _ _ (s_inv _ _ _ _ _ _ _ Hok)) f (File p n)). by left.
  - by rewrite (rl_files _ _ _ Hrel), decide_True, Hn.
  - unfold contents. rewrite bytes_length. destruct Hx. lia.
Qed.

Lemma seek_ok f n : is_Some (a_open a !! f) -> 0 <= n < 2 ^ 31 ->
  wp (run (Seek f n)) (fun r s' => exists a', spec (room s) a (Seek f n) r a' /\ abs s' a') s.
Proof.
  intros [[k j] Hf] Hn. destruct (open_file f k j Hf) as (p&i&bs&Hfo&Hfn&_). cbn [run]. unfold file_seek. apply wp_bind, wp_bind, wp_assert.
  split; [by rewrite (proj2 (Z.eqb_neq _ _) Hfn)|]. apply wp_bind, wp_assert. split; [apply Z.leb_le; lia|]. apply wp_bind. eapply wp_file_at; [done|].
  apply wp_modify, wp_ret. exists (moved f (k, n)). split; [by apply (SSeek _ _ f n k j)|]. destruct (move_ok f k j p n); try done.
  by exists rst, mst, N.
Qed.

Lemma tell_ok f : is_Some (a_open a !! f) ->
  wp (run (Tell f)) (fun r s' => exists a', spec (room s) a (Tell f) r a' /\ abs s' a') s.
Proof.
  intros [[k j] Hf]. destruct (open_file f k j Hf) as (p&i&bs&Hfo&Hfn&_). cbn [run]. unfold file_tell. apply wp_bind, wp_bind, wp_assert.
  split; [by rewrite (proj2 (Z.eqb_neq _ _) Hfn)|]. apply wp_bind. eapply wp_file_at; [done|]. apply wp_ret, wp_ret. cbn [pos].
  exists a. split; [by apply (STell _ _ f k j)|]. by exists rst, mst, N.
Qed.

Lemma length_ok f : is_Some (a_open a !! f) ->
  wp (run (Length f)) (fun r s' => exists a', spec (room s) a (Length f) r a' /\ abs s' a') s.
Proof.
  intros [[k j] Hf]. destruct (open_file f k j Hf) as (p&i&bs&Hfo&Hfn&Hp&_&_&_&_&_&_&_&Hfile&_&Hlen). cbn [run]. unfold file_length, inode_length.
  apply wp_bind, wp_bind, wp_assert. split; [by rewrite (proj2 (Z.eqb_neq _ _) Hfn)|]. apply wp_bind. eapply wp_file_at; [done|].
  apply wp_bind. eapply wp_inode_at; [done|]. apply wp_ret, wp_ret. rewrite <- Hlen.
  exists a. split; [by apply (SLength _ _ f k j)|]. by exists rst, mst, N.
Qed.

(** Overwriting data of one file. *)
Lemma data_write s' m' k st len : stores s m' s' -> N !! k = Some (st, len) -> user_file k -> frame (in_extent st len) (disk s) m' ->
  ok rst mst None s' N (a_names a) [] /\
  forall k' st' len', k' <> k -> N !! k' = Some (st', len') -> contents m' st' len' = contents (disk s) st' len'.
Proof.
  intros Hs Hk [Hk0 Hk1] Hfr. pose proof (s_inv _ _ _ _ _ _ _ Hok) as Hi. pose proof Hi as [D Nd _ R M].
  assert (Hother : forall k' st' len', k' <> k -> N !! k' = Some (st', len') -> contents m' st' len' = contents (disk s) st' len').
  { intros k' st' len' Hne Hk'. eapply frame_contents; [done|]. intros x Hx Hx'. apply Hne. eapply (n_disj _ _ Nd _ _ x); by eapply owns_data. }
  split; [|done]. pose proof (stores_view _ _ _ Hs) as V. pose proof (stores_heap _ _ _ Hs) as Eh.
  split; [by eapply stores_busy, Hok| |rewrite Eh; apply Hok]. rewrite V.
  change (put_disk m' (view s)) with (put_disk m' (put_map (free_map s) (view s))). apply inv_store; try done.
  - rewrite <- (st_disk _ _ _ Hs). apply good_sized, Hs.
  - apply Hfr.
  - apply D.
  - intros k' [[st' len'] Hk']. apply Hfr. intros Hx. assert (k' = k) as -> by (eapply (n_disj _ _ Nd _ _ k'); [by eapply owns_self|by eapply owns_data]).
    exact (n_apart _ _ Nd k st len Hk Hx).
  - by apply (Hother ROOT_DIR_SECTOR), R.
  - rewrite (Hother FREE_MAP_SECTOR) by (done || apply M). apply M.
  - apply Nd.
Qed.

Lemma related_stores s' : stores s (disk s) s' -> related N s' a.
Proof.
  intros Hs. pose proof (stores_heap _ _ _ Hs) as Eh. destruct Hrel as [r1 r2 r3 r4].
  assert (free_map_file s' = free_map_file s) as Ef by (by rewrite (st_eq _ _ _ Hs)).
  split; [intros k; rewrite (st_disk _ _ _ Hs); apply r1|intros f; rewrite Eh, Ef; apply r2|done|intros f; rewrite Eh; apply r4].
Qed.
End facts.

Section io.
Context rst mst s a N (Hok : ok rst mst None s N (a_names a) []) (Hrel : related N s a).

(** Reading into any buffer. *)
Lemma file_read_ok f n buf : is_Some (a_open a !! f) -> 0 <= n < 2 ^ 31 -> zlen buf = n ->
  wp (file_read f buf n) (fun r s' => exists bs a', spec (room s) a (Read f n) (RBytes bs) a' /\ abs s' a' /\
    zlen bs <= n /\ r = (zlen bs, splice buf 0 bs)) s.
Proof.
  intros [[k j] Hf] Hn Hbuf. destruct (open_file _ _ _ _ _ Hok Hrel f k j Hf) as (p&i&bs&Hfo&Hfn&Hp&Hpn&Hid&Hu&Hs&Hx&HN&Hj&Hfile&Hbs&Hlen).
  unfold file_read. apply wp_bind. eapply wp_file_at; [done|]. cbn [f_inode pos]. apply wp_bind.
  eapply wp_mono; [apply (inode_read_at_ok s p i); try done; [apply Hok|lia]|].
  intros [c buf'] s1 (c'&Hc&_&Hfull&Hbuf'&Hs1). cbn [fst snd] in *. subst c' buf'. specialize (Hfull Hroom). unfold full in Hfull.
  destruct (ok_stores _ _ _ _ _ _ _ _ Hs1 Hok) as (Hok1&Eh1&_&_). pose proof (related_stores _ _ _ Hrel s1 Hs1) as Hrel1.
  apply wp_bind. eapply wp_file_at; [by rewrite Eh1|]. apply wp_bind, wp_modify, wp_ret. cbn [f_inode pos].
  pose proof (ext_len _ _ _ Hx) as Hl31. rewrite wraps_small by (unfold in_s; lia).
  assert (bytes (disk s) (512 * data_start i + j) c = take (Z.to_nat n) (drop (Z.to_nat j) bs)) as Er.
  { destruct (decide (0 < c)).
    - rewrite (bytes_sub _ _ (data_length i)) by lia. rewrite <- Hbs. unfold sub. destruct (decide (n <= data_length i - j)).
      + by replace c with n by lia.
      + rewrite !take_ge; [done|rewrite length_drop; lia..].
    - rewrite bytes_nil by lia. destruct (decide (n = 0)) as [->|]; [done|]. rewrite drop_ge by lia. by rewrite take_nil. }
  assert (zlen (take (Z.to_nat n) (drop (Z.to_nat j) bs)) = c) as El by (rewrite length_take, length_drop; lia).
  rewrite Er. eexists _, _. split; [by apply (SRead _ _ f n k j bs)|]. rewrite El. split; [|split; [lia|done]].
  destruct (move_ok _ _ _ _ _ Hok1 Hrel1 f k j p (j + c)) as [? ?]; [done|by rewrite Eh1|lia|]. by exists rst, mst, N.
Qed.

Lemma read_op_ok f n : is_Some (a_open a !! f) -> 0 <= n < 2 ^ 31 ->
  wp (run (Read f n)) (fun r s' => exists a', spec (room s) a (Read f n) r a' /\ abs s' a') s.
Proof.
  intros Hf Hn. cbn [run]. apply wp_bind. eapply wp_mono; [apply (file_read_ok f n _ Hf Hn); rewrite length_replicate; lia|].
  intros r s' (bs&a'&Hsp&Habs&Hl&->). apply wp_ret. exists a'. split; [|done]. unfold splice. rewrite take_0, app_nil_l.
  by rewrite take_app_length' by lia.
Qed.

Lemma write_op_ok f new : is_Some (a_open a !! f) -> Forall (in_u 8) new -> zlen new < 2 ^ 31 ->
  wp (run (Write f new)) (fun r s' => exists a', spec (room s) a (Write f new) r a' /\ abs s' a') s.
Proof.
  intros [[k j] Hf] Hnew Hn. destruct (open_file _ _ _ _ _ Hok Hrel f k j Hf) as (p&i&bs&Hfo&Hfn&Hp&Hpn&Hid&Hu&Hs&Hx&HN&Hj&Hfile&Hbs&Hlen).
  cbn [run]. unfold file_write. apply wp_bind, wp_bind. eapply wp_file_at; [done|]. cbn [f_inode pos]. apply wp_bind.
  eapply wp_mono; [apply (inode_write_at_ok s p i); try done; apply Hok|]. intros c s1 (m'&_&Hfull&Hw&Hs1). specialize (Hfull Hroom). unfold full in Hfull.
  pose proof (ext_len _ _ _ Hx) as Hl31. pose proof (stores_heap _ _ _ Hs1) as Eh1.
  assert (frame (in_extent (data_start i) (data_length i)) (disk s) m' /\
    contents m' (data_start i) (data_length i) = splice bs (Z.to_nat j) (take (Z.to_nat c) new)) as [Hfr Hc].
  { destruct (decide (0 < c)) as [Hpos|Hz].
    - destruct (write_contents s s1 m' (data_start i) (data_length i) j c new) as [Hc Hf']; try done; [apply Hok|lia|lia|lia|].
      rewrite (st_disk _ _ _ Hs1) in Hc, Hf'. rewrite <- Hbs in Hc. split; [split; [apply Hw|exact Hf']|done].
    - replace c with 0 in * by lia. change (take (Z.to_nat 0) new) with (@nil Z) in *.
      rewrite (wrote_nothing _ _ _ _ (b_good _ _ _ (s_busy _ _ _ _ _ _ _ Hok)) Hs1 Hw), splice_nil. done. }
  assert (take (length bs - Z.to_nat j) new = take (Z.to_nat c) new) as Er.
  { destruct (decide (zlen new <= data_length i - j)); [rewrite !take_ge by lia; done|]. f_equal. lia. }
  assert (zlen (take (Z.to_nat c) new) = c) as El by (rewrite length_take; lia).
  destruct (data_write _ _ _ _ _ Hok s1 m' k _ _ Hs1 HN Hu Hfr) as [Hok1 Hoth].
  set (a1 := Afs (a_names a) (<[k := splice bs (Z.to_nat j) (take (Z.to_nat c) new)]> (a_files a)) (a_open a)).
  assert (related N s1 a1) as Hrel1.
  { destruct Hrel as [r1 r2 r3 r4]. split; cbn.
    - intros k'. rewrite (st_disk _ _ _ Hs1). destruct (decide (k' = k)) as [->|Hne].
      + rewrite lookup_insert_eq, decide_True by done. rewrite HN. cbn. by rewrite Hc.
      + rewrite lookup_insert_ne, r1 by done. case_decide; [|done]. destruct (N !! k') as [[st' len']|] eqn:E; [|done]. cbn. f_equal. symmetry. by eapply Hoth.
    - intros g. rewrite Eh1. replace (free_map_file s1) with (free_map_file s) by (by rewrite (st_eq _ _ _ Hs1)). apply r2.
    - done.
    - intros g. rewrite Eh1. apply r4. }
  apply wp_bind. eapply wp_file_at; [by rewrite Eh1|]. apply wp_bind, wp_modify, wp_ret, wp_ret. cbn [f_inode pos].
  rewrite wraps_small by (unfold in_s; lia). eexists. split; [rewrite <- El at 1; rewrite <- Er; by apply (SWrite _ _ f new k j bs)|]. rewrite Er, El.
  destruct (move_ok rst mst s1 a1 N Hok1 Hrel1 f k j p (j + c)) as [? ?]; [done|by rewrite Eh1|lia|]. by exists rst, mst, N.
Qed.
End io.

Lemma run_refines s a q : abs s a -> legal a q -> Z.of_nat (size (heap s)) + 8 < 2 ^ 30 ->
  wp (run q) (fun r s' => exists a', spec (room s) a q r a' /\ abs s' a') s.
Proof.
  intros (rst&mst&N&Hok&Hrel) Hq Hsm. destruct q as [nm len|nm|nm|f|f n|f bs|f n|f|f]; cbn in Hq.
  - destruct Hq as (?&?&?). by eapply create_op_ok.
  - by eapply open_ok.
  - by eapply remove_ok.
  - by eapply close_ok.
  - destruct Hq. by eapply read_op_ok.
  - destruct Hq as (?&?&?). by eapply write_op_ok.
  - destruct Hq. by eapply seek_ok.
  - by eapply tell_ok.
  - by eapply length_ok.
Qed.

(** C2. Every operation of the file system refines the abstract file system:
    from a state that represents [a], a legal request runs without an error,
    answers what the specification allows, and leads to a state that
    represents the specified abstract state.  Files are created zeroed, found
    by name, read and written at the position of the handle, and a removed
    file lives until its last handle is closed; creation fails only when the
    name is taken, the directory is full or the disk has no room. *)
Theorem filesys_refines s a q : abs s a -> legal a q -> Z.of_nat (size (heap s)) + 8 < 2 ^ 30 ->
  wp (run q) (fun r s' => exists a', spec (room s) a q r a' /\ abs s' a') s.
Proof. apply run_refines. Qed.
End refine.
End FsRefine.
