(* ===== verification/FsClient.v ===== *)
(** * The file system as its clients see it

    The operations on open files against the abstract file system of
    [FsRefine], in the form in which the system calls and the program loader
    use them. *)

From S2P Require Import Prelude.
From S2P Require Import Mem.
From S2P Require Import Device.
From S2P Require Import Fs.
From S2P Require Import FsInode.
From S2P Require Import FsMap.
From S2P Require Import FsCore.
From S2P Require Import FsSteps.
From S2P Require Import FsRefine.
Local Open Scope Z_scope.

Module FsClient.
Import Mem Fs FsInode FsMap FsCore FsSteps FsRefine.

Section client.
Context {dev : Type} `{!Device.Device dev} `{!Device.Allocator} {Hroom : Device.Roomy} (cur : Z).
Implicit Types (fs : state dev) (a : afs) (f : ptr).

Lemma abs_run q fs a : abs fs a -> legal a q -> Z.of_nat (size (heap fs)) + 8 < 2 ^ 30 ->
  wp (run cur q) (fun r fs' => exists a', spec (room fs) a q r a' /\ abs fs' a') fs.
Proof. apply run_refines. Qed.

Lemma close_one fs a f rm : abs fs a -> is_Some (a_open a !! f) ->
  wp (file_close cur f) (fun _ fs' => exists a', spec rm a (Close f) RUnit a' /\ a_open a' = delete f (a_open a) /\ abs fs' a') fs.
Proof.
  intros (rst&mst&N&Hok&Hrel) Hf. pose proof (close_ok cur _ _ _ _ _ Hok Hrel f Hf) as Hc. cbn [run] in Hc. apply wp_bind in Hc.
  eapply wp_mono; [exact Hc|]. cbn beta. intros [] fs' (a'&Hs&Ha). inversion Hs; subst. eexists. split; [by eapply SClose|]. done.
Qed.

Lemma abs_open_null fs a f : abs fs a -> is_Some (a_open a !! f) -> f <> NULL.
Proof.
  intros (rst&mst&N&Hok&Hrel) [[k n] Hf]. destruct (open_file _ _ _ _ _ Hok Hrel f k n Hf) as (p&i&bs&_&?&_). done.
Qed.

Lemma abs_good fs a : abs fs a -> good fs.
Proof. intros (rst&mst&N&[Hb _ _]&_). apply Hb. Qed.

Lemma abs_stores fs fs' a : stores fs (disk fs) fs' -> abs fs a -> abs fs' a.
Proof.
  intros Hs (rst&mst&N&Hok&Hrel). exists rst, mst, N. split; [by apply (ok_stores _ _ _ _ _ _ _ _ Hs Hok)|by eapply related_stores].
Qed.

Lemma abs_bytes fs a k bs : abs fs a -> a_files a !! k = Some bs -> Forall (in_u 8) bs.
Proof.
  intros Ha. pose proof (good_sized _ (abs_good _ _ Ha)). destruct Ha as (rst&mst&N&_&[Hf _ _ _]). rewrite Hf. case_decide; [|done].
  intros ([st len]&_&->)%fmap_Some. by apply bytes_in_u.
Qed.

Lemma abs_size fs a f k n bs : abs fs a -> a_open a !! f = Some (k, n) -> a_files a !! k = Some bs -> 0 <= n < 2 ^ 31 /\ zlen bs < 2 ^ 31.
Proof.
  intros (rst&mst&N&Ho&Hrel) Hf Hk.
  destruct (open_file _ _ _ _ _ Ho Hrel f k n Hf) as (p&i&bs'&_&_&_&_&_&_&_&Hx&_&Hn&Hk'&_&Hl). pose proof (ext_len _ _ _ Hx).
  assert (bs' = bs) as -> by congruence. lia.
Qed.

(** An open file has contents. *)
Lemma abs_contents fs a f k n : abs fs a -> a_open a !! f = Some (k, n) -> exists bs, a_files a !! k = Some bs.
Proof.
  intros (rst&mst&N&Ho&Hrel) Hf. destruct (open_file _ _ _ _ _ Ho Hrel f k n Hf) as (p&i&bs&_&_&_&_&_&_&_&_&_&_&Hk&_). by exists bs.
Qed.

(** ** Reading *)

(** The file [f] was moved to [n]. *)
Definition moved_to a f k n : afs := Afs (a_names a) (a_files a) (<[f := (k, n)]> (a_open a)).

Lemma length_at fs a f k n bs : abs fs a -> a_open a !! f = Some (k, n) -> a_files a !! k = Some bs -> file_length f fs = Ok (zlen bs, fs).
Proof.
  intros (rst&mst&N&Ho&Hrel) Hf Hk. destruct (open_file _ _ _ _ _ Ho Hrel f k n Hf) as (p&i&bs'&Hfo&Hfn&Hp&_&_&_&_&_&_&_&Hk'&_&Hl).
  assert (bs' = bs) as -> by congruence.
  assert (wp (file_length f) (fun n fs' => n = zlen bs /\ fs' = fs) fs) as (?&?&->&->&->)%wp_ok; [|done].
  unfold file_length, inode_length. apply wp_bind, wp_assert. split; [by rewrite (proj2 (Z.eqb_neq _ _) Hfn)|]. apply wp_bind.
  eapply wp_file_at; [done|]. apply wp_bind. eapply wp_inode_at; [done|]. apply wp_ret. done.
Qed.

Lemma seek_at fs a f k j n : abs fs a -> a_open a !! f = Some (k, j) -> 0 <= n < 2 ^ 31 ->
  wp (file_seek f n) (fun _ fs' => abs fs' (moved_to a f k n)) fs.
Proof.
  intros (rst&mst&N&Ho&Hrel) Hf Hn. pose proof (seek_ok cur _ _ _ _ _ Ho Hrel f n ltac:(eauto) Hn) as Hs. cbn [run] in Hs. apply wp_bind in Hs.
  eapply wp_mono; [exact Hs|]. cbn beta. intros [] fs' (a'&Hsp&Ha)%wp_ret. inversion Hsp; subst. unfold moved_to. congruence.
Qed.

Lemma read_at fs a f k j n buf bs : abs fs a -> a_open a !! f = Some (k, j) -> a_files a !! k = Some bs -> 0 <= n < 2 ^ 31 -> zlen buf = n ->
  let r := take (Z.to_nat n) (drop (Z.to_nat j) bs) in
  wp (file_read f buf n) (fun x fs' => x = (zlen r, splice buf 0 r) /\ zlen r <= n /\ abs fs' (moved_to a f k (j + zlen r))) fs.
Proof.
  intros (rst&mst&N&Ho&Hrel) Hf Hk Hn Hb r. eapply wp_mono; [by eapply (file_read_ok _ _ _ _ _ Ho Hrel f n buf); eauto|].
  intros x fs' (c&a'&Hsp&Ha&Hl&->). inversion Hsp as [| | | | | | |? ? k' j' c' Hk' Hc'| | | |]; subst.
  assert (k' = k /\ j' = j) as [-> ->] by (split; congruence). assert (c' = bs) as -> by congruence. done.
Qed.
End client.
End FsClient.
