(* ===== verification/FsMount.v ===== *)
(** * Formatting and mounting

    [filesys_init] on a fresh disk makes an empty file system; on the disk of a
    running one it finds its files again. *)

From S2P Require Import Prelude.
From S2P Require Import Mem.
From S2P Require Import Words.
From S2P Require Import Bitmap.
From S2P Require Import Device.
From S2P Require Import Block.
From S2P Require Import Fs.
From S2P Require Import FsInode.
From S2P Require Import FsMap.
From S2P Require Import Directory.
From S2P Require Import FsDir.
From S2P Require Import FsCore.
From S2P Require Import FsOps.
From S2P Require Import FsInv.
From S2P Require Import FsSteps.
From S2P Require Import FsRefine.
Local Open Scope Z_scope.

Module FsMount.
Import Mem Words Fs FsInode FsMap FsDir FsCore FsOps FsInv FsSteps FsRefine Directory.

(** ** Reading the bitmap *)

Lemma last_mask_bits b k : Bitmap.wf b -> 0 <= k < 32 ->
  Z.testbit (Bitmap.last_mask b) k = (Bitmap.bit_cnt b mod 32 =? 0) || (k <? Bitmap.bit_cnt b mod 32).
Proof.
  intros [Hc _ _] Hk. unfold Bitmap.last_mask, Bitmap.ELEM_BITS. pose proof (Z.mod_pos_bound (Bitmap.bit_cnt b) 32 ltac:(lia)) as Hm.
  destruct (Z.eqb_spec (Bitmap.bit_cnt b mod 32) 0) as [E|E]; cbn [negb orb].
  - change (u32 (-1)) with (Z.ones 32). apply Z.ones_spec_low. lia.
  - replace (Z.shiftl 1 (Bitmap.bit_cnt b mod 32) - 1) with (Z.ones (Bitmap.bit_cnt b mod 32)) by (unfold Z.ones; lia).
    rewrite wrapu_small.
    + destruct (Z.ltb_spec k (Bitmap.bit_cnt b mod 32)); [apply Z.ones_spec_low; lia|apply Z.ones_spec_high; lia].
    + unfold in_u. rewrite Z.ones_equiv. pose proof (Z.pow_lt_mono_r 2 (Bitmap.bit_cnt b mod 32) 32 ltac:(lia) ltac:(lia) ltac:(lia)).
      pose proof (Z.pow_pos_nonneg 2 (Bitmap.bit_cnt b mod 32) ltac:(lia) ltac:(lia)). lia.
Qed.

(** Clearing what follows the last bit. *)
Definition agrees (b b' : Bitmap.bitmap) : Prop :=
  Bitmap.wf b' /\ Bitmap.bit_cnt b' = Bitmap.bit_cnt b /\ forall j, 0 <= j < Bitmap.bit_cnt b -> Bitmap.bit b' j = Bitmap.bit b j.

Lemma wp_mask_last b : Bitmap.wf b -> 0 < Bitmap.bit_cnt b ->
  let idx := Bitmap.elem_cnt (Bitmap.bit_cnt b) - 1 in
  wp (let! w := Bitmap.word idx in Bitmap.set_word idx (Z.land w (Bitmap.last_mask b))) (fun _ b' => agrees b b') b.
Proof.
  intros Hwf Hn idx. pose proof Hwf as [Hc Hl Hws]. assert (idx = (Bitmap.bit_cnt b - 1) / 32) as Ei.
  { unfold idx, Bitmap.elem_cnt, Bitmap.ELEM_BITS. rewrite wrapu_small by (unfold in_u; lia). zlia. }
  destruct (lookup_lt_is_Some_2 (Bitmap.bits b) (Z.to_nat idx)) as [w Hw]; [unfold idx; zlia|].
  assert (in_u 32 w) as Hin by (by eapply Forall_lookup_1).
  unfold wp, bind, Bitmap.set_word, Bitmap.word, bind. rewrite !Hw. cbn. split_and!; [|done|].
  - split; cbn; [done|by rewrite length_insert|]. apply Forall_insert; [done|]. apply Bitmap.in_u_bits in Hin as [H0 Hk]. apply Bitmap.in_u_bits.
    split; [apply Z.land_nonneg; lia|]. intros k ?. by rewrite Z.land_spec, Hk by lia.
  - intros j Hj. unfold Bitmap.bit. cbn. destruct (decide (j / 32 = idx)) as [E|E].
    + rewrite E, list_lookup_insert_eq, Hw by (by eapply lookup_lt_Some). rewrite Z.land_spec, last_mask_bits by (done || apply Z.mod_pos_bound; lia).
      destruct ((Bitmap.bit_cnt b mod 32 =? 0) || (j mod 32 <? Bitmap.bit_cnt b mod 32)) eqn:Em; [apply andb_true_r|].
      apply orb_false_iff in Em as [Em1%Z.eqb_neq Em2%Z.ltb_ge]. exfalso. clear - Hj E Ei Em1 Em2. zlia.
    + rewrite list_lookup_insert_ne; [done|]. assert (0 <= j / 32) by zlia. assert (0 <= idx) by zlia. lia.
Qed.

(** ** Filtered maps *)

Lemma filter_kept {A} (P : Z * A -> Prop) `{!forall x, Decision (P x)} (m : gmap Z A) k : (forall x, P (k, x)) -> filter P m !! k = m !! k.
Proof.
  intros HP. destruct (m !! k) as [x|] eqn:E; [by apply map_lookup_filter_Some|]. apply map_lookup_filter_None. by left.
Qed.

(** ** Volumes *)

(** A disk that holds the inodes [N] and the entries [names]. *)
Record volume (m : disk_map) (b : Bitmap.bitmap) (N : nodes) (names : gmap (list Z) Z) (rst mst : Z) : Prop := Volume {
  v_disk : disk_ok (Core ∅ [] b m NULL);
  v_nodes : nodes_ok (Core ∅ [] b m NULL) N;
  v_root : root_ok (Core ∅ [] b m NULL) N names rst;
  v_map : N !! FREE_MAP_SECTOR = Some (mst, Bitmap.byte_cnt (Bitmap.bit_cnt b));
  v_saved : backs (contents m mst (Bitmap.byte_cnt (Bitmap.bit_cnt b))) b }.

(** The inode of the map, open in file [f]. *)
Definition map_objs (p f mst len : Z) : gmap ptr obj :=
  <[f := OFile (File p 0)]> (<[p := OInode (Inode FREE_MAP_SECTOR 1 false (encode_inode mst len INODE_MAGIC) 0 1 1)]> ∅).

Lemma map_objs_lookup p f mst len q o : p <> f -> map_objs p f mst len !! q = Some o ->
  (q = f /\ o = OFile (File p 0)) \/ (q = p /\ o = OInode (Inode FREE_MAP_SECTOR 1 false (encode_inode mst len INODE_MAGIC) 0 1 1)).
Proof. intros Hne. unfold map_objs. intros [[<- <-]|[_ [[<- <-]|[_ []%lookup_empty_Some]]%lookup_insert_Some]]%lookup_insert_Some; auto. Qed.

(** With the map file open, and nothing else, the invariant holds. *)
Lemma volume_inv m b b' N names rst mst p f : volume m b N names rst mst -> agrees b b' -> p <> NULL -> f <> NULL -> p <> f ->
  inv (Core (map_objs p f mst (Bitmap.byte_cnt (Bitmap.bit_cnt b))) [p] b' m f) N names rst mst [].
Proof.
  intros [D Nd R HN Hsv] (Hwf&Hcnt&Hbit) Hp Hf Hpf. set (len := Bitmap.byte_cnt (Bitmap.bit_cnt b)) in *.
  destruct (n_extent _ _ Nd _ _ _ HN) as ([? ? ?]&?&_&?).
  destruct (encode_fields mst len FREE_MAP_SECTOR 1 false 0 1 1 ltac:(lia) ltac:(lia)) as [Es El].
  set (i := Inode FREE_MAP_SECTOR 1 false (encode_inode mst len INODE_MAGIC) 0 1 1) in *. set (h := map_objs p f mst len).
  assert (Hlk : forall q o, h !! q = Some o -> (q = f /\ o = OFile (File p 0)) \/ (q = p /\ o = OInode i)) by (intros; by apply map_objs_lookup).
  assert (h !! p = Some (OInode i)) as Hhp by (unfold h, map_objs; by rewrite lookup_insert_ne, lookup_insert_eq).
  assert (h !! f = Some (OFile (File p 0))) as Hhf by (unfold h, map_objs; by rewrite lookup_insert_eq).
  assert (refs h p = 1) as Hr.
  { unfold h, map_objs. rewrite refs_new by (by rewrite lookup_insert_ne, lookup_empty). rewrite refs_new by apply lookup_empty. unfold to. cbn [points f_inode].
    repeat case_decide; (done || congruence). }
  assert (Hin : forall q o, h !! q = Some (OInode o) -> q = p /\ o = i) by (intros q o [[-> [=]]|[-> [= ->]]]%Hlk; done).
  split.
  - destruct D as [d1 d2 d3]. split; cbn; [done|by rewrite Hcnt|done].
  - destruct Nd as [n1 n2 n3 n4 n5]. split; cbn; rewrite ?Hcnt; try done. intros k n Hk. rewrite Hbit; [by eapply n5|].
    rewrite <- (d_dom _ D). destruct Hk as (st&l&Hk&[->|Hn]); [rewrite (n1 _ _ _ Hk); eauto|]. by apply (n2 _ _ _ Hk).
  - split; cbn; fold h.
    + destruct (h !! NULL) eqn:E; [|done]. apply Hlk in E as [[? _]|[? _]]; congruence.
    + intros q. rewrite list_elem_of_singleton. split; [intros ->; by exists i|]. intros [o [-> _]%Hin]. done.
    + apply NoDup_singleton.
    + intros q o [_ ->]%Hin. done.
    + intros q o [_ ->]%Hin. by rewrite Es, El.
    + intros q o [-> ->]%Hin. rewrite Hr. done.
    + intros q q' o o' [-> _]%Hin [-> _]%Hin. done.
    + intros q o q' [[-> ->]|[-> ->]]%Hlk [= <-]. by exists i.
    + by intros q ?%elem_of_nil.
    + intros q fl [Hq|Hq]; apply Hlk in Hq as [[-> [= ->]]|[-> [=]]]. cbn. lia.
  - destruct R as [r1 r2 r3 r4 r5 r6 r7]. split; cbn; fold h; try done.
    + intros k [?|[?|[?|(q&o&Hq&_)]]]%r6; auto. cbn in Hq. by apply lookup_empty_Some in Hq.
    + intros q o [-> ->]%Hin. split; [done|]. by intros [? _].
  - split; cbn; fold h; [by rewrite Hcnt|exists p, 0, i; done|]. rewrite Hcnt. destruct Hsv as (bd&?&?&?&Hbd). exists bd.
    rewrite Hcnt. split_and!; [done..|]. intros j Hj. rewrite Hbd, Hbit by done. done.
Qed.

(** The disk of a running file system: the inodes that have a name. *)
Definition linked (names : gmap (list Z) Z) (k : Z) : Prop := k = FREE_MAP_SECTOR \/ k = ROOT_DIR_SECTOR \/ k ∈ map_img (SA := gset Z) names.
#[export] Instance linked_dec names k : Decision (linked names k).
Proof. unfold linked. apply _. Defined.

Lemma inv_volume c N names rst mst pend : inv c N names rst mst pend ->
  volume (c_disk c) (c_map c) (filter (fun x => linked names x.1) N) names rst mst.
Proof.
  intros [[d1 d2 d3] [n1 n2 n3 n4 n5] _ R M].
  assert (Hl : forall k x, filter (fun x => linked names x.1) N !! k = Some x -> N !! k = Some x) by (intros k x [? _]%map_lookup_filter_Some; done).
  assert (Ho : forall k n, owns (filter (fun x => linked names x.1) N) k n -> owns N k n).
  { intros k n (st&len&Hk&Hn). exists st, len. split; [by apply Hl|done]. }
  split.
  - by split.
  - split; cbn.
    + intros k st len Hk%Hl. by apply n1.
    + intros k st len Hk%Hl. by eapply n2.
    + intros k st len Hk%Hl. by apply n3.
    + intros k1 k2 n H1%Ho H2%Ho. by eapply n4.
    + intros k n Hk%Ho. by eapply n5.
  - destruct R as [r1 r2 r3 r4 r5 r6 r7]. split; cbn; try done.
    + apply map_lookup_filter_Some. split; [done|]. cbn. unfold linked. auto.
    + intros nm k Hk. destruct (r5 nm k Hk) as ([x Hx]&?&?). split; [|done]. exists x. apply map_lookup_filter_Some. split; [done|].
      cbn. unfold linked. do 2 right. apply elem_of_map_img. eauto.
    + intros k [x [_ [?|[?|Hk]]]%map_lookup_filter_Some]; auto. cbn in Hk. apply elem_of_map_img in Hk. auto.
  - apply map_lookup_filter_Some. split; [apply M|]. cbn. unfold linked. auto.
  - apply M.
Qed.

(** A disk after formatting. *)
Definition format_nodes (n1 len n2 : Z) : nodes := <[ROOT_DIR_SECTOR := (n2, ROOT_LEN)]> (<[FREE_MAP_SECTOR := (n1, len)]> ∅).

Lemma format_nodes_lookup n1 len n2 k st l : format_nodes n1 len n2 !! k = Some (st, l) ->
  (k = ROOT_DIR_SECTOR /\ st = n2 /\ l = ROOT_LEN) \/ (k = FREE_MAP_SECTOR /\ st = n1 /\ l = len).
Proof.
  unfold format_nodes. intros [[<- [= <- <-]]|[_ [[<- [= <- <-]]|[_ []%lookup_empty_Some]]%lookup_insert_Some]]%lookup_insert_Some; auto.
Qed.

Lemma zero_entries j e : entries (replicate 320 0) !! j = Some e -> entry_ok e /\ e_in_use e = false.
Proof.
  intros Hj. assert (e = replicate 20 0) as ->.
  { rewrite entries_lookup in Hj. case_decide as Hd; [|done]. rewrite length_replicate in Hd. apply (f_equal (default [])) in Hj. cbn [from_option id] in Hj. rewrite <- Hj. unfold sub.
    rewrite drop_replicate, take_replicate. f_equal. lia. }
  split; [|done]. split; [done|by apply Forall_replicate|done].
Qed.

Lemma format_volume m b n1 len n2 : let N := format_nodes n1 len n2 in
  disk_ok (Core ∅ [] b m NULL) -> len = Bitmap.byte_cnt (Bitmap.bit_cnt b) -> len + 511 < 2 ^ 31 ->
  m !! FREE_MAP_SECTOR = Some (encode_inode n1 len INODE_MAGIC) -> m !! ROOT_DIR_SECTOR = Some (encode_inode n2 ROOT_LEN INODE_MAGIC) ->
  extent m n1 len -> extent m n2 ROOT_LEN -> n1 + nsec len <= Bitmap.bit_cnt b -> n2 + nsec ROOT_LEN <= Bitmap.bit_cnt b ->
  (forall x, in_extent n1 len x -> 2 <= x) -> (forall x, in_extent n2 ROOT_LEN x -> 2 <= x /\ ~ in_extent n1 len x) ->
  (forall x, x = 0 \/ x = 1 \/ in_extent n1 len x \/ in_extent n2 ROOT_LEN x -> Bitmap.bit b x = true) ->
  contents m n2 ROOT_LEN = replicate 320 0 -> contents m n1 len = words_bytes (Bitmap.bits b) -> 
  volume m b N ∅ n2 n1.
Proof.
  intros N D Hlen Hl31 H0 H1 X1 X2 Hn1 Hn2 I1 I2 Hbits Hz Hsv. pose proof (d_wf _ D) as Hwf. cbn in Hwf. pose proof (Bitmap.wf_cnt _ Hwf).
  assert (0 <= nsec len) by (unfold nsec; destruct X1; zlia).
  assert (Hlk : forall k st l, N !! k = Some (st, l) -> (k = 1 /\ st = n2 /\ l = ROOT_LEN) \/ (k = 0 /\ st = n1 /\ l = len)).
  { intros k st l Hk. by apply format_nodes_lookup in Hk. }
  assert (Hent : forall j e, entries (contents m n2 ROOT_LEN) !! j = Some e -> entry_ok e /\ e_in_use e = false) by (rewrite Hz; apply zero_entries).
  split.
  - done.
  - split; cbn [c_disk c_map].
    + intros k st l [(->&->&->)|(->&->&->)]%Hlk; done.
    + destruct X1 as [? ? ?], X2 as [? ? ?]. change (nsec ROOT_LEN) with 1 in *.
      intros k st l [(->&->&->)|(->&->&->)]%Hlk; (split; [by split|]); split_and!; (done || lia).
    + intros k st l [(->&->&->)|(->&->&->)]%Hlk Hin; [apply I2 in Hin|apply I1 in Hin]; lia.
    + intros k1 k2 x (st&l&[(->&->&->)|(->&->&->)]%Hlk&Hx) (st'&l'&[(->&->&->)|(->&->&->)]%Hlk&Hx'); try done; exfalso;
        pose proof (I1 x); pose proof (I2 x); destruct Hx as [->|Hx], Hx' as [Hx'|Hx']; naive_solver lia.
    + intros k x (st&l&[(->&->&->)|(->&->&->)]%Hlk&Hx); apply Hbits; tauto.
  - split; cbn [c_disk c_heap]; [apply lookup_insert_eq|..].
    + apply Forall_lookup. intros j e Hj. by apply (Hent j).
    + intros nm k. rewrite lookup_empty. split; [done|]. intros (j&e&Hj&[Hu _]&_). apply Hent in Hj as [_ Hj]. congruence.
    + intros j j' e e' Hj _ Hu. apply Hent in Hj as [_ Hj]. congruence.
    + intros nm k []%lookup_empty_Some.
    + intros k [[st l] [(->&_)|(->&_)]%Hlk]; auto.
    + intros p i []%lookup_empty_Some.
  - unfold N, format_nodes. rewrite lookup_insert_ne by done. rewrite lookup_insert_eq. by rewrite <- Hlen.
  - rewrite <- Hlen, Hsv. by apply backs_exact.
Qed.

Section proofs.
Context {dev : Type} `{!Device.Device dev} `{!Device.Allocator} {Hroom : Device.Roomy} (cur : Z).
Implicit Types (s : state dev) (p f : ptr) (i : inode) (N : nodes) (names : gmap (list Z) Z).

Lemma bitmap_read_ok s p i b : good s -> Bitmap.wf (free_map s) -> map_file s p i -> 0 < Bitmap.bit_cnt (free_map s) ->
  backs (contents (disk s) (data_start i) (data_length i)) b -> Bitmap.bit_cnt b = Bitmap.bit_cnt (free_map s) ->
  wp (bitmap_read (free_map_file s)) (fun r s' => r = true /\ exists b', agrees b b' /\ stores (set_map b' s) (disk s) s') s.
Proof.
  intros Hg Hwf Hm Hpos (bd&Ebs&Hwd&Hcd&Hbd) Hcb. pose proof Hm as [[k Hf] Hn Hi Hp Hid Hx Hl]. destruct (byte_cnt_small _ Hwf) as [Ec Hc31].
  unfold bitmap_read. apply wp_bind, wp_gets. rewrite (proj2 (Z.ltb_lt _ _)) by done. apply wp_bind.
  unfold file_read_at. apply wp_bind. eapply wp_file_at; [done|]. cbn [f_inode]. rewrite wraps_small by (unfold in_s; lia).
  eapply wp_mono; [apply (inode_read_at_ok s p i); try done; rewrite words_length; lia|].
  intros [n buf] s1 (n'&En&_&Hfull&Hbuf&Hs1). cbn [fst snd] in *. subst n' buf. specialize (Hfull Hroom). unfold full in Hfull.
  assert (n = data_length i) as -> by (destruct Hx; lia). rewrite Z.add_0_r. fold (contents (disk s) (data_start i) (data_length i)).
  assert (length (Bitmap.bits bd) = length (Bitmap.bits (free_map s))) as Elen.
  { destruct Hwd as [_ E _], Hwf as [_ E' _]. rewrite Hcd, Hcb in E. lia. }
  assert (splice (words_bytes (Bitmap.bits (free_map s))) 0 (contents (disk s) (data_start i) (data_length i)) = words_bytes (Bitmap.bits bd)) as ->.
  { rewrite Ebs. unfold splice. rewrite take_0, drop_ge, app_nil_r; [done|]. rewrite !words_length. lia. }
  rewrite <- Elen, words_round by apply Hwd. replace (Bitmap.bit_cnt (free_map s)) with (Bitmap.bit_cnt bd) by lia.
  apply wp_bind, wp_modify. replace (Bitmap.Bm (Bitmap.bit_cnt bd) (Bitmap.bits bd)) with bd by (by destruct bd).
  apply wp_bind, wp_zoom. replace (Bitmap.last_mask (free_map s)) with (Bitmap.last_mask bd).
  2: { unfold Bitmap.last_mask. by replace (Bitmap.bit_cnt (free_map s)) with (Bitmap.bit_cnt bd) by lia. }
  eapply wp_mono; [apply (wp_mask_last bd Hwd); lia|]. intros [] b' (Hwb&Hcb'&Hb').
  apply wp_ret. replace (Bitmap.byte_cnt (Bitmap.bit_cnt bd)) with (data_length i) by congruence. split; [apply Z.eqb_refl|].
  exists b'. split; [split_and!; [done|lia|]; intros j Hj; rewrite Hb', Hbd by lia; done|].
  exact (stores_set_map _ _ _ _ Hs1).
Qed.

(** ** Opening the map *)

(** Opening the map file when nothing is open. *)
Lemma open_map_file {A} (k : ptr -> M (state dev) A) Q s mst len : busy None None s -> heap s = ∅ -> open_inodes s = [] ->
  disk s !! FREE_MAP_SECTOR = Some (encode_inode mst len INODE_MAGIC) -> extent (disk s) mst len -> 0 <= mst < 2 ^ 32 ->
  len = Bitmap.byte_cnt (Bitmap.bit_cnt (free_map s)) ->
  (forall p f s', busy None None s' -> p <> NULL -> f <> NULL -> p <> f ->
    view s' = Core (map_objs p f mst len) [p] (free_map s) (disk s) f ->
    map_file s' p (Inode FREE_MAP_SECTOR 1 false (encode_inode mst len INODE_MAGIC) 0 1 1) -> wp (k f) Q s') ->
  wp (let! p := inode_open cur FREE_MAP_SECTOR in
      let! f := file_open cur p in
      do! modify (set_map_file f) in
      if f =? NULL then fail EPanic else k f) Q s.
Proof.
  intros Hb Hh Hop Hd Hx Hmst Hlen Hk. pose proof (ext_len _ _ _ Hx). apply wp_bind. eapply wp_mono.
  { apply (inode_open_ok cur None s FREE_MAP_SECTOR (encode_inode mst len INODE_MAGIC) Hb); rewrite ?Hh, ?Hop; [by constructor|apply not_elem_of_nil|done|exact Hd]. }
  rewrite Hh, Hop. intros p s1 (Hb1&Hp&[(?&?%elem_of_nil&_)|(_&_&V1)]); [done|]. apply wp_bind. unfold file_open.
  apply wp_bind, wp_malloc; [apply Hb1|]. intros f s2 Hs2 Hf Hfn. specialize (Hfn Hroom). destruct Hf as [?|Hf]; [done|].
  rewrite (proj2 (Z.eqb_neq _ _) Hp), (proj2 (Z.eqb_neq _ _) Hfn). cbn [negb andb]. apply wp_bind, wp_modify, wp_ret, wp_bind, wp_modify.
  rewrite (proj2 (Z.eqb_neq _ _) Hfn). set (s3 := set_map_file f _).
  assert (view s3 = Core (map_objs p f mst len) [p] (free_map s) (disk s) f) as V3.
  { pose proof (stores_view _ _ _ Hs2) as V2.
    change (Core (<[f := OFile (File p 0)]> (c_heap (view s2))) (c_open (view s2)) (c_map (view s2)) (c_disk (view s2)) f =
      Core (map_objs p f mst len) [p] (free_map s) (disk s) f).
    change (disk s1) with (c_disk (view s1)) in V2. rewrite V2, V1. cbn. by rewrite Hh, Hop. }
  assert (busy None None s3) as Hb3 by (pose proof (stores_busy _ _ _ _ _ Hs2 Hb1) as [? ? ? ? ? ?]; by split).
  assert (p <> f) as Hpf.
  { intros ->. apply Hf. change (heap s1) with (c_heap (view s1)). rewrite V1. cbn. rewrite dom_insert. set_solver. }
  apply (Hk p f s3); try done. clear Hk.
  destruct (encode_fields mst len FREE_MAP_SECTOR 1 false 0 1 1 ltac:(lia) ltac:(lia)) as [Es El].
  pose proof (f_equal c_heap V3 : heap s3 = map_objs p f mst len) as Eh3. pose proof (f_equal c_map V3 : free_map s3 = free_map s) as Em3.
  pose proof (f_equal c_disk V3 : disk s3 = disk s) as Ed3. pose proof (f_equal c_file V3 : free_map_file s3 = f) as Ef3.
  split; rewrite ?Eh3, ?Ef3, ?Em3, ?Es, ?El, ?Ed3; try done.
  - exists 0. apply lookup_insert_eq.
  - unfold map_objs. by rewrite lookup_insert_ne, lookup_insert_eq.
Qed.

Lemma free_map_open_ok s b N names rst mst : busy None None s -> heap s = ∅ -> open_inodes s = [] ->
  Bitmap.bit_cnt b = Bitmap.bit_cnt (free_map s) -> 0 < Bitmap.bit_cnt b -> volume (disk s) b N names rst mst ->
  wp (free_map_open cur) (fun _ s' => ok rst mst None s' N names [] /\ disk s' = disk s /\ size (heap s') = 2%nat /\
    forall f, f <> free_map_file s' -> handle (heap s') f = None) s.
Proof.
  intros Hb Hh Hop Hcb Hpos Hv. pose proof Hv as [D Nd R HN Hsv]. set (len := Bitmap.byte_cnt (Bitmap.bit_cnt b)) in *.
  destruct (n_extent _ _ Nd _ _ _ HN) as (Hx&Hmst&_&Hlen). pose proof (ext_len _ _ _ Hx).
  unfold free_map_open. apply (open_map_file _ _ s mst len); try done; [exact (n_disk _ _ Nd _ _ _ HN)|unfold len; by rewrite Hcb|].
  intros p f s3 Hb3 Hp Hfn Hpf V3 Hm.
  destruct (encode_fields mst len FREE_MAP_SECTOR 1 false 0 1 1 ltac:(lia) ltac:(lia)) as [Es El].
  pose proof (f_equal c_map V3 : free_map s3 = free_map s) as Em3. pose proof (f_equal c_disk V3 : disk s3 = disk s) as Ed3.
  pose proof (f_equal c_file V3 : free_map_file s3 = f) as Ef3.
  apply wp_bind. rewrite <- Ef3 at 1. eapply wp_mono.
  { eapply (bitmap_read_ok s3 p _ b); [apply Hb3|apply Hb3|exact Hm|rewrite Em3; lia| |by rewrite Em3]. by rewrite Ed3, Es, El. }
  intros r s4 (->&b'&Hag&Hs4). cbn [negb]. apply wp_ret.
  assert (view s4 = Core (map_objs p f mst len) [p] b' (disk s) f) as V4.
  { rewrite (stores_view _ _ _ Hs4). change (view (set_map b' s3)) with (put_map b' (view s3)). rewrite V3, Ed3. done. }
  pose proof V4 as [= Eh4 _ _ Ed4 Ef4]. pose proof Hag as (Hwb&Hcb'&_).
  assert (size (heap s4) = 2%nat) as Hz.
  { rewrite Eh4. unfold map_objs. rewrite map_size_insert_None by (by rewrite lookup_insert_ne, lookup_empty).
    by rewrite map_size_insert_None, map_size_empty by apply lookup_empty. }
  split_and!.
  - split; [eapply stores_busy; [exact Hs4|]; apply busy_map; [done|done|rewrite Em3; lia]| |].
    + rewrite V4. by apply volume_inv.
    + by rewrite Hz.
  - done.
  - done.
  - intros g. rewrite Ef4, Eh4. intros Hg. unfold handle. destruct (map_objs p f mst len !! g) as [o|] eqn:E; [|done].
    by apply map_objs_lookup in E as [[-> ->]|[-> ->]].
Qed.

(** ** The fresh bitmap *)

Definition fresh_map (n : Z) (b : Bitmap.bitmap) : Prop :=
  Bitmap.wf b /\ Bitmap.bit_cnt b = n /\ forall j, 0 <= j < n -> Bitmap.bit b j = (j <? 2).

(** The array that [malloc] gives for a bitmap of [n] bits. *)
Definition storage_ok (n : Z) (ws : list Z) : Prop := zlen ws = Bitmap.elem_cnt n /\ Forall (in_u 32) ws.

Lemma free_map_init_ok s storage : good s -> 2 <= Device.block_size (fs_device s) <= 2 ^ 32 - 32 ->
  storage_ok (Device.block_size (fs_device s)) storage ->
  wp (free_map_init storage) (fun _ s' => exists b, fresh_map (Device.block_size (fs_device s)) b /\
    stores (set_map b (set_free_map_lock None s)) (disk s) s') s.
Proof.
  intros Hg Hn [Hl Hw]. set (n := Device.block_size (fs_device s)) in *. unfold free_map_init. apply wp_bind, wp_modify, wp_bind, wp_gets.
  set (s1 := set_free_map_lock None s). change (Device.block_size (fs_device s1)) with n.
  apply wp_bind, wp_malloc; [done|]. intros q s2 Hs2 _ Hq. rewrite (proj2 (Z.eqb_neq _ _) (Hq Hroom)).
  apply wp_bind, wp_malloc; [apply Hs2|]. intros q' s3 Hs3 _ Hq'. rewrite (proj2 (Z.eqb_neq _ _) (Hq' Hroom)). cbn [negb].
  assert (stores s1 (disk s) s3) as Hs13 by (eapply stores_trans; [exact Hs2|]; rewrite (st_disk _ _ _ Hs2) in Hs3; exact Hs3).
  assert (Bitmap.wf (Bitmap.Bm n storage)) as Hwf by (split; cbn; [lia|done|done]).
  apply wp_bind, wp_lift. unfold Bitmap.bitmap_create.
  pose proof (Bitmap.wp_bitmap_set_multiple (Bitmap.Bm n storage) 0 n false Hwf ltac:(lia) ltac:(lia) ltac:(cbn; lia)) as Hset.
  assert (Bitmap.bitmap_set_all false (Bitmap.Bm n storage) = Bitmap.bitmap_set_multiple 0 n false (Bitmap.Bm n storage)) as -> by done.
  destruct (proj1 (wp_ok _ _ _) Hset) as ([]&b0&->&(Hw0&Hc0&Hb0)). cbn [Bitmap.bit_cnt] in *. eexists. split; [done|]. cbn beta iota.
  apply wp_bind, wp_modify, wp_bind, wp_zoom. eapply wp_mono; [apply (Bitmap.wp_bitmap_mark b0 0 Hw0); lia|].
  intros [] b1 (Hw1&Hc1&Hb1). apply wp_zoom. change (free_map (set_map b1 _)) with b1. eapply wp_mono; [apply (Bitmap.wp_bitmap_mark b1 1 Hw1); lia|].
  intros [] b2 (Hw2&Hc2&Hb2). exists b2. split.
  - split_and!; [done|lia|]. intros j Hj. rewrite Hb2, Hb1, Hb0 by lia. rewrite (proj2 (Z.leb_le 0 j)), (proj2 (Z.ltb_lt j (0 + n))) by lia. cbn.
    destruct (Z.eqb_spec j 1), (Z.eqb_spec j 0), (Z.ltb_spec j 2); (lia || done).
  - exact (stores_set_map _ _ _ b2 Hs13).
Qed.

(** ** Mounting *)

(** A machine that has just started: no object has been allocated. *)
Record booted (d : dev) (device : ptr) (storage : list Z) s : Prop := Booted {
  bo_device : fs_device s = d;
  bo_heap : heap s = ∅;
  bo_file : free_map_file s = NULL;
  bo_role : device <> NULL;
  bo_storage : storage_ok (Device.block_size d) storage }.

Lemma mount_ok s d device storage b N names rst mst : booted d device storage s -> Device.dev_ok d ->
  volume (Device.content d) b N names rst mst -> Bitmap.bit_cnt b = Device.block_size d -> 2 <= Device.block_size d <= 2 ^ 32 - 32 ->
  wp (filesys_init cur device storage false) (fun _ s' => ok rst mst None s' N names [] /\ disk s' = Device.content d /\ size (heap s') = 2%nat /\
    forall f, f <> free_map_file s' -> handle (heap s') f = None) s.
Proof.
  intros [<- Hh _ Hdev Hst] Hg Hv Hcb Hn. unfold filesys_init. rewrite (proj2 (Z.eqb_neq _ _) Hdev).
  apply wp_bind. unfold inode_init. apply wp_bind, wp_modify, wp_modify. apply wp_bind. set (s1 := set_filesys_lock None _).
  eapply wp_mono; [by apply (free_map_init_ok s1)|]. intros [] s2 (b0&(Hw0&Hc0&_)&Hs2). apply wp_bind, wp_modify, wp_bind, wp_ret.
  set (s3 := set_dir_lock None s2). pose proof (st_eq _ _ _ Hs2) as E2. change (disk s1) with (disk s) in Hs2.
  change (Device.content (fs_device s)) with (disk s) in *. change (fs_device s1) with (fs_device s) in Hc0.
  assert (disk s3 = disk s) as Ed by apply Hs2.
  eapply wp_mono; [apply (free_map_open_ok s3 b N names rst mst)|rewrite Ed; done].
  - assert (Device.block_size (fs_device s3) = Device.block_size (fs_device s)) as Hz by apply Hs2.
    assert (free_map s3 = b0 /\ filesys_lock s3 = None /\ free_map_lock s3 = None) as (Em&Ef&El) by (unfold s3; cbn; rewrite E2; done).
    split; rewrite ?Em; [apply Hs2|by rewrite Hz|done..].
  - change (heap s3) with (heap s2). by rewrite (stores_heap _ _ _ Hs2).
  - change (open_inodes s3) with (open_inodes s2). by rewrite E2.
  - change (free_map s3) with (free_map s2). rewrite E2. cbn. lia.
  - lia.
  - by rewrite Ed.
Qed.

(** What is left of [a] after a restart: the files that have a name. *)
Definition named (a : afs) : afs :=
  Afs (a_names a) (filter (fun x => x.1 ∈ map_img (SA := gset Z) (a_names a)) (a_files a)) ∅.

Lemma remount_ok s a d device storage s0 : abs s a -> Device.dev_ok d -> Device.content d = disk s -> Device.block_size d = Device.block_size (fs_device s) ->
  booted d device storage s0 -> wp (filesys_init cur device storage false) (fun _ s' => abs s' (named a)) s0.
Proof.
  intros (rst&mst&N&Hok&Hrel) Hg Hd Hz Hbo. pose proof (s_inv _ _ _ _ _ _ _ Hok) as Hi. pose proof Hi as [_ _ _ R _].
  pose proof (s_busy _ _ _ _ _ _ _ Hok) as [_ Hbz Hbw _ _ _]. pose proof (Bitmap.wf_cnt _ Hbw).
  pose proof (ok_owned _ _ _ _ _ _ _ Hok ROOT_DIR_SECTOR ROOT_DIR_SECTOR ltac:(eapply owns_self, R)) as Hn1.
  eapply wp_mono.
  { apply (mount_ok s0 d device storage (free_map s) (filter (fun x => linked (a_names a) x.1) N) (a_names a) rst mst Hbo Hg); [|lia|lia].
    rewrite Hd. exact (inv_volume _ _ _ _ _ _ Hi). }
  intros [] s' (Hok'&Hd'&_&Hno). eexists rst, mst, _. split; [exact Hok'|]. rewrite Hd in Hd'.
  assert (Hh : forall f, (if decide (f = free_map_file s') then None else match handle (heap s') f with Some (false, k, n) => Some (k, n) | _ => None end) = None :> option (Z * Z)).
  { intros f. case_decide; [done|]. by rewrite Hno. }
  split; cbn.
  - intros k. rewrite Hd'. destruct (decide (user_file k)) as [Hu|Hu].
    + destruct (decide (k ∈ map_img (SA := gset Z) (a_names a))) as [Hk|Hk].
      * rewrite !filter_kept; [by rewrite (rl_files _ _ _ Hrel), decide_True|by right; right|done].
      * rewrite !map_lookup_filter_None_2; [done|right; intros ? _ [?|[?|?]]; by destruct Hu|by right].
    + apply map_lookup_filter_None_2. left. by rewrite (rl_files _ _ _ Hrel), decide_False.
  - intros f. by rewrite Hh, lookup_empty.
  - by intros f k n ?%lookup_empty_Some.
  - intros f k n Hf. destruct (decide (f = free_map_file s')) as [->|Hne]; [|by rewrite Hno in Hf].
    destruct (s_inv _ _ _ _ _ _ _ Hok') as [_ _ _ _ [_ (p&j&i&Hm&Hp&_) _]]. cbn in Hm, Hp. unfold handle, sector_at in Hf. by rewrite Hm, Hp in Hf.
Qed.

Lemma done_ok s a : abs s a -> wp (filesys_done cur) (fun _ s' => good s' /\ disk s' = disk s /\
  Device.block_size (fs_device s') = Device.block_size (fs_device s)) s.
Proof.
  intros (rst&mst&N&Hok&Hrel). destruct (ok_map_file _ _ _ _ _ _ _ Hok) as (p&i&Hm&_&Hs). pose proof (mf_inode _ _ _ Hm) as Hp.
  destruct (mf_file _ _ _ Hm) as [k Hf]. unfold filesys_done, free_map_close. apply wp_bind, wp_gets. unfold file_close.
  rewrite (proj2 (Z.eqb_neq _ _) (mf_null _ _ _ Hm)). apply wp_bind. eapply wp_file_at; [done|]. cbn [f_inode]. apply wp_bind.
  eapply wp_mono; [by eapply close_step|]. intros _ s1 [Hb Hc]. unfold free. rewrite (proj2 (Z.eqb_neq _ _) (mf_null _ _ _ Hm)). apply wp_modify.
  assert (removed i = false) as Hr.
  { destruct (removed i) eqn:E; [|done]. destruct (s_inv _ _ _ _ _ _ _ Hok) as [_ _ _ R _]. by destruct (proj1 (r_removed _ _ _ _ R p i Hp) E). }
  unfold closes in Hc. rewrite Hr in Hc. assert (disk s1 = disk s /\ free_map s1 = free_map s) as [Ed Em].
  { destruct (open_cnt i =? 1); by injection Hc. }
  split; [apply Hb|]. split; [exact Ed|]. change (Device.block_size (fs_device s1) = Device.block_size (fs_device s)).
  rewrite <- (b_size _ _ _ Hb), Em. apply Hok.
Qed.

(** ** Formatting *)

(** A disk big enough for the inodes of the map and of the root directory, the
    map, and the entries of the root directory. *)
Definition big_enough (n : Z) : Prop := 3 + nsec (Bitmap.byte_cnt n) <= n <= 2 ^ 32 - 32.

Lemma fresh_run n b : fresh_map n b -> big_enough n -> ~ no_run b (nsec (Bitmap.byte_cnt n)).
Proof.
  intros (_&Hc&Hb) [Hn _] Hno. assert (0 <= nsec (Bitmap.byte_cnt n)) by (unfold nsec, Bitmap.byte_cnt, wrapu; zlia).
  apply (Hno 2); [lia|lia|]. intros j Hj. rewrite Hb by lia. apply Z.ltb_ge. lia.
Qed.

(** A sector is left once the map has its own. *)
Lemma second_run n b n1 b1 : fresh_map n b -> big_enough n -> allocated b (nsec (Bitmap.byte_cnt n)) (Some n1) b1 -> ~ no_run b1 1.
Proof.
  intros (_&Hc&Hb) [Hn _] (Hp0&Hp1&Hg&(_&Hc1&Hb1)) Hno. set (ns := nsec (Bitmap.byte_cnt n)) in *.
  assert (0 <= ns) by (unfold ns, nsec, Bitmap.byte_cnt, wrapu; zlia).
  assert (2 <= n1 \/ ns = 0) as Hn1.
  { destruct (decide (ns = 0)) as [|Hns]; [by right|]. left. specialize (Hg n1 ltac:(lia)). rewrite Hb in Hg by lia. apply Z.ltb_ge in Hg. lia. }
  destruct (decide (n1 = 2)) as [->|Hne].
  - apply (Hno (2 + ns)); [lia|lia|]. intros j Hj. rewrite Hb1, Hb by lia. rewrite (proj2 (Z.ltb_ge j (2 + ns))) by lia. rewrite andb_false_r. apply Z.ltb_ge. lia.
  - apply (Hno 2); [lia|lia|]. intros j Hj. replace j with 2 by lia. rewrite Hb1, Hb by lia.
    destruct (Z.leb_spec n1 2), (Z.ltb_spec 2 (n1 + ns)); cbn; (done || lia).
Qed.

Lemma map_len n b : fresh_map n b -> big_enough n -> 0 <= Bitmap.byte_cnt n /\ Bitmap.byte_cnt n + 511 < 2 ^ 31.
Proof.
  intros (Hwf&Hc&_) [Hn1 Hn2]. destruct (byte_cnt_small _ Hwf) as [Ec _]. rewrite Hc in Ec. pose proof (Bitmap.wf_len _ Hwf) as Hwl. rewrite Hc in Hwl.
  rewrite Ec. unfold Bitmap.elem_cnt, Bitmap.ELEM_BITS in Hwl. rewrite wrapu_small in Hwl by (unfold in_u, nsec in *; zlia). zlia.
Qed.

(** The map's inode and its data are on disk, and the map file is open. *)
Lemma free_map_create_ok s n : busy None None s -> heap s = ∅ -> open_inodes s = [] -> free_map_file s = NULL -> fresh_map n (free_map s) -> big_enough n ->
  let len := Bitmap.byte_cnt n in
  wp (free_map_create cur) (fun _ s' => busy None None s' /\ exists p f n1 b1 m1,
    p <> NULL /\ f <> NULL /\ p <> f /\ allocated (free_map s) (nsec len) (Some n1) b1 /\
    view s' = Core (map_objs p f n1 len) [p] b1 m1 f /\
    map_file s' p (Inode FREE_MAP_SECTOR 1 false (encode_inode n1 len INODE_MAGIC) 0 1 1) /\ 0 <= n1 < 2 ^ 32 /\ extent m1 n1 len /\
    m1 !! FREE_MAP_SECTOR = Some (encode_inode n1 len INODE_MAGIC)) s.
Proof.
  intros Hb Hh Hop Hff Hfm Hbig len. pose proof Hfm as (Hwf&Hc&Hbit). destruct (map_len _ _ Hfm Hbig) as [Hl0 Hl]. fold len in Hl0, Hl. destruct Hbig as [Hb1 Hb2].
  assert (0 <= nsec len) by (unfold nsec; zlia). fold len in Hb1.
  unfold free_map_create. apply wp_bind, wp_gets, wp_bind. unfold Bitmap.bitmap_file_size. rewrite Hc. fold len. rewrite wraps_small by (unfold in_s; lia).
  eapply wp_mono.
  { apply (inode_create_ok cur None s FREE_MAP_SECTOR len Hb); [by left|done|done|rewrite Hc; lia|rewrite Hbit by lia; done|].
    intros x (p&i&[_ _ Hi _ _ _ _]&_). rewrite Hh in Hi. by apply lookup_empty_Some in Hi. }
  intros r s1 [Hr Hbs1]. destruct r; [|destruct Hr as [_ Hno]; by destruct (fresh_run n (free_map s) Hfm (conj Hb1 Hb2))].
  destruct Hr as (n1&b1&m1&V1&Ha&(C1&C2&C3)&_). cbn [negb]. pose proof Ha as (Hn1&Hn1'&Hg&(Hw1&Hc1&_)).
  pose proof (f_equal c_heap V1 : heap s1 = heap s) as Eh1. pose proof (f_equal c_open V1 : open_inodes s1 = open_inodes s) as Eo1.
  pose proof (f_equal c_map V1 : free_map s1 = b1) as Em1. pose proof (f_equal c_disk V1 : disk s1 = m1) as Ed1.
  assert (extent m1 n1 len) as Hx1 by (split; [done|lia|]; intros x Hx; rewrite C2; [eauto|done]).
  apply (open_map_file _ _ s1 n1 len); rewrite ?Ed1, ?Em1; try done; [by rewrite Eh1|by rewrite Eo1|lia|by rewrite Hc1, Hc|].
  intros p f s2 Hb2' Hp Hf Hpf V2 Hm. apply wp_bind. pose proof (f_equal c_file V2 : free_map_file s2 = f) as Ef2. rewrite <- Ef2 at 1.
  pose proof (f_equal c_disk V2 : disk s2 = m1) as Ed2.
  destruct (encode_fields n1 len FREE_MAP_SECTOR 1 false 0 1 1 ltac:(lia) ltac:(lia)) as [Es El].
  eapply wp_mono; [apply (bitmap_write_ok s2 p _ (b_good _ _ _ Hb2') (b_wf _ _ _ Hb2') Hm)|].
  rewrite Es, El. intros r s3 (m2&Hs3&Hfr&Hr&_). rewrite (Hr Hroom). cbn [negb]. apply wp_ret. rewrite Ed2 in Hfr.
  split; [by eapply stores_busy|]. exists p, f, n1, b1, m2. split_and!; try done; [| |lia|by eapply frame_extent|].
  - by rewrite (stores_view _ _ _ Hs3), V2.
  - eapply map_file_ext; [..|exact Hm]; try (by rewrite (st_eq _ _ _ Hs3)). intros x. rewrite (st_disk _ _ _ Hs3), Ed2. apply Hfr.
  - rewrite <- C1. apply Hfr. intros Hx. specialize (Hg FREE_MAP_SECTOR Hx). rewrite Hbit in Hg by lia. done.
Qed.

(** Closing the map file, the only open file. *)
Lemma map_close_ok s p f n1 len b m : busy None None s -> p <> NULL -> f <> NULL -> p <> f ->
  view s = Core (map_objs p f n1 len) [p] b m f -> map_file s p (Inode FREE_MAP_SECTOR 1 false (encode_inode n1 len INODE_MAGIC) 0 1 1) ->
  wp (free_map_close cur) (fun _ s' => busy None None s' /\ heap s' = ∅ /\ open_inodes s' = [] /\ free_map s' = b /\ disk s' = m) s.
Proof.
  intros Hb Hp Hf Hpf V Hm. pose proof (f_equal c_heap V : heap s = map_objs p f n1 len) as Eh. pose proof (f_equal c_file V : free_map_file s = f) as Ef.
  unfold free_map_close. apply wp_bind, wp_gets. rewrite Ef. unfold file_close. rewrite (proj2 (Z.eqb_neq _ _) Hf).
  apply wp_bind. eapply wp_file_at; [rewrite Eh; apply lookup_insert_eq|]. cbn [f_inode]. apply wp_bind.
  eapply wp_mono; [eapply (inode_close_ok cur None s p _ p _ Hb (mf_inode _ _ _ Hm) Hp); [cbn; lia|exact Hm|done]|].
  cbn [open_cnt removed Z.eqb Pos.eqb]. intros [] s1 [Hb1 V1]. unfold free. rewrite (proj2 (Z.eqb_neq _ _) Hf). apply wp_modify.
  rewrite V in V1. split; [by apply busy_heap|]. cbn [heap open_inodes free_map set_heap]. split_and!.
  - change (heap s1) with (c_heap (view s1)). rewrite V1. cbn. unfold map_objs. rewrite delete_insert_ne by done.
    rewrite delete_insert_eq, delete_insert_eq. by rewrite !delete_empty.
  - change (open_inodes s1) with (c_open (view s1)). rewrite V1. cbn [c_open closed put_open]. rewrite filter_cons_False; [done|tauto].
  - change (free_map s1) with (c_map (view s1)). by rewrite V1.
  - change (disk s1 = m). change (disk s1) with (c_disk (view s1)). by rewrite V1.
Qed.

Lemma do_format_ok s n : busy None None s -> heap s = ∅ -> open_inodes s = [] -> free_map_file s = NULL -> fresh_map n (free_map s) -> big_enough n ->
  wp (do_format cur) (fun _ s' => busy None None s' /\ heap s' = ∅ /\ open_inodes s' = [] /\ Bitmap.bit_cnt (free_map s') = n /\
    exists n1 n2, volume (disk s') (free_map s') (format_nodes n1 (Bitmap.byte_cnt n) n2) ∅ n2 n1) s.
Proof.
  intros Hb Hh Hop Hff Hfm Hbig. unfold do_format. apply wp_bind. eapply wp_mono; [by apply (free_map_create_ok s n)|].
  set (len := Bitmap.byte_cnt n). intros [] s1 (Hb1&p&f&n1&b1&m1&Hp&Hf&Hpf&Ha&V1&Hm&Hn1&Hx1&Hm10).
  pose proof Ha as (_&Hn1'&Hg&(Hw1&Hc1&Hbit1)). pose proof Hfm as (Hwf&Hc&Hbit). pose proof Hbig as [Hbig1 Hbig2]. fold len in Hbig1.
  pose proof (f_equal c_map V1 : free_map s1 = b1) as Em1. pose proof (f_equal c_disk V1 : disk s1 = m1) as Ed1.
  pose proof (f_equal c_heap V1 : heap s1 = map_objs p f n1 len) as Eh1.
  destruct (encode_fields n1 len FREE_MAP_SECTOR 1 false 0 1 1 Hn1 ltac:(destruct Hx1; lia)) as [Es El].
  set (i := Inode FREE_MAP_SECTOR 1 false (encode_inode n1 len INODE_MAGIC) 0 1 1) in *. assert (0 <= nsec len) by (unfold nsec; destruct Hx1; zlia).
  assert (Hms : forall x, map_sectors s1 x <-> in_extent n1 len x).
  { intros x. split; [|intros Hx; exists p, i; by rewrite Es, El]. intros (p'&i'&Hm'&Hx).
    destruct (map_file_unique _ _ _ _ _ Hm Hm') as [-> ->]. by rewrite Es, El in Hx. }
  assert (I1 : forall x, in_extent n1 len x -> 2 <= x /\ x < n /\ Bitmap.bit b1 x = true).
  { intros x Hx. unfold in_extent in Hx. specialize (Hg x Hx). rewrite Hbit in Hg by lia. apply Z.ltb_ge in Hg. split_and!; [done|lia|].
    rewrite Hbit1 by lia. by rewrite (proj2 (Z.leb_le _ _)), (proj2 (Z.ltb_lt _ _)) by lia. }
  assert (Hlow : forall x, 0 <= x < 2 -> Bitmap.bit b1 x = true).
  { intros x Hx. rewrite Hbit1 by lia. destruct (_ && _) eqn:E; [done|]. rewrite Hbit by lia. apply Z.ltb_lt. lia. }
  apply wp_bind. unfold dir_create. change (s32 (16 * ENTRY_SIZE)) with ROOT_LEN. eapply wp_mono.
  { apply (inode_create_ok cur None s1 ROOT_DIR_SECTOR ROOT_LEN Hb1); rewrite ?Em1; [right; by exists p, i|lia|lia|lia|by apply Hlow|].
    intros x Hx%Hms. rewrite Em1. apply I1 in Hx as (?&?&?). split_and!; [lia|lia|done]. }
  intros r s2 [Hr Hb2]. rewrite Em1 in Hr. destruct r; [|destruct Hr as [_ Hno]; by destruct (second_run n _ _ _ Hfm Hbig Ha)].
  destruct Hr as (n2&b2&m2&V2&Ha2&(C1&C2&C3)&Hsv). cbn [negb]. pose proof Ha2 as (Hn2&Hn2'&Hg2&(Hw2&Hc2&Hbit2)). rewrite V1, Ed1 in *.
  change (view s2 = Core (map_objs p f n1 len) [p] b2 m2 f) in V2.
  assert (map_file s2 p i) as Hm2.
  { eapply map_file_ext; [..|exact Hm].
    - rewrite Eh1. exact (f_equal c_heap V2).
    - transitivity f; [exact (f_equal c_file V2)|exact (eq_sym (f_equal c_file V1))].
    - rewrite Em1, <- Hc2. exact (f_equal (fun c => Bitmap.bit_cnt (c_map c)) V2).
    - intros x. rewrite Ed1, (f_equal c_disk V2 : disk s2 = m2). apply C3. }
  eapply wp_mono; [apply (map_close_ok s2 p f n1 len b2 m2 Hb2 Hp Hf Hpf V2 Hm2)|]. intros [] s3 (Hb3&Hh3&Ho3&Em3&Ed3). rewrite Em3.
  assert (I2 : forall x, in_extent n2 ROOT_LEN x -> 2 <= x /\ x < n /\ ~ in_extent n1 len x).
  { intros x Hx. unfold in_extent in Hx. specialize (Hg2 x Hx). split_and!; [|lia|].
    - destruct (decide (x < 2)); [rewrite Hlow in Hg2 by lia; done|lia].
    - intros (_&_&Hbx)%I1. congruence. }
  split_and!; try done; [lia|]. exists n1, n2. rewrite Ed3. destruct (map_len _ _ Hfm Hbig) as [Hl0 Hl]. fold len in Hl0, Hl.
  apply format_volume; try done.
  - pose proof Hb3 as [Hg3 Hz3 _ _ _ _]. rewrite Em3 in Hz3. split; cbn; [rewrite <- Ed3; by apply good_sized| |done].
    intros x. rewrite <- Ed3, Hz3. by apply Device.content_dom.
  - unfold len. by rewrite Hc2, Hc1, Hc.
  - rewrite <- Hm10. apply C3. intros [Hx%Hms%I1|[?|Hx%I2]]; lia.
  - eapply frame_extent; [exact C3|done].
  - split; [done|lia|]. intros x Hx. rewrite C2; [eauto|done].
  - lia.
  - lia.
  - intros x Hx. by apply I1.
  - intros x Hx. destruct (I2 x Hx) as (?&_&?). done.
  - intros x Hx. destruct (decide (in_extent n2 ROOT_LEN x)) as [Hin|Hin].
    + rewrite Hbit2 by (apply I2 in Hin; lia). unfold in_extent in Hin. by rewrite (proj2 (Z.leb_le _ _)), (proj2 (Z.ltb_lt _ _)) by lia.
    + assert (0 <= x) as H0x by (destruct Hx as [->|[->|[Hx%I1|Hx]]]; [lia|lia|lia|done]). rewrite Hbit2 by done.
      destruct (_ && _); [done|]. destruct Hx as [->|[->|[Hx%I1|Hx]]]; [by apply Hlow|by apply Hlow|by apply Hx|done].
  - by apply zero_contents.
  - rewrite <- (Hsv p i Hm). by rewrite Es, El.
Qed.

Lemma format_ok s d device storage : booted d device storage s -> Device.dev_ok d -> big_enough (Device.block_size d) ->
  wp (filesys_init cur device storage true) (fun _ s' => abs s' (Afs ∅ ∅ ∅) /\ (size (heap s') <= 2)%nat) s.
Proof.
  intros [<- Hh Hff Hdev Hst] Hg Hbig. pose proof Hbig as [Hb1 Hb2]. unfold filesys_init. rewrite (proj2 (Z.eqb_neq _ _) Hdev).
  assert (0 <= nsec (Bitmap.byte_cnt (Device.block_size (fs_device s)))) by (unfold nsec, Bitmap.byte_cnt, wrapu; zlia).
  apply wp_bind. unfold inode_init. apply wp_bind, wp_modify, wp_modify. apply wp_bind. set (s1 := set_filesys_lock None _).
  eapply wp_mono; [apply (free_map_init_ok s1); [done|cbn; lia|done]|]. intros [] s2 (b0&Hfm&Hs2). change (fs_device s1) with (fs_device s) in Hfm.
  pose proof Hfm as (Hw0&Hc0&_). pose proof (st_eq _ _ _ Hs2) as E2. apply wp_bind, wp_modify, wp_bind. set (s3 := set_dir_lock None s2).
  assert (free_map s3 = b0 /\ filesys_lock s3 = None /\ free_map_lock s3 = None /\ heap s3 = ∅ /\ open_inodes s3 = [] /\ free_map_file s3 = NULL) as (Em&Ef&El&Eh&Eo&Eff)
    by (unfold s3; cbn; rewrite E2; done).
  assert (busy None None s3) as Hb3.
  { split; rewrite ?Em; [apply Hs2| |done..]. rewrite Hc0. symmetry. apply Hs2. }
  eapply wp_mono; [apply (do_format_ok s3 (Device.block_size (fs_device s)) Hb3 Eh Eo Eff); [rewrite Em; exact Hfm|done]|].
  intros [] s4 (Hb4&Hh4&Ho4&Hc4&n1&n2&Hv). eapply wp_mono; [apply (free_map_open_ok s4 (free_map s4) (format_nodes n1 (Bitmap.byte_cnt (Device.block_size (fs_device s))) n2) ∅ n2 n1 Hb4 Hh4 Ho4 eq_refl); [lia|exact Hv]|].
  intros [] s5 (Hok&_&Hsz&Hno). split; [|by rewrite Hsz]. exists n2, n1, (format_nodes n1 (Bitmap.byte_cnt (Device.block_size (fs_device s))) n2). split; [exact Hok|]. split; cbn.
  - intros k. rewrite lookup_empty. case_decide as Hu; [|done]. unfold format_nodes. destruct Hu.
    by rewrite !lookup_insert_ne, lookup_empty by congruence.
  - intros f. rewrite lookup_empty. case_decide; [done|]. by rewrite Hno.
  - by intros f k n ?%lookup_empty_Some.
  - intros f k n Hf. destruct (decide (f = free_map_file s5)) as [->|Hne]; [|by rewrite Hno in Hf].
    destruct (s_inv _ _ _ _ _ _ _ Hok) as [_ _ _ _ [_ (p&j&i&Hm&Hp&_) _]]. cbn in Hm, Hp. unfold handle, sector_at in Hf. by rewrite Hm, Hp in Hf.
Qed.

(** C18. Formatting makes an empty file system: on a disk of any contents that is
    big enough, [filesys_init] with [format] set runs without a panic and
    leaves a file system with no names, no files and no open files. *)
Theorem format_correct s d device storage : booted d device storage s -> Device.dev_ok d -> big_enough (Device.block_size d) ->
  wp (filesys_init cur device storage true) (fun _ s' => abs s' (Afs ∅ ∅ ∅)) s.
Proof. intros. eapply wp_mono; [by eapply format_ok|]. by intros [] s' [? _]. Qed.

(** C8. A restart finds every named file again with its contents: whether the
    file system was shut down ([filesys_done]) or the machine was cut off
    between two operations, [filesys_init] on the same disk, with nothing in
    memory, gives the names and the contents of the named files as they were;
    only files that were removed while open are gone. *)
Theorem reboot_durable s a device storage : abs s a ->
  wp (filesys_done cur) (fun _ s1 => forall d s0, d = fs_device s \/ d = fs_device s1 -> booted d device storage s0 ->
    wp (filesys_init cur device storage false) (fun _ s' => abs s' (named a)) s0) s.
Proof.
  intros Ha. eapply wp_mono; [by eapply done_ok|]. intros [] s1 (Hg1&Hd1&Hz1) d s0 [->| ->] Hbo.
  - pose proof Ha as (?&?&?&Hok&_). by eapply (remount_ok s); [..|apply Hok| | |].
  - by eapply (remount_ok s).
Qed.
End proofs.

(** ** An example: a partition of twelve sectors of a disk of sixteen *)

Definition vol_disk : gmap Z (list Z) := gset_to_gmap (replicate 512 7) (list_to_set (seqZ 0 16)).
Definition vol_boot : M Block.state ptr :=
  do! Block.block_register 1 [104; 100] Block.BLOCK_RAW 16 (Block.Disk vol_disk) in
  Block.block_register 2 [104; 100; 49] Block.BLOCK_FILESYS 12 (Block.Partition 1 4).
Definition vol : Block.state := match vol_boot (Block.St ∅ [] [0; 2; 0; 0]) with Ok (_, s) => s | Err _ => Block.St ∅ [] [] end.

Lemma vol_ok : Block.fs_ok 2 vol /\ Block.fs_size 2 vol = 12.
Proof.
  assert (wp vol_boot (fun _ s => Block.wf s /\ Block.view s =
    <[2 := (Block.BLOCK_FILESYS, 12, Block.Partition 1 4)]> (<[1 := (Block.BLOCK_RAW, 16, Block.Disk vol_disk)]> ∅)) (Block.St ∅ [] [0; 2; 0; 0])) as Hw.
  { destruct (Block.empty_wf [0; 2; 0; 0]) as [H0 E0]. unfold vol_boot. apply wp_bind.
    eapply wp_mono; [apply Block.block_register_ok; [done|done|by rewrite E0|lia|]|].
    { split; [|intros n bs [_ <-]%lookup_gset_to_gmap_Some; by apply (bool_decide_unpack _)]. intros n. unfold vol_disk.
      rewrite <- elem_of_dom, dom_gset_to_gmap, elem_of_list_to_set, elem_of_seqZ. lia. }
    intros _ s1 (_&Hw1&E1&_). rewrite E0 in E1. eapply wp_mono; [apply Block.block_register_ok; [done|done|by rewrite E1|lia|]|].
    { rewrite E1. eexists _, _, _. split; [done|lia]. }
    intros _ s2 (_&Hw2&E2&_). by rewrite E1 in E2. }
  split; [|done]. change (Block.wf vol /\ Block.view vol =
    <[2 := (Block.BLOCK_FILESYS, 12, Block.Partition 1 4)]> (<[1 := (Block.BLOCK_RAW, 16, Block.Disk vol_disk)]> ∅)) in Hw.
  destruct Hw as [Hw Ev]. split; [done|]. exists 1, (4 + 0). rewrite Ev. eapply Block.lies_part; [done|done|]. by eapply Block.lies_disk.
Qed.

#[local] Instance vol_device : Device.Device Block.state := Block.block_device 2.
#[local] Existing Instances Device.bump Device.bump_roomy.

Definition vol_state : state Block.state := St vol ∅ [] (Bitmap.Bm 0 []) NULL None None None 0.

Lemma vol_booted : booted vol 2 [0] vol_state /\ Device.dev_ok vol /\ big_enough (Device.block_size vol).
Proof.
  destruct vol_ok as [Hok Hz]. change (Device.block_size vol) with (Block.fs_size 2 vol). rewrite Hz.
  split; [|by split; [|vm_compute]]. split; try done. change (Device.block_size vol) with (Block.fs_size 2 vol). rewrite Hz. split; [done|by repeat constructor].
Qed.

Lemma vol_formatted : exists s : state Block.state, abs s (Afs ∅ ∅ ∅) /\ (size (heap s) <= 2)%nat.
Proof.
  destruct vol_booted as (Hb&Hg&Hbig). destruct (proj1 (wp_ok _ _ _) (format_ok 1 vol_state vol 2 [0] Hb Hg Hbig)) as ([]&s&_&Hs). by exists s.
Qed.

Lemma format_correct_witness : wp (filesys_init 1 2 [0] true) (fun _ s' => abs s' (Afs ∅ ∅ ∅)) vol_state.
Proof. destruct vol_booted as (Hb&Hg&Hbig). exact (format_correct 1 vol_state vol 2 [0] Hb Hg Hbig). Defined.

Lemma filesys_refines_witness : exists s : state Block.state, abs s (Afs ∅ ∅ ∅) /\
  wp (run 1 (Create [97; 98] 600)) (fun r s' => exists a', spec (room s) (Afs ∅ ∅ ∅) (Create [97; 98] 600) r a' /\ abs s' a') s.
Proof.
  destruct vol_formatted as (s&Hs&Hz). exists s. split; [exact Hs|]. apply (filesys_refines 1 s (Afs ∅ ∅ ∅)); [exact Hs| |lia].
  split; [|lia]. split_and!; [split; [by repeat constructor|done]|done|simpl; lia].
Defined.

Lemma reboot_durable_witness : exists s : state Block.state, abs s (Afs ∅ ∅ ∅) /\
  wp (filesys_done 1) (fun _ s1 => forall d s0, d = fs_device s \/ d = fs_device s1 -> booted d 2 [0] s0 ->
    wp (filesys_init 1 2 [0] false) (fun _ s' => abs s' (Afs ∅ ∅ ∅)) s0) s.
Proof. destruct vol_formatted as (s&Hs&_). exists s. split; [exact Hs|]. exact (reboot_durable 1 s (Afs ∅ ∅ ∅) 2 [0] Hs). Defined.
End FsMount.
