(* ===== verification/Stdio.v ===== *)
(** * Formatted output: lib/stdio.c

    [__vprintf] and what it calls, for any function that takes the characters.
    A format is the list of its characters up to the null that ends it; to go
    past that null is a fault.  A [va_list] is the list of the 32-bit words on
    the stack; a 64-bit argument takes two of them.  Characters are bytes.

    [vsnprintf] stores into a buffer; [hex_dump] and
    [print_human_readable_size] print through [printf]. *)

From Stdlib Require Import String Ascii.
From S2P Require Import Prelude.
From S2P Require Import Mem.
From S2P Require Import CString.
From S2P Require Import CStdlib.
Local Open Scope Z_scope.

Module Stdio.
Import Mem.

(** The characters of a string literal. *)
Fixpoint chars (s : string) : list Z :=
  match s with EmptyString => [] | String c s' => Z.of_N (N_of_ascii c) :: chars s' end.
Abbreviation ch s := (hd 0 (chars s%string)).

(** A string of the kernel that is to be printed, at address 1. *)
Definition at_one (s : list Z) : mem := Mem.write ∅ 1 (s ++ [0]).

(** ** Conversions *)

Abbreviation MINUS := 1%Z.
Abbreviation PLUS := 2%Z.
Abbreviation SPACE := 4%Z.
Abbreviation POUND := 8%Z.
Abbreviation ZERO := 16%Z.
Abbreviation GROUP := 32%Z.

Inductive size_of := CHAR | SHORT | INT | INTMAX | LONG | LONGLONG | PTRDIFFT | SIZET.

Record printf_conversion := Conv { flags : Z; width : Z; precision : Z; type : size_of }.

Record integer_base := Base { base : Z; digits : list Z; x_char : Z; group : Z }.

Definition base_d : integer_base := Base 10 (chars "0123456789") 0 3.
Definition base_o : integer_base := Base 8 (chars "01234567") 0 3.
Definition base_x : integer_base := Base 16 (chars "0123456789abcdef") (ch "x") 4.
Definition base_X : integer_base := Base 16 (chars "0123456789ABCDEF") (ch "X") 4.

(** [flags & f] and [flags &= ~f]. *)
Definition has (fl f : Z) : bool := negb (Z.land fl f =? 0).
Definition without (fl f : Z) : Z := Z.land fl (u32 (Z.lnot f)).

(** The flag a character stands for. *)
Definition flag_of (c : Z) : option Z :=
  if c =? ch "-" then Some MINUS else if c =? ch "+" then Some PLUS else if c =? ch " " then Some SPACE
  else if c =? ch "#" then Some POUND else if c =? ch "0" then Some ZERO else if c =? ch "'" then Some GROUP else None.

Fixpoint parse_flags (fmt : list Z) (fl : Z) : list Z * Z :=
  match fmt with
  | c :: rest => match flag_of c with Some f => parse_flags rest (Z.lor fl f) | None => (fmt, fl) end
  | [] => (fmt, fl)
  end.

(** The loops that read a field width or a precision. *)
Fixpoint parse_number (fmt : list Z) (n : Z) : list Z * Z :=
  match fmt with
  | c :: rest => if CStdlib.isdigit c then parse_number rest (s32 (s32 (n * 10) + c - 48)) else (fmt, n)
  | [] => (fmt, n)
  end.

Definition parse_type (fmt : list Z) : list Z * size_of :=
  match fmt with
  | c :: rest =>
      if c =? ch "h" then (if hd 0 rest =? ch "h" then (tail rest, CHAR) else (rest, SHORT))
      else if c =? ch "j" then (rest, INTMAX)
      else if c =? ch "l" then (if hd 0 rest =? ch "l" then (tail rest, LONGLONG) else (rest, LONG))
      else if c =? ch "t" then (rest, PTRDIFFT)
      else if c =? ch "z" then (rest, SIZET)
      else (fmt, INT)
  | [] => (fmt, INT)
  end.

(** ** The code *)

Section code.
Context {S : Type} (get_mem : S -> mem) (output : Z -> M S unit).

(** Reading memory. *)
Definition reads {A} (m : M mem A) : M S A :=
  fun s => match m (get_mem s) with Ok (a, _) => Ok (a, s) | Err e => Err e end.

(** [va_arg] for the types of 32 and of 64 bits. *)
Definition va_word (args : list Z) : M S (Z * list Z) :=
  match args with w :: args' => ret (u32 w, args') | [] => fail EFault end.
Definition va_long (args : list Z) : M S (Z * list Z) :=
  let! (lo, args) := va_word args in
  let! (hi, args) := va_word args in
  ret (lo + 2 ^ 32 * hi, args).

Definition parse_conversion (fmt args : list Z) : M S (list Z * printf_conversion * list Z) :=
  let '(fmt, fl) := parse_flags fmt 0 in
  let fl := if has fl MINUS then without fl ZERO else fl in
  let fl := if has fl PLUS then without fl SPACE else fl in
  let! (fmt, w, args) :=
    if hd 0 fmt =? ch "*" then let! (v, args) := va_word args in ret (tail fmt, s32 v, args)
    else ret (parse_number fmt 0, args) in
  let '(w, fl) := if w <? 0 then (s32 (- w), Z.lor fl MINUS) else (w, fl) in
  let! (fmt, p, args) :=
    if hd 0 fmt =? ch "." then
      let fmt := tail fmt in
      let! (fmt, p, args) :=
        if hd 0 fmt =? ch "*" then let! (v, args) := va_word args in ret (tail fmt, s32 v, args)
        else ret (parse_number fmt 0, args) in
      ret (fmt, if p <? 0 then -1 else p, args)
    else ret (fmt, -1, args) in
  let fl := if 0 <=? p then without fl ZERO else fl in
  let '(fmt, ty) := parse_type fmt in
  ret (fmt, Conv fl w p ty, args).

Fixpoint dup_loop (c : Z) (cnt : nat) : M S unit :=
  match cnt with O => ret tt | Datatypes.S n => do! output c in dup_loop c n end.
Definition output_dup (c cnt : Z) : M S unit := dup_loop c (Z.to_nat (u32 cnt)).

(** [*cp++ = c], with [char buf[64]]. *)
Definition push (buf : list Z) (c : Z) : M S (list Z) :=
  if zlen buf <? 64 then ret (buf ++ [c]) else fail EFault.

(** The digits, least significant first; a 64-bit value has at most 64. *)
Fixpoint digit_loop (fuel : nat) (value cnt : Z) (b : integer_base) (fl : Z) (buf : list Z) : M S (list Z) :=
  if value <=? 0 then ret buf else
  match fuel with
  | O => fail EFuel
  | Datatypes.S fuel' =>
      let! buf := if has fl GROUP && (0 <? cnt) && (cnt mod group b =? 0) then push buf (ch ",") else ret buf in
      let! buf := push buf (nth (Z.to_nat (value mod base b)) (digits b) 0) in
      digit_loop fuel' (value / base b) (cnt + 1) b fl buf
  end.

Fixpoint zero_loop (fuel : nat) (p : Z) (buf : list Z) : M S (list Z) :=
  if (zlen buf <? p) && (zlen buf <? 63) then
    match fuel with
    | O => fail EFuel
    | Datatypes.S fuel' => let! buf := push buf 48 in zero_loop fuel' p buf
    end
  else ret buf.

Fixpoint put_all (l : list Z) : M S unit :=
  match l with [] => ret tt | c :: l' => do! output c in put_all l' end.

Definition sign_char (is_signed negative : bool) (fl : Z) : Z :=
  if negb is_signed then 0
  else if has fl PLUS then (if negative then ch "-" else ch "+")
  else if has fl SPACE then (if negative then ch "-" else ch " ")
  else if negative then ch "-" else 0.

Definition format_integer (value : Z) (is_signed negative : bool) (b : integer_base) (c : printf_conversion) : M S unit :=
  let sign := sign_char is_signed negative (flags c) in
  let x := if has (flags c) POUND && negb (value =? 0) then x_char b else 0 in
  let! buf := digit_loop 64 value 0 b (flags c) [] in
  let p := if precision c <? 0 then 1 else precision c in
  let! buf := zero_loop 64 p buf in
  let! buf :=
    if has (flags c) POUND && (base b =? 8) && ((zlen buf =? 0) || negb (List.last buf 0 =? 48)) then push buf 48 else ret buf in
  let pad_cnt := s32 (width c - zlen buf - (if x =? 0 then 0 else 2) - (if sign =? 0 then 0 else 1)) in
  let pad_cnt := if pad_cnt <? 0 then 0 else pad_cnt in
  do! (if Z.land (flags c) (Z.lor MINUS ZERO) =? 0 then output_dup (ch " ") pad_cnt else ret tt) in
  do! (if negb (sign =? 0) then output sign else ret tt) in
  do! (if negb (x =? 0) then do! output 48 in output x else ret tt) in
  do! (if has (flags c) ZERO then output_dup 48 pad_cnt else ret tt) in
  do! put_all (rev buf) in
  if has (flags c) MINUS then output_dup (ch " ") pad_cnt else ret tt.

(** [string] gives the characters by index. *)
Fixpoint string_loop (n : nat) (string : Z -> M S Z) (i : Z) : M S unit :=
  match n with
  | O => ret tt
  | Datatypes.S n' => let! c := string i in do! output c in string_loop n' string (i + 1)
  end.
Definition format_string (string : Z -> M S Z) (length : Z) (c : printf_conversion) : M S unit :=
  do! (if (length <? width c) && negb (has (flags c) MINUS) then output_dup (ch " ") (width c - length) else ret tt) in
  do! string_loop (Z.to_nat length) string 0 in
  if (length <? width c) && has (flags c) MINUS then output_dup (ch " ") (width c - length) else ret tt.

Definition literal (l : list Z) (i : Z) : M S Z := match l !! Z.to_nat i with Some c => ret c | None => fail EFault end.

(** The argument of a signed and of an unsigned conversion. *)
Definition signed_arg (ty : size_of) (args : list Z) : M S (Z * list Z) :=
  match ty with
  | CHAR => let! (v, args) := va_word args in ret (wraps 8 v, args)
  | SHORT => let! (v, args) := va_word args in ret (wraps 16 v, args)
  | INT | LONG | PTRDIFFT => let! (v, args) := va_word args in ret (s32 v, args)
  | INTMAX | LONGLONG => let! (v, args) := va_long args in ret (wraps 64 v, args)
  | SIZET => let! (v, args) := va_word args in ret (if (2 ^ 32 - 1) / 2 <? v then v - (2 ^ 32 - 1) - 1 else v, args)
  end.
Definition unsigned_arg (ty : size_of) (args : list Z) : M S (Z * list Z) :=
  match ty with
  | CHAR => let! (v, args) := va_word args in ret (u8 v, args)
  | SHORT => let! (v, args) := va_word args in ret (u16 v, args)
  | INT | LONG | SIZET => va_word args
  | INTMAX | LONGLONG => va_long args
  | PTRDIFFT => let! (v, args) := va_word args in ret (Z.land (u64 (s32 v)) (Z.lor (Z.shiftl (2 ^ 31 - 1) 1) 1), args)
  end.

Definition base_of (conv : Z) : integer_base :=
  if conv =? ch "o" then base_o else if conv =? ch "u" then base_d else if conv =? ch "x" then base_x else base_X.

(** The switch of [__vprintf]; [nested] prints the messages. *)
Definition convert (nested : list Z -> list Z -> M S unit) (conv : Z) (c : printf_conversion) (args : list Z) : M S (list Z) :=
  if (conv =? ch "d") || (conv =? ch "i") then
    let! (value, args) := signed_arg (type c) args in
    do! format_integer (u64 (if value <? 0 then - value else value)) true (value <? 0) base_d c in
    ret args
  else if (conv =? ch "o") || (conv =? ch "u") || (conv =? ch "x") || (conv =? ch "X") then
    let! (value, args) := unsigned_arg (type c) args in
    do! format_integer value false false (base_of conv) c in
    ret args
  else if conv =? ch "c" then
    let! (v, args) := va_word args in
    do! format_string (literal [u8 v]) 1 c in
    ret args
  else if conv =? ch "s" then
    let! (s, args) := va_word args in
    do! (if s =? NULL then
           let n := Z.min (zlen (chars "(null)")) (u32 (precision c)) in format_string (literal (chars "(null)")) n c
         else
           let! n := reads (CString.strnlen s (u32 (precision c))) in
           format_string (fun i => reads (load (s + i))) (s32 n) c) in
    ret args
  else if conv =? ch "p" then
    let! (p, args) := va_word args in
    do! format_integer p false false base_x (Conv POUND (width c) (precision c) (type c)) in
    ret args
  else if existsb (Z.eqb conv) (chars "feEgGn") then
    do! nested (chars "<<no %%%c in kernel>>") [conv] in ret args
  else
    do! nested (chars "<<no %%%c conversion>>") [conv] in ret args.

(** Every round takes a character of the format. *)
Fixpoint vprintf_loop (nested : list Z -> list Z -> M S unit) (fuel : nat) (fmt args : list Z) : M S unit :=
  match fmt with
  | [] => ret tt
  | c :: rest =>
      match fuel with
      | O => fail EFuel
      | Datatypes.S fuel' =>
          if negb (c =? ch "%") then do! output c in vprintf_loop nested fuel' rest args
          else if hd 0 rest =? ch "%" then do! output (ch "%") in vprintf_loop nested fuel' (tail rest) args
          else
            let! (fmt, c, args) := parse_conversion rest args in
            let! args := convert nested (hd 0 fmt) c args in
            match fmt with
            | [] => fail EFault
            | _ :: fmt => vprintf_loop nested fuel' fmt args
            end
      end
  end.

(** The messages for unknown conversions are printed by [__printf], that is by
    [__vprintf] again; they have no unknown conversions themselves. *)
Definition __printf (fmt args : list Z) : M S unit := vprintf_loop (fun _ _ => fail EFuel) (length fmt) fmt args.
Definition __vprintf (fmt args : list Z) : M S unit := vprintf_loop __printf (length fmt) fmt args.
End code.

(** ** vsnprintf *)

(** [struct vsnprintf_aux], the memory with the buffer, and the memory with
    the strings to print, which the buffer does not overlap. *)
Record vsnprintf_aux := Aux { p : ptr; length : Z; max_length : Z; buffers : mem; strings : mem }.

Definition vsnprintf_helper (c : Z) : M vsnprintf_aux unit :=
  let! a := get in
  let! fits := ret (length a <? max_length a) in
  do! modify (fun a => Aux (p a) (s32 (length a + 1)) (max_length a) (buffers a) (strings a)) in
  if (fits : bool) then
    fun a => match store (p a) c (buffers a) with
             | Ok (_, m) => Ok (tt, Aux (p a + 1) (length a) (max_length a) m (strings a))
             | Err e => Err e
             end
  else ret tt.

(** The result and the memory with the buffer afterwards. *)
Definition vsnprintf (buffer buf_size : Z) (fmt args : list Z) (m strings_ : mem) : res (Z * mem) :=
  let aux := Aux buffer 0 (if 0 <? buf_size then s32 (buf_size - 1) else 0) m strings_ in
  match __vprintf strings vsnprintf_helper fmt args aux with
  | Ok (_, a) =>
      if 0 <? buf_size then
        match store (p a) 0 (buffers a) with Ok (_, m') => Ok (length a, m') | Err e => Err e end
      else Ok (length a, buffers a)
  | Err e => Err e
  end.

(** ** Printing to the console *)

Section console.
Context {S : Type} (get_mem : S -> mem) (vprintf : list Z -> list Z -> M S Z).

(** [vprintf] is that of the kernel or of user programs. *)
Definition printf (fmt : list Z) (args : list Z) : M S Z := vprintf fmt args.
Definition print (fmt : string) (args : list Z) : M S unit := do! printf (chars fmt) args in ret tt.

Fixpoint repeat (n : nat) (m : M S unit) : M S unit := match n with O => ret tt | Datatypes.S n' => do! m in repeat n' m end.

(** The loops of [hex_dump] over the bytes of a line, from [i] to [n] more. *)
Fixpoint hex_bytes (n : nat) (buf start i : Z) : M S unit :=
  match n with
  | O => ret tt
  | Datatypes.S n' =>
      let! b := reads get_mem (load (buf + (i - start))) in
      do! print "%02hhx%c" [b; if i =? 7 then ch "-" else ch " "] in
      hex_bytes n' buf start (i + 1)
  end.
Definition isprint (c : Z) : bool := (32 <=? c) && (c <? 127).
Fixpoint ascii_bytes (n : nat) (buf start i : Z) : M S unit :=
  match n with
  | O => ret tt
  | Datatypes.S n' =>
      let! b := reads get_mem (load (buf + (i - start))) in
      do! print "%c" [if isprint b then b else ch "."] in
      ascii_bytes n' buf start (i + 1)
  end.

Definition hex_line (ofs buf start end_ : Z) (ascii : bool) : M S unit :=
  do! print "%08jx  " [u32 (ofs / 16 * 16); 0] in
  do! repeat (Z.to_nat start) (print "   " []) in
  do! hex_bytes (Z.to_nat (end_ - start)) buf start start in
  do! (if ascii then
         do! repeat (Z.to_nat (16 - end_)) (print "   " []) in
         do! print "|" [] in
         do! repeat (Z.to_nat start) (print " " []) in
         do! ascii_bytes (Z.to_nat (end_ - start)) buf start start in
         do! repeat (Z.to_nat (16 - end_)) (print " " []) in
         print "|" []
       else ret tt) in
  do! printf [10] [] in ret tt.

(** A line takes at least one byte. *)
Fixpoint hex_loop (fuel : nat) (ofs buf size : Z) (ascii : bool) : M S unit :=
  if size <=? 0 then ret tt else
  match fuel with
  | O => fail EFuel
  | Datatypes.S fuel' =>
      let start := ofs mod 16 in
      let end_ := if size <? 16 - start then start + size else 16 in
      let n := end_ - start in
      do! hex_line ofs buf start end_ ascii in
      hex_loop fuel' (u32 (ofs + n)) (u32 (buf + n)) (size - n) ascii
  end.
Definition hex_dump (ofs buf size : Z) (ascii : bool) : M S unit := hex_loop (Z.to_nat size) ofs buf size ascii.

(** The unit and the number to print. *)
Fixpoint scale (factors : list string) (size : Z) : Z * string :=
  match factors with
  | f :: ((_ :: _) as rest) => if 1024 <=? size then scale rest (size / 1024) else (size, f)
  | [f] => (size, f)
  | [] => (size, EmptyString)
  end.

(** [rodata] is where the compiler put a string. *)
Definition print_human_readable_size (rodata : string -> ptr) (size : Z) : M S unit :=
  if size =? 1 then print "1 byte" []
  else let '(n, f) := scale ["bytes"; "kB"; "MB"; "GB"; "TB"]%string size in print "%llu %s" [u32 n; n / 2 ^ 32; rodata f].
End console.
End Stdio.
