(* ===== verification/StdioSpec.v ===== *)
(** * What formatted output produces

    [__vprintf] gives its output function a text that does not depend on what
    the function does with it; [vsnprintf] stores as much of that text as fits.
    An integer conversion prints a numeral that denotes its argument. *)

From Stdlib Require Import String Ascii.
From S2P Require Import Prelude.
From S2P Require Import Mem.
From S2P Require Import CString.
From S2P Require Import CStdlib.
From S2P Require Import Stdio.
Local Open Scope Z_scope.

Module StdioSpec.
Import Mem Stdio.

(** ** The text *)

(** An output function that collects the characters. *)
Abbreviation collected := (mem * list Z)%type.
Definition collect (c : Z) : M collected unit := modify (fun s => (s.1, s.2 ++ [c])).

Definition text (fmt args : list Z) (m : mem) : res (list Z) :=
  match __vprintf fst collect fmt args (m, []) with Ok (_, s) => Ok s.2 | Err e => Err e end.

Create HintDb emits.

Section emits.
Context {S : Type} (gm : S -> mem) (out : Z -> M S unit).
Context (Hout : forall c s s', out c s = Ok (tt, s') -> gm s' = gm s).

Lemma put_all_mem t s s' : put_all out t s = Ok (tt, s') -> gm s' = gm s.
Proof.
  revert s. induction t as [|c t IH]; intros s; cbn [put_all]; [by intros [= <-]|]. unfold bind. destruct (out c s) as [[[] s1]|] eqn:E; [|done].
  intros ->%IH. by eapply Hout.
Qed.

Lemma put_all_app t1 t2 s : put_all out (t1 ++ t2) s = (do! put_all out t1 in put_all out t2) s.
Proof.
  revert s. induction t1 as [|c t1 IH]; intros s; cbn [put_all app]; [done|]. unfold bind in *. destruct (out c s) as [[[] s1]|]; [|done]. apply IH.
Qed.

(** [mc] collects a text, and [ms] puts out the same text. *)
Definition emits {A} (mc : M collected A) (ms : M S A) : Prop :=
  forall s t0 a st, mc (gm s, t0) = Ok (a, st) -> exists t, st = (gm s, t0 ++ t) /\ ms s = (do! put_all out t in ret a) s.

Lemma emits_ret {A} (a : A) : emits (ret a) (ret a).
Proof. intros s t0 b st [= <- <-]. exists []. by rewrite app_nil_r. Qed.

Lemma emits_fail {A} e (ms : M S A) : emits (fail e) ms.
Proof. by intros s t0 b st. Qed.

Lemma emits_bind {A B} mc ms (kc : A -> M collected B) ks : emits mc ms -> (forall a, emits (kc a) (ks a)) -> emits (bind mc kc) (bind ms ks).
Proof.
  intros Hm Hk s t0 b st. unfold bind at 1. destruct (mc (gm s, t0)) as [[a st1]|] eqn:E; [|done].
  destruct (Hm _ _ _ _ E) as (t1&->&Es). intros Ek. unfold bind at 1. rewrite Es. unfold bind at 1.
  destruct (put_all out t1 s) as [[[] s1]|e] eqn:Ep.
  - cbn [ret]. pose proof (put_all_mem _ _ _ Ep) as Em. rewrite <- Em in Ek. destruct (Hk a _ _ _ _ Ek) as (t2&->&Es2). exists (t1 ++ t2).
    rewrite Em, app_assoc. split; [done|]. rewrite Es2. unfold bind. rewrite put_all_app. unfold bind. by rewrite Ep.
  - destruct (Hk a s _ _ _ Ek) as (t2&->&_). exists (t1 ++ t2). rewrite app_assoc. split; [done|]. unfold bind. rewrite put_all_app. unfold bind. by rewrite Ep.
Qed.

Lemma emits_out c : emits (collect c) (out c).
Proof.
  intros s t0 a st [= <- <-]. exists [c]. split; [done|]. cbn [put_all]. unfold bind. by destruct (out c s) as [[[] s1]|].
Qed.

Lemma emits_reads {A} (m : M mem A) : emits (reads fst m) (reads gm m).
Proof.
  intros s t0 a st. unfold reads. cbn [fst]. destruct (m (gm s)) as [[b m']|]; [|done]. intros [= <- <-]. exists []. by rewrite app_nil_r.
Qed.

Lemma emits_if {A} (b : bool) (m1c m2c : M collected A) m1 m2 : emits m1c m1 -> emits m2c m2 -> emits (if b then m1c else m2c) (if b then m1 else m2).
Proof. by destruct b. Qed.

#[local] Hint Resolve emits_ret emits_fail emits_bind emits_out emits_reads emits_if : emits.

Ltac emit := repeat first [solve [auto with emits] | apply emits_bind; [|intros] | apply emits_if | progress case_match | progress intros].

Lemma emits_word args : emits (va_word args) (va_word args).
Proof. destruct args; cbn; auto with emits. Qed.
#[local] Hint Resolve emits_word : emits.
Lemma emits_long args : emits (va_long args) (va_long args).
Proof. unfold va_long. emit. Qed.
#[local] Hint Resolve emits_long : emits.

Lemma emits_parse fmt args : emits (parse_conversion fmt args) (parse_conversion fmt args).
Proof. unfold parse_conversion. emit. Qed.

Lemma emits_dup c n : emits (output_dup collect c n) (output_dup out c n).
Proof. unfold output_dup. generalize (Z.to_nat (u32 n)). intros k. induction k as [|k IH]; cbn [dup_loop]; emit. Qed.

Lemma emits_push buf c : emits (push buf c) (push buf c).
Proof. unfold push. emit. Qed.
#[local] Hint Resolve emits_parse emits_dup emits_push : emits.

Lemma emits_digits fuel v cnt b fl buf : emits (digit_loop fuel v cnt b fl buf) (digit_loop fuel v cnt b fl buf).
Proof. revert v cnt buf. induction fuel as [|fuel IH]; intros v cnt buf; cbn [digit_loop]; emit. Qed.
Lemma emits_zeros fuel q buf : emits (zero_loop fuel q buf) (zero_loop fuel q buf).
Proof. revert buf. induction fuel as [|fuel IH]; intros buf; cbn [zero_loop]; emit. Qed.
Lemma emits_all l : emits (put_all collect l) (put_all out l).
Proof. induction l as [|c l IH]; cbn [put_all]; emit. Qed.
#[local] Hint Resolve emits_digits emits_zeros emits_all : emits.

Lemma emits_integer v sg neg b c : emits (format_integer collect v sg neg b c) (format_integer out v sg neg b c).
Proof. unfold format_integer. emit. Qed.

Lemma emits_string (fc : Z -> M collected Z) fs n c : (forall i, emits (fc i) (fs i)) -> emits (format_string collect fc n c) (format_string out fs n c).
Proof.
  intros Hf. assert (forall k i, emits (string_loop collect k fc i) (string_loop out k fs i)) as Hl by (intros k; induction k as [|k IH]; intros i; cbn [string_loop]; emit).
  unfold format_string. emit.
Qed.

Lemma emits_literal l i : emits (literal l i) (literal l i).
Proof. unfold literal. emit. Qed.
Lemma emits_signed ty args : emits (signed_arg ty args) (signed_arg ty args).
Proof. destruct ty; cbn; emit. Qed.
Lemma emits_unsigned ty args : emits (unsigned_arg ty args) (unsigned_arg ty args).
Proof. destruct ty; cbn; emit. Qed.
#[local] Hint Resolve emits_integer emits_string emits_literal emits_signed emits_unsigned : emits.

Lemma emits_convert nc ns conv c args : (forall f a, emits (nc f a) (ns f a)) -> emits (convert fst collect nc conv c args) (convert gm out ns conv c args).
Proof. intros Hn. unfold convert. emit. Qed.

Lemma emits_loop nc ns fuel fmt args : (forall f a, emits (nc f a) (ns f a)) -> emits (vprintf_loop fst collect nc fuel fmt args) (vprintf_loop gm out ns fuel fmt args).
Proof.
  intros Hn. revert fmt args. induction fuel as [|fuel IH]; intros [|c fmt] args; cbn [vprintf_loop]; try solve [auto with emits].
  pose proof (emits_convert nc ns) as Hc. emit.
Qed.

Lemma emits_vprintf fmt args : emits (__vprintf fst collect fmt args) (__vprintf gm out fmt args).
Proof. unfold __vprintf. apply emits_loop. intros f a. unfold __printf. apply emits_loop. auto with emits. Qed.

(** What is printed does not depend on where it goes. *)
Lemma vprintf_text fmt args s t : text fmt args (gm s) = Ok t -> __vprintf gm out fmt args s = put_all out t s.
Proof.
  unfold text. destruct (__vprintf fst collect fmt args (gm s, [])) as [[[] st]|] eqn:E; [|done]. intros [= <-].
  destruct (emits_vprintf fmt args s [] tt st E) as (t&->&->). unfold bind. cbn. by destruct (put_all out t s) as [[[] ]|].
Qed.
End emits.

(** ** vsnprintf *)

Lemma helper_strings c s s' : vsnprintf_helper c s = Ok (tt, s') -> strings s' = strings s.
Proof.
  unfold vsnprintf_helper, bind, get, ret, modify. cbn. destruct (length s <? max_length s); [|by intros [= <-]]. cbn.
  destruct (store _ _ _) as [[[] m]|]; [|done]. by intros [= <-].
Qed.

Lemma helper_fits c q len mx m st : len < mx -> 0 <= len + 1 < 2 ^ 31 -> is_Some (m !! q) ->
  vsnprintf_helper c (Aux q len mx m st) = Ok (tt, Aux (q + 1) (len + 1) mx (<[q := u8 c]> m) st).
Proof.
  intros Hl Hr [b Hb]. unfold vsnprintf_helper, bind, get, ret, modify. cbn [Stdio.length max_length p buffers strings].
  rewrite (proj2 (Z.ltb_lt _ _) Hl), (wraps_small 32 (len + 1)) by (unfold in_s; lia). unfold store. cbn [Stdio.length max_length p buffers strings]. by rewrite Hb.
Qed.
Lemma helper_full c q len mx m st : mx <= len -> 0 <= len + 1 < 2 ^ 31 -> vsnprintf_helper c (Aux q len mx m st) = Ok (tt, Aux q (len + 1) mx m st).
Proof.
  intros Hl Hr. unfold vsnprintf_helper, bind, get, ret, modify. cbn [Stdio.length max_length p buffers strings].
  by rewrite (proj2 (Z.ltb_ge _ _) Hl), (wraps_small 32 (len + 1)) by (unfold in_s; lia).
Qed.

(** The characters that fit are stored, and all are counted. *)
Lemma put_helper t q len mx m st : 0 <= len -> len + zlen t < 2 ^ 31 ->
  let k := take (Z.to_nat (mx - len)) t in mapped m q (zlen k) ->
  put_all vsnprintf_helper t (Aux q len mx m st) = Ok (tt, Aux (q + zlen k) (len + zlen t) mx (write m q (u8 <$> k)) st).
Proof.
  revert q len m. induction t as [|c t IH]; intros q len m H0 Hlen k Hm; unfold k in *; clear k.
  { rewrite take_nil. cbn. by rewrite !Z.add_0_r. }
  cbn [put_all]. simpl in Hlen. destruct (Z.ltb_spec len mx) as [Hfit|Hfull].
  - replace (Z.to_nat (mx - len)) with (S (Z.to_nat (mx - (len + 1)))) in Hm |- * by lia. cbn [take List.length] in *.
    rewrite (bind_ok _ _ _ _ _ (helper_fits c q len mx m st Hfit ltac:(lia) (Hm q ltac:(lia)))), IH; [|lia|lia|].
    + cbn [fmap list_fmap write]. do 2 f_equal. f_equal; lia.
    + intros x Hx. rewrite lookup_insert_is_Some'. right. apply Hm. lia.
  - rewrite (bind_ok _ _ _ _ _ (helper_full c q len mx m st Hfull ltac:(lia))).
    replace (Z.to_nat (mx - len)) with 0%nat by lia. rewrite IH; [|lia|lia|].
    + replace (Z.to_nat (mx - (len + 1))) with 0%nat by lia. rewrite !take_0. cbn. do 3 f_equal. lia.
    + replace (Z.to_nat (mx - (len + 1))) with 0%nat by lia. rewrite take_0. intros x Hx. cbn in Hx. lia.
Qed.

Lemma vsnprintf_ok m strs buffer size fmt args t : text fmt args strs = Ok t -> 0 <= size < 2 ^ 31 -> zlen t < 2 ^ 31 -> mapped m buffer size ->
  vsnprintf buffer size fmt args m strs =
    Ok (zlen t, if 0 <? size then write m buffer ((u8 <$> take (Z.to_nat (size - 1)) t) ++ [0]) else m).
Proof.
  intros Ht Hs Hl Hm. unfold vsnprintf. rewrite (vprintf_text strings vsnprintf_helper helper_strings _ _ _ t) by done.
  destruct (Z.ltb_spec 0 size) as [Hp|Hz].
  - rewrite (wraps_small 32 (size - 1)) by (unfold in_s; lia). rewrite put_helper; [|lia|lia|].
    + rewrite Z.sub_0_r. set (k := take (Z.to_nat (size - 1)) t). assert (zlen k <= size - 1) as Hk by (unfold k; rewrite length_take; lia).
      cbn [p buffers Stdio.length]. unfold store. destruct (write_mapped m buffer (u8 <$> k) buffer size Hm (buffer + zlen k) ltac:(lia)) as [b ->].
      rewrite write_app, length_fmap. cbn [write]. by rewrite Z.add_0_l.
    + rewrite Z.sub_0_r, length_take. intros x Hx. apply Hm. lia.
  - rewrite put_helper; [|lia|lia|]; change (Z.to_nat (0 - 0)) with 0%nat; rewrite take_0; [done|]. intros x Hx. cbn in Hx. lia.
Qed.

(** ** Integers *)

(** A numeral, least significant digit first. *)
Inductive denotes (b : integer_base) : list Z -> Z -> Prop :=
  | den_nil : denotes b [] 0
  | den_cons d ds v : 0 <= d < base b -> denotes b ds v -> denotes b (nth (Z.to_nat d) (digits b) 0 :: ds) (d + base b * v).

Definition good (b : integer_base) : Prop := b = base_d \/ b = base_o \/ b = base_x \/ b = base_X.

Lemma good_base b : good b -> 8 <= base b /\ nth 0 (digits b) 0 = 48 /\ 0 < group b.
Proof. intros Hb. by destruct Hb as [->|[->|[->| ->]]]; cbn; lia. Qed.

Lemma denotes_zeros b ds v n : good b -> denotes b ds v -> denotes b (ds ++ replicate n 48) v.
Proof.
  intros Hb. destruct (good_base b Hb) as (H8&H0&_). induction 1 as [|d ds v Hd _ IH]; cbn [app]; [|by constructor].
  induction n as [|n IHn]; cbn [replicate]; [constructor|]. pose proof (den_cons b 0 _ _ ltac:(lia) IHn) as Hc. change (Z.to_nat 0) with 0%nat in Hc.
  by rewrite H0, Z.mul_0_r in Hc.
Qed.

(** A digit other than zero. *)
Definition leading (b : integer_base) (c : option Z) : Prop := exists d, 0 < d < base b /\ c = Some (nth (Z.to_nat d) (digits b) 0).

Lemma digit_inj b d e : good b -> 0 <= d < base b -> 0 <= e < base b -> nth (Z.to_nat d) (digits b) 0 = nth (Z.to_nat e) (digits b) 0 -> d = e.
Proof.
  intros Hb Hd He E. assert (NoDup (digits b) /\ zlen (digits b) = base b) as [Hn Hl].
  { destruct Hb as [->|[->|[->| ->]]]; (split; [apply (bool_decide_unpack _); by vm_compute|done]). }
  destruct (lookup_lt_is_Some_2 (digits b) (Z.to_nat d)) as [x Hx]; [lia|]. destruct (lookup_lt_is_Some_2 (digits b) (Z.to_nat e)) as [y Hy]; [lia|].
  rewrite (nth_lookup_Some _ _ _ _ Hx), (nth_lookup_Some _ _ _ _ Hy) in E. subst y. pose proof (NoDup_lookup _ _ _ _ Hn Hx Hy). lia.
Qed.

(** A number with a leading digit is at least that power of the base. *)
Lemma denotes_big b ds v : good b -> denotes b ds v -> leading b (last ds) -> base b ^ (zlen ds - 1) <= v.
Proof.
  intros Hb Hd. destruct (good_base b Hb) as (H8&_&_). induction Hd as [|d ds v Hr Hd IH]; [by intros (?&_&?)|]. destruct ds as [|y ds].
  - inversion Hd. subst. intros (d'&Hd'&E). injection E as E. apply (digit_inj b) in E; [|done|lia|lia]. cbn. lia.
  - rewrite last_cons_cons. intros Hl. specialize (IH Hl). cbn [List.length] in *.
    replace (Z.of_nat (S (S (List.length ds))) - 1) with (Z.succ (Z.of_nat (S (List.length ds)) - 1)) by lia. rewrite Z.pow_succ_r by lia. nia.
Qed.

(** The digits, least significant first, with a comma after every [g] of them
    that more digits follow. *)
Inductive grouped (g : Z) : list Z -> list Z -> Prop :=
  | gr_last ds : zlen ds <= g -> grouped g ds ds
  | gr_more a ds out : zlen a = g -> ds <> [] -> grouped g ds out -> grouped g (a ++ ds) (a ++ ch "," :: out).

(** The commas as the loop places them, [cnt] digits in. *)
Fixpoint place (on : bool) (g cnt : Z) (ds : list Z) : list Z :=
  match ds with
  | [] => []
  | d :: ds => (if on && (0 <? cnt) && (cnt mod g =? 0) then [ch ","] else []) ++ d :: place on g (cnt + 1) ds
  end.

Lemma place_off g cnt ds : place false g cnt ds = ds.
Proof. revert cnt. induction ds as [|d ds IH]; intros cnt; cbn; [done|]. by rewrite IH. Qed.

Lemma place_len on g cnt ds : zlen (place on g cnt ds) <= 2 * zlen ds.
Proof. revert cnt. induction ds as [|d ds IH]; intros cnt; cbn [place]; [done|]. rewrite length_app. specialize (IH (cnt + 1)). destruct (_ && _); cbn [List.length] in *; lia. Qed.

Lemma place_first g cnt a ds : 0 <= cnt -> cnt + zlen a <= g -> place true g cnt (a ++ ds) = a ++ place true g (cnt + zlen a) ds.
Proof.
  revert cnt. induction a as [|d a IH]; intros cnt H0 Hg; cbn [app place List.length] in *; [by rewrite Z.add_0_r|].
  rewrite IH by lia. replace (true && (0 <? cnt) && (cnt mod g =? 0)) with false.
  - cbn [app]. do 3 f_equal. lia.
  - symmetry. destruct (Z.ltb_spec 0 cnt); [|done]. rewrite Z.mod_small by lia. by rewrite (proj2 (Z.eqb_neq _ _)) by lia.
Qed.

Lemma place_shift g cnt ds : 0 < g -> 0 < cnt -> place true g (g + cnt) ds = place true g cnt ds.
Proof.
  intros Hg. revert cnt. induction ds as [|d ds IH]; intros cnt Hc; cbn [place]; [done|].
  rewrite <- Z.add_assoc, IH by lia. rewrite !(proj2 (Z.ltb_lt 0 _)) by lia. replace ((g + cnt) mod g) with (cnt mod g); [done|].
  by rewrite <- Zplus_mod_idemp_l, Z_mod_same_full.
Qed.

Lemma place_grouped g ds : 0 < g -> grouped g ds (place true g 0 ds).
Proof.
  intros Hg. remember (List.length ds) as n eqn:Hn. revert ds Hn. induction (lt_wf n) as [n _ IH]. intros ds ->.
  destruct (decide (zlen ds <= g)) as [Hle|Hgt].
  - pose proof (place_first g 0 ds [] ltac:(lia) ltac:(lia)) as E. rewrite !app_nil_r in E. rewrite E. by constructor.
  - set (a := take (Z.to_nat g) ds). assert (zlen a = g) as Ha by (unfold a; rewrite length_take; lia).
    assert (exists d r, drop (Z.to_nat g) ds = d :: r) as (d&r&Er).
    { destruct (drop (Z.to_nat g) ds) as [|d r] eqn:E; [|by exists d, r]. apply (f_equal List.length) in E. rewrite length_drop in E. cbn in E. lia. }
    rewrite <- (take_drop (Z.to_nat g) ds). fold a. rewrite Er, (place_first g 0 a (d :: r)) by lia. rewrite Ha, Z.add_0_l.
    cbn [place]. rewrite (proj2 (Z.ltb_lt 0 g)), Z_mod_same_full by lia. cbn [andb Z.eqb app]. rewrite place_shift by lia.
    apply gr_more; [done|done|]. apply (IH (List.length (d :: r))); [|done]. rewrite <- Er, length_drop. lia.
Qed.

Lemma digit_ok {T} b fl : good b -> forall n fuel v cnt buf (s : T), 0 <= v < 8 ^ Z.of_nat n -> (n <= fuel)%nat -> zlen buf + 2 * Z.of_nat n <= 63 ->
  exists ds, digit_loop fuel v cnt b fl buf s = Ok (buf ++ place (has fl GROUP) (group b) cnt ds, s) /\ denotes b ds v /\ zlen ds <= Z.of_nat n /\
    (v = 0 /\ ds = [] \/ leading b (last ds)).
Proof.
  intros Hb. destruct (good_base b Hb) as (H8&_&_). induction n as [|n IH]; intros fuel v cnt buf s Hv Hf Hl.
  - assert (v = 0) as -> by (cbn in Hv; lia). exists []. cbn. rewrite app_nil_r. split_and!; [by destruct fuel|constructor|lia|by left].
  - destruct fuel as [|fuel]; [lia|]. cbn [digit_loop]. destruct (Z.leb_spec v 0) as [Hz|Hp].
    { assert (v = 0) as -> by lia. exists []. cbn. rewrite app_nil_r. split_and!; [done|constructor|lia|by left]. }
    set (comma := has fl GROUP && (0 <? cnt) && (cnt mod group b =? 0)). set (dg := nth (Z.to_nat (v mod base b)) (digits b) 0).
    pose proof (Z.mod_pos_bound v (base b) ltac:(lia)) as Hm. set (pre := if comma then [ch ","] else []).
    assert ((let! buf := if comma then push buf (ch ",") else ret buf in push buf dg) s = Ok (buf ++ pre ++ [dg], s)) as Epush.
    { unfold pre, bind, push. destruct comma; cbn [ret]; [|by rewrite (proj2 (Z.ltb_lt _ _)) by lia].
      rewrite (proj2 (Z.ltb_lt _ _)) by lia. cbn [ret]. rewrite (proj2 (Z.ltb_lt _ _)) by (rewrite length_app; simpl; lia). by rewrite <- app_assoc. }
    destruct (IH fuel (v / base b) (cnt + 1) (buf ++ pre ++ [dg]) s) as (ds&Eo&Hd&Hlo&Hlead).
    { split; [by apply Z.div_pos; lia|]. apply Z.div_lt_upper_bound; [lia|]. rewrite Nat2Z.inj_succ, Z.pow_succ_r in Hv by lia. nia. }
    { lia. }
    { rewrite !length_app. unfold pre. destruct comma; cbn [List.length]; lia. }
    exists (dg :: ds). split_and!.
    + unfold bind in Epush |- *. destruct (_ s) as [[b1 s1]|]; [|done]. rewrite Epush, Eo. cbn [place]. fold comma pre. by rewrite <- !app_assoc.
    + rewrite (Z.div_mod v (base b)) by lia. rewrite Z.add_comm. by constructor.
    + cbn [List.length]. lia.
    + right. destruct Hlead as [[E ->]|(d&Hdr&Hlast)].
      * exists (v mod base b). split; [|done]. pose proof (Z.div_mod v (base b) ltac:(lia)). lia.
      * exists d. split; [done|]. destruct ds as [|x ds]; [done|]. by rewrite last_cons_cons.
Qed.

(** Zeros up to the precision, at most 63 digits. *)
Lemma pad_zeros_ok {T} fuel q buf (s : T) : zlen buf <= 63 -> 63 <= zlen buf + Z.of_nat fuel ->
  zero_loop fuel q buf s = Ok (buf ++ replicate (Z.to_nat (Z.min q 63 - zlen buf)) 48, s).
Proof.
  revert buf. induction fuel as [|fuel IH]; intros buf Hl Hf; cbn [zero_loop].
  - rewrite (proj2 (Z.ltb_ge (zlen buf) 63)), andb_false_r by lia. replace (Z.to_nat _) with 0%nat by lia. by rewrite app_nil_r.
  - destruct (Z.ltb_spec (zlen buf) q), (Z.ltb_spec (zlen buf) 63); cbn [andb].
    2-4: (replace (Z.to_nat _) with 0%nat by lia; by rewrite app_nil_r).
    unfold bind, push. rewrite (proj2 (Z.ltb_lt _ _)) by lia. cbn [ret]. rewrite IH by (rewrite length_app; simpl; lia).
    rewrite <- app_assoc, length_app. cbn [List.length app]. do 3 f_equal.
    replace (Z.to_nat (Z.min q 63 - zlen buf)) with (S (Z.to_nat (Z.min q 63 - (zlen buf + 1)))) by lia. cbn [replicate]. do 2 f_equal. lia.
Qed.

(** The numeral for [v], most significant digit first: the digits of [v]
    without leading zeros, grouped on demand; as many zeros before them as the
    precision asks for, which is 1 if none is given and at most 63; and one more
    for the alternative form in base 8, unless there is one already. *)
Definition numeral (b : integer_base) (c : printf_conversion) (v : Z) (body : list Z) : Prop :=
  exists ds out, denotes b ds v /\ (v = 0 /\ ds = [] \/ leading b (last ds)) /\
    (if has (flags c) GROUP then grouped (group b) ds out else out = ds) /\
    let p := if precision c <? 0 then 1 else precision c in
    let padded := replicate (Z.to_nat (Z.min p 63 - zlen out)) 48 ++ rev out in
    body = (if has (flags c) POUND && (base b =? 8) && negb (bool_decide (head padded = Some 48)) then [48] else []) ++ padded.

(** [pad] characters more fill the field. *)
Definition field (c : printf_conversion) (lead body : list Z) : list Z :=
  let pad := Z.to_nat (Z.max 0 (width c - zlen lead - zlen body)) in
  replicate (if Z.land (flags c) (Z.lor MINUS ZERO) =? 0 then pad else 0) (ch " ") ++ lead ++
  replicate (if has (flags c) ZERO then pad else 0) 48 ++ body ++ replicate (if has (flags c) MINUS then pad else 0) (ch " ").

(** The sign: a minus for negative numbers; a plus or a blank for others if
    asked for; none in unsigned conversions. *)
Definition sign_of (is_signed negative : bool) (fl : Z) : list Z :=
  if negb is_signed then [] else if negative then chars "-" else if has fl PLUS then chars "+" else if has fl SPACE then chars " " else [].
(** The prefix of numbers other than zero in the alternative form of base 16. *)
Definition prefix_of (v : Z) (b : integer_base) (fl : Z) : list Z :=
  if has fl POUND && (base b =? 16) && (0 <? v) then [ch "0"; x_char b] else [].
Definition lead_of (v : Z) (is_signed negative : bool) (b : integer_base) (c : printf_conversion) : list Z :=
  sign_of is_signed negative (flags c) ++ prefix_of v b (flags c).

Lemma head_rev (l : list Z) : head (rev l) = last l.
Proof. destruct l as [|x l _] using rev_ind; [done|]. by rewrite rev_app_distr, last_snoc. Qed.
Lemma last_of (l : list Z) x : l <> [] -> List.last l 0 = x -> last l = Some x.
Proof. destruct l as [|y l _] using rev_ind; [done|]. intros _. rewrite List.last_last, last_snoc. by intros ->. Qed.

(** The buffer of [format_integer]. *)
Lemma numeral_ok {T} v b c (s : T) : good b -> in_u 64 v ->
  exists body, (let! buf := digit_loop 64 v 0 b (flags c) [] in
    let! buf := zero_loop 64 (if precision c <? 0 then 1 else precision c) buf in
    if has (flags c) POUND && (base b =? 8) && ((zlen buf =? 0) || negb (List.last buf 0 =? 48)) then push buf 48 else ret buf) s = Ok (rev body, s) /\
    numeral b c v body /\ zlen body <= 64.
Proof.
  intros Hb Hv. destruct (good_base b Hb) as (_&_&Hg). destruct (digit_ok b (flags c) Hb 22 64 v 0 [] s) as (ds&Eo&Hd&Hl&Hlead); [unfold in_u in Hv; lia|lia|cbn; lia|].
  set (q := if precision c <? 0 then 1 else precision c). set (out := place (has (flags c) GROUP) (group b) 0 ds) in *.
  assert (zlen out <= 44) as Hlo by (pose proof (place_len (has (flags c) GROUP) (group b) 0 ds); unfold out; lia).
  assert (if has (flags c) GROUP then grouped (group b) ds out else out = ds) as Hout.
  { unfold out. destruct (has (flags c) GROUP); [by apply place_grouped|apply place_off]. }
  set (n := Z.to_nat (Z.min q 63 - zlen out)). set (padded := replicate n 48 ++ rev out).
  assert (out ++ replicate n 48 = rev padded) as Epad by (unfold padded; rewrite rev_app_distr, rev_involutive; f_equal; symmetry; rewrite rev_alt; apply reverse_replicate).
  assert (zlen padded <= 63) as Hpl by (unfold padded, n; rewrite length_app, length_replicate, length_rev; lia).
  unfold bind. rewrite Eo. cbn [app]. fold q. rewrite pad_zeros_ok by lia. fold n. rewrite Epad.
  assert ((zlen (rev padded) =? 0) || negb (List.last (rev padded) 0 =? 48) = negb (bool_decide (head padded = Some 48))) as Eoct.
  { rewrite length_rev. destruct padded as [|x l]; [done|]. cbn [rev head List.length]. rewrite List.last_last. rewrite (proj2 (Z.eqb_neq _ 0)) by lia. cbn [orb].
    f_equal. destruct (Z.eqb_spec x 48) as [->|]; [by rewrite bool_decide_eq_true_2|rewrite bool_decide_eq_false_2; [done|congruence]]. }
  rewrite Eoct. exists ((if has (flags c) POUND && (base b =? 8) && negb (bool_decide (head padded = Some 48)) then [48] else []) ++ padded).
  split_and!; [|exists ds, out; done|rewrite length_app; destruct (_ && _ && _); cbn [List.length]; lia].
  destruct (_ && _ && _); [|done]. unfold push. rewrite length_rev, (proj2 (Z.ltb_lt _ _)) by lia. done.
Qed.

(** Without precision, grouping and alternative form. *)
Lemma numeral_plain b c v body : good b -> numeral b c v body -> has (flags c) GROUP = false -> has (flags c) POUND = false -> precision c < 0 ->
  denotes b (rev body) v /\ 1 <= zlen body /\ (v = 0 -> body = [48]) /\ (v <> 0 -> leading b (head body)).
Proof.
  intros Hb (ds&out&Hd&Hlead&Hout&->) HG HP Hp. rewrite HG in Hout. subst out. rewrite HP, (proj2 (Z.ltb_lt _ _) Hp). cbn [andb app].
  destruct ds as [|d ds].
  - assert (v = 0) as -> by (by inversion Hd). change (Z.to_nat (Z.min 1 63 - zlen (@nil Z))) with 1%nat. cbn. split_and!; [|lia|done|done].
    apply (denotes_zeros b [] 0 1 Hb). constructor.
  - replace (Z.to_nat _) with 0%nat by (cbn [List.length]; lia). cbn [replicate app]. rewrite rev_involutive, length_rev.
    destruct Hlead as [[_ ?]|Hlead]; [done|]. split_and!; [done|cbn [List.length]; lia| |intros _; by rewrite head_rev].
    intros ->. pose proof (denotes_big b _ _ Hb Hd Hlead) as Hbig. destruct (good_base b Hb) as (?&_&_).
    pose proof (Z.pow_pos_nonneg (base b) (zlen (d :: ds) - 1)). cbn [List.length] in *. lia.
Qed.

Lemma bind3 {T A B C D} (m1 : M T A) (m2 : A -> M T B) (m3 : B -> M T C) (k : C -> M T D) s r s' :
  (let! a := m1 in let! b := m2 a in m3 b) s = Ok (r, s') -> (let! a := m1 in let! b := m2 a in let! c := m3 b in k c) s = k r s'.
Proof. unfold bind. destruct (m1 s) as [[a s1]|]; [|done]. destruct (m2 a s1) as [[b s2]|]; [|done]. by intros ->. Qed.

Lemma bind_cong {T B} (m m' : M T unit) (k k' : M T B) s : m s = m' s -> (forall s', k s' = k' s') -> (do! m in k) s = (do! m' in k') s.
Proof. intros E Hk. unfold bind. rewrite E. destruct (m' s) as [[[] s']|]; [|done]. apply Hk. Qed.

Lemma dup_eq {T} (output : Z -> M T unit) k n s : dup_loop output k n s = put_all output (replicate n k) s.
Proof. revert s. induction n as [|n IH]; intros s; [done|]. cbn [dup_loop replicate put_all]. by apply bind_cong. Qed.

Lemma put_one {T} (output : Z -> M T unit) k s : put_all output [k] s = output k s.
Proof. cbn [put_all]. unfold bind. by destruct (output k s) as [[[] s']|]. Qed.

(** The code chooses the sign and the prefix by characters, 0 for none. *)
Lemma sign_eq is_signed negative fl : sign_of is_signed negative fl =
  let sign := sign_char is_signed negative fl in if sign =? 0 then [] else [sign].
Proof. unfold sign_of, sign_char. by destruct is_signed, negative, (has fl PLUS), (has fl SPACE). Qed.
Lemma prefix_eq v b fl : good b -> in_u 64 v -> prefix_of v b fl =
  let x := if has fl POUND && negb (v =? 0) then x_char b else 0 in if x =? 0 then [] else [48; x].
Proof.
  intros Hb Hv. unfold prefix_of, in_u in *. destruct (has fl POUND); [|done]. cbn [andb].
  replace (0 <? v) with (negb (v =? 0)) by (destruct (Z.eqb_spec v 0), (Z.ltb_spec 0 v); (done || lia)).
  by destruct Hb as [->|[->|[->| ->]]], (v =? 0).
Qed.

Lemma format_integer_ok {T} (output : Z -> M T unit) v is_signed negative b c s : good b -> in_u 64 v -> 0 <= width c < 2 ^ 31 ->
  exists body, numeral b c v body /\
    format_integer output v is_signed negative b c s = put_all output (field c (lead_of v is_signed negative b c) body) s.
Proof.
  intros Hb Hv Hw. destruct (numeral_ok v b c s Hb Hv) as (body&Eb&Hn&Hr). exists body. split; [done|].
  unfold format_integer. rewrite (bind3 _ _ _ _ _ _ _ Eb). cbv zeta. rewrite length_rev, rev_involutive.
  set (sign := sign_char is_signed negative (flags c)). set (x := if has (flags c) POUND && negb (v =? 0) then x_char b else 0).
  set (pad := Z.max 0 (width c - zlen (lead_of v is_signed negative b c) - zlen body)).
  assert (lead_of v is_signed negative b c = (if sign =? 0 then [] else [sign]) ++ (if x =? 0 then [] else [48; x])) as Elead.
  { unfold lead_of. f_equal; [apply sign_eq|by apply prefix_eq]. }
  assert (zlen (lead_of v is_signed negative b c) = (if x =? 0 then 0 else 2) + (if sign =? 0 then 0 else 1)) as El.
  { rewrite Elead, length_app. destruct (sign =? 0), (x =? 0); cbn [List.length]; lia. }
  assert (0 <= zlen (lead_of v is_signed negative b c) <= 3) as El3 by (rewrite El; destruct (sign =? 0), (x =? 0); lia).
  rewrite (wraps_small 32) by (unfold in_s; destruct (sign =? 0), (x =? 0); lia).
  match goal with |- context [output_dup output _ ?q] => assert (q = pad) as -> by (unfold pad; rewrite El; destruct (Z.ltb_spec (width c - zlen body - (if x =? 0 then 0 else 2) - (if sign =? 0 then 0 else 1)) 0); destruct (sign =? 0), (x =? 0); lia) end.
  assert (forall (d : bool) k s', (if d then output_dup output k pad else ret tt) s' = put_all output (replicate (if d then Z.to_nat pad else 0) k) s') as Hdup.
  { intros [] k s'; [|done]. unfold output_dup. rewrite wrapu_small by (unfold in_u, pad; lia). apply dup_eq. }
  unfold field. fold pad. rewrite Elead. rewrite <- (app_assoc (if sign =? 0 then [] else [sign])).
  rewrite !put_all_app. apply bind_cong; [apply Hdup|]. intros s1. rewrite put_all_app. apply bind_cong; [by destruct (sign =? 0); cbn [negb]; [|symmetry; apply put_one]|].
  intros s2. rewrite put_all_app. apply bind_cong; [destruct (x =? 0); cbn [negb]; [done|]; apply bind_cong; [done|]; intros s3; symmetry; apply put_one|].
  intros s3. rewrite put_all_app. apply bind_cong; [apply Hdup|]. intros s4. rewrite put_all_app. apply bind_cong; [done|]. intros s5. apply Hdup.
Qed.

(** C38. An integer conversion gives, whatever is done with the characters, a
    field of at least the width asked for: first the sign, as the flags say, or
    0x, then the numeral for the value in the base of the conversion, that is
    its digits without leading zeros, a comma after every group of them counted
    from the right if grouping is asked for, and exactly as many zeros before
    them as the precision asks for.  The buffer of 64 characters is always large
    enough. *)
Theorem format_integer_correct {T} (output : Z -> M T unit) v is_signed negative b c s : good b -> in_u 64 v -> 0 <= width c < 2 ^ 31 ->
  exists body, numeral b c v body /\
    format_integer output v is_signed negative b c s = put_all output (field c (lead_of v is_signed negative b c) body) s.
Proof. apply format_integer_ok. Qed.

Lemma collect_all t s : put_all collect t s = Ok (tt, (s.1, s.2 ++ t)).
Proof.
  revert s. induction t as [|c t IH]; intros [m l]; cbn [put_all]; [by cbn; rewrite app_nil_r|]. unfold bind, collect at 1, modify. rewrite IH. cbn. by rewrite <- app_assoc.
Qed.

(** ** Printing and reading back *)

Lemma dec_digit d : 0 <= d < 10 -> nth (Z.to_nat d) (digits base_d) 0 = 48 + d.
Proof. intros Hd. assert (d ∈ [0; 1; 2; 3; 4; 5; 6; 7; 8; 9]) as Hin by (rewrite !elem_of_cons; lia). by repeat (apply elem_of_cons in Hin as [->|Hin]; [done|]); apply elem_of_nil in Hin. Qed.

Lemma denotes_decimal ds v : denotes base_d ds v -> Forall (fun c => CStdlib.isdigit c = true) ds /\ CStdlib.decimal (rev ds) = v.
Proof.
  induction 1 as [|d ds v Hd _ [IH1 IH2]]; [done|]. cbn [base base_d] in *. rewrite dec_digit by done. split.
  - constructor; [|done]. unfold CStdlib.isdigit. lia.
  - cbn [rev]. unfold CStdlib.decimal in *. rewrite fold_left_app. cbn [fold_left]. rewrite IH2. lia.
Qed.

(** The digits of the bases 8 and 10. *)
Definition plain_digits (b : integer_base) : Prop := forall d, 0 <= d < base b -> nth (Z.to_nat d) (digits b) 0 = 48 + d.
Lemma plain_o : plain_digits base_o.
Proof. intros d Hd. cbn in Hd. assert (d ∈ [0; 1; 2; 3; 4; 5; 6; 7]) as Hin by (rewrite !elem_of_cons; lia). by repeat (apply elem_of_cons in Hin as [->|Hin]; [done|]); apply elem_of_nil in Hin. Qed.

Lemma vprintf_d {T} (gm : T -> mem) out w s :
  __vprintf gm out (chars "%d") [w] s =
  format_integer out (u64 (if s32 (u32 w) <? 0 then - s32 (u32 w) else s32 (u32 w))) true (s32 (u32 w) <? 0) base_d (Conv 0 0 (-1) INT) s.
Proof.
  assert (parse_conversion [100] [w] s = Ok (([100], Conv 0 0 (-1) INT, [w]), s)) as Ep by reflexivity.
  unfold __vprintf. change (chars "%d") with [37; 100]. cbn [vprintf_loop List.length]. change (negb (37 =? ch "%")) with false. change (hd 0 [100] =? ch "%") with false.
  cbv iota. rewrite (bind_ok _ _ _ _ _ Ep). cbn [hd vprintf_loop]. unfold convert. change ((100 =? ch "d") || (100 =? ch "i")) with true. cbv iota.
  cbn [signed_arg Stdio.type va_word]. unfold bind, ret. by destruct (format_integer _ _ _ _ _ _ _) as [[[] s']|].
Qed.

(** What %d prints. *)
Lemma text_d v m : in_s 32 v -> exists ds, text (chars "%d") [u32 v] m = Ok ((if v <? 0 then [ch "-"] else []) ++ ds) /\
  Forall (fun c => CStdlib.isdigit c = true) ds /\ CStdlib.decimal ds = Z.abs v /\ 1 <= zlen ds <= 10 /\ (head ds = Some 48 -> ds = [48]).
Proof.
  intros Hv. assert (s32 (u32 (u32 v)) = v) as Ev.
  { rewrite (wrapu_small 32 (u32 v)) by (unfold in_u, wrapu; zlia). unfold wraps, wrapu, in_s in *. cbv zeta. case_match; zlia. }
  assert (u64 (if v <? 0 then - v else v) = Z.abs v) as Ea by (unfold in_s in Hv; destruct (Z.ltb_spec v 0); rewrite wrapu_small by (unfold in_u; lia); lia).
  destruct (format_integer_ok collect (Z.abs v) true (v <? 0) base_d (Conv 0 0 (-1) INT) (m, [])) as (ds&Hn&E); [by left|unfold in_u, in_s in *; lia|cbn; lia|].
  destruct (numeral_plain base_d (Conv 0 0 (-1) INT) (Z.abs v) ds ltac:(by left) Hn eq_refl eq_refl ltac:(cbn; lia)) as (Hden&Hlen&Hzero&Hlead).
  destruct (denotes_decimal _ _ Hden) as [Hf Hd]. rewrite rev_involutive in Hd. apply Forall_rev in Hf. rewrite rev_involutive in Hf.
  exists ds. split_and!; [|done|done|done| |].
  - unfold text. rewrite vprintf_d, Ev, Ea, E. unfold field. cbn [width flags]. change (Z.land 0 (Z.lor MINUS ZERO) =? 0) with true. change (has 0 ZERO) with false. change (has 0 MINUS) with false.
    cbv iota.
    match goal with |- context [Z.to_nat (Z.max 0 ?q)] => replace (Z.to_nat (Z.max 0 q)) with 0%nat by lia end. cbn [replicate app]. rewrite app_nil_r. rewrite collect_all. cbn [snd app].
    unfold lead_of, prefix_of, sign_of. cbn [flags]. change (has 0 POUND) with false. cbn [andb negb]. change (has 0 PLUS) with false. change (has 0 SPACE) with false. cbv iota.
    by destruct (v <? 0).
  - destruct (decide (v = 0)) as [->|Hz]; [by rewrite (Hzero eq_refl)|]. specialize (Hlead ltac:(lia)). rewrite <- (rev_involutive ds), head_rev in Hlead.
    pose proof (denotes_big _ _ _ ltac:(by left) Hden Hlead) as Hb. rewrite length_rev in Hb. cbn [base base_d] in Hb.
    destruct (decide (zlen ds <= 10)); [done|]. pose proof (Z.pow_le_mono_r 10 10 (zlen ds - 1) ltac:(lia) ltac:(lia)). unfold in_s in Hv. lia.
  - intros H0. destruct (decide (v = 0)) as [->|Hz]; [by apply Hzero|]. destruct (Hlead ltac:(lia)) as (d&Hd1&Hd2). rewrite H0 in Hd2.
    rewrite dec_digit in Hd2 by (cbn in Hd1; lia). assert (48 = 48 + d) by congruence. lia.
Qed.

(** ** The text of a format, piece by piece *)

(** More fuel than needed changes nothing. *)
Lemma loop_fuel {T} (gm : T -> mem) out nested fuel : forall fmt args s r,
  vprintf_loop gm out nested fuel fmt args s = Ok r -> vprintf_loop gm out nested (S fuel) fmt args s = Ok r.
Proof.
  induction fuel as [|fuel IH]; intros [|c fmt] args s r; try done. remember (S fuel) as k. cbn [vprintf_loop]. subst k.
  intros H. cbn [vprintf_loop] in H. unfold bind in *. repeat case_match; try done; by apply IH.
Qed.

Lemma collect_text rest args m l t : text rest args m = Ok t -> vprintf_loop fst collect (__printf fst collect) (List.length rest) rest args (m, l) = Ok (tt, (m, l ++ t)).
Proof.
  unfold text, __vprintf. destruct (vprintf_loop _ _ _ (List.length rest) rest args (m, [])) as [[[] st]|] eqn:E; [|done]. intros [= <-].
  destruct (emits_vprintf fst collect (fun _ s s' H => ltac:(by injection H as <-)) rest args (m, l) [] tt st E) as (t&->&E').
  etrans; [exact E'|]. unfold bind. by rewrite collect_all.
Qed.

(** A character that stands for itself. *)
Lemma text_char k rest args m t : k <> ch "%" -> text rest args m = Ok t -> text (k :: rest) args m = Ok (k :: t).
Proof.
  intros Hk Ht. unfold text, __vprintf. cbn [List.length vprintf_loop]. rewrite (proj2 (Z.eqb_neq _ _) Hk). cbn [negb].
  rewrite (bind_ok _ _ _ tt (m, [k])) by done. by rewrite (collect_text rest args m [k] t Ht).
Qed.
Lemma text_chars ks rest args m t : Forall (fun k => k <> ch "%") ks -> text rest args m = Ok t -> text (ks ++ rest) args m = Ok (ks ++ t).
Proof. intros Hk Ht. induction Hk as [|k ks Hk _ IH]; [done|]. by apply text_char. Qed.

(** A conversion without flags, width, precision and type. *)
Lemma text_conv conv rest args args' m s t : conv <> ch "%" ->
  parse_conversion (conv :: rest) args (m, @nil Z) = Ok ((conv :: rest, Conv 0 0 (-1) INT, args), (m, [])) ->
  convert fst collect (__printf fst collect) conv (Conv 0 0 (-1) INT) args (m, []) = Ok (args', (m, s)) ->
  text rest args' m = Ok t -> text (ch "%" :: conv :: rest) args m = Ok (s ++ t).
Proof.
  intros Hc Ep Ec Ht. unfold text, __vprintf. change (List.length (ch "%" :: conv :: rest)) with (S (S (List.length rest))).
  remember (S (List.length rest)) as k. cbn [vprintf_loop]. subst k. change (negb (ch "%" =? ch "%")) with false. cbn [hd].
  rewrite (proj2 (Z.eqb_neq _ _) Hc), (bind_ok _ _ _ _ _ Ep), (bind_ok _ _ _ _ _ Ec). by rewrite (loop_fuel _ _ _ _ _ _ _ _ (collect_text rest args' m s t Ht)).
Qed.

Lemma collect_string m p s : forall i l, bytes_at m (p + i) s ->
  string_loop collect (List.length s) (fun i => reads fst (load (p + i))) i (m, l) = Ok (tt, (m, l ++ s)).
Proof.
  induction s as [|c s IH]; intros i l Hs; cbn [string_loop List.length]; [by rewrite app_nil_r|]. destruct Hs as (E&_&Hs).
  unfold bind, reads, load. cbn [fst]. rewrite E. unfold collect at 1, modify. cbn [fst snd].
  fold (reads (S := collected) fst (A := Z)). rewrite <- Z.add_assoc in Hs. specialize (IH (i + 1) (l ++ [c]) Hs). rewrite <- app_assoc in IH. exact IH.
Qed.

(** %s prints the string. *)
Lemma text_s m p s rest args t : mem_ok m -> str_at m p s -> zlen s < 2 ^ 31 -> text rest args m = Ok t ->
  text (37 :: 115 :: rest) (p :: args) m = Ok (s ++ t).
Proof.
  intros Hm Hs Hl Ht. destruct (mem_ok_str _ _ _ Hm Hs) as [Hp0 Hp1]. apply (text_conv 115 rest (p :: args) args m s t); [done|done| |done].
  unfold convert. change ((115 =? ch "d") || (115 =? ch "i")) with false. change (_ || (115 =? ch "X")) with false.
  change (115 =? ch "c") with false. change (115 =? ch "s") with true. cbv iota. unfold va_word.
  rewrite (bind_ok _ _ _ (u32 p, args) (m, [])), wrapu_small by (done || unfold in_u; lia). rewrite (proj2 (Z.eqb_neq p NULL)) by lia.
  unfold bind. unfold reads at 1. cbn [fst precision]. change (u32 (-1)) with (2 ^ 32 - 1). rewrite (CString.strnlen_eq m p s) by (done || lia).
  rewrite Z.min_l by lia. rewrite wraps_small by (unfold in_s; lia). unfold format_string, bind. cbn [width flags].
  rewrite (proj2 (Z.ltb_ge (zlen s) 0)) by lia. cbn [andb ret]. rewrite Nat2Z.id, collect_string; [done|]. apply str_bytes in Hs as [Hs _]. apply bytes_at_app in Hs as [Hs _]. by rewrite Z.add_0_r.
Qed.

Lemma at_one_ok nm : Forall (fun c => 0 < c < 256) nm -> zlen nm < 2 ^ 31 -> mem_ok (at_one nm) /\ str_at (at_one nm) 1 nm.
Proof.
  intros Hn Hl. split.
  - intros q b. unfold at_one. rewrite lookup_write. case_decide as Hq; [|by rewrite lookup_empty]. rewrite length_app in Hq. cbn in Hq. intros _. lia.
  - apply str_bytes. split.
    + apply write_bytes_at, Forall_app. split; [|repeat constructor; unfold in_u; lia]. eapply Forall_impl; [done|]. unfold in_u. lia.
    + rewrite Forall_forall in Hn. intros H0%Hn. lia.
Qed.

(** The decimal numeral of [v], without superfluous zeros. *)
Definition decimal_text (v : Z) (t : list Z) : Prop :=
  exists ds, t = (if v <? 0 then chars "-" else []) ++ ds /\ Forall (fun c => CStdlib.isdigit c = true) ds /\ CStdlib.decimal ds = Z.abs v /\
    ds <> [] /\ (head ds = Some 48 -> ds = [48]).

(** %d prints it. *)
Lemma text_decimal v m : in_s 32 v -> exists d, decimal_text v d /\ zlen d <= 11 /\
  forall rest args t, text rest args m = Ok t -> text (37 :: 100 :: rest) (u32 v :: args) m = Ok (d ++ t).
Proof.
  intros Hv. destruct (text_d v m Hv) as (ds&Et&Hf&Hd&Hl&Hz). exists ((if v <? 0 then [ch "-"] else []) ++ ds). split_and!.
  - exists ds. split_and!; [done..| |done]. intros ->. cbn in Hl. lia.
  - rewrite length_app. destruct (v <? 0); cbn [List.length]; lia.
  - intros rest args t Ht. apply (text_conv 100 rest (u32 v :: args) args m _ t); [done|done| |done]. revert Et. unfold text. rewrite vprintf_d.
    unfold convert. change ((100 =? ch "d") || (100 =? ch "i")) with true. cbv iota. cbn [signed_arg type va_word]. unfold bind, ret.
    destruct (format_integer_ok collect (u64 (if s32 (u32 (u32 v)) <? 0 then - s32 (u32 (u32 v)) else s32 (u32 (u32 v)))) true (s32 (u32 (u32 v)) <? 0) base_d (Conv 0 0 (-1) INT) (m, [])) as (body&_&->);
      [by left|apply wrapu_in; lia|cbn; lia|]. rewrite collect_all. cbn [fst snd app]. by intros [= ->].
Qed.

(** ** Termination *)

Lemma strnlen_fuel m p maxlen fuel k : mem_ok m -> mapped m p k -> 0 <= k < 2 ^ 32 -> (Z.to_nat k + fuel >= fuel_of m)%nat ->
  CString.strnlen_loop fuel p maxlen k m <> Err EFuel.
Proof.
  intros Hm. revert k. induction fuel as [|fuel IH]; intros k Hp Hk Hf.
  - pose proof (mapped_fuel m p (Z.to_nat k) ltac:(by rewrite Z2Nat.id by lia)). lia.
  - cbn [CString.strnlen_loop]. unfold bind, load. destruct (m !! (p + k)) as [x|] eqn:E; [|done]. case_match; [|done].
    assert (k + 1 < 2 ^ 32) as Hk1.
    { destruct (decide (k + 1 < 2 ^ 32)); [done|]. pose proof (mem_ok_lookup m (p + k) Hm ltac:(eauto)). pose proof (mem_ok_lookup m p Hm (Hp p ltac:(lia))). lia. }
    rewrite wrapu_small by (unfold in_u; lia). apply IH; [|lia|lia]. intros q Hq. destruct (decide (q = p + k)) as [->|]; [eauto|]. apply Hp. lia.
Qed.

(** Whatever it does, [m] does not run out of steps, and leaves the strings. *)
Section returns.
Context (strs : mem) (Hstrs : mem_ok strs).

Definition returns {A} (P : A -> Prop) (m : M collected A) : Prop :=
  forall l, match m (strs, l) with Ok (a, s) => s.1 = strs /\ P a | Err e => e <> EFuel end.

Lemma returns_ret {A} (P : A -> Prop) a : P a -> returns P (ret a).
Proof. by intros ? l. Qed.
Lemma returns_fail {A} (P : A -> Prop) e : e <> EFuel -> returns P (fail e).
Proof. by intros ? l. Qed.
Lemma returns_bind {A B} (Q : A -> Prop) (P : B -> Prop) m k : returns Q m -> (forall a, Q a -> returns P (k a)) -> returns P (bind m k).
Proof.
  intros Hm Hk l. specialize (Hm l). unfold bind. destruct (m (strs, l)) as [[a [st l']]|]; [|done]. destruct Hm as [E Hq]. cbn in E. subst st. by apply Hk.
Qed.
Lemma returns_out c : returns (fun _ => True) (collect c).
Proof. by intros l. Qed.

Abbreviation runs := (returns (fun _ => True)).
Ltac run := repeat first [assumption | apply returns_out | apply returns_ret; done | apply returns_fail; done | eapply (returns_bind (fun _ => True)); [|intros ? _] | progress case_match].

Lemma returns_word args : returns (fun r => in_u 32 r.1) (va_word args).
Proof. destruct args as [|w args]; cbn; [by apply returns_fail|]. apply returns_ret. unfold in_u, wrapu. cbn. zlia. Qed.
Lemma runs_word args : runs (va_word args).
Proof. destruct args; cbn; run. Qed.
Lemma returns_long args : returns (fun r => in_u 64 r.1) (va_long args).
Proof.
  eapply returns_bind; [apply returns_word|]. intros [lo a1] H1. eapply returns_bind; [apply returns_word|]. intros [hi a2] H2.
  apply returns_ret. unfold in_u in *. cbn in *. lia.
Qed.
Lemma runs_signed ty args : runs (signed_arg ty args).
Proof.
  assert (runs (va_long args)) as Hl by (unfold va_long; run; apply runs_word). pose proof (runs_word args) as Hw. destruct ty; cbn; run.
Qed.
Lemma returns_unsigned ty args : returns (fun r => in_u 64 r.1) (unsigned_arg ty args).
Proof.
  assert (forall w, in_u 32 w -> in_u 64 w) as Hu by (unfold in_u; lia).
  assert (forall k : Z -> Z, (forall v, in_u 32 v -> in_u 64 (k v)) -> returns (fun r => in_u 64 r.1) (let! (v, a) := va_word args in ret (k v, a))) as Hk.
  { intros k Hk. eapply returns_bind; [apply returns_word|]. intros [v a] Hv. apply returns_ret. by apply Hk. }
  destruct ty; cbn [unsigned_arg].
  - apply Hk. intros v _. unfold in_u, wrapu. zlia.
  - apply Hk. intros v _. unfold in_u, wrapu. zlia.
  - intros l. pose proof (returns_word args l) as H. case_match; [|done]. case_match. naive_solver.
  - apply returns_long.
  - intros l. pose proof (returns_word args l) as H. case_match; [|done]. case_match. naive_solver.
  - apply returns_long.
  - apply (Hk (fun v => Z.land (u64 (s32 v)) (Z.lor (Z.shiftl (2 ^ 31 - 1) 1) 1))). intros v _. change (Z.lor (Z.shiftl (2 ^ 31 - 1) 1) 1) with (Z.ones 32). rewrite Z.land_ones by lia. unfold in_u. zlia.
  - intros l. pose proof (returns_word args l) as H. case_match; [|done]. case_match. naive_solver.
Qed.

Lemma runs_dup c n : runs (output_dup collect c n).
Proof. unfold output_dup. generalize (Z.to_nat (u32 n)). intros k. induction k as [|k IH]; cbn [dup_loop]; run. Qed.
Lemma runs_all l : runs (put_all collect l).
Proof. induction l as [|c l IH]; cbn [put_all]; run. Qed.

Lemma runs_integer v sg neg b c : good b -> in_u 64 v -> runs (format_integer collect v sg neg b c).
Proof.
  intros Hb Hv l. destruct (numeral_ok v b c (strs, l) Hb Hv) as (body&Eb&_&_). unfold format_integer. rewrite (bind3 _ _ _ _ _ _ _ Eb). cbv zeta.
  match goal with |- match ?m (strs, l) with _ => _ end => enough (runs m) as H by exact (H l) end.
  pose proof runs_dup as Hd. pose proof runs_all as Ha. run; auto.
Qed.

Lemma runs_string f n c : (forall i, runs (f i)) -> runs (format_string collect f n c).
Proof.
  intros Hf. assert (forall k i, runs (string_loop collect k f i)) as Hl by (intros k; induction k as [|k IH]; intros i; cbn [string_loop]; run; auto).
  pose proof runs_dup as Hd. unfold format_string. run; auto.
Qed.

Lemma runs_reads {A} (m : M mem A) : m strs <> Err EFuel -> runs (reads fst m).
Proof. intros Hm l. unfold reads. cbn. destruct (m strs) as [[a s]|e]; [done|]. congruence. Qed.

Lemma runs_convert nested conv c args : (forall f, f ∈ [chars "<<no %%%c in kernel>>"; chars "<<no %%%c conversion>>"] -> runs (nested f [conv])) ->
  runs (convert fst collect nested conv c args).
Proof.
  intros Hn. unfold convert. case_match; [|case_match; [|case_match; [|case_match; [|case_match; [|case_match]]]]].
  - eapply returns_bind; [apply runs_signed|]. intros [v a] _. eapply returns_bind; [apply runs_integer; [by left|apply wrapu_in; lia]|]. run.
  - eapply returns_bind; [apply returns_unsigned|]. intros [v a] Hv. eapply returns_bind; [apply runs_integer; [|done]|run]. unfold base_of, good. repeat case_match; auto.
  - eapply returns_bind; [apply runs_word|]. intros [v a] _. eapply returns_bind; [apply runs_string; intros; unfold literal; run|run].
  - eapply returns_bind; [apply runs_word|]. intros [v a] _. eapply returns_bind; [|run]. case_match; [apply runs_string; intros; unfold literal; run|].
    eapply returns_bind; [apply runs_reads|].
    + unfold CString.strnlen. rewrite (bind_ok _ _ _ (fuel_of strs) strs) by done. apply strnlen_fuel; [done|intros ?; lia|lia|lia].
    + intros n _. apply runs_string. intros i. apply runs_reads. unfold load. by case_match.
  - eapply returns_bind; [apply returns_word|]. intros [v a] Hv. eapply returns_bind; [apply runs_integer; [unfold good; auto|unfold in_u in *; cbn in Hv; lia]|run].
  - eapply returns_bind; [apply Hn; set_solver|run].
  - eapply returns_bind; [apply Hn; set_solver|run].
Qed.

Lemma parse_flags_len fmt fl : (List.length (parse_flags fmt fl).1 <= List.length fmt)%nat.
Proof. revert fl. induction fmt as [|c fmt IH]; intros fl; cbn [parse_flags]; [done|]. case_match; [|done]. etrans; [apply IH|]. cbn. lia. Qed.
Lemma parse_number_len fmt n : (List.length (parse_number fmt n).1 <= List.length fmt)%nat.
Proof. revert n. induction fmt as [|c fmt IH]; intros n; cbn [parse_number]; [done|]. case_match; [|done]. etrans; [apply IH|]. cbn. lia. Qed.
Lemma parse_type_len fmt : (List.length (parse_type fmt).1 <= List.length fmt)%nat.
Proof. unfold parse_type. repeat case_match; subst; cbn [fst List.length tail]; try lia; destruct l; cbn; lia. Qed.

(** A width or a precision: the characters left of [fmt], and the number. *)
Lemma returns_field fmt args : returns (fun r => (List.length r.1.1 <= List.length fmt)%nat)
  (if hd 0 fmt =? ch "*" then let! (v, args) := va_word args in ret (tail fmt, s32 v, args) else ret (parse_number fmt 0, args)).
Proof.
  case_match; [|by apply returns_ret, parse_number_len]. eapply returns_bind; [apply runs_word|]. intros [v a] _. apply returns_ret. destruct fmt; cbn; lia.
Qed.

Lemma returns_parse fmt args : returns (fun r => (List.length r.1.1 <= List.length fmt)%nat) (parse_conversion fmt args).
Proof.
  unfold parse_conversion. pose proof (parse_flags_len fmt 0) as Hf. destruct (parse_flags fmt 0) as [f1 fl]. cbn [fst] in Hf.
  eapply returns_bind; [apply returns_field|]. intros [[f2 w] a2] H2. cbn [fst] in H2. destruct (if w <? 0 then _ else _) as [w' fl'].
  eapply (returns_bind (fun r => (List.length r.1.1 <= List.length f2)%nat)).
  - case_match; [|by apply returns_ret]. eapply returns_bind; [apply returns_field|]. intros [[f3 q] a3] H3. apply returns_ret. cbn in *. destruct f2; cbn in *; lia.
  - intros [[f3 q] a3] H3. cbn [fst] in H3. pose proof (parse_type_len f3) as H4. destruct (parse_type f3) as [f4 ty]. apply returns_ret. cbn in *. lia.
Qed.

Lemma runs_loop nested fuel fmt args :
  (forall conv f, f ∈ [chars "<<no %%%c in kernel>>"; chars "<<no %%%c conversion>>"] -> runs (nested f [conv])) -> (List.length fmt <= fuel)%nat ->
  runs (vprintf_loop fst collect nested fuel fmt args).
Proof.
  intros Hn. revert fmt args. induction fuel as [|fuel IH]; intros [|c fmt] args Hf; cbn [vprintf_loop List.length] in *; try lia; [by apply returns_ret..|].
  assert (forall f a, (List.length f <= List.length fmt)%nat -> runs (vprintf_loop fst collect nested fuel f a)) as IH' by (intros; apply IH; lia).
  case_match; [run; by apply IH'|]. case_match; [run; apply IH'; destruct fmt; cbn; lia|].
  eapply returns_bind; [apply returns_parse|]. intros [[f2 c2] a2] H2. cbn [fst] in H2. eapply returns_bind; [by apply runs_convert; intros; apply Hn|]. intros a3 _.
  destruct f2; [by apply returns_fail|]. apply IH'. cbn in H2. lia.
Qed.

Lemma runs_message conv f : f ∈ [chars "<<no %%%c in kernel>>"; chars "<<no %%%c conversion>>"] -> runs (__printf fst collect f [conv]).
Proof. intros [->|[->|[]%not_elem_of_nil]%elem_of_cons]%elem_of_cons l; vm_compute; done. Qed.

(** Printing takes finitely many steps, whatever the format and the arguments. *)
Lemma text_terminates fmt args : text fmt args strs <> Err EFuel.
Proof.
  unfold text. pose proof (runs_loop _ (List.length fmt) fmt args runs_message ltac:(done) []) as H. unfold __vprintf.
  destruct (vprintf_loop _ _ _ _ _ _ _) as [[]|e]; congruence.
Qed.

Lemma runs_vprintf fmt args : runs (__vprintf fst collect fmt args).
Proof. apply runs_loop; [apply runs_message|done]. Qed.

Lemma runs_load q : runs (reads fst (load q)).
Proof. apply runs_reads. unfold load. by case_match. Qed.

Section hex.
Context (vprintf : list Z -> list Z -> M collected Z) (Hv : forall fmt args, runs (vprintf fmt args)).

Lemma runs_print fmt args : runs (print vprintf fmt args).
Proof. unfold print, printf. eapply returns_bind; [apply Hv|]. intros a _. by apply returns_ret. Qed.
Lemma runs_repeat n fmt args : runs (Stdio.repeat n (print vprintf fmt args)).
Proof. induction n as [|n IH]; cbn [Stdio.repeat]; [by apply returns_ret|]. eapply returns_bind; [apply runs_print|by intros]. Qed.

Create HintDb runs.
#[local] Hint Resolve runs_print runs_load runs_repeat : runs.
#[local] Opaque print.
Ltac line := repeat first [solve [auto with runs] | eapply (returns_bind (fun _ => True)); [|intros ? _]].

Lemma runs_hex n b st i : runs (hex_bytes fst vprintf n b st i).
Proof. revert i. induction n as [|n IH]; intros i; cbn [hex_bytes]; [by apply returns_ret|]. line. Qed.
Lemma runs_ascii n b st i : runs (ascii_bytes fst vprintf n b st i).
Proof. revert i. induction n as [|n IH]; intros i; cbn [ascii_bytes]; [by apply returns_ret|]. line. Qed.
#[local] Hint Resolve runs_hex runs_ascii : runs.

Lemma runs_line ofs b st e ascii : runs (hex_line fst vprintf ofs b st e ascii).
Proof.
  unfold hex_line. eapply returns_bind; [apply runs_print|intros _ _]. eapply returns_bind; [apply runs_repeat|intros _ _]. eapply returns_bind; [apply runs_hex|intros _ _].
  eapply (returns_bind (fun _ => True)); [destruct ascii; [line|by apply returns_ret]|]. intros _ _.
  eapply returns_bind; [apply Hv|]. intros. by apply returns_ret.
Qed.

(** [hex_dump] ends: every line takes a byte at least. *)
Lemma hex_dump_terminates ofs buf size ascii : runs (hex_dump fst vprintf ofs buf size ascii).
Proof.
  unfold hex_dump. assert (size <= Z.of_nat (Z.to_nat size)) as Hs by lia. revert Hs. generalize (Z.to_nat size). intros fuel. revert ofs buf size.
  induction fuel as [|fuel IH]; intros ofs buf size Hs; cbn [hex_loop]; (destruct (Z.leb_spec size 0); [by apply returns_ret|]); [lia|]. cbv zeta.
  eapply returns_bind; [apply runs_line|]. intros _ _. apply IH. destruct (Z.ltb_spec size (16 - ofs mod 16)); zlia.
Qed.
End hex.
End returns.

(** C23. Printing into a buffer takes finitely many steps for every format and
    every list of arguments, and if the text is [t], then [vsnprintf] returns
    the length of [t], stores as many of its characters as leave room for a
    terminator, stores the terminator, and changes nothing else; with an empty
    buffer it stores nothing. *)
Theorem vsnprintf_correct m strs buffer size fmt args : mem_ok strs -> 0 <= size < 2 ^ 31 -> mapped m buffer size ->
  text fmt args strs <> Err EFuel /\
  forall t, text fmt args strs = Ok t -> zlen t < 2 ^ 31 ->
  vsnprintf buffer size fmt args m strs =
    Ok (zlen t, if 0 <? size then write m buffer ((u8 <$> take (Z.to_nat (size - 1)) t) ++ [0]) else m).
Proof. intros Hs Hz Hm. split; [by apply text_terminates|]. intros t Ht Hl. by apply vsnprintf_ok. Qed.

Lemma mem_ok_write bs : forall m p, mem_ok m -> mapped m p (zlen bs) -> mem_ok (write m p bs).
Proof.
  induction bs as [|b bs IH]; intros m p Hm Hp; [done|]. cbn [write]. cbn [List.length] in Hp. apply IH; [apply mem_ok_insert; [done|apply Hp; lia]|].
  intros q Hq. rewrite lookup_insert_is_Some'. right. apply Hp. lia.
Qed.

(** Printable text written with its terminator is that string. *)
Lemma write_text m p t : Forall (fun c => 0 < c < 256) t -> str_at (write m p ((u8 <$> t) ++ [0])) p t.
Proof.
  intros Ht. assert (u8 <$> t = t) as ->.
  { induction Ht as [|c t Hc _ IH]; [done|]. cbn. rewrite IH, wrapu_small by (unfold in_u; lia). done. }
  apply str_bytes. rewrite Forall_forall in Ht. split; [|intros H0; specialize (Ht 0 H0); lia]. apply write_bytes_at, Forall_app. split; [|repeat constructor; unfold in_u; lia].
  apply Forall_forall. intros c Hc. specialize (Ht c Hc). unfold in_u. lia.
Qed.

(** C39. Printing an [int] with %d into a buffer of 12 bytes and reading it
    back with [atoi] gives the same number. *)
Theorem print_parse m strs buffer v : in_s 32 v -> mem_ok m -> mapped m buffer 12 ->
  exists n m', vsnprintf buffer 12 (chars "%d") [u32 v] m strs = Ok (n, m') /\ CStdlib.atoi buffer m' = Ok (v, m').
Proof.
  intros Hv Hm Hb. destruct (text_d v strs Hv) as (ds&Ht&Hf&Hd&Hl&_). set (t := (if v <? 0 then [ch "-"] else []) ++ ds) in *.
  assert (zlen t <= 11) as Hlt by (unfold t; rewrite length_app; destruct (v <? 0); cbn [List.length]; lia).
  assert (Forall (fun c => 0 < c < 256) t) as Hc.
  { apply Forall_app. split; [destruct (v <? 0); repeat constructor; cbn; lia|]. eapply Forall_impl; [exact Hf|]. intros c. unfold CStdlib.isdigit. cbn beta. lia. }
  exists (zlen t), (write m buffer ((u8 <$> t) ++ [0])). split.
  - rewrite (vsnprintf_ok _ _ _ _ _ _ t) by (done || lia). cbn [Z.ltb Z.compare]. rewrite take_ge by lia. done.
  - assert (mem_ok (write m buffer ((u8 <$> t) ++ [0]))) as Hm'.
    { apply mem_ok_write; [done|]. intros q. rewrite length_app, length_fmap. cbn [List.length]. intros Hq. apply Hb. lia. }
    pose proof (write_text m buffer t Hc) as Hs.
    destruct (CStdlib.atoi_correct (write m buffer ((u8 <$> t) ++ [0])) buffer [] (if v <? 0 then [45] else []) ds []) as [_ H].
    + done.
    + by rewrite app_nil_r.
    + done.
    + destruct (v <? 0); set_solver.
    + by intros ->; cbn in Hl; lia.
    + done.
    + done.
    + rewrite Hd in H. destruct (Z.ltb_spec v 0); [rewrite decide_True in H by done|rewrite decide_False in H by done].
      * replace (- Z.abs v) with v in H by lia. by apply H.
      * replace (Z.abs v) with v in H by lia. by apply H.
Qed.

(** ** Concrete runs *)

Definition ex_buffer : mem := write ∅ 100 (replicate 12 1).
Definition ex_strings : mem := write ∅ 500 (chars "ok" ++ [0]).

Lemma ex_mapped n : n <= 12 -> mapped ex_buffer 100 n.
Proof.
  intros Hn q Hq. unfold ex_buffer. rewrite lookup_write. cbn [List.length replicate]. rewrite decide_True by (cbn; lia).
  destruct (decide (q < 112)); [|lia]. apply lookup_lt_is_Some. cbn. lia.
Qed.

(** The output [-7 0x2a ok] is cut to the ten characters that fit. *)
Lemma vsnprintf_correct_witness :
  text (chars "%d %#x %3s") [u32 (-7); 42; 500] ex_strings = Ok (chars "-7 0x2a  ok") /\
  vsnprintf 100 11 (chars "%d %#x %3s") [u32 (-7); 42; 500] ex_buffer ex_strings =
    Ok (11, write ex_buffer 100 (chars "-7 0x2a  o" ++ [0])).
Proof.
  split; [by vm_compute|].
  destruct (vsnprintf_correct ex_buffer ex_strings 100 11 (chars "%d %#x %3s") [u32 (-7); 42; 500]) as [_ H].
  - apply (bool_decide_unpack _). vm_compute. exact I.
  - lia.
  - by apply ex_mapped.
  - rewrite (H (chars "-7 0x2a  ok")) by (by vm_compute). reflexivity.
Defined.

(** Thirty-one in hexadecimal, in a field of eight; and with commas. *)
Lemma grouped_example : format_integer collect 1234567 true true base_d (Conv GROUP 0 (-1) INT) (∅, []) = Ok (tt, (∅, chars "-1,234,567")).
Proof. by vm_compute. Qed.
Lemma format_integer_correct_witness :
  exists body, numeral base_x (Conv (Z.lor POUND ZERO) 8 (-1) INT) 31 body /\
    format_integer collect 31 false false base_x (Conv (Z.lor POUND ZERO) 8 (-1) INT) (ex_strings, []) =
      put_all collect (field (Conv (Z.lor POUND ZERO) 8 (-1) INT) (lead_of 31 false false base_x (Conv (Z.lor POUND ZERO) 8 (-1) INT)) body) (ex_strings, []).
Proof.
  apply (format_integer_correct collect 31 false false base_x (Conv (Z.lor POUND ZERO) 8 (-1) INT) (ex_strings, [])).
  - right. right. by left.
  - unfold in_u. lia.
  - cbn. lia.
Defined.

(** The least [int] needs all twelve bytes. *)
Lemma print_parse_witness :
  exists n m', vsnprintf 100 12 (chars "%d") [u32 (- 2 ^ 31)] ex_buffer ex_strings = Ok (n, m') /\ CStdlib.atoi 100 m' = Ok (- 2 ^ 31, m').
Proof.
  apply (print_parse ex_buffer ex_strings 100 (- 2 ^ 31)).
  - unfold in_s. lia.
  - apply (bool_decide_unpack _). vm_compute. exact I.
  - by apply ex_mapped.
Defined.
End StdioSpec.
