(* ===== verification/Syscall.v ===== *)
(** * System calls: userprog/syscall.c

    The handler of interrupt 0x30, run on behalf of a process.  The state is
    the file system, the memory of the process as its page directory maps it
    and the bytes of it in read-only pages, its file descriptors, the keyboard,
    the console and the name of its thread.  An access of the kernel to an address the process has
    not mapped, or a store to a read-only one, is a fault in the kernel, which
    panics it ([page_fault], userprog/exception.c).  A call may end the process
    ([Exited]) or switch the machine off ([Off]). *)

From Stdlib Require Import String.
From S2P Require Import Prelude.
From S2P Require Import Mem.
From S2P Require Import Words.
From S2P Require Import Vaddr.
From S2P Require Import Device.
From S2P Require Import Fs.
From S2P Require Import Directory.
From S2P Require Import Stdio.
Local Open Scope Z_scope.

Module Syscall.
Import Mem Words Fs Directory.

(** ** The state *)

Record kstate {dev : Type} := K {
  files : state dev;
  umem : mem;
  read_only : gset ptr;
  file_descriptors : list (Z * ptr);
  next_fd : Z;
  keys : list Z;
  console : list Z;
  name : list Z }.
Arguments kstate dev : clear implicits.
Arguments K {dev}.

(** How a call ends. *)
Inductive flow (A : Type) :=
  | Go (a : A)
  | Exited (status : Z)
  | Off.
Arguments Go {A} a.
Arguments Exited {A} status.
Arguments Off {A}.

Abbreviation MAX_FDS := 130%Z.

Section monad.
Context {dev : Type}.

Definition X (A : Type) : Type := M (kstate dev) (flow A).
Definition go {A} (a : A) : X A := ret (Go a).
Definition xbind {A B} (m : X A) (k : A -> X B) : X B :=
  let! r := m in match r with Go a => k a | Exited st => ret (Exited st) | Off => ret Off end.
Definition call {A} (m : M (kstate dev) A) : X A := let! a := m in go a.

Definition set_files x (s : kstate dev) : kstate dev := K x (umem s) (read_only s) (file_descriptors s) (next_fd s) (keys s) (console s) (name s).
Definition set_umem x (s : kstate dev) : kstate dev := K (files s) x (read_only s) (file_descriptors s) (next_fd s) (keys s) (console s) (name s).
Definition set_fds x (s : kstate dev) : kstate dev := K (files s) (umem s) (read_only s) x (next_fd s) (keys s) (console s) (name s).
Definition set_next_fd x (s : kstate dev) : kstate dev := K (files s) (umem s) (read_only s) (file_descriptors s) x (keys s) (console s) (name s).
Definition set_keys x (s : kstate dev) : kstate dev := K (files s) (umem s) (read_only s) (file_descriptors s) (next_fd s) x (console s) (name s).
Definition set_console x (s : kstate dev) : kstate dev := K (files s) (umem s) (read_only s) (file_descriptors s) (next_fd s) (keys s) x (name s).

Definition on_files {A} (m : M (state dev) A) : M (kstate dev) A := zoom files set_files m.
Definition on_mem {A} (m : M mem A) : M (kstate dev) A := zoom umem set_umem m.
End monad.
Arguments X dev A : clear implicits.

Notation "'let^' x := m 'in' k" := (xbind m (fun x => k))
  (at level 10, x pattern, m at level 100, k at level 200) : pintos_scope.
Notation "'do^' m 'in' k" := (xbind m (fun _ => k))
  (at level 10, m at level 100, k at level 200) : pintos_scope.

(** ** Memory of the process *)

(** The [n] bytes at [p]. *)
Fixpoint get_buffer (n : nat) (p : ptr) : M mem (list Z) :=
  match n with
  | O => ret []
  | S n' => let! b := load p in let! bs := get_buffer n' (p + 1) in ret (b :: bs)
  end.

(** The string at [p]. *)
Fixpoint get_string (fuel : nat) (p : ptr) : M mem (list Z) :=
  match fuel with
  | O => fail EFuel
  | S fuel' => let! c := load p in if c =? 0 then ret [] else let! s := get_string fuel' (p + 1) in ret (c :: s)
  end.
Definition string_at (p : ptr) : M mem (list Z) := let! m := get in get_string (fuel_of m) p.

(** Storing bytes; the kernel faults on a read-only page (CR0.WP is set). *)
Definition put_byte {dev} (p : ptr) (b : Z) : M (kstate dev) unit :=
  let! ro := gets read_only in if decide (p ∈ ro) then fail EFault else on_mem (store p b).
Fixpoint put_buffer {dev} (p : ptr) (bs : list Z) : M (kstate dev) unit :=
  match bs with
  | [] => ret tt
  | b :: bs' => do! put_byte p b in put_buffer (p + 1) bs'
  end.

Section code.
Context {dev : Type} `{!Device.Device dev} `{!Device.Allocator} (cur : Z).
(** What the handler asks of process.c and timer.c. *)
Context (process_execute : list Z -> M (kstate dev) Z) (process_wait : Z -> M (kstate dev) Z) (timer_msleep : Z -> M (kstate dev) unit).

(** ** Ending a process *)

(** The loop of [process_exit] over the open files. *)
Fixpoint close_files (l : list (Z * ptr)) : M (state dev) unit :=
  match l with
  | [] => ret tt
  | (_, f) :: l' => do! file_close cur f in close_files l'
  end.

(** The message of [process_exit], with the status that [exit] has stored. *)
Definition put_console (c : Z) : M (kstate dev) unit := modify (fun s => set_console (console s ++ [c]) s).
Definition exit_message (status : Z) : M (kstate dev) unit :=
  Stdio.__vprintf (fun s => Stdio.at_one (name s)) put_console (Stdio.chars "%s: exit(%d)" ++ [10]) [1; u32 status].

Definition exit {A} (status : Z) : X dev A :=
  do! exit_message status in
  let! l := gets file_descriptors in
  do! on_files (close_files l) in
  ret (Exited status).

Definition halt {A} : X dev A := ret Off.

(** ** Checking pointers *)

Definition validate_pointer (p : ptr) : X dev unit :=
  if p =? NULL then exit (-1) else
  if Vaddr.is_kernel_vaddr p then exit (-1) else
  let! m := gets umem in
  match m !! p with None => exit (-1) | Some _ => go tt end.

(** Pointers [p], [p + 1], ... [n] in all. *)
Fixpoint validate_range (n : nat) (p : ptr) : X dev unit :=
  match n with
  | O => go tt
  | S n' => do^ validate_pointer (u32 p) in validate_range n' (p + 1)
  end.
Definition validate_set_args (esp : ptr) (amount : Z) : X dev unit := validate_range (Z.to_nat (amount * 4)) esp.
Definition validate_buffer (buffer : ptr) (size : Z) : X dev unit := validate_range (Z.to_nat size) buffer.

Fixpoint string_loop (fuel : nat) (str : ptr) : X dev unit :=
  match fuel with
  | O => fail EFuel
  | S fuel' =>
      let^ c := call (on_mem (load str)) in
      if c =? 0 then go tt else
      let str := u32 (str + 1) in
      do^ validate_pointer str in
      string_loop fuel' str
  end.
Definition validate_string (str : ptr) : X dev unit :=
  if str =? NULL then exit (-1) else
  do^ validate_pointer str in
  let! m := gets umem in
  string_loop (fuel_of m) str.

(** ** File descriptors *)

Fixpoint find_fd (fd : Z) (l : list (Z * ptr)) : ptr :=
  match l with [] => NULL | (n, f) :: l' => if n =? fd then f else find_fd fd l' end.
Definition get_file (fd : Z) : M (kstate dev) ptr :=
  if (fd <? 2) || (MAX_FDS <=? fd) then ret NULL else
  gets (fun s => find_fd fd (file_descriptors s)).

(** The loop of [close]; the rest of the list without the entry. *)
Fixpoint close_loop (fd : Z) (l : list (Z * ptr)) : M (state dev) (list (Z * ptr)) :=
  match l with
  | [] => ret []
  | (n, f) :: l' =>
      if n =? fd then do! file_close cur f in ret l'
      else let! r := close_loop fd l' in ret ((n, f) :: r)
  end.

(** ** The calls *)

Definition exec (cmd_line : ptr) : X dev Z :=
  do^ validate_string cmd_line in
  call (let! s := on_mem (string_at cmd_line) in process_execute s).

Definition wait (pid : Z) : X dev Z := call (process_wait pid).

Definition create (file : ptr) (initial_size : Z) : X dev Z :=
  do^ validate_string file in
  call (let! nm := on_mem (string_at file) in
        let! ok := on_files (filesys_create cur nm (s32 initial_size)) in
        ret (if (ok : bool) then 1 else 0)).

Definition remove (file : ptr) : X dev Z :=
  call (let! nm := on_mem (string_at file) in
        let! ok := on_files (filesys_remove cur nm) in
        ret (if (ok : bool) then 1 else 0)).

(** sizeof (struct file_descriptor) is 16; a null pointer from [malloc] is used. *)
Definition open (file_name : ptr) : X dev Z :=
  do^ validate_string file_name in
  call (let! n := gets next_fd in
        if MAX_FDS <=? n then ret (-1) else
        let! nm := on_mem (string_at file_name) in
        let! f := on_files (filesys_open cur nm) in
        if f =? NULL then ret (-1) else
        let! entry := on_files (malloc 16) in
        if entry =? NULL then fail EFault else
        do! modify (set_next_fd (s32 (n + 1))) in
        do! modify (fun s => set_fds (file_descriptors s ++ [(n, f)]) s) in
        ret n).

Definition close (fd : Z) : X dev unit :=
  if (fd <? 2) || (MAX_FDS <=? fd) then go tt else
  call (let! l := gets file_descriptors in
        let! l' := on_files (close_loop fd l) in
        modify (set_fds l')).

Definition write (fd : Z) (buffer : ptr) (size : Z) : X dev Z :=
  do^ validate_buffer buffer size in
  call (if fd =? 1 then
          let! bs := on_mem (get_buffer (Z.to_nat size) buffer) in
          do! modify (fun s => set_console (console s ++ bs) s) in ret size
        else
          let! f := get_file fd in
          if f =? NULL then ret (-1) else
          let! bs := on_mem (get_buffer (Z.to_nat size) buffer) in
          on_files (file_write f bs (s32 size))).

(** [input_getc]: waits for a key. *)
Definition input_getc : M (kstate dev) Z :=
  fun s => match keys s with c :: ks => Ok (c, set_keys ks s) | [] => Err EBlock end.

(** The keyboard: every key is stored as an [int], and echoed. *)
Definition read_keys (buffer : ptr) (size : Z) : M (kstate dev) unit :=
  for_ (Z.to_nat size) 0 (fun i =>
    let! c := input_getc in
    do! put_buffer (u32 (buffer + i)) (le32 c) in
    let! b := on_mem (load (u32 (buffer + i))) in
    modify (fun s => set_console (console s ++ [b]) s)).

Definition read (fd : Z) (buffer : ptr) (size : Z) : X dev Z :=
  do^ validate_buffer buffer size in
  call (if fd =? 0 then do! read_keys buffer size in ret size
        else
          let! f := get_file fd in
          if f =? NULL then ret (-1) else
          let! bs := on_mem (get_buffer (Z.to_nat size) buffer) in
          let! (n, bs) := on_files (file_read f bs (s32 size)) in
          do! put_buffer buffer (take (Z.to_nat n) bs) in
          ret n).

Definition filesize (fd : Z) : X dev Z :=
  call (if (fd <? 2) || (MAX_FDS <=? fd) then ret (-1) else
        let! f := get_file fd in
        if f =? NULL then ret (-1) else on_files (file_length f)).

Definition seek (fd position : Z) : X dev unit :=
  call (let! f := get_file fd in
        do! assert (negb (f =? NULL)) in
        let! len := on_files (file_length f) in
        if u32 len <? position then ret tt else on_files (file_seek f (s32 position))).

Definition tell (fd : Z) : X dev Z :=
  call (let! f := get_file fd in
        if f =? NULL then ret (-1) else on_files (file_tell f)).

Definition sleep (millis : Z) : X dev unit := call (timer_msleep millis).

(** ** The handler *)

(** The loop of [retrive_args1]. *)
Fixpoint args_loop (n : nat) (arg_ptr : ptr) : X dev (list Z) :=
  match n with
  | O => go []
  | S n' =>
      do^ validate_pointer arg_ptr in
      let arg_ptr := u32 (arg_ptr + 4) in
      let^ w := call (on_mem (load32 arg_ptr)) in
      let^ ws := args_loop n' arg_ptr in
      go (w :: ws)
  end.
Definition retrive_args1 (esp : ptr) (argc : Z) : X dev (list Z) :=
  do^ validate_set_args (u32 (esp + 4)) argc in
  args_loop (Z.to_nat argc) esp.

(** [f->eax] after the call, when the call sets it. *)
Definition sets_eax (m : X dev Z) : X dev (option Z) := let^ v := m in go (Some (u32 v)).
Definition keeps_eax {A} (m : X dev A) : X dev (option Z) := do^ m in go None.

Definition arg (argv : list Z) (i : nat) : Z := nth i argv 0.

Definition syscall_handler (esp : ptr) : X dev (option Z) :=
  do^ validate_range 4 esp in
  let^ syscall_num := call (on_mem (load32 esp)) in
  match syscall_num with
  | 0 => halt
  | 1 => let^ argv := retrive_args1 esp 1 in exit (s32 (arg argv 0))
  | 2 => let^ argv := retrive_args1 esp 1 in sets_eax (exec (arg argv 0))
  | 3 => let^ argv := retrive_args1 esp 1 in sets_eax (wait (s32 (arg argv 0)))
  | 4 => let^ argv := retrive_args1 esp 2 in sets_eax (create (arg argv 0) (arg argv 1))
  | 5 => let^ argv := retrive_args1 esp 1 in sets_eax (remove (arg argv 0))
  | 6 => let^ argv := retrive_args1 esp 1 in sets_eax (open (arg argv 0))
  | 7 => let^ argv := retrive_args1 esp 1 in sets_eax (filesize (s32 (arg argv 0)))
  | 8 => let^ argv := retrive_args1 esp 3 in sets_eax (read (s32 (arg argv 0)) (arg argv 1) (arg argv 2))
  | 9 => let^ argv := retrive_args1 esp 3 in sets_eax (write (s32 (arg argv 0)) (arg argv 1) (arg argv 2))
  | 10 => let^ argv := retrive_args1 esp 2 in keeps_eax (seek (s32 (arg argv 0)) (arg argv 1))
  | 11 => let^ argv := retrive_args1 esp 1 in sets_eax (tell (s32 (arg argv 0)))
  | 12 => let^ argv := retrive_args1 esp 1 in keeps_eax (close (s32 (arg argv 0)))
  | 13 => let^ argv := retrive_args1 esp 1 in keeps_eax (sleep (s32 (arg argv 0)))
  | _ => exit (-1)
  end.
End code.
End Syscall.
