(* ===== verification/SyscallSpec.v ===== *)
(** * What the system calls do

    [asks] reads a request from the stack of the process; [sys_spec] says what
    a request does to the file system, the descriptors, the memory of the
    process and the console.  The handler refines it, and ends a process that
    passes a pointer it has not mapped. *)

From Stdlib Require Import String.
From S2P Require Import Prelude.
From S2P Require Import Mem.
From S2P Require Import Words.
From S2P Require Import Vaddr.
From S2P Require Import Device.
From S2P Require Import Fs.
From S2P Require Import FsInode.
From S2P Require Import FsDir.
From S2P Require Import FsOps.
From S2P Require Import Directory.
From S2P Require Import FsCore.
From S2P Require Import FsSteps.
From S2P Require Import FsRefine.
From S2P Require Import FsClient.
From S2P Require Import FsMount.
From S2P Require Import Block.
From S2P Require Import Stdio.
From S2P Require Import StdioSpec.
From S2P Require Import Syscall.
Local Open Scope Z_scope.

Module SyscallSpec.
Import Mem Words Fs FsInode FsDir FsOps FsCore FsSteps FsRefine FsClient Syscall.

(** ** Requests *)

Inductive request :=
  | QExit (status : Z)
  | QCreate (nm : list Z) (size : Z)
  | QRemove (nm : list Z)
  | QOpen (nm : list Z)
  | QFilesize (fd : Z)
  | QRead (fd : Z) (buffer : ptr) (size : Z)
  | QWrite (fd : Z) (buffer : ptr) (size : Z)
  | QSeek (fd : Z) (position : Z)
  | QTell (fd : Z)
  | QClose (fd : Z).

(** The words the process has pushed: the number of the call and its arguments. *)
Definition pushed (m : mem) (esp : ptr) (ws : list Z) : Prop :=
  forall i w, ws !! i = Some w -> word_at m (esp + 4 * Z.of_nat i) w.

Inductive asks (m : mem) (esp : ptr) : request -> Prop :=
  | AExit w : pushed m esp [1; w] -> asks m esp (QExit (s32 w))
  | ACreate p nm w : pushed m esp [4; p; w] -> str_at m p nm -> asks m esp (QCreate nm (s32 w))
  | ARemove p nm : pushed m esp [5; p] -> str_at m p nm -> asks m esp (QRemove nm)
  | AOpen p nm : pushed m esp [6; p] -> str_at m p nm -> asks m esp (QOpen nm)
  | AFilesize w : pushed m esp [7; w] -> asks m esp (QFilesize (s32 w))
  | ARead w p n : pushed m esp [8; w; p; n] -> mapped m p n -> asks m esp (QRead (s32 w) p n)
  | AWrite w p n : pushed m esp [9; w; p; n] -> mapped m p n -> asks m esp (QWrite (s32 w) p n)
  | ASeek w n : pushed m esp [10; w; n] -> asks m esp (QSeek (s32 w) n)
  | ATell w : pushed m esp [11; w] -> asks m esp (QTell (s32 w))
  | AClose w : pushed m esp [12; w] -> asks m esp (QClose (s32 w)).

(** ** What they do *)

Record proc := Proc {
  p_fs : afs; p_fds : list (Z * ptr); p_next : Z; p_mem : mem; p_out : list Z; p_name : list Z; p_keys : list Z }.

Definition with_fs a p := Proc a (p_fds p) (p_next p) (p_mem p) (p_out p) (p_name p) (p_keys p).

(** The open file behind a descriptor, null if there is none. *)
Definition file_of (p : proc) (fd : Z) : ptr := if (fd <? 2) || (MAX_FDS <=? fd) then NULL else find_fd fd (p_fds p).

(** Closing files one after the other. *)
Inductive closed_all (room : Z -> Prop) : afs -> list (Z * ptr) -> afs -> Prop :=
  | closed_nil a : closed_all room a [] a
  | closed_cons a n f l a1 a2 : spec room a (Close f) RUnit a1 -> closed_all room a1 l a2 -> closed_all room a ((n, f) :: l) a2.

Definition bool_z (b : bool) : Z := if b then 1 else 0.

(** Keys are stored as words, so that three bytes after the last are cleared. *)
Definition keyed (m : mem) (p : ptr) (ks : list Z) : mem := if decide (ks = []) then m else Mem.write m p (ks ++ [0; 0; 0]).

(** What is printed when a process ends; [d] is its status. *)
Definition exit_text (name d : list Z) : list Z := name ++ Stdio.chars ": exit(" ++ d ++ Stdio.chars ")" ++ [10].

Inductive sys_spec (room : Z -> Prop) (p : proc) : request -> flow (option Z) -> proc -> Prop :=
  | YExit st d a' : StdioSpec.decimal_text st d -> closed_all room (p_fs p) (p_fds p) a' ->
      sys_spec room p (QExit st) (Exited st) (Proc a' (p_fds p) (p_next p) (p_mem p) (p_out p ++ exit_text (p_name p) d) (p_name p) (p_keys p))
  | YCreate nm n b a' : spec room (p_fs p) (Create nm n) (RBool b) a' ->
      sys_spec room p (QCreate nm n) (Go (Some (bool_z b))) (with_fs a' p)
  | YRemove nm b a' : spec room (p_fs p) (Remove nm) (RBool b) a' ->
      sys_spec room p (QRemove nm) (Go (Some (bool_z b))) (with_fs a' p)
  | YOpen nm f a' : p_next p < MAX_FDS -> f <> NULL -> spec room (p_fs p) (Open nm) (RPtr f) a' ->
      sys_spec room p (QOpen nm) (Go (Some (p_next p))) (Proc a' (p_fds p ++ [(p_next p, f)]) (p_next p + 1) (p_mem p) (p_out p) (p_name p) (p_keys p))
  | YNotOpen nm : MAX_FDS <= p_next p \/ a_names (p_fs p) !! nm = None -> sys_spec room p (QOpen nm) (Go (Some (u32 (-1)))) p
  | YFilesize fd n a' : file_of p fd <> NULL -> spec room (p_fs p) (Length (file_of p fd)) (RInt n) a' ->
      sys_spec room p (QFilesize fd) (Go (Some n)) (with_fs a' p)
  | YRead fd buffer n bs a' : fd <> 0 -> file_of p fd <> NULL -> spec room (p_fs p) (Read (file_of p fd) n) (RBytes bs) a' ->
      sys_spec room p (QRead fd buffer n) (Go (Some (zlen bs))) (Proc a' (p_fds p) (p_next p) (Mem.write (p_mem p) buffer bs) (p_out p) (p_name p) (p_keys p))
  | YKeys buffer n ks rest : p_keys p = ks ++ rest -> zlen ks = n ->
      sys_spec room p (QRead 0 buffer n) (Go (Some n))
        (Proc (p_fs p) (p_fds p) (p_next p) (keyed (p_mem p) buffer ks) (p_out p ++ ks) (p_name p) rest)
  | YWrite fd buffer n bs k a' : fd <> 1 -> file_of p fd <> NULL -> bytes_at (p_mem p) buffer bs -> zlen bs = n ->
      spec room (p_fs p) (Write (file_of p fd) bs) (RInt k) a' -> sys_spec room p (QWrite fd buffer n) (Go (Some k)) (with_fs a' p)
  | YPrint buffer n bs : bytes_at (p_mem p) buffer bs -> zlen bs = n ->
      sys_spec room p (QWrite 1 buffer n) (Go (Some n)) (Proc (p_fs p) (p_fds p) (p_next p) (p_mem p) (p_out p ++ bs) (p_name p) (p_keys p))
  | YSeek fd n len a1 a' : file_of p fd <> NULL -> spec room (p_fs p) (Length (file_of p fd)) (RInt len) a1 ->
      (if len <? n then a' = p_fs p else spec room (p_fs p) (Seek (file_of p fd) n) RUnit a') ->
      sys_spec room p (QSeek fd n) (Go None) (with_fs a' p)
  | YTell fd n a' : file_of p fd <> NULL -> spec room (p_fs p) (Tell (file_of p fd)) (RInt n) a' ->
      sys_spec room p (QTell fd) (Go (Some n)) (with_fs a' p)
  | YClose fd l1 f l2 a' : 2 <= fd < MAX_FDS -> p_fds p = l1 ++ (fd, f) :: l2 -> spec room (p_fs p) (Close f) RUnit a' ->
      sys_spec room p (QClose fd) (Go None) (Proc a' (l1 ++ l2) (p_next p) (p_mem p) (p_out p) (p_name p) (p_keys p))
  | YNotClose fd : file_of p fd = NULL -> sys_spec room p (QClose fd) (Go None) p
  | YNoFile q fd : (exists b n, q = QRead fd b n /\ fd <> 0 \/ q = QWrite fd b n /\ fd <> 1 \/ q = QFilesize fd \/ q = QTell fd) ->
      file_of p fd = NULL -> sys_spec room p q (Go (Some (u32 (-1)))) p.

Section refine.
Context {dev : Type} `{!Device.Device dev} `{!Device.Allocator} {Hroom : Device.Roomy} (cur : Z).
Implicit Types (s : kstate dev) (a : afs) (p : ptr) (m : mem).

Definition view s a : proc := Proc a (file_descriptors s) (next_fd s) (umem s) (console s) (name s) (keys s).

(** User memory lies below the kernel and holds bytes. *)
Definition umem_ok m : Prop := map_Forall (fun p b => 0 < p < Vaddr.PHYS_BASE /\ in_u 8 b) m /\ Z.of_nat (size m) < 2 ^ 31.

(** The process: its descriptors are distinct, and name open files. *)
Record proc_ok s a : Prop := ProcOk {
  po_fs : abs (files s) a;
  po_fds : NoDup (file_descriptors s).*1;
  po_files : NoDup (file_descriptors s).*2;
  po_open n f : (n, f) ∈ file_descriptors s -> 2 <= n < next_fd s /\ is_Some (a_open a !! f);
  po_next : 2 <= next_fd s <= MAX_FDS;
  po_mem : umem_ok (umem s);
  po_name : Forall (fun c => 0 < c < 256) (name s) /\ (length (name s) <= 15)%nat;
  po_keys : Forall (in_u 8) (keys s) }.

(** ** Reasoning about calls that may end the process *)

Definition xwp {A} (m : X dev A) (Q : A -> kstate dev -> Prop) (E : option Z -> kstate dev -> Prop) s : Prop :=
  wp m (fun r s' => match r with Go x => Q x s' | Exited st => E (Some st) s' | Off => E None s' end) s.

Lemma xwp_bind {A B} (m : X dev A) (k : A -> X dev B) Q E s : xwp m (fun x s' => xwp (k x) Q E s') E s -> xwp (xbind m k) Q E s.
Proof. intros Hm. unfold xwp, xbind. apply wp_bind. eapply wp_mono; [exact Hm|]. by intros [x|st|] s' Hr. Qed.

Lemma xwp_go {A} (x : A) Q E s : Q x s -> xwp (go x) Q E s.
Proof. done. Qed.

Lemma xwp_call {A} (m : M (kstate dev) A) Q E s : wp m Q s -> xwp (call m) Q E s.
Proof. intros Hm. unfold xwp, call. apply wp_bind. eapply wp_mono; [exact Hm|done]. Qed.

Lemma xwp_mono {A} (m : X dev A) (Q Q' : A -> kstate dev -> Prop) E s :
  xwp m Q E s -> (forall x s', Q x s' -> Q' x s') -> xwp m Q' E s.
Proof. intros Hm HQ. eapply wp_mono; [exact Hm|]. intros [x|st|] s'; [apply HQ|done..]. Qed.

(** A process that ended with status [st]: its files were closed, and the
    message was printed. *)
Definition ended s a (st : Z) s' : Prop :=
  exists a' d, StdioSpec.decimal_text st d /\ closed_all (room (files s)) a (file_descriptors s) a' /\ abs (files s') a' /\
    s' = set_files (files s') (set_console (console s ++ exit_text (name s) d) s).

(** ** Ending a process *)

Lemma close_files_ok rm l : forall fs a, abs fs a -> NoDup l.*2 -> (forall n f, (n, f) ∈ l -> is_Some (a_open a !! f)) ->
  wp (close_files cur l) (fun _ fs' => exists a', closed_all rm a l a' /\ abs fs' a') fs.
Proof.
  induction l as [|[n f] l IH]; intros fs a Ha Hnd Hop; cbn [close_files].
  - apply wp_ret. exists a. split; [constructor|done].
  - cbn in Hnd. apply NoDup_cons in Hnd as [Hf Hnd]. apply wp_bind. eapply wp_mono; [apply (close_one cur fs a f rm Ha); eapply Hop; by left|].
    intros [] fs1 (a1&Hs&Eo&Ha1). eapply wp_mono; [apply (IH fs1 a1 Ha1 Hnd)|].
    + intros n' f' Hin. rewrite Eo, lookup_delete_ne; [eapply Hop; by right|]. intros <-. apply Hf. apply list_elem_of_fmap. by exists (n', f).
    + intros [] fs2 (a2&?&?). exists a2. split; [by econstructor|done].
Qed.

Lemma put_console_all t : forall s, Stdio.put_all put_console t s = Ok (tt, set_console (console s ++ t) s).
Proof.
  induction t as [|c t IH]; intros s; cbn [Stdio.put_all]; [rewrite app_nil_r; by destruct s|].
  rewrite (bind_ok _ _ _ tt (set_console (console s ++ [c]) s)), IH by done. cbn. by rewrite <- app_assoc.
Qed.

Lemma exit_message_ok s st : Forall (fun c => 0 < c < 256) (name s) /\ (length (name s) <= 15)%nat -> in_s 32 st ->
  exists d, StdioSpec.decimal_text st d /\ exit_message st s = Ok (tt, set_console (console s ++ exit_text (name s) d) s).
Proof.
  intros [Hn Hl] Hst. destruct (StdioSpec.at_one_ok (name s) Hn ltac:(lia)) as [Hm Hs]. destruct (StdioSpec.text_decimal st (Stdio.at_one (name s)) Hst) as (d&Hd&_&Ht).
  exists d. split; [done|]. rewrite <- put_console_all. unfold exit_message. apply StdioSpec.vprintf_text; [by intros c s1 s2 [= <-]|].
  change (Stdio.chars "%s: exit(%d)" ++ [10]) with (37 :: 115 :: Stdio.chars ": exit(" ++ 37 :: 100 :: Stdio.chars ")" ++ [10]).
  apply StdioSpec.text_s; [done|done|lia|]. apply StdioSpec.text_chars; [by repeat constructor|]. apply Ht. by vm_compute.
Qed.

Lemma exit_ok {A} s a st Q (E : option Z -> kstate dev -> Prop) : proc_ok s a -> in_s 32 st ->
  (forall s', ended s a st s' -> E (Some st) s') -> xwp (A := A) (exit cur st) Q E s.
Proof.
  intros [Ha _ Hnd Hop _ _ Hnm _] Hst HE. destruct (exit_message_ok s st Hnm Hst) as (d&Hd&Em). unfold xwp, exit. apply wp_bind. unfold wp at 1. rewrite Em.
  apply wp_bind, wp_gets, wp_bind, wp_zoom.
  eapply wp_mono; [apply (close_files_ok (room (files s)) _ _ _ Ha Hnd); intros n f Hin; by apply (Hop n)|].
  intros [] fs' (a'&Hc&Ha'). apply wp_ret, HE. by exists a', d.
Qed.

(** ** Pointers that pass the checks *)

Lemma on_mem_eq {A} s (m : M mem A) x : m (umem s) = Ok (x, umem s) -> on_mem m s = Ok (x, s).
Proof. intros E. unfold on_mem, zoom. rewrite E. by destruct s. Qed.

Section valid.
Context s (Hm : umem_ok (umem s)).

Lemma umem_range p : is_Some (umem s !! p) -> 0 < p < Vaddr.PHYS_BASE.
Proof. intros [b Hb]. by destruct (proj1 Hm p b Hb). Qed.

Lemma umem_small p : is_Some (umem s !! p) -> u32 p = p /\ 0 < p < 2 ^ 32.
Proof. intros Hp%umem_range. unfold Vaddr.PHYS_BASE in Hp. rewrite wrapu_small; [|unfold in_u]; lia. Qed.

Lemma validate_pointer_eq p : is_Some (umem s !! p) -> validate_pointer cur p s = Ok (Go tt, s).
Proof.
  intros Hp. pose proof (umem_range p Hp) as Hr. unfold validate_pointer. rewrite (proj2 (Z.eqb_neq p NULL)) by lia.
  unfold Vaddr.is_kernel_vaddr. rewrite (proj2 (Z.leb_gt _ _)) by lia. unfold bind, gets. by destruct Hp as [b ->].
Qed.

Lemma xbind_go {A B} (m : X dev A) (k : A -> X dev B) x s' t : m t = Ok (Go x, s') -> xbind m k t = k x s'.
Proof. intros E. unfold xbind. by rewrite (bind_ok _ _ _ _ _ E). Qed.

Lemma call_eq {A} (m : M (kstate dev) A) x t t' : m t = Ok (x, t') -> call m t = Ok (Go x, t').
Proof. intros E. unfold call. by rewrite (bind_ok _ _ _ _ _ E). Qed.

Lemma validate_range_eq n : forall p, mapped (umem s) p (Z.of_nat n) -> validate_range cur n p s = Ok (Go tt, s).
Proof.
  induction n as [|n IH]; intros p Hp; [done|]. cbn [validate_range]. assert (is_Some (umem s !! p)) as Hp0 by (apply Hp; lia).
  rewrite (proj1 (umem_small p Hp0)), (xbind_go _ _ _ _ _ (validate_pointer_eq p Hp0)). apply IH. intros q Hq. apply Hp. lia.
Qed.

Lemma string_loop_eq nm : forall fuel p, (length nm < fuel)%nat -> str_at (umem s) p nm -> string_loop cur fuel p s = Ok (Go tt, s).
Proof.
  induction nm as [|c nm IH]; intros [|fuel] p Hf Hs; cbn in Hf; try lia; cbn [string_loop]; cbn in Hs.
  - by rewrite (xbind_go _ _ _ _ _ (call_eq _ _ _ _ (on_mem_eq _ _ _ (load_eq _ _ _ Hs)))).
  - destruct Hs as (Hc&Hr&Hs). rewrite (xbind_go _ _ _ _ _ (call_eq _ _ _ _ (on_mem_eq _ _ _ (load_eq _ _ _ Hc)))).
    rewrite (proj2 (Z.eqb_neq c 0)) by lia. assert (is_Some (umem s !! (p + 1))) as Hp1 by (destruct nm; cbn in Hs; [eauto|destruct Hs; eauto]).
    rewrite (proj1 (umem_small _ Hp1)), (xbind_go _ _ _ _ _ (validate_pointer_eq _ Hp1)). apply IH; [lia|done].
Qed.

Lemma validate_string_eq p nm : str_at (umem s) p nm -> validate_string cur p s = Ok (Go tt, s).
Proof.
  intros Hs. assert (is_Some (umem s !! p)) as Hp by (destruct nm; cbn in Hs; [eauto|destruct Hs; eauto]).
  unfold validate_string. rewrite (proj2 (Z.eqb_neq p NULL)) by (pose proof (umem_range p Hp); lia).
  rewrite (xbind_go _ _ _ _ _ (validate_pointer_eq p Hp)). unfold bind, gets. apply (string_loop_eq nm); [|done].
  apply str_at_fuel in Hs. lia.
Qed.
End valid.

Lemma get_string_eq m nm : forall fuel p, (length nm < fuel)%nat -> str_at m p nm -> get_string fuel p m = Ok (nm, m).
Proof.
  induction nm as [|c nm IH]; intros [|fuel] p Hf Hs; cbn in Hf; try lia; cbn [get_string]; cbn in Hs.
  - by rewrite (bind_ok _ _ _ _ _ (load_eq _ _ _ Hs)).
  - destruct Hs as (Hc&Hr&Hs). rewrite (bind_ok _ _ _ _ _ (load_eq _ _ _ Hc)), (proj2 (Z.eqb_neq c 0)) by lia.
    by rewrite (bind_ok _ _ _ _ _ (IH fuel (p + 1) ltac:(lia) Hs)).
Qed.

Lemma string_at_eq m p nm : str_at m p nm -> string_at p m = Ok (nm, m).
Proof. intros Hs. unfold string_at, bind, get. apply get_string_eq; [|done]. apply str_at_fuel in Hs. lia. Qed.

Lemma get_buffer_eq m bs : forall p, bytes_at m p bs -> get_buffer (length bs) p m = Ok (bs, m).
Proof.
  induction bs as [|b bs IH]; intros p Hb; [done|]. cbn in Hb |- *. destruct Hb as (Hp&_&Hb).
  by rewrite (bind_ok _ _ _ _ _ (load_eq _ _ _ Hp)), (bind_ok _ _ _ _ _ (IH _ Hb)).
Qed.

Lemma put_buffer_eq bs : forall s p, mapped (umem s) p (zlen bs) -> (forall q, p <= q < p + zlen bs -> q ∉ read_only s) -> Forall (in_u 8) bs ->
  put_buffer p bs s = Ok (tt, set_umem (Mem.write (umem s) p bs) s).
Proof.
  induction bs as [|b bs IH]; intros s p Hp Hw Hb; [by destruct s|]. apply Forall_cons in Hb as [Hb Hbs]. cbn [put_buffer Mem.write].
  assert (is_Some (umem s !! p)) as Hp0 by (apply Hp; simpl; lia).
  assert (put_byte p b s = Ok (tt, set_umem (<[p := b]> (umem s)) s)) as E.
  { unfold put_byte, bind, gets. rewrite decide_False by (apply Hw; simpl; lia). unfold on_mem, zoom. by rewrite (store_eq _ _ _ Hp0 Hb). }
  rewrite (bind_ok _ _ _ _ _ E), IH; [done| | |done].
  - intros q Hq. cbn. rewrite lookup_insert_ne by lia. apply Hp. simpl. lia.
  - intros q Hq. apply Hw. simpl. lia.
Qed.

(** ** The arguments *)

Lemma pushed_tail m esp w ws : pushed m esp (w :: ws) -> pushed m (esp + 4) ws.
Proof. intros Hp i x Hi. replace (esp + 4 + 4 * Z.of_nat i) with (esp + 4 * Z.of_nat (S i)) by lia. by apply Hp. Qed.

Lemma pushed_head m esp w ws : pushed m esp (w :: ws) -> word_at m esp w.
Proof. intros Hp. specialize (Hp 0%nat w eq_refl). by rewrite Z.add_0_r in Hp. Qed.

Lemma pushed_mapped m ws : forall esp, pushed m esp ws -> mapped m esp (4 * zlen ws).
Proof.
  induction ws as [|w ws IH]; intros esp Hp q Hq; [simpl in Hq; lia|]. destruct (decide (q < esp + 4)).
  - eapply word_at_mapped; [by eapply pushed_head|lia].
  - apply (IH (esp + 4)); [by eapply pushed_tail|simpl in Hq; lia].
Qed.

Section args.
Context s (Hm : umem_ok (umem s)).

Lemma args_loop_eq ws : forall esp w0, pushed (umem s) esp (w0 :: ws) -> args_loop cur (length ws) esp s = Ok (Go ws, s).
Proof.
  induction ws as [|w ws IH]; intros esp w0 Hp; [done|]. cbn [args_loop length]. pose proof (pushed_head _ _ _ _ Hp) as Hw0.
  rewrite (xbind_go _ _ _ _ _ (validate_pointer_eq s Hm esp (word_at_mapped _ _ _ Hw0 esp ltac:(lia)))).
  apply pushed_tail in Hp. pose proof (pushed_head _ _ _ _ Hp) as Hw1.
  rewrite (proj1 (umem_small s Hm (esp + 4) (word_at_mapped _ _ _ Hw1 (esp + 4) ltac:(lia)))).
  rewrite (xbind_go _ _ _ _ _ (call_eq _ _ _ _ (on_mem_eq s _ _ (load32_eq _ _ _ Hw1)))).
  by rewrite (xbind_go _ _ _ _ _ (IH _ _ Hp)).
Qed.

Lemma retrive_args1_eq esp w0 ws n : pushed (umem s) esp (w0 :: ws) -> n = zlen ws -> 0 < n -> retrive_args1 cur esp n s = Ok (Go ws, s).
Proof.
  intros Hp -> Hn. unfold retrive_args1, validate_set_args. pose proof (pushed_tail _ _ _ _ Hp) as Ht%pushed_mapped.
  rewrite (proj1 (umem_small s Hm (esp + 4) (Ht (esp + 4) ltac:(lia)))).
  rewrite (xbind_go _ (fun _ => _) tt s s); [|apply (validate_range_eq s Hm); intros q Hq; apply Ht; lia].
  rewrite Nat2Z.id. by eapply args_loop_eq.
Qed.

Lemma load_num esp w ws : pushed (umem s) esp (w :: ws) ->
  validate_range cur 4 esp s = Ok (Go tt, s) /\ call (on_mem (load32 esp)) s = Ok (Go w, s).
Proof.
  intros Hp. split.
  - apply (validate_range_eq s Hm). intros q Hq. by eapply word_at_mapped; [eapply pushed_head|].
  - eapply call_eq, on_mem_eq, load32_eq, pushed_head, Hp.
Qed.
End args.

Section handler.
Context (process_execute : list Z -> M (kstate dev) Z) (process_wait : Z -> M (kstate dev) Z) (timer_msleep : Z -> M (kstate dev) unit).
Context s (esp : ptr) (Hm : umem_ok (umem s)).
Abbreviation handler := (syscall_handler cur process_execute process_wait timer_msleep esp).

(** The first steps of the handler, up to the call itself. *)
Ltac decode Hp :=
  destruct (load_num s Hm esp _ _ Hp) as [Hval Hnum];
  unfold syscall_handler; rewrite (xbind_go _ _ _ _ _ Hval), (xbind_go _ _ _ _ _ Hnum); cbv beta iota;
  erewrite xbind_go by (eapply (retrive_args1_eq s Hm esp _ _ _ Hp); [reflexivity|lia]); reflexivity.

Lemma handler_exec p : pushed (umem s) esp [2; p] -> handler s = sets_eax (exec cur process_execute p) s.
Proof. intros Hp. decode Hp. Qed.
Lemma handler_create p w : pushed (umem s) esp [4; p; w] -> handler s = sets_eax (create cur p w) s.
Proof. intros Hp. decode Hp. Qed.
Lemma handler_remove p : pushed (umem s) esp [5; p] -> handler s = sets_eax (remove cur p) s.
Proof. intros Hp. decode Hp. Qed.
Lemma handler_open p : pushed (umem s) esp [6; p] -> handler s = sets_eax (open cur p) s.
Proof. intros Hp. decode Hp. Qed.
Lemma handler_filesize w : pushed (umem s) esp [7; w] -> handler s = sets_eax (filesize (s32 w)) s.
Proof. intros Hp. decode Hp. Qed.
Lemma handler_read w p n : pushed (umem s) esp [8; w; p; n] -> handler s = sets_eax (read cur (s32 w) p n) s.
Proof. intros Hp. decode Hp. Qed.
Lemma handler_write w p n : pushed (umem s) esp [9; w; p; n] -> handler s = sets_eax (write cur (s32 w) p n) s.
Proof. intros Hp. decode Hp. Qed.
Lemma handler_seek w n : pushed (umem s) esp [10; w; n] -> handler s = keeps_eax (seek (s32 w) n) s.
Proof. intros Hp. decode Hp. Qed.
Lemma handler_tell w : pushed (umem s) esp [11; w] -> handler s = sets_eax (tell (s32 w)) s.
Proof. intros Hp. decode Hp. Qed.
Lemma handler_close w : pushed (umem s) esp [12; w] -> handler s = keeps_eax (close cur (s32 w)) s.
Proof. intros Hp. decode Hp. Qed.
Lemma handler_exit w : pushed (umem s) esp [1; w] -> handler s = exit cur (s32 w) s.
Proof. intros Hp. decode Hp. Qed.
End handler.

(** ** Descriptors *)

Lemma find_fd_spec fd l : (exists l1 f l2, l = l1 ++ (fd, f) :: l2 /\ find_fd fd l = f /\ fd ∉ l1.*1) \/ (fd ∉ l.*1 /\ find_fd fd l = NULL).
Proof.
  induction l as [|[n f] l IH]; [right; split; [apply not_elem_of_nil|done]|]. cbn [find_fd]. destruct (Z.eqb_spec n fd) as [->|Hne].
  - left. exists [], f, l. split_and!; [done|done|apply not_elem_of_nil].
  - destruct IH as [(l1&f'&l2&->&Hf&Hl)|[Hl Hf]].
    + left. exists ((n, f) :: l1), f', l2. split_and!; [done|done|]. cbn. apply not_elem_of_cons. done.
    + right. split; [|done]. cbn. apply not_elem_of_cons. done.
Qed.

Section calls.
Context s a (Hok : proc_ok s a) (Hsm : Z.of_nat (size (heap (files s))) + 8 < 2 ^ 30).
Abbreviation rm := (room (files s)).

Lemma file_of_cases fd : (file_of (view s a) fd = NULL /\ get_file fd s = Ok (NULL, s)) \/
  (exists l1 f l2, file_of (view s a) fd = f /\ get_file fd s = Ok (f, s) /\ f <> NULL /\ is_Some (a_open a !! f) /\
    2 <= fd < MAX_FDS /\ file_descriptors s = l1 ++ (fd, f) :: l2 /\ fd ∉ l1.*1).
Proof.
  unfold file_of, get_file. cbn [p_fds view]. destruct (Z.ltb_spec fd 2), (Z.leb_spec MAX_FDS fd); cbn [orb]; [by left..|].
  destruct (find_fd_spec fd (file_descriptors s)) as [(l1&f&l2&E&Ef&Hl)|[_ E]].
  - right. exists l1, f, l2. destruct (po_open _ _ Hok fd f) as [_ Hop]; [rewrite E; apply elem_of_app; right; by left|].
    split_and!; try done; try lia; [unfold gets; by rewrite Ef|]. by eapply abs_open_null; [apply Hok|].
  - left. split; [done|]. unfold gets. by rewrite E.
Qed.

(** A change of the file system that keeps the open files of the process. *)
Lemma proc_ok_fs fs' a' : abs fs' a' -> (forall n f, (n, f) ∈ file_descriptors s -> is_Some (a_open a' !! f)) -> proc_ok (set_files fs' s) a'.
Proof.
  intros Ha Hop. destruct Hok as [_ ? ? Hold ? ?]. split; try done. intros n f Hin. destruct (Hold n f Hin). split; [done|by eapply Hop].
Qed.

Definition post q (r : flow (option Z)) s' : Prop :=
  exists a', sys_spec rm (view s a) q r (view s' a') /\ match r with Go _ => proc_ok s' a' | _ => abs (files s') a' end.

Lemma umem_str p nm : str_at (umem s) p nm -> string_ok nm.
Proof.
  intros Hs. split.
  - revert p Hs. induction nm as [|c nm IH]; intros p Hs; [constructor|]. destruct Hs as (_&Hc&Hs). constructor; [done|by eapply IH].
  - apply str_at_fuel in Hs. destruct (po_mem _ _ Hok) as [_ Hz]. unfold fuel_of in Hs. lia.
Qed.

Lemma exit_post st : in_s 32 st -> xwp (A := option Z) (exit cur st) (fun r s' => post (QExit st) (Go r) s') (fun st' s' => post (QExit st) (match st' with Some n => Exited n | None => Off end) s') s.
Proof.
  intros Hst. eapply exit_ok; [exact Hok|exact Hst|]. intros s' (a'&d&Hd&Hc&Ha&Es). exists a'. split; [|done]. rewrite Es. by apply (YExit _ (view s a)).
Qed.

Lemma xwp_eq {A} (m : X dev A) x Q E t : m t = Ok (Go x, t) -> Q x t -> xwp m Q E t.
Proof. intros Em HQ. unfold xwp, wp. by rewrite Em. Qed.

Lemma sets_post q (m : X dev Z) : xwp m (fun v s' => post q (Go (Some (u32 v))) s') (fun _ _ => False) s -> wp (sets_eax m) (post q) s.
Proof. intros Hm. unfold sets_eax, xbind. apply wp_bind. eapply wp_mono; [exact Hm|]. by intros [v|st|] s' Hr. Qed.

Lemma keeps_post {A} q (m : X dev A) : xwp m (fun _ s' => post q (Go None) s') (fun _ _ => False) s -> wp (keeps_eax m) (post q) s.
Proof. intros Hm. unfold keeps_eax, xbind. apply wp_bind. eapply wp_mono; [exact Hm|]. by intros [v|st|] s' Hr. Qed.

Lemma wp_mem_eq {A} (m : M mem A) x Q (t : kstate dev) : m (umem t) = Ok (x, umem t) -> Q x t -> wp (on_mem m) Q t.
Proof. intros Em HQ. unfold wp. by rewrite (on_mem_eq t m x Em). Qed.

Lemma view_files fs' a' : view (set_files fs' s) a' = with_fs a' (view s a).
Proof. done. Qed.

Lemma u32_bool b : u32 (bool_z b) = bool_z b.
Proof. by destruct b. Qed.

Lemma create_post p nm w : str_at (umem s) p nm -> valid_name nm -> 0 <= s32 w -> s32 w + 511 < 2 ^ 31 ->
  wp (sets_eax (create cur p w)) (post (QCreate nm (s32 w))) s.
Proof.
  intros Hs Hnm Hw0 Hw. apply sets_post. apply xwp_bind. eapply xwp_eq; [by eapply validate_string_eq; [apply Hok|]|].
  apply xwp_call, wp_bind. eapply wp_mem_eq; [by apply string_at_eq|]. apply wp_bind, wp_zoom.
  pose proof (abs_run cur (Create nm (s32 w)) (files s) a (po_fs _ _ Hok) ltac:(done) Hsm) as Hr. cbn [run] in Hr. apply wp_bind in Hr.
  eapply wp_mono; [exact Hr|]. cbn beta. intros b fs' (a'&Hsp&Ha)%wp_ret. apply wp_ret. exists a'. split.
  - change (if b then 1 else 0) with (bool_z b). rewrite u32_bool, view_files. by apply YCreate.
  - apply proc_ok_fs; [done|]. intros n f Hin%(po_open _ _ Hok). inversion Hsp; subst; apply Hin.
Qed.

Lemma remove_post p nm : str_at (umem s) p nm -> wp (sets_eax (remove cur p)) (post (QRemove nm)) s.
Proof.
  intros Hs. apply sets_post, xwp_call, wp_bind. eapply wp_mem_eq; [by apply string_at_eq|]. apply wp_bind, wp_zoom.
  pose proof (abs_run cur (Remove nm) (files s) a (po_fs _ _ Hok) (umem_str p nm Hs) Hsm) as Hr. cbn [run] in Hr. apply wp_bind in Hr.
  eapply wp_mono; [exact Hr|]. cbn beta. intros b fs' (a'&Hsp&Ha)%wp_ret. apply wp_ret. exists a'. split.
  - change (if b then 1 else 0) with (bool_z b). rewrite u32_bool, view_files. by apply YRemove.
  - apply proc_ok_fs; [done|]. intros n f Hin%(po_open _ _ Hok). inversion Hsp; subst; apply Hin.
Qed.

Lemma open_post p nm : str_at (umem s) p nm -> wp (sets_eax (open cur p)) (post (QOpen nm)) s.
Proof.
  intros Hs. apply sets_post. apply xwp_bind. eapply xwp_eq; [by eapply validate_string_eq; [apply Hok|]|]. apply xwp_call, wp_bind, wp_gets.
  destruct (Z.leb_spec MAX_FDS (next_fd s)) as [Hfull|Hfree].
  { apply wp_ret. exists a. split; [|exact Hok]. apply YNotOpen. by left. }
  apply wp_bind. eapply wp_mem_eq; [by apply string_at_eq|]. apply wp_bind, wp_zoom.
  pose proof (abs_run cur (Open nm) (files s) a (po_fs _ _ Hok) (umem_str p nm Hs) Hsm) as Hr. cbn [run] in Hr. apply wp_bind in Hr.
  eapply wp_mono; [exact Hr|]. cbn beta. intros f fs' (a'&Hsp&Ha)%wp_ret. destruct (Z.eqb_spec f NULL) as [->|Hf].
  { apply wp_ret. inversion Hsp; subst; [done|]. exists a. split; [apply YNotOpen; by right|].
    apply proc_ok_fs; [done|]. intros n f Hin%(po_open _ _ Hok). apply Hin. }
  inversion Hsp as [| |? k ? Hk _ Hfo| | | | | | | | |]; subst; [|done].
  apply wp_bind, wp_zoom. apply wp_malloc; [by eapply abs_good|]. intros entry fs2 Hs2 _ He. rewrite (proj2 (Z.eqb_neq _ _) (He Hroom)).
  apply wp_bind, wp_modify, wp_bind, wp_modify, wp_ret. pose proof (po_next _ _ Hok).
  rewrite (wraps_small 32 (next_fd s + 1)), (wrapu_small 32 (next_fd s)) by (unfold in_s, in_u; lia).
  eexists. split; [by eapply (YOpen _ (view s a))|]. destruct Hok as [? Hnd Hnf Hop ? ?].
  assert (f ∉ (file_descriptors s).*2) as Hf2.
  { intros ([n f']&->&Hin)%list_elem_of_fmap. destruct (Hop _ _ Hin) as [_ [x Hx]]. cbn in Hfo. congruence. }
  assert (next_fd s ∉ (file_descriptors s).*1) as Hn2.
  { intros ([n f']&En&Hin)%list_elem_of_fmap. cbn in En. apply Hop in Hin. lia. }
  split; cbn; try done; [by eapply abs_stores| | | |lia].
  - rewrite fmap_app. apply NoDup_app. split_and!; [done| |apply NoDup_singleton]. by intros x Hx ->%list_elem_of_singleton.
  - rewrite fmap_app. apply NoDup_app. split_and!; [done| |apply NoDup_singleton]. by intros x Hx ->%list_elem_of_singleton.
  - intros n f' [Hin| [= -> ->]%list_elem_of_singleton]%elem_of_app; [|split; [lia|by rewrite lookup_insert_eq; eauto]].
    destruct (Hop _ _ Hin) as [? Ho]. split; [lia|]. rewrite lookup_insert_ne; [done|]. intros <-. destruct Ho as [? Ho]. congruence.
Qed.

(** ** Calls on a descriptor *)

(** The buffer of a call. *)
Lemma umem_bytes p n : mapped (umem s) p n -> 0 <= n -> exists bs, bytes_at (umem s) p bs /\ zlen bs = n.
Proof.
  intros Hp Hn. revert p Hp. pattern n. apply natlike_ind; [|clear n Hn; intros n Hn IH p Hp|done].
  - intros p _. by exists [].
  - destruct (IH (p + 1)) as (bs&Hb&Hl); [intros q Hq; apply Hp; lia|]. destruct (Hp p ltac:(lia)) as [b Hpb].
    exists (b :: bs). split; [|cbn; lia]. cbn. split_and!; [done| |done]. apply (proj1 (po_mem _ _ Hok) p b Hpb).
Qed.

Lemma mapped_small p n : mapped (umem s) p n -> n < 2 ^ 31.
Proof.
  intros Hp. destruct (decide (0 <= n)); [|lia]. destruct (po_mem _ _ Hok) as [_ Hz].
  assert (mapped (umem s) p (Z.of_nat (Z.to_nat n))) as Hf%mapped_fuel by (by rewrite Z2Nat.id). unfold fuel_of in Hf. lia.
Qed.

Lemma buffer_ok {A} p n (k : X dev A) Q E : mapped (umem s) p n -> 0 <= n -> xwp k Q E s ->
  xwp (do^ validate_buffer cur p n in k) Q E s.
Proof.
  intros Hp Hn Hk. apply xwp_bind. eapply xwp_eq; [|exact Hk]. apply (validate_range_eq s (po_mem _ _ Hok)). by rewrite Z2Nat.id.
Qed.

Lemma u32_small n : 0 <= n < 2 ^ 31 -> u32 n = n /\ s32 n = n.
Proof. intros Hn. split; [apply wrapu_small|apply wraps_small]; unfold in_u, in_s; lia. Qed.

(** Moving the position of an open file keeps the descriptors. *)
Lemma fds_moved f x n g : (n, g) ∈ file_descriptors s -> is_Some (<[f := x]> (a_open a) !! g).
Proof. intros Hin%(po_open _ _ Hok). rewrite lookup_insert. case_decide; [eauto|apply Hin]. Qed.

Lemma proc_ok_same fs' : abs fs' a -> proc_ok (set_files fs' s) a.
Proof. intros Ha. apply proc_ok_fs; [done|]. intros n f Hin. by apply (po_open _ _ Hok n). Qed.

Lemma no_file q fd : file_of (view s a) fd = NULL ->
  (exists b n, q = QRead fd b n /\ fd <> 0 \/ q = QWrite fd b n /\ fd <> 1 \/ q = QFilesize fd \/ q = QTell fd) ->
  post q (Go (Some (u32 (-1)))) s.
Proof. intros Hf Hq. exists a. split; [by eapply YNoFile|exact Hok]. Qed.

Lemma wp_get_file fd f Q : get_file fd s = Ok (f, s) -> Q f s -> wp (get_file fd) Q s.
Proof. intros E HQ. unfold wp. by rewrite E. Qed.

Lemma tell_post fd : wp (sets_eax (tell fd)) (post (QTell fd)) s.
Proof.
  apply sets_post, xwp_call, wp_bind. destruct (file_of_cases fd) as [[Ef Eg]|(l1&f&l2&Ef&Eg&Hf&Hop&_)]; eapply wp_get_file; try exact Eg.
  { apply wp_ret, (no_file _ fd); [done|exists NULL, 0; tauto]. }
  rewrite (proj2 (Z.eqb_neq _ _) Hf). apply wp_zoom.
  pose proof (abs_run cur (Tell f) (files s) a (po_fs _ _ Hok) Hop Hsm) as Hr. cbn [run] in Hr. apply wp_bind in Hr.
  eapply wp_mono; [exact Hr|]. cbn beta. intros n fs' (a'&Hsp&Ha)%wp_ret. inversion Hsp as [| | | | | | | | | |? k ? Hk|]; subst.
  exists a. split; [|by apply proc_ok_same].
  destruct (po_fs _ _ Hok) as (rst&mst&N&Ho&Hrel). destruct (open_file _ _ _ _ _ Ho Hrel _ k n Hk) as (?&?&?&_&_&_&_&_&_&_&_&_&Hn&_).
  rewrite (proj1 (u32_small n Hn)), view_files. by apply YTell.
Qed.

Lemma filesize_post fd : wp (sets_eax (filesize fd)) (post (QFilesize fd)) s.
Proof.
  apply sets_post, xwp_call. destruct (file_of_cases fd) as [[Ef Eg]|(l1&f&l2&Ef&Eg&Hf&Hop&Hfd&_)].
  { assert (post (QFilesize fd) (Go (Some (u32 (-1)))) s) as Hno by (apply (no_file _ fd); [done|exists NULL, 0; tauto]).
    destruct (orb _ _); [by apply wp_ret|]. apply wp_bind. eapply wp_get_file; [exact Eg|]. by apply wp_ret. }
  rewrite (proj2 (Z.ltb_ge fd 2)), (proj2 (Z.leb_gt MAX_FDS fd)) by lia. cbn [orb]. apply wp_bind. eapply wp_get_file; [exact Eg|].
  rewrite (proj2 (Z.eqb_neq _ _) Hf). apply wp_zoom.
  pose proof (abs_run cur (Length f) (files s) a (po_fs _ _ Hok) Hop Hsm) as Hr. cbn [run] in Hr. apply wp_bind in Hr.
  eapply wp_mono; [exact Hr|]. cbn beta. intros n fs' (a'&Hsp&Ha)%wp_ret. inversion Hsp as [| | | | | | | | | | |? k p bs Hk Hb]; subst.
  exists a. split; [|by apply proc_ok_same].
  destruct (abs_size _ _ _ k p bs (po_fs _ _ Hok) Hk Hb) as [_ Hl]. rewrite (proj1 (u32_small (zlen bs) ltac:(lia))), view_files. by apply YFilesize.
Qed.

Lemma seek_post fd n : 0 <= n -> file_of (view s a) fd <> NULL -> wp (keeps_eax (seek fd n)) (post (QSeek fd n)) s.
Proof.
  intros Hn0 Hnn. apply keeps_post, xwp_call, wp_bind. destruct (file_of_cases fd) as [[Ef Eg]|(l1&f&l2&Ef&Eg&Hf&Hop&_)]; [done|].
  eapply wp_get_file; [exact Eg|]. apply wp_bind, wp_assert. split; [by rewrite (proj2 (Z.eqb_neq _ _) Hf)|]. apply wp_bind, wp_zoom.
  pose proof (abs_run cur (Length f) (files s) a (po_fs _ _ Hok) Hop Hsm) as Hr. cbn [run] in Hr. apply wp_bind in Hr.
  eapply wp_mono; [exact Hr|]. cbn beta. intros len fs' (a'&Hsp&Ha)%wp_ret. inversion Hsp as [| | | | | | | | | | |? k p bs Hk Hb]; subst.
  destruct (abs_size _ _ _ k p bs (po_fs _ _ Hok) Hk Hb) as [_ Hl]. rewrite (proj1 (u32_small (zlen bs) ltac:(lia))).
  destruct (Z.ltb_spec (zlen bs) n) as [Hlt|Hle].
  { apply wp_ret. exists a. split; [|by apply proc_ok_same]. rewrite view_files. eapply YSeek; [done|done|]. by rewrite (proj2 (Z.ltb_lt _ _)). }
  assert (0 <= n < 2 ^ 31) as Hn by lia. rewrite (proj2 (u32_small n Hn)). apply wp_zoom.
  destruct Ha as (rst&mst&N&Ho&Hrel). pose proof (seek_ok cur _ _ _ _ _ Ho Hrel _ n Hop Hn) as Hr2. cbn [run] in Hr2. apply wp_bind in Hr2.
  eapply wp_mono; [exact Hr2|]. cbn beta. intros [] fs2 (a2&Hsp2&Ha2)%wp_ret. inversion Hsp2; subst. eexists.
  change (set_files fs2 (set_files fs' s)) with (set_files fs2 s). split.
  - rewrite view_files. eapply YSeek; [done|done|]. rewrite (proj2 (Z.ltb_ge _ _)) by lia. by eapply SSeek.
  - apply proc_ok_fs; [done|]. apply fds_moved.
Qed.

Lemma umem_write m p bs : umem_ok m -> mapped m p (zlen bs) -> Forall (in_u 8) bs -> umem_ok (Mem.write m p bs).
Proof.
  intros [Hm Hz] Hp Hb. split.
  - intros q b. rewrite lookup_write. case_decide as Hq; [|apply Hm]. intros Hbq. destruct (Hp q Hq) as [b' Hb'].
    split; [by apply (Hm q b')|]. by eapply Forall_lookup_1.
  - replace (size (Mem.write m p bs)) with (size m); [done|]. clear Hm Hz Hb. revert m p Hp. induction bs as [|b bs IH]; intros m p Hp; [done|].
    cbn [Mem.write]. destruct (Hp p ltac:(simpl; lia)) as [b' Hb']. rewrite <- IH.
    + by rewrite map_size_insert_Some by eauto.
    + intros q Hq. apply lookup_insert_is_Some'. right. apply Hp. simpl. lia.
Qed.

Lemma read_post fd p n : fd <> 0 -> (forall q, p <= q < p + n -> q ∉ read_only s) -> 0 <= n -> mapped (umem s) p n -> wp (sets_eax (read cur fd p n)) (post (QRead fd p n)) s.
Proof.
  intros Hfd Hro Hn Hp. apply sets_post, buffer_ok; [done..|]. apply xwp_call. rewrite (proj2 (Z.eqb_neq _ _) Hfd). apply wp_bind.
  pose proof (mapped_small p n Hp) as Hn31. destruct (file_of_cases fd) as [[Ef Eg]|(l1&f&l2&Ef&Eg&Hf&Hop&_)]; (eapply wp_get_file; [exact Eg|]).
  { apply wp_ret, (no_file _ fd); [done|exists p, n; tauto]. }
  rewrite (proj2 (Z.eqb_neq _ _) Hf). apply wp_bind. destruct (umem_bytes p n Hp Hn) as (old&Hold&Hlen).
  eapply wp_mem_eq; [replace (Z.to_nat n) with (length old) by lia; by apply get_buffer_eq|]. apply wp_bind, wp_zoom.
  rewrite (proj2 (u32_small n ltac:(lia))). destruct (po_fs _ _ Hok) as (rst&mst&N&Ho&Hrel).
  eapply wp_mono; [by apply (file_read_ok _ _ _ _ _ Ho Hrel f n old Hop)|]. intros r fs' (bs&a'&Hsp&Ha&Hbs&->).
  inversion Hsp as [| | | | | | |? ? k j c Hk Hc| | | |]; subst. pose proof (abs_bytes _ _ _ _ (po_fs _ _ Hok) Hc) as Hu.
  match goal with x := take _ _ |- _ => rename x into new end. assert (Forall (in_u 8) new) as Hr by (by apply Forall_take, Forall_drop).
  clearbody new. apply wp_bind. unfold splice. rewrite take_0, app_nil_l, Nat2Z.id, take_app_length.
  assert (mapped (umem s) p (zlen new)) as Hm by (intros q Hq; apply Hp; lia). unfold wp.
  rewrite put_buffer_eq; [|done|intros q Hq; apply Hro; lia|done].
  eexists. rewrite (proj1 (u32_small (zlen new) ltac:(lia))). split; [by eapply (YRead _ (view s a))|].
  destruct Hok as [? ? ? Hop' ? ?]. split; try done; [|by apply umem_write].
  intros m g Hin. cbn. split; [by eapply Hop'|]. by eapply fds_moved.
Qed.

(** Reading keys. *)
Lemma write_over m p bs cs : (length bs <= length cs)%nat -> Mem.write (Mem.write m p bs) p cs = Mem.write m p cs.
Proof. intros Hl. apply map_eq. intros q. rewrite !lookup_write. repeat case_decide; (done || lia). Qed.

Lemma keyed_cons m p c ks : keyed (Mem.write m p [c; 0; 0; 0]) (p + 1) ks = keyed m p (c :: ks).
Proof.
  unfold keyed. rewrite (decide_False (P := c :: ks = [])) by done. case_decide as E; [by subst|].
  change (Mem.write m p [c; 0; 0; 0]) with (Mem.write (<[p := c]> m) (p + 1) [0; 0; 0]). rewrite write_over; [done|]. rewrite length_app. cbn. lia.
Qed.

Lemma le32_byte c : in_u 8 c -> le32 c = [c; 0; 0; 0].
Proof. intros Hc. unfold le32, in_u in *. rewrite wrapu_small by (unfold in_u; lia). by rewrite !Z.div_small by lia. Qed.

Lemma key_bytes c : in_u 8 c -> Forall (in_u 8) [c; 0; 0; 0].
Proof. intros Hc. apply Forall_cons. split; [done|]. repeat (apply Forall_cons; split; [unfold in_u; lia|]). constructor. Qed.

Lemma keys_loop ks : forall i (t : kstate dev) p rest, umem_ok (umem t) -> keys t = ks ++ rest -> Forall (in_u 8) ks ->
  (ks <> [] -> mapped (umem t) (p + i) (zlen ks + 3) /\ forall q, p + i <= q < p + i + zlen ks + 3 -> q ∉ read_only t) ->
  for_ (length ks) i (fun i => let! c := input_getc in do! put_buffer (u32 (p + i)) (le32 c) in
      let! b := on_mem (load (u32 (p + i))) in modify (fun s => set_console (console s ++ [b]) s)) t =
    Ok (tt, set_keys rest (set_console (console t ++ ks) (set_umem (keyed (umem t) (p + i) ks) t))).
Proof.
  induction ks as [|c ks IH]; intros i t p rest Hm Hk Hb Hr; cbn [for_ length]; [cbn in Hk; subst rest; rewrite app_nil_r; by destruct t|].
  apply Forall_cons in Hb as [Hc Hb]. destruct (Hr ltac:(done)) as [Hmap Hro]. cbn [length] in Hmap, Hro.
  rewrite (proj1 (umem_small t Hm (p + i) (Hmap (p + i) ltac:(lia)))). set (t1 := set_keys (ks ++ rest) t).
  assert (put_buffer (p + i) [c; 0; 0; 0] t1 = Ok (tt, set_umem (Mem.write (umem t) (p + i) [c; 0; 0; 0]) t1)) as Ep.
  { apply (put_buffer_eq _ t1); [intros q Hq; apply Hmap; cbn in Hq; lia|intros q Hq; apply Hro; cbn in Hq; lia|by apply key_bytes]. }
  set (m1 := Mem.write (umem t) (p + i) [c; 0; 0; 0]) in *.
  assert (load (p + i) m1 = Ok (c, m1)) as El by (apply load_eq; unfold m1; rewrite lookup_write, decide_True by (cbn; lia); by rewrite Z.sub_diag).
  set (t2 := set_console (console t ++ [c]) (set_umem m1 t1)).
  rewrite (bind_ok _ _ _ tt t2).
  - rewrite (IH (i + 1) t2 p rest); [|by apply umem_write; [done|intros q Hq; apply Hmap; cbn in Hq; lia|by apply key_bytes]|done|done|].
    + cbn [t2 t1 set_umem set_console set_keys umem console]. rewrite Z.add_assoc, <- app_assoc. unfold m1. by rewrite keyed_cons.
    + intros _. split; [|intros q Hq; apply Hro; lia]. cbn. intros q Hq. apply (write_mapped (umem t) (p + i) [c; 0; 0; 0] (p + i) (Z.of_nat (S (length ks)) + 3) Hmap). lia.
  - unfold bind at 1, input_getc. rewrite Hk. cbn [app]. fold t1. rewrite le32_byte, (bind_ok _ _ _ _ _ Ep) by done. unfold bind, on_mem, zoom. cbn [umem set_umem]. by rewrite El.
Qed.

Lemma keyed_ok m p ks : umem_ok m -> Forall (in_u 8) ks -> (ks <> [] -> mapped m p (zlen ks + 3)) -> umem_ok (keyed m p ks).
Proof.
  intros Hm Hb Hp. unfold keyed. case_decide as E; [done|]. apply umem_write; [done|rewrite length_app; intros q Hq; apply (Hp E); cbn in Hq; lia|].
  apply Forall_app. split; [done|]. apply (Forall_inv_tail (key_bytes 0 ltac:(unfold in_u; lia))).
Qed.

Lemma read_keys_post p n : 0 <= n <= zlen (keys s) -> (0 < n -> mapped (umem s) p (n + 3) /\ forall q, p <= q < p + n + 3 -> q ∉ read_only s) ->
  wp (sets_eax (read cur 0 p n)) (post (QRead 0 p n)) s.
Proof.
  intros Hn Hp. set (ks := take (Z.to_nat n) (keys s)). set (rest := drop (Z.to_nat n) (keys s)).
  assert (keys s = ks ++ rest) as Ek by (unfold ks, rest; by rewrite take_drop). assert (zlen ks = n) as Hl by (unfold ks; rewrite length_take; lia).
  assert (mapped (umem s) p n) as Hmap. { intros q Hq. apply Hp; lia. } pose proof (mapped_small p n Hmap) as Hn31.
  pose proof (po_keys _ _ Hok) as Hb. rewrite Ek in Hb. apply Forall_app in Hb as [Hb Hb'].
  assert (ks <> [] -> mapped (umem s) p (zlen ks + 3) /\ forall q, p <= q < p + zlen ks + 3 -> q ∉ read_only s) as Hp'.
  { intros Hne. rewrite Hl. apply Hp. destruct ks; [done|]. cbn in Hl. lia. }
  apply sets_post, buffer_ok; [done|lia|]. apply xwp_call. cbn [Z.eqb]. apply wp_bind. unfold wp, read_keys.
  replace (Z.to_nat n) with (length ks) by lia. rewrite (keys_loop ks 0 s p rest (po_mem _ _ Hok) Ek Hb) by (by rewrite Z.add_0_r). rewrite Z.add_0_r.
  apply wp_ret. exists a. rewrite (proj1 (u32_small n ltac:(lia))). split; [by apply (YKeys _ (view s a))|].
  destruct Hok. split; try done. cbn. apply keyed_ok; [done|done|]. intros Hne. by apply Hp'.
Qed.

Lemma write_post fd p n : 0 <= n -> mapped (umem s) p n -> wp (sets_eax (write cur fd p n)) (post (QWrite fd p n)) s.
Proof.
  intros Hn Hp. apply sets_post, buffer_ok; [done..|]. apply xwp_call. pose proof (mapped_small p n Hp) as Hn31.
  destruct (umem_bytes p n Hp Hn) as (bs&Hbs&Hlen).
  assert (get_buffer (Z.to_nat n) p (umem s) = Ok (bs, umem s)) as Eb by (replace (Z.to_nat n) with (length bs) by lia; by apply get_buffer_eq).
  destruct (Z.eqb_spec fd 1) as [->|Hfd].
  { apply wp_bind. eapply wp_mem_eq; [exact Eb|]. apply wp_bind, wp_modify, wp_ret. exists a. rewrite (proj1 (u32_small n ltac:(lia))).
    split; [by apply (YPrint _ (view s a))|]. by destruct Hok. }
  apply wp_bind. destruct (file_of_cases fd) as [[Ef Eg]|(l1&f&l2&Ef&Eg&Hf&Hop&_)]; (eapply wp_get_file; [exact Eg|]).
  { apply wp_ret, (no_file _ fd); [done|exists p, n; tauto]. }
  rewrite (proj2 (Z.eqb_neq _ _) Hf). apply wp_bind. eapply wp_mem_eq; [exact Eb|]. apply wp_zoom. rewrite (proj2 (u32_small n ltac:(lia))).
  pose proof (bytes_at_in_u _ _ _ Hbs) as Hu. assert (zlen bs < 2 ^ 31) as Hl by lia.
  pose proof (abs_run cur (Write f bs) (files s) a (po_fs _ _ Hok) (conj Hop (conj Hu Hl)) Hsm) as Hr. cbn [run] in Hr. apply wp_bind in Hr. rewrite Hlen in Hr.
  eapply wp_mono; [exact Hr|]. cbn beta. intros k fs' (a'&Hsp&Ha)%wp_ret. inversion Hsp; subst.
  match goal with x := take _ _ |- _ => rename x into new end. assert (zlen new <= zlen bs) by (unfold new; rewrite length_take; lia).
  clearbody new. eexists. split.
  - rewrite (proj1 (u32_small (zlen new) ltac:(lia))), view_files. by eapply YWrite.
  - apply proc_ok_fs; [done|]. apply fds_moved.
Qed.

Lemma close_loop_ok fd f l1 l2 Q : fd ∉ l1.*1 -> is_Some (a_open a !! f) ->
  (forall fs' a', spec rm a (Close f) RUnit a' -> a_open a' = delete f (a_open a) -> abs fs' a' -> Q (l1 ++ l2) fs') ->
  wp (close_loop cur fd (l1 ++ (fd, f) :: l2)) Q (files s).
Proof.
  intros Hfd Hf. revert Q. induction l1 as [|[n g] l1 IH]; intros Q HQ; cbn [close_loop app].
  - rewrite Z.eqb_refl. apply wp_bind. eapply wp_mono; [by apply (close_one cur _ _ f rm (po_fs _ _ Hok))|].
    intros [] fs' (a'&?&?&?). apply wp_ret. by eapply HQ.
  - cbn in Hfd. apply not_elem_of_cons in Hfd as [Hne Hfd]. rewrite (proj2 (Z.eqb_neq n fd)) by done. apply wp_bind, IH; [done|].
    intros fs' a' ? ? ?. apply wp_ret. by eapply HQ.
Qed.

Lemma close_none fd : fd ∉ (file_descriptors s).*1 -> close_loop cur fd (file_descriptors s) (files s) = Ok (file_descriptors s, files s).
Proof.
  induction (file_descriptors s) as [|[n g] l IH]; intros Hfd; cbn [close_loop]; [done|].
  cbn in Hfd. apply not_elem_of_cons in Hfd as [Hne Hfd]. rewrite (proj2 (Z.eqb_neq n fd)) by done. by rewrite (bind_ok _ _ _ _ _ (IH Hfd)).
Qed.

Lemma close_post fd : wp (keeps_eax (close cur fd)) (post (QClose fd)) s.
Proof.
  apply keeps_post. unfold close. destruct (file_of_cases fd) as [[Ef Eg]|(l1&f&l2&Ef&Eg&Hf&Hop&Hfd&El&Hl1)].
  - assert (post (QClose fd) (Go None) s) as Hno by (exists a; split; [by apply YNotClose|exact Hok]).
    destruct (orb _ _) eqn:Er; [by apply xwp_go|]. apply xwp_call, wp_bind, wp_gets, wp_bind, wp_zoom.
    unfold wp. rewrite close_none; [by destruct s|]. intros ([n g]&->&Hin)%list_elem_of_fmap. unfold file_of in Ef. rewrite Er in Ef. cbn in Ef, Er.
    destruct (find_fd_spec n (file_descriptors s)) as [(l1&f&l2&El&Ef'&_)|[Hni _]].
    + destruct (po_open _ _ Hok n f) as [_ Ho]; [rewrite El; apply elem_of_app; right; by left|].
      apply (abs_open_null _ _ _ (po_fs _ _ Hok) Ho). congruence.
    + apply Hni, list_elem_of_fmap. by exists (n, g).
  - rewrite (proj2 (Z.ltb_ge fd 2)), (proj2 (Z.leb_gt MAX_FDS fd)) by lia. apply xwp_call, wp_bind, wp_gets, wp_bind, wp_zoom.
    rewrite El. apply close_loop_ok; [done..|]. intros fs' a' Hsp Eo Ha. apply wp_modify. exists a'. split; [by eapply (YClose _ (view s a))|].
    destruct Hok as [_ Hnd Hnf Hold ? ?]. rewrite El in Hnd, Hnf, Hold. rewrite fmap_app, fmap_cons in Hnd, Hnf. cbn [fst snd] in Hnd, Hnf.
    rewrite <- Permutation_middle in Hnd, Hnf. apply NoDup_cons in Hnd as [_ Hnd]. apply NoDup_cons in Hnf as [Hfn Hnf]. rewrite <- fmap_app in Hnd, Hfn, Hnf.
    split; try done; cbn.
    intros n g Hin. rewrite Eo. destruct (Hold n g) as [? Ho]; [set_solver|]. split; [done|]. rewrite lookup_delete_ne; [done|]. intros <-.
    apply Hfn, list_elem_of_fmap. by exists (n, f).
Qed.
End calls.

(** What the calls need beyond that. *)
Definition allowed s a (q : request) : Prop :=
  match q with
  | QCreate nm n => valid_name nm /\ 0 <= n /\ n + 511 < 2 ^ 31
  | QSeek fd _ => file_of (view s a) fd <> NULL
  | QRead fd p n =>
      if fd =? 0 then n <= zlen (keys s) /\ (0 < n -> mapped (umem s) p (n + 3) /\ forall q, p <= q < p + n + 3 -> q ∉ read_only s)
      else forall q, p <= q < p + n -> q ∉ read_only s
  | _ => True
  end.

Section handler_ok.
Context (process_execute : list Z -> M (kstate dev) Z) (process_wait : Z -> M (kstate dev) Z) (timer_msleep : Z -> M (kstate dev) unit).
Abbreviation handler := (syscall_handler cur process_execute process_wait timer_msleep).

Lemma handler_ok s a esp q : proc_ok s a -> asks (umem s) esp q -> allowed s a q -> Z.of_nat (size (heap (files s))) + 8 < 2 ^ 30 ->
  wp (handler esp) (post s a q) s.
Proof.
  intros Hok Hq Hal Hsm. destruct Hq as [w Hp|p nm w Hp Hs|p nm Hp Hs|p nm Hp Hs|w Hp|w p n Hp Hm|w p n Hp Hm|w n Hp|w Hp|w Hp]; unfold wp.
  - rewrite (handler_exit _ _ _ s esp (po_mem _ _ Hok) w Hp). pose proof (exit_post s a Hok (s32 w) ltac:(by apply wraps_in)) as He. eapply wp_mono; [exact He|]. by intros [].
  - rewrite (handler_create _ _ _ s esp (po_mem _ _ Hok) p w Hp). destruct Hal as (?&?&?). by apply create_post.
  - rewrite (handler_remove _ _ _ s esp (po_mem _ _ Hok) p Hp). by apply remove_post.
  - rewrite (handler_open _ _ _ s esp (po_mem _ _ Hok) p Hp). by apply open_post.
  - rewrite (handler_filesize _ _ _ s esp (po_mem _ _ Hok) w Hp). by apply filesize_post.
  - rewrite (handler_read _ _ _ s esp (po_mem _ _ Hok) w p n Hp). destruct (Hp 3%nat n eq_refl) as [_ [Hn _]]. cbn [allowed] in Hal.
    destruct (Z.eqb_spec (s32 w) 0) as [E|E]; [rewrite E; destruct Hal; by apply read_keys_post|by apply read_post].
  - rewrite (handler_write _ _ _ s esp (po_mem _ _ Hok) w p n Hp). apply write_post; [done..| |done]. apply (Hp 3%nat n eq_refl).
  - rewrite (handler_seek _ _ _ s esp (po_mem _ _ Hok) w n Hp). apply seek_post; [done..| |done]. apply (Hp 2%nat n eq_refl).
  - rewrite (handler_tell _ _ _ s esp (po_mem _ _ Hok) w Hp). by apply tell_post.
  - rewrite (handler_close _ _ _ s esp (po_mem _ _ Hok) w Hp). by apply close_post.
Qed.

(** C3. A call on files, the keyboard or the console, or [exit], does what it
    is asked for: the handler of interrupt 0x30, entered by a process whose
    stack holds the number of the call and its arguments, returns; what it
    returns and what it does to the file system, the descriptors, the memory of
    the process, the keys and the console is what the specification of the call
    allows, and the process remains well formed.  [exit] prints the name of the
    process and its status and closes its files.  Excluded by [allowed] are the
    requests that the code does not survive or that block it: [create] with an
    invalid name or a size that is not a small positive [int], [seek] on a
    descriptor that is not open, and [read] into read-only memory, of more keys
    than were typed, or of keys into a buffer less than three bytes before
    unmapped or read-only memory. *)
Theorem syscall_correct s a esp q : proc_ok s a -> asks (umem s) esp q -> allowed s a q -> Z.of_nat (size (heap (files s))) + 8 < 2 ^ 30 ->
  wp (handler esp) (fun r s' => exists a', sys_spec (room (files s)) (view s a) q r (view s' a') /\
    match r with Go _ => proc_ok s' a' | _ => abs (files s') a' end) s.
Proof. apply handler_ok. Qed.
End handler_ok.

(** ** Pointers that the process has not mapped *)

(** The number of arguments of a call. *)
Definition arity (num : Z) : option Z :=
  if num =? 0 then Some 0 else if (num =? 4) || (num =? 10) then Some 2 else if (num =? 8) || (num =? 9) then Some 3
  else if (0 <? num) && (num <=? 13) then Some 1 else None.

(** The string at [p] runs into an unmapped byte. *)
Definition bad_string m p : Prop := exists nm, (forall i c, nm !! i = Some c -> m !! (p + Z.of_nat i) = Some c /\ c <> 0) /\ m !! (p + zlen nm) = None.

Inductive bad m esp : Prop :=
  | BNumber : ~ mapped m esp 4 -> bad m esp
  | BUnknown w : word_at m esp w -> arity w = None -> bad m esp
  | BArguments w n : word_at m esp w -> arity w = Some n -> ~ mapped m (esp + 4) (4 * n) -> bad m esp
  | BString w p ws : pushed m esp (w :: p :: ws) -> (w = 2 /\ ws = [] \/ w = 4 /\ zlen ws = 1 \/ w = 6 /\ ws = []) -> bad_string m p -> bad m esp
  | BBuffer w fd p n : pushed m esp [w; fd; p; n] -> w = 8 \/ w = 9 -> ~ mapped m p n -> bad m esp.

Section reject.
Context s (Hm : umem_ok (umem s)).

Abbreviation ends m := (m s = exit cur (-1) s).

Lemma xbind_ends {A B} (m : X dev A) (k : A -> X dev B) : ends m -> ends (xbind m k).
Proof.
  intros E. unfold xbind. unfold bind at 1. rewrite E. unfold exit, bind, gets. destruct (exit_message (-1) s) as [[[] s1]|]; [|done]. by destruct (on_files _ s1) as [[[] t]|e].
Qed.

Lemma validate_pointer_bad p : umem s !! p = None -> ends (validate_pointer cur p).
Proof.
  intros Hp. unfold validate_pointer. destruct (p =? NULL); [done|]. destruct (Vaddr.is_kernel_vaddr p); [done|].
  unfold bind at 1, gets at 1. by rewrite Hp.
Qed.

Lemma umem_top p : is_Some (umem s !! p) -> u32 (p + 1) = p + 1.
Proof. intros Hp%(umem_range s Hm). apply wrapu_small. unfold in_u. unfold Vaddr.PHYS_BASE in Hp. lia. Qed.

Lemma validate_range_bad n : forall p, in_u 32 p -> ~ mapped (umem s) p (Z.of_nat n) -> ends (validate_range cur n p).
Proof.
  induction n as [|n IH]; intros p Hu Hp; [destruct Hp; intros q Hq; lia|]. cbn [validate_range]. rewrite wrapu_small by done.
  destruct (umem s !! p) as [b|] eqn:E; [|by apply xbind_ends, validate_pointer_bad].
  assert (is_Some (umem s !! p)) as Hs by eauto. rewrite (xbind_go _ _ _ _ _ (validate_pointer_eq s Hm p Hs)).
  apply IH; [rewrite <- (umem_top p Hs); by apply wrapu_in|]. intros Hq. apply Hp. intros q Hr. destruct (decide (q = p)) as [->|]; [done|]. apply Hq. lia.
Qed.

Lemma string_loop_bad nm : forall fuel p c, (length nm < fuel)%nat -> umem s !! p = Some c -> c <> 0 ->
  (forall i c, nm !! i = Some c -> umem s !! (p + 1 + Z.of_nat i) = Some c /\ c <> 0) -> umem s !! (p + 1 + zlen nm) = None ->
  ends (string_loop cur fuel p).
Proof.
  induction nm as [|d nm IH]; intros [|fuel] p c Hf Hp Hc Hnm He; try (cbn in Hf; lia); cbn [string_loop];
    rewrite (xbind_go _ _ _ _ _ (call_eq _ _ _ _ (on_mem_eq _ _ _ (load_eq _ _ _ Hp)))), (proj2 (Z.eqb_neq c 0)), umem_top by eauto.
  - apply xbind_ends, validate_pointer_bad. by rewrite Z.add_0_r in He.
  - destruct (Hnm 0%nat d eq_refl) as [Hd Hd0]. rewrite Z.add_0_r in Hd.
    rewrite (xbind_go _ _ _ _ _ (validate_pointer_eq s Hm _ (ex_intro _ _ Hd))). apply (IH _ _ d); try done; [cbn in Hf; lia| |].
    + intros i x Hx. replace (p + 1 + 1 + Z.of_nat i) with (p + 1 + Z.of_nat (S i)) by lia. by apply Hnm.
    + rewrite <- He. f_equal. cbn. lia.
Qed.

Lemma validate_string_bad p : bad_string (umem s) p -> ends (validate_string cur p).
Proof.
  intros ([|c nm]&Hnm&He); unfold validate_string; (destruct (p =? NULL); [done|]).
  - apply xbind_ends, validate_pointer_bad. by rewrite Z.add_0_r in He.
  - destruct (Hnm 0%nat c eq_refl) as [Hc Hc0]. rewrite Z.add_0_r in Hc.
    rewrite (xbind_go _ _ _ _ _ (validate_pointer_eq s Hm _ (ex_intro _ _ Hc))). unfold bind at 1, gets at 1.
    apply (string_loop_bad nm _ _ c); try done.
    + assert (mapped (umem s) p (Z.of_nat (length (c :: nm)))) as Hmap.
      { intros q Hq. destruct (lookup_lt_is_Some_2 (c :: nm) (Z.to_nat (q - p)) ltac:(lia)) as [x Hx].
        destruct (Hnm _ _ Hx) as [Hl _]. exists x. rewrite <- Hl. f_equal. lia. }
      apply mapped_fuel in Hmap. cbn in Hmap. lia.
    + intros i x Hx. replace (p + 1 + Z.of_nat i) with (p + Z.of_nat (S i)) by lia. by apply Hnm.
    + rewrite <- He. f_equal. cbn. lia.
Qed.

Lemma retrive_args1_bad esp w n : word_at (umem s) esp w -> 0 <= n -> ~ mapped (umem s) (esp + 4) (4 * n) -> ends (retrive_args1 cur esp n).
Proof.
  intros Hw Hn Hb. unfold retrive_args1, validate_set_args. assert (u32 (esp + 4) = esp + 4) as E.
  { replace (esp + 4) with (esp + 3 + 1) by lia. apply umem_top. apply (word_at_mapped _ _ _ Hw). lia. }
  rewrite E. apply xbind_ends, validate_range_bad; [rewrite <- E; by apply wrapu_in|]. by replace (Z.of_nat (Z.to_nat (n * 4))) with (4 * n) by lia.
Qed.

Lemma validate_buffer_bad p n : in_u 32 p -> ~ mapped (umem s) p n -> 0 <= n -> ends (validate_buffer cur p n).
Proof. intros Hp Hb Hn. apply validate_range_bad; [done|]. by rewrite Z2Nat.id. Qed.

Section handler_bad.
Context (process_execute : list Z -> M (kstate dev) Z) (process_wait : Z -> M (kstate dev) Z) (timer_msleep : Z -> M (kstate dev) unit).
Abbreviation handler := (syscall_handler cur process_execute process_wait timer_msleep).

Lemma handler_unknown esp w : word_at (umem s) esp w -> arity w = None -> ends (handler esp).
Proof.
  intros Hw Ha. destruct (load_num s Hm esp w []) as [Hval Hnum]; [by intros [|i] x [= <-]; rewrite Z.add_0_r|].
  unfold syscall_handler. rewrite (xbind_go _ _ _ _ _ Hval), (xbind_go _ _ _ _ _ Hnum). clear -Ha.
  destruct w as [|w|w]; [done| |done]. by do 4 (try destruct w as [w|w|]; try discriminate Ha).
Qed.

Lemma handler_args esp w n : word_at (umem s) esp w -> arity w = Some n -> ~ mapped (umem s) (esp + 4) (4 * n) -> ends (handler esp).
Proof.
  intros Hw Ha Hb. destruct (load_num s Hm esp w []) as [Hval Hnum]; [by intros [|i] x [= <-]; rewrite Z.add_0_r|].
  unfold syscall_handler. rewrite (xbind_go _ _ _ _ _ Hval), (xbind_go _ _ _ _ _ Hnum).
  assert (n = 0 -> False) as Hn by (intros ->; apply Hb; intros q Hq; lia). clear Hval Hnum.
  destruct w as [|w|w]; [injection Ha as <-; by destruct Hn| |done].
  do 4 (try destruct w as [w|w|]; try discriminate Ha); injection Ha as <-; apply xbind_ends; eapply retrive_args1_bad; done.
Qed.

Lemma handler_bad esp : in_u 32 esp -> bad (umem s) esp -> ends (handler esp).
Proof.
  intros Hu [Hb|w Hw Ha|w n Hw Ha Hb|w p ws Hp Hw Hb|w fd p n Hp Hw Hb].
  - by apply xbind_ends, validate_range_bad.
  - by eapply handler_unknown.
  - by eapply handler_args.
  - destruct Hw as [[-> ->]|[[-> Hws]|[-> ->]]].
    + rewrite (handler_exec _ _ _ s esp Hm p Hp). by apply xbind_ends, xbind_ends, validate_string_bad.
    + destruct ws as [|n [|]]; [done| |cbn in Hws; lia]. rewrite (handler_create _ _ _ s esp Hm p n Hp). by apply xbind_ends, xbind_ends, validate_string_bad.
    + rewrite (handler_open _ _ _ s esp Hm p Hp). by apply xbind_ends, xbind_ends, validate_string_bad.
  - destruct (Hp 2%nat p eq_refl) as [_ Hpu]. destruct (Hp 3%nat n eq_refl) as [_ Hnu]. destruct Hw as [-> | ->].
    + rewrite (handler_read _ _ _ s esp Hm fd p n Hp). apply xbind_ends, xbind_ends, validate_buffer_bad; [done..|apply Hnu].
    + rewrite (handler_write _ _ _ s esp Hm fd p n Hp). apply xbind_ends, xbind_ends, validate_buffer_bad; [done..|apply Hnu].
Qed.
End handler_bad.
End reject.

Section reject_ok.
Context (process_execute : list Z -> M (kstate dev) Z) (process_wait : Z -> M (kstate dev) Z) (timer_msleep : Z -> M (kstate dev) unit).
Abbreviation handler := (syscall_handler cur process_execute process_wait timer_msleep).

(** C9. A process cannot make the kernel follow a pointer into memory it has
    not mapped: when the stack, an argument, a string or a buffer of a call
    that is checked lies outside it, or the number of the call is unknown, the
    process is ended with status -1: the message with its name and -1 is
    printed, its files are closed, and nothing else has changed. *)
Theorem syscall_rejects s a esp : proc_ok s a -> in_u 32 esp -> bad (umem s) esp ->
  wp (handler esp) (fun r s' => r = Exited (-1) /\ ended s a (-1) s') s.
Proof.
  intros Hok Hu Hb. unfold wp. rewrite (handler_bad s (po_mem _ _ Hok) _ _ _ esp Hu Hb).
  assert (xwp (A := option Z) (exit cur (-1)) (fun _ _ => False) (fun st s' => st = Some (-1) /\ ended s a (-1) s') s) as He by (by eapply exit_ok).
  eapply wp_mono; [exact He|]. intros [x|st|] s' Hr; [done| |by destruct Hr]. by destruct Hr as [[= ->] ?].
Qed.

(** [remove] does not check its argument, and the kernel faults on it. *)
Lemma remove_unvalidated s a esp p : proc_ok s a -> pushed (umem s) esp [5; p] -> umem s !! p = None -> handler esp s = Err EFault.
Proof.
  intros Hok Hp Hb. rewrite (handler_remove _ _ _ s esp (po_mem _ _ Hok) p Hp). 
  assert (string_at p (umem s) = Err EFault) as E by (unfold string_at, bind, get, fuel_of; cbn [get_string]; unfold bind, load; by rewrite Hb).
  unfold sets_eax, xbind, remove, call, on_mem, zoom, bind. by rewrite E.
Qed.

(** [seek] on a descriptor that is not open panics the kernel. *)
Lemma seek_bad_fd s a esp w n : proc_ok s a -> pushed (umem s) esp [10; w; n] -> file_of (view s a) (s32 w) = NULL -> handler esp s = Err EPanic.
Proof.
  intros Hok Hp Hf. rewrite (handler_seek _ _ _ s esp (po_mem _ _ Hok) w n Hp).
  destruct (file_of_cases s a Hok (s32 w)) as [[_ Eg]|(l1&f&l2&Ef&_&Hn&_)]; [|congruence].
  unfold keeps_eax, xbind, seek, call, bind. by rewrite Eg.
Qed.

(** A store to the last byte before an unmapped one, of more than one byte. *)
Lemma put_buffer_overrun s p b bs : umem s !! (p + 1) = None -> bs <> [] -> put_buffer p (b :: bs) s = Err EFault.
Proof.
  intros Hp Hbs. destruct bs as [|c bs]; [done|]. cbn [put_buffer]. unfold put_byte, bind, gets. destruct (decide _); [done|].
  unfold on_mem at 1, zoom at 1, store at 1. destruct (umem s !! p); [|done]. destruct (decide _); [done|].
  unfold on_mem, zoom, store. cbn [umem set_umem]. by rewrite lookup_insert_ne, Hp by lia.
Qed.

(** A key is stored as four bytes: reading one key into the last byte of a
    page that nothing follows faults in the kernel. *)
Lemma read_key_overruns s a esp p c ks : proc_ok s a -> pushed (umem s) esp [8; 0; p; 1] -> is_Some (umem s !! p) ->
  umem s !! (p + 1) = None -> keys s = c :: ks -> handler esp s = Err EFault.
Proof.
  intros Hok Hp Hm Hn Hk. rewrite (handler_read _ _ _ s esp (po_mem _ _ Hok) 0 p 1 Hp). unfold sets_eax, xbind at 1, read.
  unfold bind at 1. assert (validate_buffer cur p 1 s = Ok (Go tt, s)) as E.
  { apply (validate_range_eq s (po_mem _ _ Hok)). intros q Hq. by replace q with p by lia. }
  rewrite (xbind_go _ _ _ _ _ E). change (s32 0 =? 0) with true. cbv iota. unfold call, read_keys. change (Z.to_nat 1) with 1%nat. cbn [for_].
  unfold bind, input_getc. rewrite Hk, Z.add_0_r, (proj1 (umem_small s (po_mem _ _ Hok) p Hm)).
  unfold le32. by rewrite put_buffer_overrun.
Qed.

(** A size of 2 GiB or more is negative for [inode_create], which panics. *)
Lemma inode_create_negative sector len fs : filesys_lock fs = None -> len < 0 -> inode_create cur sector len fs = Err EPanic.
Proof.
  intros Hl Hn. unfold inode_create, on_filesys_lock, lock_acquire. rewrite (proj2 (Z.leb_gt 0 len)) by done.
  unfold zoom, bind. by rewrite Hl.
Qed.
End reject_ok.
End refine.

(** ** An example: a process that creates a file, and one that passes a bad name *)

#[local] Existing Instances FsMount.vol_device Device.bump Device.bump_roomy.

Definition ex_mem (num name : Z) : mem := Mem.write ∅ 4096 (le32 num ++ le32 name ++ le32 10 ++ [97; 0]).
Definition ex_state fs (m : mem) : kstate Block.state := K fs m ∅ [] 2 [] [] (Stdio.chars "ls").

Lemma ex_ok fs a num name : abs fs a -> umem_ok (ex_mem num name) -> proc_ok (ex_state fs (ex_mem num name)) a.
Proof. intros Ha Hm. split; cbn; [done|apply NoDup_nil_2..|by intros n f Hin%not_elem_of_nil|lia|done| |constructor]. split; [|lia]. repeat constructor; lia. Qed.

Lemma ex_umem : umem_ok (ex_mem 4 4108) /\ umem_ok (ex_mem 4 0).
Proof. unfold umem_ok, Vaddr.PHYS_BASE, in_u. split; (split; [|done]); apply (bool_decide_unpack _); by vm_compute. Qed.

Lemma ex_pushed : pushed (ex_mem 4 4108) 4096 [4; 4108; 10] /\ pushed (ex_mem 4 0) 4096 [4; 0; 10].
Proof. split; intros [|[|[|i]]] w [= <-]; (split; [|unfold in_u; lia]); apply (bool_decide_unpack _); by vm_compute. Qed.

Abbreviation ex_handler := (syscall_handler 1 (fun _ => ret (-1)) (fun _ => ret (-1)) (fun _ => ret tt)).

Lemma syscall_correct_witness : exists s : kstate Block.state, proc_ok s (Afs ∅ ∅ ∅) /\ asks (umem s) 4096 (QCreate [97] 10) /\
  wp (ex_handler 4096) (fun r s' => exists a', sys_spec (room (files s)) (view s (Afs ∅ ∅ ∅)) (QCreate [97] 10) r (view s' a') /\
    match r with Go _ => proc_ok s' a' | _ => abs (files s') a' end) s.
Proof.
  destruct FsMount.vol_formatted as (fs&Ha&Hz). exists (ex_state fs (ex_mem 4 4108)).
  assert (proc_ok (ex_state fs (ex_mem 4 4108)) (Afs ∅ ∅ ∅)) as Hok by (apply ex_ok; [exact Ha|apply ex_umem]).
  assert (asks (ex_mem 4 4108) 4096 (QCreate [97] 10)) as Hq.
  { apply (ACreate _ _ 4108 [97] 10); [apply ex_pushed|]. apply (bool_decide_unpack _). by vm_compute. }
  split; [exact Hok|]. split; [exact Hq|]. apply (syscall_correct 1 _ _ _ _ _ 4096 (QCreate [97] 10) Hok Hq); [|cbn; lia].
  split; [|lia]. split_and!; [split; [by repeat constructor|done]|done|simpl; lia].
Defined.

Lemma syscall_rejects_witness : exists s : kstate Block.state, proc_ok s (Afs ∅ ∅ ∅) /\ bad (umem s) 4096 /\
  wp (ex_handler 4096) (fun r s' => r = Exited (-1) /\ ended s (Afs ∅ ∅ ∅) (-1) s') s.
Proof.
  destruct FsMount.vol_formatted as (fs&Ha&Hz). exists (ex_state fs (ex_mem 4 0)).
  assert (proc_ok (ex_state fs (ex_mem 4 0)) (Afs ∅ ∅ ∅)) as Hok by (apply ex_ok; [exact Ha|apply ex_umem]).
  assert (bad (ex_mem 4 0) 4096) as Hb.
  { apply (BString _ _ 4 0 [10]); [apply ex_pushed|tauto|]. exists []. split; [done|]. by vm_compute. }
  split; [exact Hok|]. split; [exact Hb|]. apply (syscall_rejects 1 _ _ _ _ _ 4096 Hok); [unfold in_u; lia|exact Hb].
Defined.
End SyscallSpec.
