(* ===== verification/Process.v ===== *)
(** * Starting, waiting for and ending processes: userprog/process.c

    The protocol of [process_execute], [start_process], [process_wait] and
    [process_exit] between the threads of the system.  A parent and its child
    share a [shared_mem]; every thread has a program counter ([pc]) into these
    functions, and [proc_step] runs a thread from one access of shared state
    to the next, so that a sequence of steps is an interleaving of the
    threads.  [alive_count] is only read and written with its lock held: a
    step takes the lock, and the next one does the access and releases it.
    The semaphore operations run with interrupts off and are single steps
    (Sched models them in detail). *)

From S2P Require Import Prelude.
Local Open Scope Z_scope.

Module Process.

Abbreviation TID_ERROR := (-1)%Z.
Abbreviation tid := Z (only parsing).
Abbreviation sm_ptr := Z (only parsing).

(** ** The state *)

(** [struct shared_mem]; [cmd_line] tells whether the page of the command line
    is still allocated.  The last two fields record between whom it is shared;
    the code never reads them. *)
Record shared_mem := Sm {
  cmd_line : bool;
  child_tid : tid;
  exit_status : Z;
  alive_count : Z;
  alive_count_lock : option tid;
  sema_exec : Z;
  sema_wait : Z;
  waited : bool;
  parent_of : tid;
  child_of : tid }.

(** Where a thread is, between two accesses of shared state. *)
Inductive pc :=
  | User                                     (* running the program *)
  | ExDown (sm : sm_ptr) (t : tid)           (* process_execute *)
  | ExLock (sm : sm_ptr) (t : tid)
  | ExCheck (sm : sm_ptr) (t : tid)
  | ExFail (sm : sm_ptr) (t : tid)
  | ExPush (sm : sm_ptr) (t : tid)
  | ExDone (sm : sm_ptr) (t : tid)
  | StLoad (sm : sm_ptr)                     (* start_process *)
  | StLock (sm : sm_ptr)
  | StInc (sm : sm_ptr)
  | StUp (sm : sm_ptr)
  | StFail (sm : sm_ptr)
  | WtLock (sm : sm_ptr) (t : tid)           (* process_wait *)
  | WtCheck (sm : sm_ptr) (t : tid)
  | WtDead (sm : sm_ptr) (t : tid)
  | WtMark (sm : sm_ptr) (t : tid)
  | WtDown (sm : sm_ptr) (t : tid)
  | WtRead (sm : sm_ptr) (t : tid)
  | XLock                                    (* process_exit *)
  | XDec
  | XUp
  | XKids (l : list sm_ptr)
  | XKidDec (sm : sm_ptr) (l : list sm_ptr)
  | Dead.

(** The fields of [struct thread] for processes.  [loaded] and [exit_code]
    record what became of the process; the code never reads them. *)
Record proc := Proc {
  at_pc : pc;
  child_relations : list sm_ptr;
  parent_relation : option sm_ptr;
  waiting : bool;
  loaded : bool;
  exit_code : option Z }.

Record state := St {
  procs : gmap tid proc;
  sms : gmap sm_ptr shared_mem;
  next_tid : tid;
  next_sm : sm_ptr }.

(** What the world decides: what a program does next and what fails. *)
Inductive choice :=
  | CExec (malloc_ok page_ok thread_ok : bool) (garbage : bool)
  | CWait (child : tid)
  | CExit (status : Z)
  | CKill                                    (* an exception ends the process *)
  | CLoad (page_ok ok : bool)
  | CGo.

(** What a call returned. *)
Inductive event :=
  | Executed (t : tid)
  | Waited (t : tid) (v : Z).

Definition set_pc c x := Proc c (child_relations x) (parent_relation x) (waiting x) (loaded x) (exit_code x).
Definition set_children l x := Proc (at_pc x) l (parent_relation x) (waiting x) (loaded x) (exit_code x).
Definition set_parent p x := Proc (at_pc x) (child_relations x) (Some p) (waiting x) (loaded x) (exit_code x).
Definition set_waiting b x := Proc (at_pc x) (child_relations x) (parent_relation x) b (loaded x) (exit_code x).
Definition set_loaded b x := Proc (at_pc x) (child_relations x) (parent_relation x) (waiting x) b (exit_code x).
Definition set_code v x := Proc (at_pc x) (child_relations x) (parent_relation x) (waiting x) (loaded x) (Some v).

Definition set_line b m := Sm b (child_tid m) (exit_status m) (alive_count m) (alive_count_lock m) (sema_exec m) (sema_wait m) (waited m) (parent_of m) (child_of m).
Definition set_child t m := Sm (cmd_line m) t (exit_status m) (alive_count m) (alive_count_lock m) (sema_exec m) (sema_wait m) (waited m) (parent_of m) (child_of m).
Definition set_status v m := Sm (cmd_line m) (child_tid m) v (alive_count m) (alive_count_lock m) (sema_exec m) (sema_wait m) (waited m) (parent_of m) (child_of m).
Definition set_count n m := Sm (cmd_line m) (child_tid m) (exit_status m) n (alive_count_lock m) (sema_exec m) (sema_wait m) (waited m) (parent_of m) (child_of m).
Definition set_lock l m := Sm (cmd_line m) (child_tid m) (exit_status m) (alive_count m) l (sema_exec m) (sema_wait m) (waited m) (parent_of m) (child_of m).
Definition set_exec n m := Sm (cmd_line m) (child_tid m) (exit_status m) (alive_count m) (alive_count_lock m) n (sema_wait m) (waited m) (parent_of m) (child_of m).
Definition set_wait n m := Sm (cmd_line m) (child_tid m) (exit_status m) (alive_count m) (alive_count_lock m) (sema_exec m) n (waited m) (parent_of m) (child_of m).
Definition set_waited b m := Sm (cmd_line m) (child_tid m) (exit_status m) (alive_count m) (alive_count_lock m) (sema_exec m) (sema_wait m) b (parent_of m) (child_of m).

(** ** Accesses *)

Definition proc_at (t : tid) : M state proc :=
  fun s => match procs s !! t with Some x => Ok (x, s) | None => Err EBlock end.
Definition upd_proc (t : tid) (f : proc -> proc) : M state unit :=
  modify (fun s => St (alter f t (procs s)) (sms s) (next_tid s) (next_sm s)).
Definition sm_at (p : sm_ptr) : M state shared_mem :=
  fun s => match sms s !! p with Some m => Ok (m, s) | None => Err EFault end.
Definition upd_sm (p : sm_ptr) (f : shared_mem -> shared_mem) : M state unit :=
  modify (fun s => St (procs s) (alter f p (sms s)) (next_tid s) (next_sm s)).

(** [lock_acquire] and [lock_release] on [alive_count_lock]. *)
Definition lock_acquire (t : tid) (p : sm_ptr) : M state unit :=
  let! m := sm_at p in
  match alive_count_lock m with
  | None => upd_sm p (set_lock (Some t))
  | Some u => if u =? t then fail EPanic else fail EBlock
  end.
Definition lock_release (t : tid) (p : sm_ptr) : M state unit :=
  let! m := sm_at p in
  do! assert (match alive_count_lock m with Some u => u =? t | None => false end) in
  upd_sm p (set_lock None).

(** The two semaphores. *)
Definition down_exec (p : sm_ptr) : M state unit :=
  let! m := sm_at p in if sema_exec m =? 0 then fail EBlock else upd_sm p (set_exec (sema_exec m - 1)).
Definition up_exec (p : sm_ptr) : M state unit := let! m := sm_at p in upd_sm p (set_exec (sema_exec m + 1)).
Definition down_wait (p : sm_ptr) : M state unit :=
  let! m := sm_at p in if sema_wait m =? 0 then fail EBlock else upd_sm p (set_wait (sema_wait m - 1)).
Definition up_wait (p : sm_ptr) : M state unit := let! m := sm_at p in upd_sm p (set_wait (sema_wait m + 1)).

(** Reading the page of the command line, and freeing it. *)
Definition use_line (p : sm_ptr) : M state unit := let! m := sm_at p in if cmd_line m then ret tt else fail EFault.
Definition free_line (p : sm_ptr) : M state unit := do! use_line p in upd_sm p (set_line false).

Section step.
Context (t : tid).

Definition goto (c : pc) : M state (option event) := do! upd_proc t (set_pc c) in ret None.
Definition returns (e : event) : M state (option event) := do! upd_proc t (set_pc User) in ret (Some e).

(** ** process_execute *)

(** Up to the new thread: the [shared_mem] is new, [waited] is whatever the
    memory held. *)
Definition process_execute (malloc_ok page_ok thread_ok garbage : bool) : M state (option event) :=
  if negb malloc_ok then fail EFault else
  let! p := gets next_sm in
  let! c := gets next_tid in
  if negb page_ok then returns (Executed TID_ERROR) else
  if negb thread_ok then returns (Executed TID_ERROR) else
  do! modify (fun s => St (<[c := Proc (StLoad p) [] None false false None]> (procs s))
    (<[p := Sm true TID_ERROR (-1) 1 None 0 0 garbage t c]> (sms s)) (c + 1) (p + 1)) in
  goto (ExDown p c).

Definition execute_step (c : pc) : M state (option event) :=
  match c with
  | ExDown p u => do! down_exec p in goto (ExLock p u)
  | ExLock p u => do! lock_acquire t p in goto (ExCheck p u)
  | ExCheck p u =>
      let! m := sm_at p in
      do! lock_release t p in
      if alive_count m =? 1 then goto (ExFail p u) else goto (ExPush p u)
  | ExFail p u => do! free_line p in returns (Executed TID_ERROR)
  | ExPush p u => do! upd_proc t (fun x => set_children (child_relations x ++ [p]) x) in goto (ExDone p u)
  | ExDone p u => do! free_line p in do! upd_sm p (set_child u) in returns (Executed u)
  | _ => fail EBlock
  end.

(** ** start_process

    The page for [argv] is not checked, like the memory for [shared_mem]; the
    first word written to it faults if there is none. *)

Definition start_step (c : pc) (ch : choice) : M state (option event) :=
  match c, ch with
  | StLoad p, CLoad page_ok success =>
      if negb page_ok then fail EFault else
      do! use_line p in
      do! upd_proc t (fun x => set_loaded success (set_parent p x)) in
      if success then goto (StLock p) else
      do! upd_sm p (set_status (-1)) in goto (StFail p)
  | StLock p, _ => do! lock_acquire t p in goto (StInc p)
  | StInc p, _ =>
      do! upd_sm p (fun m => set_count (alive_count m + 1) m) in
      do! lock_release t p in goto (StUp p)
  | StUp p, _ => do! use_line p in do! up_exec p in goto User
  | StFail p, _ => do! up_exec p in do! upd_proc t (set_code (-1)) in goto XLock
  | _, _ => fail EBlock
  end.

(** ** process_wait *)

Fixpoint find_child (child : tid) (l : list sm_ptr) : M state (option sm_ptr) :=
  match l with
  | [] => ret None
  | p :: l' => let! m := sm_at p in if child_tid m =? child then ret (Some p) else find_child child l'
  end.

Definition process_wait (child : tid) : M state (option event) :=
  if child =? TID_ERROR then returns (Waited child (-1)) else
  let! cur := proc_at t in
  if waiting cur then returns (Waited child (-1)) else
  let! r := find_child child (child_relations cur) in
  match r with
  | None => returns (Waited child (-1))
  | Some p =>
      let! m := sm_at p in
      if waited m then returns (Waited child (-1)) else goto (WtLock p child)
  end.

Definition wait_step (c : pc) : M state (option event) :=
  match c with
  | WtLock p u => do! lock_acquire t p in goto (WtCheck p u)
  | WtCheck p u =>
      let! m := sm_at p in
      do! lock_release t p in
      if alive_count m =? 1 then goto (WtDead p u) else goto (WtMark p u)
  | WtDead p u => let! m := sm_at p in returns (Waited u (exit_status m))
  | WtMark p u =>
      do! upd_proc t (set_waiting true) in
      do! upd_sm p (set_waited true) in goto (WtDown p u)
  | WtDown p u => do! down_wait p in goto (WtRead p u)
  | WtRead p u =>
      do! upd_proc t (set_waiting false) in
      let! m := sm_at p in returns (Waited u (exit_status m))
  | _ => fail EBlock
  end.

(** ** exit and process_exit

    The message that [process_exit] prints first is in [Syscall.exit_message]. *)

Definition relation : M state sm_ptr :=
  let! cur := proc_at t in match parent_relation cur with Some p => ret p | None => fail EFault end.

(** [exit] of syscall.c stores the status; [kill] of exception.c does not. *)
Definition exit (status : Z) : M state (option event) :=
  let! p := relation in
  do! upd_sm p (set_status status) in
  do! upd_proc t (set_code status) in goto XLock.
Definition kill : M state (option event) :=
  do! relation in do! upd_proc t (set_code (-1)) in goto XLock.

Definition exit_step (c : pc) : M state (option event) :=
  match c with
  | XLock => let! p := relation in do! lock_acquire t p in goto XDec
  | XDec =>
      let! p := relation in
      do! upd_sm p (fun m => set_count (alive_count m - 1) m) in
      let! m := sm_at p in
      do! lock_release t p in
      let! cur := proc_at t in
      if alive_count m =? 0 then goto (XKids (child_relations cur)) else goto XUp
  | XUp =>
      let! p := relation in
      do! up_wait p in
      let! cur := proc_at t in goto (XKids (child_relations cur))
  | XKids [] => goto Dead
  | XKids (p :: l) => do! lock_acquire t p in goto (XKidDec p l)
  | XKidDec p l =>
      do! upd_sm p (fun m => set_count (alive_count m - 1) m) in
      let! m := sm_at p in
      do! lock_release t p in
      do! (if alive_count m =? 0 then upd_proc t (fun x => set_children (filter (fun q => q <> p) (child_relations x)) x) else ret tt) in
      goto (XKids l)
  | _ => fail EBlock
  end.

(** ** A step of the thread *)

Definition proc_step (ch : choice) : M state (option event) :=
  let! cur := proc_at t in
  match at_pc cur with
  | User =>
      match ch with
      | CExec malloc_ok page_ok thread_ok garbage => process_execute malloc_ok page_ok thread_ok garbage
      | CWait child => process_wait child
      | CExit status => exit status
      | CKill => kill
      | _ => ret None
      end
  | ExDown _ _ | ExLock _ _ | ExCheck _ _ | ExFail _ _ | ExPush _ _ | ExDone _ _ => execute_step (at_pc cur)
  | StLoad _ | StLock _ | StInc _ | StUp _ | StFail _ => start_step (at_pc cur) ch
  | WtLock _ _ | WtCheck _ _ | WtDead _ _ | WtMark _ _ | WtDown _ _ | WtRead _ _ => wait_step (at_pc cur)
  | _ => exit_step (at_pc cur)
  end.
End step.

(** The first thread, which no process started. *)
Definition main_tid : tid := 1.
Definition init : state := St {[ main_tid := Proc User [] None false true None ]} ∅ 2 1.

Inductive reach : state -> Prop :=
  | reach_init : reach init
  | reach_step s t ch ev s' : reach s -> proc_step t ch s = Ok (ev, s') -> reach s'.
End Process.
