(* ===== verification/ProcessInv.v ===== *)
(** * Invariant of the process protocol

    Every [shared_mem] is seen from two sides: the phase of its parent
    ([pphase]) and the phase of its child ([cphase]).  [rel_ok] relates the two
    phases and the fields; a step of a thread is a step of one of the sides of
    at most one relation, and keeps it. *)

From S2P Require Import Prelude.
From S2P Require Import Process.
Local Open Scope Z_scope.

Module ProcessInv.
Import Process.

(** ** The two sides of a relation *)

Inductive pphase := PDown | PLock | PCheck | PFail | PPush | PDone | PIdle | PWLock | PWCheck | PWDead | PWMark | PWDown | PWRead | PKid | PGone.
Inductive cphase := CStart | CStLock | CStInc | CStUp | CStFail | CRun | CXLock | CXDec | CXUp | CLate.

Definition on (p q : Z) (ph : pphase) : pphase := if q =? p then ph else PIdle.

(** Relation [p] seen by its parent; [pushed] when it is among its children. *)
Definition pphase_of (c : pc) (pushed : bool) (p : Z) : pphase :=
  match c with
  | ExDown q _ => on p q PDown | ExLock q _ => on p q PLock | ExCheck q _ => on p q PCheck
  | ExFail q _ => on p q PFail | ExPush q _ => on p q PPush | ExDone q _ => on p q PDone
  | WtLock q _ => on p q PWLock | WtCheck q _ => on p q PWCheck | WtDead q _ => on p q PWDead
  | WtMark q _ => on p q PWMark | WtDown q _ => on p q PWDown | WtRead q _ => on p q PWRead
  | XKids l => if pushed && negb (bool_decide (p ∈ l)) then PGone else PIdle
  | XKidDec q l => if q =? p then PKid else if pushed && negb (bool_decide (p ∈ l)) then PGone else PIdle
  | Dead => if pushed then PGone else PIdle
  | _ => PIdle
  end.

Definition cphase_of (c : pc) : cphase :=
  match c with
  | StLoad _ => CStart | StLock _ => CStLock | StInc _ => CStInc | StUp _ => CStUp | StFail _ => CStFail
  | XLock => CXLock | XDec => CXDec | XUp => CXUp | XKids _ | XKidDec _ _ | Dead => CLate
  | _ => CRun
  end.

Definition pholds ph : bool := match ph with PCheck | PWCheck | PKid => true | _ => false end.
Definition cholds c : bool := match c with CStInc | CXDec => true | _ => false end.
Definition gone ph : bool := match ph with PGone => true | _ => false end.
Definition starting c : bool := match c with CStart | CStLock | CStInc | CStUp | CStFail => true | _ => false end.
Definition entered c : bool := match c with CStart | CStLock | CStInc => false | _ => true end.
Definition left_ c : bool := match c with CXUp | CLate => true | _ => false end.
Definition late c : bool := match c with CLate => true | _ => false end.
Definition dying c : bool := match c with CXLock | CXDec | CXUp | CLate => true | _ => false end.
Definition executing ph : bool := match ph with PDown | PLock | PCheck | PFail | PPush | PDone => true | _ => false end.
Definition fresh_wait ph : bool := match ph with PWLock | PWCheck | PWMark => true | _ => false end.
Definition b2z (b : bool) : Z := if b then 1 else 0.

(** The fields against the phases: [ld] tells whether the program was loaded,
    [code] with what the child ended. *)
Record rel_ok (ph : pphase) (c : cphase) (ld : bool) (code : option Z) (m : shared_mem) : Prop := RelOk {
  k_excl : pholds ph && cholds c = false;
  k_lock : alive_count_lock m = if pholds ph then Some (parent_of m) else if cholds c then Some (child_of m) else None;
  k_count : alive_count m = b2z (negb (gone ph)) + b2z (ld && entered c) - b2z (left_ c);
  k_exec : sema_exec m = if starting c then 0 else match ph with PDown => 1 | _ => 0 end;
  k_start : starting c = true -> ph = PDown;
  k_line : executing ph = true -> cmd_line m = true;
  k_wait : gone ph = false -> waited m = false \/ ph = PWDown -> sema_wait m = b2z (ld && late c);
  k_up : c = CXUp -> gone ph = false -> ld = true;
  k_loaded : match c with CStLock | CStInc | CStUp | CRun => ld = true | CStFail => ld = false | _ => True end;
  k_dying : dying c = match code with Some _ => true | None => false end;
  k_code : exit_status m = default (-1) code;
  k_fresh : fresh_wait ph = true -> waited m = false;
  k_read : ph = PWDead \/ ph = PWRead -> dying c = true;
  k_fail : ph = PFail -> ld = false \/ dying c = true;
  k_push : ph = PPush \/ ph = PDone -> ld = true \/ dying c = true;
  k_marked : ph = PWDown -> waited m = true }.

(** ** Moves of the parent and of the child *)

Ltac side :=
  repeat match goal with
  | H : ?x = ?x |- _ => clear H
  | H : ?x = ?x -> _ |- _ => specialize (H eq_refl)
  | H : ?x = ?y -> _ |- _ => assert (x <> y) as _ by discriminate; clear H
  | H : ?P \/ ?Q -> ?R |- _ => pose proof (fun h : P => H (or_introl h)); pose proof (fun h : Q => H (or_intror h)); clear H
  | H : _ \/ _ |- _ => destruct H
  | H : ?x = ?y -> _, E : ?x = ?y |- _ => specialize (H E)
  end.
Ltac rel :=
  intros [K1 K2 K3 K4 K5 K6 K7 K8 K9 K10 K11 K12 K13 K14 K15 K16]; intros; subst;
  match goal with |- rel_ok _ ?c ?ld _ _ => try (is_var c; destruct c); try (is_var ld; destruct ld) end;
  simpl in *; unfold b2z in *; side; try discriminate; try lia; split; simpl; intros; side; first [done|lia|congruence|tauto].

Section moves.
Context (c : cphase) (ld : bool) (code : option Z) (m : shared_mem).
Abbreviation ok ph := (rel_ok ph c ld code).

Lemma pm_down : ok PDown m -> sema_exec m <> 0 -> ok PLock (set_exec (sema_exec m - 1) m).
Proof. rel. Qed.
Lemma pm_lock : ok PLock m -> alive_count_lock m = None -> ok PCheck (set_lock (Some (parent_of m)) m).
Proof. rel. Qed.
Lemma pm_fail : ok PCheck m -> alive_count m = 1 -> ok PFail (set_lock None m).
Proof. rel. Qed.
Lemma pm_push : ok PCheck m -> alive_count m <> 1 -> ok PPush (set_lock None m).
Proof. rel. Qed.
Lemma pm_failed : ok PFail m -> ok PIdle (set_line false m).
Proof. rel. Qed.
Lemma pm_pushed : ok PPush m -> ok PDone m.
Proof. rel. Qed.
Lemma pm_done u : ok PDone m -> ok PIdle (set_child u (set_line false m)).
Proof. rel. Qed.
Lemma pm_wait : ok PIdle m -> waited m = false -> ok PWLock m.
Proof. rel. Qed.
Lemma pm_wlock : ok PWLock m -> alive_count_lock m = None -> ok PWCheck (set_lock (Some (parent_of m)) m).
Proof. rel. Qed.
Lemma pm_wdead : ok PWCheck m -> alive_count m = 1 -> ok PWDead (set_lock None m).
Proof. rel. Qed.
Lemma pm_wmark : ok PWCheck m -> alive_count m <> 1 -> ok PWMark (set_lock None m).
Proof. rel. Qed.
Lemma pm_mark : ok PWMark m -> ok PWDown (set_waited true m).
Proof. rel. Qed.
Lemma pm_wdown : ok PWDown m -> sema_wait m <> 0 -> ok PWRead (set_wait (sema_wait m - 1) m).
Proof. rel. Qed.
Lemma pm_dead : ok PWDead m -> ok PIdle m.
Proof. rel. Qed.
Lemma pm_read : ok PWRead m -> ok PIdle m.
Proof. rel. Qed.
Lemma pm_kid : ok PIdle m -> alive_count_lock m = None -> ok PKid (set_lock (Some (parent_of m)) m).
Proof. rel. Qed.
Lemma pm_gone : ok PKid m -> ok PGone (set_lock None (set_count (alive_count m - 1) m)).
Proof. rel. Qed.
End moves.

Section child_moves.
Context (ph : pphase) (ld : bool) (code : option Z) (m : shared_mem).
Abbreviation ok c := (rel_ok ph c ld code).

Ltac crel := match goal with |- rel_ok ?ph _ _ ?code _ -> _ => destruct ph, code end; rel.

Lemma cm_load : ok CStart m -> rel_ok ph CStLock true code m.
Proof. destruct ld; crel. Qed.
Lemma cm_no_load : ok CStart m -> rel_ok ph CStFail false code (set_status (-1) m).
Proof. destruct ld; crel. Qed.
Lemma cm_lock : ok CStLock m -> alive_count_lock m = None -> ok CStInc (set_lock (Some (child_of m)) m).
Proof. crel. Qed.
Lemma cm_inc : ok CStInc m -> ok CStUp (set_lock None (set_count (alive_count m + 1) m)).
Proof. crel. Qed.
Lemma cm_up : ok CStUp m -> ok CRun (set_exec (sema_exec m + 1) m).
Proof. crel. Qed.
Lemma cm_fail : ok CStFail m -> rel_ok ph CXLock ld (Some (-1)) (set_exec (sema_exec m + 1) m).
Proof. crel. Qed.
Lemma cm_exit v : ok CRun m -> rel_ok ph CXLock ld (Some v) (set_status v m).
Proof. crel. Qed.
Lemma cm_kill : ok CRun m -> rel_ok ph CXLock ld (Some (-1)) m.
Proof. crel. Qed.
Lemma cm_xlock : ok CXLock m -> alive_count_lock m = None -> ok CXDec (set_lock (Some (child_of m)) m).
Proof. crel. Qed.
Lemma cm_last : ok CXDec m -> alive_count m - 1 = 0 -> ok CLate (set_lock None (set_count (alive_count m - 1) m)).
Proof. crel. Qed.
Lemma cm_xdec : ok CXDec m -> alive_count m - 1 <> 0 -> ok CXUp (set_lock None (set_count (alive_count m - 1) m)).
Proof. crel. Qed.
Lemma cm_xup : ok CXUp m -> ok CLate (set_wait (sema_wait m + 1) m).
Proof. crel. Qed.
End child_moves.

(** ** The threads *)

Definition pushed (m : shared_mem) : bool := negb (child_tid m =? TID_ERROR).

(** The relation that a thread has, or will have, with its parent. *)
Definition rel_of (x : proc) : option Z := match at_pc x with StLoad p => Some p | _ => parent_relation x end.

Definition is_late (c : pc) : bool := late (cphase_of c).

(** What the program counter says about the relation it names. *)
Definition pc_ok (ms : gmap Z shared_mem) (t : Z) (x : proc) : Prop :=
  match at_pc x with
  | User => waiting x = false
  | ExDown p u | ExLock p u | ExCheck p u | ExFail p u | ExPush p u =>
      waiting x = false /\ p ∉ child_relations x /\ exists m, ms !! p = Some m /\ parent_of m = t /\ child_of m = u /\ child_tid m = TID_ERROR
  | ExDone p u =>
      waiting x = false /\ p ∈ child_relations x /\ exists m, ms !! p = Some m /\ parent_of m = t /\ child_of m = u /\ child_tid m = TID_ERROR
  | StLoad p => parent_relation x = None /\ waiting x = false
  | StLock p | StInc p | StUp p | StFail p => parent_relation x = Some p /\ waiting x = false
  | WtLock p u | WtCheck p u | WtDead p u | WtMark p u =>
      waiting x = false /\ p ∈ child_relations x /\ exists m, ms !! p = Some m /\ child_of m = u
  | WtDown p u | WtRead p u => p ∈ child_relations x /\ exists m, ms !! p = Some m /\ child_of m = u
  | XLock | XDec | XUp => is_Some (parent_relation x)
  | XKids l => NoDup l /\ l ⊆ child_relations x
  | XKidDec p l => NoDup (p :: l) /\ p :: l ⊆ child_relations x
  | Dead => True
  end.

Record proc_ok (ms : gmap Z shared_mem) (nt : Z) (t : Z) (x : proc) : Prop := ProcOk {
  a_range : 0 < t < nt;
  a_rel p : rel_of x = Some p -> exists m, ms !! p = Some m /\ child_of m = t;
  a_main : t = main_tid \/ is_Some (rel_of x);
  a_nodup : NoDup (child_relations x);
  a_kids p : p ∈ child_relations x -> exists m, ms !! p = Some m /\ parent_of m = t /\ (child_tid m = child_of m \/ exists u, at_pc x = ExDone p u);
  a_all p m : ms !! p = Some m -> parent_of m = t -> pushed m = true -> is_late (at_pc x) = false -> p ∈ child_relations x;
  a_pc : pc_ok ms t x }.

(** A relation, between the threads it names. *)
Record rel_in (ps : gmap Z proc) (p : Z) (m : shared_mem) : Prop := RelIn {
  l_order : 0 < parent_of m < child_of m;
  l_rel : exists P C, ps !! parent_of m = Some P /\ ps !! child_of m = Some C /\ rel_of C = Some p /\
    rel_ok (pphase_of (at_pc P) (pushed m) p) (cphase_of (at_pc C)) (loaded C) (exit_code C) m }.

Record inv (s : state) : Prop := Inv {
  i_procs t x : procs s !! t = Some x -> proc_ok (sms s) (next_tid s) t x;
  i_rels p m : sms s !! p = Some m -> p < next_sm s /\ rel_in (procs s) p m }.

(** ** Steps *)

Definition same (t : Z) (m m' : shared_mem) : Prop :=
  parent_of m' = parent_of m /\ child_of m' = child_of m /\ (parent_of m = t -> child_tid m' = child_tid m).

Lemma pc_ok_frame ms ms' t x : (forall q m, ms !! q = Some m -> exists m', ms' !! q = Some m' /\ same t m m') -> pc_ok ms t x -> pc_ok ms' t x.
Proof.
  intros Hf. unfold pc_ok. destruct (at_pc x); try done; intros; destruct_and!;
    match goal with H : exists m, _ |- _ => destruct H as (m&Hm&Hr); destruct (Hf _ _ Hm) as (m'&Hm'&E1&E2&E3); split_and!; try done; exists m'; destruct_and?; split_and?; try done end;
    try congruence; rewrite E3; congruence.
Qed.

Lemma proc_ok_frame ms ms' nt nt' t x : nt <= nt' -> (forall q m, ms !! q = Some m -> exists m', ms' !! q = Some m' /\ same t m m') ->
  (forall q m', ms' !! q = Some m' -> parent_of m' = t -> exists m, ms !! q = Some m /\ same t m m') -> proc_ok ms nt t x -> proc_ok ms' nt' t x.
Proof.
  intros Hnt Hf Hb [A1 A2 A3 A4 A5 A6 A7]. split; try done; [lia|..].
  - intros p (m&Hm&Hc)%A2. destruct (Hf _ _ Hm) as (m'&?&_&?&_). exists m'. split; [done|congruence].
  - intros p (m&Hm&Hp&Hc)%A5. destruct (Hf _ _ Hm) as (m'&?&E1&E2&E3). exists m'. specialize (E3 Hp). split_and!; [done|congruence|]. rewrite E2, E3. done.
  - intros p m' Hm' Hp. destruct (Hb _ _ Hm' Hp) as (m&Hm&E1&E2&E3). unfold pushed. rewrite E3 by congruence. apply (A6 _ _ Hm). congruence.
  - by eapply pc_ok_frame.
Qed.

(** A step of thread [t], from [x] to [x']: what it does to a relation. *)
Record rel_step (t q : Z) (x x' : proc) (m m' : shared_mem) : Prop := RelStep {
  e_parent : parent_of m' = parent_of m;
  e_child : child_of m' = child_of m;
  e_tid : parent_of m <> t -> child_tid m' = child_tid m;
  e_other : parent_of m <> t -> child_of m <> t -> m' = m;
  e_above c ld code : parent_of m = t -> rel_ok (pphase_of (at_pc x) (pushed m) q) c ld code m -> rel_ok (pphase_of (at_pc x') (pushed m') q) c ld code m';
  e_below ph : child_of m = t -> rel_of x = Some q -> rel_ok ph (cphase_of (at_pc x)) (loaded x) (exit_code x) m ->
    rel_ok ph (cphase_of (at_pc x')) (loaded x') (exit_code x') m' }.

Lemma inv_step s t x x' ms' : inv s -> procs s !! t = Some x -> proc_ok ms' (next_tid s) t x' -> rel_of x' = rel_of x ->
  (forall q, match sms s !! q, ms' !! q with Some m, Some m' => rel_step t q x x' m m' | None, None => True | _, _ => False end) ->
  inv (St (<[t := x']> (procs s)) ms' (next_tid s) (next_sm s)).
Proof.
  intros [Hps Hrs] Hx Hx' Hrel Hms. split; cbn.
  - intros u y [[<- <-]|[Hne Hy]]%lookup_insert_Some; [done|]. eapply proc_ok_frame; [reflexivity| | |exact (Hps _ _ Hy)].
    + intros q m Hm. specialize (Hms q). rewrite Hm in Hms. destruct (ms' !! q) as [m'|]; [|done]. exists m'. split; [done|].
      destruct Hms as [E1 E2 E3 _ _ _]. split_and!; [done|done|]. intros Eu. apply E3. congruence.
    + intros q m' Hm' Hu. specialize (Hms q). rewrite Hm' in Hms. destruct (sms s !! q) as [m|]; [|done]. exists m. split; [done|].
      destruct Hms as [E1 E2 E3 _ _ _]. split_and!; [done|done|]. intros Eu. apply E3. congruence.
  - intros q m' Hm'. specialize (Hms q). rewrite Hm' in Hms. destruct (sms s !! q) as [m|] eqn:Hm; [|done].
    destruct (Hrs _ _ Hm) as [Hlt [Ho (P&C&HP&HC&HrC&Hok)]]. destruct Hms as [E1 E2 E3 E4 E5 E6]. split; [done|]. split; [congruence|]. rewrite E1, E2.
    destruct (decide (parent_of m = t)) as [Ep|Np], (decide (child_of m = t)) as [Ec|Nc]; [lia|..].
    + rewrite Ep, lookup_insert_eq, lookup_insert_ne by congruence. exists x', C. split_and!; try done. apply E5; [done|].
      replace x with P by congruence. done.
    + rewrite Ec, lookup_insert_eq, lookup_insert_ne by congruence. exists P, x'. assert (C = x) as -> by congruence.
      split_and!; try done; [congruence|]. unfold pushed. rewrite E3 by done. by apply E6.
    + rewrite !lookup_insert_ne by done. exists P, C. rewrite E4 by done. done.
Qed.

(** A step on a relation of which [t] is the parent, and one on its own. *)
Lemma inv_above s t x x' p m m' : inv s -> procs s !! t = Some x -> sms s !! p = Some m -> parent_of m = t -> parent_of m' = t -> child_of m' = child_of m ->
  proc_ok (<[p := m']> (sms s)) (next_tid s) t x' -> rel_of x' = rel_of x -> cphase_of (at_pc x') = cphase_of (at_pc x) ->
  loaded x' = loaded x -> exit_code x' = exit_code x ->
  (forall q mq, q <> p -> sms s !! q = Some mq -> parent_of mq = t -> pphase_of (at_pc x') (pushed mq) q = pphase_of (at_pc x) (pushed mq) q) ->
  (forall c ld code, rel_ok (pphase_of (at_pc x) (pushed m) p) c ld code m -> rel_ok (pphase_of (at_pc x') (pushed m') p) c ld code m') ->
  inv (St (<[t := x']> (procs s)) (<[p := m']> (sms s)) (next_tid s) (next_sm s)).
Proof.
  intros Hi Hx Hm Hp Hp' Hc Hx' E1 E2 E3 E4 Hq Hr. eapply inv_step; try done. intros q. destruct (decide (p = q)) as [<-|Hne].
  - rewrite Hm, lookup_insert_eq. destruct (i_rels _ Hi p m Hm) as [_ [Ho _]]. split; [congruence|done|congruence|congruence|intros ? ? ? _; apply Hr|lia].
  - rewrite lookup_insert_ne by done. destruct (sms s !! q) as [mq|] eqn:Hmq; [|done].
    split; try done; [intros ? ? ? Ht; by rewrite (Hq q mq)|by rewrite E2, E3, E4].
Qed.

Lemma inv_below s t x x' p m m' : inv s -> procs s !! t = Some x -> sms s !! p = Some m -> child_of m = t -> rel_of x = Some p ->
  parent_of m' = parent_of m -> child_of m' = t -> child_tid m' = child_tid m ->
  proc_ok (<[p := m']> (sms s)) (next_tid s) t x' -> rel_of x' = rel_of x ->
  (forall q mq, sms s !! q = Some mq -> parent_of mq = t -> pphase_of (at_pc x') (pushed mq) q = pphase_of (at_pc x) (pushed mq) q) ->
  (forall ph, rel_ok ph (cphase_of (at_pc x)) (loaded x) (exit_code x) m -> rel_ok ph (cphase_of (at_pc x')) (loaded x') (exit_code x') m') ->
  inv (St (<[t := x']> (procs s)) (<[p := m']> (sms s)) (next_tid s) (next_sm s)).
Proof.
  intros Hi Hx Hm Hc Hrel Hp' Hc' Ht Hx' E1 Hq Hr. eapply inv_step; try done. intros q. destruct (decide (p = q)) as [<-|Hne].
  - rewrite Hm, lookup_insert_eq. destruct (i_rels _ Hi p m Hm) as [_ [Ho _]]. split; try done; [congruence|lia|intros ph _ _; apply Hr].
  - rewrite lookup_insert_ne by done. destruct (sms s !! q) as [mq|] eqn:Hmq; [|done].
    split; try done; [intros ? ? ? Hpt; by rewrite (Hq q mq)|]. intros ph _ E. congruence.
Qed.

(** A step that touches no relation. *)
Lemma inv_alone s t x x' : inv s -> procs s !! t = Some x -> proc_ok (sms s) (next_tid s) t x' -> rel_of x' = rel_of x -> cphase_of (at_pc x') = cphase_of (at_pc x) ->
  loaded x' = loaded x -> exit_code x' = exit_code x ->
  (forall q mq, sms s !! q = Some mq -> parent_of mq = t -> pphase_of (at_pc x') (pushed mq) q = pphase_of (at_pc x) (pushed mq) q) ->
  inv (St (<[t := x']> (procs s)) (sms s) (next_tid s) (next_sm s)).
Proof.
  intros Hi Hx Hx' E1 E2 E3 E4 Hq. eapply inv_step; try done. intros q. destruct (sms s !! q) as [mq|] eqn:Hmq; [|done].
  split; try done; [intros ? ? ? Hpt; by rewrite (Hq q mq)|by rewrite E2, E3, E4].
Qed.
End ProcessInv.
