(* ===== verification/ProcessStep.v ===== *)
(** * The steps of the process protocol keep its invariant

    Every step of every thread, in every interleaving: [step_ok]. *)

From S2P Require Import Prelude.
From S2P Require Import Process.
From S2P Require Import ProcessInv.
Local Open Scope Z_scope.

Module ProcessStep.
Import Process ProcessInv.

(** What a call that returns tells the caller about its child. *)
Definition event_ok (s : state) (x : proc) (ev : option event) : Prop :=
  match ev with
  | None => True
  | Some (Waited u v) => (at_pc x = User /\ v = -1) \/ exists C, procs s !! u = Some C /\ exit_code C = Some v
  | Some (Executed u) =>
      if u =? TID_ERROR then
        at_pc x = User \/ exists p c C, at_pc x = ExFail p c /\ procs s !! c = Some C /\ (loaded C = false \/ is_Some (exit_code C))
      else exists C, procs s !! u = Some C /\ (loaded C = true \/ is_Some (exit_code C))
  end.

(** What the world may decide: [malloc] has memory, there is a page for [argv],
    and the first thread stays. *)
Definition legal (t : Z) (ch : choice) : Prop :=
  match ch with CExec malloc_ok _ _ _ => malloc_ok = true | CLoad page_ok _ => page_ok = true | CExit _ | CKill => t <> main_tid | _ => True end.

Definition outcome (s : state) (x : proc) (r : res (option event * state)) : Prop :=
  match r with Ok (ev, s') => inv s' /\ event_ok s x ev | Err e => e = EBlock end.

(** ** Running a step *)

Lemma alter_at {A} (f : A -> A) (t : Z) (ps : gmap Z A) x : ps !! t = Some x -> alter f t ps = <[t := f x]> ps.
Proof. intros Hx. rewrite <- (insert_id ps t x) at 1 by done. by rewrite alter_insert_eq. Qed.

Section run.
Context (s : state) (t p : Z).

(** The state with thread [t] and relation [p] changed. *)
Definition W (x : proc) (m : shared_mem) : state := St (<[t := x]> (procs s)) (<[p := m]> (sms s)) (next_tid s) (next_sm s).

Lemma W_id x m : procs s !! t = Some x -> sms s !! p = Some m -> s = W x m.
Proof. intros Hx Hm. unfold W. rewrite !insert_id by done. by destruct s. Qed.

Context (x : proc) (m : shared_mem).

Lemma proc_at_W : proc_at t (W x m) = Ok (x, W x m).
Proof. unfold proc_at. cbn. by rewrite lookup_insert_eq. Qed.
Lemma upd_proc_W f : upd_proc t f (W x m) = Ok (tt, W (f x) m).
Proof. unfold upd_proc, modify, W. cbn. by rewrite alter_insert_eq. Qed.
Lemma sm_at_W : sm_at p (W x m) = Ok (m, W x m).
Proof. unfold sm_at. cbn. by rewrite lookup_insert_eq. Qed.
Lemma upd_sm_W f : upd_sm p f (W x m) = Ok (tt, W x (f m)).
Proof. unfold upd_sm, modify, W. cbn. by rewrite alter_insert_eq. Qed.
Lemma goto_W c : goto t c (W x m) = Ok (None, W (set_pc c x) m).
Proof. unfold goto, bind. by rewrite upd_proc_W. Qed.
Lemma returns_W e : returns t e (W x m) = Ok (Some e, W (set_pc User x) m).
Proof. unfold returns, bind. by rewrite upd_proc_W. Qed.
Lemma acquire_W : lock_acquire t p (W x m) =
  match alive_count_lock m with None => Ok (tt, W x (set_lock (Some t) m)) | Some u => Err (if u =? t then EPanic else EBlock) end.
Proof. unfold lock_acquire, bind. rewrite sm_at_W. destruct (alive_count_lock m) as [u|]; [by destruct (u =? t)|apply upd_sm_W]. Qed.
Lemma release_W : alive_count_lock m = Some t -> lock_release t p (W x m) = Ok (tt, W x (set_lock None m)).
Proof. intros E. unfold lock_release, bind. rewrite sm_at_W, E, Z.eqb_refl. apply upd_sm_W. Qed.
Lemma use_line_W : cmd_line m = true -> use_line p (W x m) = Ok (tt, W x m).
Proof. intros E. unfold use_line, bind. by rewrite sm_at_W, E. Qed.
Lemma free_line_W : cmd_line m = true -> free_line p (W x m) = Ok (tt, W x (set_line false m)).
Proof. intros E. unfold free_line, bind. by rewrite use_line_W, upd_sm_W. Qed.
Lemma down_exec_W : down_exec p (W x m) = if sema_exec m =? 0 then Err EBlock else Ok (tt, W x (set_exec (sema_exec m - 1) m)).
Proof. unfold down_exec, bind. rewrite sm_at_W. destruct (_ =? _); [done|apply upd_sm_W]. Qed.
Lemma up_exec_W : up_exec p (W x m) = Ok (tt, W x (set_exec (sema_exec m + 1) m)).
Proof. unfold up_exec, bind. rewrite sm_at_W. apply upd_sm_W. Qed.
Lemma down_wait_W : down_wait p (W x m) = if sema_wait m =? 0 then Err EBlock else Ok (tt, W x (set_wait (sema_wait m - 1) m)).
Proof. unfold down_wait, bind. rewrite sm_at_W. destruct (_ =? _); [done|apply upd_sm_W]. Qed.
Lemma up_wait_W : up_wait p (W x m) = Ok (tt, W x (set_wait (sema_wait m + 1) m)).
Proof. unfold up_wait, bind. rewrite sm_at_W. apply upd_sm_W. Qed.
Lemma relation_W : parent_relation x = Some p -> relation t (W x m) = Ok (p, W x m).
Proof. intros E. unfold relation, bind. by rewrite proc_at_W, E. Qed.
End run.

Create HintDb protocol.
#[local] Hint Rewrite proc_at_W upd_proc_W sm_at_W upd_sm_W goto_W returns_W acquire_W down_exec_W up_exec_W down_wait_W up_wait_W : protocol.

(** ** process_execute, once the child is there *)

Section above.
Context (s : state) (t : Z) (x : proc) (Hi : inv s) (Hx : procs s !! t = Some x).

Definition kids_kept (x' : proc) : Prop :=
  child_relations x' = child_relations x \/ is_late (at_pc x') = true /\ NoDup (child_relations x') /\ child_relations x' ⊆ child_relations x.

(** The parent's side of relation [p] moves. *)
Lemma above_ok p m x' m' : sms s !! p = Some m -> parent_of m = t -> parent_of m' = t -> child_of m' = child_of m -> child_tid m' = child_tid m ->
  rel_of x' = rel_of x -> cphase_of (at_pc x') = cphase_of (at_pc x) -> loaded x' = loaded x -> exit_code x' = exit_code x ->
  kids_kept x' -> (forall q u, at_pc x <> ExDone q u) -> pc_ok (<[p := m']> (sms s)) t x' ->
  (forall q mq, q <> p -> sms s !! q = Some mq -> parent_of mq = t -> pphase_of (at_pc x') (pushed mq) q = pphase_of (at_pc x) (pushed mq) q) ->
  (forall c ld code, rel_ok (pphase_of (at_pc x) (pushed m) p) c ld code m -> rel_ok (pphase_of (at_pc x') (pushed m') p) c ld code m') ->
  inv (W s t p x' m').
Proof.
  intros Hm Hp Hp' Hc Ht Er E3 E4 E5 Hk Hn Hpc Hq Hr. eapply inv_above; try done.
  pose proof (i_procs _ Hi t x Hx) as [A1 A2 A3 A4 A5 A6 A7]. split; try done; rewrite ?Er; try done.
  - intros q Hq'. destruct (A2 q Hq') as (mq&Hmq&?). destruct (decide (p = q)) as [<-|]; [|rewrite lookup_insert_ne by done; eauto].
    rewrite lookup_insert_eq. exists m'. split; [done|]. congruence.
  - destruct Hk as [->|(_&?&_)]; done.
  - intros q Hq'. destruct (A5 q) as (mq&Hmq&?&Hch); [destruct Hk as [<-|(_&_&Hk)]; [done|by apply Hk]|].
    destruct Hch as [Hch|[u ?]]; [|by destruct (Hn q u)]. destruct (decide (p = q)) as [<-|].
    + rewrite lookup_insert_eq. exists m'. assert (mq = m) as -> by congruence. split_and!; [done|done|left; congruence].
    + rewrite lookup_insert_ne by done. eauto 10.
  - intros q mq Hmq Hpq Hpu Hl. destruct Hk as [->|(Hl'&_)]; [|congruence]. unfold is_late in *. rewrite E3 in Hl.
    destruct (decide (p = q)) as [<-|]; [rewrite lookup_insert_eq in Hmq|rewrite lookup_insert_ne in Hmq by done; by eapply A6].
    injection Hmq as <-. eapply A6; [done|done| |done]. unfold pushed in *. by rewrite <- Ht.
Qed.

(** The fields of the relation that a thread's program counter names. *)
Lemma rel_at p m : sms s !! p = Some m -> parent_of m = t -> exists C, procs s !! child_of m = Some C /\
  rel_ok (pphase_of (at_pc x) (pushed m) p) (cphase_of (at_pc C)) (loaded C) (exit_code C) m.
Proof.
  intros Hm Hp. destruct (i_rels _ Hi p m Hm) as [_ [_ (P&C&HP&HC&_&Hok)]]. exists C. split; [done|]. congruence.
Qed.

Lemma on_ne p q ph : q <> p -> on q p ph = PIdle.
Proof. intros Hne. unfold on. by rewrite (proj2 (Z.eqb_neq p q)) by done. Qed.

Lemma on_eq p ph : on p p ph = ph.
Proof. unfold on. by rewrite Z.eqb_refl. Qed.

(** The relation of an [execute_step]. *)
Lemma ex_rel p u : match at_pc x with ExDown q v | ExLock q v | ExCheck q v | ExFail q v | ExPush q v | ExDone q v => q = p /\ v = u | _ => False end ->
  exists m, sms s !! p = Some m /\ parent_of m = t /\ child_of m = u /\ child_tid m = TID_ERROR.
Proof.
  intros Hpc. pose proof (a_pc _ _ _ _ (i_procs _ Hi t x Hx)) as Ha. unfold pc_ok in Ha.
  destruct (at_pc x); try done; destruct Hpc as [-> ->]; by destruct Ha as (_&_&?).
Qed.

Lemma step_W p m ch : sms s !! p = Some m -> proc_step t ch s = proc_step t ch (W s t p x m).
Proof. intros Hm. by rewrite <- (W_id s t p x m Hx Hm). Qed.

(** Run to the access of a step at [E : at_pc x = _]. *)
Ltac run E p m Hm :=
  rewrite (step_W p m _ Hm); unfold proc_step, bind at 1; rewrite proc_at_W; cbv beta; rewrite E;
  cbn [execute_step start_step wait_step exit_step]; unfold bind.

(** The parent's side moves by [mv], from [E : at_pc x = _]. *)
Ltac above E mv :=
  eapply above_ok;
  lazymatch goal with
  | |- rel_of _ = _ => unfold rel_of; cbn; by rewrite E
  | |- cphase_of _ = _ => cbn; by rewrite E
  | |- kids_kept _ => by left
  | |- forall q u, at_pc _ <> _ => intros ? ?; by rewrite E
  | |- pc_ok _ _ _ =>
      unfold pc_ok; cbn; rewrite ?lookup_insert_eq; destruct_and?; split_and?; try done; eexists; split_and?; try reflexivity; done
  | |- forall q mq, _ -> _ -> _ -> _ => intros ? ? ? _ _; rewrite E; cbn; by rewrite ?on_ne
  | |- forall c ld code, _ -> _ => intros ? ? ?; rewrite E; cbn; rewrite ?on_eq; intros ?; by apply mv
  | |- _ => done
  end.

Ltac pc_fact E Ha := pose proof (a_pc _ _ _ _ (i_procs _ Hi t x Hx)) as Ha; unfold pc_ok in Ha; rewrite E in Ha.

Lemma ex_down_ok p u ch : at_pc x = ExDown p u -> outcome s x (proc_step t ch s).
Proof.
  intros E. destruct (ex_rel p u) as (m&Hm&Hp&Hc&Hct); [by rewrite E|]. pc_fact E Ha. run E p m Hm.
  rewrite down_exec_W. destruct (Z.eqb_spec (sema_exec m) 0) as [|Hne]; [done|]. rewrite goto_W. split; [|done].
  above E pm_down.
Qed.

(** The lock is free or held by the child. *)
Lemma acquire_err p m v : sms s !! p = Some m -> parent_of m = t -> pholds (pphase_of (at_pc x) (pushed m) p) = false ->
  alive_count_lock m = Some v -> (if v =? t then EPanic else EBlock) = EBlock.
Proof.
  intros Hm Hp Hh Hl. destruct (i_rels _ Hi p m Hm) as [_ [Ho _]]. destruct (rel_at p m Hm Hp) as (C&_&[_ K2 _ _ _ _ _ _ _ _ _ _ _ _ _ _]).
  rewrite Hl, Hh in K2. destruct (cholds _); [|done]. injection K2 as ->. rewrite (proj2 (Z.eqb_neq _ _)); [done|lia].
Qed.

Lemma held_above p m : sms s !! p = Some m -> parent_of m = t -> pholds (pphase_of (at_pc x) (pushed m) p) = true -> alive_count_lock m = Some t.
Proof.
  intros Hm Hp Hh. destruct (rel_at p m Hm Hp) as (C&_&[_ K2 _ _ _ _ _ _ _ _ _ _ _ _ _ _]). rewrite Hh in K2. congruence.
Qed.

Lemma line_above p m : sms s !! p = Some m -> parent_of m = t -> executing (pphase_of (at_pc x) (pushed m) p) = true -> cmd_line m = true.
Proof. intros Hm Hp He. destruct (rel_at p m Hm Hp) as (C&_&Hr). by apply Hr. Qed.

Ltac phase E := rewrite E; cbn; by rewrite on_eq.

Lemma ex_lock_ok p u ch : at_pc x = ExLock p u -> outcome s x (proc_step t ch s).
Proof.
  intros E. destruct (ex_rel p u) as (m&Hm&Hp&Hc&Hct); [by rewrite E|]. pc_fact E Ha. run E p m Hm.
  rewrite acquire_W. destruct (alive_count_lock m) as [v|] eqn:El; [eapply acquire_err; try done; phase E|].
  rewrite goto_W. split; [|done]. rewrite <- Hp at 2. above E pm_lock.
Qed.

Lemma ex_check_ok p u ch : at_pc x = ExCheck p u -> outcome s x (proc_step t ch s).
Proof.
  intros E. destruct (ex_rel p u) as (m&Hm&Hp&Hc&Hct); [by rewrite E|]. pc_fact E Ha. run E p m Hm.
  rewrite sm_at_W, release_W by (eapply held_above; try done; phase E).
  destruct (Z.eqb_spec (alive_count m) 1); rewrite goto_W; (split; [|done]); [above E pm_fail|above E pm_push].
Qed.

Lemma ex_fail_ok p u ch : at_pc x = ExFail p u -> outcome s x (proc_step t ch s).
Proof.
  intros E. destruct (ex_rel p u) as (m&Hm&Hp&Hc&Hct); [by rewrite E|]. pc_fact E Ha. run E p m Hm.
  rewrite free_line_W by (eapply line_above; try done; phase E). rewrite returns_W. split; [above E pm_failed|].
  cbn. right. destruct (rel_at p m Hm Hp) as (C&HC&Hr). exists p, u, C. split; [done|]. split; [congruence|]. rewrite E in Hr. cbn in Hr. rewrite on_eq in Hr.
  destruct (k_fail _ _ _ _ _ Hr eq_refl) as [?|Hd]; [by left|right]. rewrite (k_dying _ _ _ _ _ Hr) in Hd. destruct (exit_code C); [done|discriminate].
Qed.

(** The relation of a [wait_step]. *)
Lemma wt_rel p u : match at_pc x with WtLock q v | WtCheck q v | WtDead q v | WtMark q v | WtDown q v | WtRead q v => q = p /\ v = u | _ => False end ->
  exists m, sms s !! p = Some m /\ parent_of m = t /\ child_of m = u /\ child_tid m = u.
Proof.
  intros Hpc. destruct (i_procs _ Hi t x Hx) as [_ _ _ _ A5 _ Ha]. unfold pc_ok in Ha.
  destruct (at_pc x) eqn:E; try done; destruct Hpc as [-> ->]; destruct_and?; destruct (A5 p) as (m&Hm&Hp&[Ht|[? ?]]); try done;
    match goal with H : exists m, _ |- _ => destruct H as (m'&Hm'&Hc) end; assert (m' = m) as -> by congruence; exists m; split_and!; congruence.
Qed.

Lemma dying_code p m : sms s !! p = Some m -> parent_of m = t -> pphase_of (at_pc x) (pushed m) p = PWDead \/ pphase_of (at_pc x) (pushed m) p = PWRead ->
  exists C, procs s !! child_of m = Some C /\ exit_code C = Some (exit_status m).
Proof.
  intros Hm Hp Hph. destruct (rel_at p m Hm Hp) as (C&HC&Hr). exists C. split; [done|]. pose proof (k_read _ _ _ _ _ Hr Hph) as Hd.
  rewrite (k_dying _ _ _ _ _ Hr) in Hd. rewrite (k_code _ _ _ _ _ Hr). by destruct (exit_code C).
Qed.

Lemma wt_lock_ok p u ch : at_pc x = WtLock p u -> outcome s x (proc_step t ch s).
Proof.
  intros E. destruct (wt_rel p u) as (m&Hm&Hp&Hc&Hct); [by rewrite E|]. pc_fact E Ha. run E p m Hm.
  rewrite acquire_W. destruct (alive_count_lock m) as [v|] eqn:El; [eapply acquire_err; try done; phase E|].
  rewrite goto_W. split; [|done]. rewrite <- Hp at 2. above E pm_wlock.
Qed.

Lemma wt_check_ok p u ch : at_pc x = WtCheck p u -> outcome s x (proc_step t ch s).
Proof.
  intros E. destruct (wt_rel p u) as (m&Hm&Hp&Hc&Hct); [by rewrite E|]. pc_fact E Ha. run E p m Hm.
  rewrite sm_at_W, release_W by (eapply held_above; try done; phase E).
  destruct (Z.eqb_spec (alive_count m) 1); rewrite goto_W; (split; [|done]); [above E pm_wdead|above E pm_wmark].
Qed.

Lemma wt_dead_ok p u ch : at_pc x = WtDead p u -> outcome s x (proc_step t ch s).
Proof.
  intros E. destruct (wt_rel p u) as (m&Hm&Hp&Hc&Hct); [by rewrite E|]. pc_fact E Ha. run E p m Hm.
  rewrite sm_at_W, returns_W. split; [above E pm_dead|]. cbn. right. rewrite <- Hc. eapply dying_code; try done. left. phase E.
Qed.

Lemma wt_mark_ok p u ch : at_pc x = WtMark p u -> outcome s x (proc_step t ch s).
Proof.
  intros E. destruct (wt_rel p u) as (m&Hm&Hp&Hc&Hct); [by rewrite E|]. pc_fact E Ha. run E p m Hm.
  rewrite upd_proc_W, upd_sm_W, goto_W. split; [|done]. above E pm_mark.
Qed.

Lemma wt_down_ok p u ch : at_pc x = WtDown p u -> outcome s x (proc_step t ch s).
Proof.
  intros E. destruct (wt_rel p u) as (m&Hm&Hp&Hc&Hct); [by rewrite E|]. pc_fact E Ha. run E p m Hm.
  rewrite down_wait_W. destruct (Z.eqb_spec (sema_wait m) 0) as [|Hne]; [done|]. rewrite goto_W. split; [|done]. above E pm_wdown.
Qed.

Lemma wt_read_ok p u ch : at_pc x = WtRead p u -> outcome s x (proc_step t ch s).
Proof.
  intros E. destruct (wt_rel p u) as (m&Hm&Hp&Hc&Hct); [by rewrite E|]. pc_fact E Ha. run E p m Hm.
  rewrite upd_proc_W, sm_at_W, returns_W. split; [above E pm_read|]. cbn. right. rewrite <- Hc. eapply dying_code; try done. right. phase E.
Qed.

Lemma ex_push_ok p u ch : at_pc x = ExPush p u -> outcome s x (proc_step t ch s).
Proof.
  intros E. destruct (ex_rel p u) as (m&Hm&Hp&Hc&Hct); [by rewrite E|]. pc_fact E Ha. destruct Ha as (Hw&Hni&_). run E p m Hm.
  rewrite upd_proc_W, goto_W. split; [|done].
  eapply inv_above; try done; [|unfold rel_of; cbn; by rewrite E|cbn; by rewrite E|intros ? ? ? _ _; rewrite E; cbn; by rewrite ?on_ne|].
  2: { intros ? ? ?. rewrite E. cbn. rewrite !on_eq. apply pm_pushed. }
  rewrite insert_id by done. destruct (i_procs _ Hi t x Hx) as [A1 A2 A3 A4 A5 A6 _]. unfold rel_of in A2, A3. rewrite E in A2, A3, A5, A6.
  split; cbn; try done.
  - apply NoDup_app. split_and!; [done| |apply NoDup_singleton]. by intros q Hq ->%list_elem_of_singleton.
  - intros q [Hq| ->%list_elem_of_singleton]%elem_of_app; [|eauto 10]. destruct (A5 q Hq) as (mq&?&?&[?|[? ?]]); [eauto 10|done].
  - intros q mq Hq Hpq Hpu _. apply elem_of_app. left. by eapply A6.
  - unfold pc_ok. cbn. split_and!; [done|apply elem_of_app; right; by apply list_elem_of_singleton|eauto].
Qed.

Lemma ex_done_ok p u ch : at_pc x = ExDone p u -> outcome s x (proc_step t ch s).
Proof.
  intros E. destruct (ex_rel p u) as (m&Hm&Hp&Hc&Hct); [by rewrite E|]. pc_fact E Ha. destruct Ha as (Hw&Hin&_). run E p m Hm.
  rewrite free_line_W by (eapply line_above; try done; phase E). rewrite upd_sm_W, returns_W. split.
  - eapply inv_above; try done; [|unfold rel_of; cbn; by rewrite E|cbn; by rewrite E|intros ? ? ? _ _; rewrite E; cbn; by rewrite ?on_ne|].
    2: { intros ? ? ?. rewrite E. cbn. rewrite !on_eq. apply pm_done. }
    destruct (i_procs _ Hi t x Hx) as [A1 A2 A3 A4 A5 A6 _]. unfold rel_of in A2, A3. rewrite E in A2, A3, A5, A6. split; cbn; try done.
    + intros q (mq&Hmq&Hcq)%A2. destruct (decide (p = q)) as [<-|]; [rewrite lookup_insert_eq|rewrite lookup_insert_ne by done; eauto].
      eexists. split; [done|]. cbn. congruence.
    + intros q Hq. destruct (A5 q Hq) as (mq&?&?&Ht). destruct (decide (p = q)) as [<-|]; [rewrite lookup_insert_eq|rewrite lookup_insert_ne by done].
      * eexists. split_and!; [done|done|]. left. cbn. congruence.
      * exists mq. split_and!; [done|done|]. left. destruct Ht as [|[? [= ? ?]]]; done.
    + intros q mq Hq Hpq Hpu _. destruct (decide (p = q)) as [<-|]; [done|]. rewrite lookup_insert_ne in Hq by done. by eapply A6.
  - cbn. destruct (i_rels _ Hi p m Hm) as [_ [Ho _]]. rewrite (proj2 (Z.eqb_neq u TID_ERROR)) by lia.
    destruct (rel_at p m Hm Hp) as (C&HC&Hr). exists C. split; [congruence|]. rewrite E in Hr. cbn in Hr. rewrite on_eq in Hr.
    destruct (k_push _ _ _ _ _ Hr (or_intror eq_refl)) as [?|Hd]; [by left|right]. rewrite (k_dying _ _ _ _ _ Hr) in Hd. destruct (exit_code C); [done|discriminate].
Qed.

(** The children of a process that ends. *)
Lemma x_none_ok ch : at_pc x = XKids [] -> outcome s x (proc_step t ch s).
Proof.
  intros E. unfold proc_step, bind at 1, proc_at at 1. rewrite Hx. cbv beta. rewrite E. cbn [exit_step]. unfold goto, bind, upd_proc, modify.
  split; [|done]. rewrite (alter_at _ _ _ _ Hx). eapply inv_alone; try done; [|unfold rel_of; cbn; by rewrite E|cbn; by rewrite E|].
  - destruct (i_procs _ Hi t x Hx) as [A1 A2 A3 A4 A5 A6 _]. unfold rel_of in A2, A3. rewrite E in A2, A3, A5, A6. split; cbn; try done.
    intros q Hq. destruct (A5 q Hq) as (mq&?&?&[?|[? ?]]); [eauto 10|done].
  - intros q mq _ _. rewrite E. cbn. rewrite bool_decide_false by apply not_elem_of_nil. by destruct (pushed mq).
Qed.

Lemma x_kid_ok p l ch : at_pc x = XKids (p :: l) -> outcome s x (proc_step t ch s).
Proof.
  intros E. pc_fact E Ha. destruct Ha as [Hnd Hsub]. destruct (i_procs _ Hi t x Hx) as [_ _ _ _ A5 _ _].
  destruct (A5 p) as (m&Hm&Hp&_); [apply Hsub; by left|]. run E p m Hm.
  assert (pphase_of (at_pc x) (pushed m) p = PIdle) as Eph by (rewrite E; cbn; rewrite bool_decide_true by (by left); by destruct (pushed m)).
  rewrite acquire_W. destruct (alive_count_lock m) as [v|] eqn:El; [eapply acquire_err; try done; by rewrite Eph|].
  rewrite goto_W. split; [|done]. rewrite <- Hp at 2. eapply above_ok; try done; [unfold rel_of; cbn; by rewrite E|cbn; by rewrite E|by left|intros ? ?; by rewrite E|..].
  - intros q mq Hne _ _. rewrite E. cbn. rewrite (proj2 (Z.eqb_neq p q)) by done. by rewrite (bool_decide_ext (q ∈ l) (q ∈ p :: l)) by set_solver.
  - intros c ld code. rewrite Eph. cbn. rewrite Z.eqb_refl. intros Hr. by apply pm_kid.
Qed.

Lemma x_kid_dec_ok p l ch : at_pc x = XKidDec p l -> outcome s x (proc_step t ch s).
Proof.
  intros E. pc_fact E Ha. destruct Ha as [[Hpl Hnd]%NoDup_cons Hsub]. destruct (i_procs _ Hi t x Hx) as [_ _ _ _ A5 _ _].
  destruct (A5 p) as (m&Hm&Hp&Ht); [apply Hsub; by left|]. destruct Ht as [Ht|[? ?]]; [|congruence].
  assert (pushed m = true) as Epu. { unfold pushed. destruct (i_rels _ Hi p m Hm) as [_ [Ho _]]. rewrite (proj2 (Z.eqb_neq _ _)); [done|lia]. }
  assert (pphase_of (at_pc x) (pushed m) p = PKid) as Eph by (rewrite E; cbn; by rewrite Z.eqb_refl).
  run E p m Hm. rewrite upd_sm_W, sm_at_W, release_W by (change (alive_count_lock m = Some t); eapply held_above; try done; by rewrite Eph).
  assert (forall kids, kids = child_relations x \/ kids = filter (fun q => q <> p) (child_relations x) ->
    inv (W s t p (set_pc (XKids l) (set_children kids x)) (set_lock None (set_count (alive_count m - 1) m)))) as Hinv.
  { intros kids Hk. eapply above_ok; try done; [unfold rel_of; cbn; by rewrite E|cbn; by rewrite E| |intros ? ?; by rewrite E|..].
    - destruct Hk as [->| ->]; [by left|right]. split_and!; [done|apply NoDup_filter, (a_nodup _ _ _ _ (i_procs _ Hi t x Hx))|cbn; intros q; rewrite list_elem_of_filter; tauto].
    - unfold pc_ok. cbn. split; [done|]. intros q Hq. assert (q ∈ child_relations x) by (apply Hsub; by right).
      destruct Hk as [->| ->]; [done|]. apply list_elem_of_filter. split; [congruence|done].
    - intros q mq Hne _ _. rewrite E. cbn. by rewrite (proj2 (Z.eqb_neq p q)) by done.
    - intros c ld code. rewrite Eph. change (pushed (set_lock None (set_count (alive_count m - 1) m))) with (pushed m). cbn.
      rewrite Epu, bool_decide_false by done. apply pm_gone. }
  destruct (_ =? 0).
  - rewrite upd_proc_W, goto_W. split; [|done]. apply Hinv. by right.
  - unfold ret. rewrite goto_W. split; [|done]. specialize (Hinv _ (or_introl eq_refl)). by destruct x.
Qed.
End above.

(** ** start_process and process_exit: the side of the child *)

Section below.
Context (s : state) (t : Z) (x : proc) (Hi : inv s) (Hx : procs s !! t = Some x) (p : Z) (Hrel : rel_of x = Some p).

Lemma rel_below : exists m, sms s !! p = Some m /\ child_of m = t /\ parent_of m <> t /\ exists ph, rel_ok ph (cphase_of (at_pc x)) (loaded x) (exit_code x) m.
Proof.
  destruct (a_rel _ _ _ _ (i_procs _ Hi t x Hx) p Hrel) as (m&Hm&Hc). destruct (i_rels _ Hi p m Hm) as [_ [Ho (P&C&_&HC&_&Hr)]].
  exists m. split_and!; [done|done|lia|]. eexists. replace x with C by congruence. exact Hr.
Qed.

Definition at_rest (c : pc) : Prop := match c with User | StLoad _ | StLock _ | StInc _ | StUp _ | StFail _ | XLock | XDec | XUp => True | _ => False end.

Lemma rest_idle c b q : at_rest c -> pphase_of c b q = PIdle.
Proof. by destruct c. Qed.

(** The child's side moves. *)
Lemma below_ok m x' m' : sms s !! p = Some m -> child_of m = t -> parent_of m' = parent_of m -> child_of m' = t -> child_tid m' = child_tid m ->
  rel_of x' = Some p -> child_relations x' = child_relations x -> at_rest (at_pc x) -> at_rest (at_pc x') \/ at_pc x' = XKids (child_relations x) ->
  pc_ok (sms s) t x' ->
  (forall ph, rel_ok ph (cphase_of (at_pc x)) (loaded x) (exit_code x) m -> rel_ok ph (cphase_of (at_pc x')) (loaded x') (exit_code x') m') ->
  inv (W s t p x' m').
Proof.
  intros Hm Hc Hp' Hc' Ht Er Ek Hat Hat' Hpc Hr. destruct (i_procs _ Hi t x Hx) as [A1 A2 A3 A4 A5 A6 A7].
  assert (is_late (at_pc x) = false) as Hl by (by destruct (at_pc x)).
  eapply inv_below; try done; [|congruence|].
  - destruct (i_rels _ Hi p m Hm) as [_ [Ho _]]. eapply (proc_ok_frame (sms s)); [reflexivity|..].
    + intros q mq Hmq. destruct (decide (p = q)) as [<-|]; [rewrite lookup_insert_eq|rewrite lookup_insert_ne by done; by exists mq].
      exists m'. assert (mq = m) as -> by congruence. split; [done|]. split_and!; [done|congruence|done].
    + intros q mq. destruct (decide (p = q)) as [<-|]; [rewrite lookup_insert_eq|rewrite lookup_insert_ne by done; intros ? _; by exists mq].
      intros [= <-] _. exists m. split; [done|]. split_and!; [done|congruence|done].
    + split; try done; rewrite ?Er, ?Ek; try done.
      * intros q [= <-]. eauto.
      * right. eauto.
      * intros q Hq. destruct (A5 q Hq) as (mq&?&?&[?|[u Eu]]); [eauto 10|]. rewrite Eu in Hat. done.
      * intros q mq Hmq Hpq Hpu _. by eapply A6.
  - intros q mq Hmq Hpq. rewrite (rest_idle _ _ _ Hat). destruct Hat' as [Hat'| ->]; [by apply rest_idle|]. cbn.
    destruct (pushed mq) eqn:Epu; [|done]. rewrite bool_decide_true; [done|by eapply A6].
Qed.

Lemma acquire_err_below m v ph c ld code : child_of m = t -> parent_of m <> t -> rel_ok ph c ld code m -> cholds c = false -> alive_count_lock m = Some v ->
  (if v =? t then EPanic else EBlock) = EBlock.
Proof.
  intros Hc Hp [_ K2 _ _ _ _ _ _ _ _ _ _ _ _ _ _] Hh Hl. rewrite Hh, Hl in K2. destruct (pholds ph); [|done]. injection K2 as ->.
  by rewrite (proj2 (Z.eqb_neq _ _)).
Qed.

Lemma held_below m ph c ld code : child_of m = t -> rel_ok ph c ld code m -> cholds c = true -> alive_count_lock m = Some t.
Proof.
  intros Hc [K1 K2 _ _ _ _ _ _ _ _ _ _ _ _ _ _] Hh. rewrite Hh in K1, K2. destruct (pholds ph); [done|]. congruence.
Qed.

Lemma line_below m ph c ld code : rel_ok ph c ld code m -> starting c = true -> cmd_line m = true.
Proof. intros Hr Hs. apply (k_line _ _ _ _ _ Hr). by rewrite (k_start _ _ _ _ _ Hr Hs). Qed.
End below.

Section child_steps.
Context (s : state) (t : Z) (x : proc) (Hi : inv s) (Hx : procs s !! t = Some x).

Ltac runs E p m Hm :=
  rewrite (step_W s t x Hx p m _ Hm); unfold proc_step, bind at 1; rewrite proc_at_W; cbv beta; rewrite E;
  cbn [execute_step start_step wait_step exit_step]; unfold bind.

(** The relation of the child, at [E : at_pc x = _]. *)
Ltac child E p Ha m Hm Hc Hp Hr :=
  pose proof (a_pc _ _ _ _ (i_procs _ Hi t x Hx)) as Ha; unfold pc_ok in Ha; rewrite E in Ha;
  let Hrel := fresh "Hrel" in assert (rel_of x = Some p) as Hrel by (unfold rel_of; rewrite E; try done; by destruct_and?);
  let ph := fresh "ph" in destruct (rel_below s t x Hi Hx p Hrel) as (m&Hm&Hc&Hp&ph&Hr); rewrite E in Hr; cbn in Hr.

Ltac below E mv :=
  eapply below_ok;
  lazymatch goal with
  | |- rel_of _ = Some _ => unfold rel_of; cbn; by destruct_and?
  | |- at_rest (at_pc x) => by rewrite E
  | |- at_rest _ \/ _ => first [by left | by right]
  | |- pc_ok _ _ _ => unfold pc_ok; cbn; destruct_and?; by eauto
  | |- forall ph, _ -> _ => rewrite E; cbn; intros ? ?; by eapply mv
  | |- _ => first [done | by eauto]
  end.

Lemma st_load_ok p ch : at_pc x = StLoad p -> (forall b, ch <> CLoad false b) -> outcome s x (proc_step t ch s).
Proof.
  intros E Hch. child E p Ha m Hm Hc Hp Hr. rewrite (step_W s t x Hx p m _ Hm). unfold proc_step, bind at 1. rewrite proc_at_W. cbv beta. rewrite E.
  destruct ch as [| | | |[] b|]; cbn [start_step negb]; try done; [|by destruct (Hch b)]. unfold bind. rewrite use_line_W by (by eapply line_below). rewrite upd_proc_W.
  destruct b; [|rewrite upd_sm_W]; rewrite goto_W; (split; [|done]); [below E cm_load|below E cm_no_load].
Qed.

Lemma st_lock_ok p ch : at_pc x = StLock p -> outcome s x (proc_step t ch s).
Proof.
  intros E. child E p Ha m Hm Hc Hp Hr. runs E p m Hm. rewrite acquire_W.
  destruct (alive_count_lock m) as [v|] eqn:El; [by eapply (acquire_err_below t m v)|].
  rewrite goto_W. split; [|done]. rewrite <- Hc at 2. below E cm_lock.
Qed.

Lemma st_inc_ok p ch : at_pc x = StInc p -> outcome s x (proc_step t ch s).
Proof.
  intros E. child E p Ha m Hm Hc Hp Hr. runs E p m Hm.
  rewrite upd_sm_W, release_W by (change (alive_count_lock m = Some t); by eapply held_below). rewrite goto_W. split; [|done]. below E cm_inc.
Qed.

Lemma st_up_ok p ch : at_pc x = StUp p -> outcome s x (proc_step t ch s).
Proof.
  intros E. child E p Ha m Hm Hc Hp Hr. runs E p m Hm. rewrite use_line_W by (by eapply line_below).
  rewrite up_exec_W, goto_W. split; [|done]. below E cm_up.
Qed.

Lemma st_fail_ok p ch : at_pc x = StFail p -> outcome s x (proc_step t ch s).
Proof.
  intros E. child E p Ha m Hm Hc Hp Hr. runs E p m Hm. rewrite up_exec_W, upd_proc_W, goto_W. split; [|done]. below E cm_fail.
Qed.

Lemma x_lock_ok ch : at_pc x = XLock -> outcome s x (proc_step t ch s).
Proof.
  intros E. pose proof (a_pc _ _ _ _ (i_procs _ Hi t x Hx)) as Ha. unfold pc_ok in Ha. rewrite E in Ha. destruct Ha as [p Hpr].
  child E p Ha m Hm Hc Hp Hr. runs E p m Hm. rewrite relation_W by done. rewrite acquire_W.
  destruct (alive_count_lock m) as [v|] eqn:El; [by eapply (acquire_err_below t m v)|].
  rewrite goto_W. split; [|done]. rewrite <- Hc at 2. below E cm_xlock.
Qed.

Lemma x_dec_ok ch : at_pc x = XDec -> outcome s x (proc_step t ch s).
Proof.
  intros E. pose proof (a_pc _ _ _ _ (i_procs _ Hi t x Hx)) as Ha. unfold pc_ok in Ha. rewrite E in Ha. destruct Ha as [p Hpr].
  child E p Ha m Hm Hc Hp Hr. runs E p m Hm. rewrite relation_W by done.
  rewrite upd_sm_W, sm_at_W, release_W by (change (alive_count_lock m = Some t); by eapply held_below). rewrite proc_at_W. cbn [alive_count set_count].
  pose proof (a_nodup _ _ _ _ (i_procs _ Hi t x Hx)) as Hnd.
  destruct (Z.eqb_spec (alive_count m - 1) 0); rewrite goto_W; (split; [|done]); [below E cm_last|below E cm_xdec].
Qed.

Lemma x_up_ok ch : at_pc x = XUp -> outcome s x (proc_step t ch s).
Proof.
  intros E. pose proof (a_pc _ _ _ _ (i_procs _ Hi t x Hx)) as Ha. unfold pc_ok in Ha. rewrite E in Ha. destruct Ha as [p Hpr].
  child E p Ha m Hm Hc Hp Hr. runs E p m Hm. rewrite relation_W by done.
  pose proof (a_nodup _ _ _ _ (i_procs _ Hi t x Hx)) as Hnd.
  rewrite up_wait_W, proc_at_W, goto_W. split; [|done]. below E cm_xup.
Qed.

(** What a program asks for. *)
Lemma user_relation : at_pc x = User -> t <> main_tid -> is_Some (parent_relation x).
Proof.
  intros E Hmain. destruct (a_main _ _ _ _ (i_procs _ Hi t x Hx)) as [?|Hs]; [done|]. unfold rel_of in Hs. by rewrite E in Hs.
Qed.

Lemma exit_call_ok status p : at_pc x = User -> parent_relation x = Some p -> outcome s x (proc_step t (CExit status) s).
Proof.
  intros E Hpr.
  child E p Ha m Hm Hc Hp Hr. runs E p m Hm. unfold exit, bind. rewrite relation_W by done. rewrite upd_sm_W, upd_proc_W, goto_W. split; [|done]. below E cm_exit.
Qed.

Lemma kill_ok p : at_pc x = User -> parent_relation x = Some p -> outcome s x (proc_step t CKill s).
Proof.
  intros E Hpr.
  child E p Ha m Hm Hc Hp Hr. runs E p m Hm. unfold kill, bind. rewrite relation_W by done. rewrite upd_proc_W, goto_W. split; [|done]. below E cm_kill.
Qed.
End child_steps.

(** ** process_execute and process_wait, as they begin *)

Section calls.
Context (s : state) (t : Z) (x : proc) (Hi : inv s) (Hx : procs s !! t = Some x) (E : at_pc x = User).

Lemma step_user ch : proc_step t ch s = match ch with
  | CExec a b c d => process_execute t a b c d s | CWait u => process_wait t u s | CExit v => exit t v s | CKill => kill t s | _ => Ok (None, s) end.
Proof. unfold proc_step, bind at 1, proc_at at 1. rewrite Hx. cbv beta. rewrite E. by destruct ch. Qed.

Lemma returns_user e : returns t e s = Ok (Some e, s).
Proof.
  unfold returns, bind, upd_proc, modify. rewrite (alter_at _ _ _ _ Hx), insert_id; [by destruct s|]. rewrite Hx. f_equal. unfold set_pc. rewrite <- E. by destruct x.
Qed.

Lemma tid_fresh u y : procs s !! u = Some y -> u <> next_tid s.
Proof. intros Hy%(i_procs _ Hi). destruct (a_range _ _ _ _ Hy). lia. Qed.

Lemma sm_fresh : sms s !! next_sm s = None.
Proof. destruct (sms s !! next_sm s) as [m|] eqn:Hm; [|done]. destruct (i_rels _ Hi _ _ Hm). lia. Qed.

(** The new thread and its relation. *)
Abbreviation nt := (next_tid s).
Abbreviation np := (next_sm s).
Definition new_proc : proc := Proc (StLoad np) [] None false false None.
Definition new_sm (garbage : bool) : shared_mem := Sm true TID_ERROR (-1) 1 None 0 0 garbage t nt.
Definition parent' : proc := set_pc (ExDown np nt) x.

Lemma frame_new g u y : proc_ok (sms s) nt u y -> u <> t -> proc_ok (<[np := new_sm g]> (sms s)) (nt + 1) u y.
Proof.
  intros Hy Hu. eapply proc_ok_frame; [| | |exact Hy]; [lia|..].
  - intros q m Hm. rewrite lookup_insert_ne; [by exists m|]. intros <-. by rewrite sm_fresh in Hm.
  - intros q m' [[<- <-]|[_ Hm]]%lookup_insert_Some Hp; [done|]. by exists m'.
Qed.

Lemma parent_new g : proc_ok (<[np := new_sm g]> (sms s)) (nt + 1) t parent'.
Proof.
  destruct (i_procs _ Hi t x Hx) as [A1 A2 A3 A4 A5 A6 A7]. unfold rel_of in A2, A3. unfold pc_ok in A7. rewrite E in A2, A3, A5, A6, A7.
  assert (forall q m, sms s !! q = Some m -> <[np := new_sm g]> (sms s) !! q = Some m) as Hf.
  { intros q m Hm. rewrite lookup_insert_ne; [done|]. intros <-. by rewrite sm_fresh in Hm. }
  split; cbn; try done; [lia|..].
  - intros q (m&Hm&?)%A2. eauto.
  - intros q Hq. destruct (A5 q Hq) as (m&Hm&?&[?|[? ?]]); [eauto 10|done].
  - intros q m [[<- <-]|[_ Hm]]%lookup_insert_Some Hp Hpu _; [done|]. by eapply A6.
  - unfold pc_ok. cbn. split; [done|]. split; [|rewrite lookup_insert_eq; by eexists].
    intros Hin. destruct (A5 _ Hin) as (m&Hm&_). by rewrite sm_fresh in Hm.
Qed.

Lemma child_new g : proc_ok (<[np := new_sm g]> (sms s)) (nt + 1) nt new_proc.
Proof.
  destruct (i_procs _ Hi t x Hx) as [A1 _ _ _ _ _ _]. split; cbn; try done; [lia| | |constructor|by intros ? ?%not_elem_of_nil|].
  - intros q [= <-]. rewrite lookup_insert_eq. by eexists.
  - right. by eexists.
  - intros q m [[<- <-]|[_ Hm]]%lookup_insert_Some Hp; [done|]. destruct (i_rels _ Hi _ _ Hm) as [_ [_ (P&_&HP&_)]]. by destruct (tid_fresh _ _ HP).
Qed.

Lemma inv_new g : inv (St (<[t := parent']> (<[nt := new_proc]> (procs s))) (<[np := new_sm g]> (sms s)) (nt + 1) (np + 1)).
Proof.
  pose proof (tid_fresh _ _ Hx) as Hnt. destruct (i_procs _ Hi t x Hx) as [A1 _ _ _ _ _ _]. split; cbn.
  - intros u y [[<- <-]|[Hu [[<- <-]|[_ Hy]]%lookup_insert_Some]]%lookup_insert_Some; [apply parent_new|apply child_new|].
    apply frame_new; [by apply (i_procs _ Hi)|done].
  - intros q m [[<- <-]|[Hq Hm]]%lookup_insert_Some.
    + split; [lia|]. split; [cbn; lia|]. cbn. rewrite lookup_insert_eq, lookup_insert_ne, lookup_insert_eq by done.
      exists parent', new_proc. split_and!; try done. cbn. rewrite on_eq. split; try done; by intros [].
    + destruct (i_rels _ Hi _ _ Hm) as [Hlt [Ho (P&C&HP&HC&HrC&Hr)]]. split; [lia|]. split; [done|].
      pose proof (tid_fresh _ _ HP). pose proof (tid_fresh _ _ HC). destruct (decide (t = parent_of m)) as [Ep|], (decide (t = child_of m)) as [Ec|]; [lia|..].
      * rewrite <- Ep, lookup_insert_eq, !lookup_insert_ne by done. exists parent', C. split_and!; try done.
        assert (P = x) as -> by congruence. rewrite E in Hr. cbn. by rewrite on_ne.
      * rewrite <- Ec, lookup_insert_eq, !lookup_insert_ne by done. exists P, parent'. assert (C = x) as -> by congruence.
        unfold rel_of in HrC |- *. rewrite E in HrC, Hr. done.
      * rewrite !lookup_insert_ne by done. by exists P, C.
Qed.

Lemma execute_ok a b c g : a = true -> outcome s x (process_execute t a b c g s).
Proof.
  intros ->. unfold process_execute. cbn [negb]. unfold bind at 1, gets at 1. unfold bind at 1, gets at 1.
  destruct b; cbn [negb]; [|rewrite returns_user; split; [done|by left]]. destruct c; cbn [negb]; [|rewrite returns_user; split; [done|by left]].
  unfold goto, bind, upd_proc, modify. cbn. split; [|done]. rewrite (alter_at _ _ _ x); [apply inv_new|].
  rewrite lookup_insert_ne; [done|]. pose proof (tid_fresh _ _ Hx). done.
Qed.

Lemma find_child_ok u l : (forall q, q ∈ l -> is_Some (sms s !! q)) ->
  (find_child u l s = Ok (None, s) /\ forall q m, q ∈ l -> sms s !! q = Some m -> child_tid m <> u) \/ exists p m, find_child u l s = Ok (Some p, s) /\ p ∈ l /\ sms s !! p = Some m /\ child_tid m = u.
Proof.
  induction l as [|p l IH]; intros Hl; [left; split; [done|by intros ? ? ?%not_elem_of_nil]|]. destruct (Hl p ltac:(by left)) as [m Hm]. cbn [find_child]. unfold bind, sm_at. rewrite Hm.
  destruct (Z.eqb_spec (child_tid m) u) as [Eu|]; [right; exists p, m; split_and!; [done|by left|done|done]|].
  destruct IH as [[-> Hn]|(q&mq&->&?&?)]; [intros q Hq; apply Hl; by right| |right].
  { left. split; [done|]. intros q mq [->|Hq]%elem_of_cons Hmq; [congruence|by eapply Hn]. }
  exists q, mq. split_and!; [done|by right|tauto..].
Qed.

Lemma wait_ok u : outcome s x (process_wait t u s).
Proof.
  assert (outcome s x (returns t (Waited u (-1)) s)) as Hno by (rewrite returns_user; split; [done|by left]).
  unfold process_wait. destruct (u =? TID_ERROR); [done|]. unfold bind at 1, proc_at at 1. rewrite Hx.
  pose proof (a_pc _ _ _ _ (i_procs _ Hi t x Hx)) as Ha. unfold pc_ok in Ha. rewrite E in Ha. rewrite Ha.
  pose proof (a_kids _ _ _ _ (i_procs _ Hi t x Hx)) as A5. rewrite E in A5. unfold bind at 1.
  destruct (find_child_ok u (child_relations x)) as [[-> _]|(p&m&->&Hin&Hm&Hu)]; [|done|].
  { intros q (m&Hm&_)%A5. eauto. }
  destruct (A5 p Hin) as (m'&Hm'&Hp&Hc). assert (m' = m) as -> by congruence. destruct Hc as [Hc|[? ?]]; [|done].
  unfold bind at 1, sm_at at 1. rewrite Hm. destruct (waited m) eqn:Ew; [done|].
  assert (goto t (WtLock p u) s = Ok (None, W s t p (set_pc (WtLock p u) x) m)) as ->.
  { rewrite (W_id s t p x m Hx Hm) at 1. by rewrite goto_W. }
  split; [|done]. eapply (above_ok s t x Hi Hx p m); try done; [unfold rel_of; cbn; by rewrite E|cbn; by rewrite E|by left|intros ? ?; by rewrite E|..].
  - unfold pc_ok. cbn. rewrite lookup_insert_eq. split_and!; try done. eexists. split; [done|congruence].
  - intros q mq Hne _ _. rewrite E. cbn. by rewrite on_ne.
  - intros c ld code. rewrite E. cbn. rewrite on_eq. intros Hr. by apply pm_wait.
Qed.
End calls.

(** ** Every step *)

(** Legal enough: the memory is there, and a thread that exits has a parent. *)
Definition possible (x : proc) (ch : choice) : Prop :=
  match at_pc x, ch with
  | User, CExec malloc_ok _ _ _ => malloc_ok = true
  | User, CExit _ | User, CKill => is_Some (parent_relation x)
  | StLoad _, CLoad page_ok _ => page_ok = true
  | _, _ => True
  end.

Lemma step_ok s t x ch : inv s -> procs s !! t = Some x -> possible x ch -> outcome s x (proc_step t ch s).
Proof.
  intros Hi Hx Hl. unfold possible in Hl. destruct (at_pc x) as [| | | | | | | | | | | | | | | | | | | | |[|p l]| |] eqn:E;
    eauto using ex_down_ok, ex_lock_ok, ex_check_ok, ex_fail_ok, ex_push_ok, ex_done_ok, st_load_ok, st_lock_ok, st_inc_ok, st_up_ok, st_fail_ok,
      wt_lock_ok, wt_check_ok, wt_dead_ok, wt_mark_ok, wt_down_ok, wt_read_ok, x_lock_ok, x_dec_ok, x_up_ok, x_none_ok, x_kid_ok, x_kid_dec_ok.
  - destruct ch as [a b c g|u|v| |d b|]; rewrite (step_user s t x Hx E).
    + by apply execute_ok.
    + by apply wait_ok.
    + destruct Hl as [p Hp]. rewrite <- (step_user s t x Hx E (CExit v)). by eapply exit_call_ok.
    + destruct Hl as [p Hp]. rewrite <- (step_user s t x Hx E CKill). by eapply kill_ok.
    + by split.
    + by split.
  - eapply st_load_ok; [done..|]. intros b ->. done.
  - unfold proc_step, bind at 1, proc_at at 1. rewrite Hx. cbv beta. by rewrite E.
Qed.

(** A step that is taken was possible. *)
Lemma step_possible s t x ch r : procs s !! t = Some x -> proc_step t ch s = Ok r -> possible x ch.
Proof.
  intros Hx Hs. unfold possible. destruct (at_pc x) eqn:E; try done.
  2: { destruct ch as [| | | |[] b|]; try done. revert Hs. unfold proc_step, bind at 1, proc_at at 1. rewrite Hx. cbv beta. by rewrite E. }
  rewrite (step_user s t x Hx E) in Hs. destruct ch as [[] b c g|u|v| |d b|]; cbn; try done; revert Hs.
  - unfold exit, relation, bind, proc_at. rewrite Hx. destruct (parent_relation x); [eauto|done].
  - unfold kill, relation, bind, proc_at. rewrite Hx. destruct (parent_relation x); [eauto|done].
Qed.

Lemma legal_possible s t x ch : inv s -> procs s !! t = Some x -> legal t ch -> possible x ch.
Proof. intros Hi Hx Hl. unfold possible. destruct (at_pc x) eqn:E, ch; try done; by eapply user_relation. Qed.

Lemma step_proc s t ch r : proc_step t ch s = Ok r -> exists x, procs s !! t = Some x.
Proof. unfold proc_step, bind, proc_at. destruct (procs s !! t); [eauto|done]. Qed.

Lemma step_taken s t ch ev s' : inv s -> proc_step t ch s = Ok (ev, s') -> inv s' /\ exists x, procs s !! t = Some x /\ event_ok s x ev.
Proof.
  intros Hi Hs. destruct (step_proc _ _ _ _ Hs) as [x Hx]. pose proof (step_ok s t x ch Hi Hx (step_possible _ _ _ _ _ Hx Hs)) as Ho.
  rewrite Hs in Ho. destruct Ho. eauto.
Qed.

Lemma init_ok : inv init.
Proof.
  split; cbn; [|by intros p m []%lookup_empty_Some]. intros t x [<- <-]%lookup_singleton_Some. split; cbn; try done; [by left|constructor|by intros ? ?%not_elem_of_nil].
Qed.

Lemma reach_ok s : reach s -> inv s.
Proof. induction 1 as [|s t ch ev s' _ IH Hs]; [apply init_ok|]. by apply (step_taken _ _ _ _ _ IH Hs). Qed.
End ProcessStep.
