(* ===== verification/ProcessProps.v ===== *)
(** * What the process protocol guarantees

    Theorems about every reachable state, hence about every interleaving of
    the threads: nothing freed is used and no lock is misused,
    [process_execute] tells what became of the child, and threads do not block each
    other for ever, except in the one case that the last part exhibits. *)

From S2P Require Import Prelude.
From S2P Require Import Process.
From S2P Require Import ProcessInv.
From S2P Require Import ProcessStep.
Local Open Scope Z_scope.

Module ProcessProps.
Import Process ProcessInv ProcessStep.

(** ** Where a thread blocks *)

(** The thread that a thread waits for, if it has to. *)
Definition waits_for (s : state) (x : proc) : option Z :=
  let locked p := m ← sms s !! p; alive_count_lock m in
  match at_pc x with
  | ExDown p u => m ← sms s !! p; if sema_exec m =? 0 then Some u else None
  | WtDown p u => m ← sms s !! p; if sema_wait m =? 0 then Some u else None
  | ExLock p _ | StLock p | WtLock p _ | XKids (p :: _) => locked p
  | XLock => p ← parent_relation x; locked p
  | _ => None
  end.

Lemma blocked_waits s t x ch : procs s !! t = Some x -> proc_step t ch s = Err EBlock -> at_pc x <> Dead -> (exists b, ch = CLoad true b) ->
  is_Some (waits_for s x).
Proof.
  intros Hx Hs Hd [b ->]. revert Hs. unfold proc_step, bind at 1, proc_at at 1. rewrite Hx. cbv beta. unfold waits_for.
  destruct (at_pc x) as [| | | | | | | | | | | | | | | | | | | | |[|p l]| |] eqn:E; try done; cbn [execute_step start_step wait_step exit_step];
    unfold down_exec, down_wait, lock_acquire, lock_release, free_line, use_line, up_exec, up_wait, relation, goto, returns, proc_at, sm_at, upd_sm, upd_proc, modify, assert, bind, ret, fail; rewrite ?Hx; cbn.
  all: repeat case_match; simplify_eq/=; try done; eauto.
  all: intros _; repeat match goal with H : ?l = _ |- context [?l] => rewrite H end; cbn; eauto.
Qed.

Definition waits (s : state) (t u : Z) : Prop := exists x, procs s !! t = Some x /\ waits_for s x = Some u.
Definition can_step (s : state) (t : Z) : Prop := exists ch r, proc_step t ch s = Ok r.

(** A thread that waits for a child whose program was never loaded. *)
Definition hopeless (s : state) (t : Z) : Prop :=
  exists x p u C, procs s !! t = Some x /\ at_pc x = WtDown p u /\ procs s !! u = Some C /\ loaded C = false.

Section reachable.
Context (s : state) (Hi : inv s).

Lemma free_can t x : procs s !! t = Some x -> at_pc x <> Dead -> waits_for s x = None -> can_step s t.
Proof.
  intros Hx Hd Hw. exists (CLoad true true). pose proof (step_ok s t x (CLoad true true) Hi Hx) as Ho. unfold possible in Ho. specialize (Ho ltac:(by destruct (at_pc x))).
  destruct (proc_step t (CLoad true true) s) as [r|e] eqn:E; [eauto|]. cbn in Ho. subst e.
  destruct (blocked_waits s t x (CLoad true true) Hx E Hd) as [u Hu]; [eauto|]. congruence.
Qed.

Lemma parent_holds c b p : pholds (pphase_of c b p) = true -> c <> Dead /\ forall x, at_pc x = c -> waits_for s x = None.
Proof.
  intros Hh. assert (match c with ExCheck _ _ | WtCheck _ _ | XKidDec _ _ => True | _ => False end) as Hc.
  { destruct c; try done; revert Hh; cbn; unfold on; repeat case_match; done. }
  split; [by intros ->|]. intros x E. unfold waits_for. rewrite E. by destruct c.
Qed.

Lemma child_holds c : cholds (cphase_of c) = true -> c <> Dead /\ forall x, at_pc x = c -> waits_for s x = None.
Proof. intros Hh. split; [by intros ->|]. intros x E. unfold waits_for. rewrite E. by destruct c. Qed.

(** Whoever holds a lock can run. *)
Lemma holder_can p v : (m ← sms s !! p; alive_count_lock m) = Some v -> can_step s v.
Proof.
  intros (m&Hm&Hl)%bind_Some. destruct (i_rels _ Hi p m Hm) as [_ [_ (P&C&HP&HC&_&Hr)]]. pose proof (k_lock _ _ _ _ _ Hr) as K. rewrite Hl in K.
  destruct (pholds _) eqn:Ep; [|destruct (cholds _) eqn:Ec; [|done]]; injection K as ->.
  - destruct (parent_holds _ _ _ Ep). eapply free_can; eauto.
  - destruct (child_holds _ Ec). eapply free_can; eauto.
Qed.

(** A child that has not told its parent yet can run. *)
Lemma starting_can p m C : sms s !! p = Some m -> procs s !! child_of m = Some C -> rel_of C = Some p -> starting (cphase_of (at_pc C)) = true ->
  forall ph, rel_ok ph (cphase_of (at_pc C)) (loaded C) (exit_code C) m -> can_step s (child_of m).
Proof.
  intros Hm HC Hrel Hs ph Hr. eapply free_can; [done|by intros E; rewrite E in Hs|]. pose proof (k_start _ _ _ _ _ Hr Hs) as ->.
  pose proof (a_pc _ _ _ _ (i_procs _ Hi _ _ HC)) as Ha. unfold pc_ok in Ha. unfold waits_for. unfold rel_of in Hrel.
  destruct (at_pc C); try done. destruct Ha as [Ha _]. assert (sm = p) as -> by congruence. rewrite Hm. cbn. apply (k_lock _ _ _ _ _ Hr).
Qed.

Lemma exec_waits t x p u : procs s !! t = Some x -> at_pc x = ExDown p u -> waits_for s x = Some u -> can_step s u.
Proof.
  intros Hx E Hw. destruct (ex_rel s t x Hi Hx p u) as (m&Hm&Hp&Hc&_); [by rewrite E|].
  destruct (i_rels _ Hi p m Hm) as [_ [_ (P&C&HP&HC&HrC&Hr)]]. assert (P = x) as -> by congruence.
  rewrite E in Hr. cbn in Hr. rewrite on_eq in Hr. rewrite <- Hc. eapply starting_can; try done.
  unfold waits_for in Hw. rewrite E, Hm in Hw. cbn in Hw. pose proof (k_exec _ _ _ _ _ Hr) as K. destruct (starting _); [done|].
  rewrite K in Hw. done.
Qed.

Lemma wait_waits t x p u : procs s !! t = Some x -> at_pc x = WtDown p u -> waits_for s x = Some u -> ~ hopeless s t ->
  t < u /\ exists C, procs s !! u = Some C /\ at_pc C <> Dead.
Proof.
  intros Hx E Hw Hh. destruct (wt_rel s t x Hi Hx p u) as (m&Hm&Hp&Hc&_); [by rewrite E|].
  destruct (i_rels _ Hi p m Hm) as [_ [Ho (P&C&HP&HC&HrC&Hr)]]. assert (P = x) as -> by congruence. rewrite E in Hr. cbn in Hr. rewrite on_eq in Hr.
  split; [lia|]. exists C. rewrite <- Hc. split; [done|]. intros Ed. unfold waits_for in Hw. rewrite E, Hm in Hw. cbn in Hw.
  pose proof (k_wait _ _ _ _ _ Hr eq_refl (or_intror eq_refl)) as K. rewrite Ed in K. cbn in K. destruct (loaded C) eqn:El.
  - rewrite K in Hw. done.
  - apply Hh. exists x, p, u, C. split_and!; try done. congruence.
Qed.

Lemma chain_can : (forall t, ~ hopeless s t) -> forall n t x, procs s !! t = Some x -> next_tid s - t <= Z.of_nat n -> at_pc x <> Dead ->
  exists u, rtc (waits s) t u /\ can_step s u.
Proof.
  intros Hh n. induction n as [|n IH]; intros t x Hx Hn Hd; [pose proof (a_range _ _ _ _ (i_procs _ Hi _ _ Hx)); lia|].
  destruct (waits_for s x) as [u|] eqn:Ew; [|exists t; split; [constructor|by eapply free_can]].
  assert (waits s t u) as Hwt by (exists x; done). pose proof Ew as Ew'. unfold waits_for in Ew.
  destruct (at_pc x) as [|p v| | | | | | | | | | | | | |  |p v| | | | |[|p l]| |] eqn:E; try done;
    try (exists u; split; [by apply rtc_once|by eapply holder_can]).
  - apply bind_Some in Ew as (m&Hm&Ew). destruct (_ =? _); [|done]. injection Ew as ->. exists u. split; [by apply rtc_once|by eapply exec_waits].
  - apply bind_Some in Ew as (m&Hm&Ew). destruct (_ =? _); [|done]. injection Ew as ->.
    destruct (wait_waits t x p u Hx E Ew' (Hh t)) as (Hlt&C&HC&HCd). destruct (IH u C HC ltac:(lia) HCd) as (w&Hc&Hcan).
    exists w. split; [|done]. by eapply rtc_l.
  - apply bind_Some in Ew as (q&_&Ew). exists u. split; [by apply rtc_once|by eapply holder_can].
Qed.
End reachable.

(** ** Runs *)

(** A sequence of steps: who runs, and what the world decides. *)
Fixpoint run_steps (l : list (Z * choice)) (s : state) : res (list event * state) :=
  match l with
  | [] => Ok ([], s)
  | (t, ch) :: l' =>
      match proc_step t ch s with
      | Ok (ev, s1) => match run_steps l' s1 with Ok (evs, s2) => Ok (option_list ev ++ evs, s2) | Err e => Err e end
      | Err e => Err e
      end
  end.

Lemma run_reach l : forall s evs s', reach s -> run_steps l s = Ok (evs, s') -> reach s'.
Proof.
  induction l as [|[t ch] l IH]; intros s evs s' Hr; cbn; [by intros [= _ <-]|].
  destruct (proc_step t ch s) as [[ev s1]|] eqn:E; [|done]. destruct (run_steps l s1) as [[evs' s2]|] eqn:E2; [|done]. intros [= _ <-].
  eapply IH; [|exact E2]. by eapply reach_step.
Qed.

Definition go (t : Z) (n : nat) : list (Z * choice) := replicate n (t, CGo).

(** A parent that waits for its child before the child ends. *)
Definition normal_trace : list (Z * choice) :=
  (1, CExec true true true false) :: (2, CLoad true true) :: go 2 3 ++ go 1 5 ++ (1, CWait 2) :: go 1 3.
Definition ended_trace : list (Z * choice) := normal_trace ++ (2, CExit 7) :: go 2 4 ++ go 1 1.
Definition end_of (l : list (Z * choice)) : state := match run_steps l init with Ok (_, s) => s | Err _ => init end.

Lemma end_reach l : reach (end_of l).
Proof.
  unfold end_of. destruct (run_steps l init) as [[evs s]|] eqn:E; [|constructor]. eapply run_reach; [constructor|exact E].
Qed.

(** ** Safety *)

(** C5. The shared memory of a parent and its child is used safely in every
    interleaving: no step of any thread dereferences a null relation, reads or
    frees the page of the command line after it was freed, takes a lock it
    holds or releases one it does not hold; a step can at most have to wait.
    [legal] supposes what the code does not check: that [malloc] has memory for
    the relation and that there is a page for [argv]. *)
Theorem protocol_safe s t x ch : reach s -> procs s !! t = Some x -> legal t ch ->
  match proc_step t ch s with Ok _ => True | Err e => e = EBlock end.
Proof.
  intros Hr%reach_ok Hx Hl. pose proof (step_ok s t x ch Hr Hx (legal_possible s t x ch Hr Hx Hl)) as Ho.
  destruct (proc_step t ch s) as [[ev s']|e]; done.
Qed.

(** C15. The tid that [process_execute] returns is that of a child whose program
    was loaded or which has already ended; TID_ERROR means that no thread could
    be made, that the program was not loaded, or that the child has already
    ended. *)
Theorem execute_result s t ch u s' : reach s -> proc_step t ch s = Ok (Some (Executed u), s') ->
  exists x, procs s !! t = Some x /\
    if u =? TID_ERROR then at_pc x = User \/ exists p c C, at_pc x = ExFail p c /\ procs s !! c = Some C /\ (loaded C = false \/ is_Some (exit_code C))
    else exists C, procs s !! u = Some C /\ (loaded C = true \/ is_Some (exit_code C)).
Proof. intros Hr%reach_ok Hs. destruct (step_taken s t ch _ s' Hr Hs) as (_&x&Hx&He). by exists x. Qed.

(** ** Liveness *)

(** C11. No wake-up is lost and no threads wait for each other in a circle: a
    thread that has not ended can take a step, or waits, directly or through
    others, for a thread that can; unless some thread waits for a child whose
    program was not loaded. *)
Theorem no_deadlock s t x : reach s -> (forall u, ~ hopeless s u) -> procs s !! t = Some x -> at_pc x <> Dead ->
  exists u, rtc (waits s) t u /\ can_step s u.
Proof. intros Hr%reach_ok Hh Hx Hd. apply (chain_can s Hr Hh (Z.to_nat (next_tid s - t)) t x Hx); [lia|done]. Qed.

(** ** Other threads *)

(** A computation of thread [t] leaves the other threads alone, and, if [L],
    does not change whether its own program was loaded. *)
Definition keeps {A} (L : Prop) (t : Z) (m : M state A) : Prop := forall s a s', m s = Ok (a, s') ->
  forall u, if u =? t then L -> loaded <$> procs s' !! u = loaded <$> procs s !! u else procs s' !! u = procs s !! u.

Section keeps.
Context (L : Prop).

Lemma loads_bind {A B} t (m : M state A) (k : A -> M state B) : keeps L t m -> (forall a, keeps L t (k a)) -> keeps L t (bind m k).
Proof.
  intros Hm Hk s b s' E u. unfold bind in E. destruct (m s) as [[a s1]|e] eqn:Em; [|done]. specialize (Hm _ _ _ Em u). specialize (Hk a _ _ _ E u).
  destruct (u =? t); [intros HL; rewrite Hk by done; auto|congruence].
Qed.

Lemma loads_pure {A} t (m : M state A) : (forall s a s', m s = Ok (a, s') -> procs s' = procs s) -> keeps L t m.
Proof. intros Hm s a s' E u. rewrite (Hm _ _ _ E). by destruct (u =? t). Qed.

Lemma loads_upd t f : (L -> forall x, loaded (f x) = loaded x) -> keeps L t (upd_proc t f).
Proof.
  intros Hf s a s' [= _ <-] u. cbn. destruct (Z.eqb_spec u t) as [->|]; [|by rewrite lookup_alter_ne].
  intros HL. rewrite lookup_alter_eq. destruct (procs s !! t); [|done]. cbn. by rewrite Hf.
Qed.

Lemma loads_sm t p : keeps L t (sm_at p).
Proof. apply loads_pure. intros s a s'. unfold sm_at. by destruct (sms s !! p) as [m|]; [intros [= _ <-]|]. Qed.
Lemma loads_proc t u : keeps L t (proc_at u).
Proof. apply loads_pure. intros s a s'. unfold proc_at. by destruct (procs s !! u) as [m|]; [intros [= _ <-]|]. Qed.
Lemma loads_upd_sm t p f : keeps L t (upd_sm p f).
Proof. apply loads_pure. by intros s a s' [= _ <-]. Qed.
Lemma loads_ret {A} t (a : A) : keeps L t (ret a).
Proof. apply loads_pure. by intros s a' s' [= _ <-]. Qed.
Lemma loads_fail {A} t e : keeps L t (fail (A := A) e).
Proof. by intros s a s'. Qed.
Lemma loads_gets {A} t (f : state -> A) : keeps L t (gets f).
Proof. apply loads_pure. by intros s a s' [= _ <-]. Qed.
Lemma loads_assert t b : keeps L t (assert b).
Proof. destruct b; [apply loads_ret|apply loads_fail]. Qed.

End keeps.

Create HintDb keeps.
#[local] Hint Resolve loads_bind loads_upd loads_sm loads_proc loads_upd_sm loads_ret loads_fail loads_gets loads_assert : keeps.
Ltac keeps := repeat first [progress intros | apply loads_bind | apply loads_upd; by try intros [] | progress (repeat case_match) | solve [auto with keeps]].

Lemma loads_find L t u l : keeps L t (find_child u l).
Proof. induction l as [|p l IH]; cbn [find_child]; keeps; try done. Qed.

(** A step changes its own thread only, and loads a program only when at that. *)
Lemma step_keeps s t x ch ev s' : inv s -> procs s !! t = Some x -> proc_step t ch s = Ok (ev, s') ->
  forall u y, procs s !! u = Some y ->
    if u =? t then (forall p, at_pc x <> StLoad p) -> exists y', procs s' !! u = Some y' /\ loaded y' = loaded y else procs s' !! u = Some y.
Proof.
  intros Hi Hx Hs u y Hy. set (L := forall p, at_pc x <> StLoad p).
  assert (if u =? t then L -> loaded <$> procs s' !! u = loaded <$> procs s !! u else procs s' !! u = procs s !! u) as Hk.
  2: { rewrite Hy in Hk. destruct (u =? t); [|done]. intros HL. specialize (Hk HL). cbn in Hk. apply fmap_Some in Hk as (y'&?&?). by exists y'. }
  assert (forall m, keeps L t m -> m s = Ok (ev, s') -> if u =? t then L -> loaded <$> procs s' !! u = loaded <$> procs s !! u else procs s' !! u = procs s !! u) as Hkp.
  { intros m Hm E. exact (Hm _ _ _ E u). }
  revert Hs. unfold proc_step, bind at 1, proc_at at 1. rewrite Hx. cbv beta.
  destruct (at_pc x) as [| | | | | | |q| | | | | | | | | | | | | |[|q l]| |] eqn:E;
    try (apply Hkp; cbn [execute_step start_step wait_step exit_step];
      unfold down_exec, down_wait, up_exec, up_wait, lock_acquire, lock_release, free_line, use_line, relation, goto, returns; keeps; done).
  - destruct ch as [a b c g|v|st| |d b|]; try (apply Hkp; unfold exit, kill, relation, goto; keeps; done).
    + unfold process_execute. destruct a; [|done]. cbn [negb]. destruct b; cbn [negb]; [|apply Hkp; unfold returns; keeps; done].
      destruct c; cbn [negb]; [|apply Hkp; unfold returns; keeps; done].
      unfold bind at 1, gets at 1, bind at 1, gets at 1, bind at 1, modify at 1. intros Hs.
      assert (keeps L t (goto t (ExDown (next_sm s) (next_tid s)))) as Hg by (unfold goto; keeps; done). specialize (Hg _ _ _ Hs u). cbn in Hg.
      rewrite lookup_insert_ne in Hg; [done|]. apply i_procs in Hy; [|done]. destruct (a_range _ _ _ _ Hy). lia.
    + apply Hkp. unfold process_wait, returns, goto. pose proof loads_find. keeps; done.
  - assert (~ L) as HL by (intros HL; by apply (HL q)). apply Hkp. cbn [start_step]. unfold use_line, goto. keeps; done.
Qed.

(** ** What goes wrong *)

(** The child fails to load and ends before the parent looks at [alive_count]:
    the count is 0, not 1, and [process_execute] returns the tid of the failed
    child; waiting for it blocks. *)
Definition missing_trace : list (Z * choice) :=
  (1, CExec true true true false) :: (2, CLoad true false) :: go 2 3 ++ go 1 5 ++ (1, CWait 2) :: go 1 3 ++ go 2 1.

Lemma hopeless_rel s t x p u C : inv s -> procs s !! t = Some x -> at_pc x = WtDown p u -> procs s !! u = Some C ->
  exists m, sms s !! p = Some m /\ rel_ok PWDown (cphase_of (at_pc C)) (loaded C) (exit_code C) m.
Proof.
  intros Hi Hx E HC. destruct (wt_rel s t x Hi Hx p u) as (m&Hm&Hp&Hc&_); [by rewrite E|]. exists m. split; [done|].
  destruct (rel_at s t x Hi Hx p m Hm Hp) as (C'&HC'&Hr). rewrite E in Hr. cbn in Hr. rewrite on_eq in Hr. congruence.
Qed.

Lemma hopeless_blocked s t ch : inv s -> hopeless s t -> proc_step t ch s = Err EBlock.
Proof.
  intros Hi (x&p&u&C&Hx&E&HC&Hl). destruct (hopeless_rel s t x p u C Hi Hx E HC) as (m&Hm&Hr).
  pose proof (k_wait _ _ _ _ _ Hr eq_refl (or_intror eq_refl)) as K. rewrite Hl in K. cbn in K.
  unfold proc_step, bind at 1, proc_at at 1. rewrite Hx. cbv beta. rewrite E. cbn [wait_step]. unfold bind, down_wait, sm_at. unfold bind. by rewrite Hm, K.
Qed.

Lemma hopeless_step s t t' ch ev s' : inv s -> hopeless s t -> proc_step t' ch s = Ok (ev, s') -> hopeless s' t.
Proof.
  intros Hi Hh Hs. destruct (step_proc _ _ _ _ Hs) as [y Hy]. destruct (decide (t = t')) as [<-|Hne]; [by rewrite hopeless_blocked in Hs|].
  destruct Hh as (x&p&u&C&Hx&E&HC&Hl). destruct (hopeless_rel s t x p u C Hi Hx E HC) as (m&Hm&Hr).
  assert (forall q, at_pc y = StLoad q -> u <> t') as Hq.
  { intros q Eq ->. assert (C = y) as -> by congruence. rewrite Eq in Hr. by pose proof (k_start _ _ _ _ _ Hr eq_refl). }
  pose proof (step_keeps s t' y ch ev s' Hi Hy Hs) as Hk. pose proof (Hk t x Hx) as H1. pose proof (Hk u C HC) as H2.
  rewrite (proj2 (Z.eqb_neq t t')) in H1 by done. destruct (Z.eqb_spec u t') as [->|]; [|by exists x, p, u, C].
  destruct H2 as (C'&HC'&El); [intros q Eq; by apply (Hq q)|]. exists x, p, t', C'. split_and!; [done..|congruence].
Qed.

Definition steps (s s' : state) : Prop := exists t ch ev, proc_step t ch s = Ok (ev, s').

Lemma hopeless_forever s s' t : inv s -> hopeless s t -> rtc steps s s' -> forall ch, proc_step t ch s' = Err EBlock.
Proof.
  intros Hi Hh Hr. revert Hi Hh. induction Hr as [s|s s1 s' (u&ch'&ev&Hs) _ IH]; intros Hi Hh ch; [by apply hopeless_blocked|].
  apply IH; [by apply (step_taken _ _ _ _ _ Hi Hs)|by eapply hopeless_step].
Qed.

(** [process_execute] has returned the tid of a child that was never loaded,
    and the parent that waits for it never runs again. *)
Lemma failed_load_hangs : run_steps missing_trace init = Ok ([Executed 2], end_of missing_trace) /\
  forall s', rtc steps (end_of missing_trace) s' -> forall ch, proc_step main_tid ch s' = Err EBlock.
Proof.
  split; [by vm_compute|]. intros s' Hr. eapply hopeless_forever; [apply reach_ok, end_reach| |exact Hr].
  eexists _, _, 2, _. split; [by vm_compute|]. split; [by vm_compute|]. split; by vm_compute.
Qed.

(** A child that is loaded, runs and ends before the parent looks at
    [alive_count]: [process_execute] reports an error. *)
Definition race_trace : list (Z * choice) :=
  (1, CExec true true true false) :: (2, CLoad true true) :: go 2 3 ++ (2, CExit 7) :: go 2 4 ++ go 1 4.
Lemma execute_race : run_steps race_trace init = Ok ([Executed TID_ERROR], end_of race_trace) /\
  exists C, procs (end_of race_trace) !! 2 = Some C /\ loaded C = true /\ exit_code C = Some 7.
Proof. split; [by vm_compute|]. eexists. split; by vm_compute. Qed.

(** Waiting twice for a child that had ended returns its status twice. *)
Definition twice_trace : list (Z * choice) :=
  (1, CExec true true true false) :: (2, CLoad true true) :: go 2 3 ++ go 1 5 ++ (2, CExit 7) :: go 2 4 ++
  (1, CWait 2) :: go 1 3 ++ (1, CWait 2) :: go 1 3.
Lemma wait_twice : run_steps twice_trace init = Ok ([Executed 2; Waited 2 7; Waited 2 7], end_of twice_trace).
Proof. by vm_compute. Qed.

(** [waited] is not initialized: with the memory as it may be, [process_wait]
    refuses to wait for a child it was never called for. *)
Definition garbage_trace : list (Z * choice) :=
  (1, CExec true true true true) :: (2, CLoad true true) :: go 2 3 ++ go 1 5 ++ [(1, CWait 2)].
Lemma wait_uninitialized : run_steps garbage_trace init = Ok ([Executed 2; Waited 2 (-1)], end_of garbage_trace).
Proof. by vm_compute. Qed.

(** ** Instances of the theorems *)

Lemma protocol_safe_witness : match proc_step 1 (CExec true true true false) init with Ok _ => True | Err e => e = EBlock end.
Proof. by eapply (protocol_safe init 1 _ (CExec true true true false)); [constructor|reflexivity|]. Defined.

Definition executed_trace : list (Z * choice) := (1, CExec true true true false) :: (2, CLoad true true) :: go 2 3 ++ go 1 4.

Lemma execute_result_witness : exists s', proc_step 1 CGo (end_of executed_trace) = Ok (Some (Executed 2), s') /\
  exists x, procs (end_of executed_trace) !! 1 = Some x /\ exists C, procs (end_of executed_trace) !! 2 = Some C /\ (loaded C = true \/ is_Some (exit_code C)).
Proof.
  eexists. assert (proc_step 1 CGo (end_of executed_trace) = Ok (Some (Executed 2), end_of (executed_trace ++ go 1 1))) as E by (by vm_compute).
  split; [exact E|]. exact (execute_result (end_of executed_trace) 1 CGo 2 _ (end_reach executed_trace) E).
Defined.

Lemma no_deadlock_witness : exists u, rtc (waits (end_of normal_trace)) 1 u /\ can_step (end_of normal_trace) u.
Proof.
  eapply (no_deadlock (end_of normal_trace) 1); [apply end_reach| |by vm_compute|by vm_compute].
  intros u (x&p&c&C&_&_&HC&Hl). assert (map_Forall (fun _ y => loaded y = true) (procs (end_of normal_trace))) as Hall by (apply (bool_decide_unpack _); by vm_compute).
  specialize (Hall _ _ HC). congruence.
Defined.
End ProcessProps.
