(* ===== verification/ProcessHist.v ===== *)
(** * What process_wait returns, over the history of a run

    The calls that have returned so far are the specification's own record of
    who started and waited for whom: [reach_h] keeps it beside the state, and
    the fields [child_tid] and [waited] are tied to it. *)

From S2P Require Import Prelude.
From S2P Require Import Process.
From S2P Require Import ProcessInv.
From S2P Require Import ProcessStep.
From S2P Require Import ProcessProps.
Local Open Scope Z_scope.

Module ProcessHist.
Import Process ProcessInv ProcessStep ProcessProps.

(** ** Histories *)

(** The steps so far, the last one first. *)
Definition hist := list (Z * choice * option event).

Inductive reach_h : hist -> state -> Prop :=
  | reach_h_init : reach_h [] init
  | reach_h_step h s t ch ev s' : reach_h h s -> proc_step t ch s = Ok (ev, s') -> reach_h ((t, ch, ev) :: h) s'.

Lemma reach_h_reach h s : reach_h h s -> reach s.
Proof. induction 1; [constructor|by eapply reach_step]. Qed.

(** A call of thread [t] has returned [e]. *)
Definition said (h : hist) (t : Z) (e : event) : Prop := exists ch, (t, ch, Some e) ∈ h.
(** [t] has started [u] and knows its tid. *)
Definition started (h : hist) (t u : Z) : Prop := u <> TID_ERROR /\ said h t (Executed u).
(** [t] has waited for [u]. *)
Definition has_waited (h : hist) (t u : Z) : Prop := exists v, said h t (Waited u v).
(** Some [shared_mem] was allocated where [waited] happened not to be zero. *)
Definition dirty (h : hist) : Prop := exists t a b c ev, (t, CExec a b c true, ev) ∈ h.

Lemma said_more h l t e : said h t e -> said (l :: h) t e.
Proof. intros [ch ?]. exists ch. by right. Qed.
Lemma waited_more h l t u : has_waited h t u -> has_waited (l :: h) t u.
Proof. intros [v ?]. exists v. by apply said_more. Qed.
Lemma dirty_more h l : dirty h -> dirty (l :: h).
Proof. intros (t&a&b&c&ev&?). exists t, a, b, c, ev. by right. Qed.

(** ** The fields that the history explains *)

Definition view (m : shared_mem) : Z * Z * Z * bool := (parent_of m, child_of m, child_tid m, waited m).
Definition views (s : state) : gmap Z (Z * Z * Z * bool) := view <$> sms s.

(** In the middle of a wait for relation [p], or about to return from it. *)
Definition in_wait (s : state) (t p u : Z) : Prop :=
  exists x, procs s !! t = Some x /\ (at_pc x = WtDown p u \/ at_pc x = WtRead p u).

Record explained (h : hist) (s : state) : Prop := Explained {
  h_child p m : sms s !! p = Some m -> child_tid m <> TID_ERROR -> said h (parent_of m) (Executed (child_of m));
  h_started t u : started h t u -> exists p m, sms s !! p = Some m /\ parent_of m = t /\ child_of m = u /\ child_tid m = u;
  h_waited p m : sms s !! p = Some m -> waited m = true ->
    dirty h \/ has_waited h (parent_of m) (child_of m) \/ in_wait s (parent_of m) p (child_of m) }.

(** Computations that change none of these fields. *)
Definition quiet {A} (m : M state A) : Prop := forall s a s', m s = Ok (a, s') -> views s' = views s.

Lemma quiet_bind {A B} (m : M state A) (k : A -> M state B) : quiet m -> (forall a, quiet (k a)) -> quiet (bind m k).
Proof.
  intros Hm Hk s b s' E. unfold bind in E. destruct (m s) as [[a s1]|e] eqn:Em; [|done]. rewrite (Hk _ _ _ _ E). by eapply Hm.
Qed.
Lemma quiet_same {A} (m : M state A) : (forall s a s', m s = Ok (a, s') -> sms s' = sms s) -> quiet m.
Proof. intros Hm s a s' E. unfold views. by rewrite (Hm _ _ _ E). Qed.
Lemma quiet_upd_sm p f : (forall m, view (f m) = view m) -> quiet (upd_sm p f).
Proof.
  intros Hf s a s' [= _ <-]. unfold views. cbn. apply map_eq. intros q. rewrite !lookup_fmap.
  destruct (decide (q = p)) as [->|]; [rewrite lookup_alter_eq|by rewrite lookup_alter_ne]. destruct (sms s !! p); cbn; by rewrite ?Hf.
Qed.
Lemma quiet_sm_at p : quiet (sm_at p).
Proof. apply quiet_same. intros s a s'. unfold sm_at. by destruct (sms s !! p); [intros [= _ <-]|]. Qed.
Lemma quiet_proc_at t : quiet (proc_at t).
Proof. apply quiet_same. intros s a s'. unfold proc_at. by destruct (procs s !! t); [intros [= _ <-]|]. Qed.
Lemma quiet_upd_proc t f : quiet (upd_proc t f).
Proof. apply quiet_same. by intros s a s' [= _ <-]. Qed.
Lemma quiet_ret {A} (a : A) : quiet (ret a).
Proof. apply quiet_same. by intros s b s' [= _ <-]. Qed.
Lemma quiet_fail {A} e : quiet (fail (A := A) e).
Proof. by intros s a s'. Qed.
Lemma quiet_gets {A} (f : state -> A) : quiet (gets f).
Proof. apply quiet_same. by intros s b s' [= _ <-]. Qed.
Lemma quiet_assert b : quiet (assert (S := state) b).
Proof. destruct b; [apply quiet_ret|apply quiet_fail]. Qed.

Create HintDb quiet.
#[local] Hint Resolve quiet_sm_at quiet_proc_at quiet_upd_proc quiet_ret quiet_fail quiet_gets quiet_assert : quiet.
Ltac quiet := repeat first [progress intros | apply quiet_bind | apply quiet_upd_sm; by intros [] | progress (repeat case_match) | solve [auto with quiet]].

Lemma quiet_find u l : quiet (find_child u l).
Proof. induction l as [|p l IH]; cbn [find_child]; quiet; done. Qed.
#[local] Hint Resolve quiet_find : quiet.

(** Every step but three changes none of them. *)
Definition loud (c : pc) (ch : choice) : bool :=
  match c, ch with ExDone _ _, _ | WtMark _ _, _ | User, CExec _ true true _ => true | _, _ => false end.

Lemma step_quiet s t x ch ev s' : procs s !! t = Some x -> loud (at_pc x) ch = false -> proc_step t ch s = Ok (ev, s') -> views s' = views s.
Proof.
  intros Hx Hl. unfold proc_step, bind at 1, proc_at at 1. rewrite Hx. cbv beta.
  assert (forall m : M state (option event), quiet m -> m s = Ok (ev, s') -> views s' = views s) as Hq by (intros m Hm; apply Hm).
  destruct (at_pc x) as [| | | | | | | | | | | | | | | | | | | | |[|q l]| |] eqn:E; try done;
    try (apply Hq; cbn [execute_step start_step wait_step exit_step];
      unfold down_exec, down_wait, up_exec, up_wait, lock_acquire, lock_release, free_line, use_line, relation, goto, returns; quiet; done).
  destruct ch as [a [] [] g|v|st| |d b|]; try done; apply Hq; unfold process_execute, process_wait, exit, kill, relation, goto, returns; quiet; done.
Qed.

(** ** One step *)

(** What a step of [t] does to a relation [q]. *)
Definition moved (t q : Z) (ch : choice) (ev : option event) (s' : state) (m m' : shared_mem) : Prop :=
  parent_of m' = parent_of m /\ child_of m' = child_of m /\
  (child_tid m' = child_tid m \/ parent_of m = t /\ child_tid m' = child_of m /\ ev = Some (Executed (child_of m))) /\
  (waited m' = waited m \/ parent_of m = t /\ in_wait s' t q (child_of m)).

Record step_moves (t : Z) (ch : choice) (ev : option event) (s s' : state) : Prop := StepMoves {
  v_old q m : sms s !! q = Some m -> exists m', sms s' !! q = Some m' /\ moved t q ch ev s' m m';
  v_new q m' : sms s' !! q = Some m' -> is_Some (sms s !! q) \/ child_tid m' = TID_ERROR /\ (waited m' = true -> dirty [(t, ch, ev)]);
  v_event u : ev = Some (Executed u) -> u = TID_ERROR \/ exists q m', sms s' !! q = Some m' /\ parent_of m' = t /\ child_of m' = u /\ child_tid m' = u }.

Lemma rel_unmoved t q ch ev s' m m' : view m' = view m -> moved t q ch ev s' m m'.
Proof. intros [= ? ? ? ?]. split_and!; auto. Qed.

(** What the steps return. *)
Definition answers {A} (Q : A -> Prop) (m : M state A) : Prop := forall s a s', m s = Ok (a, s') -> Q a.

Lemma answers_bind {A B} Q (m : M state A) (k : A -> M state B) : (forall a, answers Q (k a)) -> answers Q (bind m k).
Proof. intros Hk s1 b s2 E. unfold bind in E. destruct (m s1) as [[a s3]|e]; [|done]. by eapply Hk. Qed.
Lemma answers_ret {A} (Q : A -> Prop) a : Q a -> answers Q (ret a).
Proof. by intros Ha s1 b s2 [= <- _]. Qed.
Lemma answers_fail {A} (Q : A -> Prop) e : answers Q (fail e).
Proof. by intros s1 a s2. Qed.

Ltac answers := repeat first [progress intros | apply answers_bind | progress (repeat case_match) | apply answers_ret | apply answers_fail]; try done.

Section one_step.
Context (s : state) (t : Z) (x : proc) (Hi : inv s) (Hx : procs s !! t = Some x).

Lemma moves_quiet ch ev s' : views s' = views s -> (forall u, ev = Some (Executed u) -> u = TID_ERROR) -> step_moves t ch ev s s'.
Proof.
  intros Hv He. assert (forall q, view <$> sms s' !! q = view <$> sms s !! q) as Hq by (intros q; rewrite <- !lookup_fmap; by apply (f_equal (.!! q)) in Hv).
  split; [| |by left; apply He].
  - intros q m Hm. specialize (Hq q). rewrite Hm in Hq. cbn in Hq. apply fmap_Some in Hq as (m'&Hm'&E). exists m'. split; [done|]. by apply rel_unmoved.
  - intros q m' Hm'. specialize (Hq q). rewrite Hm' in Hq. cbn in Hq. symmetry in Hq. apply fmap_Some in Hq as (m&Hm&_). left. eauto.
Qed.

(** Updating one relation. *)
Lemma moves_upd p m m' x' ch ev : sms s !! p = Some m -> moved t p ch ev (W s t p x' m') m m' ->
  (forall u, ev = Some (Executed u) -> u = TID_ERROR \/ parent_of m' = t /\ child_of m' = u /\ child_tid m' = u) -> step_moves t ch ev s (W s t p x' m').
Proof.
  intros Hm Hv He. split; cbn.
  - intros q mq Hq. destruct (decide (p = q)) as [<-|Hne]; [rewrite lookup_insert_eq; replace mq with m by congruence; eauto|].
    rewrite lookup_insert_ne by done. exists mq. split; [done|]. by apply rel_unmoved.
  - intros q mq [[<- <-]|[_ Hq]]%lookup_insert_Some; left; eauto.
  - intros u Hu. destruct (He u Hu) as [?|?]; [by left|right]. exists p, m'. by rewrite lookup_insert_eq.
Qed.

Lemma moves_done p u ch ev s' : at_pc x = ExDone p u -> proc_step t ch s = Ok (ev, s') -> step_moves t ch ev s s'.
Proof.
  intros E. pose proof (a_pc _ _ _ _ (i_procs _ Hi t x Hx)) as Ha. unfold pc_ok in Ha. rewrite E in Ha. destruct Ha as (_&_&m&Hm&Hp&Hc&Ht).
  rewrite (W_id s t p x m Hx Hm) at 1. unfold proc_step, bind at 1. rewrite proc_at_W. cbv beta. rewrite E. cbn [execute_step].
  destruct (cmd_line m) eqn:El; [|unfold free_line, use_line, bind; by rewrite sm_at_W, El]. unfold bind. rewrite free_line_W, upd_sm_W, returns_W by done. intros [= <- <-].
  eapply moves_upd; [done| |].
  - split_and!; [done|done| |by left]. right. cbn. split_and!; congruence.
  - intros v [= <-]. by right.
Qed.

Lemma moves_mark p u ch ev s' : at_pc x = WtMark p u -> proc_step t ch s = Ok (ev, s') -> step_moves t ch ev s s'.
Proof.
  intros E. pose proof (a_pc _ _ _ _ (i_procs _ Hi t x Hx)) as Ha. unfold pc_ok in Ha. rewrite E in Ha. destruct Ha as (_&Hin&m&Hm&Hc).
  destruct (a_kids _ _ _ _ (i_procs _ Hi t x Hx) p Hin) as (m2&Hm2&Hp&_). assert (m2 = m) as -> by congruence.
  rewrite (W_id s t p x m Hx Hm) at 1. unfold proc_step, bind at 1. rewrite proc_at_W. cbv beta. rewrite E. cbn [wait_step].
  unfold bind. rewrite upd_proc_W, upd_sm_W, goto_W. intros [= <- <-]. eapply moves_upd; [done| |done].
  split_and!; [done|done|by left|]. right. split; [done|]. rewrite Hc. eexists. split; [cbn; apply lookup_insert_eq|by left].
Qed.

Lemma moves_exec a g ch ev s' : at_pc x = User -> ch = CExec a true true g -> proc_step t ch s = Ok (ev, s') -> step_moves t ch ev s s'.
Proof.
  intros E -> Hs. rewrite (step_user s t x Hx E) in Hs. unfold process_execute in Hs. destruct a; [|done]. cbn in Hs.
  unfold bind, gets, modify, goto, bind, upd_proc, modify in Hs. cbn in Hs. injection Hs as <- <-. split; cbn; [| |done].
  - intros q m Hm. exists m. rewrite lookup_insert_ne; [split; [done|by apply rel_unmoved]|]. intros <-. by rewrite (sm_fresh s Hi) in Hm.
  - intros q m' [[<- <-]|[_ Hq]]%lookup_insert_Some; [right|left; eauto]. split; [done|]. cbn. intros ->. eexists _, _, _, _, _. by left.
Qed.

(** Only the end of [process_execute] returns a tid. *)
Definition no_tid (ev : option event) : Prop := forall u, ev = Some (Executed u) -> u = TID_ERROR.

Lemma step_no_tid ch ev s' : (forall p v, at_pc x <> ExDone p v) -> proc_step t ch s = Ok (ev, s') -> no_tid ev.
Proof.
  intros Hn. unfold proc_step, bind at 1, proc_at at 1. rewrite Hx. cbv beta.
  assert (forall m : M state (option event), answers no_tid m -> m s = Ok (ev, s') -> no_tid ev) as Hq by (intros m Hm; apply Hm).
  destruct (at_pc x) as [| | | | | |p v| | | | | | | | | | | | | | |[|q l]| |] eqn:E; try by destruct (Hn p v).
  1: destruct ch as [a b c g|v|st| |d b|].
  all: apply Hq; cbn [execute_step start_step wait_step exit_step]; unfold process_execute, process_wait, exit, kill, goto; answers; intros u [= <-]; done.
Qed.

Lemma step_move ch ev s' : proc_step t ch s = Ok (ev, s') -> step_moves t ch ev s s'.
Proof.
  intros Hs. destruct (loud (at_pc x) ch) eqn:El.
  - destruct (at_pc x) eqn:E; try done; [destruct ch as [a [] [] g|v|st| |d b|]; try done; by eapply moves_exec|by eapply moves_done|by eapply moves_mark].
  - apply moves_quiet; [by eapply step_quiet|]. eapply step_no_tid; [|exact Hs]. intros p v E. by rewrite E in El.
Qed.

(** A wait goes on, or returns. *)
Lemma in_wait_step ch ev s' p u m : sms s !! p = Some m -> in_wait s t p u -> proc_step t ch s = Ok (ev, s') ->
  in_wait s' t p u \/ exists v, ev = Some (Waited u v).
Proof.
  intros Hm (y&Hy&Hpc) Hs. assert (y = x) as -> by congruence. rewrite (step_W s t x Hx p m ch Hm) in Hs.
  unfold proc_step, bind at 1 in Hs. rewrite proc_at_W in Hs. destruct Hpc as [E|E]; rewrite E in Hs; cbn [wait_step] in Hs; unfold bind in Hs.
  - rewrite down_wait_W in Hs. destruct (sema_wait m =? 0); [done|]. rewrite goto_W in Hs. injection Hs as _ <-. left.
    eexists. split; [cbn; apply lookup_insert_eq|by right].
  - rewrite upd_proc_W, sm_at_W, returns_W in Hs. injection Hs as <- _. eauto.
Qed.
End one_step.

(** The history goes on explaining the state. *)
Section explained_step.
Context (h : hist) (s : state) (t : Z) (ch : choice) (ev : option event) (s' : state).
Context (Hi : inv s) (Hh : explained h s) (Hs : proc_step t ch s = Ok (ev, s')) (Hv : step_moves t ch ev s s').

Lemma child_said p m' : sms s' !! p = Some m' -> child_tid m' <> TID_ERROR -> said ((t, ch, ev) :: h) (parent_of m') (Executed (child_of m')).
Proof.
  intros Hm' Ht. destruct (v_new _ _ _ _ _ Hv _ _ Hm') as [[m Hm]|[? _]]; [|done].
  destruct (v_old _ _ _ _ _ Hv _ _ Hm) as (m2&Hm2&Ep&Ec&Hc&_). assert (m2 = m') as -> by congruence. rewrite Ep, Ec.
  destruct Hc as [Hc|(->&_&->)]; [|exists ch; by left]. apply said_more, (h_child _ _ Hh p); congruence.
Qed.

Lemma started_said w u : started ((t, ch, ev) :: h) w u -> exists p m, sms s' !! p = Some m /\ parent_of m = w /\ child_of m = u /\ child_tid m = u.
Proof.
  intros [Hu [ch' [E|Hin]%elem_of_cons]].
  - injection E as Et _ Ee. rewrite Et. by destruct (v_event _ _ _ _ _ Hv u (eq_sym Ee)).
  - destruct (h_started _ _ Hh w u) as (p&m&Hm&Hp&Hc&Ht); [split; [done|by exists ch']|].
    destruct (v_old _ _ _ _ _ Hv _ _ Hm) as (m'&Hm'&Ep&Ec&Hc'&_). exists p, m'. split_and!; [done|congruence|congruence|]. destruct Hc' as [?|(_&?&_)]; congruence.
Qed.

Lemma wait_goes_on p m : sms s !! p = Some m -> in_wait s (parent_of m) p (child_of m) ->
  has_waited ((t, ch, ev) :: h) (parent_of m) (child_of m) \/ in_wait s' (parent_of m) p (child_of m).
Proof.
  intros Hm Hw. destruct (step_proc _ _ _ _ Hs) as [x Hx]. destruct (decide (parent_of m = t)) as [Et|Hne].
  - rewrite Et in Hw |- *. destruct (in_wait_step s t x Hx ch ev s' p _ m Hm Hw Hs) as [?|[v E]]; [by right|left]. exists v, ch. rewrite E. by left.
  - right. destruct Hw as (y&Hy&E). pose proof (step_keeps s t x ch ev s' Hi Hx Hs _ _ Hy) as Hk. rewrite (proj2 (Z.eqb_neq _ _)) in Hk by done. by exists y.
Qed.

Lemma waited_said p m' : sms s' !! p = Some m' -> waited m' = true -> dirty ((t, ch, ev) :: h) \/
  has_waited ((t, ch, ev) :: h) (parent_of m') (child_of m') \/ in_wait s' (parent_of m') p (child_of m').
Proof.
  intros Hm' Hw. destruct (v_new _ _ _ _ _ Hv _ _ Hm') as [[m Hm]|[_ Hd]].
  2: { left. destruct (Hd Hw) as (t1&a&b&c&e&E%list_elem_of_singleton). exists t1, a, b, c, e. rewrite E. by left. }
  destruct (v_old _ _ _ _ _ Hv _ _ Hm) as (m2&Hm2&Ep&Ec&_&Hc). assert (m2 = m') as -> by congruence. rewrite Ep, Ec.
  destruct Hc as [Hc|[-> ?]]; [|by right; right]. destruct (h_waited _ _ Hh p m Hm) as [?|[?|?]]; [congruence|left; by apply dirty_more|right; left; by apply waited_more|right].
  by apply wait_goes_on.
Qed.
End explained_step.

Lemma reach_explained h s : reach_h h s -> inv s /\ explained h s.
Proof.
  induction 1 as [|h s t ch ev s' _ [Hi Hh] Hs].
  - split; [apply init_ok|]. split; cbn; [by intros p m []%lookup_empty_Some|intros t u [_ [ch []%not_elem_of_nil]]|by intros p m []%lookup_empty_Some].
  - split; [by apply (step_taken _ _ _ _ _ Hi Hs)|]. destruct (step_proc _ _ _ _ Hs) as [x Hx]. pose proof (step_move s t x Hi Hx ch ev s' Hs).
    split; [by eapply child_said|by eapply started_said|by eapply waited_said].
Qed.

(** ** process_wait *)

(** A wait that refuses at once. *)
Lemma wait_refuses s t x u v s' : inv s -> procs s !! t = Some x -> at_pc x = User -> process_wait t u s = Ok (Some (Waited u v), s') ->
  v = -1 /\ (u = TID_ERROR \/ (forall p m, p ∈ child_relations x -> sms s !! p = Some m -> child_tid m <> u) \/
    exists p m, p ∈ child_relations x /\ sms s !! p = Some m /\ child_tid m = u /\ waited m = true).
Proof.
  intros Hi Hx E. unfold process_wait. pose proof (i_procs _ Hi t x Hx) as [_ _ _ _ A5 _ A7]. unfold pc_ok in A7. rewrite E in A5, A7.
  destruct (Z.eqb_spec u TID_ERROR) as [->|]; [rewrite (returns_user s t x Hi Hx E); intros [= -> _]; tauto|].
  unfold bind at 1, proc_at at 1. rewrite Hx, A7. unfold bind at 1.
  destruct (find_child_ok s u (child_relations x)) as [[-> Hn]|(p&m&->&Hin&Hm&Hu)]; [intros q (m&Hm&_)%A5; eauto|rewrite (returns_user s t x Hi Hx E); intros [= -> _]; auto|].
  unfold bind, sm_at. rewrite Hm. destruct (waited m) eqn:Ew; [|done]. rewrite (returns_user s t x Hi Hx E). intros [= -> _]. split; [done|]. right. right. by exists p, m.
Qed.

(** Only [process_wait] and its last steps return [Waited]. *)
Lemma waited_from s t x ch u v s' : procs s !! t = Some x -> proc_step t ch s = Ok (Some (Waited u v), s') ->
  (at_pc x = User /\ ch = CWait u) \/ exists p, at_pc x = WtDead p u \/ at_pc x = WtRead p u.
Proof.
  intros Hx Hs. set (Q ev := forall w n, ev = Some (Waited w n) -> (at_pc x = User /\ ch = CWait w) \/ exists p, at_pc x = WtDead p w \/ at_pc x = WtRead p w).
  assert (Q (Some (Waited u v))) as HQ; [|by eapply HQ]. revert Hs. unfold proc_step, bind at 1, proc_at at 1. rewrite Hx. cbv beta.
  assert (forall m : M state (option event), answers Q m -> m s = Ok (Some (Waited u v), s') -> Q (Some (Waited u v))) as Hq by (intros m Hm; apply Hm).
  destruct (at_pc x) as [| | | | | | | | | | | | | | | | | | | | |[|q l]| |] eqn:E; [destruct ch as [a b c g|w|st| |d b|]|..].
  all: apply Hq; cbn [execute_step start_step wait_step exit_step]; unfold process_execute, process_wait, exit, kill, goto; answers; intros w0 n0 [= <- <-]; eauto.
Qed.

(** The child of a wait that returns its status was started by the caller. *)
Lemma waits_for_child h s t x p u : inv s -> explained h s -> procs s !! t = Some x -> at_pc x = WtDead p u \/ at_pc x = WtRead p u -> started h t u.
Proof.
  intros Hi Hh Hx E. pose proof (i_procs _ Hi t x Hx) as [_ _ _ _ A5 _ A7]. unfold pc_ok in A7.
  assert (p ∈ child_relations x /\ exists m, sms s !! p = Some m /\ child_of m = u) as [Hin (m&Hm&Hc)] by (by destruct E as [E|E]; rewrite E in A7; destruct A7).
  destruct (A5 p Hin) as (m'&Hm'&Hp&Ht). assert (m' = m) as -> by congruence. destruct (i_rels _ Hi _ _ Hm) as [_ [Ho _]].
  destruct Ht as [Ht|[w Ew]]; [|destruct E; congruence]. split; [lia|]. rewrite <- Hp, <- Hc. apply (h_child _ _ Hh p m Hm). lia.
Qed.

(** C12. [process_wait], called for the first time for a child, returns the
    status of that child.  If the value comes from the wait itself, the caller
    had started the child with [process_execute], the child has ended, and the
    value is the one it passed to [exit], or -1 if an exception ended it or its
    program was not loaded.  The call refuses at once with -1 only for a tid that
    no [process_execute] of the caller has returned; or else when the [waited]
    byte of some new [shared_mem], which the code does not initialize, was not
    zero.  A later wait for the same child is not part of the claim: the
    comment in the code says it returns -1, [wait_twice] shows that it may
    return the status again. *)
Theorem wait_status h s t ch u v s' : reach_h h s -> proc_step t ch s = Ok (Some (Waited u v), s') -> ~ has_waited h t u ->
  exists x, procs s !! t = Some x /\
    ((at_pc x = User /\ ch = CWait u /\ v = -1 /\ (~ started h t u \/ dirty h)) \/
     (started h t u /\ exists C, procs s !! u = Some C /\ exit_code C = Some v)).
Proof.
  intros [Hi Hh]%reach_explained Hs Hfirst. destruct (step_taken _ _ _ _ _ Hi Hs) as (_&x&Hx&He). exists x. split; [done|].
  destruct (waited_from s t x ch u v s' Hx Hs) as [[E ->]|[p E]]; [left|right].
  2: { split; [by eapply waits_for_child|]. destruct He as [[E' _]|?]; [destruct E; congruence|done]. }
  rewrite (step_user s t x Hx E) in Hs. destruct (wait_refuses s t x u v s' Hi Hx E Hs) as [-> Hr]. split_and!; [done..|].
  destruct Hr as [->|[Hn|(p&m&Hin&Hm&Ht&Hw)]]; [left; by intros []|left|].
  - intros Hst. destruct (h_started _ _ Hh t u Hst) as (p&m&Hm&Hp&_&Ht). apply (Hn p m); [|done..].
    apply (a_all _ _ _ _ (i_procs _ Hi t x Hx) p m Hm Hp); [|by rewrite E]. unfold pushed. destruct Hst as [Hu _]. by rewrite Ht, (proj2 (Z.eqb_neq _ _)).
  - right. destruct (a_kids _ _ _ _ (i_procs _ Hi t x Hx) p Hin) as (m'&Hm'&Hp&Hc). assert (m' = m) as -> by congruence.
    destruct Hc as [Hc|[w Ew]]; [|congruence]. destruct (h_waited _ _ Hh p m Hm Hw) as [?|[?|(y&Hy&Ey)]]; [done|congruence|].
    rewrite Hp in Hy. assert (y = x) as -> by congruence. destruct Ey; congruence.
Qed.

(** ** An instance *)

(** The history of a sequence of steps. *)
Fixpoint record (l : list (Z * choice)) (h : hist) (s : state) : res (hist * state) :=
  match l with
  | [] => Ok (h, s)
  | (t, ch) :: l' => match proc_step t ch s with Ok (ev, s1) => record l' ((t, ch, ev) :: h) s1 | Err e => Err e end
  end.

Lemma record_reach l : forall h s h' s', reach_h h s -> record l h s = Ok (h', s') -> reach_h h' s'.
Proof.
  induction l as [|[t ch] l IH]; intros h s h' s' Hr; cbn; [by intros [= <- <-]|].
  destruct (proc_step t ch s) as [[ev s1]|] eqn:E; [|done]. apply IH. by econstructor.
Qed.

Definition history_of (l : list (Z * choice)) : hist := match record l [] init with Ok (h, _) => h | Err _ => [] end.

Lemma wait_status_witness : exists s', proc_step 1 CGo (end_of ended_trace) = Ok (Some (Waited 2 7), s') /\
  exists x, procs (end_of ended_trace) !! 1 = Some x /\
    ((at_pc x = User /\ CGo = CWait 2 /\ 7 = -1 /\ (~ started (history_of ended_trace) 1 2 \/ dirty (history_of ended_trace))) \/
     (started (history_of ended_trace) 1 2 /\ exists C, procs (end_of ended_trace) !! 2 = Some C /\ exit_code C = Some 7)).
Proof.
  eexists. assert (proc_step 1 CGo (end_of ended_trace) = Ok (Some (Waited 2 7), end_of (ended_trace ++ go 1 1))) as E by (by vm_compute).
  split; [exact E|]. apply (wait_status (history_of ended_trace) (end_of ended_trace) 1 CGo 2 7 (end_of (ended_trace ++ go 1 1))); [|exact E|].
  - apply (record_reach ended_trace [] init); [constructor|by vm_compute].
  - intros (v&ch&Hin). assert (Forall (fun l => match l.2 with Some (Waited _ _) => False | _ => True end) (history_of ended_trace)) as Hall by (vm_compute; repeat constructor).
    by apply (proj1 (Forall_forall _ _) Hall) in Hin.
Defined.
End ProcessHist.
