(* ===== verification/Args.v ===== *)
(** * The arguments of a program: userprog/process.c

    The part of [start_process] that splits the command line, and [push_args],
    which lays the arguments out on the stack of the new process.  Kernel and
    user addresses are one memory, as they are for the kernel.  The local
    array [argv_addr] is a list; a store outside it overruns the stack frame
    and is an error here. *)

From S2P Require Import Prelude.
From S2P Require Import Mem.
From S2P Require Import Words.
From S2P Require Import CString.
Local Open Scope Z_scope.

Module Args.
Import Mem Words CString.

Abbreviation MAX_ARGC := 32%Z.

(** The delimiters, a blank. *)
Definition blank : list Z := [32].

(** ** The code *)

Section code.
(** Where the kernel has the string of delimiters. *)
Context (delims : ptr).

(** The loop of [start_process], [n] rounds from [argc] on. *)
Fixpoint args_loop (n : nat) (argc : Z) (argv save_ptr : ptr) : M mem Z :=
  match n with
  | O => ret argc
  | S n' =>
      let! (token, save_ptr) := strtok_r NULL delims save_ptr in
      do! store32 (argv + 4 * argc) token in
      if token =? NULL then ret argc else args_loop n' (argc + 1) argv save_ptr
  end.
Definition split_args (cmd_line argv save_ptr : ptr) : M mem Z :=
  let! (token, save_ptr) := strtok_r cmd_line delims save_ptr in
  do! store32 argv token in
  args_loop (Z.to_nat (MAX_ARGC - 1)) 1 argv save_ptr.
End code.

Definition set_addr (addr : list Z) (i : Z) (v : ptr) : M mem (list Z) :=
  if (0 <=? i) && (i <? zlen addr) then ret (<[Z.to_nat i := v]> addr) else fail EFault.
Definition get_addr (addr : list Z) (i : Z) : M mem Z :=
  match addr !! Z.to_nat i with Some v => ret v | None => fail EFault end.

(** The first loop of [push_args], for [i] from [n - 1] down to 0. *)
Fixpoint push_strings (n : nat) (esp argv : ptr) (argv_addr : list Z) : M mem (ptr * list Z) :=
  match n with
  | O => ret (esp, argv_addr)
  | S i =>
      let! arg := load32 (argv + 4 * Z.of_nat i) in
      let! len := strlen arg in
      let esp := u32 (esp - u32 (len + 1)) in
      let! len := strlen arg in
      do! memcpy esp arg (u32 (len + 1)) in
      let! argv_addr := set_addr argv_addr (Z.of_nat i) esp in
      push_strings i esp argv argv_addr
  end.

(** The second loop, for [i] from [n - 1] down to 0. *)
Fixpoint push_pointers (n : nat) (esp : ptr) (argv_addr : list Z) : M mem ptr :=
  match n with
  | O => ret esp
  | S i =>
      let esp := u32 (esp - 4) in
      let! v := get_addr argv_addr (Z.of_nat i) in
      do! store32 esp v in
      push_pointers i esp argv_addr
  end.

(** [argv_addr] is an array of 32 words, with what the stack held. *)
Definition push_args (esp : ptr) (argc : Z) (argv : ptr) (argv_addr : list Z) : M mem ptr :=
  let! (esp, argv_addr) := push_strings (Z.to_nat argc) esp argv argv_addr in
  let esp := esp - esp mod 4 in
  let! argv_addr := set_addr argv_addr argc NULL in
  let! esp := push_pointers (Z.to_nat (argc + 1)) esp argv_addr in
  let argv_ptr := esp in
  let esp := u32 (esp - 4) in
  do! store32 esp argv_ptr in
  let esp := u32 (esp - 4) in
  do! store32 esp argc in
  let esp := u32 (esp - 4) in
  let! v := load32 (argv + 4 * argc) in
  do! store32 esp v in
  ret esp.

(** ** Splitting *)

Section facts.
Implicit Types (m : mem) (p q : ptr).

Lemma mem_ok_dom m m' : dom m' = dom m -> mem_ok m -> mem_ok m'.
Proof. intros Hd Hm q b Hb. apply (mem_ok_lookup m); [done|]. apply elem_of_dom. rewrite <- Hd. by eapply elem_of_dom_2. Qed.

Lemma mapped_dom m m' p n : dom m' = dom m -> mapped m p n -> mapped m' p n.
Proof. intros Hd Hm q Hq. apply elem_of_dom. rewrite Hd. apply elem_of_dom. by apply Hm. Qed.

Lemma write_dom m p bs : mapped m p (zlen bs) -> dom (Mem.write m p bs) = dom m.
Proof.
  intros Hp. apply set_eq. intros q. rewrite !elem_of_dom, lookup_write. case_decide; [|done].
  split; intros _; [by apply Hp|apply lookup_lt_is_Some_2; lia].
Qed.

Lemma str_write_ne m p bs q s : q + zlen s < p \/ p + zlen bs <= q -> str_at m q s -> str_at (Mem.write m p bs) q s.
Proof. intros Ho. apply str_at_ext. intros x Hx. rewrite lookup_write, decide_False by lia. done. Qed.

(** Nothing changed outside [p, p + n) and [a, b). *)
Definition changed (p n a b : Z) m m' : Prop :=
  dom m' = dom m /\ forall q, ~ (p <= q < p + n) -> ~ (a <= q < b) -> m' !! q = m !! q.

Section split.
Context (delims argv : ptr).

(** The array and the string do not overlap, nor with the delimiters. *)
Definition apart (a b p n : Z) : Prop := p + n < a \/ b <= p.

Lemma args_loop_ok n : forall argc m save s, mem_ok m -> str_at m delims blank -> str_at m save s -> 0 <= argc ->
  mapped m (argv + 4 * argc) (4 * Z.of_nat n) -> apart (argv + 4 * argc) (argv + 4 * (argc + Z.of_nat n)) save (zlen s) ->
  apart (argv + 4 * argc) (argv + 4 * (argc + Z.of_nat n)) delims 1 -> delims + 1 < save \/ save + zlen s < delims ->
  exists ts m', args_loop delims n argc argv save m = Ok (argc + zlen ts, m') /\ Forall2 (str_at m') ts (take n (words blank [] s)) /\
    (forall i t, ts !! i = Some t -> save <= t /\ word_at m' (argv + 4 * (argc + Z.of_nat i)) t) /\
    ((length (words blank [] s) < n)%nat -> word_at m' (argv + 4 * (argc + zlen ts)) 0) /\
    changed save (zlen s) (argv + 4 * argc) (argv + 4 * (argc + Z.of_nat n)) m m'.
Proof.
  induction n as [|n IH]; intros argc m save s Hm Hd Hs Ha Hmap Hap1 Hap2 Hdj.
  { exists [], m. split_and!; [by rewrite Z.add_0_r|constructor|done|lia|by split]. }
  pose proof (strtok_step m NULL delims blank s save save Hm Hd Hs eq_refl) as Ht. cbn [args_loop].
  assert (mapped m (argv + 4 * argc) 4) as Hslot by (intros q ?; apply Hmap; lia).
  destruct (words blank [] s) as [|w ws] eqn:Ew.
  { rewrite (bind_ok _ _ _ _ _ Ht), (bind_ok _ _ _ _ _ (store32_eq _ _ NULL Hslot)). exists [], (Mem.write m (argv + 4 * argc) (le32 NULL)).
    split_and!; [by rewrite Z.add_0_r|cbn; constructor|done| |split; [by rewrite write_dom|]].
    - intros _. rewrite Z.add_0_r. by apply word_at_write.
    - intros q Hq1 Hq2. rewrite lookup_write, decide_False; [done|]. simpl. lia. }
  destruct Ht as (token&save'&s'&m1&Ht&Hst&Hw&Hl&Hs'&Hws&Hend&Hlen&Hdom&Hin). rewrite (bind_ok _ _ _ _ _ Ht).
  assert (save <= save') by (case_decide; lia).
  assert (mem_ok m1) as Hm1 by (by eapply mem_ok_dom). destruct (mem_ok_str _ _ _ Hm1 Hw) as [Ht0 Ht1].
  rewrite (bind_ok _ _ _ _ _ (store32_eq _ _ token (mapped_dom _ _ _ _ Hdom Hslot))), (proj2 (Z.eqb_neq _ NULL)) by lia.
  set (m2 := Mem.write m1 (argv + 4 * argc) (le32 token)).
  assert (dom m2 = dom m) as Hdom2. { unfold m2. rewrite write_dom; [done|]. by eapply mapped_dom. }
  destruct (IH (argc + 1) m2 save' s') as (ts&m'&He&Hts&Hwd&Hz&Hdom'&Hch); unfold apart in *; try lia.
  - by eapply mem_ok_dom.
  - apply str_write_ne; [simpl; lia|]. eapply str_at_ext; [|exact Hd]. intros q ?. apply Hin. simpl in *. lia.
  - apply str_write_ne; [simpl; lia|done].
  - eapply mapped_dom; [exact Hdom2|]. intros q ?. apply Hmap. lia.
  - rewrite He. exists (token :: ts), m'. rewrite Hws in *.
    assert (forall q, q < argv + 4 * (argc + 1) \/ argv + 4 * (argc + 1 + Z.of_nat n) <= q -> q < save' \/ s' = [] -> m' !! q = m2 !! q) as Hkeep.
    { intros q Hq1 Hq2. apply Hch; [|lia]. destruct Hq2 as [?| ->]; simpl; lia. }
    split_and!; [do 2 f_equal; simpl; lia| | | |split; [by rewrite Hdom'|]].
    + cbn [take]. constructor; [|done]. eapply (token_kept m2); [|exact Hl|]; [apply str_write_ne; [simpl; case_decide; lia|done]|].
      intros q Hq. apply Hkeep. case_decide; lia.
    + intros [|i] t; cbn [lookup list_lookup].
      * intros [= <-]. split; [lia|]. rewrite Z.add_0_r. eapply word_at_ext; [|apply word_at_write; unfold in_u; lia].
        intros q ?. apply Hch; lia.
      * intros Hi. destruct (Hwd i t Hi). split; [lia|]. by replace (argc + Z.of_nat (S i)) with (argc + 1 + Z.of_nat i) by lia.
    + intros Hlt. replace (argc + zlen (token :: ts)) with (argc + 1 + zlen ts) by (simpl; lia). apply Hz. simpl in Hlt. lia.
    + intros q Hq1 Hq2. rewrite Hch by lia. unfold m2. rewrite lookup_write, decide_False by (simpl; lia). apply Hin. lia.
Qed.

(** The whole command line. *)
Lemma split_args_ok m cmd s save : mem_ok m -> str_at m delims blank -> str_at m cmd s -> words blank [] s <> [] ->
  mapped m argv (4 * MAX_ARGC) -> apart argv (argv + 4 * MAX_ARGC) cmd (zlen s) -> apart argv (argv + 4 * MAX_ARGC) delims 1 ->
  delims + 1 < cmd \/ cmd + zlen s < delims ->
  exists ts m', split_args delims cmd argv save m = Ok (zlen ts, m') /\ Forall2 (str_at m') ts (take 32 (words blank [] s)) /\
    (forall i t, ts !! i = Some t -> cmd <= t /\ word_at m' (argv + 4 * Z.of_nat i) t) /\
    ((length (words blank [] s) < 32)%nat -> word_at m' (argv + 4 * zlen ts) 0) /\ changed cmd (zlen s) argv (argv + 4 * MAX_ARGC) m m'.
Proof.
  intros Hm Hd Hs Hne Hmap Hap1 Hap2 Hdj. destruct (args_loop_ok 32 0 m cmd s) as (ts&m'&He&Hrest);
    [done..|rewrite Z.mul_0_r, Z.add_0_r; done|unfold apart in *; lia|unfold apart in *; lia|done|].
  rewrite Z.mul_0_r, Z.add_0_r in Hrest. exists ts, m'. split; [|exact Hrest]. change (Z.of_nat 32) with MAX_ARGC in *. rewrite Z.add_0_l in He. rewrite <- He. pose proof (mem_ok_str _ _ _ Hm Hs).
  pose proof (strtok_step m NULL delims blank s cmd cmd Hm Hd Hs eq_refl) as Ht. destruct (words blank [] s) as [|w ws] eqn:Ew; [done|].
  destruct Ht as (token&save'&s'&m1&Ht&Hst&_). assert (strtok_r cmd delims save m = Ok ((token, save'), m1)) as Ht'.
  { rewrite <- Ht. unfold strtok_r. by rewrite (proj2 (Z.eqb_neq cmd NULL)) by lia. }
  unfold split_args. cbn [args_loop]. rewrite (bind_ok _ _ _ _ _ Ht), (bind_ok _ _ _ _ _ Ht'), (proj2 (Z.eqb_neq token NULL)) by lia.
  by rewrite Z.mul_0_r, Z.add_0_r.
Qed.
End split.

(** ** Laying out the stack *)

(** The bytes the strings need. *)
Definition sizes (ws : list (list Z)) : Z := foldr (fun w n => zlen w + 1 + n) 0 ws.

Lemma sizes_app ws ws' : sizes (ws ++ ws') = sizes ws + sizes ws'.
Proof. unfold sizes. induction ws as [|w ws IH]; simpl; [done|]. rewrite IH. lia. Qed.
Lemma sizes_nonneg ws : 0 <= sizes ws.
Proof. unfold sizes. induction ws; simpl; lia. Qed.

(** The strings [ws] that the array at [argv] names; all above [esp]. *)
Definition argv_at m argv esp (ts : list ptr) (ws : list (list Z)) : Prop :=
  Forall2 (fun t w => esp <= t /\ str_at m t w) ts ws /\ esp <= argv /\ forall i t, ts !! i = Some t -> word_at m (argv + 4 * Z.of_nat i) t.

Lemma argv_frame m m' argv esp ts ws : (forall q, esp <= q -> m' !! q = m !! q) -> argv_at m argv esp ts ws -> argv_at m' argv esp ts ws.
Proof.
  intros Hq (Hts&He&Hw). split_and!; [|done|].
  - eapply Forall2_impl; [exact Hts|]. intros t w [? Hs]. split; [done|]. eapply str_at_ext; [|exact Hs]. intros q ?. apply Hq. lia.
  - intros i t Hi. eapply word_at_ext; [|by apply Hw]. intros q ?. apply Hq. lia.
Qed.

Lemma argv_lower m argv esp esp' ts ws : esp' <= esp -> argv_at m argv esp ts ws -> argv_at m argv esp' ts ws.
Proof. intros Hle (Hts&He&Hw). split_and!; [|lia|done]. eapply Forall2_impl; [exact Hts|]. intros t w [? ?]. split; [lia|done]. Qed.

Lemma argv_init m argv esp ts t ws w : argv_at m argv esp (ts ++ [t]) (ws ++ [w]) ->
  argv_at m argv esp ts ws /\ esp <= t /\ str_at m t w /\ word_at m (argv + 4 * zlen ts) t /\ length ts = length ws.
Proof.
  intros (Hts&He&Hw). pose proof (Forall2_length _ _ _ Hts) as Hl. rewrite !length_app in Hl. simpl in Hl. apply Forall2_app_inv in Hts as [Hts Ht]; [|lia].
  apply Forall2_cons in Ht as [[Ht Hs] _]. split_and!; [split_and!; [done|done|]|done|done| |lia].
  - intros i x Hi. apply Hw. by apply lookup_app_l_Some.
  - apply Hw. by apply list_lookup_middle.
Qed.

Lemma memcpy_str m dst src s : mem_ok m -> str_at m src s -> mapped m dst (zlen s + 1) -> dst + zlen s + 1 <= src ->
  memcpy dst src (zlen s + 1) m = Ok (dst, Mem.write m dst (s ++ [0])).
Proof.
  intros Hm [Hb _]%str_bytes Hd Ho. replace (zlen s + 1) with (zlen (s ++ [0])) in * by (rewrite length_app; simpl; lia).
  apply memcpy_eq; [done|done|done|lia].
Qed.

Lemma str_write m p s : str_at m p s \/ Forall (fun c => 0 < c < 256) s -> str_at (Mem.write m p (s ++ [0])) p s.
Proof.
  intros Hs. assert (Forall (fun c => 0 < c < 256) s) as Hc.
  { destruct Hs as [Hs|]; [|done]. revert p Hs. induction s as [|c s IH]; intros p; [constructor|]. intros (_&?&?). constructor; eauto. }
  apply str_bytes. split.
  - apply write_bytes_at, Forall_app. split; [|by repeat constructor]. eapply Forall_impl; [exact Hc|]. unfold in_u. intros; simpl in *; lia.
  - intros Hin. eapply Forall_forall in Hin; [|exact Hc]. simpl in Hin. lia.
Qed.

Lemma str_chars m p s : str_at m p s -> Forall (fun c => 0 < c < 256) s.
Proof. revert p. induction s as [|c s IH]; intros p; [constructor|]. intros (_&?&?). constructor; eauto. Qed.

Lemma push_strings_ok argv ws : forall ts m esp addr, mem_ok m -> argv_at m argv esp ts ws -> (length ws <= length addr)%nat ->
  0 < esp - sizes ws -> esp < 2 ^ 32 -> mapped m (esp - sizes ws) (sizes ws) ->
  exists addr' m', push_strings (length ws) esp argv addr m = Ok ((esp - sizes ws, addr'), m') /\ length addr' = length addr /\
    (forall i, (length ws <= i)%nat -> addr' !! i = addr !! i) /\
    (forall i w, ws !! i = Some w -> exists p, addr' !! i = Some p /\ esp - sizes ws <= p /\ p + zlen w < esp /\ str_at m' p w) /\
    changed (esp - sizes ws) (sizes ws) 0 0 m m'.
Proof.
  induction ws as [|w ws IH] using rev_ind; intros ts m esp addr Hm Hargv Hl He0 He Hmap.
  { exists addr, m. cbn. rewrite Z.sub_0_r. split_and!; try done. }
  destruct ts as [|t ts _] using rev_ind; [destruct Hargv as [Hf _]; apply Forall2_length in Hf; rewrite length_app in Hf; simpl in Hf; lia|].
  destruct (argv_init _ _ _ _ _ _ _ Hargv) as (Hargv'&Ht&Hs&Hw&Hlen). rewrite sizes_app in *. cbn [sizes foldr] in *. rewrite length_app in Hl. simpl in Hl.
  rewrite length_app, Nat.add_comm. cbn [length plus push_strings]. rewrite <- Hlen. pose proof (sizes_nonneg ws). pose proof (mem_ok_str _ _ _ Hm Hs).
  rewrite (bind_ok _ _ _ _ _ (load32_eq _ _ _ Hw)), (bind_ok _ _ _ _ _ (strlen_eq _ _ _ Hm Hs)). rewrite (wrapu_small 32 (zlen w + 1)) by (unfold in_u; lia).
  rewrite (bind_ok _ _ _ _ _ (strlen_eq _ _ _ Hm Hs)). rewrite (wrapu_small 32 (zlen w + 1)), (wrapu_small 32 (esp - _)) by (unfold in_u; lia).
  set (e1 := esp - (zlen w + 1)).
  assert (mapped m e1 (zlen w + 1)) as Hme by (intros q ?; apply Hmap; lia).
  rewrite (bind_ok _ _ _ _ _ (memcpy_str m e1 t w Hm Hs Hme ltac:(lia))).
  unfold set_addr. rewrite (proj2 (Z.leb_le _ _)), (proj2 (Z.ltb_lt _ _)) by lia. cbn [andb]. unfold bind at 1, ret at 1. rewrite Nat2Z.id.
  set (m1 := Mem.write m e1 (w ++ [0])). assert (zlen (w ++ [0]) = zlen w + 1) as Elen by (rewrite length_app; simpl; lia).
  assert (dom m1 = dom m) as Hd1 by (apply write_dom; by rewrite Elen).
  destruct (IH ts m1 e1 (<[length ts := e1]> addr)) as (addr'&m'&Hp&Hla&Hold&Hnew&Hdom&Hch).
  - by eapply mem_ok_dom.
  - apply argv_lower with esp; [lia|]. eapply argv_frame; [|exact Hargv']. intros q Hq. unfold m1. rewrite lookup_write, decide_False by lia. done.
  - rewrite length_insert. lia.
  - lia.
  - lia.
  - eapply mapped_dom; [exact Hd1|]. intros q ?. apply Hmap. lia.
  - exists addr', m'. rewrite length_insert in Hla. replace (esp - (sizes ws + (zlen w + 1 + 0))) with (e1 - sizes ws) by lia.
    rewrite Hlen in Hp |- *. rewrite Hp. split_and!; [done|done| | |split; [by rewrite Hdom|]].
    + intros i Hi. rewrite Hold by lia. rewrite list_lookup_insert_ne by lia. done.
    + intros i v [Hi|[Hi Hv]]%lookup_app_Some.
      * destruct (Hnew i v Hi) as (p&?&?&?&?). exists p. split_and!; [done|lia|lia|done].
      * apply list_lookup_singleton_Some in Hv as [Hi0 <-]. assert (i = length ts) as -> by lia. exists e1. rewrite Hold by lia.
        rewrite list_lookup_insert_eq by lia. split_and!; [done|lia|lia|]. eapply str_at_ext; [|apply str_write; right; by eapply str_chars].
        intros q ?. rewrite Hch by lia. done.
    + intros q Hq _. rewrite Hch by lia. unfold m1. rewrite lookup_write, decide_False by lia. done.
Qed.

Lemma push_pointers_ok n : forall m esp addr, (forall i, (i < n)%nat -> exists v, addr !! i = Some v /\ in_u 32 v) ->
  0 < esp - 4 * Z.of_nat n -> esp < 2 ^ 32 -> mapped m (esp - 4 * Z.of_nat n) (4 * Z.of_nat n) ->
  exists m', push_pointers n esp addr m = Ok (esp - 4 * Z.of_nat n, m') /\
    (forall i v, (i < n)%nat -> addr !! i = Some v -> word_at m' (esp - 4 * Z.of_nat n + 4 * Z.of_nat i) v) /\
    changed (esp - 4 * Z.of_nat n) (4 * Z.of_nat n) 0 0 m m'.
Proof.
  induction n as [|n IH]; intros m esp addr Ha H0 H1 Hm.
  { exists m. cbn. rewrite Z.sub_0_r. split_and!; [done|lia|done]. }
  cbn [push_pointers]. rewrite wrapu_small by (unfold in_u; lia). destruct (Ha n) as (v&Hv&Hu); [lia|]. unfold get_addr. rewrite Nat2Z.id, Hv.
  unfold bind at 1, ret at 1. assert (mapped m (esp - 4) 4) as Hme by (intros q ?; apply Hm; lia).
  rewrite (bind_ok _ _ _ _ _ (store32_eq _ _ v Hme)). set (m1 := Mem.write m (esp - 4) (le32 v)). assert (dom m1 = dom m) as Hd1 by (by apply write_dom).
  destruct (IH m1 (esp - 4) addr) as (m'&Hp&Hw&Hdom&Hch); [intros i ?; apply Ha; lia|lia|lia| |].
  { eapply mapped_dom; [exact Hd1|]. intros q ?. apply Hm. lia. }
  replace (esp - 4 - 4 * Z.of_nat n) with (esp - 4 * Z.of_nat (S n)) in * by lia. exists m'. split_and!; [done| |split; [by rewrite Hdom|]].
  - intros i x Hi Hx. destruct (decide (i = n)) as [->|]; [|apply Hw; [lia|done]]. assert (x = v) as -> by congruence.
    replace (esp - _ + _) with (esp - 4) by lia. eapply word_at_ext; [|by apply word_at_write]. intros q ?. apply Hch; lia.
  - intros q Hq _. rewrite Hch by lia. unfold m1. rewrite lookup_write, decide_False by (simpl; lia). done.
Qed.

(** What the program finds at [esp]: a return address, [argc], [argv], and the
    array of the arguments with its null pointer. *)
Definition stack_image m (esp : ptr) (ws : list (list Z)) (ra : Z) : Prop :=
  word_at m esp ra /\ word_at m (esp + 4) (zlen ws) /\ word_at m (esp + 8) (esp + 12) /\
  (forall i w, ws !! i = Some w -> exists p, word_at m (esp + 12 + 4 * Z.of_nat i) p /\ str_at m p w) /\
  word_at m (esp + 12 + 4 * zlen ws) 0.

(** The bytes of the stack that it takes at most. *)
Definition stack_need (ws : list (list Z)) : Z := sizes ws + 3 + 4 * (zlen ws + 4).

Lemma word_low m m' p n q w : changed p n 0 0 m m' -> q + 4 <= p \/ p + n <= q -> word_at m q w -> word_at m' q w.
Proof. intros [_ Hc] Ho. apply word_at_ext. intros x ?. apply Hc; lia. Qed.

Lemma store_changed m p w : mapped m p 4 -> changed p 4 0 0 m (Mem.write m p (le32 w)).
Proof. intros Hm. split; [by apply write_dom|]. intros q ? _. rewrite lookup_write, decide_False; [done|simpl; lia]. Qed.

Lemma changed_trans p n m1 m2 m3 p' n' : changed p n 0 0 m1 m2 -> changed p' n' 0 0 m2 m3 -> p <= p' -> p' + n' <= p + n -> changed p n 0 0 m1 m3.
Proof. intros [D1 C1] [D2 C2] ? ?. split; [congruence|]. intros q ? ?. rewrite C2, C1 by lia. done. Qed.

Lemma changed_mono p n m m' p' n' : changed p n 0 0 m m' -> p' <= p -> p + n <= p' + n' -> changed p' n' 0 0 m m'.
Proof. intros [D C] ? ?. split; [done|]. intros q ? ?. apply C; lia. Qed.

(** The last three words. *)
Lemma push_tail_ok m b argc argv ra : mapped m (b - 12) 12 -> 0 < b - 12 -> b < 2 ^ 32 -> in_u 32 argc -> word_at m (argv + 4 * argc) ra -> b <= argv + 4 * argc ->
  exists m', (let esp := u32 (b - 4) in do! store32 esp b in let esp := u32 (esp - 4) in do! store32 esp argc in let esp := u32 (esp - 4) in
      let! v := load32 (argv + 4 * argc) in do! store32 esp v in ret esp) m = Ok (b - 12, m') /\
    word_at m' (b - 12) ra /\ word_at m' (b - 8) argc /\ word_at m' (b - 4) b /\ changed (b - 12) 12 0 0 m m'.
Proof.
  intros Hm H0 H1 Ha Hra Ho. cbv zeta. rewrite (wrapu_small 32 (b - 4)) by (unfold in_u; lia). rewrite (wrapu_small 32 (b - 4 - 4)) by (unfold in_u; lia).
  rewrite (wrapu_small 32 (b - 4 - 4 - 4)) by (unfold in_u; lia). replace (b - 4 - 4 - 4) with (b - 12) by lia. replace (b - 4 - 4) with (b - 8) by lia.
  assert (forall k, 0 <= k <= 8 -> mapped m (b - 12 + k) 4) as Hmk by (intros k ? q ?; apply Hm; lia).
  assert (mapped m (b - 4) 4) as HmA by (replace (b - 4) with (b - 12 + 8) by lia; apply Hmk; lia).
  rewrite (bind_ok _ _ _ _ _ (store32_eq _ _ b HmA)). set (mA := Mem.write _ _ _). pose proof (store_changed m (b - 4) b HmA) as CA. fold mA in CA.
  assert (mapped mA (b - 8) 4) as HmB by (eapply mapped_dom; [apply CA|replace (b - 8) with (b - 12 + 4) by lia; apply Hmk; lia]).
  rewrite (bind_ok _ _ _ _ _ (store32_eq _ _ argc HmB)). set (mB := Mem.write _ _ _). pose proof (store_changed mA (b - 8) argc HmB) as CB. fold mB in CB.
  assert (word_at mB (argv + 4 * argc) ra) as HraB by (eapply word_low; [exact CB|lia|eapply word_low; [exact CA|lia|done]]).
  rewrite (bind_ok _ _ _ _ _ (load32_eq _ _ _ HraB)).
  assert (mapped mB (b - 12) 4) as HmC by (eapply mapped_dom; [apply CB|]; eapply mapped_dom; [apply CA|]; replace (b - 12) with (b - 12 + 0) by lia; apply Hmk; lia).
  rewrite (bind_ok _ _ _ _ _ (store32_eq _ _ ra HmC)). set (mC := Mem.write _ _ _). pose proof (store_changed mB (b - 12) ra HmC) as CC. fold mC in CC.
  exists mC. split; [done|]. split_and!.
  - apply word_at_write, Hra.
  - eapply word_low; [exact CC|lia|by apply word_at_write].
  - eapply word_low; [exact CC|lia|eapply word_low; [exact CB|lia|]]. apply word_at_write. unfold in_u. lia.
  - destruct CA as [DA CA], CB as [DB CB], CC as [DC CC]. split; [congruence|]. intros q ? _. rewrite CC, CB, CA by lia. done.
Qed.

Lemma push_args_ok m top argv ts ws addr ra : mem_ok m -> argv_at m argv top ts ws -> word_at m (argv + 4 * zlen ws) ra ->
  (length ws < length addr)%nat -> 0 < top - stack_need ws -> top < 2 ^ 32 -> mapped m (top - stack_need ws) (stack_need ws) ->
  exists esp m', push_args top (zlen ws) argv addr m = Ok (esp, m') /\ esp mod 4 = 0 /\ top - stack_need ws <= esp /\ stack_image m' esp ws ra /\
    changed (top - stack_need ws) (stack_need ws) 0 0 m m'.
Proof.
  intros Hm Hargv Hra Hl H0 H1 Hmap. unfold stack_need in *. pose proof (sizes_nonneg ws).
  destruct (push_strings_ok argv ws ts m top addr Hm Hargv) as (addr1&m1&Hp1&Hla&Hold&Hstr&Hch1); [lia|lia|lia|intros q ?; apply Hmap; lia|].
  unfold push_args. rewrite Nat2Z.id, (bind_ok _ _ _ _ _ Hp1). set (e1 := top - sizes ws) in *. set (e2 := e1 - e1 mod 4).
  pose proof (Z.mod_pos_bound e1 4 ltac:(lia)). unfold set_addr. rewrite (proj2 (Z.leb_le _ _)), (proj2 (Z.ltb_lt _ _)) by lia. cbn [andb].
  unfold bind at 1, ret at 1. rewrite Nat2Z.id. replace (Z.to_nat (zlen ws + 1)) with (S (length ws)) by lia.
  assert (forall p n, top - (sizes ws + 3 + 4 * (zlen ws + 4)) <= p -> p + n <= top -> mapped m1 p n) as Hmap1.
  { intros p n ? ?. eapply mapped_dom; [apply Hch1|]. intros q ?. apply Hmap. lia. }
  destruct (push_pointers_ok (S (length ws)) m1 e2 (<[length ws := NULL]> addr1)) as (m2&Hp2&Hw2&Hch2); [|lia|lia|apply Hmap1; lia|].
  { intros i Hi. destruct (decide (i = length ws)) as [->|]; [rewrite list_lookup_insert_eq by lia; by exists NULL|]. rewrite list_lookup_insert_ne by lia.
    destruct (lookup_lt_is_Some_2 ws i ltac:(lia)) as [w Hw]. destruct (Hstr i w Hw) as (p&?&?&?&_). exists p. split; [done|unfold in_u; lia]. }
  rewrite (bind_ok _ _ _ _ _ Hp2). set (b := e2 - 4 * Z.of_nat (S (length ws))) in *.
  destruct Hargv as (_&Hav&_).
  destruct (push_tail_ok m2 b (zlen ws) argv ra) as (m3&Hp3&Hra3&Hargc&Hptr&Hch3); [|lia|lia|unfold in_u; lia| |lia|].
  { eapply mapped_dom; [apply Hch2|]. apply Hmap1; lia. }
  { eapply word_low; [exact Hch2|lia|]. eapply word_low; [exact Hch1|lia|done]. }
  exists (b - 12), m3. split; [exact Hp3|]. unfold stack_image. split_and!; [|lia|done|by replace (b - 12 + 4) with (b - 8) by lia| | | |].
  - pose proof (Z.div_mod e1 4 ltac:(lia)). replace (b - 12) with ((e1 / 4 - Z.of_nat (S (length ws)) - 3) * 4) by lia. apply Z_mod_mult.
  - replace (b - 12 + 8) with (b - 4) by lia. by replace (b - 12 + 12) with b by lia.
  - intros i w Hw. destruct (Hstr i w Hw) as (p&Hp&?&?&Hs). exists p. pose proof (lookup_lt_Some _ _ _ Hw). split.
    + eapply word_low; [exact Hch3|lia|]. replace (b - 12 + 12) with b by lia. apply Hw2; [lia|]. by rewrite list_lookup_insert_ne by lia.
    + eapply str_at_ext; [|exact Hs]. intros q ?. by rewrite (proj2 Hch3), (proj2 Hch2) by lia.
  - eapply word_low; [exact Hch3|lia|]. replace (b - 12 + 12) with b by lia. apply Hw2; [lia|]. by rewrite list_lookup_insert_eq by lia.
  - eapply changed_trans; [eapply changed_trans; [eapply changed_mono; [exact Hch1|lia|lia]|exact Hch2|lia|lia]|exact Hch3|lia|lia].
Qed.

(** C14. For a command line of 1 to 31 words, a new process finds it on its
    stack as the calling convention wants it: splitting the command line at blanks and pushing the
    pieces leaves the stack pointer aligned, at a return address, the number of
    the arguments, and a pointer to the array of pointers to them, which a null
    pointer ends; the arguments are the words of the command line, in order.
    Memory changes nowhere but in the part of the stack that this needs, in the
    command line, and in the array of the pieces. *)
Theorem args_on_stack m delims cmd s argv save addr top : let ws := words blank [] s in
  mem_ok m -> str_at m delims blank -> str_at m cmd s -> ws <> [] -> (length ws < 32)%nat -> length addr = 32%nat ->
  mapped m argv (4 * MAX_ARGC) -> apart argv (argv + 4 * MAX_ARGC) cmd (zlen s) -> apart argv (argv + 4 * MAX_ARGC) delims 1 ->
  delims + 1 < cmd \/ cmd + zlen s < delims -> top <= cmd -> top <= argv ->
  0 < top - stack_need ws -> top < 2 ^ 32 -> mapped m (top - stack_need ws) (stack_need ws) ->
  exists esp m', (let! argc := split_args delims cmd argv save in push_args top argc argv addr) m = Ok (esp, m') /\
    esp mod 4 = 0 /\ top - stack_need ws <= esp /\ stack_image m' esp ws 0 /\ dom m' = dom m /\
    forall q, ~ (top - stack_need ws <= q < top) -> ~ (cmd <= q < cmd + zlen s) -> ~ (argv <= q < argv + 4 * MAX_ARGC) -> m' !! q = m !! q.
Proof.
  intros ws Hm Hd Hs Hne Hlt Hla Hmap Hap1 Hap2 Hdj Hc Ha H0 H1 Hst.
  destruct (split_args_ok delims argv m cmd s save Hm Hd Hs Hne Hmap Hap1 Hap2 Hdj) as (ts&m1&He&Hts&Hw&Hz&Hdom&Hch).
  fold ws in Hts, Hz. rewrite take_ge in Hts by lia. pose proof (Forall2_length _ _ _ Hts) as Hl. rewrite (bind_ok _ _ _ _ _ He), Hl.
  destruct (push_args_ok m1 top argv ts ws addr 0) as (esp&m'&E&He4&Hlow&Himg&Hdom'&Hch');
    [by eapply mem_ok_dom| |rewrite <- Hl; by apply Hz|lia|done|done|by eapply mapped_dom|].
  2: { exists esp, m'. split_and!; [done..|by rewrite Hdom'|]. intros q Hq1 Hq2 Hq3. rewrite Hch' by lia. by apply Hch. }
  split_and!; [|lia|intros i t Hi; by apply Hw]. apply Forall2_same_length_lookup. split; [done|]. intros i t w Hi Hwi.
  split; [destruct (Hw i t Hi); lia|]. by eapply Forall2_lookup_lr.
Qed.

(** With 32 words or more, [push_args] stores past the end of [argv_addr]. *)
Lemma push_args_overrun m top argv ts ws addr : mem_ok m -> argv_at m argv top ts ws -> length ws = 32%nat -> length addr = 32%nat ->
  0 < top - sizes ws -> top < 2 ^ 32 -> mapped m (top - sizes ws) (sizes ws) -> push_args top 32 argv addr m = Err EFault.
Proof.
  intros Hm Hargv Hl Hla H0 H1 Hmap. destruct (push_strings_ok argv ws ts m top addr Hm Hargv) as (addr1&m1&Hp1&Hla1&_); [lia|done..|].
  rewrite Hl in Hp1. unfold push_args. change (Z.to_nat 32) with 32%nat. rewrite (bind_ok _ _ _ _ _ Hp1). unfold set_addr, bind. by rewrite Hla1, Hla.
Qed.
End facts.

(** ** An example: the command line "ls -l" *)

Definition ex_mem : mem := Mem.write (Mem.write (Mem.write (Mem.write ∅ 1900 (replicate 100 7)) 3000 (replicate 128 0)) 4000 [108; 115; 32; 45; 108; 0]) 5000 [32; 0].

Lemma ex_need : stack_need (words blank [] [108; 115; 32; 45; 108]) = 33.
Proof. by vm_compute. Qed.

Lemma args_on_stack_witness : exists esp m',
  (let! argc := split_args 5000 4000 3000 0 in push_args 2000 argc 3000 (replicate 32 9)) ex_mem = Ok (esp, m') /\
  esp mod 4 = 0 /\ 2000 - stack_need [[108; 115]; [45; 108]] <= esp /\ stack_image m' esp [[108; 115]; [45; 108]] 0 /\ dom m' = dom ex_mem /\
  forall q, ~ (2000 - stack_need [[108; 115]; [45; 108]] <= q < 2000) -> ~ (4000 <= q < 4000 + 5) -> ~ (3000 <= q < 3000 + 4 * MAX_ARGC) -> m' !! q = ex_mem !! q.
Proof.
  assert (mapped ex_mem 3000 128 /\ mapped ex_mem 1967 33) as [H1 H2].
  { split; [apply (bytes_at_mapped _ _ (replicate 128 0))|apply (bytes_at_mapped _ _ (replicate 33 7))]; apply (bool_decide_unpack _); by vm_compute. }
  apply (args_on_stack ex_mem 5000 4000 [108; 115; 32; 45; 108] 3000 0 (replicate 32 9) 2000);
    rewrite ?ex_need; try exact H1; try exact H2; try (apply (bool_decide_unpack _); by vm_compute); unfold apart; simpl; lia.
Defined.
End Args.
