(* ===== verification/Loader.v ===== *)
(** * The program loader: userprog/process.c

    [load] and what it calls: the headers of an ELF executable, the checks of
    a segment, and the pages that hold it.  The state joins the virtual memory
    of [Pagedir] and the file system of [Fs].  [process_activate] also sets the
    kernel stack of the task-state segment (userprog/tss.c).  The messages of
    [load] are not modelled. *)

From S2P Require Import Prelude.
From S2P Require Import Mem.
From S2P Require Import Words.
From S2P Require Import Vaddr.
From S2P Require Import CString.
From S2P Require Import Palloc.
From S2P Require Import Pagedir.
From S2P Require Import Device.
From S2P Require Import Fs.
From S2P Require Import Directory.
Local Open Scope Z_scope.

Module Loader.
Import Mem Words Vaddr.

(** ** The headers *)

Record Elf32_Ehdr := Ehdr {
  e_ident : list Z; e_type : Z; e_machine : Z; e_version : Z; e_entry : Z; e_phoff : Z; e_phentsize : Z; e_phnum : Z }.
Record Elf32_Phdr := Phdr {
  p_type : Z; p_offset : Z; p_vaddr : Z; p_filesz : Z; p_memsz : Z; p_flags : Z }.

(** The field of [n] bytes at [ofs]. *)
Definition field (bs : list Z) (ofs n : nat) : Z := le (take n (drop ofs bs)).

Definition ehdr_of (bs : list Z) : Elf32_Ehdr :=
  Ehdr (take 16 bs) (field bs 16 2) (field bs 18 2) (field bs 20 4) (field bs 24 4) (field bs 28 4) (field bs 42 2) (field bs 44 2).
Definition phdr_of (bs : list Z) : Elf32_Phdr :=
  Phdr (field bs 0 4) (field bs 4 4) (field bs 8 4) (field bs 16 4) (field bs 20 4) (field bs 24 4).

Abbreviation EHDR_SIZE := 52%Z.
Abbreviation PHDR_SIZE := 32%Z.

Abbreviation PT_LOAD := 1%Z.
Abbreviation PT_DYNAMIC := 2%Z.
Abbreviation PT_INTERP := 3%Z.
Abbreviation PT_SHLIB := 5%Z.
Abbreviation PF_W := 2%Z.

Definition ROUND_UP (x step : Z) : Z := u32 (u32 (x + step - 1) / step * step).

(** The header of an executable that [load] accepts. *)
Definition ehdr_ok (e : Elf32_Ehdr) : bool :=
  bool_decide (take 7 (e_ident e) = [127; 69; 76; 70; 1; 1; 1]) && (e_type e =? 2) && (e_machine e =? 3) && (e_version e =? 1) &&
  (e_phentsize e =? PHDR_SIZE) && (e_phnum e <=? 1024).

(** ** The code *)

Record state {dev : Type} := L { vm : Pagedir.state; fs : Fs.state dev; pagedir : ptr; esp0 : Z }.
Arguments state dev : clear implicits.
Arguments L {dev}.

Section code.
Context {dev : Type} `{!Device.Device dev} `{!Device.Allocator}.
Context (cur init_ram_pages : Z) (init_page_dir : ptr).

Definition on_vm {A} (m : M Pagedir.state A) : M (state dev) A := zoom vm (fun v s => L v (fs s) (pagedir s) (esp0 s)) m.
Definition on_fs {A} (m : M (Fs.state dev) A) : M (state dev) A := zoom fs (fun f s => L (vm s) f (pagedir s) (esp0 s)) m.
Definition on_pages {A} (m : M Palloc.state A) : M (state dev) A := on_vm (Pagedir.on_pages m).
Definition on_mem {A} (m : M mem A) : M (state dev) A := on_vm (Pagedir.on_mem m).

Definition install_page (upage kpage : ptr) (writable : bool) : M (state dev) bool :=
  let! pd := gets pagedir in
  let! old := on_vm (Pagedir.pagedir_get_page cur pd upage) in
  if negb (old =? NULL) then ret false
  else on_vm (Pagedir.pagedir_set_page cur init_ram_pages init_page_dir pd upage kpage writable).

Definition setup_stack : M (state dev) (option ptr) :=
  let! kpage := on_pages (Palloc.palloc_get_page cur (Z.lor Palloc.PAL_USER Palloc.PAL_ZERO)) in
  if kpage =? NULL then ret None else
  let! success := install_page (u32 (PHYS_BASE - PGSIZE)) kpage true in
  if (success : bool) then ret (Some PHYS_BASE)
  else do! on_pages (Palloc.palloc_free_page kpage) in ret None.

Definition validate_segment (phdr : Elf32_Phdr) (file : ptr) : M (state dev) bool :=
  if negb (Z.land (p_offset phdr) PGMASK =? Z.land (p_vaddr phdr) PGMASK) then ret false else
  let! len := on_fs (Fs.file_length file) in
  if u32 len <? p_offset phdr then ret false else
  if p_memsz phdr <? p_filesz phdr then ret false else
  if p_memsz phdr =? 0 then ret false else
  if negb (is_user_vaddr (p_vaddr phdr)) then ret false else
  if negb (is_user_vaddr (u32 (p_vaddr phdr + p_memsz phdr))) then ret false else
  if u32 (p_vaddr phdr + p_memsz phdr) <? p_vaddr phdr then ret false else
  if p_vaddr phdr <? PGSIZE then ret false else
  ret true.

(** Storing what was read from the file into a page. *)
Fixpoint put_bytes (p : ptr) (bs : list Z) : M mem unit :=
  match bs with [] => ret tt | b :: bs' => do! store p b in put_bytes (p + 1) bs' end.
Fixpoint get_bytes (n : nat) (p : ptr) : M mem (list Z) :=
  match n with O => ret [] | S n' => let! b := load p in let! bs := get_bytes n' (p + 1) in ret (b :: bs) end.
Definition read_into (file kpage : ptr) (n : Z) : M (state dev) Z :=
  let! old := on_mem (get_bytes (Z.to_nat n) kpage) in
  let! (k, bs) := on_fs (Fs.file_read file old (s32 n)) in
  do! on_mem (put_bytes kpage (take (Z.to_nat k) bs)) in
  ret k.

(** The loop of [load_segment]. *)
Fixpoint load_pages (fuel : nat) (file upage : ptr) (read_bytes zero_bytes : Z) (writable : bool) : M (state dev) bool :=
  if (0 <? read_bytes) || (0 <? zero_bytes) then
    match fuel with
    | O => fail EFuel
    | S fuel' =>
        let page_read_bytes := if read_bytes <? PGSIZE then read_bytes else PGSIZE in
        let page_zero_bytes := u32 (PGSIZE - page_read_bytes) in
        let! kpage := on_pages (Palloc.palloc_get_page cur Palloc.PAL_USER) in
        if kpage =? NULL then ret false else
        let! n := read_into file kpage page_read_bytes in
        if negb (n =? s32 page_read_bytes) then do! on_pages (Palloc.palloc_free_page kpage) in ret false else
        do! on_mem (CString.memset (u32 (kpage + page_read_bytes)) 0 page_zero_bytes) in
        let! ok := install_page upage kpage writable in
        if negb ok then do! on_pages (Palloc.palloc_free_page kpage) in ret false else
        load_pages fuel' file (u32 (upage + PGSIZE)) (u32 (read_bytes - page_read_bytes)) (u32 (zero_bytes - page_zero_bytes)) writable
    end
  else ret true.

(** A page fewer is left after every round: at most 2^20 rounds. *)
Definition load_segment (file : ptr) (ofs : Z) (upage : ptr) (read_bytes zero_bytes : Z) (writable : bool) : M (state dev) bool :=
  do! assert (u32 (read_bytes + zero_bytes) mod PGSIZE =? 0) in
  do! assert (pg_ofs upage =? 0) in
  do! assert (ofs mod PGSIZE =? 0) in
  do! on_fs (Fs.file_seek file ofs) in
  load_pages (Z.to_nat (2 ^ 20)) file upage read_bytes zero_bytes writable.

Definition process_activate : M (state dev) unit :=
  let! pd := gets pagedir in
  do! on_vm (Pagedir.pagedir_activate init_page_dir pd) in
  modify (fun s => L (vm s) (fs s) (pagedir s) (u32 (cur + PGSIZE))).

(** One program header: whether to go on. *)
Definition load_phdr (file : ptr) (phdr : Elf32_Phdr) : M (state dev) bool :=
  if (p_type phdr =? PT_DYNAMIC) || (p_type phdr =? PT_INTERP) || (p_type phdr =? PT_SHLIB) then ret false else
  if negb (p_type phdr =? PT_LOAD) then ret true else
  let! valid := validate_segment phdr file in
  if negb valid then ret false else
  let writable := has (p_flags phdr) PF_W in
  let file_page := Z.land (p_offset phdr) (u32 (Z.lnot PGMASK)) in
  let mem_page := Z.land (p_vaddr phdr) (u32 (Z.lnot PGMASK)) in
  let page_offset := Z.land (p_vaddr phdr) PGMASK in
  let '(read_bytes, zero_bytes) :=
    if 0 <? p_filesz phdr then
      let read_bytes := u32 (page_offset + p_filesz phdr) in
      (read_bytes, u32 (ROUND_UP (u32 (page_offset + p_memsz phdr)) PGSIZE - read_bytes))
    else (0, ROUND_UP (u32 (page_offset + p_memsz phdr)) PGSIZE) in
  load_segment file (s32 file_page) mem_page read_bytes zero_bytes writable.

(** The loop over the program headers, [n] of which are left. *)
Fixpoint load_phdrs (n : nat) (file : ptr) (file_ofs : Z) : M (state dev) bool :=
  match n with
  | O => ret true
  | S n' =>
      if file_ofs <? 0 then ret false else
      let! len := on_fs (Fs.file_length file) in
      if len <? file_ofs then ret false else
      do! on_fs (Fs.file_seek file file_ofs) in
      let! (k, bs) := on_fs (Fs.file_read file (replicate (Z.to_nat PHDR_SIZE) 0) PHDR_SIZE) in
      if negb (k =? PHDR_SIZE) then ret false else
      let! ok := load_phdr file (phdr_of bs) in
      if negb ok then ret false else load_phdrs n' file (s32 (file_ofs + PHDR_SIZE))
  end.

(** The part of [load] with the file open; the entry point and the stack. *)
Definition load_file (file : ptr) : M (state dev) (option (Z * ptr)) :=
  let! (k, bs) := on_fs (Fs.file_read file (replicate (Z.to_nat EHDR_SIZE) 0) EHDR_SIZE) in
  let ehdr := ehdr_of bs in
  if negb (k =? EHDR_SIZE) || negb (ehdr_ok ehdr) then ret None else
  let! ok := load_phdrs (Z.to_nat (e_phnum ehdr)) file (s32 (e_phoff ehdr)) in
  if negb ok then ret None else
  let! esp := setup_stack in
  match esp with None => ret None | Some esp => ret (Some (e_entry ehdr, esp)) end.

(** [None] when it fails, [eip] and [esp] otherwise. *)
Definition load (file_name : list Z) : M (state dev) (option (Z * ptr)) :=
  let! pd := on_vm (Pagedir.pagedir_create cur init_page_dir) in
  do! modify (fun s => L (vm s) (fs s) pd (esp0 s)) in
  if pd =? NULL then do! on_fs (Fs.file_close cur NULL) in ret None else
  do! process_activate in
  let! file := on_fs (Directory.filesys_open cur file_name) in
  let! r := if file =? NULL then ret None else load_file file in
  do! on_fs (Fs.file_close cur file) in
  ret r.
End code.
End Loader.
