(* ===== verification/LoaderSpec.v ===== *)
(** * What the loader does

    [space] describes the pages of a process: which are mapped, to which
    frame, with what bytes, and whether they may be written.  The loader adds
    the pages of the segments and of the stack, and never touches the kernel
    or a page that is already there, whatever the file contains. *)

From S2P Require Import Prelude.
From S2P Require Import Mem.
From S2P Require Import Words.
From S2P Require Import Vaddr.
From S2P Require Import CString.
From S2P Require Import Palloc.
From S2P Require Import Pagedir.
From S2P Require Import Device.
From S2P Require Import Fs.
From S2P Require Import FsDir.
From S2P Require Import FsRefine.
From S2P Require Import FsClient.
From S2P Require Import Loader.
Local Open Scope Z_scope.

Module LoaderSpec.
Import Mem Words Vaddr Loader.
Import Pagedir (mem_of, kpage, dir, user, entry, pte_for, tables).

(** ** The pages of a process *)

Definition zeros (n : Z) : list Z := replicate (Z.to_nat n) 0.

Lemma zeros_length n : 0 <= n -> zlen (zeros n) = n.
Proof. intros. unfold zeros. rewrite length_replicate. lia. Qed.
Lemma zeros_bytes n : Forall (in_u 8) (zeros n).
Proof. by apply Forall_replicate. Qed.
Lemma zeros_at m a : bytes_at (Palloc.fill a 1 0 m) a (zeros 4096).
Proof.
  apply bytes_at_lookup. unfold zeros. intros i b [-> Hi]%lookup_replicate. rewrite Palloc.fill_lookup, decide_True by lia. by split.
Qed.
#[local] Opaque zeros.

(** A page with what was read, and zeros after it. *)
Definition pad (l : list Z) : list Z := l ++ zeros (4096 - zlen l).

Lemma pad_length l : zlen l <= 4096 -> length (pad l) = 4096%nat.
Proof. intros. unfold pad. pose proof (zeros_length (4096 - zlen l) ltac:(lia)). rewrite length_app. lia. Qed.

(** ** What an executable describes

    An image gives the bytes of every page and whether it may be written. *)

Abbreviation image := (gmap Z (list Z * bool)).

Fixpoint add_pages (n : nat) (up : Z) (w : bool) (data : list Z) (V : image) : option image :=
  match n with
  | O => Some V
  | S n' => match V !! up with
            | Some _ => None
            | None => add_pages n' (up + 4096) w (drop 4096 data) (<[up := (pad (take 4096 data), w)]> V)
            end
  end.

Record page := Page { frame : ptr; bytes : list Z; writable : bool }.

(** A segment fits the file and the user half of the address space. *)
Definition seg_valid (len : Z) (ph : Elf32_Phdr) : bool :=
  (p_offset ph mod 4096 =? p_vaddr ph mod 4096) && (p_offset ph <=? len) && (p_filesz ph <=? p_memsz ph) && (0 <? p_memsz ph) &&
  (4096 <=? p_vaddr ph) && (p_vaddr ph + p_memsz ph <? PHYS_BASE).

(** The bytes of the file that the segment's pages start with. *)
Definition seg_size (ph : Elf32_Phdr) : Z := if 0 <? p_filesz ph then p_vaddr ph mod 4096 + p_filesz ph else 0.
Definition seg_data (bs : list Z) (ph : Elf32_Phdr) : list Z :=
  take (Z.to_nat (seg_size ph)) (drop (Z.to_nat (p_offset ph - p_vaddr ph mod 4096)) bs).
Definition seg_pages (ph : Elf32_Phdr) : nat := Z.to_nat ((p_vaddr ph mod 4096 + p_memsz ph + 4095) / 4096).

Definition add_segment (bs : list Z) (ph : Elf32_Phdr) (V : image) : option image :=
  if seg_valid (zlen bs) ph && (zlen (seg_data bs ph) =? seg_size ph) then
    add_pages (seg_pages ph) (p_vaddr ph - p_vaddr ph mod 4096) (has (p_flags ph) PF_W) (seg_data bs ph) V
  else None.

Definition add_phdr (bs : list Z) (ph : Elf32_Phdr) (V : image) : option image :=
  if (p_type ph =? PT_DYNAMIC) || (p_type ph =? PT_INTERP) || (p_type ph =? PT_SHLIB) then None
  else if p_type ph =? PT_LOAD then add_segment bs ph V else Some V.

Definition part (bs : list Z) (ofs n : Z) : list Z := take (Z.to_nat n) (drop (Z.to_nat ofs) bs).

Fixpoint add_phdrs (n : nat) (bs : list Z) (ofs : Z) (V : image) : option image :=
  match n with
  | O => Some V
  | S n' => if zlen (part bs ofs 32) =? 32 then
              match add_phdr bs (phdr_of (part bs ofs 32)) V with Some V' => add_phdrs n' bs (ofs + 32) V' | None => None end
            else None
  end.

(** The entry point and the pages of an executable, stack included. *)
Definition elf_image (bs : list Z) : option (Z * image) :=
  let e := ehdr_of (part bs 0 52) in
  if (zlen (part bs 0 52) =? 52) && ehdr_ok e then
    match add_phdrs (Z.to_nat (e_phnum e)) bs (e_phoff e) ∅ with
    | Some V => (fun V' => (e_entry e, V')) <$> add_pages 1 (PHYS_BASE - 4096) true [] V
    | None => None
    end
  else None.

Record phdr_in_u (ph : Elf32_Phdr) : Prop := PhdrInU {
  pu_offset : in_u 32 (p_offset ph); pu_vaddr : in_u 32 (p_vaddr ph); pu_filesz : in_u 32 (p_filesz ph); pu_memsz : in_u 32 (p_memsz ph) }.

Lemma field_range bs ofs n : Forall (in_u 8) bs -> (n <= 4)%nat -> in_u 32 (field bs ofs n).
Proof.
  intros Hb Hn. unfold field. pose proof (le_range (take n (drop ofs bs)) ltac:(by apply Forall_take, Forall_drop)) as Hr.
  pose proof (firstn_le_length n (drop ofs bs)). unfold in_u. split; [lia|]. eapply Z.lt_le_trans; [apply Hr|]. apply Z.pow_le_mono_r; lia.
Qed.

Lemma phdr_range bs : Forall (in_u 8) bs -> phdr_in_u (phdr_of bs).
Proof. intros Hb. split; cbn; apply field_range; (done || lia). Qed.

Section space.
Context (init_ram_pages : Z) (init_page_dir : ptr) (p0 : Palloc.state).
Implicit Types (p : Palloc.state) (pd va : ptr) (I : gmap Z page).

Abbreviation uframe p x := (Palloc.in_use (Palloc.user_pool p) x = true).

(** The directory [pd] maps exactly the pages [I], and all it consists of was
    free in [p0]; what was in use in [p0] still is, with the same bytes. *)
Record space p pd I : Prop := Space {
  sp_dir : dir p pd;
  sp_base : pd <> init_page_dir;
  sp_dom va : is_Some (I !! va) -> user va /\ va mod 4096 = 0;
  sp_none va : user va -> va mod 4096 = 0 -> I !! va = None -> entry (mem_of p) pd va = 0;
  sp_some va g : I !! va = Some g -> entry (mem_of p) pd va = pte_for (frame g) (writable g) /\ uframe p (frame g) /\
    bytes_at (mem_of p) (frame g) (bytes g) /\ length (bytes g) = 4096%nat;
  sp_inj va va' g g' : I !! va = Some g -> I !! va' = Some g' -> frame g = frame g' -> va = va';
  sp_ram : Palloc.pool_end (Palloc.user_pool p) <= PHYS_BASE + 4096 * init_ram_pages /\ init_ram_pages <= 2 ^ 18;
  sp_old : Palloc.untouched (fun _ => False) p0 p;
  sp_tables x : tables (mem_of p) pd x -> ~ kpage p0 x;
  sp_frames va g : I !! va = Some g -> ~ uframe p0 (frame g) }.

(** A frame that is in use for no page yet. *)
Definition spare p I (kp : ptr) : Prop := uframe p kp /\ (forall va g, I !! va = Some g -> frame g <> kp) /\ ~ uframe p0 kp.

Definition same_bytes p p' (x : ptr) : Prop := forall q, x <= q < x + 4096 -> mem_of p' !! q = mem_of p !! q.

(** All pages in use but those in [K] are as before. *)
Definition except (K : ptr -> Prop) p p' : Prop :=
  forall w x, Palloc.in_use (Palloc.get_pool w p) x = true -> ~ K x -> Palloc.in_use (Palloc.get_pool w p') x = true /\ same_bytes p p' x.

Lemma untouched_bytes p p' w x : Palloc.untouched (fun _ => False) p p' -> Palloc.in_use (Palloc.get_pool w p) x = true ->
  Palloc.in_use (Palloc.get_pool w p') x = true /\ same_bytes p p' x.
Proof. intros Hun Hx. destruct (Hun w x Hx) as [Hx' Hq]. split; [done|]. exact (Hq (fun F => F)). Qed.

Lemma dir_kept p p' pd : dir p pd -> Palloc.wf p' -> (forall x, kpage p x -> kpage p' x /\ same_bytes p p' x) ->
  dir p' pd /\ (forall va, user va -> entry (mem_of p') pd va = entry (mem_of p) pd va) /\ forall x, tables (mem_of p') pd x -> tables (mem_of p) pd x.
Proof.
  intros Hd Hw Hk. destruct (Hk pd (Pagedir.d_pd _ _ Hd)) as [_ Hpd].
  split; [apply (Pagedir.dir_ext p); [done|done|by apply Hk|done]|]. split.
  2: { intros x [->|(va&Hu&E)]; [by left|]. right. exists va. split; [done|]. by rewrite (Pagedir.pt_of_ext (mem_of p)) in E. }
  intros va Hu. unfold entry. rewrite (Pagedir.pt_of_ext (mem_of p)) by done.
  destruct (Pagedir.pt_of_cases p pd va Hd Hu) as [[_ E]|(pt&Hpt&_&_&_&E)]; rewrite E; [done|].
  destruct (Hk pt Hpt) as [_ Hs]. destruct (vaddr_range va (proj1 Hu)) as (_&Hn&_). apply rd_ext. intros q Hq. apply Hs. lia.
Qed.

(** Memory of spare frames may change, and they may be given back. *)
Lemma space_kept K p p' pd I : space p pd I -> Palloc.wf p' -> Palloc.pool_end (Palloc.user_pool p') = Palloc.pool_end (Palloc.user_pool p) ->
  (forall x, K x -> spare p I x) -> except K p p' -> space p' pd I.
Proof.
  intros [S1 S2 S3 S4 S5 S6 S7 S8 S9 S10] Hw He HK Hex. pose proof (Pagedir.d_wf _ _ S1) as Hwp.
  assert (forall w x, Palloc.in_use (Palloc.get_pool w p0) x = true -> ~ K x) as Hold.
  { intros w x Hx (Hu&_&Hn)%HK. destruct w; [by apply Hn|]. destruct (untouched_bytes _ _ false x S8 Hx) as [Hx' _].
    by pose proof (Palloc.in_use_pool p true false x Hwp Hu Hx'). }
  destruct (dir_kept p p' pd S1 Hw) as (Hd&Hen&Htb).
  { intros x Hx. apply (Hex false); [done|]. intros (Hu&_)%HK. by pose proof (Palloc.in_use_pool p true false x Hwp Hu Hx). }
  split; try done.
  - intros va Hu Ha Hn. rewrite Hen by done. by apply S4.
  - intros va g Hg. destruct (S5 va g Hg) as (E&Hf&Hb&Hl). destruct (Hex true (frame g) Hf) as [Hu Hs]; [intros (_&Hn&_)%HK; by apply (Hn va g)|].
    destruct (S3 va ltac:(eauto)) as [Huv _].
    rewrite Hen by done. split_and!; [done|done| |done]. eapply bytes_at_ext; [|exact Hb]. intros q Hq. apply Hs. lia.
  - by rewrite He.
  - intros w x Hx. destruct (untouched_bytes _ _ w x S8 Hx) as [Hx1 E1]. destruct (Hex w x Hx1 (Hold w x Hx)) as [Hx2 E2].
    split; [done|]. intros _ q Hq. rewrite E2, E1 by done. done.
  - intros x Hx%Htb. by apply S9.
Qed.

Lemma spare_props p pd I kp : space p pd I -> spare p I kp ->
  kp mod 4096 = 0 /\ PHYS_BASE < kp /\ kp + 4096 <= 2 ^ 32 /\ kp < PHYS_BASE + 4096 * init_ram_pages /\ mapped (mem_of p) kp 4096.
Proof.
  intros Hs [Hu _]. destruct (sp_ram _ _ _ Hs) as [S7 _]. pose proof (Pagedir.d_wf _ _ (sp_dir _ _ _ Hs)) as Hw.
  destruct (Palloc.in_use_props p true kp Hw Hu) as (Ha&Hl&Hh). pose proof (Palloc.w_pool _ Hw true) as [_ _ _ Hlow Hhigh]. cbn in *. split_and!; [done|lia|lia|lia|].
  intros q Hq. apply (Palloc.w_mapped _ Hw true). cbn. unfold Palloc.pool_end in Hh. lia.
Qed.

(** A page in use is another page than a spare frame, or the frame itself. *)
Lemma space_spare p p' pd I kp : space p pd I -> spare p I kp -> Palloc.wf p' -> Palloc.pool_end (Palloc.user_pool p') = Palloc.pool_end (Palloc.user_pool p) ->
  (forall w x, x <> kp -> Palloc.in_use (Palloc.get_pool w p) x = true -> Palloc.in_use (Palloc.get_pool w p') x = true) ->
  (forall q, ~ (kp <= q < kp + 4096) -> mem_of p' !! q = mem_of p !! q) -> space p' pd I.
Proof.
  intros Hs Hsp Hw He Hu Hq. apply (space_kept (eq kp) p); [done|done|done|by intros x <-|]. intros w x Hx Hne. split; [apply Hu; [congruence|done]|].
  pose proof (Pagedir.d_wf _ _ (sp_dir _ _ _ Hs)) as Hwp. destruct (Palloc.in_use_props p w x Hwp Hx) as (Hax&_). destruct (spare_props _ _ _ _ Hs Hsp) as (Hak&_).
  destruct (Palloc.page_disj x kp Hax Hak); [congruence|intros q ?; apply Hq; lia..].
Qed.

(** Bytes stored into a spare frame. *)
Lemma spare_write p pd I kp x bs : space p pd I -> spare p I kp -> kp <= x -> x + zlen bs <= kp + 4096 -> Forall (in_u 8) bs ->
  let p' := Palloc.set_mem (Mem.write (mem_of p) x bs) p in space p' pd I /\ spare p' I kp.
Proof.
  intros Hs Hsp H1 H2 Hb p'. destruct (spare_props p pd I kp Hs Hsp) as (_&_&_&_&Hm). split; [|done].
  apply (space_spare p p' pd I kp); [done|done| |done|intros w y _; by destruct w|].
  - apply Palloc.write_wf; [apply (Pagedir.d_wf _ _ (sp_dir _ _ _ Hs))| |done]. intros q ?. apply Hm. lia.
  - intros q Hq. cbn. rewrite lookup_write, decide_False by lia. done.
Qed.

(** What an update of the directory leaves alone. *)
Lemma updated_old p p' pd I up e : space p pd I -> Pagedir.updated p pd up e p' ->
  (forall x, uframe p x -> uframe p' x /\ same_bytes p p' x) /\ Palloc.untouched (fun _ => False) p0 p' /\ (forall x, tables (mem_of p') pd x -> ~ kpage p0 x).
Proof.
  intros [S1 S2 S3 S4 S5 S6 S7 S8 S9 S10] [U1 U2 U3 U4 U5]. pose proof (Pagedir.d_wf _ _ S1) as Hw.
  assert (forall x, tables (mem_of p) pd x -> kpage p x) as Htk.
  { intros x [->|(va&Hva&E)]; [apply S1|]. destruct (Pagedir.pt_of_cases p pd va S1 Hva) as [[_ ?]|(pt&Hk&_&_&_&E')]; congruence. }
  split_and!.
  - intros x Hx. destruct (U3 true x Hx) as [Hx' Hq]. split; [done|]. refine (Hq _). intros Hk%Htk. by pose proof (Palloc.in_use_pool p true false x Hw Hx Hk).
  - intros w x Hx. destruct (untouched_bytes _ _ w x S8 Hx) as [Hx1 E1]. destruct (U3 w x Hx1) as [Hx2 E2]. split; [done|]. intros _ q Hq. rewrite E2, E1; [done|done| |done].
    intros Ht. destruct w; [|by apply (S9 x)]. by pose proof (Palloc.in_use_pool p true false x Hw Hx1 (Htk x Ht)).
  - intros x [->|(va&Hva&E)]; [apply S9; by left|]. destruct (U5 va x Hva E) as [Hn|Eo]; [|apply S9; right; by exists va].
    intros Hx. apply Hn. by apply (S8 false).
Qed.

(** A frame for a page: mapped where nothing was. *)
Lemma space_add p p' pd I up kp bs w : space p pd I -> spare p I kp -> bytes_at (mem_of p) kp bs -> length bs = 4096%nat -> user up -> up mod 4096 = 0 ->
  I !! up = None -> Pagedir.updated p pd up (pte_for kp w) p' -> space p' pd (<[up := Page kp bs w]> I).
Proof.
  intros Hs Hsp Hb Hl Hu Ha Hn Hup. destruct (updated_old p p' pd I up _ Hs Hup) as (Hkeep&Hold&Htab).
  pose proof Hs as [S1 S2 S3 S4 S5 S6 S7 _ _ S10]. destruct Hup as [U1 U2 _ U4 _].
  assert (forall va, user va -> va mod 4096 = 0 -> pg_no va = pg_no up -> va = up) as Hpg by (intros va [Hv _] Hva; rewrite !pg_no_div; destruct Hu as [[? ?] _], Hv; zlia).
  split; try done.
  - intros va [g Hg]. apply lookup_insert_Some in Hg as [[<- _]|[_ Hg]]; [done|]. eauto.
  - intros va Hva Hal [Hne Hnone]%lookup_insert_None. rewrite U2, (proj2 (Z.eqb_neq _ _)) by (done || intros E; apply Hnone; symmetry; auto). by apply S4.
  - intros va g [[<- <-]|[Hne Hg]]%lookup_insert_Some; cbn [frame bytes Loader.p_type writable].
    + destruct (Hkeep kp (proj1 Hsp)) as [Hf Hsb]. rewrite U2, Z.eqb_refl by done. split_and!; [done|done| |done].
      eapply bytes_at_ext; [|exact Hb]. intros q ?. apply Hsb. lia.
    + destruct (S5 va g Hg) as (E&Hf&Hgb&Hgl). destruct (S3 va ltac:(eauto)) as [Hva Hal]. destruct (Hkeep _ Hf) as [Hf' Hsb].
      rewrite U2, (proj2 (Z.eqb_neq _ _)) by (done || intros Ep; apply Hne; symmetry; auto). split_and!; [done|done| |done].
      eapply bytes_at_ext; [|exact Hgb]. intros q ?. apply Hsb. lia.
  - intros va va' g g' [[<- <-]|[Hne Hg]]%lookup_insert_Some [[<- <-]|[Hne' Hg']]%lookup_insert_Some; cbn [frame]; try done.
    + intros E. by destruct (proj1 (proj2 Hsp) va' g').
    + intros E. by destruct (proj1 (proj2 Hsp) va g).
    + eauto.
  - pose proof (U4 true) as E. cbn in E. by rewrite E.
  - intros va g [[<- <-]|[Hne Hg]]%lookup_insert_Some; [apply Hsp|eauto].
Qed.
End space.

(** ** The operations on frames *)

Section ops.
Context {dev : Type} `{!Device.Device dev} `{!Device.Allocator} {Hroom : Device.Roomy}.
Context (cur init_ram_pages : Z) (init_page_dir : ptr) (p0 : Palloc.state).
Implicit Types (s : state dev) (I : gmap Z page).

Abbreviation space_ := (space init_ram_pages init_page_dir p0).
Abbreviation mem_ s := (mem_of (Pagedir.pages (vm s))).

Definition put_vm (p : Palloc.state) s : state dev := L (Pagedir.put_pages p (vm s)) (fs s) (pagedir s) (esp0 s).
Definition put_fs (f : Fs.state dev) s : state dev := L (vm s) f (pagedir s) (esp0 s).

Definition spaced s I : Prop := space_ (Pagedir.pages (vm s)) (pagedir s) I.
Definition spare_in s I kp : Prop := spare p0 (Pagedir.pages (vm s)) I kp.

Lemma wp_pages {A} (m : M Palloc.state A) Q s : wp m (fun x p => Q x (put_vm p s)) (Pagedir.pages (vm s)) -> wp (on_pages m) Q s.
Proof. intros Hm. apply wp_zoom, wp_zoom. exact Hm. Qed.

Lemma wp_mem {A} (m : M mem A) Q s : wp m (fun x mm => Q x (put_vm (Palloc.set_mem mm (Pagedir.pages (vm s))) s)) (mem_ s) -> wp (on_mem m) Q s.
Proof. intros Hm. apply wp_zoom, wp_zoom, wp_zoom. exact Hm. Qed.

Lemma wp_vm {A} (m : M Pagedir.state A) Q s : wp m (fun x v => Q x (L v (fs s) (pagedir s) (esp0 s))) (vm s) -> wp (on_vm m) Q s.
Proof. intros Hm. by apply wp_zoom. Qed.

(** No page is left in a pool, the user pool or the kernel pool. *)
Definition full (w : bool) s : Prop := forall x, ~ Palloc.run (Pagedir.pages (vm s)) w x 1 false.
Definition exhausted s : Prop := exists w, full w s.

Lemma alloc_ok flags s I : spaced s I -> has flags Palloc.PAL_ASSERT = false -> has flags Palloc.PAL_USER = true ->
  wp (on_pages (Palloc.palloc_get_page cur flags)) (fun kp s' => (kp = NULL /\ s' = s /\ exhausted s) \/
    (kp <> NULL /\ (exists p', s' = put_vm p' s) /\ spaced s' I /\ spare_in s' I kp /\
     (has flags Palloc.PAL_ZERO = true -> bytes_at (mem_ s') kp (zeros 4096)))) s.
Proof.
  intros Hs F1 F2. pose proof (Pagedir.d_wf _ _ (sp_dir _ _ _ _ _ _ Hs)) as Hw. apply wp_pages, Palloc.wp_get_multiple; [done|lia|done| |].
  - intros kp p' Hset Hm. right. rewrite F2 in Hset. pose proof Hset as [P1 [R1 R2 R3 R4] P3 P4].
    assert (Palloc.in_run kp 1 kp = true) as Hrun by (apply Palloc.in_run_spec; lia).
    assert (Palloc.in_use (Palloc.user_pool p') kp = true) as Hu by (pose proof (P4 true kp) as E; cbn in E; by rewrite Hrun in E).
    assert (Palloc.in_use (Palloc.user_pool (Pagedir.pages (vm s))) kp = false) as Hn by (exact (R4 kp Hrun)).
    assert (forall q, ~ (kp <= q < kp + 4096) -> mem_of p' !! q = mem_ s !! q) as Hq.
    { intros q Hq. rewrite Hm. destruct (has flags Palloc.PAL_ZERO); [|reflexivity]. rewrite Palloc.fill_lookup, decide_False by lia. done. }
    assert (forall w x, Palloc.in_use (Palloc.get_pool w (Pagedir.pages (vm s))) x = true -> Palloc.in_use (Palloc.get_pool w p') x = true /\ (x + 4096 <= kp \/ kp + 4096 <= x)) as Hold.
    { intros w x Hx. split; [rewrite P4; by destruct (_ && _)|]. destruct (Palloc.in_use_props _ w x Hw Hx) as (Hax&Hl&Hh).
      destruct (decide (x = kp)) as [->|]; [|by apply Palloc.page_disj]. destruct w; [cbn in Hx; congruence|].
      pose proof (Palloc.w_disj _ Hw). cbn in *. lia. }
    assert (space_ p' (pagedir s) I) as Hs'.
    { apply (space_kept _ _ _ (fun _ => False) (Pagedir.pages (vm s))); [done|done|apply (P3 true)|done|].
      intros w x Hx _. destruct (Hold w x Hx) as [? ?]. split; [done|]. intros q ?. apply Hq. lia. }
    assert (spare p0 p' I kp) as Hsp.
    { split; [done|]. split.
      - intros va g Hg E. destruct (sp_some _ _ _ _ _ _ Hs va g Hg) as (_&Hf&_). congruence.
      - intros Hx. destruct (sp_old _ _ _ _ _ _ Hs true kp Hx) as [Hx' _]. cbn in Hx'. congruence. }
    destruct (spare_props _ _ _ p' (pagedir s) I kp Hs' Hsp) as (_&Hlow&_). unfold PHYS_BASE in Hlow.
    split; [lia|]. split; [by exists p'|]. split; [done|]. split; [done|]. intros Fz. cbn. rewrite Hm, Fz. apply zeros_at.
  - intros Hno. left. split; [done|]. split; [by destruct s as [[[]]]|]. exists true. by rewrite F2 in Hno.
Qed.

Lemma free_frame_ok s I kp : spaced s I -> spare_in s I kp -> wp (on_pages (Palloc.palloc_free_page kp)) (fun _ s' => (exists p', s' = put_vm p' s) /\ spaced s' I /\ (full false s -> full false s')) s.
Proof.
  intros Hs Hsp. pose proof (Pagedir.d_wf _ _ (sp_dir _ _ _ _ _ _ Hs)) as Hw. pose proof Hsp as [Hu _]. destruct (Palloc.in_use_props _ true kp Hw Hu) as (Ha&Hl&Hh).
  assert (forall b, Palloc.in_run kp 1 b = true -> b = kp) as Hone by (intros b [? ?]%Palloc.in_run_spec; zlia).
  destruct (Palloc.free_multiple_ok true kp 1 (Pagedir.pages (vm s)) Hw ltac:(lia)) as (p'&E&[P1 P2 P3 P4]&Hm).
  { split; [done|done|lia|]. intros b ->%Hone. done. }
  apply wp_pages. unfold wp, Palloc.palloc_free_page. rewrite E. split; [by exists p'|]. split.
  2: { intros Hno x [Q1 Q2 Q3 Q4]. apply (Hno x). destruct (P3 false) as [E1 E2]. cbn in *. rewrite E1 in Q2. rewrite E2 in Q3. split; [done..|].
    intros b Hb%Q4. pose proof (P4 false b) as Eb. cbn in Eb, Hb |- *. congruence. }
  apply (space_spare _ _ _ (Pagedir.pages (vm s)) p' (pagedir s) I kp); [done|done|done|apply (P3 true)| |].
  - intros w x Hne Hx. rewrite P4. destruct (Palloc.in_run kp 1 x) eqn:Er; [exfalso; exact (Hne (Hone x Er))|]. rewrite andb_false_r. exact Hx.
  - intros q Hq. rewrite Hm, Palloc.fill_lookup, decide_False by lia. reflexivity.
Qed.

(** The state when only the frames and page tables changed. *)
Lemma put_vm_eq v s : Pagedir.cr3 v = Pagedir.cr3 (vm s) -> Pagedir.tlb v = Pagedir.tlb (vm s) -> L v (fs s) (pagedir s) (esp0 s) = put_vm (Pagedir.pages v) s.
Proof. destruct v, s as [[]]. unfold put_vm, Pagedir.put_pages. cbn. by intros -> ->. Qed.
Lemma put_vm_same s : put_vm (Pagedir.pages (vm s)) s = s.
Proof. by destruct s as [[]]. Qed.


(** The address of a page that is there. *)
Lemma mapped_there s I va g : spaced s I -> I !! va = Some g ->
  Pagedir.pagedir_get_page cur (pagedir s) va (vm s) = Ok (frame g, vm s) /\ frame g <> NULL.
Proof.
  intros Hs Hg. destruct (sp_dom _ _ _ _ _ _ Hs va ltac:(eauto)) as [Hu Ha]. destruct (sp_some _ _ _ _ _ _ Hs va g Hg) as (Ee&Hf&_).
  pose proof (Pagedir.d_wf _ _ (sp_dir _ _ _ _ _ _ Hs)) as Hw. destruct (Palloc.in_use_props _ true _ Hw Hf) as (Hga&Hg1&Hg2).
  pose proof (Palloc.w_pool _ Hw true) as [_ _ _ Hlow Hhigh]. cbn in *. destruct (sp_ram _ _ _ _ _ _ Hs) as [Hram Hram2].
  destruct (Pagedir.pte_eq (frame g) (writable g) Hga ltac:(unfold PHYS_BASE in *; lia)) as (_&Hin&Ht). unfold PHYS_BASE in *.
  rewrite Pagedir.get_page_ok; [|apply Hs|done|rewrite Ee, pte_addr_eq by done; unfold pte_for, PHYS_BASE; destruct (writable g); zlia].
  rewrite Ee, Ht, pg_ofs_mod, Ha, Z.add_0_r. split; [done|lia].
Qed.

Lemma install_ok s I up kp bs w : spaced s I -> spare_in s I kp -> bytes_at (mem_ s) kp bs -> length bs = 4096%nat -> user up -> up mod 4096 = 0 ->
  wp (install_page cur init_ram_pages init_page_dir up kp w) (fun ok s' => (exists p', s' = put_vm p' s) /\
    if (ok : bool) then I !! up = None /\ spaced s' (<[up := Page kp bs w]> I) else s' = s /\ (is_Some (I !! up) \/ full false s)) s.
Proof.
  intros Hs Hsp Hb Hl Hu Ha. destruct (spare_props _ _ _ _ _ _ _ Hs Hsp) as (Hka&Hk1&Hk2&Hk3&_). unfold install_page. apply wp_bind, wp_gets, wp_bind, wp_vm.
  destruct (I !! up) as [g|] eqn:Eg.
  - destruct (mapped_there s I up g Hs Eg) as [E Hg]. unfold wp. rewrite E. rewrite (proj2 (Z.eqb_neq _ _) Hg). cbn [negb].
    assert (L (vm s) (fs s) (pagedir s) (esp0 s) = s) as -> by (by destruct s). split; [exists (Pagedir.pages (vm s)); by rewrite put_vm_same|]. split; [done|]. left. by exists g.
  - pose proof (sp_none _ _ _ _ _ _ Hs up Hu Ha Eg) as Ee. unfold wp. rewrite Pagedir.get_page_ok; [|apply Hs|done|rewrite Ee; done]. rewrite Ee.
    change (Pagedir.translate 0 up) with 0. cbn [negb Z.eqb]. assert (L (vm s) (fs s) (pagedir s) (esp0 s) = s) as -> by (by destruct s).
    apply wp_vm. destruct (sp_ram _ _ _ _ _ _ Hs) as [Hram Hram2].
    eapply wp_mono; [apply (Pagedir.set_page_ok cur init_ram_pages init_page_dir (vm s) (pagedir s) up kp w); [apply Hs|apply Hs|done|done|done|lia|done|rewrite Ee; done]|].
    cbn beta. intros ok v (Hc&Ht&Hok). rewrite put_vm_eq by done. split; [by eexists|]. destruct ok.
    + split; [done|]. by eapply space_add.
    + destruct Hok as (->&_&Hno). rewrite put_vm_same. split; [done|]. by right.
Qed.

(** ** Filling a page *)

Lemma fetch_eq m p bs : bytes_at m p bs -> get_bytes (length bs) p m = Ok (bs, m).
Proof.
  revert p. induction bs as [|b bs IH]; intros p; [done|]. intros (Hb&_&Hr). cbn [get_bytes length]. rewrite (bind_ok _ _ _ _ _ (load_eq _ _ _ Hb)).
  by rewrite (bind_ok _ _ _ _ _ (IH _ Hr)).
Qed.

Lemma deposit_eq m p bs : mapped m p (zlen bs) -> Forall (in_u 8) bs -> put_bytes p bs m = Ok (tt, write m p bs).
Proof.
  intros Hm Hb. revert m p Hm. induction Hb as [|b bs Hb _ IH]; intros m p Hm; [done|]. cbn [put_bytes length write] in *.
  rewrite (bind_ok _ _ _ _ _ (store_eq m p b (Hm p ltac:(lia)) Hb)). apply IH. intros q Hq. rewrite lookup_insert_is_Some'. right. apply Hm. lia.
Qed.

(** What is stored in a spare frame. *)
Lemma store_ok s I kp x bs : spaced s I -> spare_in s I kp -> kp <= x -> x + zlen bs <= kp + 4096 -> Forall (in_u 8) bs ->
  let s' := put_vm (Palloc.set_mem (write (mem_ s) x bs) (Pagedir.pages (vm s))) s in spaced s' I /\ spare_in s' I kp.
Proof. intros Hs Hsp H1 H2 Hb. exact (spare_write _ _ _ _ _ I kp x bs Hs Hsp H1 H2 Hb). Qed.

Section file.
Context (f : ptr) (k : Z) (bs : list Z).
Implicit Types (a : FsRefine.afs).
Import FsClient FsRefine.

(** The open file the program is loaded from. *)
Definition reading s a (j : Z) : Prop := FsRefine.abs (fs s) a /\ FsRefine.a_open a !! f = Some (k, j) /\ FsRefine.a_files a !! k = Some bs.

Lemma moved_same a j : a_open a !! f = Some (k, j) -> moved_to a f k j = a.
Proof. intros Hf. unfold moved_to. rewrite insert_id by done. by destruct a. Qed.
Lemma moved_again a i j : moved_to (moved_to a f k i) f k j = moved_to a f k j.
Proof. unfold moved_to. cbn. by rewrite insert_insert_eq. Qed.

Lemma read_into_ok s I a j kp n : spaced s I -> spare_in s I kp -> reading s a j -> 0 <= n <= 4096 ->
  let r := take (Z.to_nat n) (drop (Z.to_nat j) bs) in
  wp (read_into f kp n) (fun c s' => c = zlen r /\ zlen r <= n /\ (exists p' fs', s' = put_fs fs' (put_vm p' s)) /\
    reading s' (moved_to a f k (j + zlen r)) (j + zlen r) /\ spaced s' I /\ spare_in s' I kp /\ bytes_at (mem_ s') kp r) s.
Proof.
  intros Hs Hsp (Ha&Hf&Hk) Hn r. destruct (spare_props _ _ _ _ _ _ _ Hs Hsp) as (_&_&_&_&Hm).
  destruct (mapped_bytes (mem_ s) kp n (Palloc.w_bytes _ (Pagedir.d_wf _ _ (sp_dir _ _ _ _ _ _ Hs))) ltac:(lia) ltac:(intros q ?; apply Hm; lia)) as (old&Hl&Hold).
  unfold read_into. replace (Z.to_nat n) with (length old) by lia. apply wp_bind, wp_mem. unfold wp at 1. rewrite fetch_eq by done.
  assert (s32 n = n) as -> by (apply wraps_small; unfold in_s; lia). apply wp_bind, wp_zoom.
  eapply wp_mono; [apply (read_at _ a f k j n old bs); [exact Ha|done|done|lia|done]|]. cbn beta. intros [c buf] fs' ([= -> ->]&Hle&Ha'). fold r in Hle, Ha' |- *.
  assert (take (Z.to_nat (zlen r)) (Fs.splice old 0 r) = r) as E by (unfold Fs.splice; rewrite Nat2Z.id, take_0; simpl; by rewrite take_app_length).
  rewrite E. assert (Forall (in_u 8) r) as Hr by (apply Forall_take, Forall_drop; by eapply abs_bytes).
  apply wp_bind, wp_mem. cbn [vm]. unfold wp at 1. rewrite deposit_eq; [|intros q ?; apply Hm; cbn; lia|done]. apply wp_ret.
  destruct (store_ok s I kp kp r Hs Hsp ltac:(lia) ltac:(lia) Hr) as [Hs' Hsp'].
  split; [done|]. split; [done|]. split; [by eexists _, fs'|]. split; [|split; [exact Hs'|split; [exact Hsp'|by apply write_bytes_at]]].
  split; [exact Ha'|]. split; [apply lookup_insert_eq|done].
Qed.

(** The rest of the page is cleared. *)
Lemma clear_rest_ok s I kp r : spaced s I -> spare_in s I kp -> zlen r <= 4096 -> bytes_at (mem_ s) kp r ->
  wp (on_mem (CString.memset (u32 (kp + zlen r)) 0 (u32 (PGSIZE - zlen r)))) (fun _ s' => (exists p', s' = put_vm p' s) /\
    spaced s' I /\ spare_in s' I kp /\ bytes_at (mem_ s') kp (pad r)) s.
Proof.
  intros Hs Hsp Hn Hr. destruct (spare_props _ _ _ _ _ _ _ Hs Hsp) as (_&_&Hh&_&Hm). apply wp_mem.
  assert (u32 (PGSIZE - zlen r) = 4096 - zlen r) as -> by (unfold PGSIZE; apply wrapu_small; unfold in_u; lia).
  assert (forall q, u32 (kp + zlen r) <= q < u32 (kp + zlen r) + (4096 - zlen r) -> u32 (kp + zlen r) = kp + zlen r) as Hlow.
  { intros q Hq. apply wrapu_small. destruct (spare_props _ _ _ _ _ _ _ Hs Hsp) as (_&?&_). unfold in_u, PHYS_BASE in *. lia. }
  unfold wp. rewrite CString.memset_eq; [|apply (Pagedir.d_wf _ _ (sp_dir _ _ _ _ _ _ Hs))|intros q Hq; apply Hm; rewrite (Hlow q Hq) in Hq; lia|lia].
  change (replicate (Z.to_nat (4096 - zlen r)) (u8 0)) with (zeros (4096 - zlen r)). destruct (decide (zlen r = 4096)) as [E|E].
  - rewrite E. change (zeros (4096 - 4096)) with (@nil Z). cbn [write]. destruct (store_ok s I kp kp [] Hs Hsp ltac:(lia) ltac:(simpl; lia) ltac:(by constructor)) as [H1 H2].
    split; [by eexists|]. split; [exact H1|]. split; [exact H2|]. unfold pad. rewrite E. change (zeros (4096 - 4096)) with (@nil Z). rewrite app_nil_r. exact Hr.
  - rewrite (Hlow (u32 (kp + zlen r)) ltac:(lia)). pose proof (zeros_length (4096 - zlen r) ltac:(lia)) as Ez.
    destruct (store_ok s I kp (kp + zlen r) (zeros (4096 - zlen r)) Hs Hsp ltac:(lia) ltac:(lia) (zeros_bytes _)) as [H1 H2].
    split; [by eexists|]. split; [exact H1|]. split; [exact H2|]. unfold pad. apply bytes_at_app. split; [|apply write_bytes_at, zeros_bytes].
    apply write_frame; [right; lia|exact Hr].
Qed.

(** Only memory, page tables and the file system changed. *)
Definition after s s' : Prop := exists p' fs', s' = put_fs fs' (put_vm p' s).

Lemma after_refl s : after s s.
Proof. exists (Pagedir.pages (vm s)), (fs s). by destruct s as [[]]. Qed.
Lemma after_trans s1 s2 s3 : after s1 s2 -> after s2 s3 -> after s1 s3.
Proof. intros (p1&f1&->) (p2&f2&->). by exists p2, f2. Qed.
Lemma after_vm s s' : (exists p', s' = put_vm p' s) -> after s s'.
Proof. intros [p' ->]. exists p', (fs s). done. Qed.

Lemma reading_vm s s' a j : (exists p', s' = put_vm p' s) -> reading s a j -> reading s' a j.
Proof. intros [p' ->]. done. Qed.

(** One round of the loop: the page is there afterwards, or nothing is. *)
Lemma page_step s I a j n up w (K : M (state dev) bool) Q : spaced s I -> reading s a j -> 0 <= n <= 4096 -> user up -> up mod 4096 = 0 ->
  let r := take (Z.to_nat n) (drop (Z.to_nat j) bs) in
  (forall s' j', after s s' -> reading s' (moved_to a f k j') j' -> spaced s' I -> zlen r <> n \/ is_Some (I !! up) \/ exhausted s' -> Q false s') ->
  (forall s' kp, after s s' -> reading s' (moved_to a f k (j + n)) (j + n) -> I !! up = None -> zlen r = n ->
    spaced s' (<[up := Page kp (pad r) w]> I) -> wp K Q s') ->
  wp (let! kpage := on_pages (Palloc.palloc_get_page cur Palloc.PAL_USER) in
      if kpage =? NULL then ret false else
      let! c := read_into f kpage n in
      if negb (c =? s32 n) then do! on_pages (Palloc.palloc_free_page kpage) in ret false else
      do! on_mem (CString.memset (u32 (kpage + n)) 0 (u32 (PGSIZE - n))) in
      let! ok := install_page cur init_ram_pages init_page_dir up kpage w in
      if negb ok then do! on_pages (Palloc.palloc_free_page kpage) in ret false else K) Q s.
Proof.
  intros Hs Hr Hn Hu Ha r HF HK. apply wp_bind. eapply wp_mono; [by apply (alloc_ok Palloc.PAL_USER s I Hs)|]. cbn beta.
  intros kp s1 [(->&->&He)|(Hkp&Ho1&Hs1&Hsp1&_)].
  { rewrite Z.eqb_refl. apply wp_ret, (HF s j); [apply after_refl| |done|by right; right]. destruct Hr as (Hr1&Hr2&Hr3).
    by rewrite (moved_same _ _ Hr2). }
  rewrite (proj2 (Z.eqb_neq _ _) Hkp). apply wp_bind. eapply wp_mono; [apply (read_into_ok s1 I a j kp n Hs1 Hsp1 (reading_vm _ _ _ _ Ho1 Hr) Hn)|].
  cbn beta. fold r. intros c s2 (->&Hle&Ho2&Hr2&Hs2&Hsp2&Hb). assert (after s s2) as H02 by (eapply after_trans; [by apply after_vm|by destruct Ho2 as (?&?&->); eexists _, _]).
  assert (s32 n = n) as -> by (apply wraps_small; unfold in_s; lia). destruct (Z.eqb_spec (zlen r) n) as [En|En]; cbn [negb].
  2: { apply wp_bind. eapply wp_mono; [by apply (free_frame_ok s2 I kp)|]. cbn beta. intros _ s3 (Ho3&Hs3&_).
    apply wp_ret, (HF s3 (j + zlen r)); [eapply after_trans; [exact H02|by apply after_vm]|by eapply reading_vm|done|by left]. }
  rewrite <- En. apply wp_bind. eapply wp_mono; [by apply (clear_rest_ok s2 I kp r); [..|lia|]|]. cbn beta. intros _ s3 (Ho3&Hs3&Hsp3&Hb3).
  assert (after s s3) as H03 by (eapply after_trans; [exact H02|by apply after_vm]).
  apply wp_bind. eapply wp_mono; [by apply (install_ok s3 I up kp (pad r) w Hs3 Hsp3 Hb3); [apply pad_length; lia|..]|]. cbn beta.
  intros [] s4 [Ho4 H4]; cbn [negb].
  - destruct H4 as [Hno Hs4]. rewrite En in Hr2. apply (HK s4 kp); [eapply after_trans; [exact H03|by apply after_vm]| |done|done|done].
    by do 2 (eapply reading_vm; [done|]).
  - destruct H4 as [-> Hwhy]. apply wp_bind. eapply wp_mono; [by apply (free_frame_ok s3 I kp)|]. cbn beta. intros _ s5 (Ho5&Hs5&Hfull).
    apply wp_ret, (HF s5 (j + zlen r)); [eapply after_trans; [exact H03|by apply after_vm]| |done|].
    + apply (reading_vm s3 s5); [done|]. by apply (reading_vm s2 s3).
    + destruct Hwhy as [?|?]; [tauto|]. right. right. exists false. tauto.
Qed.

Definition view I : image := (fun g => (bytes g, writable g)) <$> I.

Lemma view_none I va : I !! va = None -> view I !! va = None.
Proof. intros E. unfold view. by rewrite lookup_fmap, E. Qed.
Lemma view_some I va : is_Some (I !! va) -> is_Some (view I !! va).
Proof. intros [g E]. unfold view. rewrite lookup_fmap, E. by eexists. Qed.

(** The outcome of loading pages with [data] from the file at [up]. *)
Definition loads (n : nat) up w (size : Z) (data : list Z) s a I (ok : bool) s' : Prop :=
  after s s' /\ exists I' j', reading s' (moved_to a f k j') j' /\ spaced s' I' /\
    if ok then zlen data = size /\ add_pages n up w data (view I) = Some (view I')
    else zlen data <> size \/ add_pages n up w data (view I) = None \/ exhausted s'.

Lemma loads_step n up w rd j pr s a I s1 kp ok s' : let data := take (Z.to_nat rd) (drop (Z.to_nat j) bs) in
  let r := take (Z.to_nat pr) (drop (Z.to_nat j) bs) in
  0 <= j -> pr = Z.min rd 4096 -> 0 <= rd -> zlen r = pr -> after s s1 -> I !! up = None ->
  loads n (up + 4096) w (rd - pr) (take (Z.to_nat (rd - pr)) (drop (Z.to_nat (j + pr)) bs)) s1 (moved_to a f k (j + pr)) (<[up := Page kp (pad r) w]> I) ok s' ->
  loads (S n) up w rd data s a I ok s'.
Proof.
  intros data r Hj Hpr Hrd Hr H01 Hno (H1&I'&j'&Hrd'&Hs'&Hok). split; [by eapply after_trans|]. exists I', j'. rewrite moved_again in Hrd'. split; [done|]. split; [done|].
  assert (take 4096 data = r) as E1. { unfold data, r. rewrite take_take. f_equal. lia. }
  assert (drop 4096 data = take (Z.to_nat (rd - pr)) (drop (Z.to_nat (j + pr)) bs)) as E2.
  { unfold data. rewrite skipn_firstn_comm, drop_drop. destruct (decide (rd <= 4096)); [by replace (_ - 4096)%nat with 0%nat by lia; replace (rd - pr) with 0 by lia|].
    f_equal; [lia|]. f_equal. lia. }
  assert (view (<[up := Page kp (pad r) w]> I) = <[up := (pad r, w)]> (view I)) as E3 by (unfold view; by rewrite fmap_insert).
  cbn [add_pages]. rewrite view_none, E1, E2 by done. rewrite E3 in Hok.
  assert (zlen data = pr + zlen (drop 4096 data)) as El. { rewrite length_drop. pose proof (f_equal length E1) as E. rewrite length_take in E. lia. }
  rewrite E2 in El. rewrite El. destruct ok.
  - destruct Hok as [Hz ->]. split; [lia|done].
  - destruct Hok as [?|[->|?]]; [left; lia|tauto|tauto].
Qed.

(** The loop ends, and every page has its part of the file, or zeros. *)
Lemma load_pages_ok w fuel s I a j rd zr up : spaced s I -> reading s a j -> 0 <= rd -> 0 <= zr -> (rd + zr) mod 4096 = 0 -> rd + zr <= 4096 * Z.of_nat fuel ->
  up mod 4096 = 0 -> 0 <= up -> up + rd + zr <= PHYS_BASE ->
  wp (load_pages cur init_ram_pages init_page_dir fuel f up rd zr w) (loads (Z.to_nat ((rd + zr) / 4096)) up w rd (take (Z.to_nat rd) (drop (Z.to_nat j) bs)) s a I) s.
Proof.
  revert s I a j rd zr up. induction fuel as [|fuel IH]; intros s I a j rd zr up Hs Hr Hrd Hzr Hmod Hfuel Hal Hup Hend.
  - assert (rd = 0 /\ zr = 0) as [-> ->] by lia. cbn [load_pages Z.ltb Z.compare orb]. apply wp_ret. split; [apply after_refl|]. exists I, j.
    pose proof Hr as (_&Hf&_). by rewrite moved_same.
  - cbn [load_pages]. destruct (decide (rd + zr = 0)) as [E|Hpos].
    { assert (rd = 0 /\ zr = 0) as [-> ->] by lia. apply wp_ret. split; [apply after_refl|]. exists I, j. pose proof Hr as (_&Hf&_). by rewrite moved_same. }
    assert ((0 <? rd) || (0 <? zr) = true) as -> by lia. set (pr := if rd <? PGSIZE then rd else PGSIZE).
    assert (pr = Z.min rd 4096) as Hpr by (unfold pr, PGSIZE; destruct (Z.ltb_spec rd 4096); lia). clearbody pr.
    unfold PHYS_BASE in Hend. assert (4096 <= rd + zr) as Hge by zlia.
    assert (Z.to_nat ((rd + zr) / 4096) = S (Z.to_nat ((rd - pr + (zr - (4096 - pr))) / 4096))) as -> by zlia.
    assert (u32 (PGSIZE - pr) = 4096 - pr) as Epz by (unfold PGSIZE; apply wrapu_small; unfold in_u; lia).
    assert (user up) as Hu by (split; [unfold in_u; lia|unfold is_user_vaddr, PHYS_BASE; lia]).
    pose proof Hr as (Hra&Hrf&Hrk). destruct (abs_size _ _ _ _ _ _ Hra Hrf Hrk) as [Hj _].
    apply (page_step s I a j pr up w); [done|done|lia|done|done|..].
    + intros s' j' Ho Hr' Hs' Hwhy. split; [done|]. exists I, j'. split; [done|]. split; [done|]. destruct Hwhy as [Hsh|[Hthere%view_some|?]]; [|right; left|tauto].
      * left. rewrite !length_take in *. lia.
      * cbn [add_pages]. by destruct Hthere as [? ->].
    + intros s1 kp H01 Hr1 Hno Hl Hs1. rewrite Epz. unfold PGSIZE. rewrite !wrapu_small by (unfold in_u; lia).
      eapply wp_mono; [apply (IH s1 _ _ _ (rd - pr) (zr - (4096 - pr)) (up + 4096) Hs1 Hr1); [lia..|zlia|lia|zlia|lia|unfold PHYS_BASE; lia]|].
      intros ok s' Hld.
      eapply loads_step; [lia|done|lia|done|done|done|exact Hld].
Qed.

(** ** The segments *)

Lemma seg_bounds len ph : phdr_in_u ph -> len < 2 ^ 31 -> seg_valid len ph = true ->
  0 <= p_offset ph < 2 ^ 31 /\ 4096 <= p_vaddr ph /\ p_vaddr ph + p_memsz ph < 0xc0000000 /\ 0 <= p_filesz ph <= p_memsz ph /\ 0 < p_memsz ph /\
  p_offset ph mod 4096 = p_vaddr ph mod 4096.
Proof. intros [[] [] [] []] Hl. unfold seg_valid, PHYS_BASE. rewrite !andb_true_iff. lia. Qed.

Lemma validate_eq s a j ph : reading s a j -> phdr_in_u ph -> validate_segment ph f s = Ok (seg_valid (zlen bs) ph, s).
Proof.
  intros (Ha&Hf&Hk) [[O1 O2] [V1 V2] [F1 F2] [M1 M2]]. destruct (abs_size _ _ _ _ _ _ Ha Hf Hk) as [_ Hl].
  assert (wp (validate_segment ph f) (fun b s' => b = seg_valid (zlen bs) ph /\ s' = s) s) as (?&?&->&->&->)%wp_ok; [|done].
  unfold validate_segment, seg_valid. change (Z.land (p_offset ph) PGMASK) with (pg_ofs (p_offset ph)). change (Z.land (p_vaddr ph) PGMASK) with (pg_ofs (p_vaddr ph)).
  rewrite !pg_ofs_mod. destruct (_ mod _ =? _ mod _); cbn [negb andb]; [|by apply wp_ret]. apply wp_bind, wp_zoom. unfold wp at 1. erewrite length_at by done.
  assert (L (vm s) (fs s) (pagedir s) (esp0 s) = s) as -> by (by destruct s). rewrite (wrapu_small _ (zlen bs)) by (unfold in_u; lia).
  unfold is_user_vaddr, PHYS_BASE, PGSIZE. rewrite Z.ltb_antisym. destruct (_ <=? zlen bs); cbn [negb andb]; [|by apply wp_ret].
  rewrite Z.ltb_antisym. destruct (_ <=? p_memsz ph); cbn [negb andb]; [|by apply wp_ret]. unfold u32, wrapu.
  repeat (case_match; [apply wp_ret; split; [|done]; zlia|]). apply wp_ret. split; [zlia|done].
Qed.

(** The outcome of a part of [load] that should lead to the pages [o]. *)
Definition result (o : option image) s a (ok : bool) s' : Prop :=
  after s s' /\ exists I' j', reading s' (moved_to a f k j') j' /\ spaced s' I' /\ if ok then o = Some (view I') else o = None \/ exhausted s'.

Lemma result_same s a j I o ok : reading s a j -> spaced s I -> (if (ok : bool) then o = Some (view I) else o = None) -> result o s a ok s.
Proof.
  intros Hr Hs Ho. split; [apply after_refl|]. exists I, j. pose proof Hr as (_&Hf&_). rewrite moved_same by done. split; [done|]. split; [done|]. destruct ok; [done|by left].
Qed.

Lemma round_up_eq x : 0 <= x < 2 ^ 31 * 2 - 4096 -> ROUND_UP x PGSIZE = 4096 * ((x + 4095) / 4096).
Proof. intros Hx. unfold ROUND_UP, PGSIZE. rewrite (wrapu_small _ (x + _ - 1)) by (unfold in_u; lia). rewrite wrapu_small; unfold in_u; zlia. Qed.

Lemma load_segment_ok s I a j ph : spaced s I -> reading s a j -> phdr_in_u ph -> seg_valid (zlen bs) ph = true ->
  let total := 4096 * Z.of_nat (seg_pages ph) in
  wp (load_segment cur init_ram_pages init_page_dir f (p_offset ph - p_vaddr ph mod 4096) (p_vaddr ph - p_vaddr ph mod 4096)
       (seg_size ph) (total - seg_size ph) (has (p_flags ph) PF_W)) (result (add_segment bs ph (view I)) s a) s.
Proof.
  intros Hs Hr Hph Hv total. pose proof Hr as (Ha&Hf&Hk). destruct (abs_size _ _ _ _ _ _ Ha Hf Hk) as [_ Hl].
  destruct (seg_bounds _ ph Hph Hl Hv) as (HO&HV&HE&HF&HM&HA). unfold add_segment. rewrite Hv. cbn [andb].
  assert (0 <= seg_size ph <= total /\ total < p_vaddr ph mod 4096 + p_memsz ph + 4096) as [Hsz Ht].
  { unfold total, seg_pages, seg_size. destruct (Z.ltb_spec 0 (p_filesz ph)); zlia. }
  assert (p_vaddr ph - p_vaddr ph mod 4096 + total <= 0xc0000000) as Hend by (unfold total, seg_pages in *; zlia).
  unfold load_segment. apply wp_bind, wp_assert. split.
  { unfold PGSIZE. rewrite wrapu_small by (unfold in_u; zlia). unfold total. apply Z.eqb_eq. zlia. }
  apply wp_bind, wp_assert. split; [rewrite pg_ofs_mod; apply Z.eqb_eq; zlia|]. apply wp_bind, wp_assert. split; [unfold PGSIZE; apply Z.eqb_eq; zlia|].
  apply wp_bind, wp_zoom. eapply wp_mono; [apply (seek_at cur (fs s) a f k j); [done|done|zlia]|]. cbn beta. intros [] fs' Ha'.
  set (s1 := L (vm s) fs' (pagedir s) (esp0 s)). set (ofs := p_offset ph - p_vaddr ph mod 4096) in *.
  assert (reading s1 (moved_to a f k ofs) ofs) as Hr1 by (split; [done|split; [apply lookup_insert_eq|done]]).
  eapply wp_mono; [apply (load_pages_ok _ _ s1 I (moved_to a f k ofs) ofs (seg_size ph) (total - seg_size ph)); [exact Hs|done|lia|lia|unfold total; zlia|rewrite Z2Nat.id by lia; zlia|zlia|zlia|unfold PHYS_BASE; lia]|].
  intros ok s' (Ho&I'&j'&Hr'&Hs'&Hok). replace (Z.to_nat ((seg_size ph + (total - seg_size ph)) / 4096)) with (seg_pages ph) in Hok by (unfold total; zlia).
  rewrite moved_again in Hr'. split; [eapply after_trans; [|exact Ho]; by exists (Pagedir.pages (vm s)), fs'; destruct s as [[]]|]. exists I', j'. split; [done|]. split; [done|].
  change (take (Z.to_nat (seg_size ph)) (drop (Z.to_nat ofs) bs)) with (seg_data bs ph) in Hok. destruct ok.
  - destruct Hok as [-> ?]. by rewrite Z.eqb_refl.
  - destruct (Z.eqb_spec (zlen (seg_data bs ph)) (seg_size ph)); [|tauto]. tauto.
Qed.

Lemma load_phdr_ok s I a j ph : spaced s I -> reading s a j -> phdr_in_u ph ->
  wp (load_phdr cur init_ram_pages init_page_dir f ph) (result (add_phdr bs ph (view I)) s a) s.
Proof.
  intros Hs Hr Hph. unfold load_phdr, add_phdr. destruct (_ || _); [by apply wp_ret, (result_same s a j I)|].
  destruct (p_type ph =? PT_LOAD); cbn [negb]; [|by apply wp_ret, (result_same s a j I)]. apply wp_bind. unfold wp at 1. rewrite (validate_eq s a j) by done.
  destruct (seg_valid (zlen bs) ph) eqn:Ev; cbn [negb]; [|by apply wp_ret, (result_same s a j I); [..|unfold add_segment; rewrite Ev]].
  pose proof Hr as (Ha&Hf&Hk). destruct (abs_size _ _ _ _ _ _ Ha Hf Hk) as [_ Hl]. destruct (seg_bounds _ ph Hph Hl Ev) as (HO&HV&HE&HF&HM&HA).
  pose proof (load_segment_ok s I a j ph Hs Hr Hph Ev) as Hseg. cbv zeta in Hseg.
  change (Z.land (p_vaddr ph) PGMASK) with (pg_ofs (p_vaddr ph)). change (Z.land (p_vaddr ph) (u32 (Z.lnot PGMASK))) with (pg_round_down (p_vaddr ph)).
  change (Z.land (p_offset ph) (u32 (Z.lnot PGMASK))) with (pg_round_down (p_offset ph)). rewrite pg_ofs_mod, !pg_round_down_eq by apply Hph.
  rewrite (wrapu_small 32 (p_vaddr ph mod 4096 + p_memsz ph)) by (unfold in_u; zlia). rewrite round_up_eq by zlia.
  assert (s32 (4096 * (p_offset ph / 4096)) = p_offset ph - p_vaddr ph mod 4096) as -> by (rewrite <- HA, wraps_small by (unfold in_s; zlia); zlia).
  replace (4096 * (p_vaddr ph / 4096)) with (p_vaddr ph - p_vaddr ph mod 4096) by zlia.
  replace (4096 * Z.of_nat (seg_pages ph)) with (4096 * ((p_vaddr ph mod 4096 + p_memsz ph + 4095) / 4096)) in Hseg by (unfold seg_pages; zlia).
  unfold seg_size in Hseg. destruct (Z.ltb_spec 0 (p_filesz ph)); [|by rewrite Z.sub_0_r in Hseg].
  rewrite !wrapu_small; [exact Hseg|unfold in_u; zlia..].
Qed.

Lemma result_after o s s1 a j ok s' : after s s1 -> result o s1 (moved_to a f k j) ok s' -> result o s a ok s'.
Proof. intros Ho (Ho'&I'&j'&Hr&Hs&Hok). rewrite moved_again in Hr. split; [by eapply after_trans|]. by exists I', j'. Qed.

(** ** The headers of the file *)

Lemma part_length ofs n : 0 <= ofs -> zlen (part bs ofs n) = n -> 0 < n -> ofs + n <= zlen bs.
Proof. intros Ho E Hn. unfold part in E. rewrite length_take, length_drop in E. lia. Qed.

(** A block read from the file into a buffer of its size. *)
Lemma read_part s I a j n : spaced s I -> reading s a j -> 0 <= n < 2 ^ 31 ->
  wp (on_fs (Fs.file_read f (replicate (Z.to_nat n) 0) n)) (fun x s' => x.1 = zlen (part bs j n) /\ (x.1 = n -> x.2 = part bs j n) /\
    after s s' /\ spaced s' I /\ reading s' (moved_to a f k (j + zlen (part bs j n))) (j + zlen (part bs j n))) s.
Proof.
  intros Hs (Ha&Hf&Hk) Hn. apply wp_zoom. eapply wp_mono; [apply (read_at (fs s) a f k j n (replicate (Z.to_nat n) 0) bs); [done|done|done|done|rewrite length_replicate; lia]|].
  intros x fs' (->&Hle&Ha'). split; [done|]. split.
  { intros E. cbn [fst snd] in *. unfold part. unfold Fs.splice. rewrite take_0, (drop_ge (replicate _ _)), app_nil_r; [done|rewrite length_replicate; simpl; lia]. }
  split; [by exists (Pagedir.pages (vm s)), fs'; destruct s as [[]]|]. split; [done|]. split; [done|]. split; [apply lookup_insert_eq|done].
Qed.

Lemma load_phdrs_ok n s I a j o : spaced s I -> reading s a j -> in_u 32 o ->
  wp (load_phdrs cur init_ram_pages init_page_dir n f (s32 o)) (result (add_phdrs n bs o (view I)) s a) s.
Proof.
  revert s I a j o. induction n as [|n IH]; intros s I a j o Hs Hr Ho; cbn [load_phdrs add_phdrs]; [by apply wp_ret, (result_same s a j I)|].
  pose proof Hr as (Ha&Hf&Hk). destruct (abs_size _ _ _ _ _ _ Ha Hf Hk) as [_ Hl].
  assert (zlen bs < o -> (zlen (part bs o 32) =? 32) = false) as Hbig.
  { intros Hgt. apply Z.eqb_neq. intros E. apply part_length in E; unfold in_u in Ho; lia. }
  assert (o < 2 ^ 31 /\ s32 o = o \/ 2 ^ 31 <= o /\ s32 o < 0) as [[Hlow ->]|[Hhigh Hneg]].
  { unfold in_u in Ho. destruct (decide (o < 2 ^ 31)); [left; split; [done|]; apply wraps_small; unfold in_s; lia|right; split; [lia|]; unfold wraps; cbv zeta; case_match; zlia]. }
  2: { rewrite (proj2 (Z.ltb_lt _ _)), Hbig by lia. by apply wp_ret, (result_same s a j I). }
  rewrite (proj2 (Z.ltb_ge _ _)) by apply Ho. apply wp_bind, wp_zoom. unfold wp at 1. erewrite length_at by done.
  assert (L (vm s) (fs s) (pagedir s) (esp0 s) = s) as -> by (by destruct s). destruct (Z.ltb_spec (zlen bs) o) as [Hgt|Hle].
  { rewrite Hbig by done. by apply wp_ret, (result_same s a j I). }
  apply wp_bind, wp_zoom. eapply wp_mono; [apply (seek_at cur (fs s) a f k j o); [done|done|unfold in_u in Ho; lia]|]. cbn beta. intros [] fs1 Ha1.
  set (s1 := L (vm s) fs1 (pagedir s) (esp0 s)).
  assert (reading s1 (moved_to a f k o) o) as Hr1 by (split; [done|split; [apply lookup_insert_eq|done]]).
  assert (after s s1) as H01 by (by exists (Pagedir.pages (vm s)), fs1; destruct s as [[]]).
  apply wp_bind. eapply wp_mono; [apply (read_part s1 I (moved_to a f k o) o PHDR_SIZE); [exact Hs|done|lia]|]. cbn beta.
  intros [c buf] s2 (Ec&Eb&H12&Hs2&Hr2). cbn [fst snd] in *. rewrite moved_again in Hr2. subst c. assert (after s s2) as H02 by (exact (after_trans _ _ _ H01 H12)).
  destruct (Z.eqb_spec (zlen (part bs o 32)) 32) as [E|E]; cbn [negb].
  2: { apply wp_ret. eapply result_after; [exact H02|]. by eapply result_same. }
  rewrite (Eb E). apply wp_bind. eapply wp_mono; [apply (load_phdr_ok s2 I _ _ (phdr_of (part bs o 32)) Hs2 Hr2); apply phdr_range, Forall_take, Forall_drop; by eapply abs_bytes|].
  cbn beta. intros ok s3 (H23&I3&j3&Hr3&Hs3&Hok). rewrite moved_again in Hr3. assert (after s s3) as H03 by (exact (after_trans _ _ _ H02 H23)). destruct ok; cbn [negb].
  2: { apply wp_ret. split; [done|]. exists I3, j3. split; [done|]. split; [done|]. destruct Hok as [->|?]; [by left|by right]. }
  rewrite Hok. assert (o + 32 <= zlen bs) as Hfit by (apply part_length; [apply Ho|done|lia]).
  replace (s32 (o + PHDR_SIZE)) with (s32 (o + 32)) by done. eapply wp_mono; [apply (IH s3 I3 _ _ (o + 32) Hs3 Hr3); unfold in_u in *; lia|].
  intros ok s' Hres. by eapply result_after.
Qed.

(** ** The stack, and the whole file *)

Lemma setup_stack_ok s I : spaced s I ->
  wp (setup_stack cur init_ram_pages init_page_dir) (fun r s' => (exists p', s' = put_vm p' s) /\ exists I', spaced s' I' /\
    match r with
    | Some esp => esp = PHYS_BASE /\ add_pages 1 (PHYS_BASE - 4096) true [] (view I) = Some (view I')
    | None => add_pages 1 (PHYS_BASE - 4096) true [] (view I) = None \/ exhausted s'
    end) s.
Proof.
  intros Hs. unfold setup_stack. apply wp_bind. eapply wp_mono; [by apply (alloc_ok (Z.lor Palloc.PAL_USER Palloc.PAL_ZERO) s I Hs)|]. cbn beta.
  assert (exists p', s = put_vm p' s) as Hsame by (exists (Pagedir.pages (vm s)); by rewrite put_vm_same).
  intros kp s1 [(->&->&He)|(Hkp&Ho1&Hs1&Hsp1&Hz)]; [rewrite Z.eqb_refl; apply wp_ret; split; [done|]; exists I; split; [done|by right]|].
  rewrite (proj2 (Z.eqb_neq _ _) Hkp). change (u32 (PHYS_BASE - PGSIZE)) with (PHYS_BASE - 4096). apply wp_bind.
  eapply wp_mono; [by apply (install_ok s1 I (PHYS_BASE - 4096) kp (zeros 4096) true Hs1 Hsp1 (Hz eq_refl)); [pose proof (zeros_length 4096); lia|..]|]. cbn beta.
  intros ok s2 [Ho2 H2]. assert (exists p', s2 = put_vm p' s) as Ho by (destruct Ho1 as [? ->], Ho2 as [? ->]; by eexists). cbn [add_pages]. destruct ok.
  - destruct H2 as [Hno Hs2]. apply wp_ret. split; [done|]. eexists. split; [exact Hs2|]. split; [done|]. rewrite view_none by done.
    unfold view at 2. rewrite fmap_insert. done.
  - destruct H2 as [-> Hwhy]. apply wp_bind. eapply wp_mono; [by apply (free_frame_ok s1 I kp)|]. cbn beta. intros _ s3 (Ho3&Hs3&Hfull). apply wp_ret.
    split; [destruct Ho1 as [? ->], Ho3 as [? ->]; by eexists|]. exists I. split; [done|]. destruct Hwhy as [[? ->]%view_some|?]; [by left|]. right. exists false. tauto.
Qed.

Lemma load_file_ok s a : spaced s ∅ -> reading s a 0 ->
  wp (load_file cur init_ram_pages init_page_dir f) (fun r s' => after s s' /\ exists I' j', reading s' (moved_to a f k j') j' /\ spaced s' I' /\
    match r with
    | Some (eip, esp) => esp = PHYS_BASE /\ elf_image bs = Some (eip, view I')
    | None => elf_image bs = None \/ exhausted s'
    end) s.
Proof.
  intros Hs Hr. unfold load_file, elf_image. apply wp_bind. eapply wp_mono; [apply (read_part s ∅ a 0 EHDR_SIZE Hs Hr); lia|]. cbn beta.
  intros [c buf] s1 (Ec&Eb&H01&Hs1&Hr1). cbn [fst snd] in *. subst c.
  destruct (Z.eqb_spec (zlen (part bs 0 52)) 52) as [E|E]; cbn [negb orb andb]; [rewrite (Eb E)|apply wp_ret; split; [done|]; eexists _, _; by eauto].
  destruct (ehdr_ok _) eqn:Eh; cbn [negb]; [|apply wp_ret; split; [done|]; eexists _, _; by eauto].
  set (e := ehdr_of (part bs 0 52)) in *. pose proof Hr1 as (Ha1&_&Hk1).
  assert (in_u 32 (e_phoff e)) as Hoff by (apply field_range; [apply Forall_take, Forall_drop; by eapply abs_bytes|lia]).
  apply wp_bind. eapply wp_mono; [apply (load_phdrs_ok (Z.to_nat (e_phnum e)) s1 ∅ _ _ (e_phoff e) Hs1 Hr1 Hoff)|]. cbn beta.
  change (view ∅) with (∅ : image). intros ok s2 (H12&I2&j2&Hr2&Hs2&Hok). rewrite moved_again in Hr2. assert (after s s2) as H02 by (exact (after_trans _ _ _ H01 H12)).
  destruct ok; cbn [negb]. 2: { apply wp_ret. split; [done|]. exists I2, j2. split; [done|]. split; [done|]. destruct Hok as [->|?]; [by left|by right]. }
  rewrite Hok. apply wp_bind. eapply wp_mono; [apply (setup_stack_ok s2 I2 Hs2)|]. cbn beta. intros r s3 (Ho3&I3&Hs3&Hst).
  assert (after s s3) as H03 by (exact (after_trans _ _ _ H02 (after_vm _ _ Ho3))). destruct r as [esp|]; apply wp_ret.
  - split; [done|]. exists I3, j2. split; [by apply (reading_vm s2)|]. split; [done|]. destruct Hst as [-> ->]. done.
  - split; [done|]. exists I3, j2. split; [by apply (reading_vm s2)|]. split; [done|]. destruct Hst as [->|?]; [by left|by right].
Qed.
End file.
End ops.
End LoaderSpec.
