(* ===== verification/LoaderProps.v ===== *)
(** * Properties of the program loader

    [load] builds the image that the executable describes, whatever bytes the
    file has, or fails and says why. *)

From S2P Require Import Prelude.
From S2P Require Import Mem.
From S2P Require Import Words.
From S2P Require Import Bitmap.
From S2P Require Import Vaddr.
From S2P Require Import Palloc.
From S2P Require Import Pagedir.
From S2P Require Import PagedirSpec.
From S2P Require Import Device.
From S2P Require Import Block.
From S2P Require Import Fs.
From S2P Require Import FsDir.
From S2P Require Import FsCore.
From S2P Require Import FsOps.
From S2P Require Import Directory.
From S2P Require Import FsSteps.
From S2P Require Import FsRefine.
From S2P Require Import FsMount.
From S2P Require Import FsClient.
From S2P Require Import Loader.
From S2P Require Import LoaderSpec.
Local Open Scope Z_scope.

Module LoaderProps.
Import Mem Words Vaddr Loader LoaderSpec FsClient FsRefine.
Import Pagedir (mem_of, kpage, dir, user, entry, pte_for, tables).

(** ** The images of executables *)

Section image.
Implicit Types (V : image) (bs : list Z).

(** Pages of user space above the first, of 4096 bytes. *)
Definition image_ok V : Prop := forall va bs w, V !! va = Some (bs, w) -> va mod 4096 = 0 /\ 4096 <= va /\ va + 4096 <= PHYS_BASE /\ length bs = 4096%nat.

Lemma add_pages_ok n up w data V V' : add_pages n up w data V = Some V' -> image_ok V -> up mod 4096 = 0 -> 4096 <= up ->
  up + 4096 * Z.of_nat n <= PHYS_BASE -> image_ok V' /\ V ⊆ V'.
Proof.
  revert up data V. induction n as [|n IH]; intros up data V; cbn [add_pages]; [intros [= <-]; done|].
  destruct (V !! up) eqn:E; [done|]. intros Hadd Hok Ha Hl Hh. destruct (IH _ _ _ Hadd) as [Hok' Hsub].
  - intros va c u [[<- [= <- <-]]|[_ Hv]]%lookup_insert_Some; [|by eapply Hok]. split_and!; [done|done|lia|]. apply pad_length. rewrite length_take. lia.
  - zlia.
  - lia.
  - lia.
  - split; [done|]. etrans; [by apply insert_subseteq|exact Hsub].
Qed.

Lemma add_phdr_ok bs ph V V' : add_phdr bs ph V = Some V' -> image_ok V -> image_ok V' /\ V ⊆ V'.
Proof.
  unfold add_phdr, add_segment. destruct (_ || _); [done|]. destruct (_ =? PT_LOAD); [|intros [= <-]; done].
  destruct (seg_valid _ _ && _) eqn:E; [|done]. apply andb_true_iff in E as [Ev _]. intros Hadd Hok. unfold seg_valid in Ev. rewrite !andb_true_iff in Ev.
  destruct Ev as (((((Ev1&Ev2)&Ev3)&Ev4)&Ev5)&Ev6). apply Z.ltb_lt in Ev4, Ev6. apply Z.leb_le in Ev5.
  eapply add_pages_ok; [exact Hadd|done|zlia|zlia|]. unfold seg_pages, PHYS_BASE in *. zlia.
Qed.

Lemma add_phdrs_ok n bs ofs V V' : add_phdrs n bs ofs V = Some V' -> image_ok V -> image_ok V' /\ V ⊆ V'.
Proof.
  revert ofs V. induction n as [|n IH]; intros ofs V; cbn [add_phdrs]; [intros [= <-]; done|]. destruct (_ =? 32); [|done].
  destruct (add_phdr _ _ _) as [V1|] eqn:E1; [|done]. intros E2 Hok. destruct (add_phdr_ok _ _ _ _ E1 Hok) as [Hok1 Hs1].
  destruct (IH _ _ E2 Hok1) as [Hok2 Hs2]. split; [done|by etrans].
Qed.

(** Whatever an executable asks for, the pages it is given lie between the
    first page and the kernel, are whole pages, and the topmost one is the
    stack: writable and all zeros. *)
Lemma elf_image_bounds bs eip V : elf_image bs = Some (eip, V) -> image_ok V /\ V !! (PHYS_BASE - 4096) = Some (zeros 4096, true).
Proof.
  unfold elf_image. destruct (_ && _); [|done]. destruct (add_phdrs _ _ _ _) as [V1|] eqn:E1; [|done].
  destruct (add_phdrs_ok _ _ _ _ _ E1) as [Hok1 _]; [by intros va c u []%lookup_empty_Some|].
  destruct (add_pages _ _ _ _ V1) as [V2|] eqn:E2; [|done]. intros [= _ <-].
  destruct (add_pages_ok _ _ _ _ _ _ E2 Hok1) as [Hok2 _]; [done|unfold PHYS_BASE; lia..|]. split; [done|].
  cbn [add_pages] in E2. destruct (V1 !! _); [done|]. injection E2 as <-. by rewrite lookup_insert_eq.
Qed.
End image.

(** ** The loader *)

Section load.
Context {dev : Type} `{!Device.Device dev} `{!Device.Allocator} {Hroom : Device.Roomy}.
Context (cur init_ram_pages : Z) (init_page_dir : ptr).
Implicit Types (s : state dev) (a : afs).

Abbreviation pages_ s := (Pagedir.pages (vm s)).
Abbreviation spaced_ p0 := (spaced init_ram_pages init_page_dir p0).

(** The memory a process is started with. *)
Record bootable s : Prop := Bootable {
  bt_wf : Palloc.wf (pages_ s);
  bt_base : Pagedir.base_dir init_page_dir (pages_ s);
  bt_ram : Palloc.pool_end (Palloc.user_pool (pages_ s)) <= PHYS_BASE + 4096 * init_ram_pages /\ init_ram_pages <= 2 ^ 18 }.

(** A new directory maps nothing. *)
Lemma create_space s : bootable s ->
  wp (Pagedir.pagedir_create cur init_page_dir) (fun pd v => (pd = NULL /\ v = vm s /\ full false s) \/
    (pd <> NULL /\ PHYS_BASE < pd < 2 ^ 32 /\ space init_ram_pages init_page_dir (pages_ s) (Pagedir.pages v) pd ∅)) (vm s).
Proof.
  intros [Hw Hb Hr]. eapply wp_mono; [by apply (Pagedir.create_ok cur init_page_dir (vm s))|]. cbn beta.
  intros pd v (_&_&[(->&->&Hno)|(Hd&Hn&Hun&Hpt&_&He)]); [by left|right].
  destruct (Palloc.kpage_props _ _ (Pagedir.d_wf _ _ Hd) (Pagedir.d_pd _ _ Hd)) as (Ha&Hl&Hh&_). unfold PHYS_BASE in *. split; [lia|]. split; [lia|].
  split; try done.
  - intros ->. apply Hn. apply Hb.
  - by intros va [g []%lookup_empty_Some].
  - intros va Hu _ _. unfold entry. by rewrite Hpt.
  - pose proof (He true) as E. cbn in E. by rewrite E.
  - intros x [->|(va&Hu&E)]; [done|]. by rewrite Hpt in E.
Qed.

Lemma activate_ok s : PHYS_BASE < pagedir s < 2 ^ 32 ->
  process_activate cur init_page_dir s = Ok (tt, L (Pagedir.St (pages_ s) (pagedir s - PHYS_BASE) ∅) (fs s) (pagedir s) (u32 (cur + PGSIZE))).
Proof.
  intros Hpd. unfold PHYS_BASE in Hpd. assert (wp (process_activate cur init_page_dir) (fun _ s' => s' = L (Pagedir.St (pages_ s) (pagedir s - PHYS_BASE) ∅) (fs s) (pagedir s) (u32 (cur + PGSIZE))) s) as ([]&?&->&->)%wp_ok; [|done].
  unfold process_activate. apply wp_bind, wp_gets, wp_bind, wp_zoom. unfold Pagedir.pagedir_activate. rewrite (proj2 (Z.eqb_neq _ _)) by lia.
  apply wp_bind, wp_lift. exists (pagedir s - PHYS_BASE). split; [|by apply wp_modify, wp_modify].
  unfold vtop, is_kernel_vaddr, PHYS_BASE. rewrite (proj2 (Z.leb_le _ _)), wrapu_small by (unfold in_u; lia). done.
Qed.

(** The file is found, or it has no name. *)
Lemma open_found (fs0 : Fs.state dev) a nm : abs fs0 a -> FsDir.string_ok nm -> Z.of_nat (size (Fs.heap fs0)) + 8 < 2 ^ 30 ->
  wp (Directory.filesys_open cur nm) (fun f fs' => (f = NULL /\ a_names a !! nm = None /\ abs fs' a) \/
    (f <> NULL /\ a_open a !! f = None /\ exists k, a_names a !! nm = Some k /\ abs fs' (Afs (a_names a) (a_files a) (<[f := (k, 0)]> (a_open a))))) fs0.
Proof.
  intros Ha Hn Hsm. pose proof (abs_run cur (Open nm) fs0 a Ha Hn Hsm) as Hr. cbn [run] in Hr. apply wp_bind in Hr.
  eapply wp_mono; [exact Hr|]. cbn beta. intros f fs' (a'&Hsp&Ha')%wp_ret. inversion Hsp; subst; [right|by left]. split; [done|]. split; [done|]. by exists k.
Qed.

(** The file is closed again, and everything is as it was. *)
Lemma close_again (fs0 : Fs.state dev) a f k j nm : a_names a !! nm = Some k -> a_open a !! f = None -> abs fs0 (Afs (a_names a) (a_files a) (<[f := (k, j)]> (a_open a))) ->
  wp (Fs.file_close cur f) (fun _ fs' => abs fs' a) fs0.
Proof.
  intros Hn Hf Ha. eapply wp_mono; [apply (close_one cur _ _ f (fun _ => True) Ha); cbn; by rewrite lookup_insert_eq|]. cbn beta.
  intros _ fs' (a'&Hsp&_&Ha'). inversion Hsp as [| | | | | |? k' j' files Ho Hlive Hdead| | | | |]; subst. cbn in *. rewrite lookup_insert_eq in Ho. injection Ho as <- <-.
  rewrite delete_insert_eq, delete_id in * by done. rewrite (Hlive ltac:(left; by exists nm)) in Ha'. by destruct a.
Qed.

(** What [load] achieves for the file [nm], started in [s]. *)
Definition loaded s a nm (r : option (Z * ptr)) s' : Prop :=
  abs (fs s') a /\ Palloc.untouched (fun _ => False) (pages_ s) (pages_ s') /\
  match r with
  | Some (eip, esp) => esp = PHYS_BASE /\ Pagedir.cr3 (vm s') = pagedir s' - PHYS_BASE /\ Pagedir.tlb (vm s') = ∅ /\
      exists k bs I, a_names a !! nm = Some k /\ a_files a !! k = Some bs /\ elf_image bs = Some (eip, view I) /\ spaced_ (pages_ s) s' I /\
        image_ok (view I) /\ view I !! (PHYS_BASE - 4096) = Some (zeros 4096, true)
  | None => a_names a !! nm = None \/ (exists k bs, a_names a !! nm = Some k /\ a_files a !! k = Some bs /\ elf_image bs = None) \/ exhausted s'
  end.

(** The part of [load] after the directory is in place. *)
Lemma load_found s a nm s2 f k : spaced_ (pages_ s) s2 ∅ -> Pagedir.cr3 (vm s2) = pagedir s2 - PHYS_BASE -> Pagedir.tlb (vm s2) = ∅ ->
  a_names a !! nm = Some k -> a_open a !! f = None -> abs (fs s2) (Afs (a_names a) (a_files a) (<[f := (k, 0)]> (a_open a))) ->
  wp (let! r := load_file cur init_ram_pages init_page_dir f in do! on_fs (Fs.file_close cur f) in ret r) (loaded s a nm) s2.
Proof.
  intros Hs Hcr Htlb Hn Hf Ha. destruct (abs_contents _ _ f k 0 Ha) as [bs Hbs]; [apply lookup_insert_eq|]. cbn [a_files] in Hbs.
  apply wp_bind. eapply wp_mono; [apply (load_file_ok cur init_ram_pages init_page_dir (pages_ s) f k bs s2 (Afs (a_names a) (a_files a) (<[f := (k, 0)]> (a_open a))) Hs)|].
  { split; [done|]. split; [apply lookup_insert_eq|done]. }
  cbn beta. intros r s3 ((p'&fs'&->)&I&j&(Ha3&_&_)&Hs3&Hr). apply wp_bind, wp_zoom. eapply wp_mono; [apply (close_again (fs (put_fs fs' (put_vm p' s2))) a f k j nm Hn Hf)|].
  { unfold moved_to in Ha3. cbn in Ha3. by rewrite insert_insert_eq in Ha3. }
  cbn beta. intros _ fs4 Ha4. apply wp_ret. split; [exact Ha4|]. split; [exact (sp_old _ _ _ _ _ _ Hs3)|].
  destruct r as [[eip esp]|].
  - destruct Hr as [-> He]. split; [done|]. split; [done|]. split; [done|]. exists k, bs, I.
    split; [done|]. split; [done|]. split; [done|]. split; [done|]. by apply (elf_image_bounds bs eip).
  - destruct Hr as [He|He]; [right; left; by exists k, bs|right; right; exact He].
Qed.

Lemma load_ok s a nm : bootable s -> abs (fs s) a -> FsDir.string_ok nm -> Z.of_nat (size (Fs.heap (fs s))) + 8 < 2 ^ 30 ->
  wp (load cur init_ram_pages init_page_dir nm) (loaded s a nm) s.
Proof.
  intros Hb Ha Hnm Hsm. unfold load. apply wp_bind, wp_vm. eapply wp_mono; [by apply create_space|]. cbn beta.
  intros pd v Hv. apply wp_bind, wp_modify. cbn [vm fs pagedir esp0]. destruct Hv as [(->&->&Hno)|(Hnz&Hpd&Hsp)].
  - rewrite Z.eqb_refl. apply wp_bind, wp_zoom, wp_ret, wp_ret. split; [exact Ha|]. split; [apply Palloc.untouched_refl|]. right. right. by exists false.
  - rewrite (proj2 (Z.eqb_neq _ _) Hnz). apply wp_bind. unfold wp at 1. rewrite activate_ok by done. cbn [vm fs pagedir esp0].
    apply wp_bind, wp_zoom. eapply wp_mono; [by apply (open_found (fs s) a nm)|]. cbn beta. intros f fs' [(->&Hn&Ha')|(Hfz&Hfo&k&Hk&Ha')].
    + rewrite Z.eqb_refl. apply wp_bind, wp_ret, wp_bind, wp_zoom, wp_ret, wp_ret. split; [exact Ha'|]. split; [exact (sp_old _ _ _ _ _ _ Hsp)|by left].
    + rewrite (proj2 (Z.eqb_neq _ _) Hfz). apply (load_found s a nm _ f k); [exact Hsp|done|done|done|done|exact Ha'].
Qed.
End load.

(** C4. [load] ends normally whatever bytes the file holds.  When it succeeds,
    the new and active directory maps exactly the pages the executable
    describes, with their bytes and permissions, all of them between the first
    page and the kernel, and a stack of zeros on top; when it fails,
    there is no such file, the file is not a valid executable, or a pool has
    no page left.  No page that was in use is changed, and the file system is
    as before. *)
Theorem load_correct {dev} `{!Device.Device dev} `{!Device.Allocator} {Hroom : Device.Roomy} cur ram ipd (s : state dev) a nm :
  bootable ram ipd s -> abs (fs s) a -> FsDir.string_ok nm -> Z.of_nat (size (Fs.heap (fs s))) + 8 < 2 ^ 30 ->
  wp (load cur ram ipd nm) (loaded ram ipd s a nm) s.
Proof. apply load_ok. Qed.

(** ** An example: a program of a hundred bytes in a file *)

#[local] Existing Instances FsMount.vol_device Device.bump Device.bump_roomy.

(** One segment: the file itself at 0x8048000, and zeros up to 5000 bytes. *)
Definition ex_elf : list Z :=
  [127; 69; 76; 70; 1; 1; 1; 0; 0; 0; 0; 0; 0; 0; 0; 0] ++ le16 2 ++ le16 3 ++ le32 1 ++ le32 0x8048054 ++ le32 52 ++ le32 0 ++ le32 0 ++
  le16 52 ++ le16 32 ++ le16 1 ++ le16 0 ++ le16 0 ++ le16 0 ++
  le32 1 ++ le32 0 ++ le32 0x8048000 ++ le32 0x8048000 ++ le32 100 ++ le32 5000 ++ le32 5 ++ le32 4096 ++ replicate 16 144.

Lemma ex_image : (fun x : Z * image => (x.1, map_to_list ((fun y : list Z * bool => (take 100 y.1, y.2)) <$> x.2))) <$> elf_image ex_elf =
  Some (0x8048054, [(0xbffff000, (replicate 100 0, true)); (0x8049000, (replicate 100 0, false)); (0x8048000, (ex_elf, false))]).
Proof. by vm_compute. Qed.

Definition next (q : request) (s : Fs.state Block.state) : Fs.state Block.state := match run 1 q s with Ok (_, s') => s' | Err _ => s end.
Definition reply (q : request) (s : Fs.state Block.state) : option response := match run 1 q s with Ok (r, _) => Some r | Err _ => None end.

Abbreviation small s := (Z.of_nat (size (Fs.heap s)) + 8 < 2 ^ 30).

Lemma next_ok q s a r : reply q s = Some r -> abs s a -> small s -> legal a q ->
  exists a', spec (room s) a q r a' /\ abs (next q s) a'.
Proof.
  intros Er Ha Hsm Hq. destruct (proj1 (wp_ok _ _ _) (abs_run 1 q s a Ha Hq Hsm)) as (r'&s'&E&a'&Hsp&Ha'). unfold reply, next in *. rewrite E in *. injection Er as <-. by exists a'.
Qed.

(** Creating, opening, writing and closing leaves a file with the bytes. *)
Lemma stored s0 nm bs f : let s1 := next (Create nm (zlen bs)) s0 in let s2 := next (Open nm) s1 in let s3 := next (Write f bs) s2 in
  abs s0 (Afs ∅ ∅ ∅) -> FsOps.valid_name nm -> Forall (in_u 8) bs -> zlen bs + 511 < 2 ^ 31 -> f <> NULL -> small s0 -> small s1 -> small s2 -> small s3 ->
  reply (Create nm (zlen bs)) s0 = Some (RBool true) -> reply (Open nm) s1 = Some (RPtr f) -> reply (Write f bs) s2 = Some (RInt (zlen bs)) -> reply (Close f) s3 = Some RUnit ->
  exists k, abs (next (Close f) s3) (Afs {[ nm := k ]} {[ k := bs ]} ∅).
Proof.
  intros s1 s2 s3 H0 Hnm Hbs Hlen Hf Z0 Z1 Z2 Z3 R1 R2 R3 R4. pose proof (proj1 Hnm) as Hstr.
  destruct (next_ok _ _ _ _ R1 H0 Z0) as (a1&Hs1&H1); [split; [exact Hnm|lia]|]. fold s1 in H1.
  inversion Hs1 as [? ? k _ Hk| | | | | | | | | | |]; subst. cbn in H1.
  destruct (next_ok _ _ _ _ R2 H1 Z1 Hstr) as (a2&Hs2&H2). fold s2 in H2.
  inversion Hs2 as [| |? k' ? Hk' _ _| | | | | | | | |]; subst; [|done]. cbn in *. rewrite lookup_insert_eq in Hk'. injection Hk' as <-.
  destruct (next_ok _ _ _ _ R3 H2 Z2) as (a3&Hs3&H3); [split; [cbn; by rewrite lookup_insert_eq|split; [done|lia]]|]. fold s3 in H3.
  inversion Hs3 as [| | | | | | | |? ? k' j bs' Hk' Hbs' r| | |]; subst. cbn in *. rewrite lookup_insert_eq in Hk'. injection Hk' as <- <-.
  rewrite lookup_insert_eq in Hbs'. injection Hbs' as Eb.
  assert (length bs' = length bs) as El by (rewrite <- Eb, length_replicate; lia). assert (r = bs) as Er by (unfold r; apply take_ge; lia). rewrite Er in H3.
  assert (Fs.splice bs' (Z.to_nat 0) bs = bs) as Esp by (unfold Fs.splice; rewrite (drop_ge bs'), app_nil_r by (simpl; lia); done).
  rewrite Esp, !insert_insert_eq in H3. clear - H3 Z3 R4.
  destruct (next_ok _ _ _ _ R4 H3 Z3) as (a4&Hs4&H4); [cbn; by rewrite lookup_insert_eq|].
  inversion Hs4 as [| | | | | |? k' j' files Ho Hlive Hdead| | | | |]; subst. cbn in *. rewrite lookup_insert_eq in Ho. injection Ho as <- <-.
  rewrite (Hlive ltac:(left; exists nm; apply lookup_insert_eq)), delete_insert_eq, delete_empty in H4. exists k. exact H4.
Qed.

Definition ex_fs0 : Fs.state Block.state := match Directory.filesys_init 1 2 [0] true FsMount.vol_state with Ok (_, s) => s | Err _ => FsMount.vol_state end.
Definition ex_fs1 := next (Create [97] (zlen ex_elf)) ex_fs0.
Definition ex_file : ptr := match reply (Open [97]) ex_fs1 with Some (RPtr f) => f | _ => NULL end.
Definition ex_fs := next (Close ex_file) (next (Write ex_file ex_elf) (next (Open [97]) ex_fs1)).

Lemma ex_fs_ok : exists k, abs ex_fs (Afs {[ [97] := k ]} {[ k := ex_elf ]} ∅).
Proof.
  apply (stored ex_fs0 [97] ex_elf ex_file); [|..|by vm_compute|by vm_compute|by vm_compute|by vm_compute].
  - destruct FsMount.vol_booted as (Hb&Hg&Hbig). destruct (proj1 (wp_ok _ _ _) (FsMount.format_ok 1 FsMount.vol_state FsMount.vol 2 [0] Hb Hg Hbig)) as ([]&s&E&Hs&_).
    unfold ex_fs0. by rewrite E.
  - split_and!; [split; [by repeat constructor|done]|done|simpl; lia].
  - apply (bool_decide_unpack _). by vm_compute.
  - by vm_compute.
  - intros E. by vm_compute in E.
  - by vm_compute.
  - by vm_compute.
  - by vm_compute.
  - by vm_compute.
Qed.

(** Eight pages for the kernel, the base directory in the first, and eight for
    user programs. *)
Definition ex_pages : Palloc.state :=
  Palloc.St (blank 0xc0100000 0x12000) (Palloc.Pool None (Bitmap.Bm 8 [1]) 0xc0101000) (Palloc.Pool None (Bitmap.Bm 8 [0]) 0xc0109000).
Definition ex_start : state Block.state := L (Pagedir.St ex_pages 0x101000 ∅) ex_fs NULL 0.

Lemma ex_bootable : bootable 512 0xc0101000 ex_start.
Proof.
  split.
  - split; [by apply blank_ok|by apply blank_bytes| |left; by vm_compute|intros []; apply blank_mapped; cbn; lia].
    assert (forall w b, in_u 32 w -> (b = 0xc0101000 \/ b = 0xc0109000) -> Palloc.pool_wf (Palloc.Pool None (Bitmap.Bm 8 [w]) b)) as Hp.
    { intros w b Hw Hb. split; [done|split; cbn; [lia|done|by apply Forall_singleton]| | |]; unfold PHYS_BASE, Palloc.pool_end; cbn; destruct Hb as [-> | ->]; done. }
    intros []; apply Hp; auto; unfold in_u; lia.
  - split; [done|]. intros i Hi. unfold ex_start, ex_pages. cbn [vm Pagedir.pages Palloc.memory]. unfold rd. rewrite !blank_lookup by lia. rewrite !decide_True by lia. reflexivity.
  - split; by vm_compute.
Qed.

Lemma load_correct_witness : exists k s', load 1 512 0xc0101000 [97] ex_start = Ok (Some (0x8048054, PHYS_BASE), s') /\
  loaded 512 0xc0101000 ex_start (Afs {[ [97] := k ]} {[ k := ex_elf ]} ∅) [97] (Some (0x8048054, PHYS_BASE)) s'.
Proof.
  destruct ex_fs_ok as [k Hk]. exists k.
  destruct (proj1 (wp_ok _ _ _) (load_correct 1 512 0xc0101000 ex_start _ [97] ex_bootable Hk ltac:(split; [by repeat constructor|done]) ltac:(by vm_compute))) as (r&s'&E&Hl).
  exists s'. assert (r = Some (0x8048054, PHYS_BASE)) as ->; [|split; [exact E|exact Hl]].
  apply (f_equal (fun x => match x with Ok (r, _) => r | Err _ => None end)) in E. rewrite <- E. vm_compute. reflexivity.
Defined.
End LoaderProps.
