(* ===== verification/Console.v ===== *)
(** * The console: lib/kernel/console.c

    Printing with the console lock, which a thread may take again while it has
    it.  The first part gives each routine its meaning for one thread; the
    second lets threads print at the same time, one step being the taking of
    the lock, a character, or the release, and shows that messages do not
    mix. *)

From Stdlib Require Import String Ascii.
From S2P Require Import Prelude.
From S2P Require Import Mem.
From S2P Require Import Stdio.
From S2P Require Import StdioSpec.
Local Open Scope Z_scope.

Module Console.
Import Mem.

Abbreviation tid := Z.

(** The variables of console.c, the running thread, whether an interrupt is
    being handled, what the display and the serial port have shown, and the
    memory with the strings.  [holder] is that of [console_lock]. *)
Record console := Con {
  running : tid; in_intr : bool;
  use_console_lock : bool; holder : option tid; console_lock_depth : Z; write_cnt : Z;
  shown : list Z; strings : mem }.

Definition set_lock (h : option tid) (d : Z) (s : console) : console :=
  Con (running s) (in_intr s) (use_console_lock s) h d (write_cnt s) (shown s) (strings s).
Definition set_use (b : bool) (h : option tid) (s : console) : console :=
  Con (running s) (in_intr s) b h (console_lock_depth s) (write_cnt s) (shown s) (strings s).
Definition show (c : Z) (s : console) : console :=
  Con (running s) (in_intr s) (use_console_lock s) (holder s) (console_lock_depth s) (s64 (write_cnt s + 1)) (shown s ++ [u8 c]) (strings s).
Definition switch (t : tid) (s : console) : console :=
  Con t (in_intr s) (use_console_lock s) (holder s) (console_lock_depth s) (write_cnt s) (shown s) (strings s).

(** [lock_held_by_current_thread], [lock_acquire], which waits while another
    thread holds the lock, and [lock_release]. *)
Definition held (s : console) : bool := match holder s with Some t => t =? running s | None => false end.
Definition lock_acquire : M console unit := fun s =>
  if in_intr s || held s then Err EPanic
  else match holder s with Some _ => Err EBlock | None => Ok (tt, set_lock (Some (running s)) (console_lock_depth s) s) end.
Definition lock_release : M console unit := fun s =>
  if held s then Ok (tt, set_lock None (console_lock_depth s) s) else Err EPanic.

Definition console_init : M console unit := modify (set_use true None).
Definition console_panic : M console unit := modify (fun s => set_use false (holder s) s).

Definition acquire_console : M console unit :=
  let! s := get in
  if negb (in_intr s) && use_console_lock s then
    if held s then modify (fun s => set_lock (holder s) (s32 (console_lock_depth s + 1)) s) else lock_acquire
  else ret tt.

Definition release_console : M console unit :=
  let! s := get in
  if negb (in_intr s) && use_console_lock s then
    if 0 <? console_lock_depth s then modify (fun s => set_lock (holder s) (s32 (console_lock_depth s - 1)) s) else lock_release
  else ret tt.

Definition console_locked_by_current_thread : M console bool :=
  gets (fun s => in_intr s || negb (use_console_lock s) || held s).

Definition putchar_have_lock (c : Z) : M console unit :=
  let! b := console_locked_by_current_thread in
  do! assert b in
  modify (show c).

(** The count of [vprintf] is next to the state. *)
Definition vprintf_helper (c : Z) : M (console * Z) unit :=
  fun s => match putchar_have_lock c s.1 with Ok (_, s1) => Ok (tt, (s1, s32 (s.2 + 1))) | Err e => Err e end.

Definition vprintf (fmt args : list Z) : M console Z :=
  do! acquire_console in
  let! char_cnt := (fun s => match Stdio.__vprintf (fun s => strings s.1) vprintf_helper fmt args (s, 0) with
                             | Ok (_, (s1, n)) => Ok (n, s1) | Err e => Err e end) in
  do! release_console in
  ret char_cnt.

Fixpoint puts_loop (fuel : nat) (p : ptr) : M console unit :=
  match fuel with
  | O => fail EFuel
  | S fuel' =>
      let! c := Stdio.reads strings (load p) in
      if c =? 0 then ret tt else do! putchar_have_lock c in puts_loop fuel' (p + 1)
  end.
Definition puts (p : ptr) : M console Z :=
  do! acquire_console in
  let! fuel := gets (fun s => fuel_of (strings s)) in
  do! puts_loop fuel p in
  do! putchar_have_lock 10 in
  do! release_console in
  ret 0.

Fixpoint putbuf_loop (n : nat) (p : ptr) : M console unit :=
  match n with
  | O => ret tt
  | S n' => let! c := Stdio.reads strings (load p) in do! putchar_have_lock c in putbuf_loop n' (p + 1)
  end.
Definition putbuf (buffer n : Z) : M console unit :=
  do! acquire_console in
  do! putbuf_loop (Z.to_nat n) buffer in
  release_console.

Definition putchar (c : Z) : M console Z :=
  do! acquire_console in
  do! putchar_have_lock c in
  do! release_console in
  ret c.

Definition console_print_stats : M console unit :=
  let! n := gets write_cnt in
  do! Stdio.printf vprintf (Stdio.chars "Console: %lld characters output" ++ [10]) [u32 n; u32 (n / 2 ^ 32)] in ret tt.

(** ** One thread *)

(** The running thread may print: it handles an interrupt, locks are not in
    use, or the lock is free or its own. *)
Definition may_print (s : console) : Prop :=
  in_intr s = true \/ use_console_lock s = false \/ (holder s = None /\ console_lock_depth s = 0) \/
  (holder s = Some (running s) /\ 0 <= console_lock_depth s < 2 ^ 31 - 1).

Definition shows (t : list Z) (s : console) : console :=
  Con (running s) (in_intr s) (use_console_lock s) (holder s) (console_lock_depth s) (write_cnt s + zlen t) (shown s ++ (u8 <$> t)) (strings s).

(** The state between [acquire_console] and [release_console]. *)
Definition entered (s : console) : console :=
  if negb (in_intr s) && use_console_lock s then
    if held s then set_lock (holder s) (console_lock_depth s + 1) s else set_lock (Some (running s)) (console_lock_depth s) s
  else s.

Definition locked (s : console) : Prop := (in_intr s || negb (use_console_lock s) || held s) = true.

Lemma acquire_ok s : may_print s -> acquire_console s = Ok (tt, entered s) /\ locked (entered s).
Proof.
  destruct s as [r i u h d w sh st]. unfold may_print, acquire_console, entered, locked, held, lock_acquire, bind, get, modify, ret. cbn.
  destruct i, u; cbn; try by intros. intros [?|[?|[[-> ->]|[-> Hd]]]]; try done; unfold set_lock, held; cbn.
  - by rewrite Z.eqb_refl.
  - rewrite Z.eqb_refl. cbn. rewrite (wraps_small 32 (d + 1)) by (unfold in_s; lia). by rewrite Z.eqb_refl.
Qed.

Lemma release_ok s t : may_print s -> release_console (shows t (entered s)) = Ok (tt, shows t s).
Proof.
  destruct s as [r i u h d w sh st]. unfold may_print, release_console, entered, shows, held, lock_release, bind, get, modify, ret. cbn.
  destruct i, u; cbn; try by intros. intros [?|[?|[[-> ->]|[-> Hd]]]]; try done; unfold held; cbn.
  - by rewrite Z.eqb_refl.
  - rewrite Z.eqb_refl. cbn. rewrite (proj2 (Z.ltb_lt 0 (d + 1))) by lia. cbn. rewrite (wraps_small 32 (d + 1 - 1)) by (unfold in_s; lia). unfold set_lock. cbn. do 3 f_equal. lia.
Qed.

(** Room in the 64-bit count of characters. *)
Definition countable (s : console) (n : Z) : Prop := 0 <= write_cnt s /\ write_cnt s + n < 2 ^ 63.

Lemma shows_cons c t s : shows t (shows [c] s) = shows (c :: t) s.
Proof. unfold shows. cbn. f_equal; [lia|]. by rewrite <- app_assoc. Qed.
Lemma shows_nil s : shows [] s = s.
Proof. unfold shows. destruct s. cbn. f_equal; [lia|apply app_nil_r]. Qed.
Lemma locked_shows t s : locked (shows t s) <-> locked s.
Proof. done. Qed.

Lemma putchar_ok c s : locked s -> countable s 1 -> putchar_have_lock c s = Ok (tt, shows [c] s).
Proof.
  intros Hl [H0 Hc]. unfold putchar_have_lock, bind, console_locked_by_current_thread, gets. rewrite Hl. unfold assert, ret, modify, show, shows. cbn.
  by rewrite (wraps_small 64) by (unfold in_s; lia).
Qed.

Lemma helper_text t s n : locked s -> countable s (zlen t) -> 0 <= n -> n + zlen t < 2 ^ 31 ->
  Stdio.put_all vprintf_helper t (s, n) = Ok (tt, (shows t s, n + zlen t)).
Proof.
  revert s n. induction t as [|c t IH]; intros s n Hl [H0 Hc] Hn Hb; cbn [Stdio.put_all]; [by rewrite shows_nil; unfold ret; cbn; rewrite Z.add_0_r|].
  cbn [List.length] in *. unfold bind. unfold vprintf_helper at 1. cbn [fst snd]. rewrite putchar_ok by (done || split; lia). rewrite (wraps_small 32 (n + 1)) by (unfold in_s; lia).
  rewrite IH; [|done|split; cbn; lia|lia|lia]. rewrite shows_cons. do 3 f_equal. lia.
Qed.

Lemma helper_mem c s s' : vprintf_helper c s = Ok (tt, s') -> strings s'.1 = strings s.1.
Proof.
  destruct s as [s n]. unfold vprintf_helper, putchar_have_lock, bind, console_locked_by_current_thread, gets, assert. cbn.
  destruct (_ || _); [|done]. by intros [= <-].
Qed.

Lemma entered_strings s : strings (entered s) = strings s.
Proof. unfold entered. by repeat case_match. Qed.
Lemma entered_count s n : countable (entered s) n <-> countable s n.
Proof. unfold entered. by repeat case_match. Qed.

Lemma reads_ok s p c : strings s !! p = Some c -> Stdio.reads strings (load p) s = Ok (c, s).
Proof. intros E. unfold Stdio.reads. by rewrite (load_eq _ _ _ E). Qed.

Lemma puts_text t : forall fuel p s, locked s -> str_at (strings s) p t -> (length t < fuel)%nat -> countable s (zlen t) ->
  puts_loop fuel p s = Ok (tt, shows t s).
Proof.
  induction t as [|c t IH]; intros [|fuel] p s Hl Hs Hf [H0 Hc]; cbn [length] in Hf; try lia; cbn [puts_loop].
  - rewrite (bind_ok _ _ _ _ _ (reads_ok _ _ _ Hs)). by rewrite shows_nil.
  - destruct Hs as (E&Hr&Hs). rewrite (bind_ok _ _ _ _ _ (reads_ok _ _ _ E)). rewrite (proj2 (Z.eqb_neq c 0)) by lia.
    cbn [length] in Hc. rewrite (bind_ok _ _ _ _ _ (putchar_ok c s Hl ltac:(split; lia))). rewrite IH; [by rewrite shows_cons|done|done|lia|split; cbn; lia].
Qed.

Lemma putbuf_text t : forall p s, locked s -> bytes_at (strings s) p t -> countable s (zlen t) -> putbuf_loop (length t) p s = Ok (tt, shows t s).
Proof.
  induction t as [|c t IH]; intros p s Hl Hs [H0 Hc]; cbn [putbuf_loop length]; [by rewrite shows_nil|].
  destruct Hs as (E&_&Hs). rewrite (bind_ok _ _ _ _ _ (reads_ok _ _ _ E)). cbn [length] in Hc.
  rewrite (bind_ok _ _ _ _ _ (putchar_ok c s Hl ltac:(split; lia))). rewrite IH; [by rewrite shows_cons|done|done|split; cbn; lia].
Qed.

Lemma shows_app t1 t2 s : shows t2 (shows t1 s) = shows (t1 ++ t2) s.
Proof. unfold shows. cbn. rewrite length_app, fmap_app, <- app_assoc. f_equal. lia. Qed.

(** C40. A thread that may print shows exactly the text, counts its
    characters, and leaves the console lock and its depth as they were, be it
    that it did not have the lock or that it already had it; [vprintf] returns
    the length of the text. *)
Theorem console_correct s : may_print s ->
  (forall fmt args t, StdioSpec.text fmt args (strings s) = Ok t -> zlen t < 2 ^ 31 -> countable s (zlen t) -> vprintf fmt args s = Ok (zlen t, shows t s)) /\
  (forall p t, str_at (strings s) p t -> countable s (zlen t + 1) -> puts p s = Ok (0, shows (t ++ [10]) s)) /\
  (forall p t, bytes_at (strings s) p t -> countable s (zlen t) -> putbuf p (zlen t) s = Ok (tt, shows t s)) /\
  (forall c, countable s 1 -> putchar c s = Ok (c, shows [c] s)).
Proof.
  intros Hp. destruct (acquire_ok s Hp) as [Ea Hl]. split_and!.
  - intros fmt args t Ht Hz Hc. unfold vprintf. rewrite (bind_ok _ _ _ _ _ Ea). unfold bind at 1.
    rewrite (StdioSpec.vprintf_text (fun s => strings s.1) vprintf_helper helper_mem fmt args (entered s, 0) t) by (cbn; by rewrite entered_strings).
    rewrite helper_text by (done || (by apply entered_count) || lia). by rewrite (bind_ok _ _ _ _ _ (release_ok s t Hp)).
  - intros p t Hs [H0 Hc]. unfold puts. rewrite (bind_ok _ _ _ _ _ Ea), (bind_ok _ _ _ (fuel_of (strings s)) (entered s)) by (unfold gets; by rewrite entered_strings).
    pose proof (str_at_fuel _ _ _ Hs) as Hf.
    rewrite (bind_ok _ _ _ tt (shows t (entered s))) by (apply puts_text; [done|by rewrite entered_strings|lia|apply entered_count; split; lia]).
    assert (countable (shows t (entered s)) 1) as H1 by (destruct (proj2 (entered_count s (zlen t + 1))); [split; lia|]; split; cbn; lia).
    rewrite (bind_ok _ _ _ _ _ (putchar_ok 10 (shows t (entered s)) Hl H1)), shows_app. by rewrite (bind_ok _ _ _ _ _ (release_ok s _ Hp)).
  - intros p t Hs Hc. unfold putbuf. rewrite (bind_ok _ _ _ _ _ Ea), Nat2Z.id.
    rewrite (bind_ok _ _ _ tt (shows t (entered s))) by (apply putbuf_text; [done|by rewrite entered_strings|by apply entered_count]). by rewrite release_ok.
  - intros c Hc. unfold putchar. rewrite (bind_ok _ _ _ _ _ Ea), (bind_ok _ _ _ _ _ (putchar_ok c (entered s) Hl ltac:(by apply entered_count))).
    by rewrite (bind_ok _ _ _ _ _ (release_ok s _ Hp)).
Qed.

(** A console on which thread 3 printed nothing yet. *)
Definition ex_console : console := Con 3 false true None 0 0 [] (write ∅ 500 (Stdio.chars "ok" ++ [0])).

Lemma console_correct_witness :
  vprintf (Stdio.chars "%s!") [500] ex_console = Ok (3, shows (Stdio.chars "ok!") ex_console) /\ puts 500 ex_console = Ok (0, shows (Stdio.chars "ok" ++ [10]) ex_console).
Proof.
  destruct (console_correct ex_console) as (Hv&Hp&_); [unfold may_print; cbn; tauto|]. split.
  - apply (Hv (Stdio.chars "%s!") [500] (Stdio.chars "ok!")); [by vm_compute|cbn; lia|unfold countable; cbn; lia].
  - apply (Hp 500 (Stdio.chars "ok")); [|unfold countable; cbn; lia]. cbn. split_and!; try lia; done.
Defined.

(** ** Several threads *)

(** The messages a thread has still to print, and the rest of the message it
    is printing. *)
Record printer := Printer { todo : list (list Z); now : option (list Z) }.

Record world := World { con : console; threads : gmap tid printer }.

(** One piece of [vprintf], [puts] or [putbuf], by the thread [t]. *)
Definition piece (p : printer) : option (M console unit * printer) :=
  match now p with
  | None => match todo p with m :: ms => Some (acquire_console, Printer ms (Some m)) | [] => None end
  | Some (c :: r) => Some (putchar_have_lock c, Printer (todo p) (Some r))
  | Some [] => Some (release_console, Printer (todo p) None)
  end.

Inductive step : world -> world -> Prop :=
| step_thread w t p op p' c' : threads w !! t = Some p -> piece p = Some (op, p') ->
    op (switch t (con w)) = Ok (tt, c') -> step w (World c' (<[t := p']> (threads w))).

(** The messages, those begun so far in order, and the threads' parts. *)
Definition by_thread (t : tid) (log : list (tid * list Z)) : list (list Z) := (filter (fun e => e.1 = t) log).*2.

Definition messages (log : list (tid * list Z)) : list Z := concat ((fun e : tid * list Z => u8 <$> e.2) <$> log).

Record wf (msgs : gmap tid (list (list Z))) (w : world) (log : list (tid * list Z)) : Prop := Wf {
  wf_use : use_console_lock (con w) = true;
  wf_intr : in_intr (con w) = false;
  wf_depth : console_lock_depth (con w) = 0;
  wf_begun : forall t, by_thread t log ++ default [] (todo <$> threads w !! t) = default [] (msgs !! t);
  wf_now : forall t p r, threads w !! t = Some p -> now p = Some r -> holder (con w) = Some t;
  wf_holder : match holder (con w) with
    | Some t => exists p r, threads w !! t = Some p /\ now p = Some r /\ shown (con w) ++ (u8 <$> r : list Z) = messages log
    | None => shown (con w) = messages log
    end }.

Lemma by_thread_snoc t u m log : by_thread t (log ++ [(u, m)]) = by_thread t log ++ (if decide (u = t) then [m] else []).
Proof. unfold by_thread. rewrite filter_app, fmap_app. f_equal. rewrite filter_cons, filter_nil. cbn. by case_decide. Qed.

Section threads.
Context (msgs : gmap tid (list (list Z))).

(** What the piece of a thread does: it begins a message, prints, ends, or
    waits for the thread that has the lock. *)
Lemma piece_ok w log t p op p' : wf msgs w log -> threads w !! t = Some p -> piece p = Some (op, p') ->
  (op (switch t (con w)) = Err EBlock /\ exists u, u <> t /\ holder (con w) = Some u) \/
  exists c', op (switch t (con w)) = Ok (tt, c') /\ exists log', wf msgs (World c' (<[t := p']> (threads w))) log'.
Proof.
  intros [Hu Hi Hd Hb Hn Hh] Et Ep. destruct w as [[r i u h d n sh st] ths]. cbn in *. subst u i d.
  destruct p as [ms [[|c rest]|]]; cbn in Ep; [| |destruct ms as [|m ms]; [done|]]; injection Ep as <- <-.
  - right. pose proof (Hn _ _ _ Et eq_refl) as ->. destruct Hh as (p&rs&Et'&Er&Hs). rewrite Et in Et'. injection Et' as <-. cbn in Er. injection Er as <-. rewrite app_nil_r in Hs.
    unfold release_console, bind, get, lock_release, held. cbn. rewrite Z.eqb_refl. eexists. split; [done|]. exists log. split; cbn; try done.
    + intros u. destruct (decide (u = t)) as [->|]; [rewrite lookup_insert_eq; rewrite <- Hb, Et; done|by rewrite lookup_insert_ne].
    + intros u p rs. destruct (decide (u = t)) as [->|]; [rewrite lookup_insert_eq; by intros [= <-]|rewrite lookup_insert_ne by done]. intros E1 E2. pose proof (Hn _ _ _ E1 E2). congruence.
  - right. pose proof (Hn _ _ _ Et eq_refl) as ->. destruct Hh as (p&rs&Et'&Er&Hs). rewrite Et in Et'. injection Et' as <-. cbn in Er. injection Er as <-.
    unfold putchar_have_lock, bind, console_locked_by_current_thread, gets, held. cbn. rewrite Z.eqb_refl. eexists. split; [done|]. exists log. split; cbn; try done.
    + intros u. destruct (decide (u = t)) as [->|]; [rewrite lookup_insert_eq; rewrite <- Hb, Et; done|by rewrite lookup_insert_ne].
    + intros u p rs. destruct (decide (u = t)) as [->|]; [done|rewrite lookup_insert_ne by done]. apply Hn.
    + exists (Printer ms (Some rest)), rest. rewrite lookup_insert_eq. split_and!; [done..|]. by rewrite <- app_assoc.
  - unfold acquire_console, bind, get, lock_acquire, held. cbn. destruct h as [u|].
    { left. destruct (Z.eqb_spec u t) as [->|Hne]; [|cbn; rewrite (proj2 (Z.eqb_neq u t) Hne); by split; [|exists u]]. destruct Hh as (p&rs&Et'&Er&_). by simplify_eq/=. }
    right. eexists. split; [done|]. exists (log ++ [(t, m)]). split; cbn; try done.
    + intros u. rewrite by_thread_snoc, <- app_assoc, <- Hb. destruct (decide (t = u)) as [->|]; [by rewrite lookup_insert_eq, Et|by rewrite lookup_insert_ne].
    + intros u p rs. destruct (decide (u = t)) as [->|]; [done|rewrite lookup_insert_ne by done]. intros E1 E2. pose proof (Hn _ _ _ E1 E2). congruence.
    + exists (Printer ms (Some m)), m. rewrite lookup_insert_eq. split_and!; [done..|]. unfold messages. rewrite fmap_app, concat_app. cbn. by rewrite app_nil_r, Hh.
Qed.

Lemma step_wf w w' log : wf msgs w log -> step w w' -> exists log', wf msgs w' log'.
Proof.
  intros Hw Hs. destruct Hs as [w t p op p' c' Et Ep Eo]. destruct (piece_ok _ _ _ _ _ _ Hw Et Ep) as [[E _]|(c1&E&Hl)]; rewrite Eo in E; [done|]. by injection E as ->.
Qed.

(** Boot: nothing is printed, nobody prints. *)
Definition start (c : console) : world := World c ((fun ms => Printer ms None) <$> msgs).
Definition fresh (c : console) : Prop := use_console_lock c = true /\ in_intr c = false /\ console_lock_depth c = 0 /\ holder c = None /\ shown c = [].

Lemma start_wf c : fresh c -> wf msgs (start c) [].
Proof.
  intros (Hu&Hi&Hd&Hh&Hs). split; cbn; try done.
  - intros t. rewrite lookup_fmap. by destruct (msgs !! t).
  - intros t p r. rewrite lookup_fmap. by intros (ms&_&->)%fmap_Some.
  - by rewrite Hh.
Qed.

Lemma reach_wf c w : fresh c -> rtc step (start c) w -> exists log, wf msgs w log.
Proof.
  intros Hf Hr. apply start_wf in Hf. revert Hf. generalize (@nil (tid * list Z)). induction Hr as [|w1 w2 w3 Hs _ IH]; intros log Hw; [eauto|].
  destruct (step_wf _ _ _ Hw Hs) as [log' Hw']. eauto.
Qed.

(** C22. However threads that print are interleaved, the console shows whole
    messages one after the other, the last one perhaps in part, and the
    messages of each thread in its order; no assertion of the console or of
    its lock fails; and as long as a thread has something to print, some
    thread can go on. *)
Theorem messages_do_not_mix c w : fresh c -> rtc step (start c) w ->
  (exists log rest, shown (con w) ++ rest = messages log /\ (holder (con w) = None -> rest = []) /\
     forall t, by_thread t log ++ default [] (todo <$> threads w !! t) = default [] (msgs !! t)) /\
  (forall t p op p', threads w !! t = Some p -> piece p = Some (op, p') ->
     (exists c', op (switch t (con w)) = Ok (tt, c')) \/ (op (switch t (con w)) = Err EBlock /\ exists u, u <> t /\ holder (con w) = Some u)) /\
  (forall t p, threads w !! t = Some p -> p <> Printer [] None -> exists w', step w w').
Proof.
  intros Hf Hr. destruct (reach_wf _ _ Hf Hr) as [log Hw]. split_and!.
  - destruct (holder (con w)) as [t|] eqn:Eh; pose proof (wf_holder _ _ _ Hw) as Hh; rewrite Eh in Hh.
    + destruct Hh as (p&r&_&_&E). exists log, (u8 <$> r). split_and!; [done|done|apply Hw].
    + exists log, []. rewrite app_nil_r. split_and!; [done|done|apply Hw].
  - intros t p op p' Et Ep. destruct (piece_ok _ _ _ _ _ _ Hw Et Ep) as [?|(c'&E&_)]; [by right|left; eauto].
  - intros t p Et Hp. assert (exists u q op q' c', threads w !! u = Some q /\ piece q = Some (op, q') /\ op (switch u (con w)) = Ok (tt, c')) as (u&q&op&q'&c'&E1&E2&E3).
    { assert (exists u q op q', threads w !! u = Some q /\ piece q = Some (op, q') /\ (forall v, holder (con w) = Some v -> v = u)) as (u&q&op&q'&E1&E2&E3).
      - pose proof (wf_holder _ _ _ Hw) as Hh. destruct (holder (con w)) as [v|].
        + destruct Hh as (q&r&Eq&En&_). destruct q as [ms [[|x rs]|]]; cbn in En; [| |done]; do 4 eexists; split_and!; [exact Eq|done| |exact Eq|done|]; by intros ? [= ->].
        + destruct p as [[|m ms] [[|x rs]|]]; try done; do 4 eexists; (split_and!; [exact Et|done|done]).
      - destruct (piece_ok _ _ _ _ _ _ Hw E1 E2) as [(_&v&Hv&Hh)|(c'&E&_)]; [by destruct (Hv (E3 _ Hh))|]. by exists u, q, op, q', c'. }
    eexists. by eapply step_thread.
Qed.
End threads.

(** Two threads, with two and one messages; thread 1 has begun to print. *)
Definition ex_msgs : gmap tid (list (list Z)) := {[ 1 := [Stdio.chars "ab"; Stdio.chars "c"]; 2 := [Stdio.chars "xyz"] ]}.
Definition ex_fresh : console := Con 1 false true None 0 0 [] ∅.
Definition ex_world : world :=
  World (Con 1 false true (Some 1) 0 1 (Stdio.chars "a") ∅)
    (<[1 := Printer [Stdio.chars "c"] (Some (Stdio.chars "b"))]> (<[1 := Printer [Stdio.chars "c"] (Some (Stdio.chars "ab"))]> (threads (start ex_msgs ex_fresh)))).

Lemma messages_do_not_mix_witness :
  rtc step (start ex_msgs ex_fresh) ex_world /\
  (exists log rest, shown (con ex_world) ++ rest = messages log /\ (holder (con ex_world) = None -> rest = []) /\
     forall t, by_thread t log ++ default [] (todo <$> threads ex_world !! t) = default [] (ex_msgs !! t)) /\ exists w', step ex_world w'.
Proof.
  assert (rtc step (start ex_msgs ex_fresh) ex_world) as Hr.
  { eapply rtc_l; [eapply (step_thread _ 1); [done|done|done]|]. eapply rtc_l; [eapply (step_thread _ 1); [done|done|done]|]. apply rtc_refl. }
  destruct (messages_do_not_mix ex_msgs ex_fresh ex_world) as (H1&_&H2); [done|done|]. split_and!; [done|done|].
  by apply (H2 2 (Printer [Stdio.chars "xyz"] None)).
Defined.
End Console.
