(* ===== verification/Partition.v ===== *)
(** * Partition tables: devices/partition.c

    [partition_scan] reads the partition table of a device and registers a
    block device for every partition in it. *)

From Stdlib Require Import String Ascii.
From S2P Require Import Prelude.
From S2P Require Import Mem.
From S2P Require Import CString.
From S2P Require Import Words.
From S2P Require Import Device.
From S2P Require Import Block.
From S2P Require Import Stdio.
From S2P Require Import StdioSpec.
Local Open Scope Z_scope.

Module Partition.
Import Mem Block.

(** ** The code *)

(** [struct partition_table_entry]: the fields the code reads, little endian,
    of the 16 bytes of an entry. *)
Record partition_table_entry := Entry { type : Z; offset : Z; size : Z }.
Definition entry (bs : list Z) : partition_table_entry :=
  Entry (nth 4 bs 0) (Words.le (take 4 (drop 8 bs))) (Words.le (take 4 (drop 12 bs))).

(** [struct partition_table]: 446 bytes of code, four entries, a signature. *)
Definition partitions (pt : list Z) : list partition_table_entry :=
  (fun i => entry (take 16 (drop (446 + 16 * i) pt))) <$> seq 0 4.
Definition signature (pt : list Z) : Z := Words.le (take 2 (drop 510 pt)).

Definition type_names : list (Z * string) :=
  [ (0x00, "Empty"); (0x01, "FAT12"); (0x02, "XENIX root");
    (0x03, "XENIX usr"); (0x04, "FAT16 <32M"); (0x05, "Extended");
    (0x06, "FAT16"); (0x07, "HPFS/NTFS"); (0x08, "AIX");
    (0x09, "AIX bootable"); (0x0a, "OS/2 Boot Manager"); (0x0b, "W95 FAT32");
    (0x0c, "W95 FAT32 (LBA)"); (0x0e, "W95 FAT16 (LBA)"); (0x0f, "W95 Ext'd (LBA)");
    (0x10, "OPUS"); (0x11, "Hidden FAT12"); (0x12, "Compaq diagnostics");
    (0x14, "Hidden FAT16 <32M"); (0x16, "Hidden FAT16"); (0x17, "Hidden HPFS/NTFS");
    (0x18, "AST SmartSleep"); (0x1b, "Hidden W95 FAT32"); (0x1c, "Hidden W95 FAT32 (LBA)");
    (0x1e, "Hidden W95 FAT16 (LBA)"); (0x20, "Pintos OS kernel"); (0x21, "Pintos file system");
    (0x22, "Pintos scratch"); (0x23, "Pintos swap"); (0x24, "NEC DOS");
    (0x39, "Plan 9"); (0x3c, "PartitionMagic recovery"); (0x40, "Venix 80286");
    (0x41, "PPC PReP Boot"); (0x42, "SFS"); (0x4d, "QNX4.x");
    (0x4e, "QNX4.x 2nd part"); (0x4f, "QNX4.x 3rd part"); (0x50, "OnTrack DM");
    (0x51, "OnTrack DM6 Aux1"); (0x52, "CP/M"); (0x53, "OnTrack DM6 Aux3");
    (0x54, "OnTrackDM6"); (0x55, "EZ-Drive"); (0x56, "Golden Bow");
    (0x5c, "Priam Edisk"); (0x61, "SpeedStor"); (0x63, "GNU HURD or SysV");
    (0x64, "Novell Netware 286"); (0x65, "Novell Netware 386"); (0x70, "DiskSecure Multi-Boot");
    (0x75, "PC/IX"); (0x80, "Old Minix"); (0x81, "Minix / old Linux");
    (0x82, "Linux swap / Solaris"); (0x83, "Linux"); (0x84, "OS/2 hidden C: drive");
    (0x85, "Linux extended"); (0x86, "NTFS volume set"); (0x87, "NTFS volume set");
    (0x88, "Linux plaintext"); (0x8e, "Linux LVM"); (0x93, "Amoeba");
    (0x94, "Amoeba BBT"); (0x9f, "BSD/OS"); (0xa0, "IBM Thinkpad hibernation");
    (0xa5, "FreeBSD"); (0xa6, "OpenBSD"); (0xa7, "NeXTSTEP");
    (0xa8, "Darwin UFS"); (0xa9, "NetBSD"); (0xab, "Darwin boot");
    (0xb7, "BSDI fs"); (0xb8, "BSDI swap"); (0xbb, "Boot Wizard hidden");
    (0xbe, "Solaris boot"); (0xbf, "Solaris"); (0xc1, "DRDOS/sec (FAT-12)");
    (0xc4, "DRDOS/sec (FAT-16 < 32M)"); (0xc6, "DRDOS/sec (FAT-16)"); (0xc7, "Syrinx");
    (0xda, "Non-FS data"); (0xdb, "CP/M / CTOS / ..."); (0xde, "Dell Utility");
    (0xdf, "BootIt"); (0xe1, "DOS access"); (0xe3, "DOS R/O");
    (0xe4, "SpeedStor"); (0xeb, "BeOS fs"); (0xee, "EFI GPT");
    (0xef, "EFI (FAT-12/16/32)"); (0xf0, "Linux/PA-RISC boot"); (0xf1, "SpeedStor");
    (0xf4, "SpeedStor"); (0xf2, "DOS secondary"); (0xfd, "Linux raid autodetect");
    (0xfe, "LANstep"); (0xff, "BBT") ]%string.
Definition partition_type_name (type : Z) : string :=
  match list_find (fun e => e.1 = type) type_names with Some (_, e) => e.2 | None => "Unknown"%string end.

(** What [snprintf] leaves in an array of [n] characters, when [strs] holds the
    strings among the arguments: the text, as far as it fits. *)
Definition snprintf (n : nat) (fmt : string) (args : list Z) (strs : mem) : res (list Z) :=
  match StdioSpec.text (Stdio.chars fmt) args strs with Ok t => Ok (take (n - 1) t) | Err e => Err e end.

Section code.
(** Where [malloc] finds room for the next block device, or [NULL]. *)
Context (malloc : state -> ptr).

Definition block_type_of (part_type : Z) : Z :=
  if part_type =? 0x20 then BLOCK_KERNEL else if part_type =? 0x21 then BLOCK_FILESYS
  else if part_type =? 0x22 then BLOCK_SCRATCH else if part_type =? 0x23 then BLOCK_SWAP else BLOCK_FOREIGN.

(** The messages, in which [extra_info] appears, are not modelled. *)
Definition found_partition (b : ptr) (part_type start size part_nr : Z) : M state unit :=
  let! bsize := block_size b in
  if bsize <=? start then ret tt
  else if (u32 (start + size) <? start) || (bsize <? u32 (start + size)) then ret tt
  else
    let! p := gets malloc in
    if p =? NULL then fail EPanic else
    let! bname := block_name b in
    let! name := lift_res (snprintf 16 "%s%d" [1; part_nr] (Stdio.at_one bname)) in
    let! extra_info := lift_res (snprintf 128 "%s (%02x)" [1; part_type] (Stdio.at_one (Stdio.chars (partition_type_name part_type)))) in
    do! block_register p name (block_type_of part_type) size (Block.Partition b start) in
    ret tt.

Definition is_extended (t : Z) : bool := (t =? 0x05) || (t =? 0x0f) || (t =? 0x85) || (t =? 0xc5).

(** The loop over the entries; [read] reads the table of an extended
    partition.  The result is the new [*part_nr]. *)
Fixpoint entries_loop (read : Z -> Z -> Z -> M state Z) (b : ptr) (sector primary part_nr : Z) (es : list partition_table_entry) : M state Z :=
  match es with
  | [] => ret part_nr
  | e :: es' =>
      let! nr :=
        if (size e =? 0) || (type e =? 0) then ret part_nr
        else if is_extended (type e) then
          if sector =? 0 then read (offset e) (offset e) part_nr
          else read (u32 (offset e + primary)) primary part_nr
        else
          let nr := s32 (part_nr + 1) in
          do! found_partition b (type e) (u32 (offset e + sector)) (size e) nr in
          ret nr in
      entries_loop read b sector primary nr es'
  end.

(** The code reads sector 0 whatever [sector] is. *)
Fixpoint read_partition_table (fuel : nat) (b : ptr) (sector primary part_nr : Z) : M state Z :=
  match fuel with
  | O => fail EFuel
  | S fuel' =>
      let! bsize := block_size b in
      if bsize <=? sector then ret part_nr else
      let! p := gets malloc in
      if p =? NULL then fail EPanic else
      let! pt := block_read b 0 in
      if negb (signature pt =? 0xaa55) then ret part_nr
      else entries_loop (read_partition_table fuel' b) b sector primary part_nr (partitions pt)
  end.

Definition partition_scan (fuel : nat) (b : ptr) : M state unit :=
  do! read_partition_table fuel b 0 0 0 in ret tt.
End code.

(** ** Names *)

(** The name of a device, as the string at address 1. *)
Definition name_ok (nm : list Z) : Prop := Forall (fun c => 0 < c < 256) nm /\ (length nm <= 15)%nat.

Lemma name_text nm nr : name_ok nm -> 0 <= nr <= 9 -> snprintf 16 "%s%d" [1; nr] (Stdio.at_one nm) = Ok (take 15 (nm ++ [48 + nr])).
Proof.
  intros [Hn Hl] Hr. destruct (StdioSpec.at_one_ok nm Hn ltac:(lia)) as [Hm Hs]. unfold snprintf. change (Stdio.chars "%s%d") with (37 :: 115 :: Stdio.chars "%d").
  rewrite (StdioSpec.text_s _ 1 nm _ [nr] [48 + nr]); [done|done|done|lia|].
  destruct (decide (nr ∈ seqZ 0 10)) as [Hi|Hi]; [|rewrite elem_of_seqZ in Hi; lia]. cbn in Hi. clear -Hi.
  repeat (apply elem_of_cons in Hi as [->|Hi]; [reflexivity|]). by apply elem_of_nil in Hi.
Qed.

(** The information about a partition fits into its 128 characters. *)
Lemma extra_text ty : in_u 8 ty -> exists l, snprintf 128 "%s (%02x)" [1; ty] (Stdio.at_one (Stdio.chars (partition_type_name ty))) = Ok l /\
  StdioSpec.text (Stdio.chars "%s (%02x)") [1; ty] (Stdio.at_one (Stdio.chars (partition_type_name ty))) = Ok l.
Proof.
  intros Ht. set (f ty := match StdioSpec.text (Stdio.chars "%s (%02x)") [1; ty] (Stdio.at_one (Stdio.chars (partition_type_name ty))) with Ok l => (length l <=? 127)%nat | Err _ => false end).
  assert (forallb f (seqZ 0 256) = true) as Hf by (vm_compute; reflexivity). rewrite forallb_forall in Hf. specialize (Hf ty ltac:(apply list_elem_of_In, elem_of_seqZ; unfold in_u in Ht; lia)).
  unfold f in Hf. unfold snprintf. destruct (StdioSpec.text _ _ _) as [l|]; [|done]. exists l. split; [|done]. rewrite take_ge; [done|]. apply Nat.leb_le in Hf. lia.
Qed.

(** ** What a scan finds *)

(** An entry that is not empty. *)
Definition used (e : partition_table_entry) : bool := negb ((size e =? 0) || (type e =? 0)).

(** The used entries from number [nr + 1] on that lie within [n] sectors. *)
Fixpoint listed (n nr : Z) (es : list partition_table_entry) : list (Z * partition_table_entry) :=
  match es with
  | [] => []
  | e :: es' => if used e then (if (offset e <? n) && (offset e + size e <=? n) then [(nr + 1, e)] else []) ++ listed n (nr + 1) es' else listed n nr es'
  end.

Definition entry_ok (e : partition_table_entry) : Prop := in_u 8 (type e) /\ in_u 32 (offset e) /\ in_u 32 (size e).

Lemma entry_range bs : Forall (in_u 8) bs -> entry_ok (entry bs).
Proof.
  intros Hb. assert (forall k, in_u 32 (Words.le (take 4 (drop k bs)))) as Hw.
  { intros k. pose proof (Words.le_range (take 4 (drop k bs)) ltac:(by apply Forall_take, Forall_drop)) as H. rewrite length_take in H. unfold in_u.
    assert (2 ^ (8 * Z.of_nat (4 `min` length (drop k bs))) <= 2 ^ 32) by (apply Z.pow_le_mono_r; lia). lia. }
  split_and!; [|apply Hw..]. unfold entry. cbn [type]. destruct (decide (4 < length bs)%nat) as [Hl|Hl].
  - rewrite Forall_forall in Hb. apply Hb. apply list_elem_of_In, nth_In. lia.
  - rewrite nth_overflow by lia. unfold in_u. lia.
Qed.

Lemma partitions_ok pt : Device.sector_ok pt -> Forall entry_ok (partitions pt).
Proof.
  intros [_ Hb]. unfold partitions. rewrite Forall_fmap. apply Forall_forall. intros i _. apply entry_range. by apply Forall_take, Forall_drop.
Qed.

(** Reading a sector changes no name. *)
Definition names (s : state) : gmap ptr (list Z) := name <$> blocks s.

Lemma upd_names b f s s' : (forall blk, name (f blk) = name blk) -> upd b f s = Ok (tt, s') -> names s' = names s.
Proof.
  intros Hf. unfold upd, bind, deref, modify, names. destruct (blocks s !! b) as [blk|] eqn:E; [|done]. intros [= <-]. cbn. rewrite fmap_insert, Hf.
  apply insert_id. by rewrite lookup_fmap, E.
Qed.

Lemma read_names fuel b n s r s' : read fuel b n s = Ok (r, s') -> names s' = names s.
Proof.
  revert b n s r s'. induction fuel as [|fuel IH]; intros b n s r s'; [done|]. cbn [read]. unfold bind at 1.
  destruct (check_sector b n s) as [[[] s0]|] eqn:Ec; [|done]. assert (s0 = s) as ->.
  { revert Ec. unfold check_sector, bind, deref. destruct (blocks s !! b); [|done]. case_match; [done|]. by intros [= <-]. }
  unfold bind at 1, deref at 1. destruct (blocks s !! b) as [blk|]; [|done]. unfold bind at 1.
  match goal with |- context [match ?m s with Ok _ => _ | Err _ => _ end] => destruct (m s) as [[bs s1]|] eqn:Er; [|done] end.
  assert (names s1 = names s) as E1. { destruct (ops blk) as [m|q st]; [|by eapply IH]. unfold lift_res in Er. destruct (m !! n); [|done]. by injection Er as _ <-. }
  unfold bind. destruct (upd b _ s1) as [[[] s2]|] eqn:Eu; [|done]. intros [= _ <-]. rewrite <- E1. by eapply upd_names; [|exact Eu].
Qed.

(** [s'] has the devices of [s] and the new ones [ps], the partitions [l] of [b]. *)
Record extends (b : ptr) (nm : list Z) (l : list (Z * partition_table_entry)) (s s' : state) (ps : list ptr) : Prop := Extends {
  ex_wf : wf s';
  ex_all : all_blocks s' = all_blocks s ++ ps;
  ex_new : Forall2 (fun p e => blocks s' !! p = Some (Blk (take 15 (nm ++ [48 + e.1])) (block_type_of (type e.2)) (size e.2) (Block.Partition b (offset e.2)) 0 0)) ps l;
  ex_old : forall q blk, blocks s !! q = Some blk -> blocks s' !! q = Some blk }.

Section scan.
Context (malloc : state -> ptr) (Hmalloc : forall s, malloc s <> NULL /\ blocks s !! malloc s = None).
Context (b : ptr) (blk : block).

Lemma view_blocks s q x : blocks s !! q = Some x -> view s !! q = Some (Block.type x, Block.size x, ops x).
Proof. intros E. unfold view. by rewrite lookup_fmap, E. Qed.

Lemma found_ok s e nr : wf s -> blocks s !! b = Some blk -> name_ok (name blk) -> entry_ok e -> 0 <= nr <= 9 ->
  wp (found_partition malloc b (type e) (offset e) (size e) nr)
    (fun _ s' => exists ps, extends b (name blk) (if (offset e <? Block.size blk) && (offset e + size e <=? Block.size blk) then [(nr, e)] else []) s s' ps) s.
Proof.
  intros Hw Hb Hn (Ht&Ho&Hs) Hr. pose proof (wf_size _ Hw _ _ _ _ (view_blocks _ _ _ Hb)) as Hz. unfold in_u in *.
  assert (exists ps, extends b (name blk) [] s s ps) as Hnone by (exists []; split; [done|by rewrite app_nil_r|done|done]).
  unfold found_partition. apply wp_bind. unfold block_size. apply wp_bind. unfold wp at 1, deref. rewrite Hb. apply wp_ret.
  destruct (Z.leb_spec (Block.size blk) (offset e)); [rewrite (proj2 (Z.ltb_ge (offset e) _)) by lia; by apply wp_ret|].
  rewrite (proj2 (Z.ltb_lt (offset e) _)) by lia. cbn [andb].
  destruct (Z.leb_spec (offset e + size e) (Block.size blk)) as [Hle|Hgt].
  2: { rewrite (proj2 (orb_true_iff _ _)); [by apply wp_ret|]. destruct (decide (offset e + size e < 2 ^ 32)).
       - right. rewrite wrapu_small by (unfold in_u; lia). lia.
       - left. apply Z.ltb_lt. unfold wrapu. zlia. }
  rewrite wrapu_small by (unfold in_u; lia). rewrite (proj2 (Z.ltb_ge (offset e + size e) (offset e))), (proj2 (Z.ltb_ge (Block.size blk) _)) by lia. cbn [orb].
  apply wp_bind, wp_gets. destruct (Hmalloc s) as [Hm0 Hm1]. rewrite (proj2 (Z.eqb_neq _ _) Hm0). apply wp_bind. unfold block_name. apply wp_bind.
  unfold wp at 1, deref. rewrite Hb. apply wp_ret. apply wp_bind, wp_lift. rewrite name_text by done. eexists. split; [done|].
  apply wp_bind, wp_lift. destruct (extra_text (type e) Ht) as (l&->&_). eexists. split; [done|]. apply wp_bind.
  eapply wp_mono; [eapply wp_and; [apply block_register_ok; [done|done|unfold view; by rewrite lookup_fmap, Hm1|unfold in_u in *; lia|]|]|].
  - exists (Block.type blk), (Block.size blk), (ops blk). split; [by apply view_blocks|lia].
  - instantiate (1 := fun _ s' => s' = St (<[malloc s := Blk (take 15 (take 15 (name blk ++ [48 + nr]))) (block_type_of (type e)) (size e) (Block.Partition b (offset e)) 0 0]> (blocks s)) (all_blocks s ++ [malloc s]) (block_by_role s)).
    unfold block_register. by rewrite (proj2 (Z.eqb_neq _ _) Hm0).
  - intros r s' [(_&Hw'&_&_) ->]. apply wp_ret. exists [malloc s]. split; [done|done| |].
    + constructor; [|constructor]. cbn. rewrite take_take, Nat.min_id. apply lookup_insert_eq.
    + intros q x Hq. cbn. rewrite lookup_insert_ne; [done|]. congruence.
Qed.

Lemma extends_trans nm l1 l2 s s1 s2 ps1 ps2 : extends b nm l1 s s1 ps1 -> extends b nm l2 s1 s2 ps2 -> extends b nm (l1 ++ l2) s s2 (ps1 ++ ps2).
Proof.
  intros [_ A1 N1 O1] [W2 A2 N2 O2]. split; [done|by rewrite A2, A1, app_assoc| |by eauto].
  apply Forall2_app; [|done]. eapply Forall2_impl; [exact N1|]. intros p e. cbn. apply O2.
Qed.

Lemma entries_ok rd primary es : forall s nr, wf s -> blocks s !! b = Some blk -> name_ok (name blk) -> Forall entry_ok es ->
  Forall (fun e => used e = true -> is_extended (type e) = false) es -> 0 <= nr -> nr + zlen es <= 9 ->
  wp (entries_loop malloc rd b 0 primary nr es) (fun _ s' => exists ps, extends b (name blk) (listed (Block.size blk) nr es) s s' ps) s.
Proof.
  induction es as [|e es IH]; intros s nr Hw Hb Hn He Hx H0 Hr; cbn [entries_loop listed length] in *.
  { apply wp_ret. exists []. split; [done|by rewrite app_nil_r|done|done]. }
  apply Forall_cons in He as [He Hes]. apply Forall_cons in Hx as [Hxe Hxs]. apply wp_bind. unfold used in *. destruct ((size e =? 0) || (type e =? 0)); cbn [negb] in *.
  - apply wp_ret, IH; try done. lia.
  - rewrite (Hxe eq_refl). rewrite wraps_small by (unfold in_s; lia). rewrite Z.add_0_r, (wrapu_small 32 (offset e)) by apply He. apply wp_bind.
    eapply wp_mono; [apply (found_ok s e (nr + 1)); try done; lia|]. intros _ s1 [ps1 E1]. apply wp_ret.
    eapply wp_mono; [apply IH; try done; [apply E1|by apply E1|lia|lia]|]. intros _ s2 [ps2 E2]. exists (ps1 ++ ps2). by eapply extends_trans.
Qed.
End scan.

(** C24. Scanning a device whose table has no extended partitions registers,
    in the order of the table, a block device for every used entry that lies
    within the device, and no other: with the type of the entry, its size, its
    place on the device and the name of the device followed by the number of
    the entry among the used ones.  The table of devices stays well formed, so
    that accesses to a partition never leave it, and the devices there were are
    untouched. *)
Theorem partition_scan_correct malloc fuel s b blk pt :
  (forall s, malloc s <> NULL /\ blocks s !! malloc s = None) -> wf s -> blocks s !! b = Some blk -> name_ok (name blk) ->
  contents b s !! 0 = Some pt -> Forall (fun e => used e = true -> is_extended (type e) = false) (partitions pt) ->
  wp (partition_scan malloc (S fuel) b) (fun _ s' => wf s' /\ (forall q, q ∈ all_blocks s -> view s' !! q = view s !! q) /\
    exists ps, all_blocks s' = all_blocks s ++ ps /\
      Forall2 (fun p e => blocks s' !! p = Some (Blk (take 15 (name blk ++ [48 + e.1])) (block_type_of (type e.2)) (size e.2) (Block.Partition b (offset e.2)) 0 0))
        ps (if signature pt =? 0xaa55 then listed (Block.size blk) 0 (partitions pt) else [])) s.
Proof.
  intros Hm Hw Hb Hn Hc Hx. pose proof (view_blocks _ _ _ Hb) as Hv. unfold partition_scan. apply wp_bind. cbn [read_partition_table].
  apply wp_bind. unfold block_size. apply wp_bind. unfold wp at 1, deref. rewrite Hb. apply wp_ret.
  pose proof (proj1 (contents_dom _ _ _ _ _ 0 Hw Hv) ltac:(eauto)) as Hz. rewrite (proj2 (Z.leb_gt _ _)) by lia.
  apply wp_bind, wp_gets. rewrite (proj2 (Z.eqb_neq _ _) (proj1 (Hm s))). apply wp_bind.
  eapply wp_mono; [eapply wp_and; [by eapply block_read_eq|]|].
  { instantiate (1 := fun _ s' => names s' = names s). pose proof (block_read_eq _ _ _ _ _ _ _ Hw Hv Hc) as H. unfold wp in *.
    destruct (block_read b 0 s) as [[r s']|] eqn:E; [|done]. by eapply read_names. }
  intros r s1 [[-> Hs] En]. pose proof (wf_same _ _ Hs Hw) as Hw1. destruct Hs as (Ev&Ea&_).
  destruct (view_lookup s1 b (Block.type blk) (Block.size blk) (ops blk)) as (nm&rc&wc&Hb1); [by rewrite Ev|].
  assert (nm = name blk) as -> by (assert (names s1 !! b = names s !! b) as E by (by rewrite En); unfold names in E; rewrite !lookup_fmap, Hb1, Hb in E; by injection E).
  assert (forall l s' ps, extends b (name blk) l s1 s' ps -> forall q, q ∈ all_blocks s -> view s' !! q = view s !! q) as Hold.
  { intros l s' ps He q Hq. apply (wf_dom _ Hw) in Hq. rewrite <- Ev in Hq |- *. unfold view in *. rewrite lookup_fmap in Hq. destruct Hq as [v Hq].
    destruct (blocks s1 !! q) as [x|] eqn:Eq; [|done]. rewrite !lookup_fmap, Eq. by rewrite (ex_old _ _ _ _ _ _ He _ _ Eq). }
  destruct (signature pt =? 0xaa55); cbn [negb].
  - eapply wp_mono; [apply (entries_ok malloc Hm b (Blk (name blk) (Block.type blk) (Block.size blk) (ops blk) rc wc) _ _ _ s1 0 Hw1 Hb1 Hn)|].
    + apply partitions_ok. exact (contents_ok _ _ _ _ _ _ _ Hw Hv Hc).
    + done.
    + done.
    + done.
    + cbn [name Block.size]. intros nr s2 [ps He]. apply wp_ret. split; [apply He|]. split; [by eapply Hold|]. exists ps. rewrite <- Ea. split; apply He.
  - do 2 apply wp_ret. split; [done|]. split; [by intros; rewrite Ev|]. exists []. rewrite app_nil_r. by split.
Qed.

(** A device "hda" of eight sectors, with a file system in two of them and an
    entry that leads past the end. *)
Definition ex_entry (type offset size : Z) : list Z := [0; 0; 0; 0; type; 0; 0; 0] ++ Words.le32 offset ++ Words.le32 size.
Definition ex_table (e1 e2 : list Z) : list Z := replicate 446 0 ++ e1 ++ e2 ++ replicate 32 0 ++ [0x55; 0xaa].
Definition ex_disk (pt : list Z) : gmap Z (list Z) := <[0 := pt]> (gset_to_gmap (replicate 512 0) (list_to_set (seqZ 0 8))).
Definition ex_state (pt : list Z) : state := St {[1 := Blk (Stdio.chars "hda") BLOCK_RAW 8 (Disk (ex_disk pt)) 0 0]} [1] [0; 0; 0; 0].
Definition ex_pt : list Z := ex_table (ex_entry 0x21 1 2) (ex_entry 0x83 3 6).
Definition ex_malloc (s : state) : ptr := fresh (dom (blocks s) ∪ {[NULL]}).

Lemma ex_malloc_ok s : ex_malloc s <> NULL /\ blocks s !! ex_malloc s = None.
Proof.
  pose proof (is_fresh (dom (blocks s) ∪ {[NULL]})) as Hf. unfold ex_malloc. set (x := fresh _) in *. clearbody x. apply not_elem_of_union in Hf as [H1 H2]. split.
  - intros ->. apply H2. by apply elem_of_singleton.
  - by apply not_elem_of_dom.
Qed.

Lemma ex_state_wf pt : Device.sector_ok pt -> wf (ex_state pt).
Proof.
  intros Hp. pose proof (empty_wf [0; 0; 0; 0]) as [H0 E0].
  assert (wp (block_register 1 (Stdio.chars "hda") BLOCK_RAW 8 (Disk (ex_disk pt))) (fun r s' => r = 1 /\ wf s' /\
    view s' = <[1 := (BLOCK_RAW, 8, Disk (ex_disk pt))]> (view (St ∅ [] [0; 0; 0; 0])) /\ all_blocks s' = [] ++ [1]) (St ∅ [] [0; 0; 0; 0])) as (_&Hw&_); [|exact Hw].
  apply block_register_ok; [done|done|by rewrite E0|lia|]. split.
  - intros n. unfold ex_disk. rewrite lookup_insert_is_Some'. rewrite <- elem_of_dom, dom_gset_to_gmap, elem_of_list_to_set, elem_of_seqZ. lia.
  - apply map_Forall_insert_2; [done|]. intros n bs [_ <-]%lookup_gset_to_gmap_Some. apply zeros_ok.
Qed.

Lemma partition_scan_correct_witness :
  wp (partition_scan ex_malloc 1 1) (fun _ s' => wf s' /\ exists p, all_blocks s' = [1; p] /\
    blocks s' !! p = Some (Blk (Stdio.chars "hda1") BLOCK_FILESYS 2 (Block.Partition 1 1) 0 0)) (ex_state ex_pt).
Proof.
  eapply wp_mono.
  - apply (partition_scan_correct ex_malloc 0 (ex_state ex_pt) 1 (Blk (Stdio.chars "hda") BLOCK_RAW 8 (Disk (ex_disk ex_pt)) 0 0) ex_pt ex_malloc_ok).
    + apply ex_state_wf. apply (bool_decide_unpack _). vm_compute. exact I.
    + done.
    + split; [repeat constructor; cbn; lia|cbn; lia].
    + vm_compute. reflexivity.
    + repeat constructor; cbn; done.
  - cbv beta. intros _ s' (Hw&_&ps&Ea&Hps). split; [done|]. change (if signature ex_pt =? 43605 then _ else _) with [(1, Entry 0x21 1 2)] in Hps.
    destruct ps as [|p ps]; [by inversion Hps|]. apply Forall2_cons in Hps as [Hp Hnil]. apply Forall2_nil_inv_r in Hnil as ->. by exists p.
Defined.

(** ** Extended partitions *)

(** Because sector 0 is read again for the table of an extended partition, a
    table that begins with an extended partition not near the end of the
    device is scanned for ever. *)
Lemma extended_diverges malloc s b blk pt e es : (forall s, malloc s <> NULL) -> wf s -> blocks s !! b = Some blk ->
  contents b s !! 0 = Some pt -> signature pt = 0xaa55 -> partitions pt = e :: es -> used e = true -> is_extended (type e) = true ->
  offset e < Block.size blk -> u32 (offset e + offset e) < Block.size blk ->
  forall fuel, partition_scan malloc fuel b s = Err EFuel.
Proof.
  intros Hm Hw Hb Hc Hsig Hp Hu Hx H1 H2 fuel.
  enough (forall s sector primary nr, wf s -> view s !! b = Some (Block.type blk, Block.size blk, ops blk) -> contents b s !! 0 = Some pt ->
    (sector = 0 \/ primary = offset e /\ (sector = offset e \/ sector = u32 (offset e + offset e))) -> read_partition_table malloc fuel b sector primary nr s = Err EFuel) as H.
  { unfold partition_scan, bind. rewrite (H s 0 0 0); [done|done|by apply view_blocks|done|by left]. }
  clear s Hw Hb Hc. induction fuel as [|fuel IH]; intros s sector primary nr Hw Hv Hc Hs; [done|]. cbn [read_partition_table].
  pose proof (proj1 (contents_dom _ _ _ _ _ 0 Hw Hv) ltac:(eauto)) as Hz. destruct (view_lookup _ _ _ _ _ Hv) as (nm&rc&wc&Hb).
  rewrite (bind_ok _ _ _ (Block.size blk) s) by (unfold block_size, bind, deref; by rewrite Hb).
  rewrite (proj2 (Z.leb_gt _ _)) by (destruct Hs as [->|[_ [->| ->]]]; lia). rewrite (bind_ok _ _ _ (malloc s) s) by done. rewrite (proj2 (Z.eqb_neq _ _) (Hm s)).
  pose proof (block_read_eq _ _ _ _ _ _ _ Hw Hv Hc) as Hr. apply wp_ok in Hr as (r&s1&Er&->&Hs1). rewrite (bind_ok _ _ _ _ _ Er), Hsig. cbn [Z.eqb negb Pos.eqb].
  pose proof (wf_same _ _ Hs1 Hw) as Hw1. destruct Hs1 as (Ev&Ea&_). rewrite Hp. cbn [entries_loop]. unfold used in Hu. apply negb_true_iff in Hu. rewrite Hu, Hx. unfold bind.
  assert (contents b s1 !! 0 = Some pt) as Hc1 by (unfold contents, depth; by rewrite Ev, Ea). rewrite <- Ev in Hv.
  destruct (Z.eqb_spec sector 0) as [->|Hne].
  - by rewrite IH by auto.
  - destruct Hs as [?|[-> Hs]]; [done|]. by rewrite IH by auto.
Qed.

(** Such a table, on a device of eight sectors. *)
Lemma extended_scan_loops fuel : partition_scan ex_malloc fuel 1 (ex_state (ex_table (ex_entry 0x05 2 6) (replicate 16 0))) = Err EFuel.
Proof.
  set (pt := ex_table _ _).
  apply (extended_diverges ex_malloc (ex_state pt) 1 (Blk (Stdio.chars "hda") BLOCK_RAW 8 (Disk (ex_disk pt)) 0 0) pt (Entry 5 2 6) (replicate 3 (Entry 0 0 0))); try done.
  - intros s. apply ex_malloc_ok.
  - apply ex_state_wf. apply (bool_decide_unpack _). vm_compute. exact I.
Qed.
End Partition.
