(* ===== verification/Input.v ===== *)
(** * The input buffer: devices/intq.c, input.c, kbd.c

    A circular queue of bytes between interrupt handlers and threads, the
    buffer of keys made of it, and the keyboard handler that fills it.  A
    thread that finds the queue empty sleeps until a handler wakes it; the
    machine at the end runs readers and the handler in any order. *)

From Stdlib Require Import String Ascii.
From S2P Require Import Prelude.
From S2P Require Import CStdlib.
From S2P Require Import Stdio.
Local Open Scope Z_scope.

Module Input.

Abbreviation tid := Z.
Abbreviation INTQ_BUFSIZE := 64%Z.

(** ** The code *)

(** [struct intq]; of the lock its holder. *)
Record intq := Intq {
  lock : option tid; not_full : option tid; not_empty : option tid;
  buf : list Z; head : Z; tail : Z }.

(** The shift keys, the status of Caps Lock, and the count of keys. *)
Record kbd := Kbd {
  left_shift : bool; right_shift : bool; left_alt : bool; right_alt : bool;
  left_ctrl : bool; right_ctrl : bool; caps_lock : bool; key_cnt : Z }.

(** The running thread, whether an interrupt is being handled, the buffer, the
    threads blocked in [wait], the keyboard, and whether the machine was
    restarted.  Interrupts are off in all the code below. *)
Record state := St { cur : tid; in_intr : bool; q : intq; blocked : gset tid; keyboard : kbd; rebooted : bool }.

Definition set_q (x : intq) (s : state) : state := St (cur s) (in_intr s) x (blocked s) (keyboard s) (rebooted s).
Definition set_blocked (x : gset tid) (s : state) : state := St (cur s) (in_intr s) (q s) x (keyboard s) (rebooted s).
Definition set_keyboard (x : kbd) (s : state) : state := St (cur s) (in_intr s) (q s) (blocked s) x (rebooted s).

Definition next (pos : Z) : Z := (pos + 1) mod INTQ_BUFSIZE.
Definition intq_init : intq := Intq None None None (replicate 64 0) 0 0.
Definition empty (x : intq) : bool := head x =? tail x.
Definition full (x : intq) : bool := next (head x) =? tail x.
Definition intq_empty : M state bool := gets (fun s => empty (q s)).
Definition intq_full : M state bool := gets (fun s => full (q s)).

(** The two conditions, [&q->not_empty] and [&q->not_full]. *)
Inductive condition := NotEmpty | NotFull.
Definition waiter (c : condition) (x : intq) : option tid := match c with NotEmpty => not_empty x | NotFull => not_full x end.
Definition set_waiter (c : condition) (t : option tid) (x : intq) : intq :=
  match c with
  | NotEmpty => Intq (lock x) (not_full x) t (buf x) (head x) (tail x)
  | NotFull => Intq (lock x) t (not_empty x) (buf x) (head x) (tail x)
  end.
Definition unmet (c : condition) (x : intq) : bool := match c with NotEmpty => empty x | NotFull => full x end.

(** [thread_block] puts the thread to sleep; it goes on after a [signal]. *)
Definition wait (c : condition) : M state unit :=
  let! s := get in
  do! assert (negb (in_intr s)) in
  do! assert (unmet c (q s)) in
  do! modify (fun s => set_q (set_waiter c (Some (cur s)) (q s)) s) in
  modify (fun s => set_blocked ({[cur s]} ∪ blocked s) s).

Definition signal (c : condition) : M state unit :=
  let! s := get in
  do! assert (negb (unmet c (q s))) in
  match waiter c (q s) with
  | Some t =>
      do! assert (bool_decide (t ∈ blocked s)) in
      do! modify (fun s => set_blocked (blocked s ∖ {[t]}) s) in
      modify (fun s => set_q (set_waiter c None (q s)) s)
  | None => ret tt
  end.

(** What a piece of [intq_getc] or [intq_putc] ends with: it is done, or the
    thread sleeps in [wait], or it sleeps on the lock of the queue. *)
Inductive outcome := Done (byte : Z) | Waiting | Locking.

Definition set_lock (h : option tid) (x : intq) : intq := Intq h (not_full x) (not_empty x) (buf x) (head x) (tail x).

(** [lock_acquire] and [wait]. *)
Definition lock_and_wait (c : condition) : M state outcome :=
  let! s := get in
  match lock (q s) with
  | Some t => if t =? cur s then fail EPanic else ret Locking
  | None =>
      do! modify (fun s => set_q (set_lock (Some (cur s)) (q s)) s) in
      do! wait c in
      ret Waiting
  end.

Definition lock_release : M state unit :=
  let! s := get in
  do! assert (bool_decide (lock (q s) = Some (cur s))) in
  modify (fun s => set_q (set_lock None (q s)) s).

(** [intq_getc] from the test of its loop on. *)
Definition intq_getc : M state outcome :=
  let! e := intq_empty in
  if e then
    let! s := get in
    do! assert (negb (in_intr s)) in
    lock_and_wait NotEmpty
  else
    let! s := get in
    let byte := nth (Z.to_nat (tail (q s))) (buf (q s)) 0 in
    do! modify (fun s => set_q (Intq (lock (q s)) (not_full (q s)) (not_empty (q s)) (buf (q s)) (head (q s)) (next (tail (q s)))) s) in
    do! signal NotFull in
    ret (Done byte).

Definition intq_putc (byte : Z) : M state outcome :=
  let! e := intq_full in
  if e then
    let! s := get in
    do! assert (negb (in_intr s)) in
    lock_and_wait NotFull
  else
    do! modify (fun s => set_q (Intq (lock (q s)) (not_full (q s)) (not_empty (q s)) (<[Z.to_nat (head (q s)) := byte]> (buf (q s))) (next (head (q s))) (tail (q s))) s) in
    do! signal NotEmpty in
    ret (Done byte).

(** [input_putc]; [serial_notify] only programs the serial port. *)
Definition input_putc (key : Z) : M state unit :=
  let! f := intq_full in
  do! assert (negb f) in
  do! intq_putc key in
  ret tt.
Definition input_full : M state bool := intq_full.

(** The keymaps. *)
Definition invariant_keymap : list (Z * list Z) :=
  [(0x01, [27]); (0x0e, [8]); (0x0f, 9 :: Stdio.chars "QWERTYUIOP"); (0x1c, [13]); (0x1e, Stdio.chars "ASDFGHJKL");
   (0x2c, Stdio.chars "ZXCVBNM"); (0x37, Stdio.chars "*"); (0x39, Stdio.chars " "); (0x53, [127])].
Definition unshifted_keymap : list (Z * list Z) :=
  [(0x02, Stdio.chars "1234567890-="); (0x1a, Stdio.chars "[]"); (0x27, Stdio.chars ";'`"); (0x2b, [92]); (0x33, Stdio.chars ",./")].
Definition shifted_keymap : list (Z * list Z) :=
  [(0x02, Stdio.chars "!@#$%^&*()_+"); (0x1a, Stdio.chars "{}"); (0x27, [58; 34; 126]); (0x2b, Stdio.chars "|"); (0x33, Stdio.chars "<>?")].

Fixpoint map_key (k : list (Z * list Z)) (scancode : Z) : option Z :=
  match k with
  | [] => None
  | (first, cs) :: k' =>
      if (first <=? scancode) && (scancode <? first + Z.of_nat (length cs)) then Some (nth (Z.to_nat (scancode - first)) cs 0)
      else map_key k' scancode
  end.

(** The table of shift keys. *)
Definition set_shift (code : Z) (v : bool) (k : kbd) : kbd :=
  let 'Kbd ls rs la ra lc rc cl n := k in
  if code =? 0x2a then Kbd v rs la ra lc rc cl n
  else if code =? 0x36 then Kbd ls v la ra lc rc cl n
  else if code =? 0x38 then Kbd ls rs v ra lc rc cl n
  else if code =? 0xe038 then Kbd ls rs la v lc rc cl n
  else if code =? 0x1d then Kbd ls rs la ra v rc cl n
  else if code =? 0xe01d then Kbd ls rs la ra lc v cl n
  else k.

(** [c1] and [c2] are what the data register gives.  A restart ends the
    handler. *)
Definition keyboard_interrupt (c1 c2 : Z) : M state unit :=
  let! s := get in
  let k := keyboard s in
  let shift := left_shift k || right_shift k in
  let alt := left_alt k || right_alt k in
  let ctrl := left_ctrl k || right_ctrl k in
  let code := if c1 =? 0xe0 then Z.lor (Z.shiftl c1 8) c2 else c1 in
  let release := negb (Z.land code 0x80 =? 0) in
  let code := Z.land code (u32 (Z.lnot 0x80)) in
  if code =? 0x3a then
    if negb release then
      modify (set_keyboard (Kbd (left_shift k) (right_shift k) (left_alt k) (right_alt k) (left_ctrl k) (right_ctrl k) (negb (caps_lock k)) (key_cnt k)))
    else ret tt
  else
    match map_key invariant_keymap code, (if negb shift then map_key unshifted_keymap code else map_key shifted_keymap code) with
    | Some c, _ | None, Some c =>
        if release then ret tt
        else if (c =? 127) && ctrl && alt then modify (fun s => St (cur s) (in_intr s) (q s) (blocked s) (keyboard s) true)
        else
          let c := if ctrl && (0x40 <=? c) && (c <? 0x60) then u8 (c - 0x40) else if Bool.eqb shift (caps_lock k) then CStdlib.tolower c else c in
          let c := if alt then u8 (c + 0x80) else c in
          let! f := input_full in
          if negb f then
            do! modify (set_keyboard (Kbd (left_shift k) (right_shift k) (left_alt k) (right_alt k) (left_ctrl k) (right_ctrl k) (caps_lock k) (s64 (key_cnt k + 1)))) in
            input_putc c
          else ret tt
    | None, None => modify (set_keyboard (set_shift code (negb release) k))
    end.

(** ** The queue *)

Definition count (x : intq) : Z := (head x - tail x) mod 64.
Definition contents (x : intq) : list Z := (fun i => nth (Z.to_nat ((tail x + i) mod 64)) (buf x) 0) <$> seqZ 0 (count x).

Record wf (x : intq) : Prop := Wf { wf_len : length (buf x) = 64%nat; wf_head : 0 <= head x < 64; wf_tail : 0 <= tail x < 64 }.

Lemma contents_len x : Z.of_nat (length (contents x)) = count x.
Proof. unfold contents. rewrite length_fmap, length_seqZ. unfold count. zlia. Qed.

Lemma empty_iff x : wf x -> (empty x = true <-> contents x = []).
Proof.
  intros [_ Hh Ht]. unfold empty. rewrite Z.eqb_eq, <- length_zero_iff_nil. pose proof (contents_len x) as Hl. unfold count in Hl.
  destruct (decide (head x = tail x)); zlia.
Qed.
Lemma full_iff x : wf x -> (full x = true <-> Z.of_nat (length (contents x)) = 63).
Proof.
  intros [_ Hh Ht]. unfold full, next. rewrite Z.eqb_eq, contents_len. unfold count. zlia.
Qed.

(** The queue after a byte is stored, and after one is taken. *)
Definition stored (byte : Z) (x : intq) : intq :=
  Intq (lock x) (not_full x) (not_empty x) (<[Z.to_nat (head x) := byte]> (buf x)) (next (head x)) (tail x).
Definition taken (x : intq) : intq := Intq (lock x) (not_full x) (not_empty x) (buf x) (head x) (next (tail x)).

Lemma next_range i : 0 <= next i < 64.
Proof. unfold next. zlia. Qed.

Lemma wf_stored byte x : wf x -> wf (stored byte x).
Proof. intros []. split; cbn; [by rewrite length_insert|apply next_range|done]. Qed.
Lemma wf_taken x : wf x -> wf (taken x).
Proof. intros []. split; cbn; [done|done|apply next_range]. Qed.

Lemma stored_contents byte x : wf x -> full x = false -> contents (stored byte x) = contents x ++ [byte].
Proof.
  intros Hw Hf. pose proof (full_iff x Hw) as Hi. rewrite contents_len in Hi. destruct Hw as [Hl Hh Ht]. assert (count x < 63) as Hc.
  { assert (count x <> 63) by (intros E; apply Hi in E; congruence). unfold count in *. zlia. }
  assert (0 <= count x) as H0 by (unfold count; zlia). assert (count (stored byte x) = count x + 1) as Ec by (unfold count, stored, next in *; cbn; zlia).
  unfold contents. rewrite Ec. replace (count x + 1) with (Z.of_nat (S (Z.to_nat (count x)))) by lia. rewrite seqZ_S, fmap_app, Z2Nat.id by lia. f_equal.
  - apply list_fmap_ext. intros k i Hk. apply lookup_seqZ in Hk. unfold count in *. cbn. rewrite !nth_lookup, list_lookup_insert_ne; [done|]. zlia.
  - cbn. rewrite nth_lookup. replace (Z.to_nat _) with (Z.to_nat (head x)) by (unfold count in *; zlia). rewrite list_lookup_insert_eq by lia. done.
Qed.

Lemma taken_contents x : wf x -> empty x = false -> contents x = nth (Z.to_nat (tail x)) (buf x) 0 :: contents (taken x).
Proof.
  intros Hw He. assert (head x <> tail x) by (by apply Z.eqb_neq). destruct Hw as [Hl Hh Ht].
  assert (0 < count x) as H0 by (unfold count; zlia). assert (count (taken x) = count x - 1) as Ec by (unfold count, taken, next in *; cbn; zlia).
  unfold contents. rewrite Ec, seqZ_cons by lia. cbn [fmap list_fmap]. f_equal; [do 2 f_equal; zlia|].
  rewrite <- Z.sub_1_r. change (Z.succ 0) with (1 + 0). rewrite <- fmap_add_seqZ, <- list_fmap_compose. apply list_fmap_ext. intros k i Hk. unfold compose. cbn. do 2 f_equal. unfold next. zlia.
Qed.

(** The thread that waits for a condition is woken, if there is one. *)
Definition woken (c : condition) (s : state) : state :=
  match waiter c (q s) with
  | Some t => set_q (set_waiter c None (q s)) (set_blocked (blocked s ∖ {[t]}) s)
  | None => s
  end.
Definition waiters_ok (s : state) : Prop := forall c t, waiter c (q s) = Some t -> t ∈ blocked s.

Lemma signal_ok c s : unmet c (q s) = false -> waiters_ok s -> signal c s = Ok (tt, woken c s).
Proof.
  intros Hu Hw. unfold signal, bind, get, assert, modify, woken. rewrite Hu. cbn [negb ret]. destruct (waiter c (q s)) as [t|] eqn:E; [|done].
  rewrite bool_decide_eq_true_2 by exact (Hw _ _ E). done.
Qed.

Lemma contents_woken c s : contents (q (woken c s)) = contents (q s).
Proof. unfold woken. destruct (waiter c (q s)); [|done]. by destruct c. Qed.

Lemma putc_eq byte s : wf (q s) -> full (q s) = false -> waiters_ok s ->
  intq_putc byte s = Ok (Done byte, woken NotEmpty (set_q (stored byte (q s)) s)).
Proof.
  intros Hw Hf Ho. unfold intq_putc, intq_full, bind at 1, gets. rewrite Hf. unfold bind at 1, modify. fold (stored byte (q s)).
  assert (empty (stored byte (q s)) = false) as He.
  { destruct (empty _) eqn:E; [|done]. apply (empty_iff _ (wf_stored _ _ Hw)) in E. rewrite stored_contents in E by done. by apply app_eq_nil in E as [_ ?]. }
  unfold bind. rewrite signal_ok; [done|done|]. intros c t. destruct c; [apply (Ho NotEmpty)|apply (Ho NotFull)].
Qed.

Lemma getc_eq s : wf (q s) -> empty (q s) = false -> waiters_ok s ->
  intq_getc s = Ok (Done (nth (Z.to_nat (tail (q s))) (buf (q s)) 0), woken NotFull (set_q (taken (q s)) s)).
Proof.
  intros Hw He Ho. unfold intq_getc, intq_empty, bind at 1, gets. rewrite He. unfold bind at 1, get. unfold bind at 1, modify. fold (taken (q s)).
  assert (full (taken (q s)) = false) as Hf.
  { destruct (full _) eqn:E; [|done]. apply (full_iff _ (wf_taken _ Hw)) in E. pose proof (contents_len (q s)) as Hl. rewrite (taken_contents _ Hw He) in Hl. cbn in Hl. unfold count in Hl. zlia. }
  unfold bind. rewrite signal_ok; [done|done|]. intros c t. destruct c; [apply (Ho NotEmpty)|apply (Ho NotFull)].
Qed.

(** The circular buffer is a first-in first-out queue of at most 63 bytes:
    storing a byte when it is not full puts it at the end and wakes the thread
    that waits for one; taking a byte when it is not empty returns the oldest
    and wakes the thread that waits for room. *)
Theorem intq_fifo s : wf (q s) -> waiters_ok s ->
  (forall byte, Z.of_nat (length (contents (q s))) < 63 -> wp (intq_putc byte) (fun r s' => r = Done byte /\ wf (q s') /\
     contents (q s') = contents (q s) ++ [byte] /\ not_empty (q s') = None /\ forall t, not_empty (q s) = Some t -> t ∉ blocked s') s) /\
  (forall byte l, contents (q s) = byte :: l -> wp intq_getc (fun r s' => r = Done byte /\ wf (q s') /\
     contents (q s') = l /\ not_full (q s') = None /\ forall t, not_full (q s) = Some t -> t ∉ blocked s') s) /\
  Z.of_nat (length (contents (q s))) <= 63.
Proof.
  intros Hw Ho. split_and!.
  - intros byte Hl. assert (full (q s) = false) as Hf by (destruct (full _) eqn:E; [apply (full_iff _ Hw) in E; lia|done]).
    unfold wp. rewrite putc_eq by done. rewrite contents_woken. cbn [q set_q]. rewrite stored_contents by done. unfold woken. cbn [q set_q waiter stored not_empty].
    pose proof (wf_stored byte _ Hw) as [? ? ?]. destruct (not_empty (q s)) as [t|] eqn:E; cbn; (split_and!; [done|by split|done|done|]); [|done].
    intros t' [= <-]. set_solver.
  - intros byte l Hl. assert (empty (q s) = false) as He by (destruct (empty _) eqn:E; [apply (empty_iff _ Hw) in E; congruence|done]).
    pose proof (taken_contents _ Hw He) as Ht. rewrite Hl in Ht. injection Ht as -> ->.
    unfold wp. rewrite getc_eq by done. rewrite contents_woken. cbn [q set_q]. unfold woken. cbn [q set_q waiter taken not_full].
    pose proof (wf_taken _ Hw) as [? ? ?]. destruct (not_full (q s)) as [t|] eqn:E; cbn; (split_and!; [done|by split|done|done|]); [|done].
    intros t' [= <-]. set_solver.
  - rewrite contents_len. unfold count. zlia.
Qed.

(** ** What a key types *)

(** The keys that type something: the code of the first key of a row, and what
    its keys type without and with Shift. *)
Definition rows : list (Z * list Z * list Z) :=
  [(0x01, [27], [27]); (0x02, Stdio.chars "1234567890-=", Stdio.chars "!@#$%^&*()_+"); (0x0e, [8; 9], [8; 9]);
   (0x10, Stdio.chars "qwertyuiop[]", Stdio.chars "QWERTYUIOP{}"); (0x1c, [13], [13]);
   (0x1e, Stdio.chars "asdfghjkl;'`", Stdio.chars "ASDFGHJKL:" ++ [34; 126]); (0x2b, [92], Stdio.chars "|");
   (0x2c, Stdio.chars "zxcvbnm,./", Stdio.chars "ZXCVBNM<>?"); (0x37, Stdio.chars "*", Stdio.chars "*");
   (0x39, Stdio.chars " ", Stdio.chars " "); (0x53, [127], [127])].
Definition legends : list (Z * (Z * Z)) := flat_map (fun '(first, lo, hi) => zip (seqZ first (Z.of_nat (length lo))) (zip lo hi)) rows.
Definition legend (code : Z) : option (Z * Z) := '(_, (_, e)) ← list_find (fun e => e.1 = code) legends; Some e.

(** The keys held down, by their codes, and the light of Caps Lock. *)
Record hands := Hands { held : gset Z; caps : bool }.
Definition no_hands : hands := Hands ∅ false.
Definition down (h : hands) (l : list Z) : bool := existsb (fun code => bool_decide (code ∈ held h)) l.
Definition shift_down (h : hands) : bool := down h [0x2a; 0x36].
Definition alt_down (h : hands) : bool := down h [0x38; 0xe038].
Definition ctrl_down (h : hands) : bool := down h [0x1d; 0xe01d].

(** The code of a key and whether it is released. *)
Definition decode (c1 c2 : Z) : Z * bool := if c1 =? 0xe0 then (0xe000 + c2 mod 128, 128 <=? c2) else (c1 mod 128, 128 <=? c1).

(** The character a key types: Ctrl makes control characters of letters and
    of the signs that have one, Caps Lock exchanges the case of letters, Alt
    sets the high bit.  Ctrl, Alt and Delete type nothing: they restart. *)
Definition types (shift ctrl alt caps : bool) (code : Z) : option Z :=
  '(lo, hi) ← legend code;
  let letter := (97 <=? lo) && (lo <=? 122) in
  let sign := if letter || shift then hi else lo in
  if (lo =? 127) && ctrl && alt then None else
  let c := if ctrl && (0x40 <=? sign) && (sign <=? 0x5f) then sign - 0x40 else if (if letter then xorb shift caps else shift) then hi else lo in
  Some (if alt then c + 0x80 else c).

Definition typed (h : hands) (c1 c2 : Z) : option Z :=
  let '(code, released) := decode c1 c2 in if released then None else types (shift_down h) (ctrl_down h) (alt_down h) (caps h) code.
Definition press (h : hands) (c1 c2 : Z) : hands :=
  let '(code, released) := decode c1 c2 in
  Hands (if released then held h ∖ {[code]} else {[code]} ∪ held h) (if (code =? 0x3a) && negb released then negb (caps h) else caps h).

(** The handler's code, and the flags it keeps. *)
Definition byte (c : Z) : Prop := 0 <= c < 256.
Definition codes : list Z := seqZ 0 128 ++ seqZ 0xe000 128.
Definition raw (c1 c2 : Z) : Z := if c1 =? 0xe0 then Z.lor (Z.shiftl c1 8) c2 else c1.

Definition decode_as (c1 c2 : Z) : bool :=
  bool_decide (decode c1 c2 = (Z.land (raw c1 c2) (u32 (Z.lnot 0x80)), negb (Z.land (raw c1 c2) 0x80 =? 0)) /\ (decode c1 c2).1 ∈ codes).
Lemma decode_ok c1 c2 : byte c1 -> byte c2 ->
  decode c1 c2 = (Z.land (raw c1 c2) (u32 (Z.lnot 0x80)), negb (Z.land (raw c1 c2) 0x80 =? 0)) /\ (decode c1 c2).1 ∈ codes.
Proof.
  intros H1 H2. apply (bool_decide_eq_true_1 _). change (decode_as c1 c2 = true). destruct (Z.eqb_spec c1 0xe0) as [->|Hn].
  - assert (forallb (decode_as 0xe0) (seqZ 0 256) = true) as Hf by (by vm_compute). rewrite forallb_forall in Hf. apply Hf, list_elem_of_In, elem_of_seqZ. unfold byte in H2. lia.
  - assert (decode_as c1 c2 = decode_as c1 0) as -> by (unfold decode_as, decode, raw; by rewrite (proj2 (Z.eqb_neq c1 0xe0))).
    assert (forallb (fun c => decode_as c 0) (seqZ 0 256) = true) as Hf by (by vm_compute). rewrite forallb_forall in Hf.
    apply (Hf c1), list_elem_of_In, elem_of_seqZ. unfold byte in H1. lia.
Qed.

(** The tables of the code against the legends of the keys. *)
Definition char_of (shift ctrl alt caps : bool) (code : Z) : option (option Z) :=
  match map_key invariant_keymap code, (if negb shift then map_key unshifted_keymap code else map_key shifted_keymap code) with
  | Some c, _ | None, Some c =>
      Some (if (c =? 127) && ctrl && alt then None else
        let c := if ctrl && (0x40 <=? c) && (c <? 0x60) then u8 (c - 0x40) else if Bool.eqb shift caps then CStdlib.tolower c else c in
        Some (if alt then u8 (c + 0x80) else c))
  | None, None => None
  end.
Definition char_as (shift ctrl alt caps : bool) (code : Z) : bool :=
  bool_decide (char_of shift ctrl alt caps code = (fun _ => types shift ctrl alt caps code) <$> legend code).
Lemma char_types shift ctrl alt caps code : code ∈ codes -> char_of shift ctrl alt caps code = (fun _ => types shift ctrl alt caps code) <$> legend code.
Proof.
  intros Hc. apply (bool_decide_eq_true_1 _). change (char_as shift ctrl alt caps code = true).
  assert (forallb (fun c => forallb (fun a => forallb (fun b => forallb (fun d => forallb (fun e => char_as a b d e c) [true; false]) [true; false]) [true; false]) [true; false]) codes = true) as Hf by (by vm_compute).
  rewrite forallb_forall in Hf. specialize (Hf code (proj1 (list_elem_of_In _ _) Hc)). cbn [forallb] in Hf. rewrite !andb_true_iff in Hf. destruct_and!.
  by destruct shift, ctrl, alt, caps.
Qed.

Definition flags (h : hands) (n : Z) : kbd :=
  let on (code : Z) := bool_decide (code ∈ held h) in Kbd (on 0x2a) (on 0x36) (on 0x38) (on 0xe038) (on 0x1d) (on 0xe01d) (caps h) n.

Lemma held_after (x code : Z) (released : bool) (X : gset Z) :
  bool_decide (x ∈ (if released then X ∖ {[code]} else {[code]} ∪ X)) = if code =? x then negb released else bool_decide (x ∈ X).
Proof.
  destruct (Z.eqb_spec code x) as [->|Hn], released; cbn;
    [apply bool_decide_eq_false_2|apply bool_decide_eq_true_2|apply bool_decide_ext|apply bool_decide_ext]; set_solver.
Qed.

Lemma flags_shift (h : hands) (code : Z) (released : bool) (n : Z) :
  flags (Hands (if released then held h ∖ {[code]} else {[code]} ∪ held h) (caps h)) n = set_shift code (negb released) (flags h n).
Proof.
  unfold flags, set_shift. cbn [held Input.caps]. rewrite !held_after.
  repeat match goal with |- context [if code =? ?x then _ else _] => destruct (Z.eqb_spec code x) as [->|]; [done|] end. done.
Qed.

Lemma legend_no_shift code v k : is_Some (legend code) -> set_shift code v k = k /\ code <> 0x3a.
Proof.
  intros [e He]. split; [|by intros ->]. destruct k. unfold set_shift.
  repeat match goal with |- context [if code =? ?x then _ else _] => destruct (Z.eqb_spec code x) as [->|]; [done|] end. done.
Qed.

(** ** Readers and the keyboard *)

(** Where a thread that reads keys is: outside of [input_getc], asleep on the
    lock of the queue, or in [wait]. *)
Inductive place := Outside | AtLock | InWait.

(** [got] are the keys the readers were given.  [hand] follows the keys of the
    keyboard and [keys] are the characters typed on it, without those typed
    while 63 of them had not been read; the code does not determine these two. *)
Record world := World { st : state; readers : gmap tid place; got : list Z; keys : list Z; hand : hands }.

Definition run_as (t : tid) (i : bool) (s : state) : state := St t i (q s) (blocked s) (keyboard s) (rebooted s).

(** The next piece of a reader; one that sleeps has none. *)
Definition piece (t : tid) (p : place) (s : state) : option (M state outcome) :=
  match p with
  | Outside => Some intq_getc
  | AtLock => match lock (q s) with Some _ => None | None => Some (lock_and_wait NotEmpty) end
  | InWait => if bool_decide (t ∈ blocked s) then None else Some (do! lock_release in intq_getc)
  end.
Definition place_of (o : outcome) : place := match o with Done _ => Outside | Waiting => InWait | Locking => AtLock end.
Definition byte_of (o : outcome) : list Z := match o with Done b => [b] | _ => [] end.

(** What a key adds to the keys typed. *)
Definition accepted (w : world) (c1 c2 : Z) : list Z :=
  if Z.of_nat (length (keys w)) - Z.of_nat (length (got w)) <? 63 then option_list (typed (hand w) c1 c2) else [].

Inductive step : world -> world -> Prop :=
| step_reader w t p op o s' : readers w !! t = Some p -> piece t p (st w) = Some op -> op (run_as t false (st w)) = Ok (o, s') ->
    step w (World s' (<[t := place_of o]> (readers w)) (got w ++ byte_of o) (keys w) (hand w))
| step_key w c1 c2 s' : byte c1 -> byte c2 -> keyboard_interrupt c1 c2 (run_as (cur (st w)) true (st w)) = Ok (tt, s') ->
    step w (World (run_as (cur s') false s') (readers w) (got w) (keys w ++ accepted w c1 c2) (press (hand w) c1 c2)).

(** What a key does: the character it types goes into the buffer, if there is
    room; the flags follow the keys. *)
Definition key_done (c : option Z) (k : kbd) (s s' : state) : Prop :=
  keyboard s' = k /\ match c with
  | Some c => exists s1, q s1 = stored c (q s) /\ blocked s1 = blocked s /\ s' = woken NotEmpty s1
  | None => q s' = q s /\ blocked s' = blocked s
  end.

Lemma put_key c k s : wf (q s) -> waiters_ok s -> full (q s) = false ->
  exists s', (do! modify (set_keyboard k) in input_putc c) s = Ok (tt, s') /\ key_done (Some c) k s s'.
Proof.
  intros Hw Ho Hf. unfold bind at 1, modify, input_putc. unfold bind at 1, intq_full, gets. cbn [q set_keyboard]. rewrite Hf. cbn [negb assert]. unfold bind at 1, ret at 1.
  unfold bind at 1. rewrite putc_eq by done. cbn [ret q set_keyboard]. eexists. split; [done|]. split; [unfold woken; by case_match|].
  by exists (set_q (stored c (q s)) (set_keyboard k s)).
Qed.

Lemma flags_press c1 c2 h n : flags (press h c1 c2) n =
  let '(code, released) := decode c1 c2 in
  let k := set_shift code (negb released) (flags h n) in
  if (code =? 0x3a) && negb released then Kbd (left_shift k) (right_shift k) (left_alt k) (right_alt k) (left_ctrl k) (right_ctrl k) (negb (caps_lock k)) n else k.
Proof.
  unfold press. destruct (decode c1 c2) as [code released]. cbv zeta. rewrite <- flags_shift. by destruct ((code =? 0x3a) && negb released).
Qed.

(** An ordinary key, with character [c], or Ctrl, Alt and Delete. *)
Lemma ordinary_key (released reboot : bool) c h n s : wf (q s) -> waiters_ok s -> keyboard s = flags h n ->
  exists s' n', (if released then ret tt
    else if reboot then modify (fun s => St (cur s) (in_intr s) (q s) (blocked s) (keyboard s) true)
    else let! f := input_full in if negb f then do! modify (set_keyboard (flags h (s64 (n + 1)))) in input_putc c else ret tt) s = Ok (tt, s') /\
  key_done (if full (q s) then None else if released then None else if reboot then None else Some c) (flags h n') s s'.
Proof.
  intros Hw Ho Hk. destruct released; [exists s, n; split; [done|]; by destruct (full (q s))|].
  destruct reboot; [eexists _, n; split; [done|]; by destruct (full (q s))|].
  unfold bind at 1, input_full, intq_full, gets. destruct (full (q s)) eqn:Ef; [by exists s, n|]. cbn [negb].
  destruct (put_key c (flags h (s64 (n + 1))) s Hw Ho Ef) as (s'&E&Hd). by exists s', (s64 (n + 1)).
Qed.

Lemma keyboard_ok c1 c2 h s : byte c1 -> byte c2 -> wf (q s) -> waiters_ok s -> keyboard s = flags h (key_cnt (keyboard s)) ->
  exists s' n, keyboard_interrupt c1 c2 s = Ok (tt, s') /\ key_done (if full (q s) then None else typed h c1 c2) (flags (press h c1 c2) n) s s'.
Proof.
  intros H1 H2 Hw Ho Hk. destruct (decode_ok c1 c2 H1 H2) as [Ed Hc]. unfold keyboard_interrupt, bind at 1, get. cbv zeta. fold (raw c1 c2).
  unfold typed. setoid_rewrite flags_press. rewrite Ed in *. cbn [fst] in Hc. cbv beta iota zeta.
  set (code := Z.land (raw c1 c2) (u32 (Z.lnot 128))) in *. set (released := negb (Z.land (raw c1 c2) 128 =? 0)) in *. clearbody code released. clear Ed H1 H2.
  set (n := key_cnt (keyboard s)) in *. destruct (Z.eqb_spec code 0x3a) as [->|Hn].
  { exists (if negb released then set_keyboard (flags (Hands (held h) (negb (caps h))) n) s else s), n. rewrite Hk. by destruct released, (full (q s)). }
  pose proof (char_types (shift_down h) (ctrl_down h) (alt_down h) (caps h) code Hc) as Ht. unfold char_of in Ht.
  assert (left_shift (keyboard s) || right_shift (keyboard s) = shift_down h) as -> by (rewrite Hk; unfold shift_down, down; cbn; by rewrite orb_false_r).
  assert (left_alt (keyboard s) || right_alt (keyboard s) = alt_down h) as -> by (rewrite Hk; unfold alt_down, down; cbn; by rewrite orb_false_r).
  assert (left_ctrl (keyboard s) || right_ctrl (keyboard s) = ctrl_down h) as -> by (rewrite Hk; unfold ctrl_down, down; cbn; by rewrite orb_false_r).
  replace (Kbd _ _ _ _ _ _ _ _) with (flags h (s64 (n + 1))) by (by rewrite Hk). replace (caps_lock (keyboard s)) with (caps h) by (by rewrite Hk). cbn [andb].
  destruct (map_key invariant_keymap code) as [c|] eqn:E1; [|destruct (if negb (shift_down h) then _ else _) as [c|] eqn:E2].
  1, 2: destruct (legend code) as [e|] eqn:El; [|done]; injection Ht as <-; setoid_rewrite (fun v k => proj1 (legend_no_shift code v k (ex_intro _ e El))); by apply ordinary_key.
  destruct (legend code) as [e|] eqn:El; [done|]. unfold types. rewrite El.
  eexists (set_keyboard (set_shift code (negb released) (keyboard s)) s), n. split; [done|]. rewrite Hk. by destruct (full (q s)), released.
Qed.

(** With the lock free, a thread that finds the queue empty goes to sleep. *)
Lemma getc_waits s : empty (q s) = true -> in_intr s = false -> lock (q s) = None ->
  intq_getc s = Ok (Waiting, set_blocked ({[cur s]} ∪ blocked s) (set_q (set_waiter NotEmpty (Some (cur s)) (set_lock (Some (cur s)) (q s))) s)).
Proof.
  destruct s as [cu ii [lk nf ne bf hd tl] bl kb rb]. cbn. intros He -> ->. unfold empty in He. cbn in He.
  unfold intq_getc, lock_and_wait, wait, intq_empty, bind, gets, get, modify, assert, ret. cbn. unfold empty. cbn. rewrite He. cbn. unfold empty. cbn. by rewrite He.
Qed.

Section one_reader.
Context (t : tid).

(** The reader is at [p]: in [wait] it has the lock; while it sleeps it is
    registered and the buffer is empty. *)
Record at_place (p : place) (s : state) : Prop := At {
  at_wf : wf (q s);
  at_full : not_full (q s) = None;
  at_lock : lock (q s) = match p with InWait => Some t | _ => None end;
  at_waiter : not_empty (q s) = if decide (t ∈ blocked s) then Some t else None;
  at_blocked : forall u, u ∈ blocked s -> u = t /\ p = InWait /\ contents (q s) = [];
  at_notlock : p <> AtLock }.

Lemma at_waiters p s : at_place p s -> waiters_ok s.
Proof. intros Ha c u. destruct c; cbn; [rewrite (at_waiter _ _ Ha)|by rewrite (at_full _ _ Ha)]. case_decide; [|done]. by intros [= <-]. Qed.

Lemma getc_step s : at_place Outside s -> cur s = t -> in_intr s = false ->
  exists o s', intq_getc s = Ok (o, s') /\ at_place (place_of o) s' /\ contents (q s) = byte_of o ++ contents (q s') /\ keyboard s' = keyboard s.
Proof.
  intros Ha Hc Hi. pose proof (at_wf _ _ Ha) as Hw. destruct (empty (q s)) eqn:He.
  - pose proof (proj1 (empty_iff _ Hw) He) as Hn. assert (blocked s = ∅) as Hb by (apply set_eq; intros u; split; [by intros (_&?&_)%(at_blocked _ _ Ha)|set_solver]).
    rewrite (getc_waits s) by (done || apply Ha). eexists Waiting, _. split; [done|]. split; [|done]. destruct Hw as [W1 W2 W3]. split; cbn; try done.
    + apply Ha.
    + by rewrite Hc.
    + rewrite Hb, Hc. by rewrite decide_True by set_solver.
    + intros u Hu. rewrite Hb, Hc in Hu. split; [set_solver|]. by split.
  - rewrite getc_eq by (done || by eapply at_waiters). do 2 eexists. split; [done|]. unfold woken. cbn [waiter q set_q taken not_full]. rewrite (at_full _ _ Ha).
    cbn [byte_of place_of q set_q app]. split; [|by rewrite <- taken_contents]. split; cbn; try apply Ha; [by apply wf_taken|].
    intros u (_&?&_)%(at_blocked _ _ Ha). done.
Qed.

(** The invariant. *)
Definition inv (w : world) : Prop := exists p, readers w = {[t := p]} /\ at_place p (st w) /\ got w ++ contents (q (st w)) = keys w /\
  keyboard (st w) = flags (hand w) (key_cnt (keyboard (st w))).

Lemma piece_step w p : at_place p (st w) -> t ∉ blocked (st w) ->
  exists op o s', piece t p (st w) = Some op /\ op (run_as t false (st w)) = Ok (o, s') /\ at_place (place_of o) s' /\
    contents (q (st w)) = byte_of o ++ contents (q s') /\ keyboard s' = keyboard (st w).
Proof.
  intros Ha Hb. destruct p; [| |].
  - destruct (getc_step (run_as t false (st w))) as (o&s'&E&H1&H2); [by destruct Ha; split|done|done|]. by exists intq_getc, o, s'.
  - by destruct (at_notlock _ _ Ha).
  - unfold piece. rewrite bool_decide_eq_false_2 by done. set (s1 := set_q (set_lock None (q (st w))) (run_as t false (st w))).
    assert (at_place Outside s1) as H1. { destruct Ha as [Hw Hf Hl Hn Hbl _]. destruct Hw as [W1 W2 W3]. split; cbn; try done. intros u Hu. destruct (Hbl u Hu) as (->&_&_). done. }
    destruct (getc_step s1 H1) as (o&s'&E&H2&H3); [done|done|]. eexists _, o, s'. split; [done|]. split; [|done].
    unfold lock_release, bind, get, modify. cbn [q run_as cur]. rewrite (at_lock _ _ Ha), bool_decide_eq_true_2 by done. exact E.
Qed.

Lemma key_step w p c1 c2 : byte c1 -> byte c2 -> readers w = {[t := p]} -> at_place p (st w) -> got w ++ contents (q (st w)) = keys w ->
  keyboard (st w) = flags (hand w) (key_cnt (keyboard (st w))) ->
  exists s', keyboard_interrupt c1 c2 (run_as (cur (st w)) true (st w)) = Ok (tt, s') /\
    inv (World (run_as (cur s') false s') (readers w) (got w) (keys w ++ accepted w c1 c2) (press (hand w) c1 c2)).
Proof.
  intros H1 H2 Er Ha Hg Hk. pose proof (at_wf _ _ Ha) as Hw.
  destruct (keyboard_ok c1 c2 (hand w) (run_as (cur (st w)) true (st w)) H1 H2 Hw (at_waiters p (st w) Ha) Hk) as (s'&n&E&Ek&Hd).
  exists s'. split; [done|]. exists p. cbn [st readers got keys hand run_as keyboard q]. cbn [run_as q blocked] in Hd.
  assert (accepted w c1 c2 = if full (q (st w)) then [] else option_list (typed (hand w) c1 c2)) as ->.
  { unfold accepted. pose proof (full_iff _ Hw) as Hf. pose proof (contents_len (q (st w))) as Hl. rewrite <- Hg, length_app. unfold count in Hl.
    destruct (full (q (st w))), (Z.ltb_spec (Z.of_nat (length (got w) + length (contents (q (st w)))) - Z.of_nat (length (got w))) 63); try done; exfalso; destruct Hf as [Hf1 Hf2]; [specialize (Hf1 eq_refl)|discriminate Hf2]; zlia. }
  split_and!; [done| | |rewrite Ek; done].
  - destruct (if full (q (st w)) then None else typed (hand w) c1 c2) as [c|].
    + destruct Hd as (s1&Eq&Eb&->). unfold woken. rewrite Eq. cbn [waiter stored not_empty]. rewrite (at_waiter _ _ Ha).
      destruct Ha as [_ Hnf Hl Hn Hbl Hat]. pose proof (wf_stored c _ Hw) as [W1 W2 W3]. case_decide as Hd; split; cbn; rewrite ?Eq, ?Eb; cbn; try done.
      * rewrite decide_False by set_solver. done.
      * intros u Hu. destruct (Hbl u) as (->&_); set_solver.
      * by rewrite Hn, decide_False.
      * intros u Hu. destruct (Hbl u Hu) as (->&_). done.
    + destruct Hd as [Eq Eb]. destruct Ha. split; cbn; rewrite ?Eq, ?Eb; done.
  - rewrite <- Hg, <- app_assoc. f_equal. destruct (full (q (st w))) eqn:Ef; [destruct Hd as [-> _]; by rewrite app_nil_r|].
    destruct (typed (hand w) c1 c2) as [c|]; [|destruct Hd as [-> _]; by rewrite app_nil_r]. destruct Hd as (s1&Eq&_&->). rewrite contents_woken, Eq. by apply stored_contents.
Qed.

Lemma step_inv w w' : inv w -> step w w' -> inv w'.
Proof.
  intros (p&Er&Ha&Hf&Hk) Hs. destruct Hs as [w u pu op o s' Eu Ep Eo|w c1 c2 s' H1 H2 Ek].
  - rewrite Er in Eu. apply lookup_singleton_Some in Eu as [<- <-]. assert (t ∉ blocked (st w)) as Hb.
    { intros Hb. destruct (at_blocked _ _ Ha _ Hb) as (_&->&_). cbn in Ep. by rewrite bool_decide_eq_true_2 in Ep. }
    destruct (piece_step w p Ha Hb) as (op'&o'&s2&Ep'&Eo'&Ha'&Hc&Ek). rewrite Ep in Ep'. injection Ep' as <-. rewrite Eo in Eo'. injection Eo' as <- <-.
    exists (place_of o). cbn. rewrite Er, insert_singleton_eq, Ek. split_and!; [done|done| |done]. by rewrite <- app_assoc, <- Hc.
  - destruct (key_step w p c1 c2 H1 H2 Er Ha Hf Hk) as (s2&Ek'&Hi). rewrite Ek in Ek'. by injection Ek' as <-.
Qed.
End one_reader.

(** The state of a machine that has just started, its readers outside and no
    key held down. *)
Definition start (s : state) (ts : gset tid) : world := World s (gset_to_gmap Outside ts) [] [] no_hands.
Definition booted (s : state) : Prop := q s = intq_init /\ blocked s = ∅ /\ keyboard s = Kbd false false false false false false false 0.

Lemma start_inv t s : booted s -> inv t (start s {[t]}).
Proof.
  intros (Hq&Hb&Hk). exists Outside. cbn. split_and!; [|split; rewrite ?Hq, ?Hb; cbn; try done; set_solver|by rewrite Hq|by rewrite Hk].
  by rewrite gset_to_gmap_singleton.
Qed.
Lemma reach_inv t s w : booted s -> rtc step (start s {[t]}) w -> inv t w.
Proof. intros Hb Hr. pose proof (start_inv t s Hb) as Hi. induction Hr as [|w1 w2 w3 Hs _ IH]; [done|]. apply IH. by eapply step_inv. Qed.

(** C21. With one thread reading keys, in every order of its steps and of
    keyboard interrupts, whatever the keyboard sends: what the thread was given
    and what is in the buffer are together the characters typed, in their order,
    each under the Shift, Ctrl and Alt keys held down and the Caps Lock of its
    moment, none lost but those typed while 63 were unread; the thread sleeps
    only while the buffer is empty, so that no wake-up is lost; and every step
    it can take and every interrupt ends without a failed assertion. *)
Theorem keys_delivered t s w : booted s -> rtc step (start s {[t]}) w ->
  got w ++ contents (q (st w)) = keys w /\
  (t ∈ blocked (st w) -> contents (q (st w)) = []) /\
  (forall p, readers w !! t = Some p -> t ∉ blocked (st w) -> exists op o s', piece t p (st w) = Some op /\ op (run_as t false (st w)) = Ok (o, s')) /\
  (forall c1 c2, byte c1 -> byte c2 -> exists s', keyboard_interrupt c1 c2 (run_as (cur (st w)) true (st w)) = Ok (tt, s')).
Proof.
  intros Hb Hr. destruct (reach_inv t s w Hb Hr) as (p&Er&Ha&Hf&Hk). split_and!; [done|apply Ha| |].
  - intros p' E Hnb. rewrite Er in E. apply lookup_singleton_Some in E as [_ <-]. destruct (piece_step t w p Ha Hnb) as (op&o&s'&?&?&_). by exists op, o, s'.
  - intros c1 c2 H1 H2. destruct (key_step t w p c1 c2 H1 H2 Er Ha Hf Hk) as (s'&?&_). by exists s'.
Qed.

(** ** Concrete runs *)

Definition ex_kbd : kbd := Kbd false false false false false false false 0.
Definition ex_start : state := St 1 false intq_init ∅ ex_kbd false.

Lemma ex_wf : wf intq_init.
Proof. split; cbn; lia. Qed.
Lemma ex_booted : booted ex_start.
Proof. by split_and!. Qed.
Lemma ex_waiters : waiters_ok ex_start.
Proof. by intros []. Qed.

Lemma intq_fifo_witness : wp (intq_putc 7) (fun r s' => r = Done 7 /\ contents (q s') = [7]) ex_start.
Proof.
  destruct (intq_fifo ex_start ex_wf ex_waiters) as (Hp&_&_). eapply wp_mono; [apply Hp; vm_compute; reflexivity|]. intros r s' (->&_&->&_). done.
Defined.

(** The worlds of a run in which the readers [ts] and the keyboard act in turn. *)
Inductive act := Reader (t : tid) | Key (c : Z).
Definition perform (w : world) (a : act) : option world :=
  match a with
  | Reader t =>
      p ← readers w !! t; op ← piece t p (st w);
      match op (run_as t false (st w)) with
      | Ok (o, s') => Some (World s' (<[t := place_of o]> (readers w)) (got w ++ byte_of o) (keys w) (hand w))
      | Err _ => None
      end
  | Key c =>
      if (0 <=? c) && (c <? 256) then
        match keyboard_interrupt c 0 (run_as (cur (st w)) true (st w)) with
        | Ok (_, s') => Some (World (run_as (cur s') false s') (readers w) (got w) (keys w ++ accepted w c 0) (press (hand w) c 0))
        | Err _ => None
        end
      else None
  end.
Fixpoint performs (w : world) (l : list act) : option world :=
  match l with [] => Some w | a :: l' => w' ← perform w a; performs w' l' end.

Lemma perform_step w a w' : perform w a = Some w' -> step w w'.
Proof.
  destruct a as [t|c]; cbn [perform].
  - destruct (readers w !! t) as [p|] eqn:E1; [|done]. cbn. destruct (piece t p (st w)) as [op|] eqn:E2; [|done]. cbn.
    destruct (op _) as [[o s']|] eqn:E3; [|done]. intros [= <-]. by eapply step_reader.
  - destruct (Z.leb_spec 0 c), (Z.ltb_spec c 256); try done. cbn [andb]. destruct (keyboard_interrupt c 0 (run_as (cur (st w)) true (st w))) as [[[] s']|] eqn:E; [|done].
    intros [= <-]. by eapply step_key.
Qed.
Lemma performs_rtc l : forall w w', performs w l = Some w' -> rtc step w w'.
Proof.
  induction l as [|a l IH]; intros w w'; cbn; [by intros [= ->]|]. destruct (perform w a) as [w1|] eqn:E; [|done]. cbn. intros H%IH. eapply rtc_l; [by eapply perform_step|done].
Qed.

(** A reader that found the buffer empty gets the keys pressed then: a, A with
    Shift and, once Shift is released, Ctrl-C. *)
Definition ex_acts : list act :=
  [Reader 1; Key 0x1e; Key 0x9e; Key 0x2a; Key 0x1e; Key 0x9e; Key 0xaa; Key 0x1d; Key 0x2e; Reader 1; Reader 1; Reader 1].
Lemma keys_delivered_witness : exists w, rtc step (start ex_start {[1]}) w /\ got w = Stdio.chars "aA" ++ [3] /\ got w ++ contents (q (st w)) = keys w.
Proof.
  destruct (performs (start ex_start {[1]}) ex_acts) as [w|] eqn:E; [|vm_compute in E; done].
  exists w. split_and!; [by eapply performs_rtc|vm_compute in E; by injection E as <-|].
  exact (proj1 (keys_delivered 1 ex_start w ex_booted (performs_rtc _ _ _ E))).
Defined.

(** With two readers the assertion in [wait] can fail: both find the buffer
    empty, the second sleeps on the lock; two keys arrive; the first reader
    releases the lock and takes one key; the second then waits although the
    buffer is not empty. *)
Lemma two_readers_panic : exists w op, rtc step (start ex_start {[1; 2]}) w /\ readers w !! 2 = Some AtLock /\
  piece 2 AtLock (st w) = Some op /\ op (run_as 2 false (st w)) = Err EPanic.
Proof.
  destruct (performs (start ex_start {[1; 2]}) [Reader 1; Reader 2; Key 0x1e; Key 0x30; Reader 1]) as [w|] eqn:E; [|vm_compute in E; done].
  exists w, (lock_and_wait NotEmpty). split; [by eapply performs_rtc|]. vm_compute in E. injection E as <-. by vm_compute.
Qed.
End Input.
