(* ===== verification/Ustar.v ===== *)
(** * Archives: lib/ustar.c

    Writing and reading the headers of ustar archives, in the byte memory.  A
    header that is written is read back, and whatever a header contains, the
    file name it yields does not begin with a path out of the directory. *)

From Stdlib Require Import String Ascii.
From S2P Require Import Prelude.
From S2P Require Import Mem.
From S2P Require Import CString.
From S2P Require Import CStdlib.
From S2P Require Import Stdio.
From S2P Require Import StdioSpec.
Local Open Scope Z_scope.

Module Ustar.
Import Mem.

(** ** The code *)

Abbreviation USTAR_HEADER_SIZE := 512%Z.
Abbreviation USTAR_REGULAR := 48%Z.
Abbreviation USTAR_DIRECTORY := 53%Z.
Abbreviation USTAR_EOF := (-1)%Z.

(** [struct ustar_header]: where the fields are. *)
Abbreviation name_ := 0%Z.
Abbreviation mode_ := 100%Z.
Abbreviation uid_ := 108%Z.
Abbreviation gid_ := 116%Z.
Abbreviation size_ := 124%Z.
Abbreviation mtime_ := 136%Z.
Abbreviation chksum_ := 148%Z.
Abbreviation typeflag_ := 156%Z.
Abbreviation magic_ := 257%Z.
Abbreviation version_ := 263%Z.
Abbreviation uname_ := 265%Z.
Abbreviation gname_ := 297%Z.
Abbreviation prefix_ := 345%Z.

(** Where the compiler put the string literals. *)
Record literals := Lits { dot_slash : ptr; dotdot_slash : ptr; dotdot : ptr; dot : ptr; zeros7 : ptr; ustar : ptr; root : ptr }.

Section code.
Context (L : literals).

(** The loop of [calculate_chksum] from byte [i] on. *)
Fixpoint chksum_loop (n : nat) (h i chksum : Z) : M mem Z :=
  match n with
  | O => ret chksum
  | S n' =>
      let! c := if (chksum_ <=? i) && (i <? chksum_ + 8) then ret 32 else load (h + i) in
      chksum_loop n' h (i + 1) (u32 (chksum + c))
  end.
Definition calculate_chksum (h : ptr) : M mem Z := chksum_loop 512 h 0 0.

(** The condition of the loop of [strip_antisocial_prefixes], and the loop. *)
Definition antisocial (file_name : ptr) : M mem bool :=
  let! c := load file_name in
  if c =? 47 then ret true else
  let! r := CString.memcmp file_name (dot_slash L) 2 in
  if r =? 0 then ret true else
  let! r := CString.memcmp file_name (dotdot_slash L) 3 in
  ret (r =? 0).
Fixpoint strip_loop (fuel : nat) (file_name : ptr) : M mem ptr :=
  match fuel with
  | O => fail EFuel
  | S fuel' =>
      let! b := antisocial file_name in
      if (b : bool) then let! p := CString.strchr file_name 47 in strip_loop fuel' (p + 1)
      else ret file_name
  end.
Definition strip_antisocial_prefixes (file_name : ptr) : M mem ptr :=
  let! fuel := gets fuel_of in
  let! file_name := strip_loop fuel file_name in
  let! c := load file_name in
  if c =? 0 then ret (dot L) else
  let! r := CString.strcmp file_name (dotdot L) in
  ret (if r =? 0 then dot L else file_name).

(** No strings are printed into the headers. *)
Definition snprintf (buffer size : Z) (fmt : string) (args : list Z) : M mem Z :=
  fun m => Stdio.vsnprintf buffer size (Stdio.chars fmt) args m ∅.

Definition ustar_make_header (file_name : ptr) (type size : Z) (h : ptr) : M mem bool :=
  do! assert ((type =? USTAR_REGULAR) || (type =? USTAR_DIRECTORY)) in
  let! file_name := strip_antisocial_prefixes file_name in
  let! n := CString.strlen file_name in
  if 99 <? n then ret false else
  do! CString.memset h 0 USTAR_HEADER_SIZE in
  do! CString.strlcpy (h + name_) file_name 100 in
  do! snprintf (h + mode_) 8 "%07o" [if type =? USTAR_REGULAR then 420 else 493] in
  do! CString.strlcpy (h + uid_) (zeros7 L) 8 in
  do! CString.strlcpy (h + gid_) (zeros7 L) 8 in
  do! snprintf (h + size_) 12 "%011o" [u32 size] in
  do! snprintf (h + mtime_) 12 "%011o" [1136102400] in
  do! store (h + typeflag_) type in
  do! CString.strlcpy (h + magic_) (ustar L) 6 in
  do! store (h + version_ + 1) 48 in
  do! store (h + version_) 48 in
  do! CString.strlcpy (h + gname_) (root L) 32 in
  do! CString.strlcpy (h + uname_) (root L) 32 in
  let! c := calculate_chksum h in
  do! snprintf (h + chksum_) 8 "%07o" [c] in
  ret true.

(** [parse_octal_field] from offset [ofs] on: the value, or failure. *)
Fixpoint octal_loop (n : nat) (s ofs value : Z) : M mem (option Z) :=
  match n with
  | O => ret None
  | S n' =>
      let! c := load (s + ofs) in
      if (48 <=? c) && (c <=? 55) then
        if UINT_MAX / 8 <? value then ret None else octal_loop n' s (ofs + 1) (u32 (c - 48 + value * 8))
      else if (c =? 32) || (c =? 0) then ret (if 0 <? ofs then Some value else None)
      else ret None
  end.
Definition parse_octal_field (s size : Z) : M mem (option Z) := octal_loop (Z.to_nat size) s 0 0.

Fixpoint is_all_zeros (n : nat) (block : ptr) : M mem bool :=
  match n with
  | O => ret true
  | S n' => let! c := load block in if negb (c =? 0) then ret false else is_all_zeros n' (block + 1)
  end.

(** The message, or the name, the type and the size. *)
Definition ustar_parse_header (h : ptr) : M mem (string + ptr * Z * Z) :=
  let! z := is_all_zeros 512 h in
  if (z : bool) then ret (inr (NULL, USTAR_EOF, 0)) else
  let! r := CString.memcmp (h + magic_) (ustar L) 6 in
  if negb (r =? 0) then ret (inl "not a ustar archive"%string) else
  let! v0 := load (h + version_) in
  let! bad := if negb (v0 =? 48) then ret true else let! v1 := load (h + version_ + 1) in ret (negb (v1 =? 48)) in
  if (bad : bool) then ret (inl "invalid ustar version"%string) else
  let! chksum := parse_octal_field (h + chksum_) 8 in
  match chksum with None => ret (inl "corrupt chksum field"%string) | Some chksum =>
  let! c := calculate_chksum h in
  if negb (chksum =? c) then ret (inl "checksum mismatch"%string) else
  let! last := load (h + name_ + 99) in
  let! long := if negb (last =? 0) then ret true else let! p := load (h + prefix_) in ret (negb (p =? 0)) in
  if (long : bool) then ret (inl "file name too long"%string) else
  let! typeflag := load (h + typeflag_) in
  if negb (typeflag =? USTAR_REGULAR) && negb (typeflag =? USTAR_DIRECTORY) then ret (inl "unimplemented file type"%string) else
  let! size_ul :=
    if typeflag =? USTAR_REGULAR then
      let! v := parse_octal_field (h + size_) 12 in
      ret (match v with
           | None => inl "corrupt file size field"%string
           | Some v => if INT_MAX <? v then inl "file too large"%string else inr v
           end)
    else ret (inr 0) in
  match size_ul with
  | inl msg => ret (inl msg)
  | inr size => let! name := strip_antisocial_prefixes (h + name_) in ret (inr (name, typeflag, size))
  end
  end.
End code.

(** ** File names *)

(** The name without the prefixes. *)
Fixpoint strip (s : list Z) : list Z :=
  match s with
  | c1 :: r1 =>
      if c1 =? 47 then strip r1 else
      match r1 with
      | c2 :: r2 =>
          if (c1 =? 46) && (c2 =? 47) then strip r2 else
          match r2 with
          | c3 :: r3 => if (c1 =? 46) && (c2 =? 46) && (c3 =? 47) then strip r3 else s
          | [] => s
          end
      | [] => s
      end
  | [] => s
  end.
Definition clean (s : list Z) : list Z :=
  let s' := strip s in if decide (s' = [] \/ s' = [46; 46]) then [46] else s'.

(** It leads out of no directory. *)
Definition bad_prefix (s : list Z) : Prop := exists r, s = 47 :: r \/ s = 46 :: 47 :: r \/ s = 46 :: 46 :: 47 :: r.
Definition safe (s : list Z) : Prop := s <> [] /\ s <> [46; 46] /\ ~ bad_prefix s.

Lemma strip_length s : (length (strip s) <= length s)%nat.
Proof.
  induction s as [s IH] using (induction_ltof1 _ (@length Z)); unfold ltof in IH. destruct s as [|c1 r1]; cbn [strip]; [done|].
  case_match; [specialize (IH r1 ltac:(cbn; lia)); cbn; lia|]. destruct r1 as [|c2 r2]; [done|].
  case_match; [specialize (IH r2 ltac:(cbn; lia)); cbn; lia|]. destruct r2 as [|c3 r3]; [done|].
  case_match; [specialize (IH r3 ltac:(cbn; lia)); cbn; lia|]. done.
Qed.

(** One round: a prefix is dropped, or the name has none. *)
Lemma strip_prefix s r : s = 47 :: r \/ s = 46 :: 47 :: r \/ s = 46 :: 46 :: 47 :: r -> strip s = strip r.
Proof. by intros [->|[->| ->]]. Qed.
Lemma strip_done s : ~ bad_prefix s -> strip s = s.
Proof.
  intros Hn. destruct s as [|c1 r1]; [done|]. cbn [strip]. destruct (Z.eqb_spec c1 47) as [->|]; [destruct Hn; exists r1; by left|].
  destruct r1 as [|c2 r2]; [done|]. destruct (Z.eqb_spec c1 46) as [->|]; cbn [andb]; [|by destruct r2].
  destruct (Z.eqb_spec c2 47) as [->|]; [destruct Hn; exists r2; auto|]. destruct r2 as [|c3 r3]; [done|].
  destruct (Z.eqb_spec c2 46) as [->|]; cbn [andb]; [|done]. destruct (Z.eqb_spec c3 47) as [->|]; [destruct Hn; exists r3; auto|done].
Qed.
Lemma strip_clean s : ~ bad_prefix (strip s).
Proof.
  induction s as [s IH] using (induction_ltof1 _ (@length Z)); unfold ltof in IH.
  assert (bad_prefix s \/ ~ bad_prefix s) as [(r&Hr)|Hn].
  { destruct s as [|c1 [|c2 [|c3 r]]].
    - right. by intros (r&[?|[?|?]]).
    - destruct (decide (c1 = 47)) as [->|]; [left; exists []; by left|right]. intros (r&[?|[?|?]]); congruence.
    - destruct (decide (c1 = 47)) as [->|]; [left; exists [c2]; by left|]. destruct (decide (c1 = 46 /\ c2 = 47)) as [[-> ->]|]; [left; exists []; auto|right].
      intros (r&[?|[?|?]]); simplify_eq; naive_solver.
    - destruct (decide (c1 = 47)) as [->|]; [left; exists (c2 :: c3 :: r); by left|]. destruct (decide (c1 = 46 /\ c2 = 47)) as [[-> ->]|]; [left; exists (c3 :: r); auto|].
      destruct (decide (c1 = 46 /\ c2 = 46 /\ c3 = 47)) as [(->&->&->)|]; [left; exists r; auto|right]. intros (r'&[?|[?|?]]); simplify_eq; naive_solver. }
  - rewrite (strip_prefix s r Hr). apply IH. destruct Hr as [->|[->| ->]]; cbn; lia.
  - by rewrite strip_done.
Qed.

Lemma clean_safe s : safe (clean s).
Proof.
  unfold clean, safe. pose proof (strip_clean s) as Hs. case_decide as Hd; split_and!; try done; [|naive_solver..]. intros (r&[?|[?|?]]); done.
Qed.
Lemma clean_idem s : safe s -> clean s = s.
Proof. intros (H1&H2&H3). unfold clean. rewrite strip_done by done. rewrite decide_False; [done|naive_solver]. Qed.

(** Comparing a string with the beginning a literal gives. *)
Lemma memcmp_prefix m l : forall p s k, str_at m p s -> bytes_at m k l -> Forall (fun c => c <> 0) l ->
  exists r, CString.memcmp_loop (length l) p k m = Ok (r, m) /\ (r = 0 <-> exists t, s = l ++ t).
Proof.
  induction l as [|y l IH]; intros p s k Hs Hl Hn; cbn [CString.memcmp_loop length]; [exists 0; split; [done|]; split; [by exists s|done]|].
  destruct Hl as (Ey&_&Hl). apply Forall_cons in Hn as [Hy Hn]. destruct s as [|x s].
  - cbn in Hs. rewrite (bind_ok _ _ _ _ _ (load_eq _ _ _ Hs)), (bind_ok _ _ _ _ _ (load_eq _ _ _ Ey)). rewrite (proj2 (Z.eqb_neq 0 y)) by done. cbn [negb].
    eexists. split; [done|]. split; [by case_match|by intros (t&?)].
  - destruct Hs as (Ex&_&Hs). rewrite (bind_ok _ _ _ _ _ (load_eq _ _ _ Ex)), (bind_ok _ _ _ _ _ (load_eq _ _ _ Ey)). destruct (Z.eqb_spec x y) as [->|Hne]; cbn [negb].
    + destruct (IH _ _ _ Hs Hl Hn) as (r&->&Hr). exists r. split; [done|]. rewrite Hr. split; intros (t&Ht); exists t; cbn in *; congruence.
    + eexists. split; [done|]. split; [by case_match|by intros (t&[= ? ?])].
Qed.

Record lits_at (m : mem) (L : literals) : Prop := LitsAt {
  lit_dot_slash : str_at m (dot_slash L) [46; 47]; lit_dotdot_slash : str_at m (dotdot_slash L) [46; 46; 47];
  lit_dotdot : str_at m (dotdot L) [46; 46]; lit_dot : str_at m (dot L) [46];
  lit_zeros7 : str_at m (zeros7 L) (Stdio.chars "0000000"); lit_ustar : str_at m (ustar L) (Stdio.chars "ustar"); lit_root : str_at m (root L) (Stdio.chars "root") }.

Lemma str_prefix m p s : str_at m p s -> bytes_at m p s.
Proof. intros [H _]%str_bytes. by apply bytes_at_app in H as [H _]. Qed.

Section strip.
Context (L : literals) (m : mem) (Hm : mem_ok m) (HL : lits_at m L).

Lemma memcmp_lit p s k l : str_at m p s -> str_at m k l -> Forall (fun c => c <> 0) l ->
  exists r, CString.memcmp p k (zlen l) m = Ok (r, m) /\ (r = 0 <-> exists t, s = l ++ t).
Proof.
  intros Hs Hl Hn. destruct (memcmp_prefix m l p s k Hs (str_prefix _ _ _ Hl) Hn) as (r&E&Hr). exists r. split; [|done].
  unfold CString.memcmp. rewrite Nat2Z.id, !(CString.block_check m); [exact E|done| |lia|done| |lia]; intros _; first [apply (str_at_mapped _ _ _ _ Hs); lia|apply (str_at_mapped _ _ _ _ Hl); lia].
Qed.

Lemma antisocial_ok p s : str_at m p s -> exists b, antisocial L p m = Ok (b, m) /\ (b = true <-> bad_prefix s).
Proof.
  intros Hs. unfold antisocial.
  assert (exists c, m !! p = Some c /\ (c = 47 <-> exists t, s = 47 :: t)) as (c&Ec&Hc).
  { destruct s as [|c s]; [exists 0; split; [exact Hs|]; split; [lia|by intros (t&?)]|]. destruct Hs as (E&_&_). exists c. split; [done|]. split; [intros ->; by exists s|by intros (t&[= -> _])]. }
  rewrite (bind_ok _ _ _ _ _ (load_eq _ _ _ Ec)). destruct (Z.eqb_spec c 47) as [->|Hne].
  { exists true. split; [done|]. split; [|done]. intros _. destruct (proj1 Hc eq_refl) as (t&->). exists t. by left. }
  destruct (memcmp_lit p s _ _ Hs (lit_dot_slash _ _ HL)) as (r1&E1&H1); [by apply (bool_decide_unpack _)|]. rewrite (bind_ok _ _ _ _ _ E1). destruct (Z.eqb_spec r1 0) as [->|N1].
  { exists true. split; [done|]. split; [|done]. intros _. destruct (proj1 H1 eq_refl) as (t&->). exists t. auto. }
  destruct (memcmp_lit p s _ _ Hs (lit_dotdot_slash _ _ HL)) as (r2&E2&H2); [by apply (bool_decide_unpack _)|]. rewrite (bind_ok _ _ _ _ _ E2).
  eexists. split; [done|]. rewrite Z.eqb_eq, H2. split; [intros (t&->); exists t; auto|]. intros (t&[->|[->| ->]]); [|exfalso; apply N1, H1; by exists t|by exists t].
  exfalso. apply Hne, Hc. by exists t.
Qed.

Lemma skip_prefix p s r : str_at m p s -> s = 47 :: r \/ s = 46 :: 47 :: r \/ s = 46 :: 46 :: 47 :: r ->
  exists p', CString.strchr p 47 m = Ok (p', m) /\ p <= p' < p + zlen s /\ str_at m (p' + 1) r.
Proof.
  intros Hs Hr. rewrite (CString.strchr_eq m p s 47) by done. change (u8 47) with 47.
  destruct Hr as [->|[->| ->]]; (rewrite decide_True by (cbn; lia)); cbn [CString.before Z.eqb Pos.eqb]; (eexists; split; [reflexivity|]); (split; [cbn [length]; lia|]);
    destruct_and?; cbn in Hs; destruct_and?; rewrite <- ?Z.add_assoc in *; done.
Qed.

Lemma strip_loop_ok fuel : forall p s, str_at m p s -> (length s < fuel)%nat ->
  exists p', strip_loop L fuel p m = Ok (p', m) /\ str_at m p' (strip s) /\ p <= p' <= p + zlen s.
Proof.
  induction fuel as [|fuel IH]; intros p s Hs Hf; [lia|]. cbn [strip_loop]. destruct (antisocial_ok p s Hs) as (b&E&Hb). rewrite (bind_ok _ _ _ _ _ E).
  destruct b.
  - destruct (proj1 Hb eq_refl) as (r&Hr). destruct (skip_prefix p s r Hs Hr) as (q&Eq&Hq&Hsr). rewrite (bind_ok _ _ _ _ _ Eq).
    assert (length r < length s)%nat as Hlt by (destruct Hr as [->|[->| ->]]; cbn; lia).
    destruct (IH (q + 1) r Hsr ltac:(lia)) as (p'&->&Hp'&Hr'). exists p'. split_and!; [done|by rewrite (strip_prefix s r Hr)|lia|].
    assert (q + zlen r < p + zlen s); [|lia].
    destruct Hr as [->|[->| ->]]; rewrite (CString.strchr_eq m p _ _ Hm Hs) in Eq; change (u8 47) with 47 in Eq; (rewrite decide_True in Eq by (cbn; lia)); cbn [CString.before Z.eqb Pos.eqb] in Eq; injection Eq as <-; cbn [length]; lia.
  - exists p. split_and!; [done| |lia|lia]. rewrite strip_done; [done|]. intros ?%Hb. done.
Qed.

Lemma strip_ok p s : str_at m p s ->
  exists p', strip_antisocial_prefixes L p m = Ok (p', m) /\ str_at m p' (clean s) /\ (p' = dot L \/ p <= p' <= p + zlen s).
Proof.
  intros Hs. unfold strip_antisocial_prefixes. rewrite (bind_ok _ _ _ (fuel_of m) m) by done. pose proof (str_at_fuel _ _ _ Hs) as Hf.
  destruct (strip_loop_ok (fuel_of m) p s Hs ltac:(lia)) as (q&Eq&Hq&Hr). rewrite (bind_ok _ _ _ _ _ Eq). unfold clean. destruct (strip s) as [|c t] eqn:Es.
  - rewrite (bind_ok _ _ _ _ _ (load_eq _ _ _ Hq)). exists (dot L). rewrite decide_True by auto. split_and!; [done|apply HL|by left].
  - pose proof Hq as (Ec&Hc&_). rewrite (bind_ok _ _ _ _ _ (load_eq _ _ _ Ec)). rewrite (proj2 (Z.eqb_neq c 0)) by lia.
    rewrite (bind_ok _ _ _ _ _ (CString.strcmp_eq m q (dotdot L) _ _ Hm Hq (lit_dotdot _ _ HL))). destruct (Z.eqb_spec (CString.lex (c :: t) [46; 46]) 0) as [E|E].
    + apply CString.lex_zero in E. exists (dot L). rewrite decide_True by auto. split_and!; [done|apply HL|by left].
    + exists q. rewrite decide_False; [by split_and!; [..|right]|]. intros [?|E']; [done|]. apply E, CString.lex_zero, E'.
Qed.
End strip.

(** ** Reading any header *)

Section parse.
Context (L : literals) (m : mem) (Hm : mem_ok m) (HL : lits_at m L).

(** [c] returns, with a result in [P], and changes nothing. *)
Definition yields {A} (P : A -> Prop) (c : M mem A) : Prop := exists a, c m = Ok (a, m) /\ P a.

Lemma yields_ret {A} (P : A -> Prop) a : P a -> yields P (ret a).
Proof. by exists a. Qed.
Lemma yields_bind {A B} (Q : A -> Prop) (P : B -> Prop) c (k : A -> M mem B) : yields Q c -> (forall a, Q a -> yields P (k a)) -> yields P (bind c k).
Proof. intros (a&E&Ha) Hk. destruct (Hk a Ha) as (b&Eb&Hb). exists b. split; [|done]. by rewrite (bind_ok _ _ _ _ _ E). Qed.

Context (h : ptr) (H : list Z) (HH : bytes_at m h H) (Hlen : length H = 512%nat).

Lemma yields_load i : 0 <= i < 512 -> yields (in_u 8) (load (h + i)).
Proof.
  intros Hi. destruct (lookup_lt_is_Some_2 H (Z.to_nat i) ltac:(lia)) as [b Hb]. destruct (proj1 (bytes_at_lookup m h H) HH _ _ Hb) as [E Hu].
  rewrite Z2Nat.id in E by lia. exists b. split; [by apply load_eq|done].
Qed.

Lemma yields_zeros n : forall i, 0 <= i -> i + Z.of_nat n <= 512 -> yields (fun _ => True) (is_all_zeros n (h + i)).
Proof.
  induction n as [|n IH]; intros i H0 Hn; cbn [is_all_zeros]; [by apply yields_ret|]. eapply yields_bind; [apply yields_load; lia|]. intros c _.
  case_match; [by apply yields_ret|]. rewrite <- Z.add_assoc. apply IH; lia.
Qed.

Lemma yields_chksum n : forall i v, 0 <= i -> i + Z.of_nat n <= 512 -> yields (fun _ => True) (chksum_loop n h i v).
Proof.
  induction n as [|n IH]; intros i v H0 Hn; cbn [chksum_loop]; [by apply yields_ret|].
  eapply (yields_bind (fun _ => True)); [case_match; [by apply yields_ret|]|intros c _; apply IH; lia].
  destruct (yields_load i ltac:(lia)) as (b&E&_). by exists b.
Qed.

Lemma yields_octal n : forall s ofs v, 0 <= s -> 0 <= ofs -> s + ofs + Z.of_nat n <= 512 -> 0 <= v -> yields (fun r => forall x, r = Some x -> 0 <= x) (octal_loop n (h + s) ofs v).
Proof.
  induction n as [|n IH]; intros s ofs v H0 H1 Hn Hv; cbn [octal_loop]; [by apply yields_ret|]. rewrite <- Z.add_assoc.
  eapply yields_bind; [apply yields_load; lia|]. intros c _. case_match; [case_match; [by apply yields_ret|]|].
  - apply IH; try lia. apply wrapu_in. lia.
  - case_match; apply yields_ret; [|done]. case_match; [|done]. by intros x [= <-].
Qed.

(** Bytes with a null among them begin with a string. *)
Lemma bytes_str l : forall p, bytes_at m p l -> 0 ∈ l -> exists s, str_at m p s /\ (length s < length l)%nat.
Proof.
  induction l as [|c l IH]; intros p Hl H0; [by apply elem_of_nil in H0|]. destruct Hl as (E&Hu&Hl). destruct (decide (c = 0)) as [->|Hc].
  - exists []. split; [exact E|cbn; lia].
  - apply elem_of_cons in H0 as [?|H0]; [done|]. destruct (IH _ Hl H0) as (s&Hs&Hlt). exists (c :: s). split; [|cbn; lia]. split_and!; [done|unfold in_u in Hu; lia..|done].
Qed.

Definition parsed (r : string + ptr * Z * Z) : Prop :=
  match r with
  | inl _ => True
  | inr (name, type, size) =>
      (name = NULL /\ type = USTAR_EOF /\ size = 0) \/
      ((exists s, str_at m name s /\ safe s /\ (length s <= 99)%nat) /\ type ∈ [USTAR_REGULAR; USTAR_DIRECTORY] /\ 0 <= size <= INT_MAX)
  end.

Lemma parse_yields : yields parsed (ustar_parse_header L h).
Proof.
  unfold ustar_parse_header. eapply yields_bind; [pose proof (yields_zeros 512 0) as Hz; rewrite Z.add_0_r in Hz; apply Hz; lia|]. intros z _. destruct z; [apply yields_ret; by left|].
  eapply (yields_bind (fun _ => True)).
  { pose proof (CString.memcmp_eq m (h + 257) (ustar L) (take 6 (drop 257 H)) (Stdio.chars "ustar" ++ [0]) Hm) as Hc. rewrite length_take, length_drop, Hlen in Hc.
    eexists. split; [apply Hc; [|by apply str_bytes, HL|done]|done]. pose proof HH as HH'. rewrite <- (take_drop 257 H) in HH'. apply bytes_at_app in HH' as [_ HH'].
    rewrite length_take, Hlen in HH'. rewrite <- (take_drop 6 (drop 257 H)) in HH'. by apply bytes_at_app in HH' as [HH' _]. }
  intros r _. case_match; [by apply yields_ret|]. eapply yields_bind; [apply yields_load; lia|]. intros v0 _.
  eapply (yields_bind (fun _ => True)); [case_match; [by apply yields_ret|]; rewrite <- Z.add_assoc; eapply yields_bind; [apply yields_load; lia|]; intros v1 _; by apply yields_ret|].
  intros bad _. destruct bad; [by apply yields_ret|]. eapply yields_bind; [apply yields_octal; lia|]. intros [chk|] _; [|by apply yields_ret].
  eapply yields_bind; [apply yields_chksum; lia|]. intros c _. case_match; [by apply yields_ret|]. rewrite Z.add_0_r.
  eapply (yields_bind (fun b => H !! 99%nat = Some b)).
  { destruct (lookup_lt_is_Some_2 H 99 ltac:(lia)) as [b Hb]. destruct (proj1 (bytes_at_lookup m h H) HH _ _ Hb) as [E _]. exists b. split; [by apply load_eq|done]. }
  intros last Hlast. eapply (yields_bind (fun b => b = false -> last = 0)).
  { destruct (Z.eqb_spec last 0) as [->|]; cbn [negb]; [|by apply yields_ret]. eapply yields_bind; [apply yields_load; lia|]. intros p _. by apply yields_ret. }
  intros long Hlong. destruct long; [by apply yields_ret|]. specialize (Hlong eq_refl). subst last. eapply yields_bind; [apply yields_load; lia|]. intros ty _.
  destruct (negb (ty =? 48) && negb (ty =? 53)) eqn:Ety; [by apply yields_ret|].
  eapply (yields_bind (fun v => match v with inr x => 0 <= x <= INT_MAX | inl _ => True end)).
  { case_match; [|apply yields_ret; lia]. eapply yields_bind; [apply yields_octal; lia|]. intros [v|] Hv; apply yields_ret; [|done]. destruct (Z.ltb_spec INT_MAX v); [done|]. specialize (Hv v eq_refl). lia. }
  intros [msg|size] Hsize; [by apply yields_ret|].
  destruct (bytes_str (take 100 H) h) as (s&Hs&Hl).
  { rewrite <- (take_drop 100 H) in HH. by apply bytes_at_app in HH as [HH' _]. }
  { apply list_elem_of_lookup. exists 99%nat. by rewrite lookup_take_lt by lia. }
  rewrite length_take, Hlen in Hl. destruct (strip_ok L m Hm HL h s Hs) as (p'&E&Hp&_). exists (inr (p', ty, size)). split; [by rewrite (bind_ok _ _ _ _ _ E)|].
  right. split_and!; [|rewrite !elem_of_cons; lia|lia|lia]. exists (clean s). split_and!; [done|apply clean_safe|]. pose proof (strip_length s). unfold clean. case_decide; cbn; lia.
Qed.
End parse.

(** C20. Whatever 512 bytes are taken for a header, parsing them ends, reads
    nothing outside of them and changes nothing; it fails with a message, finds
    the end of the archive, or gives a size that fits an [int], a type that is
    a file or a directory, and a name of at most 99 characters that is not
    empty, is not "..", and does not begin with "/", "./" or "../". *)
Theorem parse_header_safe L m h H : mem_ok m -> lits_at m L -> bytes_at m h H -> length H = 512%nat ->
  exists r, ustar_parse_header L h m = Ok (r, m) /\
    match r with
    | inl _ => True
    | inr (name, type, size) =>
        (name = NULL /\ type = USTAR_EOF /\ size = 0) \/
        ((exists s, str_at m name s /\ safe s /\ (length s <= 99)%nat) /\ type ∈ [USTAR_REGULAR; USTAR_DIRECTORY] /\ 0 <= size <= INT_MAX)
    end.
Proof. intros Hm HL HH Hl. exact (parse_yields L m Hm HL h H HH Hl). Qed.

(** ** Octal fields *)

Definition octal (ds : list Z) : Z := fold_left (fun v c => 8 * v + (c - 48)) ds 0.
Definition octal_digit (c : Z) : Prop := 48 <= c <= 55.

Lemma denotes_octal ds v : StdioSpec.denotes Stdio.base_o ds v -> Forall octal_digit ds /\ octal (rev ds) = v.
Proof.
  induction 1 as [|d ds v Hd _ [IH1 IH2]]; [done|]. rewrite (StdioSpec.plain_o d Hd). cbn [Stdio.base Stdio.base_o] in *. split.
  - constructor; [|done]. unfold octal_digit. lia.
  - cbn [rev]. unfold octal in *. rewrite fold_left_app. cbn [fold_left]. rewrite IH2. lia.
Qed.

Lemma octal_zeros k ds : octal (replicate k 48 ++ ds) = octal ds.
Proof. unfold octal. rewrite fold_left_app. f_equal. induction k as [|k IH]; [done|]. exact IH. Qed.

(** The numeral of a conversion %0[w]o for a number that fits. *)
Lemma octal_field w v m : 0 < w < 20 -> 0 <= v < 8 ^ w -> v < 2 ^ 32 ->
  exists ds, Stdio.format_integer StdioSpec.collect v false false Stdio.base_o (Stdio.Conv Stdio.ZERO w (-1) Stdio.INT) (m, []) = Ok (tt, (m, ds)) /\
    zlen ds = w /\ Forall octal_digit ds /\ octal ds = v.
Proof.
  intros Hw Hv Hv32. set (c := Stdio.Conv Stdio.ZERO w (-1) Stdio.INT).
  destruct (StdioSpec.format_integer_ok StdioSpec.collect v false false Stdio.base_o c (m, [])) as (body&Hn&E); [right; by left|unfold in_u; lia|cbn; lia|].
  destruct (StdioSpec.numeral_plain Stdio.base_o c v body ltac:(right; by left) Hn eq_refl eq_refl ltac:(cbn; lia)) as (Hd&_&Hzero&Hlead).
  destruct (denotes_octal _ _ Hd) as [Hf Ho]. rewrite rev_involutive in Ho. apply Forall_rev in Hf. rewrite rev_involutive in Hf.
  assert (zlen body <= w) as Hl.
  { destruct (decide (v = 0)) as [Hz|Hz]; [rewrite (Hzero Hz); cbn; lia|]. specialize (Hlead Hz). rewrite <- (rev_involutive body), StdioSpec.head_rev in Hlead.
    pose proof (StdioSpec.denotes_big _ _ _ ltac:(right; by left) Hd Hlead) as Hb. rewrite length_rev in Hb. cbn [Stdio.base Stdio.base_o] in Hb.
    destruct (decide (zlen body <= w)); [done|]. pose proof (Z.pow_le_mono_r 8 w (zlen body - 1) ltac:(lia) ltac:(lia)). lia. }
  exists (replicate (Z.to_nat (w - zlen body)) 48 ++ body). split_and!.
  - rewrite E, StdioSpec.collect_all. unfold StdioSpec.field, StdioSpec.lead_of, StdioSpec.sign_of, StdioSpec.prefix_of. cbn [Stdio.width Stdio.flags fst snd c].
    change (Stdio.has Stdio.ZERO Stdio.POUND) with false. change (Stdio.has Stdio.ZERO Stdio.ZERO) with true. change (Stdio.has Stdio.ZERO Stdio.MINUS) with false.
    change (Z.land Stdio.ZERO (Z.lor Stdio.MINUS Stdio.ZERO) =? 0) with false. cbn [andb app]. cbn [negb Z.eqb app replicate]. rewrite app_nil_r.
    cbn [List.length]. rewrite Z.sub_0_r, Z.max_r by lia. done.
  - rewrite length_app, length_replicate. lia.
  - apply Forall_app. split; [apply Forall_replicate; unfold octal_digit; lia|done].
  - by rewrite octal_zeros.
Qed.

Lemma octal_text w v m : w ∈ [7; 11] -> 0 <= v < 8 ^ w -> v < 2 ^ 32 ->
  exists ds, StdioSpec.text (Stdio.chars (if w =? 7 then "%07o" else "%011o")) [v] m = Ok ds /\ zlen ds = w /\ Forall octal_digit ds /\ octal ds = v.
Proof.
  intros Hw Hv Hv32. destruct (octal_field w v m) as (ds&E&Hds); [set_unfold; lia|done|done|]. exists ds. split; [|done].
  unfold StdioSpec.text. enough (Stdio.__vprintf fst StdioSpec.collect (Stdio.chars (if w =? 7 then "%07o" else "%011o")) [v] (m, []) = Ok (tt, (m, ds))) as -> by done.
  rewrite <- E. clear E Hds.
  assert (exists f, Stdio.chars (if w =? 7 then "%07o" else "%011o") = 37 :: f /\ hd 0 f =? 37 = false /\
    Stdio.parse_conversion f [v] (m, @nil Z) = Ok (([111], Stdio.Conv Stdio.ZERO w (-1) Stdio.INT, [v]), (m, []))) as (f&->&Hf&Ep).
  { apply elem_of_cons in Hw as [->|[->|[]%elem_of_nil]%elem_of_cons]; by eexists. }
  unfold Stdio.__vprintf. cbn [List.length Stdio.vprintf_loop]. change (negb (37 =? Stdio.ch "%")) with false. cbv iota. change (Stdio.ch "%") with 37. rewrite Hf.
  rewrite (bind_ok _ _ _ _ _ Ep). cbn [hd]. unfold Stdio.convert. change ((111 =? Stdio.ch "d") || (111 =? Stdio.ch "i")) with false. change (_ || (111 =? Stdio.ch "X")) with true. cbv iota.
  cbn [Stdio.unsigned_arg Stdio.type Stdio.va_word]. change (Stdio.base_of 111) with Stdio.base_o. unfold bind, ret. cbn [fst snd]. rewrite wrapu_small by (unfold in_u; lia).
  destruct (Stdio.format_integer _ _ _ _ _ _ _) as [[[] s']|]; [|done]. by destruct (List.length f).
Qed.

(** Reading the digits back. *)
Lemma octal_read m s ds : forall n ofs v, bytes_at m (s + ofs) (ds ++ [0]) -> Forall octal_digit ds -> (length ds < n)%nat -> 0 < ofs + zlen ds -> 0 <= v ->
  fold_left (fun v c => 8 * v + (c - 48)) ds v < 2 ^ 32 ->
  octal_loop n s ofs v m = Ok (Some (fold_left (fun v c => 8 * v + (c - 48)) ds v), m).
Proof.
  induction ds as [|c ds IH]; intros n ofs v Hb Hd Hn Ho Hv Hr; (destruct n as [|n]; [cbn in Hn; lia|]); cbn [octal_loop app] in *; destruct Hb as (E&_&Hb); rewrite (bind_ok _ _ _ _ _ (load_eq _ _ _ E)).
  - cbn in Ho |- *. by rewrite (proj2 (Z.ltb_lt 0 ofs)) by lia.
  - apply Forall_cons in Hd as [Hc Hd]. unfold octal_digit in Hc. rewrite (proj2 (Z.leb_le 48 c)), (proj2 (Z.leb_le c 55)) by lia. cbn [andb fold_left] in *.
    assert (forall l u, Forall octal_digit l -> 0 <= u -> u <= fold_left (fun v c => 8 * v + (c - 48)) l u) as Hmono.
    { clear. induction l as [|c l IH]; intros u Hl Hu; cbn [fold_left]; [lia|]. apply Forall_cons in Hl as [Hc Hl]. unfold octal_digit in Hc. specialize (IH (8 * u + (c - 48)) Hl ltac:(lia)). lia. }
    pose proof (Hmono ds (8 * v + (c - 48)) Hd ltac:(lia)). rewrite (proj2 (Z.ltb_ge _ v)) by (change (UINT_MAX / 8) with 536870911; lia).
    rewrite wrapu_small by (unfold in_u; lia). replace (c - 48 + v * 8) with (8 * v + (c - 48)) by lia. cbn [length] in *. apply IH; try done; try lia. by rewrite Z.add_assoc.
Qed.

(** ** Writing fields *)

Definition splice (ofs : Z) (bs H : list Z) : list Z := take (Z.to_nat ofs) H ++ bs ++ drop (Z.to_nat ofs + length bs) H.
Definition holds (H : list Z) (ofs : Z) (bs : list Z) : Prop := take (length bs) (drop (Z.to_nat ofs) H) = bs.

Lemma splice_len ofs bs H : 0 <= ofs -> ofs + zlen bs <= zlen H -> length (splice ofs bs H) = length H.
Proof. intros. unfold splice. rewrite !length_app, length_take, length_drop. lia. Qed.
Lemma splice_lookup ofs bs H i : 0 <= ofs -> ofs + zlen bs <= zlen H ->
  splice ofs bs H !! i = if decide (ofs <= Z.of_nat i < ofs + zlen bs) then bs !! (i - Z.to_nat ofs)%nat else H !! i.
Proof.
  intros. unfold splice. case_decide.
  - rewrite lookup_app_r, length_take by (rewrite length_take; lia). rewrite lookup_app_l by lia. f_equal. lia.
  - destruct (decide (Z.of_nat i < ofs)); [rewrite lookup_app_l, lookup_take_lt by (rewrite ?length_take; lia); done|].
    rewrite lookup_app_r, length_take by (rewrite length_take; lia). rewrite lookup_app_r, lookup_drop by lia. f_equal. lia.
Qed.
Lemma holds_lookup H ofs bs : 0 <= ofs -> ofs + zlen bs <= zlen H -> (holds H ofs bs <-> forall k, (k < length bs)%nat -> H !! (Z.to_nat ofs + k)%nat = bs !! k).
Proof.
  intros H0 Hl. unfold holds. split.
  - intros E k Hk. transitivity (take (length bs) (drop (Z.to_nat ofs) H) !! k); [|by rewrite E]. by rewrite lookup_take_lt, lookup_drop by lia.
  - intros Hk. apply list_eq. intros k. destruct (decide (k < length bs)%nat).
    + rewrite lookup_take_lt, lookup_drop by done. by apply Hk.
    + rewrite (lookup_ge_None_2 bs) by lia. apply lookup_ge_None_2. rewrite length_take. lia.
Qed.
Lemma holds_same ofs bs H : 0 <= ofs -> ofs + zlen bs <= zlen H -> holds (splice ofs bs H) ofs bs.
Proof.
  intros. apply holds_lookup; [done|rewrite splice_len; done|]. intros k Hk. rewrite splice_lookup, decide_True by lia. f_equal. lia.
Qed.
Lemma holds_other ofs bs ofs' bs' H : 0 <= ofs -> ofs + zlen bs <= zlen H -> 0 <= ofs' -> ofs' + zlen bs' <= zlen H -> ofs + zlen bs <= ofs' \/ ofs' + zlen bs' <= ofs ->
  holds H ofs' bs' -> holds (splice ofs bs H) ofs' bs'.
Proof.
  intros ? ? ? ? ? Hh. apply holds_lookup; [done|rewrite splice_len; done|]. intros k Hk. rewrite splice_lookup, decide_False by lia.
  by apply (proj1 (holds_lookup H ofs' bs' ltac:(done) ltac:(done)) Hh).
Qed.

(** ** The checksum *)

(** The sum of the bytes from position [i] on, with spaces for the checksum. *)
Fixpoint csum (i : Z) (l : list Z) : Z :=
  match l with [] => 0 | b :: l' => (if (chksum_ <=? i) && (i <? chksum_ + 8) then 32 else b) + csum (i + 1) l' end.

Lemma csum_app i l1 l2 : csum i (l1 ++ l2) = csum i l1 + csum (i + zlen l1) l2.
Proof. revert i. induction l1 as [|b l1 IH]; intros i; cbn [csum app length]; [by rewrite Z.add_0_r|]. rewrite IH. replace (i + 1 + zlen l1) with (i + Z.of_nat (S (length l1))) by lia. lia. Qed.
Lemma csum_field l i : chksum_ <= i -> i + zlen l <= chksum_ + 8 -> csum i l = 32 * zlen l.
Proof.
  revert i. induction l as [|b l IH]; intros i H1 H2; cbn [csum length] in *; [done|]. rewrite IH by lia. rewrite (proj2 (Z.leb_le _ _)), (proj2 (Z.ltb_lt _ _)) by lia. cbn [andb]. lia.
Qed.
Lemma csum_splice bs H : length bs = 8%nat -> length H = 512%nat -> csum 0 (splice chksum_ bs H) = csum 0 H.
Proof.
  intros Hb Hl. rewrite <- (take_drop 148 H) at 2. rewrite <- (take_drop 8 (drop 148 H)). unfold splice. rewrite Hb. change (Z.to_nat 148) with 148%nat. rewrite drop_drop.
  rewrite !csum_app. rewrite !length_take, length_drop, Hl, Hb, !(csum_field _ 148) by (rewrite ?length_take, ?length_drop; lia). rewrite length_take, length_drop. rewrite Hl, Hb. done.
Qed.
Lemma csum_bound i l : Forall (in_u 8) l -> 0 <= csum i l <= 255 * zlen l.
Proof. intros Hl. revert i. induction Hl as [|b l Hb _ IH]; intros i; cbn [csum length]; [lia|]. specialize (IH (i + 1)). unfold in_u in Hb. case_match; lia. Qed.

Lemma chksum_eq m h l : forall i v, bytes_at m (h + i) l -> 0 <= v -> v + 255 * zlen l < 2 ^ 32 -> chksum_loop (length l) h i v m = Ok (v + csum i l, m).
Proof.
  induction l as [|b l IH]; intros i v Hb Hv Hr; cbn [chksum_loop csum length] in *; [unfold ret; by rewrite Z.add_0_r|]. destruct Hb as (E&Hu&Hb). unfold in_u in Hu.
  set (c := if (chksum_ <=? i) && (i <? chksum_ + 8) then 32 else b).
  rewrite (bind_ok _ _ _ c m) by (unfold c; case_match; [done|by apply load_eq]). assert (0 <= c <= 255) by (unfold c; case_match; lia).
  rewrite wrapu_small by (unfold in_u; lia). rewrite IH; [|by rewrite Z.add_assoc|lia|lia]. unfold c. do 2 f_equal. lia.
Qed.

(** ** Making a header *)

Section make.
Context (L : literals) (m0 : mem) (h : ptr).

(** [m] has the header [H]; the rest is as in [m0]. *)
Record frame (m : mem) (H : list Z) : Prop := Frame {
  fr_ok : mem_ok m; fr_out : forall x, ~ (h <= x < h + 512) -> m !! x = m0 !! x; fr_bytes : bytes_at m h H; fr_len : length H = 512%nat }.

Lemma frame_write m H ofs bs : frame m H -> 0 <= ofs -> ofs + zlen bs <= 512 -> Forall (in_u 8) bs -> frame (write m (h + ofs) bs) (splice ofs bs H).
Proof.
  intros [Hk Ho Hb Hl] H0 Hle Hu. pose proof (bytes_at_mapped _ _ _ Hb) as Hmap. rewrite Hl in Hmap. split.
  - apply StdioSpec.mem_ok_write; [done|]. intros x Hx. apply Hmap. lia.
  - intros x Hx. rewrite lookup_write, decide_False by lia. by apply Ho.
  - apply bytes_at_lookup. intros i b. rewrite splice_lookup, lookup_write by lia. case_decide as Hi.
    + rewrite decide_True by lia. replace (Z.to_nat (h + Z.of_nat i - (h + ofs))) with (i - Z.to_nat ofs)%nat by lia. intros E. split; [done|]. rewrite Forall_forall in Hu. apply Hu. by eapply list_elem_of_lookup_2.
    + rewrite decide_False by lia. by apply (proj1 (bytes_at_lookup m h H)).
  - by rewrite splice_len by lia.
Qed.

Lemma frame_str m H p s : frame m H -> str_at m0 p s -> p + zlen s < h \/ h + 512 <= p -> str_at m p s.
Proof. intros Hf Hs Ho. eapply str_at_ext; [|exact Hs]. intros x Hx. apply (fr_out _ _ Hf). lia. Qed.

(** [op] replaces the bytes from [ofs] on by [bs]. *)
Definition does {A} (op : M mem A) (ofs : Z) (bs : list Z) : Prop :=
  forall m H, frame m H -> exists r m', op m = Ok (r, m') /\ frame m' (splice ofs bs H).

Lemma wp_does {A B} (op : M mem A) ofs bs (k : A -> M mem B) Q m H : does op ofs bs -> frame m H ->
  (forall r m', frame m' (splice ofs bs H) -> wp (k r) Q m') -> wp (bind op k) Q m.
Proof. intros Hd Hf Hk. destruct (Hd m H Hf) as (r&m'&E&Hf'). apply wp_bind. unfold wp at 1. rewrite E. by apply Hk. Qed.

Lemma does_store ofs c : 0 <= ofs < 512 -> in_u 8 c -> does (store (h + ofs) c) ofs [c].
Proof.
  intros Ho Hc m H Hf. exists tt, (write m (h + ofs) [c]). split; [|apply frame_write; [done|lia|cbn; lia|constructor; [done|constructor]]].
  apply store_eq; [|done]. pose proof (bytes_at_mapped _ _ _ (fr_bytes _ _ Hf)) as Hm. rewrite (fr_len _ _ Hf) in Hm. apply Hm. lia.
Qed.

Lemma frame_mapped m H ofs n : frame m H -> 0 <= ofs -> ofs + n <= 512 -> mapped m (h + ofs) n.
Proof. intros Hf ? ? x Hx. pose proof (bytes_at_mapped _ _ _ (fr_bytes _ _ Hf)) as Hm. rewrite (fr_len _ _ Hf) in Hm. apply Hm. lia. Qed.

Lemma does_strlcpy ofs src s size : 0 <= ofs -> ofs + size <= 512 -> str_at m0 src s -> src + zlen s < h \/ h + 512 <= src -> zlen s < size -> 0 < h ->
  does (CString.strlcpy (h + ofs) src size) ofs (s ++ [0]).
Proof.
  intros H0 Ho Hs Hout Hl Hh m H Hf. pose proof (frame_str m H src s Hf Hs Hout) as Hs'.
  assert (CString.clipped s (Z.to_nat size) = s ++ [0]) as Ec by (unfold CString.clipped; by rewrite take_ge by lia).
  exists (zlen s), (write m (h + ofs) (s ++ [0])). split.
  - rewrite (CString.strlcpy_eq m (h + ofs) src s size); [|apply Hf|done|unfold in_u; lia|lia|].
    + by rewrite (proj2 (Z.ltb_lt 0 size)), Ec by lia.
    + intros _. rewrite Ec, length_app. cbn [length]. split; [eapply frame_mapped; [done|lia|lia]|lia].
  - apply frame_write; [done|done|rewrite length_app; cbn; lia|]. apply str_bytes in Hs as [Hs _]. by eapply bytes_at_in_u.
Qed.

Lemma does_snprintf ofs w v ds fmt : 0 <= ofs -> ofs + w + 1 <= 512 -> 0 < w -> StdioSpec.text (Stdio.chars fmt) [v] ∅ = Ok ds -> zlen ds = w -> Forall octal_digit ds ->
  does (snprintf (h + ofs) (w + 1) fmt [v]) ofs (ds ++ [0]).
Proof.
  intros H0 Ho Hw Ht Hl Hd m H Hf. assert (u8 <$> ds = ds) as Eu.
  { clear -Hd. induction Hd as [|c ds Hc _ IH]; [done|]. cbn. rewrite IH, wrapu_small; [done|]. unfold octal_digit, in_u in *. lia. }
  exists w, (write m (h + ofs) (ds ++ [0])). split.
  - unfold snprintf. rewrite (StdioSpec.vsnprintf_ok m ∅ (h + ofs) (w + 1) _ [v] ds) by (done || lia || (eapply frame_mapped; [done|lia|lia])).
    rewrite (proj2 (Z.ltb_lt 0 (w + 1))) by lia. rewrite take_ge by lia. by rewrite Eu, Hl.
  - apply frame_write; [done|done|rewrite length_app; cbn; lia|]. apply Forall_app. split; [|repeat constructor; unfold in_u; lia].
    eapply Forall_impl; [exact Hd|]. unfold octal_digit, in_u. intros; cbn beta in *; lia.
Qed.

(** The fields known to be in a header: where, how long, and what. *)
Definition facts (H : list Z) (l : list (Z * Z * list Z)) : Prop :=
  Forall (fun e => zlen e.2 = e.1.2 /\ 0 <= e.1.1 /\ e.1.1 + e.1.2 <= 512 /\ holds H e.1.1 e.2) l.
Definition disjoint (ofs n : Z) (l : list (Z * Z * list Z)) : Prop := Forall (fun e => ofs + n <= e.1.1 \/ e.1.1 + e.1.2 <= ofs) l.

Lemma facts_splice H l ofs n bs : length H = 512%nat -> facts H l -> zlen bs = n -> 0 <= ofs -> ofs + n <= 512 -> disjoint ofs n l -> facts (splice ofs bs H) ((ofs, n, bs) :: l).
Proof.
  intros Hl Hf Hn H0 Ho Hd. constructor; [split_and!; [done|done|done|apply holds_same; cbn; lia]|].
  apply Forall_forall. intros [[o k] b] He. unfold facts, disjoint in *. rewrite Forall_forall in Hf, Hd. destruct (Hf _ He) as (?&?&?&?). specialize (Hd _ He). cbn in *.
  split_and!; try done. apply holds_other; (done || lia).
Qed.

Lemma wp_field {A B} (op : M mem A) ofs n bs l (k : A -> M mem B) Q m H : does op ofs bs -> frame m H -> facts H l -> zlen bs = n -> 0 <= ofs -> ofs + n <= 512 -> disjoint ofs n l ->
  (forall r m' H', frame m' H' -> facts H' ((ofs, n, bs) :: l) -> H' = splice ofs bs H -> wp (k r) Q m') -> wp (bind op k) Q m.
Proof. intros Hd Hf Hl Hn H0 Ho Hdis Hk. eapply wp_does; [done|done|]. intros r m' Hf'. eapply Hk; [done| |done]. apply facts_splice; try done. apply Hf. Qed.

Context (Hm0 : mem_ok m0) (HL : lits_at m0 L).
Definition apart (p : ptr) (s : list Z) : Prop := p + zlen s < h \/ h + 512 <= p.
Record lits_apart : Prop := LitsApart {
  ap_dot : apart (dot L) [46]; ap_zeros7 : apart (zeros7 L) (Stdio.chars "0000000"); ap_ustar : apart (ustar L) (Stdio.chars "ustar"); ap_root : apart (root L) (Stdio.chars "root");
  ap_dot_slash : apart (dot_slash L) [46; 47]; ap_dotdot_slash : apart (dotdot_slash L) [46; 46; 47]; ap_dotdot : apart (dotdot L) [46; 46] }.
Context (HA : lits_apart).

Lemma frame_lits m H : frame m H -> lits_at m L.
Proof. intros Hf. split; (eapply frame_str; [exact Hf|apply HL|apply HA]). Qed.

(** The header for a file [name]: a valid checksum and all that is read back. *)
Definition header_of (name : list Z) (type size : Z) (H : list Z) : Prop :=
  exists ds cs, zlen ds = 11 /\ Forall octal_digit ds /\ octal ds = size /\ zlen cs = 7 /\ Forall octal_digit cs /\ octal cs = csum 0 H /\
    facts H [(0, zlen name + 1, name ++ [0]); (99, 1, [0]); (prefix_, 1, [0]); (size_, 12, ds ++ [0]); (typeflag_, 1, [type]);
      (magic_, 6, Stdio.chars "ustar" ++ [0]); (version_ + 1, 1, [48]); (version_, 1, [48]); (chksum_, 8, cs ++ [0])].

Lemma named name : 0 <= zlen name <= 99 -> forall H00, length H00 = 512%nat ->
  facts (splice 0 (name ++ [0]) (splice 0 (replicate 512 0) H00)) [(0, zlen name + 1, name ++ [0]); (99, 1, [0]); (prefix_, 1, [0])].
Proof.
  intros Hn H00 Hl. assert (splice 0 (replicate 512 0) H00 = replicate 512 0) as -> by (unfold splice; cbn [Z.to_nat take app Nat.add]; rewrite length_replicate, drop_ge by lia; apply app_nil_r).
  assert (forall i, (i < 512)%nat -> splice 0 (name ++ [0]) (replicate 512 0) !! i = if decide (Z.of_nat i < zlen name + 1) then (name ++ [0]) !! i else Some 0) as Hlook.
  { intros i Hi. rewrite splice_lookup by (rewrite ?length_app, ?length_replicate; cbn [length]; lia). rewrite length_app. cbn [length].
    repeat case_decide; try lia; [f_equal; lia|]. by rewrite lookup_replicate_2 by lia. }
  assert (forall o, 99 <= o < 512 -> holds (splice 0 (name ++ [0]) (replicate 512 0)) o [0]) as Hz.
  { intros o Ho. apply holds_lookup; [lia|rewrite splice_len, length_replicate by (rewrite ?length_app, ?length_replicate; cbn [length]; lia); cbn; lia|]. intros k Hk. cbn in Hk.
    rewrite Hlook by lia. case_decide; [|by replace k with 0%nat by lia]. rewrite lookup_app_r by lia. by replace (Z.to_nat o + k - length name)%nat with 0%nat by lia; replace k with 0%nat by lia. }
  repeat constructor; cbn [fst snd length]; try lia; try (apply Hz; lia).
  - rewrite length_app. cbn [length]. lia.
  - apply holds_same; [lia|]. rewrite length_app, length_replicate. cbn [length]. lia.
Qed.

Lemma apart_suffix p s p' s' : str_at m0 p s -> apart p s -> str_at m0 p' s' -> p <= p' <= p + zlen s -> apart p' s'.
Proof.
  intros Hs Ha Hs' Hr. pose proof (str_at_drop _ _ _ (Z.to_nat (p' - p)) Hs ltac:(lia)) as Hd. rewrite Z2Nat.id in Hd by lia. replace (p + (p' - p)) with p' in Hd by lia.
  rewrite (str_at_inj _ _ _ _ Hs' Hd). unfold apart in *. rewrite length_drop. lia.
Qed.

Lemma does_memset : does (CString.memset h 0 512) 0 (replicate 512 0).
Proof.
  intros m H Hf. exists h, (write m (h + 0) (replicate 512 0)). split.
  - rewrite Z.add_0_r. rewrite (CString.memset_eq m h 0 512); [done|apply Hf| |lia]. pose proof (frame_mapped m H 0 512 Hf) as Hm. rewrite Z.add_0_r in Hm. apply Hm; lia.
  - apply frame_write; [done|lia|rewrite length_replicate; lia|]. apply Forall_replicate. unfold in_u. lia.
Qed.

Ltac put := match goal with |- disjoint _ _ _ => unfold disjoint; repeat (apply Forall_cons; split; [cbn [fst snd]; lia|]); by apply Forall_nil | |- zlen _ = _ => first [reflexivity | rewrite ?length_app; cbn [length]; lia] | _ => lia end.

Lemma w7 : 7 ∈ [7; 11].
Proof. by apply (bool_decide_unpack _). Qed.
Lemma w11 : 11 ∈ [7; 11].
Proof. by apply (bool_decide_unpack _). Qed.

Lemma make_ok file_name s type size H00 : str_at m0 file_name s -> apart file_name s -> bytes_at m0 h H00 -> length H00 = 512%nat -> 0 < h ->
  type ∈ [USTAR_REGULAR; USTAR_DIRECTORY] -> 0 <= size < 2 ^ 31 ->
  wp (ustar_make_header L file_name type size h)
    (fun b m' => if decide (zlen (clean s) <= 99) then b = true /\ exists H, frame m' H /\ header_of (clean s) type size H else b = false /\ m' = m0) m0.
Proof.
  intros Hs Ha HH Hl Hh Ht Hsz. assert (frame m0 H00) as Hf by by split. assert (in_u 8 type) as Hu by (unfold in_u; set_unfold; lia).
  unfold ustar_make_header. apply wp_bind, wp_assert. split; [rewrite !elem_of_cons in Ht; destruct Ht as [->|[->|Ht]]; [done|done|by apply elem_of_nil in Ht]|].
  destruct (strip_ok L m0 Hm0 HL file_name s Hs) as (p&E&Hp&Hr). apply wp_bind. unfold wp at 1. rewrite E. apply wp_bind. unfold wp at 1. rewrite (CString.strlen_eq _ _ _ Hm0 Hp).
  assert (apart p (clean s)) as Hap.
  { destruct Hr as [->|Hr]; [|exact (apart_suffix _ _ _ _ Hs Ha Hp Hr)]. rewrite (str_at_inj _ _ _ _ Hp (lit_dot _ _ HL)). apply HA. }
  destruct (Z.ltb_spec 99 (zlen (clean s))); case_decide as Hdec; try lia; [by apply wp_ret|].
  eapply wp_does; [apply does_memset|done|]. intros _ m1 Hf1. eapply wp_does; [apply (does_strlcpy 0 p (clean s) 100); (done || lia)|done|]. intros _ m2 Hf2.
  pose proof (named (clean s) ltac:(lia) H00 Hl) as F2. revert Hf2 F2. generalize (splice 0 (clean s ++ [0]) (splice 0 (replicate 512 0) H00)). intros H2 Hf2 F2. clear Hf1 m1.
  destruct (octal_text 7 (if type =? 48 then 420 else 493) ∅) as (md&Emd&Lmd&Dmd&_); [exact w7|destruct (type =? 48); lia|destruct (type =? 48); lia|].
  eapply (wp_field _ 100 8); [apply (does_snprintf 100 7 _ md); (done || lia)|exact Hf2|exact F2|put..|]. intros _ m3 H3 Hf3 F3 _.
  eapply (wp_field _ 108 8); [apply (does_strlcpy 108 _ (Stdio.chars "0000000") 8); [lia|lia|apply HL|apply HA|cbn; lia|done]|exact Hf3|exact F3|put..|]. intros _ m4 H4 Hf4 F4 _.
  eapply (wp_field _ 116 8); [apply (does_strlcpy 116 _ (Stdio.chars "0000000") 8); [lia|lia|apply HL|apply HA|cbn; lia|done]|exact Hf4|exact F4|put..|]. intros _ m5 H5 Hf5 F5 _.
  destruct (octal_text 11 (u32 size) ∅) as (ds&Eds&Lds&Dds&Vds); [exact w11|rewrite wrapu_small by (unfold in_u; lia); lia|rewrite wrapu_small by (unfold in_u; lia); lia|]. rewrite wrapu_small in Vds by (unfold in_u; lia).
  eapply (wp_field _ 124 12); [apply (does_snprintf 124 11 _ ds); (done || lia)|exact Hf5|exact F5|put..|]. intros _ m6 H6 Hf6 F6 _.
  destruct (octal_text 11 1136102400 ∅) as (mt&Emt&Lmt&Dmt&_); [exact w11|lia|lia|].
  eapply (wp_field _ 136 12); [apply (does_snprintf 136 11 _ mt); (done || lia)|exact Hf6|exact F6|put..|]. intros _ m7 H7 Hf7 F7 _.
  eapply (wp_field _ 156 1); [apply does_store; [lia|exact Hu]|exact Hf7|exact F7|put..|]. intros _ m8 H8 Hf8 F8 _.
  eapply (wp_field _ 257 6); [apply (does_strlcpy 257 _ (Stdio.chars "ustar") 6); [lia|lia|apply HL|apply HA|cbn; lia|done]|exact Hf8|exact F8|put..|]. intros _ m9 H9 Hf9 F9 _.
  rewrite <- !Z.add_assoc. change (263 + 1) with 264.
  eapply (wp_field _ 264 1); [apply does_store; [lia|unfold in_u; lia]|exact Hf9|exact F9|put..|]. intros _ m10 H10 Hf10 F10 _.
  eapply (wp_field _ 263 1); [apply does_store; [lia|unfold in_u; lia]|exact Hf10|exact F10|put..|]. intros _ m11 H11 Hf11 F11 _.
  eapply (wp_field _ 297 5); [apply (does_strlcpy 297 _ (Stdio.chars "root") 32); [lia|lia|apply HL|apply HA|cbn; lia|done]|exact Hf11|exact F11|put..|]. intros _ m12 H12 Hf12 F12 _.
  eapply (wp_field _ 265 5); [apply (does_strlcpy 265 _ (Stdio.chars "root") 32); [lia|lia|apply HL|apply HA|cbn; lia|done]|exact Hf12|exact F12|put..|]. intros _ m13 H13 Hf13 F13 _.
  pose proof (fr_bytes _ _ Hf13) as B13. pose proof (csum_bound 0 H13 (bytes_at_in_u _ _ _ B13)) as Hc. rewrite (fr_len _ _ Hf13) in Hc.
  pose proof (chksum_eq m13 h H13 0 0) as Es. rewrite (fr_len _ _ Hf13), Z.add_0_r, Z.add_0_l in Es. apply wp_bind. unfold wp at 1, calculate_chksum. rewrite Es by (done || lia).
  destruct (octal_text 7 (csum 0 H13) ∅) as (cs&Ecs&Lcs&Dcs&Vcs); [exact w7|lia|lia|].
  eapply (wp_field _ 148 8); [apply (does_snprintf 148 7 _ cs); (done || lia)|exact Hf13|exact F13|put..|]. intros _ m14 H14 Hf14 F14 E14. apply wp_ret. split; [done|].
  exists H14. split; [done|]. exists ds, cs. split_and!; try done; [rewrite Vcs, E14, csum_splice; [done|rewrite length_app; cbn; lia|apply Hf13]|].
  clear -F14. unfold facts in *. repeat match goal with Hx : Forall _ (_ :: _) |- _ => apply Forall_cons in Hx as [? Hx] end.
  repeat (apply Forall_cons; split; [assumption|]). by apply Forall_nil.
Qed.

(** ** Reading it back *)

Lemma not_all_zeros m l : forall p, bytes_at m p l -> ~ Forall (fun c => c = 0) l -> is_all_zeros (length l) p m = Ok (false, m).
Proof.
  induction l as [|c l IH]; intros p Hb Hn; [by destruct Hn|]. destruct Hb as (E&_&Hb). cbn [is_all_zeros length]. rewrite (bind_ok _ _ _ _ _ (load_eq _ _ _ E)).
  destruct (Z.eqb_spec c 0) as [->|]; cbn [negb]; [|done]. apply IH; [done|]. intros Hl. apply Hn. by constructor.
Qed.

Lemma fact_bytes m H (e : Z * Z * list Z) : frame m H -> zlen e.2 = e.1.2 /\ 0 <= e.1.1 /\ e.1.1 + e.1.2 <= 512 /\ holds H e.1.1 e.2 -> bytes_at m (h + e.1.1) e.2.
Proof.
  destruct e as [[ofs n] bs]. cbn [fst snd]. intros Hf (Hn&H0&Ho&Hh). apply bytes_at_lookup. intros k b Hk.
  pose proof (lookup_lt_Some _ _ _ Hk). pose proof (fr_len _ _ Hf). rewrite <- (proj1 (holds_lookup H ofs bs ltac:(lia) ltac:(lia)) Hh k ltac:(lia)) in Hk.
  destruct (proj1 (bytes_at_lookup m h H) (fr_bytes _ _ Hf) _ _ Hk) as [E Hu]. split; [|done]. rewrite <- E. f_equal. lia.
Qed.

Lemma facts_bytes m H l : frame m H -> facts H l -> Forall (fun e => bytes_at m (h + e.1.1) e.2) l.
Proof. intros Hf Hl. eapply Forall_impl; [exact Hl|]. intros e. by apply fact_bytes. Qed.

Lemma octal_read_field m s w ds : bytes_at m s (ds ++ [0]) -> Forall octal_digit ds -> zlen ds = w -> 0 < w -> octal ds < 2 ^ 32 ->
  parse_octal_field s (w + 1) m = Ok (Some (octal ds), m).
Proof.
  intros Hb Hd Hl Hw Hr. unfold parse_octal_field. apply (octal_read m s ds); [by rewrite Z.add_0_r|done|lia|lia|lia|done].
Qed.

Lemma parse_made m H name type size : frame m H -> header_of name type size H -> safe name -> Forall (fun c => 0 < c < 256) name ->
  type ∈ [USTAR_REGULAR; USTAR_DIRECTORY] -> 0 <= size < 2 ^ 31 ->
  exists p, ustar_parse_header L h m = Ok (inr (p, type, if type =? USTAR_REGULAR then size else 0), m) /\ str_at m p name.
Proof.
  intros Hf (ds&cs&Lds&Dds&Vds&Lcs&Dcs&Vcs&F) Hsafe Hname Ht Hsz. pose proof (fr_ok _ _ Hf) as Hm. pose proof (frame_lits _ _ Hf) as HLm. pose proof (fr_bytes _ _ Hf) as HH. pose proof (fr_len _ _ Hf) as HlH.
  pose proof (csum_bound 0 H (bytes_at_in_u _ _ _ HH)) as Hc. rewrite HlH in Hc. pose proof (facts_bytes _ _ _ Hf F) as B. clear F Hf.
  repeat match goal with Hx : Forall _ (_ :: _) |- _ => apply Forall_cons in Hx as [? Hx]; cbn [fst snd] in * end.
  rename H0 into Bname, H1 into B99, H2 into Bprefix, H3 into Bsize, H4 into Btype, H5 into Bmagic, H6 into Bv1, H7 into Bv0, H8 into Bsum.
  rewrite Z.add_0_r in Bname. destruct B99 as (B99&_&_), Bprefix as (Bprefix&_&_), Btype as (Btype&_&_), Bv1 as (Bv1&_&_), Bv0 as (Bv0&_&_).
  assert (str_at m h name) as Hs. { apply str_bytes. split; [done|]. rewrite Forall_forall in Hname. intros Hx%Hname. lia. }
  assert (is_all_zeros 512 h m = Ok (false, m)) as Ez.
  { pose proof (not_all_zeros m H h HH) as Hz. rewrite HlH in Hz. apply Hz. intros Hall. destruct (lookup_lt_is_Some_2 H 257 ltac:(lia)) as [b Hb].
    destruct (proj1 (bytes_at_lookup m h H) HH _ _ Hb) as [E _]. destruct Bmagic as (E'&_). change (h + Z.of_nat 257) with (h + 257) in E. rewrite Forall_forall in Hall.
    rewrite (Hall b) in E by (by eapply list_elem_of_lookup_2). change (m !! (h + 257) = Some 117) in E'. congruence. }
  assert (CString.memcmp (h + 257) (ustar L) 6 m = Ok (0, m)) as Ec.
  { change 6 with (zlen (Stdio.chars "ustar" ++ [0])). rewrite (CString.memcmp_eq m (h + 257) (ustar L) (Stdio.chars "ustar" ++ [0]) (Stdio.chars "ustar" ++ [0])); [|done|done|apply str_bytes, HLm|done]. by rewrite (proj2 (CString.lex_zero _ _)). }
  assert (calculate_chksum h m = Ok (csum 0 H, m)) as Es.
  { unfold calculate_chksum. pose proof (chksum_eq m h H 0 0) as E. rewrite HlH, Z.add_0_r, Z.add_0_l in E. apply E; (done || lia). }
  unfold ustar_parse_header. rewrite (bind_ok _ _ _ _ _ Ez), (bind_ok _ _ _ _ _ Ec). cbn [Z.eqb negb]. rewrite (bind_ok _ _ _ _ _ (load_eq _ _ _ Bv0)). cbn [Z.eqb Pos.eqb negb].
  rewrite <- Z.add_assoc. rewrite (bind_ok _ _ _ false m) by (rewrite (bind_ok _ _ _ _ _ (load_eq _ _ _ Bv1)); done).
  rewrite (bind_ok _ _ _ _ _ (octal_read_field m (h + 148) 7 cs Bsum Dcs Lcs ltac:(lia) ltac:(lia))), (bind_ok _ _ _ _ _ Es), Vcs, Z.eqb_refl. cbn [negb].
  rewrite Z.add_0_r, (bind_ok _ _ _ _ _ (load_eq _ _ _ B99)). cbn [Z.eqb negb]. rewrite (bind_ok _ _ _ false m) by (rewrite (bind_ok _ _ _ _ _ (load_eq _ _ _ Bprefix)); done).
  rewrite (bind_ok _ _ _ _ _ (load_eq _ _ _ Btype)). assert (negb (type =? 48) && negb (type =? 53) = false) as -> by (rewrite !elem_of_cons in Ht; destruct Ht as [->|[->|Ht]]; [done|done|by apply elem_of_nil in Ht]).
  rewrite (bind_ok _ _ _ (inr (if type =? 48 then size else 0)) m).
  - destruct (strip_ok L m Hm HLm h name Hs) as (p&E&Hp&_). rewrite clean_idem in Hp by done. exists p. by rewrite (bind_ok _ _ _ _ _ E).
  - destruct (type =? 48); [|done]. rewrite (bind_ok _ _ _ _ _ (octal_read_field m (h + 124) 11 ds Bsize Dds Lds ltac:(lia) ltac:(lia))), Vds. by rewrite (proj2 (Z.ltb_ge INT_MAX size)) by lia.
Qed.
End make.

Lemma name_chars m p s : str_at m p s -> Forall (fun c => 0 < c < 256) s.
Proof. revert p. induction s as [|c s IH]; intros p Hs; [done|]. destruct Hs as (_&Hc&Hs). constructor; [done|by eapply IH]. Qed.

(** C19. A header made for a file is parsed back to the same type, the same size
    (0 for a directory) and the name without its dangerous prefixes, and making
    it changes nothing outside of the 512 bytes; a name that is too long is
    refused and nothing changes. *)
Theorem ustar_roundtrip L m h H file_name s type size :
  mem_ok m -> lits_at m L -> lits_apart L h -> bytes_at m h H -> length H = 512%nat ->
  str_at m file_name s -> apart h file_name s -> type ∈ [USTAR_REGULAR; USTAR_DIRECTORY] -> 0 <= size < 2 ^ 31 ->
  wp (ustar_make_header L file_name type size h) (fun ok m' =>
    if decide (zlen (clean s) <= 99) then
      ok = true /\ (forall x, ~ (h <= x < h + 512) -> m' !! x = m !! x) /\
      exists p, ustar_parse_header L h m' = Ok (inr (p, type, if type =? USTAR_REGULAR then size else 0), m') /\ str_at m' p (clean s)
    else ok = false /\ m' = m) m.
Proof.
  intros Hm HL HA HH Hl Hs Ha Ht Hsz. assert (0 < h) as Hh.
  { pose proof (bytes_at_mapped _ _ _ HH) as Hmap. pose proof (mem_ok_lookup m h Hm (Hmap h ltac:(lia))). lia. }
  eapply wp_mono; [by apply (make_ok L m h Hm HL HA file_name s type size H)|]. intros ok m'. cbn beta. case_decide; [|done]. intros (->&H'&Hf&Hd).
  split_and!; [done|apply Hf|]. apply (parse_made L m h HL HA m' H' (clean s) type size Hf Hd); [apply clean_safe| |done|done].
  destruct (strip_ok L m Hm HL file_name s Hs) as (p&_&Hp&_). by eapply name_chars.
Qed.

(** A memory with the literals, a name and room for a header. *)
Definition ex_lits : literals := Lits 10 20 30 40 50 60 70.
Definition ex_mem : mem :=
  foldr (fun e m => write m e.1 (e.2 ++ [0])) (write ∅ 1000 (replicate 512 7))
    [(10, [46; 47]); (20, [46; 46; 47]); (30, [46; 46]); (40, [46]); (50, Stdio.chars "0000000"); (60, Stdio.chars "ustar"); (70, Stdio.chars "root"); (100, Stdio.chars "../etc/x")].

Lemma ex_str p s : bool_decide (str_at ex_mem p s) = true -> str_at ex_mem p s.
Proof. apply bool_decide_eq_true_1. Qed.
Lemma ex_lits_at : lits_at ex_mem ex_lits.
Proof. split; apply ex_str; vm_compute; reflexivity. Qed.
Lemma ex_mem_ok : mem_ok ex_mem.
Proof. apply (bool_decide_unpack _). vm_compute. exact I. Qed.
Lemma ex_header : bytes_at ex_mem 1000 (replicate 512 7).
Proof. apply (bool_decide_unpack _). vm_compute. exact I. Qed.

Lemma ustar_roundtrip_witness :
  wp (ustar_make_header ex_lits 100 USTAR_REGULAR 1234 1000) (fun ok m' => ok = true /\
    exists p, ustar_parse_header ex_lits 1000 m' = Ok (inr (p, USTAR_REGULAR, 1234), m') /\ str_at m' p (Stdio.chars "etc/x")) ex_mem.
Proof.
  eapply wp_mono.
  - apply (ustar_roundtrip ex_lits ex_mem 1000 (replicate 512 7) 100 (Stdio.chars "../etc/x") USTAR_REGULAR 1234 ex_mem_ok ex_lits_at).
    + split; left; cbn; lia.
    + apply ex_header.
    + apply length_replicate.
    + apply ex_str. vm_compute. reflexivity.
    + left. cbn. lia.
    + by apply (bool_decide_unpack _).
    + lia.
  - intros ok m'. cbn beta. rewrite decide_True by (vm_compute; intros [=]). by intros (->&_&Hp).
Defined.

Lemma parse_header_safe_witness : exists msg, ustar_parse_header ex_lits 1000 ex_mem = Ok (inl msg, ex_mem).
Proof.
  destruct (parse_header_safe ex_lits ex_mem 1000 (replicate 512 7) ex_mem_ok ex_lits_at ex_header (length_replicate _ _)) as (r&E&_).
  destruct r as [msg|x]; [by exists msg|]. vm_compute in E. discriminate.
Defined.
End Ustar.
