(* ===== verification/Boot.v ===== *)
(** * The page tables of the kernel: paging_init in threads/init.c

    The directory the kernel starts with maps the physical memory at
    [PHYS_BASE] and nothing else; it is what [pagedir_create] copies and what
    the loader of programs relies on. *)

From S2P Require Import Prelude.
From S2P Require Import Mem.
From S2P Require Import Words.
From S2P Require Import Vaddr.
From S2P Require Import Bitmap.
From S2P Require Import Palloc.
From S2P Require Import Pagedir.
Local Open Scope Z_scope.

Module Boot.
Import Mem Words Vaddr Pagedir.

(** ** The code *)

Section code.
(** The running thread, the size of memory, and the symbols of the linker. *)
Context (cur init_ram_pages start end_kernel_text : Z).

Abbreviation get_page := (on_pages (Palloc.palloc_get_page cur (Z.lor Palloc.PAL_ASSERT Palloc.PAL_ZERO))).

(** The body of the loop, with the variable [pt]. *)
Definition map_page (pd : ptr) (page : Z) (pt : ptr) : M state ptr :=
  let paddr := u32 (page * PGSIZE) in
  let! vaddr := lift_res (ptov paddr) in
  let pde_idx := pd_no vaddr in
  let pte_idx := pt_no vaddr in
  let in_kernel_text := (start <=? vaddr) && (vaddr <? end_kernel_text) in
  let! e := on_mem (load32 (pd + 4 * pde_idx)) in
  let! pt := (if e =? 0 then
                let! pt := get_page in
                let! e := lift_res (pde_create pt) in
                do! on_mem (store32 (pd + 4 * pde_idx) e) in
                ret pt
              else ret pt) in
  let! w := lift_res (pte_create_kernel vaddr (negb in_kernel_text)) in
  do! on_mem (store32 (pt + 4 * pte_idx) w) in
  ret pt.

Fixpoint map_loop (n : nat) (pd : ptr) (page : Z) (pt : ptr) : M state unit :=
  match n with O => ret tt | S n' => let! pt := map_page pd page pt in map_loop n' pd (page + 1) pt end.

(** The result is the new value of [init_page_dir]. *)
Definition paging_init : M state ptr :=
  let! pd := get_page in
  do! map_loop (Z.to_nat init_ram_pages) pd 0 NULL in
  let! pa := lift_res (vtop pd) in
  do! modify (fun s => St (pages s) pa ∅) in
  ret pd.
End code.

(** ** Free pages *)

(** The kernel pool has [n] free pages. *)
Definition room (n : nat) (p : Palloc.state) : Prop :=
  exists l, NoDup l /\ length l = n /\ Forall (fun a => Palloc.run p false a 1 false) l.

Lemma room_mem n m p : room n p -> room n (set_mem m p).
Proof. intros (l&Hn&Hl&Hf). exists l. split_and!; [done|done|]. eapply Forall_impl; [exact Hf|]. intros a []. by split; rewrite ?Palloc.get_set_mem. Qed.

Lemma run_other p a p' x : Palloc.pages_set p false a 1 true p' -> Palloc.run p false x 1 false -> x <> a -> Palloc.run p' false x 1 false.
Proof.
  intros [_ [A1 _ _ _] B U] [X1 X2 X3 X4] Hne. destruct (B false) as [B1 B2]. split; rewrite ?B1, ?B2; try done.
  intros b Hb. rewrite U. apply Palloc.in_run_spec in Hb as Hb'. assert (Palloc.in_run a 1 b = false) as ->; [|by rewrite andb_false_r; apply X4].
  apply not_true_is_false. intros Ha%Palloc.in_run_spec. zlia.
Qed.

Lemma get_room cur n p : Palloc.wf p -> room (S n) p ->
  exists a p', Palloc.palloc_get_page cur (Z.lor Palloc.PAL_ASSERT Palloc.PAL_ZERO) p = Ok (a, p') /\ Palloc.pages_set p false a 1 true p' /\
    mem_of p' = Palloc.fill a 1 0 (mem_of p) /\ room n p'.
Proof.
  intros Hw (l&Hn&Hl&Hf). destruct (Palloc.get_multiple_ok cur (Z.lor Palloc.PAL_ASSERT Palloc.PAL_ZERO) 1 p Hw ltac:(lia)) as [(a&p'&E&Hs&Hm)|[Hno _]].
  - exists a, p'. split_and!; [done|done|done|]. destruct (decide (a ∈ l)) as [Ha|Ha].
    + apply elem_of_Permutation in Ha as [k Hk]. rewrite Hk in Hn, Hl, Hf. apply NoDup_cons in Hn as [Hnk Hn]. apply Forall_cons in Hf as [_ Hf]. cbn in Hl.
      exists k. split_and!; [done|lia|]. rewrite Forall_forall in *. intros x Hx. eapply run_other; [exact Hs|by apply Hf|]. intros ->. exact (Hnk Hx).
    + destruct l as [|x l]; [discriminate Hl|]. apply NoDup_cons in Hn as [_ Hn]. apply Forall_cons in Hf as [_ Hf]. cbn in Hl. apply not_elem_of_cons in Ha as [_ Ha]. exists l. split_and!; [done|lia|].
      rewrite Forall_forall in *. intros y Hy. eapply run_other; [exact Hs|by apply Hf|]. intros ->. exact (Ha Hy).
  - destruct l as [|x l]; [discriminate Hl|]. apply Forall_cons in Hf as [Hx _]. by destruct (Hno x).
Qed.

(** ** The invariant of the loop *)

Section init.
Context (cur start end_kernel_text : Z) (p0 : Palloc.state) (pd : ptr).

(** The entry for physical page [n]: present, for the kernel only, and
    writable unless it is in the text of the kernel. *)
Definition kernel_pte (n : Z) : Z :=
  let va := PHYS_BASE + 4096 * n in 4096 * n + if (start <=? va) && (va <? end_kernel_text) then 1 else 3.

(** [n] pages are mapped, by the [t] tables [f 0], [f 1], ... *)
Record mapping (n t : Z) (f : Z -> ptr) (p : Palloc.state) : Prop := Mapping {
  mp_wf : Palloc.wf p;
  mp_pd : kpage p pd;
  mp_tab : forall i, 0 <= i < t -> kpage p (f i) /\ f i <> pd /\ ~ kpage p0 (f i);
  mp_inj : forall i j, 0 <= i < t -> 0 <= j < t -> f i = f j -> i = j;
  mp_pde : forall k, 0 <= k < 1024 -> rd (mem_of p) (pd + 4 * k) = if (768 <=? k) && (k <? 768 + t) then f (k - 768) - PHYS_BASE + 7 else 0;
  mp_pte : forall i j, 0 <= i < t -> 0 <= j < 1024 -> rd (mem_of p) (f i + 4 * j) = if 1024 * i + j <? n then kernel_pte (1024 * i + j) else 0;
  mp_old : untouched (fun _ => False) p0 p }.

Context (Hnew : ~ kpage p0 pd).

(** A word written into a page that is new. *)
Lemma write_new p x k w : Palloc.wf p -> untouched (fun _ => False) p0 p -> kpage p x -> ~ kpage p0 x -> 0 <= k < 1024 ->
  let p' := set_mem (write (mem_of p) (x + 4 * k) (le32 w)) p in
  Palloc.wf p' /\ untouched (fun _ => False) p0 p' /\ (forall y, kpage p y -> kpage p' y) /\ mapped (mem_of p) (x + 4 * k) 4.
Proof.
  intros Hw Hu Hx Hn Hk p'. destruct (Palloc.kpage_props _ _ Hw Hx) as (Ha&_&_&Hm). assert (mapped (mem_of p) (x + 4 * k) 4) as Hm4 by (intros q Hq; apply Hm; lia).
  split_and!; [apply Palloc.write_wf; [done|done|apply le32_bytes]| |done|done].
  intros u y Hy. destruct (Hu u y Hy) as [Hy1 Ey]. unfold p'. rewrite Palloc.get_set_mem. split; [done|]. intros Hf q Hq. cbn [Palloc.memory Palloc.set_mem].
  rewrite lookup_write, decide_False; [by apply Ey|]. assert (y <> x) as Hne.
  { intros ->. destruct u; [|done]. by pose proof (Palloc.in_use_pool p true false x Hw Hy1 Hx). }
  destruct (Palloc.in_use_props p u y Hw Hy1) as (Hay&_). pose proof (Palloc.page_disj y x Hay Ha Hne). change (length (le32 w)) with 4%nat. lia.
Qed.

(** The words of other pages, and of other entries, stay. *)
Lemma rd_other p x k w y j : Palloc.wf p -> kpage p x -> kpage p y -> 0 <= k < 1024 -> 0 <= j < 1024 -> in_u 32 w ->
  rd (write (mem_of p) (x + 4 * k) (le32 w)) (y + 4 * j) = if decide (x = y /\ k = j) then w else rd (mem_of p) (y + 4 * j).
Proof.
  intros Hw Hx Hy Hk Hj Hu. destruct (Palloc.kpage_props _ _ Hw Hx) as (Hax&_). destruct (Palloc.kpage_props _ _ Hw Hy) as (Hay&_).
  destruct (decide (x = y)) as [->|Hne].
  - rewrite rd_write by (done || lia). destruct (Z.eqb_spec (y + 4 * k) (y + 4 * j)); case_decide; try done; lia.
  - pose proof (Palloc.page_disj x y Hax Hay Hne). rewrite rd_write by (done || lia). rewrite (proj2 (Z.eqb_neq _ _)) by lia. rewrite decide_False; [done|naive_solver].
Qed.

(** Address arithmetic of physical page [n]. *)
Lemma page_addr n : 0 <= n < 2 ^ 18 -> let va := PHYS_BASE + 4096 * n in
  ptov (u32 (n * PGSIZE)) = Ok va /\ pd_no va = 768 + n / 1024 /\ pt_no va = n mod 1024.
Proof.
  intros Hn va. unfold va, ptov, PGSIZE, PHYS_BASE. rewrite (wrapu_small 32 (n * 4096)) by (unfold in_u; lia). rewrite (proj2 (Z.ltb_lt _ _)) by lia.
  rewrite pd_no_div, pt_no_div, wrapu_small by (unfold in_u; lia). split_and!; [f_equal; lia|zlia|zlia].
Qed.

Lemma kernel_pte_eq n : 0 <= n < 2 ^ 18 -> let va := PHYS_BASE + 4096 * n in
  pte_create_kernel va (negb ((start <=? va) && (va <? end_kernel_text))) = Ok (kernel_pte n) /\ in_u 32 (kernel_pte n).
Proof.
  intros Hn va. unfold kernel_pte. fold va. set (b := _ && _). split; [|unfold in_u; destruct b; lia].
  unfold pte_create_kernel, vtop, is_kernel_vaddr. unfold va, PHYS_BASE. rewrite pg_ofs_mod. replace ((0xc0000000 + 4096 * n) mod 4096) with 0 by zlia.
  rewrite (proj2 (Z.leb_le _ _)) by lia. cbn [rbind Z.eqb]. rewrite wrapu_small by (unfold in_u; lia). replace (0xc0000000 + 4096 * n - 0xc0000000) with (4096 * n) by lia.
  rewrite <- Z.lor_assoc. assert (Z.lor PTE_P (if negb b then PTE_W else 0) = if b then 1 else 3) as -> by (by destruct b).
  rewrite (lor_low _ _ 12); [done|lia|destruct b; lia|zlia].
Qed.

(** A page is entered into the last table. *)
Lemma enter_ok n t f p : mapping n t f p -> 0 <= n < 1024 * t -> 1024 * (t - 1) <= n -> 0 <= n < 2 ^ 18 ->
  mapping (n + 1) t f (set_mem (write (mem_of p) (f (t - 1) + 4 * (n mod 1024)) (le32 (kernel_pte n))) p) /\ mapped (mem_of p) (f (t - 1) + 4 * (n mod 1024)) 4.
Proof.
  intros [Hw Hp Ht Hi Hde Hte Ho] Hn Hlo Hr. destruct (Ht (t - 1) ltac:(lia)) as (K&Kd&K0). destruct (kernel_pte_eq n Hr) as [_ Hu].
  assert (0 <= n mod 1024 < 1024) as Hm by zlia. destruct (write_new p (f (t - 1)) (n mod 1024) (kernel_pte n) Hw Ho K K0 Hm) as (Hw'&Ho'&Hk'&Hmap). split; [|done].
  split; [done|by apply Hk'| |done| | |done].
  - intros i Hti. destruct (Ht i Hti) as (?&?&?). split_and!; [by apply Hk'|done|done].
  - intros k Hk. cbn [Palloc.memory set_mem]. rewrite rd_other, decide_False by (done || naive_solver). by apply Hde.
  - intros i j Hti Hj. destruct (Ht i Hti) as (Ki&_). cbn [Palloc.memory set_mem]. rewrite rd_other by done. destruct (decide (f (t - 1) = f i /\ n mod 1024 = j)) as [[E <-]|Hne].
    + apply Hi in E; [|lia|lia]. subst i. replace (1024 * (t - 1) + n mod 1024) with n by zlia. by rewrite (proj2 (Z.ltb_lt _ _)) by lia.
    + rewrite Hte by done. assert (1024 * i + j <> n). { intros En. apply Hne. assert (i = t - 1) as -> by zlia. split; [done|zlia]. }
      destruct (Z.ltb_spec (1024 * i + j) n), (Z.ltb_spec (1024 * i + j) (n + 1)); (done || lia).
Qed.

(** A page of zeros taken from the pool. *)
Lemma fresh_page p a p1 : Palloc.wf p -> Palloc.pages_set p false a 1 true p1 -> mem_of p1 = Palloc.fill a 1 0 (mem_of p) -> untouched (fun _ => False) p0 p ->
  Palloc.wf p1 /\ kpage p1 a /\ ~ kpage p a /\ ~ kpage p0 a /\ (forall y, kpage p y -> kpage p1 y) /\ untouched (fun _ => False) p0 p1 /\
  (forall j, 0 <= j < 1024 -> rd (mem_of p1) (a + 4 * j) = 0) /\ (forall y j, kpage p y -> 0 <= j < 1024 -> rd (mem_of p1) (y + 4 * j) = rd (mem_of p) (y + 4 * j)).
Proof.
  intros Hw Hs Em Ho. destruct (Palloc.fresh_kpage _ _ _ Hs) as (K1&K0&Km). pose proof (Palloc.ps_wf _ _ _ _ _ _ Hs) as Hw1. destruct (Palloc.kpage_props _ _ Hw1 K1) as (Ha&_).
  split; [exact Hw1|]. split; [exact K1|]. split; [exact K0|]. split; [|split; [exact Km|split; [|split]]].
  - intros Hk. destruct (Ho false a Hk) as [Hk' _]. exact (K0 Hk').
  - eapply Palloc.untouched_trans; [exact Ho|]. eapply Palloc.pages_set_untouched; [exact Hw|exact Hs|]. intros q Hq. by rewrite Em, Palloc.fill_lookup, decide_False by lia.
  - intros j Hj. rewrite Em. apply rd_zeros. lia.
  - intros y j Hy Hj. destruct (Palloc.kpage_props _ _ Hw Hy) as (Hay&_). assert (y <> a) as Hne by congruence. pose proof (Palloc.page_disj y a Hay Ha Hne).
    apply rd_ext. intros q Hq. by rewrite Em, Palloc.fill_lookup, decide_False by lia.
Qed.

(** The next table is made, and entered into the directory. *)
Lemma table_ok n t f p a p1 : mapping n t f p -> n <= 1024 * t -> 0 <= t < 256 -> Palloc.pages_set p false a 1 true p1 -> mem_of p1 = Palloc.fill a 1 0 (mem_of p) ->
  mapping n (t + 1) (fun i => if i =? t then a else f i) (set_mem (write (mem_of p1) (pd + 4 * (768 + t)) (le32 (a - PHYS_BASE + 7))) p1) /\
  mapped (mem_of p1) (pd + 4 * (768 + t)) 4 /\ pde_create a = Ok (a - PHYS_BASE + 7).
Proof.
  intros [Hw Hp Ht Hi Hde Hte Ho] Hn Hr Hs Em. destruct (fresh_page p a p1 Hw Hs Em Ho) as (Hw1&K1&Kn&K0&Km&Ho1&Hz&Hrd). clear Em Hs.
  destruct (Palloc.kpage_props _ _ Hw1 K1) as (Ha&Hlo&Hhi&_). unfold PHYS_BASE in *.
  assert (in_u 32 (a - 0xc0000000 + 7)) as Hu by (unfold in_u; lia). destruct (pde_eq a Ha ltac:(unfold PHYS_BASE; lia)) as [Epde _].
  destruct (write_new p1 pd (768 + t) (a - 0xc0000000 + 7) Hw1 Ho1 (Km _ Hp) Hnew ltac:(lia)) as (Hw2&Ho2&Km2&Hmap). split_and!; [|done|exact Epde].
  split; [done|by apply Km2, Km| | | | |done].
  - intros i Hi'. destruct (Z.eqb_spec i t) as [->|]; [split_and!; [by apply Km2|intros ->; exact (Kn Hp)|exact K0]|]. destruct (Ht i ltac:(lia)) as (?&?&?). split_and!; [by apply Km2, Km|done|done].
  - intros i j Hi' Hj'. destruct (Z.eqb_spec i t) as [->|], (Z.eqb_spec j t) as [->|]; [done| | |apply Hi; lia].
    + intros E. destruct (Ht j ltac:(lia)) as (Kj&_). rewrite <- E in Kj. by destruct (Kn Kj).
    + intros E. destruct (Ht i ltac:(lia)) as (Ki&_). rewrite E in Ki. by destruct (Kn Ki).
  - intros k Hk. cbn [Palloc.memory set_mem]. rewrite rd_other by (done || lia || by apply Km). destruct (decide (pd = pd /\ 768 + t = k)) as [[_ <-]|Hne].
    + rewrite (proj2 (Z.leb_le _ _)), (proj2 (Z.ltb_lt _ _)) by lia. cbn [andb]. replace (768 + t - 768) with t by lia. by rewrite Z.eqb_refl.
    + rewrite Hrd, Hde by done. assert (k <> 768 + t) as Hkt by naive_solver. rewrite (proj2 (Z.eqb_neq (k - 768) t)) by lia.
      destruct (Z.leb_spec 768 k), (Z.ltb_spec k (768 + t)), (Z.ltb_spec k (768 + (t + 1))); cbn [andb]; (done || lia).
  - intros i j Hi' Hj. cbn [Palloc.memory set_mem]. destruct (Z.eqb_spec i t) as [->|Hne].
    + rewrite rd_other, decide_False by (done || lia || (by apply Km) || (intros [-> _]; done)). rewrite Hz by done. by rewrite (proj2 (Z.ltb_ge _ _)) by lia.
    + destruct (Ht i ltac:(lia)) as (Ki&Kd&_). rewrite rd_other, decide_False by (done || lia || (by apply Km) || naive_solver). rewrite Hrd by done. apply Hte; lia.
Qed.

(** The number of tables for [n] pages. *)
Definition tables_for (n : Z) : Z := (n + 1023) / 1024.

Lemma map_page_ok n f pt s r : mapping n (tables_for n) f (pages s) -> 0 <= n < 2 ^ 18 -> (0 < n -> pt = f (tables_for n - 1)) ->
  room (Z.to_nat (tables_for (n + 1) - tables_for n) + r) (pages s) ->
  wp (map_page cur start end_kernel_text pd n pt) (fun pt' s' => room r (pages s') /\
    exists f', mapping (n + 1) (tables_for (n + 1)) f' (pages s') /\ pt' = f' (tables_for (n + 1) - 1)) s.
Proof.
  intros Hm Hn Hpt Hroom. destruct (page_addr n Hn) as (Ev&Ed&Et). destruct (kernel_pte_eq n Hn) as [Ek _]. pose proof (mp_wf _ _ _ _ Hm) as Hw.
  unfold map_page. apply wp_bind, wp_lift. rewrite Ev. eexists. split; [done|]. cbv zeta. rewrite Ed, Et. apply wp_bind.
  destruct (Palloc.kpage_props _ _ Hw (mp_pd _ _ _ _ Hm)) as (_&_&_&Hmp).
  apply wp_pte_load; [done|intros q Hq; apply Hmp; zlia|]. rewrite (mp_pde _ _ _ _ Hm) by zlia. rewrite (proj2 (Z.leb_le 768 _)) by zlia. cbn [andb].
  assert (forall g p (s1 : state), pages s1 = p -> mapping n (tables_for (n + 1)) g p -> room r p ->
    wp (let! w := lift_res (pte_create_kernel (PHYS_BASE + 4096 * n) (negb ((start <=? PHYS_BASE + 4096 * n) && (PHYS_BASE + 4096 * n <? end_kernel_text)))) in
        do! on_mem (store32 (g (tables_for (n + 1) - 1) + 4 * (n mod 1024)) w) in ret (g (tables_for (n + 1) - 1)))
      (fun pt' s' => room r (pages s') /\ exists f', mapping (n + 1) (tables_for (n + 1)) f' (pages s') /\ pt' = f' (tables_for (n + 1) - 1)) s1) as Hend.
  { intros g p s1 <- Hg Hr. apply wp_bind, wp_lift. rewrite Ek. eexists. split; [done|]. unfold tables_for in *. destruct (enter_ok n _ g (pages s1) Hg) as [H1 H2]; [zlia..|].
    apply wp_bind, wp_pte_store; [done|]. apply wp_ret. split; [by apply room_mem|]. by exists g. }
  unfold tables_for in *. destruct (Z.ltb_spec (768 + n / 1024) (768 + (n + 1023) / 1024)) as [Hlt|Hge].
  - assert ((n + 1 + 1023) / 1024 = (n + 1023) / 1024) as Et' by zlia. rewrite Et' in *. rewrite Z.sub_diag in Hroom. cbn in Hroom.
    replace (768 + n / 1024 - 768) with ((n + 1023) / 1024 - 1) by zlia. destruct (mp_tab _ _ _ _ Hm ((n + 1023) / 1024 - 1) ltac:(zlia)) as (K&_).
    destruct (Palloc.kpage_props _ _ Hw K) as (_&Hlo&_). rewrite (proj2 (Z.eqb_neq _ 0)) by lia. apply wp_bind, wp_ret. rewrite Hpt by zlia. by apply (Hend f (pages s) s).
  - assert ((n + 1 + 1023) / 1024 = (n + 1023) / 1024 + 1) as Et' by zlia. rewrite Et' in *. replace (Z.to_nat _) with 1%nat in Hroom by lia. cbn [Z.eqb].
    apply wp_bind, wp_bind, wp_zoom. destruct (get_room cur r (pages s) Hw Hroom) as (a&p1&E&Hs&Em&Hr). unfold wp at 1. rewrite E.
    destruct (table_ok n _ f (pages s) a p1 Hm) as (Hm'&Hmap&Epde); [zlia|zlia|done|done|].
    apply wp_bind, wp_lift. rewrite Epde. eexists. split; [done|]. replace (768 + n / 1024) with (768 + (n + 1023) / 1024) by zlia. apply wp_bind, wp_pte_store; [done|]. apply wp_ret. cbn [pages].
    replace (n / 1024) with ((n + 1023) / 1024) by zlia.
    pose proof (Hend _ _ (put_pages (set_mem (write (mem_of p1) (pd + 4 * (768 + (n + 1023) / 1024)) (le32 (a - PHYS_BASE + 7))) p1) (St p1 (cr3 s) (tlb s))) eq_refl Hm' (room_mem _ _ _ Hr)) as H.
    replace ((n + 1023) / 1024 + 1 - 1) with ((n + 1023) / 1024) in * by lia. rewrite Z.eqb_refl in H. exact H.
Qed.

Lemma map_loop_ok k : forall n f pt s, mapping n (tables_for n) f (pages s) -> 0 <= n -> n + Z.of_nat k <= 2 ^ 18 -> (0 < n -> pt = f (tables_for n - 1)) ->
  room (Z.to_nat (tables_for (n + Z.of_nat k) - tables_for n)) (pages s) ->
  wp (map_loop cur start end_kernel_text k pd n pt) (fun _ s' => exists f', mapping (n + Z.of_nat k) (tables_for (n + Z.of_nat k)) f' (pages s')) s.
Proof.
  induction k as [|k IH]; intros n f pt s Hm H0 Hn Hpt Hroom; cbn [map_loop]; [apply wp_ret; exists f; by rewrite Z.add_0_r|].
  replace (n + Z.of_nat (S k)) with (n + 1 + Z.of_nat k) in * by lia. apply wp_bind.
  eapply wp_mono; [apply (map_page_ok n f pt s (Z.to_nat (tables_for (n + 1 + Z.of_nat k) - tables_for (n + 1)))); [done|lia|done|]|].
  - replace (Z.to_nat (tables_for (n + 1) - tables_for n) + Z.to_nat (tables_for (n + 1 + Z.of_nat k) - tables_for (n + 1)))%nat with (Z.to_nat (tables_for (n + 1 + Z.of_nat k) - tables_for n)) by (unfold tables_for; zlia). done.
  - intros pt' s' (Hr&f'&Hm'&Ep). eapply IH; [exact Hm'|lia|lia|done|done].
Qed.
End init.

(** What [paging_init] leaves: a directory that maps page [n] of the physical
    memory at [PHYS_BASE + 4096 n] and nothing else. *)
Record kernel_map (ram start end_kernel_text : Z) (s : state) (pd : ptr) (s' : state) : Prop := KernelMap {
  km_wf : Palloc.wf (pages s');
  km_dir : base_dir pd (pages s');
  km_cr3 : cr3 s' = pd - PHYS_BASE;
  km_tlb : tlb s' = ∅;
  km_old : untouched (fun _ => False) (pages s) (pages s');
  km_entry : forall n, 0 <= n < 2 ^ 18 ->
    entry (mem_of (pages s')) pd (PHYS_BASE + 4096 * n) = if n <? ram then kernel_pte start end_kernel_text n else 0 }.

Lemma paging_ok cur ram start end_kernel_text s :
  Palloc.wf (pages s) -> 0 <= ram <= 2 ^ 18 -> room (1 + Z.to_nat (tables_for ram)) (pages s) ->
  wp (paging_init cur ram start end_kernel_text) (kernel_map ram start end_kernel_text s) s.
Proof.
  intros Hw Hram Hroom. unfold paging_init. apply wp_bind, wp_zoom. destruct (get_room cur _ (pages s) Hw Hroom) as (pd&p1&E&Hs&Em&Hr). unfold wp at 1. rewrite E.
  destruct (fresh_page (pages s) (pages s) pd p1 Hw Hs Em (Palloc.untouched_refl _ _)) as (Hw1&K1&_&K0&_&Ho1&Hz&_). clear Em Hs E.
  assert (mapping start end_kernel_text (pages s) pd 0 (tables_for 0) (fun _ => NULL) p1) as Hm.
  { split; [done|done|intros i Hi; change (tables_for 0) with 0 in Hi; lia|intros i j Hi; change (tables_for 0) with 0 in Hi; lia| |intros i j Hi; change (tables_for 0) with 0 in Hi; lia|done].
    intros k Hk. rewrite Hz by done. change (tables_for 0) with 0. destruct (Z.leb_spec 768 k), (Z.ltb_spec k (768 + 0)); cbn [andb]; (done || lia). }
  apply wp_bind. eapply wp_mono; [apply (map_loop_ok cur start end_kernel_text (pages s) pd K0 (Z.to_nat ram) 0 (fun _ => NULL) NULL (St p1 (cr3 s) (tlb s)) Hm)|]; [lia|lia|lia| |].
  { rewrite Z2Nat.id, Z.add_0_l by lia. change (tables_for 0) with 0. by rewrite Z.sub_0_r. }
  rewrite Z2Nat.id, Z.add_0_l by lia. intros _ s1 (f&Hf). destruct (Palloc.kpage_props _ _ (mp_wf _ _ _ _ _ _ _ _ Hf) (mp_pd _ _ _ _ _ _ _ _ Hf)) as (Ha&Hlo&Hhi&_).
  apply wp_bind, wp_lift. unfold vtop, is_kernel_vaddr. unfold PHYS_BASE in *. rewrite (proj2 (Z.leb_le _ pd)), wrapu_small by (unfold in_u; lia). eexists. split; [done|].
  apply wp_bind, wp_modify, wp_ret. split; cbn [pages cr3 tlb]; [apply Hf|split; [apply Hf|]|done|done|apply Hf|].
  - intros i Hi. rewrite (mp_pde _ _ _ _ _ _ _ _ Hf) by lia. by rewrite (proj2 (Z.leb_gt 768 i)) by lia.
  - intros n Hn. destruct (page_addr n Hn) as (_&Ed&Et). unfold PHYS_BASE in *. unfold entry, pt_of. rewrite Ed, Et. rewrite (mp_pde _ _ _ _ _ _ _ _ Hf) by zlia.
    rewrite (proj2 (Z.leb_le 768 _)) by zlia. cbn [andb]. unfold tables_for in *. destruct (Z.ltb_spec (768 + n / 1024) (768 + (ram + 1023) / 1024)).
    + replace (768 + n / 1024 - 768) with (n / 1024) by lia. destruct (mp_tab _ _ _ _ _ _ _ _ Hf (n / 1024) ltac:(zlia)) as (K&_).
      destruct (Palloc.kpage_props _ _ (mp_wf _ _ _ _ _ _ _ _ Hf) K) as (Hfa&Hfl&Hfh&_). unfold PHYS_BASE in *. rewrite (proj2 (Z.eqb_neq _ 0)) by lia.
      destruct (pde_eq (f (n / 1024)) Hfa ltac:(unfold PHYS_BASE; lia)) as (_&_&Ef). unfold PHYS_BASE in Ef. rewrite Ef, (mp_pte _ _ _ _ _ _ _ _ Hf) by zlia.
      by replace (1024 * (n / 1024) + n mod 1024) with n by zlia.
    + cbn [Z.eqb]. by rewrite (proj2 (Z.ltb_ge n ram)) by zlia.
Qed.

(** ** The memory of the machine at start-up *)

(** A pool with no page in use has room for all its pages. *)
Lemma free_room n p : Palloc.wf p -> (forall u x, Palloc.in_use (Palloc.get_pool u p) x = false) -> Z.of_nat n <= Bitmap.bit_cnt (Palloc.used_map (Palloc.kernel_pool p)) -> room n p.
Proof.
  intros Hw Hfree Hn. pose proof (Palloc.pw_align _ (Palloc.w_pool _ Hw false)) as Ha. cbn in Ha. set (b := Palloc.base (Palloc.kernel_pool p)) in *.
  exists ((fun i => b + 4096 * i) <$> seqZ 0 (Z.of_nat n)). split_and!.
  - apply NoDup_fmap_2_strong; [intros; lia|apply NoDup_seqZ].
  - by rewrite length_fmap, length_seqZ, Nat2Z.id.
  - apply Forall_forall. intros a (i&->&Hi%elem_of_seqZ)%list_elem_of_fmap. split; [zlia|cbn; fold b; lia|unfold Palloc.pool_end; cbn; fold b; lia|]. intros x _. apply Hfree.
Qed.

(** C25. When memory and the limits on the pools leave the kernel pool enough
    pages for the directory and the tables (its share of the pages, less those
    of its bitmap), and the user pool more than one page, [palloc_init]
    followed by [paging_init] succeeds.  The directory maps exactly the
    physical memory: page [n] of it at [PHYS_BASE + 4096 n], present, not
    accessible to user programs, and writable unless it holds the code of the
    kernel; every other kernel address and all user addresses are not mapped.
    The directory is active and the allocator well formed. *)
Theorem memory_start_up cur ram start end_kernel_text m junk ul fl c0 t0 : let k := Palloc.kernel_share ram ul fl in
  260 <= ram <= 2 ^ 18 -> 1 < ul -> 1 < k -> 1 + tables_for ram <= k - Palloc.bm_pages k -> Palloc.words_for junk ->
  mem_ok m -> byte_mem m -> mapped m (PHYS_BASE + 2 ^ 20) (4096 * (ram - 256)) ->
  exists p, Palloc.palloc_init ram m junk ul fl = Ok p /\
    wp (paging_init cur ram start end_kernel_text) (kernel_map ram start end_kernel_text (St p c0 t0)) (St p c0 t0).
Proof.
  intros k Hram Hul Hk Hroom Hj Hm Hb Hmap. destruct (Palloc.palloc_init_ok ram m junk ul fl) as (p&E&Hw&_&Hfree&Hsize); [done..|]. fold k in Hsize.
  exists p. split; [done|]. apply paging_ok; [done|lia|]. apply free_room; [done|done|]. cbn [pages].
  rewrite Nat2Z.inj_add, Z2Nat.id by (unfold tables_for; zlia). lia.
Qed.

(** Without limits, 272 pages of memory are enough. *)
Lemma enough_memory ram : 272 <= ram <= 2 ^ 18 -> let k := Palloc.kernel_share ram (2 ^ 32 - 1) (2 ^ 32 - 1) in
  1 < k /\ 1 + tables_for ram <= k - Palloc.bm_pages k.
Proof. intros Hr. unfold Palloc.kernel_share, tables_for, Palloc.bm_pages. rewrite (Z.min_r _ (ram - 256)), Z.min_r by zlia. zlia. Qed.

Lemma memory_start_up_witness :
  exists p, Palloc.palloc_init 1024 (blank 0xc0100000 (4096 * 768)) (fun n => replicate (Z.to_nat n) 7) (2 ^ 32 - 1) (2 ^ 32 - 1) = Ok p /\
    wp (paging_init 1 1024 0xc0020000 0xc0030000) (kernel_map 1024 0xc0020000 0xc0030000 (St p 0 ∅)) (St p 0 ∅).
Proof.
  destruct (enough_memory 1024 ltac:(lia)) as [H1 H2].
  apply (memory_start_up 1 1024 0xc0020000 0xc0030000); [lia|lia|exact H1|exact H2| |by apply blank_ok|by apply blank_bytes|by apply blank_mapped].
  intros n Hn. rewrite length_replicate. split; [lia|]. apply Forall_replicate. unfold in_u; lia.
Defined.
End Boot.
